(* ===== verification/_CoqProject ===== *)
-Q . S2P
Prelude.v
Locks.v
Bitmap.v
PhysMem.v
VirtMem.v
VmFacts.v
VmTree.v
FsDefines.v
CString.v
CList.v
Arena.v
ArenaFacts.v
ArenaTest.v
Console.v
Format.v
Mmio.v
KernelPt.v
Drivers.v
Sd.v
SdFacts.v
SdQueue.v
SdBlock.v
SdDemo.v
BlockIface.v
Cache.v
CacheFacts.v
CacheLog.v
CacheTx.v
NestedOp.v
CacheSpec.v
CacheAlloc.v
Inode.v
InodeFacts.v
InodeDisk.v
FsDemo.v
InodeFile.v
DirFacts.v
Namei.v
Tree.v
FileDemo.v
Fs.v
Mkfs.v
File.v
FileFacts.v
FsAtomic.v
Kernel.v
SysArg.v
Exec.v
Sysfile.v
Create.v
CreateAtomic.v
CreateDemo.v
Proc.v
ProcFacts.v
ProcTable.v
Fork.v
Syscall.v
StartLock.v
Boot.v
SyscallFacts.v
User.v
UserFacts.v
UserDemo.v
Sh.v
ShFacts.v
ShRun.v
