(* ===== verification/Prelude.v ===== *)
(** * FTOS-FFS: a verification development

    FTOS-FFS is a small Unix-like kernel for the Raspberry Pi 3 with containers
    and a file system in the manner of the Fast File System: the disk is
    divided into groups of blocks, each with its own inodes and bitmap, and a
    write-ahead log makes the operations on the disk atomic. Paths below are
    relative to src/FTOS-FFS/src.

    ** The parts, and the files that model them

    - Common code. Bitmap.v: common/bitmap.h, bitmap.c. CString.v:
      common/string.c. CList.v: common/list.c (circular lists over a store of
      nodes) and rc.c. Format.v: common/format.c and the output functions of
      core/console.c. Locks.v: common/spinlock.c, core/sleeplock.c, with
      [sleep] and [wakeup] of core/proc.c as interleaved steps.
    - Devices. Mmio.v: registers (aarch64/arm.h, intrinsic.h, driver/base.h,
      gpio.h), a device being a state machine behind them, the class [Mmio].
      Drivers.v: driver/uart.c, mbox.c, clock.c and the registers of
      interrupt.c. Sd.v: driver/sd.c, buf.h, and [sd_read], [sd_write] of
      fs/block_device.c; SdFacts.v: the class [SdCard], which states what the
      driver relies on of the controller, and one request; SdQueue.v: the
      queue of requests, with the steps of [sdrw] that run without the lock
      interleaved; SdBlock.v: the block device;
      SdDemo.v: a card for which the class holds. Console.v: core/console.c.
    - Memory. PhysMem.v: core/physical_memory.c, memory as bytes and the free
      list threaded through it. VirtMem.v and VmFacts.v:
      core/virtual_memory.c, page tables in that memory; VmTree.v: whole
      address spaces, copied and freed. KernelPt.v: aarch64/kernel_pt.c, the
      constant tables of the kernel. Arena.v and ArenaFacts.v: core/arena.c, over any page allocator; ArenaTest.v: the
      class [PagePool] of such allocators, of which [kalloc] and [kfree] are an
      instance, [clear_arena] and [arena_test].
    - The file system. FsDefines.v: fs/defines.h, the layout of the records on
      the disk. BlockIface.v: what fs/cache.h promises: [BlockCache] is its
      table of functions and the class [BlockCacheSpec] their laws. Cache.v:
      fs/cache.c; CacheFacts.v, CacheLog.v, CacheTx.v, CacheAlloc.v: its
      invariant, the log and crashes, the operations that run at the same
      time, block allocation; NestedOp.v: an operation begun inside of another
      one; CacheSpec.v and the end of CacheAlloc.v discharge the class, and say
      what holds between the calls of one operation. Inode.v: fs/inode.c, over
      any [BlockCache]; InodeFacts.v, InodeDisk.v, InodeFile.v, DirFacts.v,
      Namei.v (paths) and Tree.v (the file system as a whole) prove it correct
      from [BlockCacheSpec] alone, so for every implementation of the cache.
      Fs.v: fs/fs.c and the start of block_device.c. File.v and FileFacts.v:
      fs/file.c; FsAtomic.v: [filewrite] down to the device, with crashes.
      Mkfs.v: user/mkfs/main.c, the program that builds the disk. FsDemo.v and
      FileDemo.v: a small disk on which the theorems are used.
    - Processes and system calls. Kernel.v: the records of core/proc.h,
      sched.h, container.h, trapframe.h in one state, with the arena that the
      containers come from. Proc.v:
      core/proc.c, sched.c, container.c; ProcFacts.v: the allocation of
      processes and numbers; ProcTable.v: the critical sections of the
      processes of one table as steps in any order; Fork.v: the whole of
      [fork]. SysArg.v: the checks of
      user memory in core/syscall.c. Sysfile.v: core/sysfile.c; Create.v,
      CreateAtomic.v, CreateDemo.v: [create], and with it [mknod] and crashes.
      Exec.v: core/exec.c. Syscall.v and SyscallFacts.v: the dispatch in
      core/syscall.c, sysproc.c, sysproc_my.c, core/trap.c, and the handlers of
      driver/interrupt.c and clock.c.
    - The start. Boot.v: main.c as the first CPU runs it, up to the scheduler;
      StartLock.v: the lock of main.c, with the CPUs interleaved.
    - User programs. User.v, UserFacts.v, UserDemo.v: cat, echo, init, ls,
      mkdir, rm (user/*/main.c). Sh.v: user/sh/main.c; ShFacts.v: its parser;
      ShRun.v: its processes and descriptors, with this kernel's answers.

    A system call goes through Syscall, Sysfile, File and Inode to the cache;
    the cache uses the device of Cache.v, a store of blocks, which SdBlock
    shows [sd_read] and [sd_write] to be.

    ** How the code is modelled

    A routine is a function in the monad [M] of this file: it returns, or the
    kernel stops ([Panic], which also stands for what C leaves undefined and
    for the [exit(1)] of user programs), or it sleeps until another thread
    makes a condition true ([Sleep]), or the bound on a loop was too small
    ([Fuel]). [wp m Q s] says that [m] returns from [s] with [Q]; it is total,
    so every theorem stated with it proves that the code returns. A C integer
    is a [Z] with the wrap-around of its type written out ([u32], [u64],
    [i32]); a pointer is an address, an index or an offset, and an object lives
    in a finite map of the state; memory that is cast is a list of bytes.
    Names are those of the code.

    User programs run beside each other and partly for ever, so they are not in
    [M]: a program is an interaction tree (ITree) over [sysE], the calls of the
    C library that it makes. UserFacts.v has the weakest preconditions of such
    trees over any files that keep the laws of the class [FileCallsSpec];
    ShRun.v runs a tree with its descriptors and the processes it forks.

    Spin locks are flags as one CPU sees them, and taking a lock that is taken
    stops the kernel; Locks.v has their instructions interleaved. A wake-up of
    other threads is their own step. What the kernel prints is left out, but
    for the console and Format.v. Parameters are what is outside the C code:
    the device behind its registers, the context switch, the code addresses
    and the user code that is linked in, the page allocator under an arena,
    the firmware behind the mailbox.

    ** The theorems

    - Crashes and the log: [FsAtomic.filewrite_crash_atomic] and
      [CreateAtomic.create_crash_atomic] follow a whole write and a whole
      creation of a file from the layer of open files or system calls down to
      the device: after a crash between any two device writes the next start
      finds all of it or nothing, in a consistent file system. They rest on
      [CacheTx.end_op_crash_atomic], [CacheLog.recovery_restartable] (a crash
      during recovery loses nothing) and [CacheTx.log_never_overflows] (the
      log has room for every operation that [begin_op] admits, in any
      interleaving). [NestedOp.nested_op_hangs]: an operation inside of an
      operation never ends.
    - Files: [InodeFile.inode_write_correct], [inode_write_isolated],
      [inode_read_correct]: reads and writes are those of a list of bytes, and
      do not touch other files. [DirFacts]: a directory is a map from names.
      [Namei.namex_correct]: paths; [Create.create_correct]: new files.
      [InodeDisk], [InodeFacts]: allocation of inodes, the inodes in memory,
      and the search of groups for a file that spills over. [CacheAlloc]:
      allocation of blocks. [Fs.init_filesystem_correct] and
      [Mkfs.ballocg_roundtrip]: the start of the file system and the image
      builder establish what allocation relies on. [FileFacts]: open files.
    - The disk: [SdQueue.sd_driver_refines]: the driver is a queue in front of
      a store of blocks, for every order of its steps in which an append finds
      the queue as its test and its walk saw it; out of that order a request is
      lost. [SdBlock.sd_block_store]: one request at a time.
    - Memory: [PhysMem], [VmFacts.my_uvm_map_correct];
      [VmTree.my_uvm_copy_correct], [my_vm_free_correct]: a copy of an address
      space has the same content in pages of its own, and freeing gives every
      page back; [ArenaFacts], [ArenaTest.arena_test_passes]: the arena over
      the page allocator.
    - The start: [Boot.boot_correct]: the first CPU reaches its scheduler with
      a well-formed kernel, the page of its container taken from the free list;
      [StartLock.init_lock_orders]: the other CPUs wait, and no two initialise
      at the same time, though one that comes late does it again;
      [KernelPt.kernel_pt_linear]: the constant page tables.
    - Concurrency: [Locks]: mutual exclusion, and no lost wake-up among the
      threads of one container ([wakeup] does not reach those of another).
    - Processes: [ProcFacts.alloc_pcb_fresh]; [Fork.fork_correct]: what the
      child has from its parent ([fork_wait_leaks], [fork_child_stack]: a page
      is lost, and the bounds of the stack are not copied);
      [ProcTable.exit_wait_no_lost_wakeup], [ProcTable.wait_correct]: [exit]
      and [wait] meet whatever the order of their steps;
      [SysArg.in_user_bounds]; [SyscallFacts.unknown_syscall_succeeds].
    - Text: the console refines a line editor ([Console]); [Format]: formatted
      output; [CString], [CList].
    - User programs: [ShFacts.parsecmd_print]: the shell reads back every
      command line ([ShFacts.parsecmd_ends]: its parser ends on every text);
      [ShRun.sh_script]: it runs the lines of its input as they are meant, but
      for pipelines, whose sides this kernel does not connect;
      [UserFacts.cat_correct], [ls_correct], [init_one_shell].

    Every theorem with hypotheses has a witness that uses it at a concrete
    state. Where the code does not do what it means to, the theorem says what
    it does; the list of such places is kept with the properties.

    ** Bounds

    Loops over a range are [forM] and [eachM] with the bound of the code.
    Recursion with fuel: the parser of the shell needs four calls per
    character at most ([parsecmd_ends]); walks of lists in memory are bounded
    by the number of their nodes; waits for a device by the counters of the
    code; [inode_map] and the search of groups ([spill_terminates_iff]) by the
    number of groups; [ShRun.run] by the steps that a script takes, with a
    bound that [sh_script] shows to exist. Theorems with [wp] prove the fuel
    sufficient.

    ** Not modelled

    Assembly (start.S, swtch.S, trap.S, exception_vector.S), barriers and cache
    maintenance, [uvm_switch] beyond the register it writes, the tests of the
    SD card and of the file system ([sd_test], fs/test, user/test),
    sched_simple.c (compiled only without [MULTI_SCHEDULER], with declarations
    that sched.h does not have any more), the C library, the messages of the
    shell's parser, and src/FTOS, the system that FTOS-FFS was derived from:
    the same kernel, its file system not yet divided into groups.
    In Boot.v the handler of the serial line is a parameter; Console.v is what
    it runs, and its call of [wakeup] is a step of its own. In Cache.v and
    Inode.v the arenas of the blocks and inodes in memory always give a fresh
    object: that they have no page left, which stops the kernel, is left out.
    SdQueue.v takes each of the steps of [sdrw] and the whole handler as one:
    the walk of the queue is not interleaved with itself. *)
From Stdlib Require Export ZArith Lia.
From stdpp Require Export base tactics list numbers option gmap sets.

#[global] Open Scope Z_scope.
#[global] Unset Printing Use Implicit Types.

(** ** Machine integers

    Every C integer is a [Z]; the wrap-around of its width is written where
    the C type has it. *)
Definition u8 (z : Z) : Z := z mod 2 ^ 8.
Definition u16 (z : Z) : Z := z mod 2 ^ 16.
Definition u32 (z : Z) : Z := z mod 2 ^ 32.
Definition u64 (z : Z) : Z := z mod 2 ^ 64.

(** Conversion to a signed type of [w] bits (two's complement). *)
Definition swrap (w z : Z) : Z := (z + 2 ^ (w - 1)) mod 2 ^ w - 2 ^ (w - 1).
Definition i16 (z : Z) : Z := swrap 16 z.
Definition i32 (z : Z) : Z := swrap 32 z.
Definition i64 (z : Z) : Z := swrap 64 z.

Lemma u32_id z : 0 <= z < 2 ^ 32 -> u32 z = z.
Proof. apply Z.mod_small. Qed.
Lemma u64_id z : 0 <= z < 2 ^ 64 -> u64 z = z.
Proof. apply Z.mod_small. Qed.
Lemma u16_id z : 0 <= z < 2 ^ 16 -> u16 z = z.
Proof. apply Z.mod_small. Qed.
Lemma u32_range z : 0 <= u32 z < 2 ^ 32.
Proof. by apply Z.mod_pos_bound. Qed.
Lemma u64_range z : 0 <= u64 z < 2 ^ 64.
Proof. by apply Z.mod_pos_bound. Qed.

Lemma swrap_id w z : 0 < w -> - 2 ^ (w - 1) <= z < 2 ^ (w - 1) -> swrap w z = z.
Proof.
  intros Hw Hz. unfold swrap.
  assert (2 ^ w = 2 * 2 ^ (w - 1)) as ->
    by (rewrite <- Z.pow_succ_r by lia; f_equal; lia).
  rewrite Z.mod_small; lia.
Qed.
Lemma i32_id z : - 2 ^ 31 <= z < 2 ^ 31 -> i32 z = z.
Proof. intros. apply swrap_id; lia. Qed.
Lemma i64_id z : - 2 ^ 63 <= z < 2 ^ 63 -> i64 z = z.
Proof. intros. apply swrap_id; lia. Qed.

(** ** Outcomes and the kernel monad

    A kernel routine run by one thread ends in one of four ways. *)
Inductive result (A : Type) : Type :=
| Ok (a : A)      (** it returned *)
| Panic           (** a [PANIC] or a failed [assert]/[asserts] stopped the kernel *)
| Sleep           (** it sleeps (or spins) for a condition another thread must make true *)
| Fuel.           (** the loop bound given to the model was too small *)
Arguments Ok {A} a.
Arguments Panic {A}.
Arguments Sleep {A}.
Arguments Fuel {A}.

Definition M (St A : Type) : Type := St -> result (A * St).

#[global] Instance M_ret St : MRet (M St) := fun A a s => Ok (a, s).
#[global] Instance M_bind St : MBind (M St) := fun A B f m s =>
  match m s with
  | Ok (a, s') => f a s'
  | Panic => Panic
  | Sleep => Sleep
  | Fuel => Fuel
  end.

Definition gets {St A} (f : St -> A) : M St A := fun s => Ok (f s, s).
Definition modify {St} (f : St -> St) : M St unit := fun s => Ok (tt, f s).
Definition panic {St A} : M St A := fun _ => Panic.
Definition asleep {St A} : M St A := fun _ => Sleep.
Definition nofuel {St A} : M St A := fun _ => Fuel.
(** [assert(b)] of console.h. *)
Definition assert_ {St} (b : bool) : M St unit := if b then mret tt else panic.
Definition from_option_M {St A} (o : option A) : M St A :=
  match o with Some a => mret a | None => panic end.
Definition whenM {St} (b : bool) (m : M St unit) : M St unit := if b then m else mret tt.

(** Running a routine on a part of a larger state. *)
Definition lift {St T A} (get : St -> T) (set : T -> St -> St) (m : M T A) : M St A :=
  fun s => match m (get s) with
           | Ok (a, t) => Ok (a, set t s)
           | Panic => Panic
           | Sleep => Sleep
           | Fuel => Fuel
           end.

(** [for (i = a; ..; i += step)] run at most [n] times; [Some r] is an early
    [return r] (or a [break] that carries [r]). *)
Fixpoint forM {St R} (n : nat) (i step : Z) (body : Z -> M St (option R)) : M St (option R) :=
  match n with
  | O => mret None
  | S n' =>
      r ← body i;
      match r with
      | Some v => mret (Some v)
      | None => forM n' (i + step) step body
      end
  end.

(** [while] loops whose bound is not syntactic: the body says whether to go on. *)
Fixpoint whileM {St} (fuel : nat) (body : M St bool) : M St unit :=
  match fuel with
  | O => nofuel
  | S fuel' => go ← body; if go : bool then whileM fuel' body else mret tt
  end.

Fixpoint eachM {St A} (l : list A) (body : A -> M St unit) : M St unit :=
  match l with
  | [] => mret tt
  | x :: l' => body x;; eachM l' body
  end.

(** *** Total correctness: [wp m Q s] says [m] returns from [s] and [Q] holds. *)
Definition wp {St A} (m : M St A) (Q : A -> St -> Prop) (s : St) : Prop :=
  match m s with Ok (a, s') => Q a s' | _ => False end.

Section wp_rules.
Context {St A : Type}.
Implicit Types (m : M St A) (s : St).

Lemma wp_ok m Q s : wp m Q s <-> exists a s', m s = Ok (a, s') /\ Q a s'.
Proof.
  unfold wp. destruct (m s) as [[a s']| | |]; split; try done.
  - intros; eauto.
  - intros (? & ? & [= <- <-] & ?); done.
  - intros (? & ? & ? & ?); done.
  - intros (? & ? & ? & ?); done.
  - intros (? & ? & ? & ?); done.
Qed.

Lemma wp_mono m (Q R : A -> St -> Prop) s :
  wp m Q s -> (forall a s', Q a s' -> R a s') -> wp m R s.
Proof. unfold wp. destruct (m s) as [[]| | |]; naive_solver. Qed.

Lemma wp_change m m' Q s : m s = m' s -> wp m' Q s -> wp m Q s.
Proof. unfold wp. by intros ->. Qed.
(** A routine with a known result. *)
Lemma wp_eq m a s' Q s : m s = Ok (a, s') -> Q a s' -> wp m Q s.
Proof. unfold wp. by intros ->. Qed.

Lemma wp_ret (a : A) Q s : Q a s -> wp (mret a) Q s.
Proof. done. Qed.

Lemma wp_bind {B} (m : M St B) (f : B -> M St A) Q s :
  wp m (fun b s' => wp (f b) Q s') s -> wp (m ≫= f) Q s.
Proof. unfold wp, mbind, M_bind. by destruct (m s) as [[]| | |]. Qed.

Lemma wp_gets (f : St -> A) Q s : Q (f s) s -> wp (gets f) Q s.
Proof. done. Qed.

Lemma wp_modify (f : St -> St) Q s : Q tt (f s) -> wp (modify f) Q s.
Proof. done. Qed.

Lemma wp_assert (b : bool) (Q : unit -> St -> Prop) s :
  b = true -> Q tt s -> wp (assert_ b) Q s.
Proof. by intros ->. Qed.

Lemma wp_lift {T} (get : St -> T) set (m : M T A) Q s :
  wp m (fun a t => Q a (set t s)) (get s) -> wp (lift get set m) Q s.
Proof. unfold wp, lift. by destruct (m (get s)) as [[]| | |]. Qed.
End wp_rules.

(** The loop rule for [forM]: an invariant on the index and the state that
    holds until the loop returns early or runs out of indices. *)
Lemma wp_forM {St R} (n : nat) (i step : Z) (body : Z -> M St (option R))
    (I : Z -> St -> Prop) (Q : option R -> St -> Prop) s :
  I i s ->
  (forall k s', (k < n)%nat -> I (i + step * Z.of_nat k) s' ->
     wp (body (i + step * Z.of_nat k))
        (fun r s'' => match r with
                      | Some v => Q (Some v) s''
                      | None => I (i + step * Z.of_nat (S k)) s''
                      end) s') ->
  (forall s', I (i + step * Z.of_nat n) s' -> Q None s') ->
  wp (forM n i step body) Q s.
Proof.
  revert i s. induction n as [|n IH]; intros i s Hi Hbody Hend; simpl.
  - apply wp_ret, Hend. by replace (i + step * Z.of_nat 0) with i by lia.
  - apply wp_bind.
    pose proof (Hbody 0%nat s ltac:(lia)) as H0.
    replace (i + step * Z.of_nat 0) with i in H0 by lia.
    eapply wp_mono; [by apply H0|]. simpl. intros [v|] s' Hs'; [by apply wp_ret|].
    apply IH.
    + by replace (i + step * Z.of_nat 1) with (i + step) in Hs' by lia.
    + intros k s'' Hk. specialize (Hbody (S k) s'' ltac:(lia)).
      replace (i + step * Z.of_nat (S k)) with (i + step + step * Z.of_nat k) in Hbody by lia.
      by replace (i + step * Z.of_nat (S (S k))) with (i + step + step * Z.of_nat (S k)) in Hbody by lia.
    + intros s'' Hs''. apply Hend.
      by replace (i + step * Z.of_nat (S n)) with (i + step + step * Z.of_nat n) by lia.
Qed.

Lemma forM_ext {St R} (n : nat) (i step : Z) (b1 b2 : Z -> M St (option R)) s :
  (forall k s', (k < n)%nat -> b1 (i + step * Z.of_nat k) s' = b2 (i + step * Z.of_nat k) s') ->
  forM n i step b1 s = forM n i step b2 s.
Proof.
  revert i s. induction n as [|n IH]; intros i s H; [done|]. simpl. unfold mbind, M_bind.
  pose proof (H 0%nat s ltac:(lia)) as H0. replace (i + step * Z.of_nat 0) with i in H0 by lia.
  rewrite H0. destruct (b2 i s) as [[[v|] s']| | |]; try done. apply IH. intros k s'' Hk.
  specialize (H (S k) s'' ltac:(lia)).
  by replace (i + step * Z.of_nat (S k)) with (i + step + step * Z.of_nat k) in H by lia.
Qed.

Lemma bind_ext {St A B} (m m' : M St A) (f g : A -> M St B) s :
  m s = m' s -> (forall a s', f a s' = g a s') -> (m ≫= f) s = (m' ≫= g) s.
Proof. intros Hm Hf. unfold mbind, M_bind. rewrite Hm. by destruct (m' s) as [[]| | |]. Qed.

(** The rule for [for (i = 0; i < n; i++)] without early exit. *)
Lemma wp_eachM_seqZ {St} (n : Z) (body : Z -> M St unit) (I : Z -> St -> Prop)
    (Q : unit -> St -> Prop) s :
  0 <= n -> I 0 s ->
  (forall i s', 0 <= i < n -> I i s' -> wp (body i) (fun _ => I (i + 1)) s') ->
  (forall s', I n s' -> Q tt s') ->
  wp (eachM (seqZ 0 n) body) Q s.
Proof.
  intros Hn H0 Hb HQ.
  assert (forall k i s', n - i = Z.of_nat k -> 0 <= i -> I i s' ->
            wp (eachM (seqZ i (n - i)) body) Q s') as Hgen.
  { induction k as [|k IH]; intros i s' Hk Hi HI.
    - replace (n - i) with 0 by lia. apply wp_ret, HQ. by replace n with i by lia.
    - rewrite seqZ_cons by lia. apply wp_bind.
      eapply wp_mono; [apply Hb; [lia|done]|]. intros [] s'' HI'.
      replace (Z.pred (n - i)) with (n - (i + 1)) by lia.
      replace (Z.succ i) with (i + 1) by lia. apply IH; [lia|lia|done]. }
  specialize (Hgen (Z.to_nat n) 0 s). rewrite Z.sub_0_r in Hgen. apply Hgen; [lia|lia|done].
Qed.

(** A loop whose body keeps [I]. *)
Lemma wp_eachM_seq {St} (n : nat) (body : nat -> M St unit) (I : nat -> St -> Prop) (Q : unit -> St -> Prop) s :
  I 0%nat s ->
  (forall i s', (i < n)%nat -> I i s' -> wp (body i) (fun _ => I (S i)) s') ->
  (forall s', I n s' -> Q tt s') ->
  wp (eachM (seq 0 n) body) Q s.
Proof.
  intros H0 Hb HQ.
  assert (forall k i s', (i + k = n)%nat -> I i s' -> wp (eachM (seq i k) body) Q s') as Hgen.
  { induction k as [|k IH]; intros i s' E Hi; simpl.
    - apply wp_ret, HQ. by replace n with i by lia.
    - apply wp_bind. eapply wp_mono; [apply (Hb i); [lia|done]|]. intros [] s2 H2. apply (IH (S i)); [lia|done]. }
  by apply (Hgen n 0%nat).
Qed.

Lemma wp_eachM_inv {St A} (l : list A) (body : A -> M St unit) (I : St -> Prop) (s : St) :
  I s -> (forall x s', x ∈ l -> I s' -> wp (body x) (fun _ => I) s') -> wp (eachM l body) (fun _ => I) s.
Proof.
  revert s. induction l as [|x l IH]; intros s Hs Hb; simpl; [by apply wp_ret|].
  apply wp_bind. eapply wp_mono; [apply Hb; [by left|done]|]. intros [] s' Hs'. apply IH; [done|].
  intros y s2 Hy. apply Hb. by right.
Qed.

(** A loop over a list that returns at the first element with [P]. *)
Lemma forM_find {St A R} (P : A -> Prop) `{forall x, Decision (P x)} (l : list A)
    (body : Z -> M St (option R)) (found : nat -> A -> M St R) (s : St) k :
  (forall i x, l !! i = Some x ->
     body (Z.of_nat (k + i)) s = if decide (P x) then (r ← found (k + i)%nat x; mret (Some r)) s else Ok (None, s)) ->
  forM (length l) (Z.of_nat k) 1 body s =
    match list_find P l with
    | Some (i, x) => (r ← found (k + i)%nat x; mret (Some r)) s
    | None => Ok (None, s)
    end.
Proof.
  revert k. induction l as [|x l IH]; intros k Hb; [done|]. cbn [forM length list_find].
  unfold mbind at 1, M_bind at 1. pose proof (Hb 0%nat x eq_refl) as H0. rewrite Nat.add_0_r in H0. rewrite H0.
  destruct (decide (P x)).
  - rewrite Nat.add_0_r. unfold mbind, M_bind. by destruct (found k x s) as [[]| | |].
  - replace (Z.of_nat k + 1) with (Z.of_nat (S k)) by lia. rewrite IH.
    + destruct (list_find P l) as [[i y]|]; [|done]. simpl. by rewrite Nat.add_succ_r.
    + intros i y Hy. replace (S k + i)%nat with (k + S i)%nat by lia. by apply Hb.
Qed.

(** ** Memory as bytes

    A block, a page or a buffer is a [list Z] of bytes; the target is
    little-endian (aarch64). *)
Definition byte_ok (b : Z) : Prop := 0 <= b < 256.

#[global] Instance byte_ok_dec b : Decision (byte_ok b).
Proof. unfold byte_ok. apply _. Defined.

Fixpoint le_bytes (n : nat) (z : Z) : list Z :=
  match n with
  | O => []
  | S n' => z mod 256 :: le_bytes n' (z / 256)
  end.

Fixpoint le_val (l : list Z) : Z :=
  match l with
  | [] => 0
  | b :: l' => b + 256 * le_val l'
  end.

(** The [len] bytes at offset [off], and writing [new] at offset [off]
    ([memcpy]/[memmove] into a buffer from outside of it). *)
Definition slice (off len : nat) (l : list Z) : list Z := take len (drop off l).
Definition splice (off : nat) (new l : list Z) : list Z :=
  take off l ++ new ++ drop (off + length new) l.

(** Loads and stores of [n]-byte integers. *)
Definition load (n off : nat) (l : list Z) : Z := le_val (slice off n l).
Definition store (n off : nat) (v : Z) (l : list Z) : list Z := splice off (le_bytes n v) l.

(** A buffer seen as an array of [w]-byte integers, and back. *)
Definition words (w n : nat) (l : list Z) : list Z :=
  (fun i => load w (w * i) l) <$> seq 0 n.
Fixpoint unwords (w : nat) (ws : list Z) : list Z :=
  match ws with
  | [] => []
  | x :: ws' => le_bytes w x ++ unwords w ws'
  end.

#[global] Arguments load : simpl never.
#[global] Arguments store : simpl never.
#[global] Arguments slice : simpl never.
#[global] Arguments splice : simpl never.
#[global] Arguments words : simpl never.

Lemma length_le_bytes n z : length (le_bytes n z) = n.
Proof. revert z; induction n; intros; simpl; [done|]. by rewrite IHn. Qed.

Lemma le_bytes_ok n z : Forall byte_ok (le_bytes n z).
Proof.
  revert z; induction n; intros; simpl; constructor; [|done].
  by apply Z.mod_pos_bound.
Qed.

Lemma le_val_le_bytes n z : le_val (le_bytes n z) = z mod 256 ^ Z.of_nat n.
Proof.
  revert z; induction n as [|n IH]; intros z; simpl le_val; simpl le_bytes.
  - by rewrite Z.mod_1_r.
  - simpl le_val. rewrite IH, Nat2Z.inj_succ, Z.pow_succ_r by lia.
    rewrite Z.rem_mul_r; [lia|lia|]. apply Z.pow_pos_nonneg; lia.
Qed.

Lemma le_val_range l : Forall byte_ok l -> 0 <= le_val l < 256 ^ Z.of_nat (length l).
Proof.
  induction 1 as [|b l Hb _ IH]; simpl length; simpl le_val; [lia|].
  rewrite Nat2Z.inj_succ, Z.pow_succ_r by lia. unfold byte_ok in Hb. lia.
Qed.

Lemma le_bytes_le_val l : Forall byte_ok l -> le_bytes (length l) (le_val l) = l.
Proof.
  induction 1 as [|b l Hb _ IH]; simpl; [done|].
  unfold byte_ok in Hb.
  rewrite (Z.mul_comm 256), Z_mod_plus_full, Z.mod_small by lia.
  rewrite Z.div_add, Z.div_small by lia. rewrite Z.add_0_l. by rewrite IH.
Qed.

Lemma length_splice off new l :
  (off + length new <= length l)%nat -> length (splice off new l) = length l.
Proof.
  intros. unfold splice. rewrite !length_app, length_take, length_drop. lia.
Qed.

Lemma length_slice off n l : (off + n <= length l)%nat -> length (slice off n l) = n.
Proof. intros. unfold slice. rewrite length_take, length_drop. lia. Qed.

Lemma lookup_slice off n l i :
  slice off n l !! i = if decide (i < n)%nat then l !! (off + i)%nat else None.
Proof.
  unfold slice. case_decide.
  - by rewrite lookup_take_lt, lookup_drop by lia.
  - apply lookup_take_ge. lia.
Qed.

Lemma lookup_splice off new l i :
  (off + length new <= length l)%nat ->
  splice off new l !! i =
    if decide (off <= i < off + length new)%nat then new !! (i - off)%nat else l !! i.
Proof.
  intros Hl. unfold splice. case_decide.
  - rewrite lookup_app_r by (rewrite length_take; lia).
    rewrite length_take, Nat.min_l by lia. rewrite lookup_app_l by lia. done.
  - destruct (decide (i < off)%nat).
    + rewrite lookup_app_l by (rewrite length_take; lia).
      by rewrite lookup_take_lt by lia.
    + rewrite lookup_app_r by (rewrite length_take; lia).
      rewrite length_take, Nat.min_l by lia.
      rewrite lookup_app_r by lia. rewrite lookup_drop. f_equal. lia.
Qed.

Lemma slice_splice_eq off new l :
  (off + length new <= length l)%nat -> slice off (length new) (splice off new l) = new.
Proof.
  intros Hl. apply list_eq. intros i. rewrite lookup_slice.
  case_decide.
  - rewrite lookup_splice by done. rewrite decide_True by lia. f_equal. lia.
  - symmetry. apply lookup_ge_None. lia.
Qed.

Lemma slice_splice_ne off n off' new l :
  (off' + length new <= length l)%nat ->
  (off + n <= off' \/ off' + length new <= off)%nat ->
  slice off n (splice off' new l) = slice off n l.
Proof.
  intros Hl Hd. apply list_eq. intros i. rewrite !lookup_slice.
  case_decide; [|done]. rewrite lookup_splice by done. by rewrite decide_False by lia.
Qed.

Lemma splice_slice off n l :
  (off + n <= length l)%nat -> splice off (slice off n l) l = l.
Proof.
  intros Hl. apply list_eq. intros i. rewrite lookup_splice; rewrite length_slice by lia; [|lia].
  case_decide; [|done]. rewrite lookup_slice, decide_True by lia. f_equal. lia.
Qed.

Lemma Forall_splice P off new l :
  Forall P l -> Forall P new -> Forall P (splice off new l).
Proof.
  intros Hl Hn. unfold splice. rewrite !Forall_app.
  split_and!; [by apply Forall_take|done|by apply Forall_drop].
Qed.

Lemma Forall_slice P off n l : Forall P l -> Forall P (slice off n l).
Proof. intros. unfold slice. by apply Forall_take, Forall_drop. Qed.

Lemma length_store n off v l :
  (off + n <= length l)%nat -> length (store n off v l) = length l.
Proof. intros. apply length_splice. by rewrite length_le_bytes. Qed.

Lemma load_store_eq n off v l :
  (off + n <= length l)%nat -> load n off (store n off v l) = v mod 256 ^ Z.of_nat n.
Proof.
  intros. unfold load, store.
  rewrite <- (length_le_bytes n v) at 1. rewrite slice_splice_eq by (rewrite length_le_bytes; lia).
  apply le_val_le_bytes.
Qed.

Lemma load_store_ne n off n' off' v l :
  (off' + n' <= length l)%nat ->
  (off + n <= off' \/ off' + n' <= off)%nat ->
  load n off (store n' off' v l) = load n off l.
Proof.
  intros. unfold load, store. rewrite slice_splice_ne; rewrite ?length_le_bytes; auto.
Qed.

Lemma load_range n off l : Forall byte_ok l -> 0 <= load n off l < 256 ^ Z.of_nat n.
Proof.
  intros Hl. pose proof (le_val_range (slice off n l) (Forall_slice _ off n l Hl)) as H.
  unfold load. split; [lia|]. eapply Z.lt_le_trans; [apply H|].
  apply Z.pow_le_mono_r; [lia|]. unfold slice. rewrite length_take. lia.
Qed.

Lemma length_words w n l : length (words w n l) = n.
Proof. unfold words. by rewrite length_fmap, length_seq. Qed.

Lemma lookup_words w n l i : (i < n)%nat -> words w n l !! i = Some (load w (w * i) l).
Proof. intros. unfold words. rewrite list_lookup_fmap, lookup_seq_lt by done. done. Qed.

Lemma length_unwords w ws : length (unwords w ws) = (w * length ws)%nat.
Proof.
  induction ws as [|x ws IH]; simpl; [lia|].
  rewrite length_app, length_le_bytes, IH. lia.
Qed.

Lemma unwords_app w ws1 ws2 : unwords w (ws1 ++ ws2) = unwords w ws1 ++ unwords w ws2.
Proof. induction ws1 as [|x ws1 IH]; simpl; [done|]. by rewrite IH, app_assoc. Qed.

Lemma unwords_ok w ws : Forall byte_ok (unwords w ws).
Proof.
  induction ws; simpl; [done|]. apply Forall_app. split; [apply le_bytes_ok|done].
Qed.

Lemma slice_app_mid (a b c : list Z) : slice (length a) (length b) (a ++ b ++ c) = b.
Proof. unfold slice. by rewrite drop_app_length, take_app_length. Qed.

Lemma load_unwords w ws i x :
  ws !! i = Some x -> load w (w * i) (unwords w ws) = x mod 256 ^ Z.of_nat w.
Proof.
  intros Hi. rewrite <- (take_drop_middle ws i x Hi).
  rewrite unwords_app. change (x :: drop (S i) ws) with ([x] ++ drop (S i) ws).
  rewrite unwords_app. unfold load.
  pose proof (lookup_lt_Some _ _ _ Hi) as Hlt.
  replace (w * i)%nat with (length (unwords w (take i ws)))
    by (rewrite length_unwords, length_take; f_equal; lia).
  replace (unwords w [x]) with (le_bytes w x) by (simpl; by rewrite app_nil_r).
  replace w with (length (le_bytes w x)) at 2 by apply length_le_bytes.
  rewrite slice_app_mid. apply le_val_le_bytes.
Qed.

Lemma words_unwords w ws :
  words w (length ws) (unwords w ws) = (fun x => x mod 256 ^ Z.of_nat w) <$> ws.
Proof.
  apply list_eq. intros i. rewrite list_lookup_fmap.
  destruct (ws !! i) as [x|] eqn:Hi; simpl.
  - rewrite lookup_words by (by eapply lookup_lt_Some). by rewrite (load_unwords _ _ _ x).
  - apply lookup_ge_None. rewrite length_words. by apply lookup_ge_None.
Qed.

Lemma load_app_l n off a b :
  (off + n <= length a)%nat -> load n off (a ++ b) = load n off a.
Proof.
  intros. unfold load. f_equal. apply list_eq. intros i. rewrite !lookup_slice.
  case_decide; [|done]. by rewrite lookup_app_l by lia.
Qed.

Lemma load_app_r n off a b :
  (length a <= off)%nat -> load n off (a ++ b) = load n (off - length a) b.
Proof.
  intros. unfold load. f_equal. apply list_eq. intros i. rewrite !lookup_slice.
  case_decide; [|done]. rewrite lookup_app_r by lia. f_equal. lia.
Qed.

Lemma load_le_bytes n v : load n 0 (le_bytes n v) = v mod 256 ^ Z.of_nat n.
Proof.
  unfold load, slice. rewrite drop_0, take_ge by (rewrite length_le_bytes; lia).
  apply le_val_le_bytes.
Qed.

Lemma words_app_l w n a b :
  (w * n <= length a)%nat -> words w n (a ++ b) = words w n a.
Proof.
  intros. apply list_eq. intros i. destruct (decide (i < n)%nat).
  - rewrite !lookup_words by done. by rewrite load_app_l by nia.
  - rewrite !(proj2 (lookup_ge_None _ _)); [done| |]; rewrite length_words; lia.
Qed.

Lemma drop_le_bytes_app n v (l : list Z) : drop n (le_bytes n v ++ l) = l.
Proof. rewrite <- (length_le_bytes n v) at 1. apply drop_app_length. Qed.

Lemma list_mod_id w (l : list Z) :
  Forall (fun x => 0 <= x < 256 ^ Z.of_nat w) l -> (fun x => x mod 256 ^ Z.of_nat w) <$> l = l.
Proof.
  induction 1 as [|x l Hx _ IH]; [done|]. rewrite fmap_cons, IH. by rewrite Z.mod_small.
Qed.

(** The words of a byte list determine it. *)
Lemma unwords_words w n l :
  Forall byte_ok l -> length l = (w * n)%nat -> unwords w (words w n l) = l.
Proof.
  revert l. induction n as [|n IH]; intros l Hok Hl.
  - destruct l; [done|simpl in Hl; lia].
  - rewrite <- (take_drop w l). 
    assert (length (take w l) = w) as Htk by (rewrite length_take; lia).
    assert (words w (S n) (take w l ++ drop w l) = le_val (take w l) :: words w n (drop w l)) as ->.
    { apply list_eq. intros [|i].
      - rewrite lookup_words by lia. rewrite Nat.mul_0_r. simpl. f_equal.
        rewrite load_app_l by lia. unfold load, slice. rewrite drop_0. f_equal.
        apply take_ge. lia.
      - change ((le_val (take w l) :: words w n (drop w l)) !! S i) with (words w n (drop w l) !! i).
        destruct (decide (i < n)%nat).
        + rewrite !lookup_words by lia. f_equal. rewrite load_app_r by nia. f_equal. nia.
        + rewrite !(proj2 (lookup_ge_None _ _)); [done| |]; rewrite length_words; lia. }
    simpl. rewrite IH; [|by apply Forall_drop|rewrite length_drop; lia].
    rewrite <- Htk at 1. rewrite le_bytes_le_val by (by apply Forall_take). done.
Qed.

(** [for (j = 0; j < n; j++) if (a[j] == x) break;] returns [j]. *)
Fixpoint find_pos (x : Z) (l : list Z) : nat :=
  match l with
  | [] => 0
  | y :: l' => if y =? x then 0 else S (find_pos x l')
  end.

Lemma find_pos_le x l : (find_pos x l <= length l)%nat.
Proof. induction l as [|y l IH]; simpl; [lia|]. destruct (y =? x); lia. Qed.

Lemma find_pos_lt x l : (find_pos x l < length l)%nat <-> x ∈ l.
Proof.
  induction l as [|y l IH]; simpl; [split; [lia|by intros ?%not_elem_of_nil]|].
  rewrite elem_of_cons. destruct (Z.eqb_spec y x); [split; [by left|lia]|].
  rewrite <- Nat.succ_lt_mono, IH. split; [by right|intros [->|?]; done].
Qed.

Lemma find_pos_lookup x l : x ∈ l -> l !! find_pos x l = Some x.
Proof.
  induction l as [|y l IH]; simpl; [by intros ?%not_elem_of_nil|].
  rewrite elem_of_cons. destruct (Z.eqb_spec y x); [naive_solver|].
  intros [->|H]; [done|]. by apply IH.
Qed.

Lemma find_pos_not_in x l : x ∉ l -> find_pos x l = length l.
Proof.
  intros H. pose proof (find_pos_le x l). pose proof (find_pos_lt x l).
  destruct (decide (find_pos x l < length l)%nat); [tauto|lia].
Qed.
