(* ===== verification/Locks.v ===== *)
(** * Spin locks and sleep locks (src/common/spinlock.c, src/core/sleeplock.c)

    Spin locks as one CPU runs them, and their instructions interleaved on any
    number of CPUs: mutual exclusion, and no [PANIC] of code that pairs
    acquire with release. Sleep locks with [sleep] and [wakeup] of proc.c,
    interleaved: mutual exclusion, and no lost wake-up among the threads of one
    container. *)
From stdpp Require Import strings functions relations.
From S2P Require Import Prelude.

Module Spinlock.

Record SpinLock : Type := mkSpinLock {
  sl_locked : bool;
  sl_cpu : option nat;   (** [thiscpu()] of the holder; [None] is [NULL] *)
  sl_name : string
}.
Definition set_sl_locked (x : bool) (s : SpinLock) : SpinLock := mkSpinLock x (sl_cpu s) (sl_name s).
Definition set_sl_cpu (x : option nat) (s : SpinLock) : SpinLock := mkSpinLock (sl_locked s) x (sl_name s).

(** ** The routines as the CPU [me] runs them *)
Section seq.
Context (me : nat).

Definition init_spinlock (name : string) : SpinLock := mkSpinLock false None name.

(** [__atomic_test_and_set(&lock->locked)]: the old value. *)
Definition test_and_set : M SpinLock bool := b ← gets sl_locked; modify (set_sl_locked true);; mret b.

Definition try_acquire_spinlock : M SpinLock bool :=
  b ← gets sl_locked;
  if b : bool then mret false
  else
    b ← test_and_set;
    if b : bool then mret false
    else modify (set_sl_cpu (Some me));; mret true.

Definition holding_spinlock (lock : SpinLock) : bool :=
  sl_locked lock && bool_decide (sl_cpu lock = Some me).

(** The loop spins until another CPU releases the lock. *)
Definition acquire_spinlock : M SpinLock unit :=
  h ← gets holding_spinlock;
  assert_ (negb h);;
  b ← try_acquire_spinlock;
  if b : bool then mret tt else asleep.

Definition release_spinlock : M SpinLock unit :=
  h ← gets holding_spinlock;
  assert_ h;;
  modify (set_sl_cpu None);;
  modify (set_sl_locked false).

Definition wait_spinlock : M SpinLock unit := acquire_spinlock;; release_spinlock.

End seq.

(** ** Interleaved instructions

    Where a CPU is in a sequence of [acquire_spinlock] and [release_spinlock];
    one step is one access to the lock. *)
Inductive spc : Type :=
| Out
| AcqHold1 | AcqHold2  (** [lock->locked && lock->cpu == thiscpu()] *)
| AcqTest              (** [!lock->locked] *)
| AcqSet               (** [__atomic_test_and_set] *)
| AcqCpu               (** [lock->cpu = thiscpu()] *)
| In
| RelHold1 | RelHold2
| RelCpu               (** [lock->cpu = NULL] *)
| RelClear             (** [__atomic_clear] *)
| Dead.                (** after a [PANIC] *)
#[global] Instance spc_eq_dec : EqDecision spc.
Proof. solve_decision. Defined.

Definition acquire_step (me : nat) (l : SpinLock) (pc : spc) : option (SpinLock * spc) :=
  match pc with
  | Out => Some (l, AcqHold1)
  | AcqHold1 => Some (l, if sl_locked l then AcqHold2 else AcqTest)
  | AcqHold2 => Some (l, if bool_decide (sl_cpu l = Some me) then Dead else AcqTest)
  | AcqTest => Some (l, if sl_locked l then AcqTest else AcqSet)
  | AcqSet => Some (set_sl_locked true l, if sl_locked l then AcqTest else AcqCpu)
  | AcqCpu => Some (set_sl_cpu (Some me) l, In)
  | _ => None
  end.

Definition release_step (me : nat) (l : SpinLock) (pc : spc) : option (SpinLock * spc) :=
  match pc with
  | In => Some (l, RelHold1)
  | RelHold1 => Some (l, if sl_locked l then RelHold2 else Dead)
  | RelHold2 => Some (l, if bool_decide (sl_cpu l = Some me) then RelCpu else Dead)
  | RelCpu => Some (set_sl_cpu None l, RelClear)
  | RelClear => Some (set_sl_locked false l, Out)
  | _ => None
  end.

(** One access by one CPU; [cs] says where every CPU is. *)
Inductive spin_step : SpinLock * (nat -> spc) -> SpinLock * (nat -> spc) -> Prop :=
| step_acquire me l l' cs pc : acquire_step me l (cs me) = Some (l', pc) -> spin_step (l, cs) (l', <[me := pc]> cs)
| step_release me l l' cs pc : release_step me l (cs me) = Some (l', pc) -> spin_step (l, cs) (l', <[me := pc]> cs).

Definition spin_start (name : string) : SpinLock * (nat -> spc) := (init_spinlock name, fun _ => Out).

(** From the test-and-set that succeeds to the clear. *)
Definition owns (pc : spc) : bool :=
  match pc with AcqCpu | In | RelHold1 | RelHold2 | RelCpu | RelClear => true | _ => false end.
(** The owner with its name in the lock. *)
Definition named (pc : spc) : bool :=
  match pc with In | RelHold1 | RelHold2 | RelCpu => true | _ => false end.

Record spin_inv (s : SpinLock * (nat -> spc)) : Prop := {
  si_locked : forall c, owns (s.2 c) = true -> sl_locked s.1 = true;
  si_free : sl_locked s.1 = true -> exists c, owns (s.2 c) = true;
  si_one : forall c c', owns (s.2 c) = true -> owns (s.2 c') = true -> c = c';
  si_cpu : forall c, sl_cpu s.1 = Some c <-> named (s.2 c) = true;
  si_dead : forall c, s.2 c <> Dead
}.

Lemma named_owns pc : named pc = true -> owns pc = true.
Proof. by destruct pc. Qed.

Lemma fn_insert_eq (cs : nat -> spc) c pc : <[c := pc]> cs c = pc.
Proof. apply fn_lookup_insert. Qed.
Lemma fn_insert_ne (cs : nat -> spc) c d pc : c <> d -> <[c := pc]> cs d = cs d.
Proof. intros. by apply fn_lookup_insert_ne. Qed.

(** A step of [me] that leaves the lock as it is and [me] as much an owner as
    before. *)
Lemma spin_inv_move l cs me pc :
  spin_inv (l, cs) -> owns pc = owns (cs me) -> named pc = named (cs me) -> pc <> Dead -> spin_inv (l, <[me := pc]> cs).
Proof.
  intros [H1 H2 H3 H4 H5] Ho Hn Hd. simpl in *.
  assert (forall c, owns (<[me := pc]> cs c) = owns (cs c)) as Eo.
  { intros c. destruct (decide (me = c)) as [<-|]; [by rewrite fn_insert_eq|by rewrite fn_insert_ne]. }
  assert (forall c, named (<[me := pc]> cs c) = named (cs c)) as En.
  { intros c. destruct (decide (me = c)) as [<-|]; [by rewrite fn_insert_eq|by rewrite fn_insert_ne]. }
  split; simpl.
  - intros c. rewrite Eo. apply H1.
  - intros H. destruct (H2 H) as [c ?]. exists c. by rewrite Eo.
  - intros c c'. rewrite !Eo. apply H3.
  - intros c. rewrite En. apply H4.
  - intros c. destruct (decide (me = c)) as [<-|]; [by rewrite fn_insert_eq|rewrite fn_insert_ne by done; apply H5].
Qed.

(** The test-and-set that succeeds. *)
Lemma spin_inv_take l cs me pc :
  spin_inv (l, cs) -> sl_locked l = false -> owns pc = true -> named pc = false -> pc <> Dead ->
  spin_inv (set_sl_locked true l, <[me := pc]> cs).
Proof.
  intros [H1 H2 H3 H4 H5] Hl Ho Hn Hd. simpl in *.
  assert (forall c, owns (cs c) = false) as Hno.
  { intros c. destruct (owns (cs c)) eqn:Ec; [|done]. by rewrite (H1 c Ec) in Hl. }
  split; simpl.
  - done.
  - intros _. exists me. by rewrite fn_insert_eq.
  - intros c c'. destruct (decide (me = c)) as [<-|]; [|by rewrite fn_insert_ne, Hno].
    destruct (decide (me = c')) as [<-|]; [done|by rewrite (fn_insert_ne _ _ c'), Hno].
  - intros c. rewrite (H4 c). destruct (decide (me = c)) as [<-|]; [|by rewrite fn_insert_ne].
    rewrite fn_insert_eq, Hn. split; [|done]. intros Hc%named_owns. by rewrite Hno in Hc.
  - intros c. destruct (decide (me = c)) as [<-|]; [by rewrite fn_insert_eq|rewrite fn_insert_ne by done; apply H5].
Qed.

(** The owner puts its name in the lock, or takes it out. *)
Lemma spin_inv_name l cs me pc :
  spin_inv (l, cs) -> owns (cs me) = true -> owns pc = true -> pc <> Dead ->
  spin_inv (set_sl_cpu (if named pc then Some me else None) l, <[me := pc]> cs).
Proof.
  intros [H1 H2 H3 H4 H5] Hme Ho Hd. simpl in *.
  assert (forall d, owns (<[me := pc]> cs d) = true -> d = me) as Hall.
  { intros d. destruct (decide (me = d)) as [<-|]; [done|]. rewrite fn_insert_ne by done. intros Hd'. by apply H3. }
  split; simpl.
  - intros c _. by apply (H1 me).
  - intros _. exists me. by rewrite fn_insert_eq.
  - intros c c' Hc Hc'. by rewrite (Hall c), (Hall c').
  - intros c. destruct (decide (me = c)) as [<-|Hne]; [rewrite fn_insert_eq; by destruct (named pc)|].
    split; [destruct (named pc); congruence|]. intros Hc%named_owns. by apply Hall in Hc.
  - intros c. destruct (decide (me = c)) as [<-|]; [by rewrite fn_insert_eq|rewrite fn_insert_ne by done; apply H5].
Qed.

(** The clear. *)
Lemma spin_inv_drop l cs me pc :
  spin_inv (l, cs) -> owns (cs me) = true -> named (cs me) = false -> owns pc = false -> pc <> Dead ->
  spin_inv (set_sl_locked false l, <[me := pc]> cs).
Proof.
  intros [H1 H2 H3 H4 H5] Hme Hn Ho Hd. simpl in *.
  assert (forall c, owns (<[me := pc]> cs c) = false) as Hno.
  { intros c. destruct (decide (me = c)) as [<-|Hne]; [by rewrite fn_insert_eq|]. rewrite fn_insert_ne by done.
    destruct (owns (cs c)) eqn:Ec; [|done]. exfalso. by apply Hne, H3. }
  split; simpl.
  - intros c. by rewrite Hno.
  - done.
  - intros c c'. by rewrite Hno.
  - intros c. split.
    + intros Hc. exfalso. apply H4 in Hc. pose proof (named_owns _ Hc) as Hoc.
      rewrite (H3 c me Hoc Hme) in Hc. by rewrite Hn in Hc.
    + intros Hc%named_owns. by rewrite Hno in Hc.
  - intros c. destruct (decide (me = c)) as [<-|]; [by rewrite fn_insert_eq|rewrite fn_insert_ne by done; apply H5].
Qed.

Lemma spin_inv_step s s' : spin_inv s -> spin_step s s' -> spin_inv s'.
Proof.
  intros Hi Hs. pose proof Hi as [H1 H2 H3 H4 H5].
  destruct Hs as [me l l' cs pc Hs|me l l' cs pc Hs]; simpl in *; pose proof (H4 me) as H4m;
    pose proof (H1 me) as H1m; destruct (cs me) eqn:E; try done; simpl in *; injection Hs as <- <-.
  - apply spin_inv_move; by rewrite ?E.
  - apply spin_inv_move; rewrite ?E; by destruct (sl_locked l).
  - rewrite bool_decide_eq_false_2 by (intros H; by apply H4m in H). apply spin_inv_move; by rewrite ?E.
  - apply spin_inv_move; rewrite ?E; by destruct (sl_locked l).
  - destruct (sl_locked l) eqn:El; [|by apply spin_inv_take].
    replace (set_sl_locked true l) with l by (destruct l; simpl in *; by subst). apply spin_inv_move; by rewrite ?E.
  - apply (spin_inv_name l cs me In); by rewrite ?E.
  - apply spin_inv_move; by rewrite ?E.
  - rewrite H1m by done. apply spin_inv_move; by rewrite ?E.
  - rewrite bool_decide_eq_true_2 by (by apply H4m). apply spin_inv_move; by rewrite ?E.
  - apply (spin_inv_name l cs me RelClear); by rewrite ?E.
  - apply spin_inv_drop; by rewrite ?E.
Qed.

(** C27: whatever the interleaving of the CPUs that use a lock, at most one is
    between the successful test-and-set of [acquire_spinlock] and the clear of
    [release_spinlock], the lock is marked locked exactly then, no CPU hits
    the [PANIC] of [acquire_spinlock] or of [release_spinlock], and the CPU in
    its critical section is the one that [holding_spinlock] says holds it. *)
Theorem spinlock_mutual_exclusion name l cs :
  rtc spin_step (spin_start name) (l, cs) ->
  (forall c c', owns (cs c) = true -> owns (cs c') = true -> c = c') /\
  (sl_locked l = true <-> exists c, owns (cs c) = true) /\
  (forall c, cs c <> Dead) /\
  (forall c, cs c = In -> forall c', holding_spinlock c' l = bool_decide (c' = c)).
Proof.
  intros Hr. assert (spin_inv (l, cs)) as [H1 H2 H3 H4 H5].
  { remember (spin_start name) as s0. assert (spin_inv s0) as H0 by (subst; by split).
    clear Heqs0. induction Hr as [|x y z Hxy _ IH]; [done|]. apply IH. by eapply spin_inv_step. }
  simpl in *. split; [done|]. split; [split; [done|]|split; [done|]].
  - intros [c Hc]. by apply (H1 c).
  - intros c Hc c'. unfold holding_spinlock. rewrite (H1 c) by (by rewrite Hc). simpl.
    assert (sl_cpu l = Some c) as -> by (apply H4; by rewrite Hc). apply bool_decide_ext. naive_solver.
Qed.

Lemma spinlock_mutual_exclusion_witness :
  let l := mkSpinLock true (Some 3%nat) "memory" in
  let cs := <[1%nat := AcqHold1]> (<[3%nat := In]> (<[3%nat := AcqCpu]> (<[3%nat := AcqSet]> (<[3%nat := AcqTest]>
              (<[3%nat := AcqHold1]> (fun _ => Out)))))) in
  (forall c c', owns (cs c) = true -> owns (cs c') = true -> c = c') /\
  (sl_locked l = true <-> exists c, owns (cs c) = true) /\
  (forall c, cs c <> Dead) /\
  (forall c, cs c = In -> forall c', holding_spinlock c' l = bool_decide (c' = c)).
Proof.
  intros l cs. apply (spinlock_mutual_exclusion "memory" l cs). unfold spin_start, init_spinlock, l, cs.
  eapply rtc_l; [by apply (step_acquire 3)|]. eapply rtc_l; [by apply (step_acquire 3)|].
  eapply rtc_l; [by apply (step_acquire 3)|]. eapply rtc_l; [by apply (step_acquire 3)|].
  eapply rtc_l; [by apply (step_acquire 3)|]. eapply rtc_l; [by apply (step_acquire 1)|]. apply rtc_refl.
Defined.

End Spinlock.

Module Sleeplock.
Import Spinlock.

(** ** The data *)
Record SleepLock : Type := mkSleepLock { sk_lock : SpinLock; sk_locked : bool }.
Definition set_sk_lock (x : SpinLock) (s : SleepLock) : SleepLock := mkSleepLock x (sk_locked s).
Definition set_sk_locked (x : bool) (s : SleepLock) : SleepLock := mkSleepLock (sk_lock s) x.

Definition init_sleeplock (name : string) : SleepLock := mkSleepLock (init_spinlock name) false.

(** ** Interleaved threads

    Threads that take and give back one sleep lock, at the accesses to its
    spin lock [lock->lock], to [locked], and to the lock of the process table,
    which [sleep] and [wakeup] use: that of the scheduler, so of the container,
    that the thread runs in. A thread that called [sched()] has handed the lock
    of the process table to the scheduler, which gives it back. *)
Inductive tpc : Type :=
| Idle
| Busy               (** elsewhere in the kernel, with the process table locked *)
| Acq0               (** [acquire_sleeplock]: [acquire_spinlock(&lock->lock)] *)
| Acq1               (** [while (lock->locked)] *)
| Slp0               (** [sleep]: [acquire_sched_lock()] *)
| Slp1               (** [release_spinlock(lock)] *)
| Slp2               (** [chan = ..; state = SLEEPING; sched()] *)
| Sleeping
| Runnable           (** made [RUNNABLE] by [wakeup], not scheduled yet *)
| Slp3               (** [sched] returns: [chan = 0; release_sched_lock()] *)
| Slp4               (** [acquire_spinlock(lock)] *)
| Acq2               (** [lock->locked = true] *)
| Acq3               (** [release_spinlock(&lock->lock)] *)
| Crit               (** it has the sleep lock *)
| Rel0               (** [release_sleeplock]: [acquire_spinlock(&lock->lock)] *)
| Rel1               (** [lock->locked = false] *)
| Rel2               (** [release_spinlock(&lock->lock)] *)
| Wk0                (** [wakeup]: [acquire_sched_lock()] *)
| Wk1                (** the loop over the process table *)
| Wk2.               (** [release_sched_lock()] *)
#[global] Instance tpc_eq_dec : EqDecision tpc.
Proof. solve_decision. Defined.

Record sstate : Type := mkSstate {
  ss_lk : bool;            (** [lock->lock] is held *)
  ss_pt : nat -> bool;     (** by container: its [ptable.lock] is held *)
  ss_locked : bool;        (** [lock->locked] *)
  ss_pc : nat -> tpc
}.
Definition at_pc (t : nat) (pc : tpc) (s : sstate) : sstate := mkSstate (ss_lk s) (ss_pt s) (ss_locked s) (<[t := pc]> (ss_pc s)).
Definition set_lk (x : bool) (s : sstate) : sstate := mkSstate x (ss_pt s) (ss_locked s) (ss_pc s).
Definition set_pt (c : nat) (x : bool) (s : sstate) : sstate := mkSstate (ss_lk s) (<[c := x]> (ss_pt s)) (ss_locked s) (ss_pc s).
Definition set_locked (x : bool) (s : sstate) : sstate := mkSstate (ss_lk s) (ss_pt s) x (ss_pc s).

Section threads.
(** The container of each thread. *)
Context (table : nat -> nat).

(** Taking a spin lock is possible when it is free. *)
Definition take_lk (t : nat) (pc : tpc) (s : sstate) : option sstate :=
  if ss_lk s then None else Some (at_pc t pc (set_lk true s)).
Definition take_pt (t : nat) (pc : tpc) (s : sstate) : option sstate :=
  if ss_pt s (table t) then None else Some (at_pc t pc (set_pt (table t) true s)).

Definition acquire_sleeplock_step (t : nat) (s : sstate) : option sstate :=
  match ss_pc s t with
  | Idle => Some (at_pc t Acq0 s)
  | Acq0 => take_lk t Acq1 s
  | Acq1 => Some (at_pc t (if ss_locked s then Slp0 else Acq2) s)
  | Acq2 => Some (at_pc t Acq3 (set_locked true s))
  | Acq3 => Some (at_pc t Crit (set_lk false s))
  | _ => None
  end.

Definition sleep_step (t : nat) (s : sstate) : option sstate :=
  match ss_pc s t with
  | Slp0 => take_pt t Slp1 s
  | Slp1 => Some (at_pc t Slp2 (set_lk false s))
  | Slp2 => Some (at_pc t Sleeping (set_pt (table t) false s))
  | Runnable => take_pt t Slp3 s
  | Slp3 => Some (at_pc t Slp4 (set_pt (table t) false s))
  | Slp4 => take_lk t Acq1 s
  | _ => None
  end.

Definition release_sleeplock_step (t : nat) (s : sstate) : option sstate :=
  match ss_pc s t with
  | Crit => Some (at_pc t Rel0 s)
  | Rel0 => take_lk t Rel1 s
  | Rel1 => Some (at_pc t Rel2 (set_locked false s))
  | Rel2 => Some (at_pc t Wk0 (set_lk false s))
  | _ => None
  end.

(** The loop of [wakeup] looks at the process table of this scheduler only: the
    threads of this container that sleep on the lock become runnable. *)
Definition wake (pc : tpc) : tpc := match pc with Sleeping => Runnable | _ => pc end.

Definition wakeup_step (t : nat) (s : sstate) : option sstate :=
  match ss_pc s t with
  | Wk0 => take_pt t Wk1 s
  | Wk1 => Some (at_pc t Wk2 (mkSstate (ss_lk s) (ss_pt s) (ss_locked s) (fun u => if decide (table u = table t) then wake (ss_pc s u) else ss_pc s u)))
  | Wk2 => Some (at_pc t Idle (set_pt (table t) false s))
  | _ => None
  end.

(** Other uses of the process table. *)
Definition other_step (t : nat) (s : sstate) : option sstate :=
  match ss_pc s t with
  | Idle => take_pt t Busy s
  | Busy => Some (at_pc t Idle (set_pt (table t) false s))
  | _ => None
  end.

Inductive sstep : sstate -> sstate -> Prop :=
| ss_acquire t s s' : acquire_sleeplock_step t s = Some s' -> sstep s s'
| ss_sleep t s s' : sleep_step t s = Some s' -> sstep s s'
| ss_release t s s' : release_sleeplock_step t s = Some s' -> sstep s s'
| ss_wakeup t s s' : wakeup_step t s = Some s' -> sstep s s'
| ss_other t s s' : other_step t s = Some s' -> sstep s s'.

Definition sstart : sstate := mkSstate false (fun _ => false) false (fun _ => Idle).

(** ** The invariant *)
Definition has_lk (pc : tpc) : bool := match pc with Acq1 | Slp0 | Slp1 | Acq2 | Acq3 | Rel1 | Rel2 => true | _ => false end.
Definition has_pt (pc : tpc) : bool := match pc with Busy | Slp1 | Slp2 | Slp3 | Wk1 | Wk2 => true | _ => false end.
Definition has_sleeplock (pc : tpc) : bool := match pc with Acq3 | Crit | Rel0 | Rel1 => true | _ => false end.
(** It will look at the sleepers. *)
Definition will_wake (pc : tpc) : bool := match pc with Rel2 | Wk0 | Wk1 => true | _ => false end.
(** It needs a wake-up. *)
Definition needs_wake (pc : tpc) : bool := match pc with Slp2 | Sleeping => true | _ => false end.

(** [b] is set exactly while one thread has [P]. *)
Record exactly_one (b : bool) (P : nat -> tpc -> bool) (pc : nat -> tpc) : Prop := {
  eo_some : b = true -> exists t, P t (pc t) = true;
  eo_set : forall t, P t (pc t) = true -> b = true;
  eo_one : forall t u, P t (pc t) = true -> P u (pc u) = true -> t = u
}.
Definition any_thread (P : tpc -> bool) : nat -> tpc -> bool := fun _ => P.
Definition threads_of (c : nat) (P : tpc -> bool) : nat -> tpc -> bool := fun t pc => bool_decide (table t = c) && P pc.

(** All threads that use the lock are of one container. *)
Definition one_container : Prop := forall t u, table t = table u.

Record sinv (s : sstate) : Prop := {
  sv_lk : exactly_one (ss_lk s) (any_thread has_lk) (ss_pc s);
  sv_pt : forall c, exactly_one (ss_pt s c) (threads_of c has_pt) (ss_pc s);
  sv_locked : exactly_one (ss_locked s) (any_thread has_sleeplock) (ss_pc s);
  sv_slp : forall t, ss_pc s t = Slp0 \/ ss_pc s t = Slp1 -> ss_locked s = true;
  sv_acq : forall t, ss_pc s t = Acq2 -> ss_locked s = false;
  sv_wake : one_container -> forall t, needs_wake (ss_pc s t) = true -> ss_locked s = true \/ exists u, will_wake (ss_pc s u) = true
}.

Lemma ins_eq (pc : nat -> tpc) t x : <[t := x]> pc t = x.
Proof. apply fn_lookup_insert. Qed.
Lemma ins_ne (pc : nat -> tpc) t x u : t <> u -> <[t := x]> pc u = pc u.
Proof. intros. by apply fn_lookup_insert_ne. Qed.

(** A thread keeps, takes or gives back what [b] stands for. *)
Lemma one_same b P pc pc' : (forall u, P u (pc' u) = P u (pc u)) -> exactly_one b P pc -> exactly_one b P pc'.
Proof.
  intros E [H1 H2 H3]. split; [|intros u; rewrite E; apply H2|intros u v; rewrite !E; apply H3].
  intros Hb. destruct (H1 Hb) as [u ?]. exists u. by rewrite E.
Qed.
Lemma one_keep b P pc t x : exactly_one b P pc -> P t x = P t (pc t) -> exactly_one b P (<[t := x]> pc).
Proof. intros H Hx. revert H. apply one_same. intros u. destruct (decide (t = u)) as [<-|]; [by rewrite ins_eq|by rewrite ins_ne]. Qed.
Lemma one_take P pc t x : exactly_one false P pc -> P t x = true -> exactly_one true P (<[t := x]> pc).
Proof.
  intros [H1 H2 H3] Hx. assert (forall u, P u (<[t := x]> pc u) = true -> u = t) as E.
  { intros u. destruct (decide (t = u)) as [<-|]; [done|]. rewrite ins_ne by done. intros H. by specialize (H2 u H). }
  split; [|done|intros u v Hu Hv; by rewrite (E u), (E v)]. intros _. exists t. by rewrite ins_eq.
Qed.
Lemma one_give b P pc t x : exactly_one b P pc -> P t (pc t) = true -> P t x = false -> exactly_one false P (<[t := x]> pc).
Proof.
  intros [H1 H2 H3] Ht Hx. assert (forall u, P u (<[t := x]> pc u) = false) as E.
  { intros u. destruct (decide (t = u)) as [<-|Hn]; [by rewrite ins_eq|]. rewrite ins_ne by done.
    destruct (P u (pc u)) eqn:Eu; [|done]. exfalso. apply Hn. by apply H3. }
  split; [done|intros u; by rewrite E|intros u v; by rewrite E].
Qed.

(** The locks of the process tables: those of the other containers stay. *)
Lemma pt_keep s t x : (forall c, exactly_one (ss_pt s c) (threads_of c has_pt) (ss_pc s)) -> has_pt x = has_pt (ss_pc s t) ->
  forall c, exactly_one (ss_pt s c) (threads_of c has_pt) (<[t := x]> (ss_pc s)).
Proof. intros H Hx c. apply one_keep; [apply H|]. unfold threads_of. by rewrite Hx. Qed.
Lemma pt_other s t x c : (forall c, exactly_one (ss_pt s c) (threads_of c has_pt) (ss_pc s)) -> table t <> c ->
  exactly_one (ss_pt s c) (threads_of c has_pt) (<[t := x]> (ss_pc s)).
Proof. intros H Hc. apply one_keep; [apply H|]. unfold threads_of. by rewrite bool_decide_false. Qed.
Lemma ptl_eq (f : nat -> bool) c b : <[c := b]> f c = b.
Proof. apply fn_lookup_insert. Qed.
Lemma ptl_ne (f : nat -> bool) c d b : c <> d -> <[c := b]> f d = f d.
Proof. intros. by apply fn_lookup_insert_ne. Qed.
Lemma pt_take s t x : (forall c, exactly_one (ss_pt s c) (threads_of c has_pt) (ss_pc s)) -> ss_pt s (table t) = false -> has_pt x = true ->
  forall c, exactly_one (<[table t := true]> (ss_pt s) c) (threads_of c has_pt) (<[t := x]> (ss_pc s)).
Proof.
  intros H Hf Hx c. destruct (decide (table t = c)) as [<-|Hc]; [|rewrite ptl_ne by done; by apply pt_other].
  rewrite ptl_eq. apply one_take; [rewrite <- Hf; apply H|]. unfold threads_of. by rewrite bool_decide_true.
Qed.
Lemma pt_give s t x : (forall c, exactly_one (ss_pt s c) (threads_of c has_pt) (ss_pc s)) -> has_pt (ss_pc s t) = true -> has_pt x = false ->
  forall c, exactly_one (<[table t := false]> (ss_pt s) c) (threads_of c has_pt) (<[t := x]> (ss_pc s)).
Proof.
  intros H Hf Hx c. destruct (decide (table t = c)) as [<-|Hc]; [|rewrite ptl_ne by done; by apply pt_other].
  rewrite ptl_eq. eapply one_give; [apply H| |]; unfold threads_of; rewrite bool_decide_true by done; done.
Qed.

(** A thread moves from [pc] to [x] without a change of [locked]. *)
Lemma sinv_move s s' t x :
  sinv s -> ss_locked s' = ss_locked s -> ss_pc s' = <[t := x]> (ss_pc s) ->
  exactly_one (ss_lk s') (any_thread has_lk) (ss_pc s') -> (forall c, exactly_one (ss_pt s' c) (threads_of c has_pt) (ss_pc s')) ->
  has_sleeplock x = has_sleeplock (ss_pc s t) ->
  (x = Slp0 \/ x = Slp1 -> ss_locked s = true) -> (x = Acq2 -> ss_locked s = false) ->
  (needs_wake x = true -> needs_wake (ss_pc s t) = true \/ ss_locked s = true) ->
  (will_wake (ss_pc s t) = true -> will_wake x = true) -> sinv s'.
Proof.
  intros [_ _ H3 H4 H5 H6] El Ep H1 H2 Hs Hx1 Hx2 Hx3 Hx4. split; [done|done|rewrite El, Ep; by apply one_keep| | |].
  - intros u. rewrite Ep, El. destruct (decide (t = u)) as [<-|]; [by rewrite ins_eq|rewrite ins_ne by done; apply H4].
  - intros u. rewrite Ep, El. destruct (decide (t = u)) as [<-|]; [by rewrite ins_eq|rewrite ins_ne by done; apply H5].
  - intros Hone u Hu. rewrite El, Ep in *.
    assert (ss_locked s = true \/ exists v, will_wake (ss_pc s v) = true) as [H|[v Hv]].
    { destruct (decide (t = u)) as [<-|]; [rewrite ins_eq in Hu; destruct (Hx3 Hu); [by eapply (H6 Hone)|by left]|].
      rewrite ins_ne in Hu by done. by eapply (H6 Hone). }
    + by left.
    + right. destruct (decide (t = v)) as [<-|]; [exists t; rewrite ins_eq; auto|]. exists v. by rewrite ins_ne.
Qed.

(** The obligations of [sinv_move] at one step; [E] gives the old place. *)
Ltac one_tac Hi E :=
  first [ apply one_keep; [apply Hi|unfold any_thread; by rewrite E]
        | eapply one_give; [apply Hi|unfold any_thread; by rewrite E|done] ].
Ltac pt_tac Hi E :=
  first [ apply pt_keep; [apply Hi|by rewrite E] | apply pt_give; [apply Hi|by rewrite E|done] ].
Ltac move_tac Hi E :=
  eapply (sinv_move _ _ _ _ Hi); [done|done|simpl; one_tac Hi E|simpl; pt_tac Hi E|by rewrite E|..];
  rewrite ?E;
  first [by intros [?|?] | by intros ? | by intros _; left | by intros _; right | intros _; congruence].

Lemma take_lk_inv s t x s' :
  sinv s -> take_lk t x s = Some s' -> has_lk x = true -> has_pt x = has_pt (ss_pc s t) ->
  has_sleeplock x = has_sleeplock (ss_pc s t) -> x <> Slp0 -> x <> Slp1 -> x <> Acq2 -> needs_wake x = false ->
  (will_wake (ss_pc s t) = true -> will_wake x = true) -> sinv s'.
Proof.
  intros Hi Ht Hl Hp Hs H1 H2 H3 Hn Hw. unfold take_lk in Ht. destruct (ss_lk s) eqn:E; [done|]. injection Ht as <-.
  eapply (sinv_move _ _ t x Hi); simpl; try done; [| |by intros [?|?]|by rewrite Hn].
  - apply one_take; [|done]. rewrite <- E. apply Hi.
  - by apply pt_keep; [apply Hi|].
Qed.

Lemma take_pt_inv s t x s' :
  sinv s -> take_pt t x s = Some s' -> has_pt x = true -> has_lk x = has_lk (ss_pc s t) ->
  has_sleeplock x = has_sleeplock (ss_pc s t) -> (x = Slp1 -> ss_pc s t = Slp0) -> x <> Slp0 -> x <> Acq2 -> needs_wake x = false ->
  (will_wake (ss_pc s t) = true -> will_wake x = true) -> sinv s'.
Proof.
  intros Hi Ht Hl Hp Hs H1 H2 H3 Hn Hw. unfold take_pt in Ht. destruct (ss_pt s (table t)) eqn:E; [done|]. injection Ht as <-.
  eapply (sinv_move _ _ t x Hi); simpl; try done; [| | |by rewrite Hn].
  - apply one_keep; [apply Hi|done].
  - by apply pt_take; [apply Hi|..].
  - intros [?|?]; [done|]. eapply (sv_slp _ Hi). left. by apply H1.
Qed.

Lemma acquire_sleeplock_inv t s s' : sinv s -> acquire_sleeplock_step t s = Some s' -> sinv s'.
Proof.
  intros Hi. unfold acquire_sleeplock_step. destruct (ss_pc s t) eqn:E; intros Hs; try done.
  - injection Hs as <-. move_tac Hi E.
  - by eapply take_lk_inv; [exact Hi|exact Hs|rewrite ?E..].
  - injection Hs as <-. destruct (ss_locked s) eqn:El; move_tac Hi E.
  - injection Hs as <-. pose proof (sv_acq _ Hi t E) as Hl.
    assert (forall u, has_sleeplock (ss_pc s u) = false) as Hno.
    { intros u. destruct (has_sleeplock (ss_pc s u)) eqn:Eu; [|done]. pose proof (eo_set _ _ _ (sv_locked _ Hi) u Eu). congruence. }
    assert (forall u, u <> t -> ss_pc s u <> Acq2) as Hacq.
    { intros u Hu Eu. apply Hu. apply (eo_one _ _ _ (sv_lk _ Hi)); [by rewrite Eu|by rewrite E]. }
    destruct Hi as [H1 H2 H3 H4 H5 H6]. split; simpl.
    + apply one_keep; [done|unfold any_thread; by rewrite E].
    + apply pt_keep; [done|by rewrite E].
    + apply one_take; [|done]. by rewrite <- Hl.
    + done.
    + intros u Hu. destruct (decide (t = u)) as [<-|Hn]; [by rewrite ins_eq in Hu|]. rewrite ins_ne in Hu by done. exfalso. by apply (Hacq u).
    + intros _ u _. by left.
  - injection Hs as <-. move_tac Hi E.
Qed.

Lemma sleep_inv t s s' : sinv s -> sleep_step t s = Some s' -> sinv s'.
Proof.
  intros Hi. unfold sleep_step. destruct (ss_pc s t) eqn:E; intros Hs; try done.
  - by eapply take_pt_inv; [exact Hi|exact Hs|rewrite ?E..].
  - injection Hs as <-. pose proof (sv_slp _ Hi t (or_intror E)). move_tac Hi E.
  - injection Hs as <-. move_tac Hi E.
  - by eapply take_pt_inv; [exact Hi|exact Hs|rewrite ?E..].
  - injection Hs as <-. move_tac Hi E.
  - by eapply take_lk_inv; [exact Hi|exact Hs|rewrite ?E..].
Qed.

Lemma release_sleeplock_inv t s s' : sinv s -> release_sleeplock_step t s = Some s' -> sinv s'.
Proof.
  intros Hi. unfold release_sleeplock_step. destruct (ss_pc s t) eqn:E; intros Hs; try done.
  - injection Hs as <-. move_tac Hi E.
  - by eapply take_lk_inv; [exact Hi|exact Hs|rewrite ?E..].
  - injection Hs as <-.
    assert (forall u, u <> t -> has_lk (ss_pc s u) = false) as Hno.
    { intros u Hu. destruct (has_lk (ss_pc s u)) eqn:Eu; [|done]. exfalso. apply Hu. apply (eo_one _ _ _ (sv_lk _ Hi)); [done|by rewrite E]. }
    destruct Hi as [H1 H2 H3 H4 H5 H6]. split; simpl.
    + apply one_keep; [done|unfold any_thread; by rewrite E].
    + apply pt_keep; [done|by rewrite E].
    + eapply one_give; [done|unfold any_thread; by rewrite E|done].
    + intros u Hu. destruct (decide (t = u)) as [<-|Hn]; [rewrite ins_eq in Hu; naive_solver|]. rewrite ins_ne in Hu by done.
      specialize (Hno u ltac:(done)). exfalso. by destruct Hu as [Hu|Hu]; rewrite Hu in Hno.
    + done.
    + intros _ u _. right. exists t. by rewrite ins_eq.
  - injection Hs as <-. move_tac Hi E.
Qed.

(** What [wakeup] does to the others. *)
Definition woken (t : nat) (s : sstate) : nat -> tpc := fun u => if decide (table u = table t) then wake (ss_pc s u) else ss_pc s u.
Lemma woken_cases t s u : woken t s u = ss_pc s u \/ (ss_pc s u = Sleeping /\ woken t s u = Runnable).
Proof. unfold woken. destruct (decide _); [|by left]. destruct (ss_pc s u); auto. Qed.
Lemma woken_keeps t s (P : nat -> tpc -> bool) u : (forall v, P v Sleeping = P v Runnable) -> P u (woken t s u) = P u (ss_pc s u).
Proof. intros HP. destruct (woken_cases t s u) as [->|[-> ->]]; [done|]. by rewrite HP. Qed.

Lemma wakeup_inv t s s' : sinv s -> wakeup_step t s = Some s' -> sinv s'.
Proof.
  intros Hi. unfold wakeup_step. destruct (ss_pc s t) eqn:E; intros Hs; try done.
  - by eapply take_pt_inv; [exact Hi|exact Hs|rewrite ?E..].
  - injection Hs as <-. change (fun u => if decide (table u = table t) then wake (ss_pc s u) else ss_pc s u) with (woken t s).
    assert (woken t s t = Wk1) as Et by (destruct (woken_cases t s t) as [->|[? _]]; [done|congruence]).
    assert (forall u x, <[t := Wk2]> (woken t s) u = x -> x <> Wk2 -> x <> Runnable -> u <> t /\ woken t s u = x /\ ss_pc s u = x) as Hold.
    { intros u x Hu H1 H2. destruct (decide (t = u)) as [<-|Hn]; [rewrite ins_eq in Hu; congruence|]. rewrite ins_ne in Hu by done.
      split; [congruence|]. split; [done|]. destruct (woken_cases t s u) as [Hw|[_ Hw]]; congruence. }
    destruct Hi as [H1 H2 H3 H4 H5 H6]. split; simpl.
    + apply one_keep; [|unfold any_thread; by rewrite Et]. revert H1. apply one_same. intros u. by apply woken_keeps.
    + intros c. apply one_keep; [|unfold threads_of; by rewrite Et]. specialize (H2 c). revert H2. apply one_same. intros u. apply woken_keeps.
      intros v. unfold threads_of. simpl. by rewrite andb_false_r.
    + apply one_keep; [|unfold any_thread; by rewrite Et]. revert H3. apply one_same. intros u. by apply woken_keeps.
    + intros u [Hu|Hu]; apply Hold in Hu as (_ & _ & Hu); try done; apply (H4 u); auto.
    + intros u Hu. apply Hold in Hu as (_ & _ & Hu); try done. by apply (H5 u).
    + intros Hone u Hu. exfalso. destruct (<[t := Wk2]> (woken t s) u) eqn:Eu; try done; apply Hold in Eu as (Hn & Hw & Eu); try done.
      * apply Hn. apply (eo_one _ _ _ (H2 (table t))); unfold threads_of; [by rewrite Eu, bool_decide_true|by rewrite E, bool_decide_true].
      * unfold woken in Hw. rewrite decide_True, Eu in Hw by done. done.
  - injection Hs as <-. move_tac Hi E.
Qed.

Lemma other_inv t s s' : sinv s -> other_step t s = Some s' -> sinv s'.
Proof.
  intros Hi. unfold other_step. destruct (ss_pc s t) eqn:E; intros Hs; try done.
  - by eapply take_pt_inv; [exact Hi|exact Hs|rewrite ?E..].
  - injection Hs as <-. move_tac Hi E.
Qed.

Lemma sinv_reach s : rtc sstep sstart s -> sinv s.
Proof.
  intros Hr. assert (sinv sstart) as H0.
  { split; [by split|intros c; split; unfold threads_of; simpl; [done|intros t|intros t u]; by rewrite andb_false_r|by split|..]; naive_solver. }
  remember sstart as s0. clear Heqs0. induction Hr as [|x y z Hxy _ IH]; [done|]. apply IH.
  destruct Hxy; [by eapply acquire_sleeplock_inv|by eapply sleep_inv|by eapply release_sleeplock_inv|by eapply wakeup_inv|by eapply other_inv].
Qed.

(** ** Threads of two containers *)
Lemma sstep_trans s1 s2 s3 : sstep s1 s2 -> rtc sstep s2 s3 -> rtc sstep s1 s3.
Proof. apply rtc_l. Qed.

(** [u] takes the lock, [t] goes to sleep for it, [u] gives it back. *)
Ltac thread_step Hne Htu rule t :=
  eapply sstep_trans;
  [ apply (rule t); unfold acquire_sleeplock_step, sleep_step, release_sleeplock_step, wakeup_step, take_lk, take_pt;
    cbn [at_pc set_lk set_pt set_locked ss_lk ss_pt ss_locked ss_pc sstart];
    repeat first [rewrite ins_eq | rewrite ins_ne by (exact Htu || exact (not_eq_sym Htu)) | rewrite ptl_eq | rewrite ptl_ne by (exact Hne || exact (not_eq_sym Hne))];
    cbv beta iota; reflexivity | ].
Lemma wakeup_lost t u : table t <> table u -> exists s,
  rtc sstep sstart s /\ ss_pc s t = Sleeping /\ ss_locked s = false /\ ss_lk s = false /\ forall v, v <> t -> ss_pc s v = Idle.
Proof.
  intros Hne. assert (t <> u) as Htu by congruence. eexists. split.
  - do 5 (thread_step Hne Htu ss_acquire u). do 3 (thread_step Hne Htu ss_acquire t). do 3 (thread_step Hne Htu ss_sleep t).
    do 4 (thread_step Hne Htu ss_release u). do 3 (thread_step Hne Htu ss_wakeup u). apply rtc_refl.
  - cbn [at_pc set_lk set_pt set_locked ss_lk ss_pt ss_locked ss_pc sstart]. split_and!; [|done|done|].
    + do 2 (rewrite ins_ne by congruence). cbv beta. rewrite decide_False by done. do 5 (rewrite ins_ne by congruence). apply ins_eq.
    + intros v Hv. destruct (decide (u = v)) as [<-|Hn]; [by rewrite ins_eq|]. do 2 (rewrite ins_ne by congruence). cbv beta.
      destruct (decide _); do 16 (rewrite ins_ne by congruence); done.
Qed.

(** C28: whatever the interleaving of threads that use a sleep lock, at most
    one has it. If the threads are all of one container no wake-up is lost:
    while a thread sleeps, the lock is taken or some thread is on its way to
    wake the sleepers, so threads never all sleep: if every thread is idle or
    sleeps, none sleeps. Between threads of two containers wake-ups do get
    lost, since [wakeup] looks only at the process table of its own container:
    from the start a state is reached in which a thread sleeps, the lock is free
    and no other thread is on its way. *)
Theorem sleeplock_no_lost_wakeup s :
  rtc sstep sstart s ->
  (forall t u, ss_pc s t = Crit -> ss_pc s u = Crit -> t = u) /\
  (one_container ->
    (forall t, ss_pc s t = Sleeping -> ss_locked s = true \/ exists u, will_wake (ss_pc s u) = true) /\
    ((forall t, ss_pc s t = Idle \/ ss_pc s t = Sleeping) -> forall t, ss_pc s t = Idle)) /\
  (forall t u, table t <> table u -> exists s',
    rtc sstep sstart s' /\ ss_pc s' t = Sleeping /\ ss_locked s' = false /\ ss_lk s' = false /\ forall v, v <> t -> ss_pc s' v = Idle).
Proof.
  intros [_ _ H3 _ _ H6]%sinv_reach. split; [|split; [|by apply wakeup_lost]].
  - intros t u Ht Hu. apply (eo_one _ _ _ H3); unfold any_thread; [by rewrite Ht|by rewrite Hu].
  - intros Hone. specialize (H6 Hone). split.
    + intros t Ht. apply (H6 t). by rewrite Ht.
    + intros Hall t. destruct (Hall t) as [|Ht]; [done|]. exfalso.
      destruct (H6 t) as [Hl|[u Hu]]; [by rewrite Ht| |].
      * destruct (eo_some _ _ _ H3 Hl) as [u Hu]. unfold any_thread in Hu. by destruct (Hall u) as [E|E]; rewrite E in Hu.
      * by destruct (Hall u) as [E|E]; rewrite E in Hu.
Qed.
End threads.

Lemma sleeplock_no_lost_wakeup_witness :
  let s := mkSstate false (fun _ => false) true (<[2%nat := Acq0]> (<[1%nat := Crit]> (<[1%nat := Acq3]> (<[1%nat := Acq2]>
             (<[1%nat := Acq1]> (<[1%nat := Acq0]> (fun _ => Idle))))))) in
  let table := fun _ => 0%nat in
  (forall t u, ss_pc s t = Crit -> ss_pc s u = Crit -> t = u) /\
  (one_container table ->
    (forall t, ss_pc s t = Sleeping -> ss_locked s = true \/ exists u, will_wake (ss_pc s u) = true) /\
    ((forall t, ss_pc s t = Idle \/ ss_pc s t = Sleeping) -> forall t, ss_pc s t = Idle)) /\
  (forall t u, table t <> table u -> exists s',
    rtc (sstep table) sstart s' /\ ss_pc s' t = Sleeping /\ ss_locked s' = false /\ ss_lk s' = false /\ forall v, v <> t -> ss_pc s' v = Idle).
Proof.
  intros s table. apply (sleeplock_no_lost_wakeup table s). unfold s.
  eapply rtc_l; [by apply (ss_acquire _ 1)|]. eapply rtc_l; [by apply (ss_acquire _ 1)|]. eapply rtc_l; [by apply (ss_acquire _ 1)|].
  eapply rtc_l; [by apply (ss_acquire _ 1)|]. eapply rtc_l; [by apply (ss_acquire _ 1)|]. eapply rtc_l; [by apply (ss_acquire _ 2)|]. apply rtc_refl.
Defined.

End Sleeplock.
