(* ===== verification/Bitmap.v ===== *)
(** * Bitmaps (src/common/bitmap.h, bitmap.c)

    A bitmap is an array of 64-bit cells ([BitmapCell], u64). [bitmap_get],
    [bitmap_set] and [bitmap_clear] are the inline functions of the header;
    the lemmas characterise them as a finite function from indices to
    booleans, and count set bits for the allocators that keep a count. *)
From S2P Require Import Prelude.

Module Bitmap.

Definition BITMAP_BITS_PER_CELL : Z := 64.
Definition BITMAP_TO_NUM_CELLS (size : Z) : Z :=
  (size + BITMAP_BITS_PER_CELL - 1) / BITMAP_BITS_PER_CELL.

(** [BITMAP_PARSE_INDEX(index, idx, offset)] *)
Definition BITMAP_PARSE_INDEX (index : Z) : nat * Z :=
  (Z.to_nat (index / BITMAP_BITS_PER_CELL), index mod BITMAP_BITS_PER_CELL).

(** [BIT(i)] of common/defines.h: [1ull << i]. *)
Definition BIT (i : Z) : Z := u64 (Z.shiftl 1 i).

(** [memset(bitmap, 0, BITMAP_TO_NUM_CELLS(size) * sizeof(BitmapCell))] *)
Definition init_bitmap (bitmap : list Z) (size : Z) : list Z :=
  let n := Z.to_nat (BITMAP_TO_NUM_CELLS size) in
  replicate n 0 ++ drop n bitmap.

Definition bitmap_get (bitmap : list Z) (index : Z) : bool :=
  let '(idx, offset) := BITMAP_PARSE_INDEX index in
  negb (Z.land (Z.shiftr (bitmap !!! idx) offset) 1 =? 0).

Definition bitmap_set (bitmap : list Z) (index : Z) : list Z :=
  let '(idx, offset) := BITMAP_PARSE_INDEX index in
  <[idx := Z.lor (bitmap !!! idx) (BIT offset)]> bitmap.

Definition bitmap_clear (bitmap : list Z) (index : Z) : list Z :=
  let '(idx, offset) := BITMAP_PARSE_INDEX index in
  <[idx := Z.land (bitmap !!! idx) (u64 (Z.lnot (BIT offset)))]> bitmap.

(** [index] addresses a bit of the bitmap. *)
Definition in_bitmap (bitmap : list Z) (index : Z) : Prop :=
  0 <= index < BITMAP_BITS_PER_CELL * Z.of_nat (length bitmap).

#[export] Instance in_bitmap_dec bitmap index : Decision (in_bitmap bitmap index).
Proof. unfold in_bitmap. apply _. Defined.

(** The number of set bits among the indices [0 .. n-1]. *)
Definition count_set (bitmap : list Z) (n : nat) : nat :=
  length (filter (fun i => bitmap_get bitmap (Z.of_nat i) = true) (seq 0 n)).

Section lemmas.
Implicit Types (bitmap : list Z) (i j : Z).

Lemma BIT_eq i : 0 <= i < 64 -> BIT i = 2 ^ i.
Proof.
  intros Hi. unfold BIT. rewrite Z.shiftl_1_l. apply u64_id.
  split; [lia|]. apply Z.pow_lt_mono_r; lia.
Qed.

Lemma bitmap_get_testbit bitmap i :
  bitmap_get bitmap i = Z.testbit (bitmap !!! Z.to_nat (i / 64)) (i mod 64).
Proof.
  unfold bitmap_get, BITMAP_PARSE_INDEX, BITMAP_BITS_PER_CELL.
  pose proof (Z.mod_pos_bound i 64 ltac:(lia)) as Hm.
  change 1 with (Z.ones 1). rewrite Z.land_ones by lia.
  replace (i mod 64) with (0 + i mod 64) at 2 by lia.
  rewrite <- Z.shiftr_spec by lia.
  change (2 ^ 1) with 2. rewrite Zmod_odd, <- Z.bit0_odd.
  by destruct (Z.testbit _ 0).
Qed.

Lemma parse_index_lt bitmap i :
  in_bitmap bitmap i -> (Z.to_nat (i / 64) < length bitmap)%nat.
Proof.
  unfold in_bitmap, BITMAP_BITS_PER_CELL. intros.
  assert (i / 64 < Z.of_nat (length bitmap)) by (apply Z.div_lt_upper_bound; lia).
  assert (0 <= i / 64) by (apply Z.div_pos; lia). lia.
Qed.

Lemma parse_index_inj i j :
  0 <= i -> 0 <= j -> Z.to_nat (i / 64) = Z.to_nat (j / 64) -> i mod 64 = j mod 64 -> i = j.
Proof.
  intros Hi Hj H1 H2.
  assert (0 <= i / 64) by (apply Z.div_pos; lia).
  assert (0 <= j / 64) by (apply Z.div_pos; lia).
  assert (i / 64 = j / 64) by lia.
  rewrite (Z.div_mod i 64), (Z.div_mod j 64) by lia. congruence.
Qed.

Lemma length_bitmap_set bitmap i : length (bitmap_set bitmap i) = length bitmap.
Proof. unfold bitmap_set. simpl. apply length_insert. Qed.
Lemma length_bitmap_clear bitmap i : length (bitmap_clear bitmap i) = length bitmap.
Proof. unfold bitmap_clear. simpl. apply length_insert. Qed.

Lemma lnot_testbit_u64 b o k :
  0 <= o < 64 -> 0 <= k < 64 ->
  Z.testbit (Z.land b (u64 (Z.lnot (BIT o)))) k = Z.testbit b k && negb (k =? o).
Proof.
  intros Ho Hk. rewrite Z.land_spec. f_equal.
  unfold u64. rewrite Z.mod_pow2_bits_low by lia.
  rewrite Z.lnot_spec by lia. rewrite BIT_eq by lia.
  rewrite Z.pow2_bits_eqb by lia. f_equal. apply Z.eqb_sym.
Qed.

Lemma bitmap_get_set bitmap i j :
  in_bitmap bitmap i -> 0 <= j ->
  bitmap_get (bitmap_set bitmap i) j = (i =? j) || bitmap_get bitmap j.
Proof.
  intros Hi Hj. rewrite !bitmap_get_testbit.
  pose proof (parse_index_lt _ _ Hi) as Hlt.
  pose proof (Z.mod_pos_bound i 64 ltac:(lia)).
  pose proof (Z.mod_pos_bound j 64 ltac:(lia)).
  unfold bitmap_set, BITMAP_PARSE_INDEX, BITMAP_BITS_PER_CELL.
  destruct (decide (Z.to_nat (i / 64) = Z.to_nat (j / 64))) as [He|Hne].
  - rewrite <- He. rewrite list_lookup_total_insert_eq by done.
    rewrite Z.lor_spec, BIT_eq, Z.pow2_bits_eqb by lia.
    destruct (Z.eqb_spec i j) as [->|Hij].
    + by rewrite Z.eqb_refl, orb_true_r.
    + assert (i mod 64 <> j mod 64).
      { intros Hm. apply Hij. apply parse_index_inj; auto. apply Hi. }
      rewrite (proj2 (Z.eqb_neq _ _)) by done. by rewrite orb_false_r.
  - rewrite list_lookup_total_insert_ne by done.
    destruct (Z.eqb_spec i j) as [->|]; done.
Qed.

Lemma bitmap_get_clear bitmap i j :
  in_bitmap bitmap i -> 0 <= j ->
  bitmap_get (bitmap_clear bitmap i) j = negb (i =? j) && bitmap_get bitmap j.
Proof.
  intros Hi Hj. rewrite !bitmap_get_testbit.
  pose proof (parse_index_lt _ _ Hi) as Hlt.
  pose proof (Z.mod_pos_bound i 64 ltac:(lia)).
  pose proof (Z.mod_pos_bound j 64 ltac:(lia)).
  unfold bitmap_clear, BITMAP_PARSE_INDEX, BITMAP_BITS_PER_CELL.
  destruct (decide (Z.to_nat (i / 64) = Z.to_nat (j / 64))) as [He|Hne].
  - rewrite <- He. rewrite list_lookup_total_insert_eq by done.
    rewrite lnot_testbit_u64 by lia.
    destruct (Z.eqb_spec i j) as [->|Hij].
    + by rewrite Z.eqb_refl, andb_false_r.
    + assert (i mod 64 <> j mod 64).
      { intros Hm. apply Hij. apply parse_index_inj; auto. apply Hi. }
      rewrite (proj2 (Z.eqb_neq _ _)) by lia. by rewrite andb_true_r.
  - rewrite list_lookup_total_insert_ne by done.
    destruct (Z.eqb_spec i j) as [->|]; done.
Qed.

Lemma bitmap_get_init bitmap size i :
  0 <= i < size -> bitmap_get (init_bitmap bitmap size) i = false.
Proof.
  intros Hi. rewrite bitmap_get_testbit. unfold init_bitmap.
  assert (0 <= i / 64) by (apply Z.div_pos; lia).
  assert (i / 64 < BITMAP_TO_NUM_CELLS size).
  { unfold BITMAP_TO_NUM_CELLS, BITMAP_BITS_PER_CELL.
    apply Z.lt_le_trans with ((i + 64) / 64).
    - replace (i + 64) with (i + 1 * 64) by lia. rewrite Z.div_add by lia. lia.
    - apply Z.div_le_mono; lia. }
  rewrite lookup_total_app_l by (rewrite length_replicate; lia).
  rewrite lookup_total_replicate_2 by lia. apply Z.testbit_0_l.
Qed.
End lemmas.

(** *** Counting *)
Section count.
Implicit Types (bitmap : list Z).

Lemma count_set_S bitmap n :
  count_set bitmap (S n) = (count_set bitmap n + Nat.b2n (bitmap_get bitmap (Z.of_nat n)))%nat.
Proof.
  unfold count_set. rewrite seq_S, filter_app, length_app. simpl. f_equal.
  rewrite filter_cons. by destruct (bitmap_get _ _).
Qed.

Lemma count_set_le bitmap n : (count_set bitmap n <= n)%nat.
Proof.
  induction n as [|n IH]; [done|]. rewrite count_set_S.
  destruct (bitmap_get _ _); simpl; lia.
Qed.

Lemma count_set_ext bitmap bitmap' n :
  (forall i, (i < n)%nat -> bitmap_get bitmap' (Z.of_nat i) = bitmap_get bitmap (Z.of_nat i)) ->
  count_set bitmap' n = count_set bitmap n.
Proof.
  induction n as [|n IH]; intros H; [done|].
  rewrite !count_set_S, IH by (intros; apply H; lia). by rewrite H by lia.
Qed.

(** Changing one bit below [n] changes the count by one. *)
Lemma count_set_flip bitmap bitmap' n (k : nat) :
  (k < n)%nat ->
  bitmap_get bitmap (Z.of_nat k) = false -> bitmap_get bitmap' (Z.of_nat k) = true ->
  (forall i, (i < n)%nat -> i <> k ->
     bitmap_get bitmap' (Z.of_nat i) = bitmap_get bitmap (Z.of_nat i)) ->
  count_set bitmap' n = S (count_set bitmap n).
Proof.
  induction n as [|n IH]; intros Hk H0 H1 H; [lia|].
  rewrite !count_set_S. destruct (decide (k = n)) as [->|Hne].
  - rewrite H0, H1. rewrite (count_set_ext bitmap bitmap' n) by (intros; apply H; lia).
    simpl; lia.
  - rewrite IH by (auto with lia). rewrite H by lia. lia.
Qed.

Lemma count_set_bitmap_set bitmap n k :
  (k < n)%nat -> in_bitmap bitmap (Z.of_nat k) -> bitmap_get bitmap (Z.of_nat k) = false ->
  count_set (bitmap_set bitmap (Z.of_nat k)) n = S (count_set bitmap n).
Proof.
  intros Hk Hin H0. apply (count_set_flip _ _ _ k); auto.
  - rewrite bitmap_get_set by (auto; lia). by rewrite Z.eqb_refl.
  - intros i Hi Hne. rewrite bitmap_get_set by (auto; lia).
    by rewrite (proj2 (Z.eqb_neq _ _)) by lia.
Qed.

Lemma count_set_bitmap_clear bitmap n k :
  (k < n)%nat -> in_bitmap bitmap (Z.of_nat k) -> bitmap_get bitmap (Z.of_nat k) = true ->
  count_set bitmap n = S (count_set (bitmap_clear bitmap (Z.of_nat k)) n).
Proof.
  intros Hk Hin H0. apply (count_set_flip _ _ _ k); auto.
  - rewrite bitmap_get_clear by (auto; lia). by rewrite Z.eqb_refl.
  - intros i Hi Hne. rewrite bitmap_get_clear by (auto; lia).
    by rewrite (proj2 (Z.eqb_neq _ _)) by lia.
Qed.

(** A count below [n] leaves a clear bit. *)
Lemma count_set_free bitmap n :
  (count_set bitmap n < n)%nat ->
  exists k, (k < n)%nat /\ bitmap_get bitmap (Z.of_nat k) = false.
Proof.
  induction n as [|n IH]; [lia|]. rewrite count_set_S. intros H.
  destruct (bitmap_get bitmap (Z.of_nat n)) eqn:E; simpl in H.
  - destruct IH as (k & ? & ?); [lia|]. exists k. split; [lia|done].
  - exists n. split; [lia|done].
Qed.

Lemma count_set_full bitmap n :
  count_set bitmap n = n -> forall k, (k < n)%nat -> bitmap_get bitmap (Z.of_nat k) = true.
Proof.
  induction n as [|n IH]; [lia|]. rewrite count_set_S. intros H k Hk.
  pose proof (count_set_le bitmap n).
  destruct (bitmap_get bitmap (Z.of_nat n)) eqn:E; simpl in H; [|lia].
  destruct (decide (k = n)) as [->|]; [done|]. apply IH; lia.
Qed.

Lemma count_set_init bitmap size n :
  Z.of_nat n <= size -> count_set (init_bitmap bitmap size) n = 0%nat.
Proof.
  induction n as [|n IH]; intros Hn; [done|].
  rewrite count_set_S, IH, bitmap_get_init by lia. done.
Qed.
(** A prefix of set bits bounds the count from below. *)
Lemma count_set_ge bitmap m n :
  (m <= n)%nat -> (forall k, (k < m)%nat -> bitmap_get bitmap (Z.of_nat k) = true) ->
  (m <= count_set bitmap n)%nat.
Proof.
  intros Hmn H. induction Hmn as [|n Hmn IH].
  - clear -H. induction m as [|m IH]; [lia|]. rewrite count_set_S, H by lia. simpl.
    specialize (IH ltac:(intros; apply H; lia)). lia.
  - rewrite count_set_S. lia.
Qed.

End count.

End Bitmap.
