(* ===== verification/PhysMem.v ===== *)
(** * Physical memory (src/core/physical_memory.c, aarch64/mmu.h)

    Kernel memory as bytes at kernel addresses, the list of free pages that is
    threaded through the pages themselves, [kalloc] and [kfree]. *)
From S2P Require Import Prelude.

Module PhysMem.

Definition PAGE_SIZE : Z := 4096.
Definition KSPACE_MASK : Z := 18446462598732840960.
Definition K2P (addr : Z) : Z := u64 (addr - KSPACE_MASK).
Definition P2K (addr : Z) : Z := u64 (addr + KSPACE_MASK).
Definition round_down (a b : Z) : Z := u64 (a - a mod b).
Definition round_up (a b : Z) : Z := round_down (u64 (u64 (a + b) - 1)) b.

(** ** Memory *)
Definition bytes_at (m : Z -> Z) (a n : Z) : list Z := m <$> seqZ a n.
Definition write_bytes (m : Z -> Z) (a : Z) (l : list Z) : Z -> Z :=
  fun x => if (a <=? x) && (x <? a + Z.of_nat (length l)) then l !!! Z.to_nat (x - a) else m x.
Definition fill (m : Z -> Z) (a n v : Z) : Z -> Z := fun x => if (a <=? x) && (x <? a + n) then v else m x.
(** [memmove(dst, src, n)] *)
Definition move_bytes (m : Z -> Z) (dst src n : Z) : Z -> Z :=
  fun x => if (dst <=? x) && (x <? dst + n) then m (src + (x - dst)) else m x.
Definition load64 (m : Z -> Z) (a : Z) : Z := le_val (bytes_at m a 8).
Definition store64 (m : Z -> Z) (a v : Z) : Z -> Z := write_bytes m a (le_bytes 8 v).

Record kmem : Type := mkKmem {
  km_mem : Z -> Z;    (** memory, by kernel address *)
  km_next : Z;        (** [freelist.next] *)
  km_lock : bool      (** [mmt.lock] *)
}.
Definition set_km_mem (x : Z -> Z) (s : kmem) : kmem := mkKmem x (km_next s) (km_lock s).
Definition set_km_next (x : Z) (s : kmem) : kmem := mkKmem (km_mem s) x (km_lock s).
Definition set_km_lock (x : bool) (s : kmem) : kmem := mkKmem (km_mem s) (km_next s) x.

(** Access through a pointer; a null pointer faults. *)
Definition rd64 (a : Z) : M kmem Z :=
  assert_ (negb (a =? 0));; gets (fun s => load64 (km_mem s) a).
Definition wr64 (a v : Z) : M kmem unit :=
  assert_ (negb (a =? 0));; modify (fun s => set_km_mem (store64 (km_mem s) a v) s).
Definition mem_update (f : (Z -> Z) -> Z -> Z) : M kmem unit := modify (fun s => set_km_mem (f (km_mem s)) s).

Definition freelist_alloc : M kmem Z :=
  p ← gets km_next;
  whenM (negb (p =? 0)) (next ← rd64 p; modify (set_km_next next));;
  mret p.

Definition freelist_free (v : Z) : M kmem unit :=
  next ← gets km_next;
  wr64 v next;;
  modify (set_km_next v).

(** [for (p = start; p + PAGE_SIZE <= end; p += PAGE_SIZE)] *)
Definition pages_between (start end_ : Z) : list Z :=
  (fun i => start + PAGE_SIZE * i) <$> seqZ 0 ((end_ - start) / PAGE_SIZE).
Definition init_freelist (start end_ : Z) : M kmem unit := eachM (pages_between start end_) freelist_free.
Definition free_range (start end_ : Z) : M kmem unit := eachM (pages_between start end_) freelist_free.

Definition acquire_memlock : M kmem unit := b ← gets km_lock; assert_ (negb b);; modify (set_km_lock true).
Definition release_memlock : M kmem unit := b ← gets km_lock; assert_ b;; modify (set_km_lock false).

(** [kernel_end] is the symbol [end] of the linker script. *)
Definition init_memory_manager (kernel_end : Z) : M kmem unit :=
  let phystop := 1056964608 in
  let roundup_end := round_up kernel_end PAGE_SIZE in
  init_freelist roundup_end (P2K phystop);;
  modify (set_km_lock false).

Definition kalloc : M kmem Z :=
  acquire_memlock;; p ← freelist_alloc; release_memlock;; mret p.
Definition kfree (va : Z) : M kmem unit :=
  acquire_memlock;; freelist_free va;; release_memlock.

(** ** Memory lemmas *)
Lemma length_bytes_at m a n : length (bytes_at m a n) = Z.to_nat n.
Proof. unfold bytes_at. by rewrite length_fmap, length_seqZ. Qed.

Lemma bytes_at_ext m m' a n : (forall x, a <= x < a + n -> m x = m' x) -> bytes_at m a n = bytes_at m' a n.
Proof.
  intros H. unfold bytes_at. apply list_fmap_ext. intros i x Hx. apply lookup_seqZ in Hx as [-> Hi]. apply H. lia.
Qed.

Lemma load64_ext m m' a : (forall x, a <= x < a + 8 -> m x = m' x) -> load64 m a = load64 m' a.
Proof. intros H. unfold load64. by rewrite (bytes_at_ext m m'). Qed.

Lemma write_bytes_out m a l x : ~ (a <= x < a + Z.of_nat (length l)) -> write_bytes m a l x = m x.
Proof.
  intros H. unfold write_bytes. destruct (Z.leb_spec a x), (Z.ltb_spec x (a + Z.of_nat (length l))); simpl; try done. lia.
Qed.

Lemma bytes_at_write m a l : bytes_at (write_bytes m a l) a (Z.of_nat (length l)) = l.
Proof.
  apply list_eq. intros i. unfold bytes_at. rewrite list_lookup_fmap. destruct (decide (i < length l)%nat).
  - rewrite lookup_seqZ_lt by lia. simpl. unfold write_bytes.
    rewrite (proj2 (Z.leb_le _ _)), (proj2 (Z.ltb_lt _ _)) by lia. simpl.
    replace (Z.to_nat (a + Z.of_nat i - a)) with i by lia. symmetry. by apply list_lookup_lookup_total_lt.
  - rewrite lookup_seqZ_ge by lia. symmetry. apply lookup_ge_None. lia.
Qed.

Lemma load64_store64_eq m a v : 0 <= v < 2 ^ 64 -> load64 (store64 m a v) a = v.
Proof.
  intros Hv. unfold load64, store64. replace 8 with (Z.of_nat (length (le_bytes 8 v))) at 1 by (by rewrite length_le_bytes).
  rewrite bytes_at_write, le_val_le_bytes. by apply Z.mod_small.
Qed.

Lemma store64_out m a v x : ~ (a <= x < a + 8) -> store64 m a v x = m x.
Proof. intros H. apply write_bytes_out. by rewrite length_le_bytes. Qed.

Lemma load64_store64_ne m a b v : a + 8 <= b \/ b + 8 <= a -> load64 (store64 m a v) b = load64 m b.
Proof. intros H. apply load64_ext. intros x Hx. apply store64_out. lia. Qed.

Lemma load64_fill m a n b : b + 8 <= a \/ a + n <= b -> load64 (fill m a n 0) b = load64 m b.
Proof.
  intros H. apply load64_ext. intros x Hx. unfold fill.
  destruct (Z.leb_spec a x), (Z.ltb_spec x (a + n)); simpl; try done. lia.
Qed.

Lemma load64_fill_in m a n b : a <= b -> b + 8 <= a + n -> load64 (fill m a n 0) b = 0.
Proof.
  intros H1 H2. unfold load64.
  assert (bytes_at (fill m a n 0) b 8 = replicate 8 0) as ->; [|done].
  apply list_eq. intros i. unfold bytes_at. rewrite list_lookup_fmap.
  destruct (decide (i < 8)%nat).
  - rewrite lookup_seqZ_lt, lookup_replicate_2 by lia. simpl. f_equal. unfold fill.
    by rewrite (proj2 (Z.leb_le _ _)), (proj2 (Z.ltb_lt _ _)) by lia.
  - rewrite lookup_seqZ_ge by lia. symmetry. apply lookup_ge_None. rewrite length_replicate. lia.
Qed.

Definition mem_ok (m : Z -> Z) : Prop := forall x, byte_ok (m x).

Lemma load64_range m a : mem_ok m -> 0 <= load64 m a < 2 ^ 64.
Proof.
  intros Hm. unfold load64. pose proof (le_val_range (bytes_at m a 8)) as H. rewrite length_bytes_at in H.
  change (256 ^ Z.of_nat (Z.to_nat 8)) with (2 ^ 64) in H. apply H.
  unfold bytes_at. apply Forall_fmap, Forall_forall. intros x _. apply Hm.
Qed.

Lemma mem_ok_store64 m a v : mem_ok m -> mem_ok (store64 m a v).
Proof.
  intros Hm x. unfold store64, write_bytes. rewrite length_le_bytes.
  destruct ((a <=? x) && (x <? a + Z.of_nat 8)) eqn:E; [|apply Hm].
  apply andb_true_iff in E as [E1%Z.leb_le E2%Z.ltb_lt].
  eapply (Forall_lookup_total_1 byte_ok (le_bytes 8 v)); [apply le_bytes_ok|rewrite length_le_bytes; lia].
Qed.

Lemma mem_ok_fill m a n : mem_ok m -> mem_ok (fill m a n 0).
Proof. intros Hm x. unfold fill. destruct (_ && _); [unfold byte_ok; lia|apply Hm]. Qed.

(** ** The free list *)
Definition page_ok (p : Z) : Prop := p mod PAGE_SIZE = 0 /\ 0 < p /\ p + PAGE_SIZE <= 2 ^ 64.

Fixpoint flist (m : Z -> Z) (p : Z) (l : list Z) : Prop :=
  match l with
  | [] => p = 0
  | x :: l' => p = x /\ flist m (load64 m x) l'
  end.

(** The free pages are [l], in the order [kalloc] gives them out. *)
Record km_inv (s : kmem) (l : list Z) : Prop := {
  ki_list : flist (km_mem s) (km_next s) l;
  ki_nodup : NoDup l;
  ki_pages : Forall page_ok l;
  ki_lock : km_lock s = false;
  ki_mem : mem_ok (km_mem s)
}.

Lemma pages_disjoint p q : page_ok p -> page_ok q -> p <> q -> p + PAGE_SIZE <= q \/ q + PAGE_SIZE <= p.
Proof. intros (Hp & _) (Hq & _) Hne. unfold PAGE_SIZE in *. Z.to_euclidean_division_equations. lia. Qed.

Lemma flist_ext m m' p l :
  (forall x, x ∈ l -> load64 m' x = load64 m x) -> flist m p l -> flist m' p l.
Proof.
  revert p. induction l as [|x l IH]; intros p H; [done|]. simpl. intros [-> Hf]. split; [done|].
  rewrite H by (by left). apply IH; [|done]. intros y Hy. apply H. by right.
Qed.

(** A change of memory that leaves the first word of every free page alone. *)
Lemma km_inv_mem s l m' :
  km_inv s l -> (forall x, x ∈ l -> load64 m' x = load64 (km_mem s) x) -> mem_ok m' -> km_inv (set_km_mem m' s) l.
Proof. intros [] H Hm. split; simpl; try done. by eapply flist_ext. Qed.

Lemma kalloc_ok s l :
  km_inv s l ->
  wp kalloc (fun p s' => km_mem s' = km_mem s /\
    match l with [] => p = 0 /\ km_inv s' [] | x :: l' => p = x /\ km_inv s' l' end) s.
Proof.
  intros [Hf Hnd Hp Hl Hm]. unfold kalloc, acquire_memlock, release_memlock, freelist_alloc.
  apply wp_bind, wp_bind, wp_gets. rewrite Hl. apply wp_bind, wp_assert; [done|]. apply wp_modify.
  apply wp_bind, wp_bind, wp_gets. simpl km_next. apply wp_bind. destruct l as [|x l].
  - simpl in Hf. rewrite Hf. simpl. apply wp_ret, wp_ret, wp_bind, wp_bind, wp_gets, wp_bind, wp_assert; [done|].
    apply wp_modify, wp_ret. by split_and!.
  - simpl in Hf. destruct Hf as [-> Hf]. pose proof (Forall_cons_1 _ _ _ Hp) as [(_ & Hx0 & _) Hp'].
    rewrite (proj2 (Z.eqb_neq x 0)) by lia. simpl. unfold rd64.
    apply wp_bind, wp_bind, wp_assert; [apply negb_true_iff, Z.eqb_neq; lia|]. apply wp_gets, wp_modify, wp_ret.
    apply wp_bind, wp_bind, wp_gets, wp_bind, wp_assert; [done|].
    apply wp_modify, wp_ret. split; [done|]. split; [done|]. apply NoDup_cons in Hnd as [_ Hnd]. by split.
Qed.

Lemma freelist_free_ok s l v :
  flist (km_mem s) (km_next s) l -> Forall page_ok l -> mem_ok (km_mem s) -> page_ok v -> v ∉ l -> 0 <= km_next s < 2 ^ 64 ->
  wp (freelist_free v) (fun _ s' => km_mem s' = store64 (km_mem s) v (km_next s) /\ km_next s' = v /\
    flist (km_mem s') v (v :: l) /\ km_lock s' = km_lock s /\ mem_ok (km_mem s')) s.
Proof.
  intros Hf Hp Hm Hv Hvl Hn. unfold freelist_free, wr64. pose proof Hv as (_ & Hv0 & _).
  apply wp_bind, wp_gets, wp_bind, wp_bind, wp_assert; [apply negb_true_iff, Z.eqb_neq; lia|].
  apply wp_modify, wp_modify. simpl. split_and!; try done; [|by apply mem_ok_store64].
  rewrite load64_store64_eq by done. eapply flist_ext; [|done]. intros x Hx.
  apply load64_store64_ne. rewrite Forall_forall in Hp. pose proof (pages_disjoint v x Hv (Hp x Hx)) as Hd.
  unfold PAGE_SIZE in Hd. destruct (decide (v = x)) as [->|]; [done|]. specialize (Hd n). lia.
Qed.

Lemma flist_head m p l : flist m p l -> Forall page_ok l -> 0 <= p < 2 ^ 64.
Proof.
  destruct l as [|x l]; simpl; [intros -> _; lia|]. intros [-> _] [(_ & ? & ?) _]%Forall_cons. unfold PAGE_SIZE in *. lia.
Qed.

Lemma kfree_ok s l v :
  km_inv s l -> page_ok v -> v ∉ l ->
  wp (kfree v) (fun _ s' => km_inv s' (v :: l) /\ forall x, ~ (v <= x < v + 8) -> km_mem s' x = km_mem s x) s.
Proof.
  intros [Hf Hnd Hp Hl Hm] Hv Hvl. unfold kfree, acquire_memlock, release_memlock.
  apply wp_bind, wp_bind, wp_gets. rewrite Hl. apply wp_bind, wp_assert; [done|]. apply wp_modify.
  apply wp_bind. eapply wp_mono; [apply (freelist_free_ok (set_km_lock true s) l v); try done; by eapply flist_head|].
  intros [] s' (Hm' & Hn' & Hf' & Hl' & Hok). simpl in *. apply wp_bind, wp_gets. rewrite Hl'.
  apply wp_bind, wp_assert; [done|]. apply wp_modify. split.
  - split; simpl; try done; [by rewrite Hn'|by apply NoDup_cons|by apply Forall_cons].
  - intros x Hx. simpl. rewrite Hm'. by apply store64_out.
Qed.

(** [kalloc] takes the first free page out of the list without touching
    memory, and returns 0 only when no page is free; [kfree] gives a page back,
    and the next [kalloc] returns it, its memory past the first word, and all
    other memory, unchanged. *)
Theorem kalloc_kfree_correct s l :
  km_inv s l ->
  (exists p s', kalloc s = Ok (p, s') /\ km_mem s' = km_mem s /\
     ((p = 0 /\ l = []) \/ (page_ok p /\ exists l', l = p :: l' /\ (p ∉ l') /\ km_inv s' l'))) /\
  (forall v, page_ok v -> v ∉ l -> exists s1 s2, kfree v s = Ok (tt, s1) /\ km_inv s1 (v :: l) /\
     kalloc s1 = Ok (v, s2) /\ km_inv s2 l /\ forall x, ~ (v <= x < v + 8) -> km_mem s2 x = km_mem s x).
Proof.
  intros Hi. split.
  - destruct (proj1 (wp_ok _ _ _) (kalloc_ok s l Hi)) as (p & s' & Heq & Hm & Hcase). exists p, s'. split_and!; try done.
    destruct l as [|x l]; [left; by destruct Hcase|]. right. destruct Hcase as [-> Hi'].
    destruct Hi as [_ [Hx _]%NoDup_cons [Hpx _]%Forall_cons _ _]. split; [done|]. exists l. done.
  - intros v Hv Hvl. destruct (proj1 (wp_ok _ _ _) (kfree_ok s l v Hi Hv Hvl)) as ([] & s1 & Heq & Hi1 & Hm1).
    destruct (proj1 (wp_ok _ _ _) (kalloc_ok s1 (v :: l) Hi1)) as (p & s2 & Heq2 & Hm2 & -> & Hi2).
    exists s1, s2. split_and!; try done. intros x Hx. rewrite Hm2. by apply Hm1.
Qed.

(** The loop of [init_freelist], whatever the state of the lock. *)
Lemma init_loop_ok s l ps :
  km_inv (set_km_lock false s) l -> Forall page_ok ps -> NoDup (ps ++ l) ->
  wp (eachM ps freelist_free) (fun _ s' => km_inv (set_km_lock false s') (reverse ps ++ l)) s.
Proof.
  revert s l. induction ps as [|v ps IH]; intros s l Hi Hps Hnd; [done|].
  apply Forall_cons in Hps as [Hv Hps]. simpl in Hnd. apply NoDup_cons in Hnd as [Hvn Hnd].
  destruct Hi as [Hf Hndl Hp Hl Hm]. simpl in *. apply wp_bind.
  assert (v ∉ l) as Hvl by (intros H; apply Hvn, elem_of_app; by right).
  eapply wp_mono; [apply (freelist_free_ok s l v); try done; by eapply flist_head|].
  intros [] s' (_ & Hn' & Hf' & _ & Hok). rewrite reverse_cons, <- app_assoc. simpl.
  apply IH; [|done|].
  - split; simpl; [by rewrite Hn'|by apply NoDup_cons|by apply Forall_cons|done|done].
  - apply NoDup_app in Hnd as (H1 & H2 & H3). apply NoDup_app. split_and!; [done| |by apply NoDup_cons].
    intros x Hx [->|Hx']%elem_of_cons; [apply Hvn, elem_of_app; by left|by apply (H2 x)].
Qed.

Lemma kalloc_kfree_correct_witness :
  let s := mkKmem (fun _ => 0) 8192 false in
  (exists p s', kalloc s = Ok (p, s') /\ km_mem s' = km_mem s /\
     ((p = 0 /\ [8192] = []) \/ (page_ok p /\ exists l', [8192] = p :: l' /\ (p ∉ l') /\ km_inv s' l'))) /\
  (forall v, page_ok v -> v ∉ [8192] -> exists s1 s2, kfree v s = Ok (tt, s1) /\ km_inv s1 [v; 8192] /\
     kalloc s1 = Ok (v, s2) /\ km_inv s2 [8192] /\ forall x, ~ (v <= x < v + 8) -> km_mem s2 x = km_mem s x).
Proof.
  intros s. apply (kalloc_kfree_correct s [8192]). split.
  - by split.
  - apply NoDup_singleton.
  - apply Forall_singleton. done.
  - done.
  - intros x. unfold byte_ok. simpl. lia.
Defined.

(** ** Initialisation *)
Lemma P2K_top : P2K 1056964608 = 18446462599789805568.
Proof. vm_compute. reflexivity. Qed.

Lemma pages_between_ok start end_ :
  start mod PAGE_SIZE = 0 -> 0 < start <= end_ -> end_ <= 2 ^ 64 ->
  Forall (fun p => page_ok p /\ start <= p /\ p + PAGE_SIZE <= end_) (pages_between start end_) /\
  NoDup (pages_between start end_).
Proof.
  intros Hs H1 H2. unfold pages_between. split.
  - apply Forall_fmap, Forall_forall. intros i Hi%elem_of_seqZ. simpl. unfold page_ok, PAGE_SIZE in *.
    pose proof (Z.div_mod (end_ - start) 4096). pose proof (Z.mod_pos_bound (end_ - start) 4096).
    assert ((start + 4096 * i) mod 4096 = 0) by (rewrite (Z.mul_comm 4096), Z.mod_add; done). nia.
  - apply NoDup_fmap; [|apply NoDup_seqZ]. intros i j H. unfold PAGE_SIZE in H. lia.
Qed.

Lemma pages_between_in start end_ p :
  start mod PAGE_SIZE = 0 -> p mod PAGE_SIZE = 0 -> start <= p -> p + PAGE_SIZE <= end_ -> p ∈ pages_between start end_.
Proof.
  intros Hs Hp H1 H2. unfold pages_between. apply list_elem_of_fmap. exists ((p - start) / PAGE_SIZE).
  unfold PAGE_SIZE in *. rewrite elem_of_seqZ. Z.to_euclidean_division_equations. lia.
Qed.

(** After [init_memory_manager] the free pages are the aligned pages
    between the end of the kernel and the top of memory, each exactly once. *)
Theorem init_memory_manager_pages s kernel_end :
  KSPACE_MASK < kernel_end <= P2K 1056964608 -> km_next s = 0 -> mem_ok (km_mem s) ->
  exists s' l, init_memory_manager kernel_end s = Ok (tt, s') /\ km_inv s' l /\
    forall p, p ∈ l <-> p mod PAGE_SIZE = 0 /\ kernel_end <= p /\ p + PAGE_SIZE <= P2K 1056964608.
Proof.
  rewrite P2K_top. intros Hk Hn Hm. unfold init_memory_manager. rewrite P2K_top.
  assert (exists st, round_up kernel_end PAGE_SIZE = st /\ st mod PAGE_SIZE = 0 /\ kernel_end <= st < kernel_end + PAGE_SIZE /\
    st <= 18446462599789805568) as (st & -> & Hst & Hr & Htop).
  { unfold KSPACE_MASK in Hk. exists (round_up kernel_end PAGE_SIZE). split; [done|]. unfold round_up, round_down, PAGE_SIZE.
    rewrite (u64_id (kernel_end + 4096)) by lia. rewrite (u64_id (kernel_end + 4096 - 1)) by lia.
    rewrite u64_id by (Z.to_euclidean_division_equations; lia). Z.to_euclidean_division_equations. lia. }
  unfold KSPACE_MASK, PAGE_SIZE in *.
  destruct (pages_between_ok st 18446462599789805568) as [Hp Hnd]; [done|lia|lia|].
  set (ps := pages_between st 18446462599789805568) in *.
  assert (wp (init_freelist st 18446462599789805568) (fun _ s' => km_inv (set_km_lock false s') (reverse ps)) s) as Hw.
  { unfold init_freelist. fold ps. rewrite <- (app_nil_r (reverse ps)). apply init_loop_ok.
    - split; simpl; try done. constructor.
    - eapply Forall_impl; [exact Hp|]. by intros p [? _].
    - by rewrite app_nil_r. }
  apply wp_ok in Hw as ([] & s' & Heq & Hi). exists (set_km_lock false s'), (reverse ps). split_and!.
  - unfold mbind, M_bind. by rewrite Heq.
  - done.
  - intros p. rewrite elem_of_reverse. rewrite Forall_forall in Hp. split.
    + intros Hin. destruct (Hp p Hin) as ((Ha & _) & ? & ?). unfold PAGE_SIZE in *. lia.
    + intros (Ha & H1 & H2). apply pages_between_in; unfold PAGE_SIZE; try done. Z.to_euclidean_division_equations. lia.
Qed.

Lemma init_memory_manager_pages_witness :
  exists s' l, init_memory_manager (KSPACE_MASK + 600000) (mkKmem (fun _ => 0) 0 false) = Ok (tt, s') /\ km_inv s' l /\
    forall p, p ∈ l <-> p mod PAGE_SIZE = 0 /\ KSPACE_MASK + 600000 <= p /\ p + PAGE_SIZE <= P2K 1056964608.
Proof.
  apply (init_memory_manager_pages (mkKmem (fun _ => 0) 0 false) (KSPACE_MASK + 600000));
    [split; [done|vm_compute; discriminate]|done|]. intros x. unfold byte_ok. simpl. lia.
Defined.

End PhysMem.
