(* ===== verification/VirtMem.v ===== *)
(** * User page tables (src/core/virtual_memory.c, aarch64/mmu.h)

    Four-level page tables as words of kernel memory, walked, filled, copied
    and freed with the page allocator of PhysMem.v. *)
From S2P Require Import Prelude PhysMem.

Module VirtMem.
Import PhysMem.

Definition USPACE_TOP : Z := 281474976710656.

(** Bits of page table entries. *)
Definition PTE_VALID : Z := 1.
Definition PTE_TABLE : Z := 3.
Definition PTE_PAGE : Z := 3.
Definition PTE_USER : Z := Z.shiftl 1 6.
Definition MT_NORMAL : Z := 1.
Definition AF_USED : Z := Z.shiftl 1 10.
Definition SH_OUTER : Z := Z.shiftl 2 8.
Definition PTE_NORMAL : Z := Z.lor (Z.lor (Z.shiftl MT_NORMAL 2) AF_USED) SH_OUTER.
Definition PTE_USER_DATA : Z := Z.lor (Z.lor PTE_USER PTE_NORMAL) PTE_PAGE.

(** [pte & ~0xFFFu]: the mask is 32 bits wide. *)
Definition PTE_ADDRESS (pte : Z) : Z := Z.land pte 4294963200.
Definition PTE_FLAGS (pte : Z) : Z := Z.land pte 4095.
Definition pte_valid (pte : Z) : bool := negb (Z.land pte PTE_VALID =? 0).

Definition memset_page (p : Z) : M kmem unit :=
  assert_ (negb (p =? 0));; mem_update (fun m => fill m p PAGE_SIZE 0).

Definition my_pgdir_init : M kmem Z :=
  pgdir ← kalloc;
  whenM (negb (pgdir =? 0)) (memset_page pgdir);;
  mret pgdir.

(** [(int)(tag >> ((3 - i) * 9)) & 0x1FF] *)
Definition page_index (tag i : Z) : Z := Z.land (Z.shiftr tag ((3 - i) * 9)) 511.

(** One level of the walk: the address of the next table. When the entry is
    not valid and no page is allocated, the walk goes on with that entry. *)
Definition walk_level (alloc : bool) (pagetable index : Z) : M kmem Z :=
  e ← rd64 (pagetable + 8 * index);
  whenM (negb (pte_valid e))
    (whenM alloc
       (p ← kalloc;
        whenM (negb (p =? 0))
          (memset_page p;;
           wr64 (pagetable + 8 * index) (Z.lor (K2P p) PTE_TABLE))));;
  e ← rd64 (pagetable + 8 * index);
  mret (P2K (PTE_ADDRESS e)).

(** Returns the address of the entry of [vak]. *)
Definition my_pgdir_walk (pgdir vak : Z) (alloc : bool) : M kmem Z :=
  let tag := Z.shiftr vak 12 in
  t1 ← walk_level alloc pgdir (page_index tag 0);
  t2 ← walk_level alloc t1 (page_index tag 1);
  t3 ← walk_level alloc t2 (page_index tag 2);
  mret (t3 + 8 * Z.land tag 511).

(** [recur_uvm_copy(pgdir, level)], with [k = 3 - level]. *)
Fixpoint recur_uvm_copy (k : nat) (pgdir : Z) : M kmem Z :=
  newpgdir ← my_pgdir_init;
  eachM (seqZ 0 512) (fun i =>
    e ← rd64 (pgdir + 8 * i);
    whenM (pte_valid e)
      (let page := P2K (PTE_ADDRESS e) in
       page_copy ← match k with
                   | S k' => recur_uvm_copy k' page
                   | O =>
                       page_copy ← kalloc;
                       assert_ (negb (page_copy =? 0));;
                       mem_update (fun m => move_bytes m page_copy page PAGE_SIZE);;
                       mret page_copy
                   end;
       wr64 (newpgdir + 8 * i) (Z.lor (K2P page_copy) (PTE_FLAGS e))));;
  mret newpgdir.

Definition my_uvm_copy (pgdir : Z) : M kmem Z := recur_uvm_copy 3 pgdir.

Fixpoint recur_vm_free (k : nat) (pgdir : Z) : M kmem unit :=
  eachM (seqZ 0 512) (fun i =>
    e ← rd64 (pgdir + 8 * i);
    whenM (pte_valid e)
      (let page := P2K (PTE_ADDRESS e) in
       match k with
       | S k' => recur_vm_free k' page
       | O => kfree page
       end));;
  kfree pgdir.

Definition my_vm_free (pgdir : Z) : M kmem unit := recur_vm_free 3 pgdir.

(** The addresses [a, a + PAGE_SIZE, ..] below [end_]. *)
Definition page_steps (a end_ : Z) : list Z :=
  (fun i => a + PAGE_SIZE * i) <$> seqZ 0 ((end_ - a + PAGE_SIZE - 1) / PAGE_SIZE).

(** 0, or -1 when it fails; a null entry pointer is a [PANIC]. *)
Definition my_uvm_map (pgdir va sz pa : Z) : M kmem Z :=
  let ptr := round_down va PAGE_SIZE in
  let end_ := u64 (va + sz) in
  let pa := round_down pa PAGE_SIZE in
  eachM (page_steps ptr end_) (fun p =>
    pte ← my_pgdir_walk pgdir p true;
    assert_ (negb (pte =? 0));;
    wr64 pte (Z.lor (u64 (pa + (p - ptr))) PTE_USER_DATA));;
  mret 0.

Definition my_uvm_dealloc (pgdir base oldsz newsz : Z) : M kmem Z :=
  if (oldsz <=? newsz) || (newsz <? base) then mret (i32 oldsz)
  else
    eachM (page_steps (round_up newsz PAGE_SIZE) oldsz) (fun a =>
      ptr ← my_pgdir_walk pgdir a false;
      whenM (negb (ptr =? 0))
        (e ← rd64 ptr;
         whenM (pte_valid e)
           (kfree (P2K (PTE_ADDRESS e));;
            wr64 ptr 0)));;
    mret (i32 newsz).

(** The loop of [my_uvm_alloc]: [Some] is its early return. *)
Definition my_uvm_alloc (pgdir base stksz oldsz newsz : Z) : M kmem Z :=
  if negb ((stksz <? USPACE_TOP) && (base <=? oldsz) && (oldsz <=? newsz) && (newsz <? USPACE_TOP - stksz))
  then panic
  else
    let a0 := round_up oldsz PAGE_SIZE in
    r ← forM (length (page_steps a0 newsz)) a0 PAGE_SIZE (fun a =>
          page ← kalloc;
          if page =? 0 then
            my_uvm_dealloc pgdir base (u64 (a - PAGE_SIZE)) oldsz;;
            mret (Some 0)
          else
            r ← my_uvm_map pgdir a PAGE_SIZE (K2P page);
            if r <? 0 then
              kfree page;;
              my_uvm_dealloc pgdir base (u64 (a - PAGE_SIZE)) oldsz;;
              mret (Some 0)
            else mret None);
    match r with
    | Some v => mret v
    | None => mret (i32 newsz)
    end.

(** The bytes to copy, or [None] for the null pointer: zeros. *)
Definition copy_part (src : option (list Z)) (off n : Z) : list Z :=
  match src with
  | Some l => slice (Z.to_nat off) (Z.to_nat n) l
  | None => replicate (Z.to_nat n) 0
  end.

(** One iteration per page; [done] bytes are copied already. *)
Fixpoint copyout_loop (fuel : nat) (pgdir va : Z) (src : option (list Z)) (done len : Z) : M kmem Z :=
  match fuel with
  | O => nofuel
  | S fuel' =>
      if len =? 0 then mret 0
      else
        let page_offset := va mod PAGE_SIZE in
        ptr ← my_pgdir_walk pgdir va true;
        if ptr =? 0 then mret (-1)
        else
          e ← rd64 ptr;
          page ← (if pte_valid e then mret (P2K (PTE_ADDRESS e))
                  else
                    page ← kalloc;
                    whenM (negb (page =? 0)) (wr64 ptr (Z.lor (K2P page) PTE_USER_DATA));;
                    mret page);
          if page =? 0 then mret (-1)
          else
            let n := PAGE_SIZE - page_offset in
            let n := if n <? len then n else len in
            mem_update (fun m => write_bytes m (page + page_offset) (copy_part src done n));;
            copyout_loop fuel' pgdir (u64 (va + n)) src (done + n) (len - n)
  end.

Definition my_copyout (pgdir va : Z) (src : option (list Z)) (len : Z) : M kmem Z :=
  if USPACE_TOP <? u64 (va + len) then mret (-1)
  else copyout_loop (S (Z.to_nat len)) pgdir va src 0 len.

(** [VirtualMemoryTable] and [virtual_memory_init]: the operations the rest of
    the kernel calls. *)
Record VirtualMemoryTable : Type := mkVmt {
  vmt_pgdir_init : M kmem Z;
  vmt_pgdir_walk : Z -> Z -> bool -> M kmem Z;
  vmt_uvm_copy : Z -> M kmem Z;
  vmt_vm_free : Z -> M kmem unit;
  vmt_uvm_map : Z -> Z -> Z -> Z -> M kmem Z;
  vmt_uvm_alloc : Z -> Z -> Z -> Z -> Z -> M kmem Z;
  vmt_uvm_dealloc : Z -> Z -> Z -> Z -> M kmem Z;
  vmt_copyout : Z -> Z -> option (list Z) -> Z -> M kmem Z
}.
Definition virtual_memory_init : VirtualMemoryTable :=
  mkVmt my_pgdir_init my_pgdir_walk my_uvm_copy my_vm_free my_uvm_map my_uvm_alloc my_uvm_dealloc my_copyout.

(** The entry points go through the table [vmt]. *)
Definition pgdir_init (vmt : VirtualMemoryTable) : M kmem Z := vmt_pgdir_init vmt.
Definition pgdir_walk (vmt : VirtualMemoryTable) (pgdir vak : Z) (alloc : bool) : M kmem Z := vmt_pgdir_walk vmt pgdir vak alloc.
Definition uvm_copy (vmt : VirtualMemoryTable) (pgdir : Z) : M kmem Z := vmt_uvm_copy vmt pgdir.
Definition vm_free (vmt : VirtualMemoryTable) (pgdir : Z) : M kmem unit := vmt_vm_free vmt pgdir.
Definition uvm_map (vmt : VirtualMemoryTable) (pgdir va sz pa : Z) : M kmem Z := vmt_uvm_map vmt pgdir va sz pa.
Definition uvm_alloc (vmt : VirtualMemoryTable) (pgdir base stksz oldsz newsz : Z) : M kmem Z := vmt_uvm_alloc vmt pgdir base stksz oldsz newsz.
Definition uvm_dealloc (vmt : VirtualMemoryTable) (pgdir base oldsz newsz : Z) : M kmem Z := vmt_uvm_dealloc vmt pgdir base oldsz newsz.
Definition copyout (vmt : VirtualMemoryTable) (pgdir va : Z) (p : option (list Z)) (len : Z) : M kmem Z := vmt_copyout vmt pgdir va p len.

End VirtMem.
