(* ===== verification/VmFacts.v ===== *)
(** * User page tables: what a mapping is (src/core/virtual_memory.c)

    The tables of a process are described by a finite map from index paths to
    pages; a walk with allocation extends it without changing any mapping, and
    [my_uvm_map] sets exactly the entries of its range. *)
From S2P Require Import Prelude PhysMem VirtMem.

Module VmFacts.
Import PhysMem VirtMem.

(** ** Entries *)
(** A page below the top of physical memory, at its kernel address. *)
Definition frame_ok (p : Z) : Prop := p mod PAGE_SIZE = 0 /\ KSPACE_MASK < p < KSPACE_MASK + 2 ^ 31.

Lemma frame_page p : frame_ok p -> page_ok p.
Proof. intros [H1 H2]. unfold page_ok, KSPACE_MASK, PAGE_SIZE in *. lia. Qed.

Lemma frame_K2P p : frame_ok p -> K2P p = p - KSPACE_MASK /\ K2P p mod PAGE_SIZE = 0 /\ 0 < K2P p < 2 ^ 31.
Proof.
  intros [H1 H2]. unfold K2P. rewrite u64_id by (unfold KSPACE_MASK in *; lia).
  split; [done|]. split; [|lia]. unfold PAGE_SIZE, KSPACE_MASK in *. Z.to_euclidean_division_equations. lia.
Qed.

Lemma entry_bits x f : x mod 4096 = 0 -> 0 <= x < 2 ^ 32 -> 0 <= f < 4096 ->
  Z.lor x f = x + f /\ PTE_ADDRESS (x + f) = x /\ PTE_FLAGS (x + f) = f.
Proof.
  intros Hx Hr Hf. assert (x = Z.shiftl (x / 4096) 12) as E.
  { rewrite Z.shiftl_mul_pow2 by lia. Z.to_euclidean_division_equations. lia. }
  assert (Z.land x f = 0) as H0.
  { apply Z.bits_inj'. intros n Hn. rewrite Z.land_spec, Z.bits_0. destruct (decide (n < 12)).
    - rewrite E, Z.shiftl_spec_low by lia. done.
    - rewrite (Z.bits_above_log2 f n), andb_false_r; [done|lia|].
      destruct (decide (f = 0)) as [->|]; [simpl; lia|]. apply Z.log2_lt_pow2; [lia|].
      apply Z.lt_le_trans with (2 ^ 12); [lia|]. apply Z.pow_le_mono_r; lia. }
  assert (Z.lor x f = x + f) as E2 by (pose proof (Z.add_lor_land x f); lia).
  split; [done|]. split.
  - unfold PTE_ADDRESS. rewrite <- E2. apply Z.bits_inj'. intros n Hn. rewrite Z.land_spec, Z.lor_spec.
    change 4294963200 with (Z.shiftl (Z.ones 20) 12). destruct (decide (n < 12)).
    + rewrite (Z.shiftl_spec_low (Z.ones 20)), andb_false_r by lia. rewrite E. by rewrite Z.shiftl_spec_low by lia.
    + rewrite Z.shiftl_spec, Z.testbit_ones_nonneg by lia.
      assert (Z.testbit f n = false) as ->.
      { destruct (decide (f = 0)) as [->|]; [apply Z.bits_0|]. apply Z.bits_above_log2; [lia|]. apply Z.log2_lt_pow2; [lia|].
        apply Z.lt_le_trans with (2 ^ 12); [lia|]. apply Z.pow_le_mono_r; lia. }
      rewrite orb_false_r. destruct (Z.ltb_spec (n - 12) 20); [by rewrite andb_true_r|]. rewrite andb_false_r.
      symmetry. destruct (decide (x = 0)) as [->|]; [apply Z.bits_0|]. apply Z.bits_above_log2; [lia|]. apply Z.log2_lt_pow2; [lia|].
      apply Z.lt_le_trans with (2 ^ 32); [lia|]. apply Z.pow_le_mono_r; lia.
  - unfold PTE_FLAGS. change 4095 with (Z.ones 12). rewrite Z.land_ones by lia. change (2 ^ 12) with 4096.
    rewrite Z.add_mod, Hx, Z.add_0_l, Z.mod_mod by lia. apply Z.mod_small. lia.
Qed.

(** The entry that points to the page [p]. *)
Definition table_entry (p : Z) : Z := Z.lor (K2P p) PTE_TABLE.

Lemma table_entry_ok p :
  frame_ok p -> pte_valid (table_entry p) = true /\ P2K (PTE_ADDRESS (table_entry p)) = p /\ 0 <= table_entry p < 2 ^ 64.
Proof.
  intros Hp. destruct (frame_K2P p Hp) as (E & Hm & Hr). unfold table_entry, PTE_TABLE.
  destruct (entry_bits (K2P p) 3) as (-> & Ha & Hf); [done|lia|lia|]. rewrite Ha. split_and!; [| |lia|lia].
  - unfold pte_valid, PTE_VALID. change 1 with (Z.ones 1). rewrite Z.land_ones by lia. change (2 ^ 1) with 2.
    unfold PAGE_SIZE in Hm. apply negb_true_iff, Z.eqb_neq. Z.to_euclidean_division_equations. lia.
  - rewrite E. destruct Hp. unfold P2K. rewrite u64_id; [lia|]. unfold KSPACE_MASK in *. lia.
Qed.

(** ** The tables of a process *)
Definition idx_ok (i : Z) : Prop := 0 <= i < 512.

(** Path of the last-level table of the page number [vpn]. *)
Definition vpath (vpn : Z) : list Z := [page_index vpn 0; page_index vpn 1; page_index vpn 2].

(** The entry of the page [vpn]: 0 where there is no table. *)
Definition pt_get (m : Z -> Z) (T : gmap (list Z) Z) (vpn : Z) : Z :=
  match T !! vpath vpn with
  | Some t => load64 m (t + 8 * Z.land vpn 511)
  | None => 0
  end.

(** [T] gives the page of each table, by the indices that lead to it. *)
Record pt_inv (m : Z -> Z) (pgdir : Z) (T : gmap (list Z) Z) : Prop := {
  pt_root : T !! [] = Some pgdir;
  pt_closed : forall pth i, is_Some (T !! (pth ++ [i])) -> is_Some (T !! pth);
  pt_frames : forall pth p, T !! pth = Some p -> frame_ok p;
  pt_inj : forall pth pth' p, T !! pth = Some p -> T !! pth' = Some p -> pth = pth';
  pt_entries : forall pth p i, T !! pth = Some p -> (length pth < 3)%nat -> idx_ok i ->
    match T !! (pth ++ [i]) with
    | Some q => load64 m (p + 8 * i) = table_entry q
    | None => pte_valid (load64 m (p + 8 * i)) = false
    end
}.

(** The tables, the free pages and memory of a kernel state. *)
Record vm_inv (pgdir : Z) (s : kmem) (T : gmap (list Z) Z) (l : list Z) : Prop := {
  vi_km : km_inv s l;
  vi_pt : pt_inv (km_mem s) pgdir T;
  vi_free : Forall frame_ok l;
  vi_sep : forall pth p, T !! pth = Some p -> p ∉ l
}.

Lemma page_index_ok tag i : idx_ok (page_index tag i).
Proof. unfold idx_ok, page_index. change 511 with (Z.ones 9). rewrite Z.land_ones by lia. by apply Z.mod_pos_bound. Qed.
Lemma last_index_ok tag : idx_ok (Z.land tag 511).
Proof. unfold idx_ok. change 511 with (Z.ones 9). rewrite Z.land_ones by lia. by apply Z.mod_pos_bound. Qed.
#[local] Hint Resolve page_index_ok last_index_ok : core.

(** Four indices of nine bits determine the page number. *)
Lemma vpath_inj v w :
  0 <= v < 2 ^ 36 -> 0 <= w < 2 ^ 36 -> vpath v = vpath w -> Z.land v 511 = Z.land w 511 -> v = w.
Proof.
  intros Hv Hw H. injection H as H0 H1 H2. revert H0 H1 H2. unfold page_index. change 511 with (Z.ones 9).
  rewrite !Z.land_ones, !Z.shiftr_div_pow2 by lia. intros H0 H1 H2 H3.
  change ((3 - 0) * 9) with 27 in H0. change ((3 - 1) * 9) with 18 in H1. change ((3 - 2) * 9) with 9 in H2.
  assert (forall x k, 0 <= k -> x / 2 ^ (9 + k) = x / 2 ^ k / 512) as Hd.
  { intros x k Hk. rewrite Z.pow_add_r, Z.mul_comm, Z.div_div by lia. done. }
  change 27 with (9 + 18) in H0. change 18 with (9 + 9) in H1. rewrite !Hd in H0, H1 by lia.
  change 18 with (9 + 9) in H0. rewrite !Hd in H0 by lia.
  change (2 ^ 9) with 512 in *. Z.to_euclidean_division_equations. lia.
Qed.

Lemma frames_apart p q i j : frame_ok p -> frame_ok q -> p <> q -> idx_ok i -> idx_ok j ->
  p + 8 * i + 8 <= q + 8 * j \/ q + 8 * j + 8 <= p + 8 * i.
Proof.
  intros Hp%frame_page Hq%frame_page Hne Hi Hj. pose proof (pages_disjoint p q Hp Hq Hne) as Hd.
  unfold idx_ok, PAGE_SIZE in *. lia.
Qed.

(** Storing an entry of the table [p]: the other words of tables and the free
    list are as before. *)
Lemma load_entry_ne m p i v q j :
  frame_ok p -> frame_ok q -> idx_ok i -> idx_ok j -> (p, i) <> (q, j) ->
  load64 (store64 m (p + 8 * i) v) (q + 8 * j) = load64 m (q + 8 * j).
Proof.
  intros Hp Hq Hi Hj Hne. apply load64_store64_ne. destruct (decide (p = q)) as [->|Hpq].
  - assert (i <> j) by congruence. lia.
  - apply frames_apart; done.
Qed.

Lemma wp_rd64 a (Q : Z -> kmem -> Prop) s : a <> 0 -> Q (load64 (km_mem s) a) s -> wp (rd64 a) Q s.
Proof. intros Ha HQ. unfold rd64. apply wp_bind, wp_assert; [by apply negb_true_iff, Z.eqb_neq|]. by apply wp_gets. Qed.
Lemma wp_wr64 a v (Q : unit -> kmem -> Prop) s :
  a <> 0 -> Q tt (set_km_mem (store64 (km_mem s) a v) s) -> wp (wr64 a v) Q s.
Proof. intros Ha HQ. unfold wr64. apply wp_bind, wp_assert; [by apply negb_true_iff, Z.eqb_neq|]. by apply wp_modify. Qed.

Lemma frame_pos p i : frame_ok p -> idx_ok i -> p + 8 * i <> 0.
Proof. intros [_ ?] ?. unfold idx_ok, KSPACE_MASK in *. lia. Qed.

(** ** Extending the tables *)
(** From [s], [T] and the free pages [l] to [s'], [T'] and [l']: at most [n]
    pages became tables, no table moved, and the memory of every page that was
    neither a table nor free is as before. *)
Record vm_ext (pgdir : Z) (n : nat) (s : kmem) (T : gmap (list Z) Z) (l : list Z)
    (s' : kmem) (T' : gmap (list Z) Z) (l' : list Z) : Prop := {
  ex_inv : vm_inv pgdir s' T' l';
  ex_free : exists used, l = used ++ l' /\ (length used <= n)%nat;
  ex_sub : forall pth f, T !! pth = Some f -> T' !! pth = Some f;
  ex_new : forall pth f, T' !! pth = Some f -> T !! pth = Some f \/ f ∈ l;
  ex_user : forall f x, frame_ok f -> (f ∉ l) -> (forall pth, T !! pth <> Some f) ->
    f <= x < f + PAGE_SIZE -> km_mem s' x = km_mem s x
}.

Lemma vm_ext_refl pgdir s T l : vm_inv pgdir s T l -> vm_ext pgdir 0 s T l s T l.
Proof. intros. split; try done; [by exists []|by left]. Qed.

Lemma vm_ext_trans pgdir n1 n2 s1 T1 l1 s2 T2 l2 s3 T3 l3 :
  vm_ext pgdir n1 s1 T1 l1 s2 T2 l2 -> vm_ext pgdir n2 s2 T2 l2 s3 T3 l3 -> vm_ext pgdir (n1 + n2) s1 T1 l1 s3 T3 l3.
Proof.
  intros [_ (u1 & E1 & L1) Sub1 New1 U1] [I (u2 & E2 & L2) Sub2 New2 U2]. split; [done| |by eauto| |].
  - exists (u1 ++ u2). rewrite E1, E2, app_assoc, length_app. split; [done|lia].
  - intros pth f H. destruct (New2 _ _ H) as [H'|H']; [by apply New1|]. right. rewrite E1. apply elem_of_app. by right.
  - intros f x Hf Hl HT Hx. rewrite (U2 f); try done; [by apply (U1 f)| |].
    + intros H. apply Hl. rewrite E1. apply elem_of_app. by right.
    + intros pth H. destruct (New1 _ _ H) as [H'|H']; [by apply (HT pth)|done].
Qed.

Lemma vm_ext_weaken pgdir n n' s T l s' T' l' : (n <= n')%nat -> vm_ext pgdir n s T l s' T' l' -> vm_ext pgdir n' s T l s' T' l'.
Proof. intros Hn [? (u & ? & ?) ? ? ?]. split; try done. exists u. split; [done|lia]. Qed.

(** Memory after a new table [q] was filled with zeros and entered at [p], [i]. *)
Definition new_table (m : Z -> Z) (p i q : Z) : Z -> Z := store64 (fill m q PAGE_SIZE 0) (p + 8 * i) (table_entry q).

Lemma new_table_other m p i q t j :
  frame_ok p -> frame_ok q -> frame_ok t -> idx_ok i -> idx_ok j -> t <> q -> (p, i) <> (t, j) ->
  load64 (new_table m p i q) (t + 8 * j) = load64 m (t + 8 * j).
Proof.
  intros Hp Hq Ht Hi Hj Htq Hne. unfold new_table. rewrite load_entry_ne by done. apply load64_fill.
  pose proof (pages_disjoint q t (frame_page q Hq) (frame_page t Ht) ltac:(done)). unfold idx_ok, PAGE_SIZE in *. lia.
Qed.

Lemma new_table_zero m p i q j :
  frame_ok p -> frame_ok q -> idx_ok i -> idx_ok j -> p <> q -> load64 (new_table m p i q) (q + 8 * j) = 0.
Proof.
  intros Hp Hq Hi Hj Hne. unfold new_table. rewrite load_entry_ne; try done; [|congruence].
  apply load64_fill_in; unfold idx_ok, PAGE_SIZE in *; lia.
Qed.

Lemma new_table_out m p i q f x :
  frame_ok p -> frame_ok q -> frame_ok f -> idx_ok i -> f <> p -> f <> q -> f <= x < f + PAGE_SIZE -> new_table m p i q x = m x.
Proof.
  intros Hp%frame_page Hq%frame_page Hf%frame_page Hi Hfp Hfq Hx.
  pose proof (pages_disjoint f p Hf Hp Hfp). pose proof (pages_disjoint f q Hf Hq Hfq).
  unfold new_table. rewrite store64_out by (unfold idx_ok, PAGE_SIZE in *; lia). unfold fill.
  destruct (Z.leb_spec q x), (Z.ltb_spec x (q + PAGE_SIZE)); simpl; try done. lia.
Qed.

Lemma new_table_entry m p i q : frame_ok q -> load64 (new_table m p i q) (p + 8 * i) = table_entry q.
Proof. intros Hq. unfold new_table. apply load64_store64_eq. by apply table_entry_ok. Qed.

Lemma pt_extend m pgdir T pth p i q :
  pt_inv m pgdir T -> T !! pth = Some p -> (length pth < 3)%nat -> idx_ok i -> T !! (pth ++ [i]) = None ->
  frame_ok q -> (forall pth', T !! pth' <> Some q) ->
  pt_inv (new_table m p i q) pgdir (<[pth ++ [i] := q]> T).
Proof.
  intros [Hr Hc Hf Hinj He] Hp Hlen Hi Hn Hq Hqn. pose proof (Hf _ _ Hp) as Hpf.
  assert (p <> q) as Hpq by (intros ->; by apply (Hqn pth)).
  split.
  - rewrite lookup_insert_ne by (by destruct pth). done.
  - intros pt' j [x Hx]. destruct (decide (pt' ++ [j] = pth ++ [i])) as [E|E].
    + apply app_inj_tail in E as [-> ->]. destruct (decide (pth ++ [i] = pth)) as [E|E];
        [by rewrite E, lookup_insert_eq|]. rewrite lookup_insert_ne by done. by eexists.
    + rewrite lookup_insert_ne in Hx by done. destruct (Hc pt' j) as [y Hy]; [by eexists|].
      destruct (decide (pth ++ [i] = pt')) as [<-|]; [by rewrite lookup_insert_eq|]. rewrite lookup_insert_ne by done. by eexists.
  - intros pt' x [[<- <-]|[? Hx]]%lookup_insert_Some; [done|by eapply Hf].
  - intros pt1 pt2 x [[<- <-]|[? H1]]%lookup_insert_Some [[<- E]|[? H2]]%lookup_insert_Some; try done.
    + exfalso. by eapply Hqn.
    + subst. exfalso. by eapply Hqn.
    + by eapply Hinj.
  - intros pt' x j [[<- <-]|[Hne Hx]]%lookup_insert_Some Hl' Hj.
    + rewrite lookup_insert_ne by (intros E; apply (f_equal length) in E; rewrite !length_app in E; simpl in E; lia).
      assert (T !! ((pth ++ [i]) ++ [j]) = None) as ->.
      { destruct (T !! ((pth ++ [i]) ++ [j])) eqn:E; [|done]. destruct (Hc (pth ++ [i]) j) as [? H]; [by eexists|]. congruence. }
      by rewrite new_table_zero.
    + assert (x <> q) as Hxq by (intros ->; by apply (Hqn pt')).
      destruct (decide ((pth, i) = (pt', j))) as [E|E].
      * injection E as <- <-. rewrite lookup_insert_eq. assert (x = p) as -> by congruence. by apply new_table_entry.
      * rewrite lookup_insert_ne by (intros E'; apply app_inj_tail in E' as [-> ->]; done).
        rewrite new_table_other; try done; [by apply He|by eapply Hf|].
        intros E'. injection E' as <- <-. apply E. f_equal. by eapply Hinj.
Qed.

(** No mapping changes: the new table is empty and a leaf table has no word at
    the changed entry. *)
Lemma pt_get_extend m pgdir T pth p i q v :
  pt_inv m pgdir T -> T !! pth = Some p -> (length pth < 3)%nat -> idx_ok i -> T !! (pth ++ [i]) = None ->
  frame_ok q -> (forall pth', T !! pth' <> Some q) ->
  pt_get (new_table m p i q) (<[pth ++ [i] := q]> T) v = pt_get m T v.
Proof.
  intros Hpt Hp Hlen Hi Hn Hq Hqn. pose proof (pt_frames _ _ _ Hpt _ _ Hp) as Hpf.
  assert (p <> q) as Hpq by (intros ->; by apply (Hqn pth)).
  unfold pt_get. destruct (decide (pth ++ [i] = vpath v)) as [E|E].
  - rewrite <- E, lookup_insert_eq, Hn. apply new_table_zero; auto.
  - rewrite lookup_insert_ne by done. destruct (T !! vpath v) as [t|] eqn:Ht; [|done].
    apply new_table_other; auto; [by eapply pt_frames| |].
    + intros ->. by apply (Hqn (vpath v)).
    + intros E'. injection E' as -> _. pose proof (pt_inj _ _ _ Hpt _ _ _ Hp Ht) as ->. simpl in Hlen. lia.
Qed.

(** ** The walk *)
Lemma alloc_table s l pgdir T pth p i q :
  vm_inv pgdir s T (q :: l) -> T !! pth = Some p -> (length pth < 3)%nat -> idx_ok i -> T !! (pth ++ [i]) = None ->
  forall s', km_mem s' = km_mem s -> km_inv s' l ->
  vm_ext pgdir 1 s T (q :: l) (set_km_mem (new_table (km_mem s) p i q) s') (<[pth ++ [i] := q]> T) l.
Proof.
  intros [Hkm Hpt Hfr Hsep] Hp Hlen Hi Hn s' Hms Hk.
  apply Forall_cons in Hfr as [Hq Hfr]. pose proof (pt_frames _ _ _ Hpt _ _ Hp) as Hpf.
  assert (forall pth', T !! pth' <> Some q) as Hqn by (intros pt' H; apply (Hsep _ _ H); by left).
  assert (p <> q) as Hpq by (intros ->; by apply (Hqn pth)).
  pose proof (ki_nodup _ _ Hkm) as [Hql Hnd]%NoDup_cons.
  assert (forall x, x ∈ l -> frame_ok x /\ x <> q /\ x <> p) as Hl.
  { intros x Hx. rewrite Forall_forall in Hfr. split; [by apply Hfr|]. split; [by intros ->|]. intros ->. apply (Hsep _ _ Hp). by right. }
  split.
  - split; [| |done|].
    + apply km_inv_mem; [done| |].
      * intros x Hx. rewrite Hms. destruct (Hl x Hx) as (Hxf & Hxq & Hxp). replace x with (x + 8 * 0) by lia.
        apply new_table_other; try done. intros E. congruence.
      * unfold new_table. apply mem_ok_store64, mem_ok_fill. rewrite <- Hms. apply (ki_mem _ _ Hk).
    + simpl. by apply pt_extend.
    + intros pt' x [[<- <-]|[? H]]%lookup_insert_Some Hx; [done|]. apply (Hsep _ _ H). by right.
  - by exists [q].
  - intros pt' x Hx. rewrite lookup_insert_ne; [done|]. intros <-. congruence.
  - intros pt' x [[<- <-]|[? H]]%lookup_insert_Some; [right; by left|by left].
  - intros f x Hf Hfl HT Hx. simpl. apply (new_table_out _ _ _ _ f); try done; intros ->; [by apply (HT pth)|].
    apply Hfl. by left.
Qed.

Definition same_map (s : kmem) (T : gmap (list Z) Z) (s' : kmem) (T' : gmap (list Z) Z) : Prop :=
  forall v, pt_get (km_mem s') T' v = pt_get (km_mem s) T v.

Lemma walk_level_ok pgdir s T l pth p i :
  vm_inv pgdir s T l -> T !! pth = Some p -> (length pth < 3)%nat -> idx_ok i -> l <> [] ->
  wp (walk_level true p i) (fun q s' => exists T' l',
    vm_ext pgdir 1 s T l s' T' l' /\ T' !! (pth ++ [i]) = Some q /\ same_map s T s' T') s.
Proof.
  intros Hv Hp Hlen Hi Hl. pose proof (vi_pt _ _ _ _ Hv) as Hpt. pose proof (pt_frames _ _ _ Hpt _ _ Hp) as Hpf.
  pose proof (pt_entries _ _ _ Hpt _ _ _ Hp Hlen Hi) as He. pose proof (frame_pos _ _ Hpf Hi) as Hpos.
  unfold walk_level. apply wp_bind, wp_rd64; [done|]. destruct (T !! (pth ++ [i])) as [q|] eqn:Eq.
  - destruct (table_entry_ok q) as (Hval & Haddr & _); [by eapply pt_frames|]. rewrite He, Hval.
    apply wp_bind, wp_ret, wp_bind, wp_rd64; [done|]. rewrite He, Haddr. apply wp_ret. exists T, l.
    split_and!; [|done|done]. eapply vm_ext_weaken; [|by apply vm_ext_refl]. lia.
  - rewrite He. simpl negb. destruct l as [|q l]; [done|]. apply wp_bind. unfold whenM at 1. unfold whenM at 1. apply wp_bind.
    eapply wp_mono; [apply kalloc_ok, (vi_km _ _ _ _ Hv)|]. intros ? s' (Hms & -> & Hk).
    pose proof (vi_free _ _ _ _ Hv) as [Hq _]%Forall_cons.
    assert ((q =? 0) = false) as Eq0 by (apply Z.eqb_neq; destruct Hq; unfold KSPACE_MASK in *; lia). rewrite Eq0. simpl.
    apply wp_bind. unfold memset_page. rewrite Eq0. apply wp_bind, wp_assert; [done|]. apply wp_modify, wp_wr64; [done|].
    apply wp_bind, wp_rd64; [done|]. simpl km_mem. rewrite Hms.
    change (store64 (fill (km_mem s) q PAGE_SIZE 0) (p + 8 * i) (Z.lor (K2P q) PTE_TABLE)) with (new_table (km_mem s) p i q).
    rewrite new_table_entry by done. destruct (table_entry_ok q) as (_ & -> & _); [done|]. apply wp_ret.
    exists (<[pth ++ [i] := q]> T), l. split_and!.
    + by apply (alloc_table s l pgdir T pth p i q Hv Hp Hlen Hi Eq s').
    + apply lookup_insert_eq.
    + intros v. simpl. eapply pt_get_extend; try done. intros pt' H. apply (vi_sep _ _ _ _ Hv _ _ H). by left.
Qed.

Lemma ext_free_len pgdir n s T l s' T' l' : vm_ext pgdir n s T l s' T' l' -> (length l <= n + length l')%nat.
Proof. intros H. destruct (ex_free _ _ _ _ _ _ _ _ H) as (u & -> & ?). rewrite length_app. lia. Qed.
Lemma nonempty_length {A} (l : list A) : (0 < length l)%nat -> l <> [].
Proof. by destruct l; simpl; [lia|]. Qed.

(** With three free pages a walk ends at the entry of its page. *)
Lemma walk_ok pgdir s T l va :
  vm_inv pgdir s T l -> (3 <= length l)%nat ->
  wp (my_pgdir_walk pgdir va true) (fun a s' => exists T' l' t,
    vm_ext pgdir 3 s T l s' T' l' /\ same_map s T s' T' /\
    T' !! vpath (Z.shiftr va 12) = Some t /\ a = t + 8 * Z.land (Z.shiftr va 12) 511) s.
Proof.
  intros Hv Hl. unfold my_pgdir_walk. set (tag := Z.shiftr va 12).
  apply wp_bind. eapply wp_mono; [apply (walk_level_ok pgdir s T l [] pgdir); auto|].
  { apply pt_root with (m := km_mem s), (vi_pt _ _ _ _ Hv). } { apply nonempty_length. lia. }
  intros t1 s1 (T1 & l1 & X1 & H1 & M1). pose proof (ext_free_len _ _ _ _ _ _ _ _ X1) as L1.
  apply wp_bind. eapply wp_mono; [apply (walk_level_ok pgdir s1 T1 l1 [page_index tag 0] t1); auto|].
  { apply (ex_inv _ _ _ _ _ _ _ _ X1). } { apply nonempty_length; lia. }
  intros t2 s2 (T2 & l2 & X2 & H2 & M2). pose proof (ext_free_len _ _ _ _ _ _ _ _ X2) as L2.
  apply wp_bind. eapply wp_mono; [apply (walk_level_ok pgdir s2 T2 l2 [page_index tag 0; page_index tag 1] t2); auto|].
  { apply (ex_inv _ _ _ _ _ _ _ _ X2). } { apply nonempty_length; lia. }
  intros t3 s3 (T3 & l3 & X3 & H3 & M3). apply wp_ret. exists T3, l3, t3. split_and!; try done.
  - exact (vm_ext_trans _ 2 1 _ _ _ _ _ _ _ _ _ (vm_ext_trans _ 1 1 _ _ _ _ _ _ _ _ _ X1 X2) X3).
  - intros v. by rewrite M3, M2.
Qed.

(** Writing a last-level entry. *)
Lemma set_pte_ok pgdir s T l t vpn v :
  vm_inv pgdir s T l -> T !! vpath vpn = Some t -> 0 <= vpn < 2 ^ 36 -> 0 <= v < 2 ^ 64 ->
  let s' := set_km_mem (store64 (km_mem s) (t + 8 * Z.land vpn 511) v) s in
  vm_ext pgdir 0 s T l s' T l /\
  forall w, 0 <= w < 2 ^ 36 -> pt_get (km_mem s') T w = if decide (w = vpn) then v else pt_get (km_mem s) T w.
Proof.
  intros [Hkm Hpt Hfr Hsep] Ht Hvpn Hv s'. pose proof (pt_frames _ _ _ Hpt _ _ Ht) as Htf.
  set (j := Z.land vpn 511). assert (idx_ok j) as Hj by apply last_index_ok.
  split; [split|].
  - split; [| |done|done].
    + apply km_inv_mem; [done| |].
      * intros x Hx. replace x with (x + 8 * 0) by lia. rewrite Forall_forall in Hfr. apply load_entry_ne; auto; [done|].
        intros E. injection E as -> _. by apply (Hsep _ _ Ht).
      * by apply mem_ok_store64, ki_mem with (l := l).
    + destruct Hpt as [Hr Hc Hf Hinj He]. split; try done. intros pth p i Hp Hlen Hi. specialize (He pth p i Hp Hlen Hi).
      simpl. rewrite load_entry_ne; auto; [by eapply Hf|]. intros E. injection E as <- <-.
      pose proof (Hinj _ _ _ Hp Ht) as ->. simpl in Hlen. lia.
  - by exists [].
  - done.
  - by left.
  - intros f x Hf Hfl HT Hx. simpl. apply store64_out.
    assert (f <> t) as Hne by (intros ->; by apply (HT (vpath vpn))).
    pose proof (pages_disjoint f t (frame_page f Hf) (frame_page t Htf) Hne). unfold idx_ok, PAGE_SIZE in *. lia.
  - intros w Hw. simpl. unfold pt_get. case_decide as E.
    + subst w. rewrite Ht. by apply load64_store64_eq.
    + destruct (T !! vpath w) as [t'|] eqn:Ht'; [|done]. apply load_entry_ne; auto; [by eapply pt_frames|].
      intros E'. injection E' as -> Hl. apply E. apply vpath_inj; auto. by eapply pt_inj.
Qed.

(** ** Mapping a range *)
Lemma eachM_fmap {St A B} (f : A -> B) (l : list A) (body : B -> M St unit) s :
  eachM (f <$> l) body s = eachM l (fun x => body (f x)) s.
Proof. revert s. induction l as [|x l IH]; intros s; [done|]. simpl. unfold mbind, M_bind. destruct (body (f x) s) as [[[] s']| | |]; auto. Qed.

Definition npages (va sz : Z) : Z := (va + sz - (va - va mod PAGE_SIZE) + PAGE_SIZE - 1) / PAGE_SIZE.
Definition in_range (va sz w : Z) : Prop := va - va mod PAGE_SIZE <= PAGE_SIZE * w < va + sz.
#[global] Instance in_range_dec va sz w : Decision (in_range va sz w).
Proof. unfold in_range. apply _. Defined.

(** The entry [my_uvm_map] gives to the page number [w]. *)
Definition mapped_pte (va pa w : Z) : Z :=
  Z.lor (pa - pa mod PAGE_SIZE + PAGE_SIZE * (w - va / PAGE_SIZE)) PTE_USER_DATA.

Lemma lor_u64_range a b : 0 <= a < 2 ^ 64 -> 0 <= b < 2 ^ 64 -> 0 <= Z.lor a b < 2 ^ 64.
Proof.
  intros Ha Hb. assert (0 <= Z.lor a b) by (apply Z.lor_nonneg; lia). split; [done|]. destruct (decide (Z.lor a b = 0)) as [->|Hn]; [lia|].
  apply Z.log2_lt_pow2; [lia|]. rewrite Z.log2_lor by lia.
  assert (forall x, 0 <= x < 2 ^ 64 -> Z.log2 x < 64) as Hl.
  { intros x Hx. destruct (decide (x = 0)) as [->|]; [simpl; lia|]. apply Z.log2_lt_pow2; lia. }
  apply Z.max_lub_lt; by apply Hl.
Qed.

(** One iteration of [my_uvm_map], for the page number [b + i]. *)
Definition map_body (pgdir ptr pa p : Z) : M kmem unit :=
  pte ← my_pgdir_walk pgdir p true;
  assert_ (negb (pte =? 0));;
  wr64 pte (Z.lor (u64 (pa + (p - ptr))) PTE_USER_DATA).

Lemma map_body_ok pgdir s T l b i pa :
  vm_inv pgdir s T l -> (3 <= length l)%nat -> 0 <= b -> 0 <= i -> b + i < 2 ^ 36 ->
  0 <= pa -> pa + PAGE_SIZE * i < 2 ^ 64 ->
  wp (map_body pgdir (PAGE_SIZE * b) pa (PAGE_SIZE * b + PAGE_SIZE * i)) (fun _ s' => exists T' l',
    vm_ext pgdir 3 s T l s' T' l' /\
    forall w, 0 <= w < 2 ^ 36 -> pt_get (km_mem s') T' w =
      if decide (w = b + i) then Z.lor (pa + PAGE_SIZE * i) PTE_USER_DATA else pt_get (km_mem s) T w) s.
Proof.
  intros Hv Hl Hb Hi Hbi Hpa Hpai. unfold map_body. apply wp_bind.
  eapply wp_mono; [by apply walk_ok|]. intros a s1 (T1 & l1 & t & X1 & M1 & Ht & ->).
  assert (Z.shiftr (PAGE_SIZE * b + PAGE_SIZE * i) 12 = b + i) as E.
  { rewrite Z.shiftr_div_pow2 by lia. change (2 ^ 12) with PAGE_SIZE. rewrite <- Z.mul_add_distr_l, Z.mul_comm. by apply Z.div_mul. }
  rewrite E in *. pose proof (ex_inv _ _ _ _ _ _ _ _ X1) as Hv1.
  pose proof (pt_frames _ _ _ (vi_pt _ _ _ _ Hv1) _ _ Ht) as Htf.
  pose proof (frame_pos t (Z.land (b + i) 511) Htf (last_index_ok _)) as Hpos.
  apply wp_bind, wp_assert; [by apply negb_true_iff, Z.eqb_neq|]. apply wp_wr64; [done|].
  replace (PAGE_SIZE * b + PAGE_SIZE * i - PAGE_SIZE * b) with (PAGE_SIZE * i) by lia.
  rewrite u64_id by (unfold PAGE_SIZE in *; lia).
  destruct (set_pte_ok pgdir s1 T1 l1 t (b + i) (Z.lor (pa + PAGE_SIZE * i) PTE_USER_DATA)) as [X2 G]; try done; [lia| |].
  { apply lor_u64_range; [unfold PAGE_SIZE in *; lia|done]. }
  exists T1, l1. split.
  - exact (vm_ext_trans _ 3 0 _ _ _ _ _ _ _ _ _ X1 X2).
  - intros w Hw. rewrite (G w Hw). case_decide; [done|]. apply M1.
Qed.

Lemma uvm_map_ok pgdir s T l va sz pa :
  vm_inv pgdir s T l -> 0 <= va -> 0 <= sz -> va + sz <= USPACE_TOP -> 0 <= pa < 2 ^ 48 ->
  3 * npages va sz <= Z.of_nat (length l) ->
  wp (my_uvm_map pgdir va sz pa) (fun r s' => r = 0 /\ exists T' l', vm_ext pgdir (3 * Z.to_nat (npages va sz)) s T l s' T' l' /\
    forall w, 0 <= w < 2 ^ 36 -> pt_get (km_mem s') T' w =
      if decide (in_range va sz w) then mapped_pte va pa w else pt_get (km_mem s) T w) s.
Proof.
  intros Hv Hva Hsz Htop Hpa Hl. unfold USPACE_TOP in Htop.
  set (n := npages va sz) in *. set (b := va / PAGE_SIZE). set (pa' := pa - pa mod PAGE_SIZE).
  assert (va - va mod PAGE_SIZE = PAGE_SIZE * b /\ 0 <= b /\ 0 <= n /\ b + n <= 2 ^ 36 /\
    (forall w, in_range va sz w <-> b <= w < b + n) /\ 0 <= pa' < 2 ^ 48) as (Eb & Hb & Hn & Hbn & Hin & Hpa').
  { unfold n, npages, in_range, b, pa', PAGE_SIZE. split_and!; Z.to_euclidean_division_equations; lia. }
  unfold my_uvm_map, round_down. rewrite Eb. rewrite (u64_id (PAGE_SIZE * b)) by (unfold PAGE_SIZE in *; lia).
  rewrite (u64_id (va + sz)) by lia. fold pa'. rewrite (u64_id pa') by lia.
  apply wp_bind. unfold page_steps. eapply wp_change; [apply eachM_fmap|]. simpl.
  assert ((va + sz - PAGE_SIZE * b + PAGE_SIZE - 1) / PAGE_SIZE = n) as -> by (unfold n, npages; by rewrite Eb).
  apply (wp_eachM_seqZ n _ (fun i s' => exists T' l', vm_ext pgdir (3 * Z.to_nat i) s T l s' T' l' /\
    forall w, 0 <= w < 2 ^ 36 -> pt_get (km_mem s') T' w =
      if decide (b <= w < b + i) then mapped_pte va pa w else pt_get (km_mem s) T w)); [done| | |].
  - exists T, l. split; [by apply vm_ext_refl|]. intros w Hw. by rewrite decide_False by lia.
  - intros i s1 Hi (T1 & l1 & X1 & G1). pose proof (ext_free_len _ _ _ _ _ _ _ _ X1).
    change (wp (map_body pgdir (PAGE_SIZE * b) pa' (PAGE_SIZE * b + PAGE_SIZE * i)) (fun _ s' => exists T' l',
      vm_ext pgdir (3 * Z.to_nat (i + 1)) s T l s' T' l' /\ forall w, 0 <= w < 2 ^ 36 -> pt_get (km_mem s') T' w =
      if decide (b <= w < b + (i + 1)) then mapped_pte va pa w else pt_get (km_mem s) T w) s1).
    eapply wp_mono; [apply (map_body_ok pgdir s1 T1 l1); [apply (ex_inv _ _ _ _ _ _ _ _ X1)|unfold PAGE_SIZE in *; lia..]|].
    intros [] s2 (T2 & l2 & X2 & G2). exists T2, l2. split.
    + replace (3 * Z.to_nat (i + 1))%nat with (3 * Z.to_nat i + 3)%nat by lia. by eapply vm_ext_trans.
    + intros w Hw. rewrite (G2 w Hw). destruct (decide (w = b + i)) as [->|].
      * rewrite decide_True by lia. unfold mapped_pte. fold b pa'. do 3 f_equal. lia.
      * rewrite (G1 w Hw). destruct (decide (b <= w < b + i)); [by rewrite decide_True by lia|by rewrite decide_False by lia].
  - intros s' (T' & l' & X & G). apply wp_ret. split; [done|]. exists T', l'. split; [done|].
    intros w Hw. rewrite (G w Hw). destruct (decide (b <= w < b + n)) as [H|H].
    + rewrite decide_True; [done|]. by apply Hin.
    + rewrite decide_False; [done|]. by rewrite Hin.
Qed.

(** C18: with enough free pages for the tables, [my_uvm_map] returns 0 and maps
    exactly the pages of the range to consecutive physical pages; every other
    mapping, and the memory of every page that was neither free nor a table,
    is unchanged, and the tables stay well formed. *)
Theorem my_uvm_map_correct pgdir s T l va sz pa :
  vm_inv pgdir s T l -> 0 <= va -> 0 <= sz -> va + sz <= USPACE_TOP -> 0 <= pa < 2 ^ 48 ->
  3 * npages va sz <= Z.of_nat (length l) ->
  exists s' T' l', my_uvm_map pgdir va sz pa s = Ok (0, s') /\
    vm_ext pgdir (3 * Z.to_nat (npages va sz)) s T l s' T' l' /\
    forall w, 0 <= w < 2 ^ 36 -> pt_get (km_mem s') T' w =
      if decide (in_range va sz w) then mapped_pte va pa w else pt_get (km_mem s) T w.
Proof.
  intros Hv Hva Hsz Htop Hpa Hl.
  destruct (proj1 (wp_ok _ _ _) (uvm_map_ok pgdir s T l va sz pa Hv Hva Hsz Htop Hpa Hl)) as (r & s' & Heq & -> & T' & l' & X & G).
  by exists s', T', l'.
Qed.

(** An empty table and three free pages. *)
Definition demo_page (k : Z) : Z := KSPACE_MASK + 4096 * k.
Definition demo_kmem : kmem :=
  mkKmem (store64 (store64 (fun _ => 0) (demo_page 2) (demo_page 3)) (demo_page 3) (demo_page 4)) (demo_page 2) false.
Definition demo_tables : gmap (list Z) Z := {[ [] := demo_page 1 ]}.

Lemma demo_inv : vm_inv (demo_page 1) demo_kmem demo_tables [demo_page 2; demo_page 3; demo_page 4].
Proof.
  split.
  - split; [by vm_compute| | |done|].
    + apply (bool_decide_unpack _). vm_compute. exact I.
    + repeat constructor; vm_compute; congruence.
    + apply mem_ok_store64, mem_ok_store64. intros x. unfold byte_ok. lia.
  - split.
    + done.
    + intros pth i [x Hx]. unfold demo_tables in Hx. apply lookup_singleton_Some in Hx as [Hx _]. by destruct pth.
    + intros pth p Hp. unfold demo_tables in Hp. apply lookup_singleton_Some in Hp as [_ <-]. by vm_compute.
    + intros pth pth' p Hp Hp'. unfold demo_tables in *. apply lookup_singleton_Some in Hp as [<- _]. by apply lookup_singleton_Some in Hp' as [<- _].
    + intros pth p i Hp _ Hi. unfold demo_tables in *. apply lookup_singleton_Some in Hp as [<- <-].
      rewrite lookup_singleton_ne by done. unfold demo_kmem. simpl km_mem. unfold idx_ok, demo_page in *.
      by rewrite !load64_store64_ne by lia.
  - repeat constructor; vm_compute; congruence.
  - intros pth p Hp. unfold demo_tables in Hp. apply lookup_singleton_Some in Hp as [_ <-].
    apply (bool_decide_unpack _). vm_compute. exact I.
Qed.

Lemma my_uvm_map_correct_witness :
  exists s' T' l', my_uvm_map (demo_page 1) 20480 10 32768 demo_kmem = Ok (0, s') /\
    vm_ext (demo_page 1) (3 * Z.to_nat (npages 20480 10)) demo_kmem demo_tables [demo_page 2; demo_page 3; demo_page 4] s' T' l' /\
    forall w, 0 <= w < 2 ^ 36 -> pt_get (km_mem s') T' w =
      if decide (in_range 20480 10 w) then mapped_pte 20480 32768 w else pt_get (km_mem demo_kmem) demo_tables w.
Proof. apply my_uvm_map_correct; [apply demo_inv|done|done|done|done|done]. Defined.

End VmFacts.
