(* ===== verification/VmTree.v ===== *)
(** * Whole address spaces (src/core/virtual_memory.c)

    The tables and pages of an address space as a tree, and that [uvm_copy]
    makes a second tree with the same content in fresh pages, and [vm_free]
    gives every page of a tree back. *)
From S2P Require Import Prelude PhysMem VirtMem VmFacts.

Module VmTree.
Import PhysMem VirtMem VmFacts.

(** ** Trees

    A tree of height 0 is a page of the process; a higher one is a table: its
    page, and by index the flags of an entry and the tree below it. The root
    table of a process has height 4. *)
Fixpoint tree (k : nat) : Type := match k with O => Z | S k' => Z * (Z -> option (Z * tree k')) end.
Definition troot {k} : tree k -> Z := match k with O => fun p => p | S _ => fst end.

Definition child_pages {B} (f : B -> list Z) (es : Z -> option (Z * B)) (js : list Z) : list Z :=
  js ≫= fun i => match es i with Some e => f e.2 | None => [] end.
Fixpoint tpages {k} : tree k -> list Z :=
  match k with O => fun p => [p] | S k' => fun t => t.1 :: child_pages tpages t.2 (seqZ 0 512) end.

(** [m] holds the tree. *)
Definition flags_ok (f : Z) : Prop := 0 <= f < 4096 /\ pte_valid f = true.
Fixpoint trep {k} (m : Z -> Z) : tree k -> Prop :=
  match k with
  | O => fun p => frame_ok p
  | S k' => fun t => frame_ok t.1 /\ forall i, idx_ok i ->
      match t.2 i with
      | Some e => flags_ok e.1 /\ load64 m (t.1 + 8 * i) = K2P (troot e.2) + e.1 /\ trep m e.2
      | None => pte_valid (load64 m (t.1 + 8 * i)) = false
      end
  end.

(** The trees have entries at the same indices, with the same flags, and pages
    with the same bytes. *)
Fixpoint same_content {k} (m m' : Z -> Z) : tree k -> tree k -> Prop :=
  match k with
  | O => fun p p' => bytes_at m' p' PAGE_SIZE = bytes_at m p PAGE_SIZE
  | S k' => fun t t' => forall i, idx_ok i ->
      match t.2 i, t'.2 i with
      | Some e, Some e' => e'.1 = e.1 /\ same_content m m' e.2 e'.2
      | None, None => True
      | _, _ => False
      end
  end.

(** Memory changed only in the pages [ps]. *)
Definition only_in (ps : list Z) (m m' : Z -> Z) : Prop :=
  forall x, (forall q, q ∈ ps -> ~ (q <= x < q + PAGE_SIZE)) -> m' x = m x.

Lemma only_in_refl ps m : only_in ps m m.
Proof. done. Qed.
Lemma only_in_trans ps m1 m2 m3 : only_in ps m1 m2 -> only_in ps m2 m3 -> only_in ps m1 m3.
Proof. intros H1 H2 x Hx. by rewrite H2, H1. Qed.
Lemma only_in_more ps ps' m m' : (forall q, q ∈ ps -> q ∈ ps') -> only_in ps m m' -> only_in ps' m m'.
Proof. intros Hs H x Hx. apply H. intros q Hq. by apply Hx, Hs. Qed.

(** A page that is not among them is as it was. *)
Lemma only_in_page ps m m' q x : only_in ps m m' -> Forall page_ok ps -> page_ok q -> q ∉ ps -> q <= x < q + PAGE_SIZE -> m' x = m x.
Proof.
  intros H Hps Hq Hn Hx. apply H. intros r Hr Hrx. rewrite Forall_forall in Hps.
  destruct (pages_disjoint q r Hq (Hps r Hr)); [by intros ->|lia..].
Qed.
Lemma only_in_word ps m m' q i : only_in ps m m' -> Forall page_ok ps -> page_ok q -> q ∉ ps -> idx_ok i ->
  load64 m' (q + 8 * i) = load64 m (q + 8 * i).
Proof.
  intros H Hps Hq Hn Hi. apply load64_ext. intros x Hx. apply (only_in_page ps m m' q); try done. unfold idx_ok, PAGE_SIZE in *. lia.
Qed.

Lemma km_inv_only s l ps m' :
  km_inv s l -> only_in ps (km_mem s) m' -> Forall page_ok ps -> (forall q, q ∈ l -> q ∉ ps) -> mem_ok m' -> km_inv (set_km_mem m' s) l.
Proof.
  intros Hk Ho Hps Hd Hm. apply km_inv_mem; [done| |done]. intros q Hq. pose proof (ki_pages _ _ Hk) as Hp. rewrite Forall_forall in Hp.
  replace q with (q + 8 * 0) by lia. apply (only_in_word ps); try done; [by apply Hp|by apply Hd].
Qed.

(** ** Lemmas on trees *)
Lemma troot_in {k} (t : tree k) : troot t ∈ tpages t.
Proof. destruct k; by left. Qed.
Lemma trep_root {k} m (t : tree k) : trep m t -> frame_ok (troot t).
Proof. destruct k; [done|]. by intros []. Qed.

Lemma child_pages_in {B} (f : B -> list Z) es js i e q : i ∈ js -> es i = Some e -> q ∈ f e.2 -> q ∈ child_pages f es js.
Proof. intros Hi He Hq. apply list_elem_of_bind. exists i. by rewrite He. Qed.
Lemma child_pages_elem {B} (f : B -> list Z) es js q : q ∈ child_pages f es js -> exists i e, i ∈ js /\ es i = Some e /\ q ∈ f e.2.
Proof.
  intros (i & Hq & Hi)%list_elem_of_bind. destruct (es i) as [e|] eqn:E; [|by apply not_elem_of_nil in Hq]. by exists i, e.
Qed.
Lemma child_pages_app {B} (f : B -> list Z) es l1 l2 : child_pages f es (l1 ++ l2) = child_pages f es l1 ++ child_pages f es l2.
Proof. apply bind_app. Qed.
Lemma child_pages_snoc {B} (f : B -> list Z) es i : 0 <= i ->
  child_pages f es (seqZ 0 (i + 1)) = child_pages f es (seqZ 0 i) ++ match es i with Some e => f e.2 | None => [] end.
Proof.
  intros Hi. rewrite seqZ_app by lia. rewrite child_pages_app. f_equal. unfold child_pages.
  rewrite Z.add_0_l, seqZ_cons, seqZ_nil by lia. simpl. by rewrite app_nil_r.
Qed.
Lemma child_pages_ext {B} (f : B -> list Z) es es' js : (forall i, i ∈ js -> es' i = es i) -> child_pages f es' js = child_pages f es js.
Proof.
  intros H. unfold child_pages. induction js as [|i js IH]; [done|]. rewrite !bind_cons, H by (by left). f_equal. apply IH. intros j Hj. apply H. by right.
Qed.
Lemma child_pages_split {B} (f : B -> list Z) es i : 0 <= i < 512 ->
  child_pages f es (seqZ 0 512) = child_pages f es (seqZ 0 i) ++ match es i with Some e => f e.2 | None => [] end ++
    child_pages f es (seqZ (i + 1) (511 - i)).
Proof.
  intros Hi. replace 512 with ((i + 1) + (511 - i)) by lia. rewrite seqZ_app, child_pages_app by lia. rewrite child_pages_snoc by lia.
  by rewrite <- app_assoc, Z.add_0_l.
Qed.

Lemma trep_pages {k} m (t : tree k) : trep m t -> Forall frame_ok (tpages t).
Proof.
  induction k as [|k IH]; [intros H; by apply Forall_singleton|]. intros [Hp He]. apply Forall_cons. split; [done|].
  apply Forall_forall. intros q (i & e & Hi & Ee & Hq)%child_pages_elem. apply elem_of_seqZ in Hi.
  specialize (He i ltac:(unfold idx_ok; lia)). rewrite Ee in He. destruct He as (_ & _ & Hc). apply IH in Hc. rewrite Forall_forall in Hc. by apply Hc.
Qed.
Lemma frames_pages l : Forall frame_ok l -> Forall page_ok l.
Proof. intros H. eapply Forall_impl; [exact H|]. apply frame_page. Qed.

Lemma trep_only {k} ps m m' (t : tree k) : only_in ps m m' -> Forall page_ok ps -> (forall q, q ∈ tpages t -> q ∉ ps) -> trep m t -> trep m' t.
Proof.
  intros Ho Hps. induction k as [|k IH]; [done|]. intros Hd [Hp He]. split; [done|]. intros i Hi. specialize (He i Hi).
  rewrite (only_in_word ps m m' t.1) by first [done|by apply frame_page|apply Hd; by left].
  destruct (t.2 i) as [e|] eqn:E; [|done]. destruct He as (Hf & Hl & Hc). split; [done|]. split; [done|]. apply IH; [|done].
  intros q Hq. apply Hd. right. apply (child_pages_in _ _ _ i e); [apply elem_of_seqZ; unfold idx_ok in Hi; lia|done|done].
Qed.

Lemma child_NoDup {k} (t : tree (S k)) i e :
  NoDup (tpages t) -> 0 <= i < 512 -> t.2 i = Some e ->
  NoDup (tpages e.2) /\ (forall q, q ∈ tpages e.2 -> q <> t.1 /\ q ∉ child_pages tpages t.2 (seqZ 0 i)).
Proof.
  intros [Hr Hn]%NoDup_cons Hi E. rewrite (child_pages_split _ _ i), E in Hn, Hr by done. apply NoDup_app in Hn as (_ & Hd & (Hn & _)%NoDup_app).
  split; [done|]. intros q Hq. split.
  - intros ->. apply Hr. rewrite !elem_of_app. by right; left.
  - intros Hq'. apply (Hd q Hq'). apply elem_of_app. by left.
Qed.

(** Reading an entry of a tree: where it leads. *)
Lemma entry_valid f p : flags_ok f -> frame_ok p ->
  pte_valid (K2P p + f) = true /\ P2K (PTE_ADDRESS (K2P p + f)) = p /\ PTE_FLAGS (K2P p + f) = f /\ Z.lor (K2P p) f = K2P p + f.
Proof.
  intros [Hf Hv] Hp. destruct (frame_K2P p Hp) as (E & Hm & Hr). change (2 ^ 31) with 2147483648 in Hr.
  destruct (entry_bits (K2P p) f) as (H1 & H2 & H3); [done|change (2 ^ 32) with 4294967296; lia|done|].
  split_and!; [|rewrite H2|done|done].
  - unfold pte_valid, PTE_VALID in *. change 1 with (Z.ones 1) in *. rewrite Z.land_ones in * by lia. change (2 ^ 1) with 2 in *.
    apply negb_true_iff, Z.eqb_neq. apply negb_true_iff, Z.eqb_neq in Hv. unfold PAGE_SIZE in Hm. Z.to_euclidean_division_equations. lia.
  - rewrite E. destruct Hp. unfold P2K. rewrite u64_id; [lia|]. unfold KSPACE_MASK in *. lia.
Qed.

(** ** [vm_free] *)
Definition free_node (k : nat) (p : Z) : M kmem unit := match k with O => kfree p | S k' => recur_vm_free k' p end.

Lemma recur_vm_free_eq k p : recur_vm_free k p =
  (eachM (seqZ 0 512) (fun i =>
     e ← rd64 (p + 8 * i);
     whenM (pte_valid e) (free_node k (P2K (PTE_ADDRESS e))));;
   kfree p).
Proof. by destruct k. Qed.

Definition table {k} (p : Z) (es : Z -> option (Z * tree k)) : tree (S k) := (p, es).
Lemma trep_table {k} m p (es : Z -> option (Z * tree k)) :
  trep m (table p es) <-> frame_ok p /\ forall i, idx_ok i ->
    match es i with
    | Some e => flags_ok e.1 /\ load64 m (p + 8 * i) = K2P (troot e.2) + e.1 /\ trep m e.2
    | None => pte_valid (load64 m (p + 8 * i)) = false
    end.
Proof. done. Qed.
Lemma tpages_table {k} p (es : Z -> option (Z * tree k)) : tpages (table p es) = p :: child_pages tpages es (seqZ 0 512).
Proof. done. Qed.
Lemma tree_table {k} (t : tree (S k)) : exists p es, t = table p es.
Proof. destruct t as [p es]. by exists p, es. Qed.

(** The pages [ps] are free now, and memory changed only there. *)
Definition pages_freed (s : kmem) (ps l : list Z) (s' : kmem) : Prop :=
  exists l', l' ≡ₚ ps ++ l /\ km_inv s' l' /\ only_in ps (km_mem s) (km_mem s').

Lemma kfree_page s l p : km_inv s l -> page_ok p -> p ∉ l -> wp (kfree p) (fun _ s' => pages_freed s [p] l s') s.
Proof.
  intros Hk Hp Hn. eapply wp_mono; [by apply (kfree_ok s l p)|]. intros _ s' [Hk' Hm]. exists (p :: l). split; [done|]. split; [done|].
  intros x Hx. apply Hm. intros H. apply (Hx p); [by left|]. unfold PAGE_SIZE. lia.
Qed.

Lemma pages_freed_trans s1 s2 s3 ps qs l l2 : l2 ≡ₚ ps ++ l -> only_in ps (km_mem s1) (km_mem s2) -> pages_freed s2 qs l2 s3 ->
  pages_freed s1 (ps ++ qs) l s3.
Proof.
  intros Hp2 Ho2 (l3 & Hp3 & Hk3 & Ho3). exists l3. split; [|split; [done|]].
  - by rewrite Hp3, Hp2, !app_assoc, (Permutation_app_comm qs ps).
  - apply (only_in_trans _ _ (km_mem s2)); [apply (only_in_more ps)|apply (only_in_more qs)]; try done; intros q Hq; apply elem_of_app; auto.
Qed.

Lemma free_node_ok k (t : tree k) : forall s l, km_inv s l -> trep (km_mem s) t -> NoDup (tpages t) -> (forall q, q ∈ tpages t -> q ∉ l) ->
  wp (free_node k (troot t)) (fun _ s' => pages_freed s (tpages t) l s') s.
Proof.
  induction k as [|k IH]; intros s l Hk Ht Hnd Hd.
  - apply kfree_page; [done|by apply frame_page|by apply Hd, troot_in].
  - pose proof (frames_pages _ (trep_pages _ _ Ht)) as Hpages. destruct (tree_table t) as (p & es & ->).
    destruct (proj1 (trep_table _ p es) Ht) as [Hp He]. rewrite tpages_table in *. change (free_node (S k) (troot (table p es))) with (recur_vm_free k p).
    assert (forall i q, q ∈ child_pages tpages es (seqZ 0 i) -> i <= 512 -> q ∈ child_pages tpages es (seqZ 0 512)) as Hin.
    { intros i q (j & e & Hj & E & Hq)%child_pages_elem Hi. apply (child_pages_in _ _ _ j e); [apply elem_of_seqZ in Hj; apply elem_of_seqZ; lia|done..]. }
    pose proof Hnd as [Hpn Hndc]%NoDup_cons.
    rewrite recur_vm_free_eq. apply wp_bind.
    apply (wp_eachM_seqZ 512 _ (fun i s' => pages_freed s (child_pages tpages es (seqZ 0 i)) l s')); [lia| | |].
    + exists l. split; [done|]. by split.
    + intros i s' Hi Hfr. pose proof Hfr as (l' & Hperm & Hk' & Ho).
      assert (Forall page_ok (child_pages tpages es (seqZ 0 i))) as Hpi.
      { apply Forall_forall. intros q Hq. rewrite Forall_forall in Hpages. apply Hpages. right. apply (Hin i q Hq). lia. }
      assert (p ∉ child_pages tpages es (seqZ 0 i)) as Hpi' by (intros H; apply Hpn, (Hin i p H); lia).
      apply wp_bind, wp_rd64; [by apply frame_pos|]. rewrite (only_in_word _ _ _ p i Ho) by first [done|by apply frame_page].
      specialize (He i Hi). rewrite child_pages_snoc by lia. destruct (es i) as [e|] eqn:E.
      * destruct He as (Hf & -> & Hc). destruct (entry_valid e.1 (troot e.2) Hf (trep_root _ _ Hc)) as (-> & -> & _). simpl whenM.
        destruct (child_NoDup (table p es) i e Hnd Hi E) as [Hnc Hdc]. cbn [table fst snd] in Hdc.
        assert (forall q, q ∈ tpages e.2 -> q ∉ l') as Hl'.
        { intros q Hq. rewrite Hperm, elem_of_app. intros [H|H]; [by apply (Hdc q Hq)|]. apply (Hd q); [right|done].
          apply (child_pages_in _ _ _ i e); [apply elem_of_seqZ; lia|done..]. }
        assert (trep (km_mem s') e.2) as Hc' by (apply (trep_only (child_pages tpages es (seqZ 0 i)) (km_mem s)); [done|done| |done]; intros q Hq; by apply Hdc).
        eapply wp_mono; [apply (IH e.2 s' l' Hk' Hc' Hnc Hl')|]. intros [] s2 H2.
        by apply (pages_freed_trans _ s' _ _ _ l l').
      * rewrite He, app_nil_r. apply wp_ret. exact Hfr.
    + intros s' (l' & Hperm & Hk' & Ho). eapply wp_mono; [apply (kfree_page s' l' p Hk')|].
      * by apply frame_page.
      * rewrite Hperm, elem_of_app. intros [H|H]; [done|]. apply (Hd p); [by left|done].
      * intros [] s2 H2. pose proof (pages_freed_trans s s' s2 _ _ l l' Hperm Ho H2) as (l3 & Hp3 & Hk3 & Ho3). exists l3. split; [|split; [done|]].
        -- rewrite Hp3. by rewrite (Permutation_app_comm _ [p]).
        -- eapply only_in_more; [|exact Ho3]. intros q Hq. simpl. rewrite elem_of_app, list_elem_of_singleton in Hq. rewrite elem_of_cons. tauto.
Qed.

(** ** [uvm_copy] *)
Definition copy_node (k : nat) (page : Z) : M kmem Z :=
  match k with
  | S k' => recur_uvm_copy k' page
  | O =>
      page_copy ← kalloc;
      assert_ (negb (page_copy =? 0));;
      mem_update (fun m => move_bytes m page_copy page PAGE_SIZE);;
      mret page_copy
  end.
Definition copy_entry (k : nat) (p q i : Z) : M kmem unit :=
  e ← rd64 (p + 8 * i);
  whenM (pte_valid e)
    (page_copy ← copy_node k (P2K (PTE_ADDRESS e));
     wr64 (q + 8 * i) (Z.lor (K2P page_copy) (PTE_FLAGS e))).
Lemma recur_uvm_copy_eq k p : recur_uvm_copy k p = (q ← my_pgdir_init; eachM (seqZ 0 512) (copy_entry k p q);; mret q).
Proof. destruct k; cbn [recur_uvm_copy]; generalize (seqZ 0 512); reflexivity. Qed.

(** Memory that is as it was in the pages [qs]. *)
Definition agree (qs : list Z) (m m' : Z -> Z) : Prop := forall q x, q ∈ qs -> q <= x < q + PAGE_SIZE -> m' x = m x.

Lemma only_in_agree ps qs m m' :
  only_in ps m m' -> Forall page_ok ps -> Forall page_ok qs -> (forall q, q ∈ qs -> q ∉ ps) -> agree qs m m'.
Proof. intros Ho Hps Hqs Hd q x Hq Hx. rewrite Forall_forall in Hqs. apply (only_in_page ps m m' q); auto. Qed.
Lemma agree_more qs qs' m m' : (forall q, q ∈ qs' -> q ∈ qs) -> agree qs m m' -> agree qs' m m'.
Proof. intros Hs H q x Hq. apply H. by apply Hs. Qed.
Lemma agree_word qs m m' q i : agree qs m m' -> q ∈ qs -> idx_ok i -> load64 m' (q + 8 * i) = load64 m (q + 8 * i).
Proof. intros H Hq Hi. apply load64_ext. intros x Hx. apply (H q); [done|]. unfold idx_ok, PAGE_SIZE in *. lia. Qed.

Lemma in_child {k} p (es : Z -> option (Z * tree k)) i e q : idx_ok i -> es i = Some e -> q ∈ tpages e.2 -> q ∈ tpages (table p es).
Proof. intros Hi E Hq. right. apply (child_pages_in _ _ _ i e); [apply elem_of_seqZ; unfold idx_ok in Hi; lia|done..]. Qed.

Lemma trep_agree {k} m m' (t : tree k) : agree (tpages t) m m' -> trep m t -> trep m' t.
Proof.
  induction k as [|k IH]; [done|]. destruct (tree_table t) as (p & es & ->). intros Ha Ht. destruct (proj1 (trep_table m p es) Ht) as [Hp He]. apply (proj2 (trep_table m' p es)).
  split; [done|]. intros i Hi. specialize (He i Hi). rewrite (agree_word _ _ _ p i Ha) by first [done|apply (troot_in (table p es))].
  destruct (es i) as [e|] eqn:E; [|done]. destruct He as (Hf & Hl & Hc). split; [done|]. split; [done|]. apply IH; [|done].
  eapply agree_more; [|exact Ha]. intros q. by apply (in_child p es i).
Qed.

Lemma same_content_agree {k} m1 m1' m2 m2' (t t' : tree k) :
  agree (tpages t) m1 m2 -> agree (tpages t') m1' m2' -> same_content m1 m1' t t' -> same_content m2 m2' t t'.
Proof.
  induction k as [|k IH].
  - intros H H' E. change (bytes_at m2' t' PAGE_SIZE = bytes_at m2 t PAGE_SIZE).
    rewrite (bytes_at_ext m2' m1'), (bytes_at_ext m2 m1); [exact E|..]; intros x Hx; [apply (H t)|apply (H' t')]; (by left || done).
  - destruct (tree_table t) as (p & es & ->), (tree_table t') as (p' & es' & ->). intros H H' E i Hi. specialize (E i Hi). cbn [table snd] in *.
    destruct (es i) as [e|] eqn:Ee, (es' i) as [e'|] eqn:Ee'; try done. destruct E as [E1 E2]. split; [done|]. apply IH; [..|done].
    + eapply agree_more; [|exact H]. intros q. by apply (in_child p es i).
    + eapply agree_more; [|exact H']. intros q. by apply (in_child p' es' i).
Qed.

(** The entry [i] of the new table [q] is a copy of that of the old one. *)
Definition copied_at {k} (m m' : Z -> Z) (q : Z) (es es' : Z -> option (Z * tree k)) (i : Z) : Prop :=
  match es i, es' i with
  | Some e, Some e' => e'.1 = e.1 /\ flags_ok e.1 /\ load64 m' (q + 8 * i) = K2P (troot e'.2) + e'.1 /\ trep m' e'.2 /\ same_content m m' e.2 e'.2
  | None, None => load64 m' (q + 8 * i) = 0
  | _, _ => False
  end.

Lemma copied_at_keep {k} m m1 m2 q (es es' es2 : Z -> option (Z * tree k)) i :
  load64 m2 (q + 8 * i) = load64 m1 (q + 8 * i) -> es2 i = es' i ->
  (forall e, es' i = Some e -> agree (tpages e.2) m1 m2) -> copied_at m m1 q es es' i -> copied_at m m2 q es es2 i.
Proof.
  intros Hl E2 Ha. unfold copied_at. rewrite E2, Hl. destruct (es i) as [e|], (es' i) as [e'|]; try done.
  intros (H1 & H2 & H3 & H4 & H5). specialize (Ha e' eq_refl). split_and!; try done; [by apply (trep_agree m1)|].
  by apply (same_content_agree m m1).
Qed.

Lemma move_bytes_ok s l p q :
  km_inv s l -> page_ok p -> page_ok q -> p <> q -> q ∉ l ->
  km_inv (set_km_mem (move_bytes (km_mem s) q p PAGE_SIZE) s) l /\ bytes_at (move_bytes (km_mem s) q p PAGE_SIZE) q PAGE_SIZE = bytes_at (km_mem s) p PAGE_SIZE /\
  only_in [q] (km_mem s) (move_bytes (km_mem s) q p PAGE_SIZE).
Proof.
  intros Hk Hp Hq Hne Hl. set (m' := move_bytes _ _ _ _).
  assert (only_in [q] (km_mem s) m') as Ho.
  { intros x Hx. specialize (Hx q (list_elem_of_here _ _)). unfold m', move_bytes.
    destruct (Z.leb_spec q x), (Z.ltb_spec x (q + PAGE_SIZE)); simpl; try done. lia. }
  split; [|split; [|done]].
  - apply (km_inv_only s l [q]); [done|done|by apply Forall_singleton| |].
    + intros r Hr ->%list_elem_of_singleton. done.
    + intros x. unfold m', move_bytes. destruct (_ && _); apply Hk.
  - unfold bytes_at. apply list_eq. intros i. rewrite !list_lookup_fmap. destruct (decide (i < Z.to_nat PAGE_SIZE)%nat).
    + rewrite !lookup_seqZ_lt by lia. simpl. f_equal. unfold m', move_bytes.
      rewrite (proj2 (Z.leb_le q _)), (proj2 (Z.ltb_lt _ _)) by lia. simpl. f_equal. lia.
    + by rewrite !lookup_seqZ_ge by lia.
Qed.

(** What [copy_node] has done: the copy [t'] in the first of the free pages. *)
Definition copied {k} (s : kmem) (t : tree k) (l : list Z) (r : Z) (s' : kmem) : Prop := exists (t' : tree k) l',
  r = troot t' /\ l = tpages t' ++ l' /\ km_inv s' l' /\ trep (km_mem s') t' /\ same_content (km_mem s) (km_mem s') t t' /\
  only_in (tpages t') (km_mem s) (km_mem s').

Lemma copy_page_ok (p : tree 0) s l :
  km_inv s l -> Forall frame_ok l -> frame_ok p -> p ∉ l -> (0 < length l)%nat -> wp (copy_node 0 p) (copied s p l) s.
Proof.
  intros Hk Hfr Hp Hpl Hlen. destruct l as [|q l]; [simpl in Hlen; lia|]. apply Forall_cons in Hfr as [Hq Hfr]. pose proof (frame_page _ Hq) as Hqo.
  pose proof (ki_nodup _ _ Hk) as [Hql Hnd]%NoDup_cons.
  unfold copy_node. apply wp_bind. eapply wp_mono; [by apply kalloc_ok|]. intros q' s1 (Hm & -> & Hk1).
  apply wp_bind, wp_assert; [apply negb_true_iff, Z.eqb_neq; destruct Hqo as (_ & ? & _); lia|].
  destruct (move_bytes_ok s1 l p q Hk1) as (Hk2 & Hb & Ho); [by apply frame_page|done|intros ->; apply Hpl; by left|done|].
  apply wp_bind. unfold mem_update. apply wp_modify, wp_ret. rewrite Hm in *. exists q, l. split_and!; done.
Qed.

Lemma agree_refl qs m : agree qs m m.
Proof. done. Qed.
Lemma agree_sym qs m m' : agree qs m m' -> agree qs m' m.
Proof. intros H q x Hq Hx. symmetry. by apply (H q). Qed.

Lemma same_content_length {k} m m' (t t' : tree k) : same_content m m' t t' -> length (tpages t') = length (tpages t).
Proof.
  induction k as [|k IH]; [done|]. destruct (tree_table t) as (p & es & ->), (tree_table t') as (p' & es' & ->). intros H.
  rewrite !tpages_table. change (S (length (child_pages tpages es' (seqZ 0 512))) = S (length (child_pages tpages es (seqZ 0 512)))). f_equal. unfold child_pages.
  assert (forall j, j ∈ seqZ 0 512 -> idx_ok j) as Hj by (intros j Hj%elem_of_seqZ; exact Hj). revert Hj. generalize (seqZ 0 512). intros js Hj.
  induction js as [|j js IHj]; [done|]. rewrite !bind_cons, !length_app, IHj by (intros i Hi; apply Hj; by right). f_equal.
  specialize (H j ltac:(apply Hj; by left)). cbn [table snd] in H. destruct (es j) as [e|], (es' j) as [e'|]; try done. destruct H as [_ H]. by apply IH.
Qed.

Section copy_table.
Context {k : nat}.
Context (IH : forall (t : tree k) s l, km_inv s l -> Forall frame_ok l -> trep (km_mem s) t -> (forall q, q ∈ tpages t -> q ∉ l) ->
  (length (tpages t) <= length l)%nat -> wp (copy_node k (troot t)) (copied s t l) s).
Context (p : Z) (es : Z -> option (Z * tree k)) (s : kmem) (q : Z) (l : list Z).
Context (Hnd : NoDup (q :: l)) (Hfr : Forall frame_ok (q :: l)) (Ht : trep (km_mem s) (table p es)).
Context (Hd : forall r, r ∈ tpages (table p es) -> r ∉ q :: l).

(** After the first [i] entries: the new entries are [es'], the free pages are
    [l']. *)
Definition copying (i : Z) (s' : kmem) : Prop := exists (es' : Z -> option (Z * tree k)) l',
  l = child_pages tpages es' (seqZ 0 i) ++ l' /\ km_inv s' l' /\ only_in (q :: child_pages tpages es' (seqZ 0 i)) (km_mem s) (km_mem s') /\
  (forall j, i <= j -> es' j = None) /\ (forall j, i <= j < 512 -> load64 (km_mem s') (q + 8 * j) = 0) /\
  (forall j, 0 <= j < i -> copied_at (km_mem s) (km_mem s') q es es' j) /\ (length (child_pages tpages es (seqZ i (512 - i))) <= length l')%nat.

Lemma copying_agree (es' : Z -> option (Z * tree k)) l' i s' : l = child_pages tpages es' (seqZ 0 i) ++ l' ->
  only_in (q :: child_pages tpages es' (seqZ 0 i)) (km_mem s) (km_mem s') -> agree (tpages (table p es)) (km_mem s) (km_mem s').
Proof using Hfr Ht Hd.
  intros Hl Ho. apply (only_in_agree _ _ _ _ Ho).
  - apply frames_pages. rewrite Hl in Hfr. apply Forall_cons in Hfr as [? [? _]%Forall_app]. by apply Forall_cons.
  - by apply frames_pages, (trep_pages (km_mem s)).
  - intros r Hr Hr'. apply (Hd r Hr). rewrite Hl. rewrite elem_of_cons in *. rewrite elem_of_app. tauto.
Qed.

(** The step without an entry. *)
Lemma copying_skip i s' : 0 <= i < 512 -> es i = None -> copying i s' -> copying (i + 1) s'.
Proof using Type.
  intros Hi E (es' & l' & Hl & Hk & Ho & Hnone & Hz & Hc & Hlen). exists es', l'. rewrite child_pages_snoc, (Hnone i), app_nil_r by lia.
  split_and!; try done; try (intros; apply Hnone; lia); try (intros; apply Hz; lia).
  - intros j Hj. destruct (decide (j = i)) as [->|]; [|apply Hc; lia]. unfold copied_at. rewrite E, Hnone by lia. apply Hz. lia.
  - rewrite seqZ_cons in Hlen by lia. unfold child_pages in Hlen at 1. rewrite bind_cons, E in Hlen.
    replace (512 - (i + 1)) with (Z.pred (512 - i)) by lia. exact Hlen.
Qed.

(** The new entry is stored. *)
Lemma copying_store i s' s2 (es' : Z -> option (Z * tree k)) l2 (t' : tree k) e :
  0 <= i < 512 -> es i = Some e -> flags_ok e.1 -> l = child_pages tpages es' (seqZ 0 i) ++ tpages t' ++ l2 ->
  only_in (q :: child_pages tpages es' (seqZ 0 i)) (km_mem s) (km_mem s') -> (forall j, i <= j -> es' j = None) ->
  (forall j, i <= j < 512 -> load64 (km_mem s') (q + 8 * j) = 0) -> (forall j, 0 <= j < i -> copied_at (km_mem s) (km_mem s') q es es' j) ->
  km_inv s2 l2 -> trep (km_mem s2) t' -> same_content (km_mem s) (km_mem s2) e.2 t' -> only_in (tpages t') (km_mem s') (km_mem s2) ->
  (length (child_pages tpages es (seqZ (i + 1) (512 - (i + 1)))) <= length l2)%nat ->
  copying (i + 1) (set_km_mem (store64 (km_mem s2) (q + 8 * i) (K2P (troot t') + e.1)) s2).
Proof using Hnd Hfr.
  intros Hi E Hf Hl Ho Hnone Hz Hc Hk2 Ht2 Hsc Ho2 Hlen. set (v := K2P (troot t') + e.1). set (m3 := store64 _ _ v).
  pose proof Hnd as [Hql Hndl]%NoDup_cons. rewrite Hl in Hql, Hndl. rewrite !elem_of_app in Hql. apply NoDup_app in Hndl as (_ & Hdc & Hndl).
  pose proof Hfr as [Hq Hfrl]%Forall_cons. rewrite Hl in Hfrl. apply Forall_app in Hfrl as [Hfrc [Hfrt Hfrl]%Forall_app].
  pose proof (frame_page _ Hq) as Hqo. pose proof (frames_pages _ Hfrt) as Hpt.
  assert (only_in [q] (km_mem s2) m3) as Ho3.
  { intros x Hx. apply store64_out. specialize (Hx q (list_elem_of_here _ _)). unfold PAGE_SIZE in Hx. lia. }
  assert (only_in (q :: tpages t') (km_mem s') m3) as Ho23.
  { apply (only_in_trans _ _ (km_mem s2)); [apply (only_in_more (tpages t'))|apply (only_in_more [q])]; try done;
      intros r; rewrite ?list_elem_of_singleton, !elem_of_cons; tauto. }
  assert (0 <= v < 2 ^ 64) as Hv.
  { destruct (frame_K2P _ (trep_root _ _ Ht2)) as (_ & _ & Hr). unfold v. destruct Hf as [Hf _]. change (2 ^ 31) with 2147483648 in Hr.
    change (2 ^ 64) with 18446744073709551616. lia. }
  assert (forall j, 0 <= j < 512 -> j <> i -> load64 m3 (q + 8 * j) = load64 (km_mem s') (q + 8 * j)) as Hword.
  { intros j Hj Hne. unfold m3. rewrite load_entry_ne by (unfold idx_ok; (done || lia || congruence)).
    apply (only_in_word (tpages t')); try done. tauto. }
  assert (agree (tpages t') (km_mem s2) m3) as Hat.
  { apply (only_in_agree [q]); [done|by apply Forall_singleton|done|]. intros r Hr ->%list_elem_of_singleton. tauto. }
  set (es2 := fun j => if decide (j = i) then Some (e.1, t') else es' j).
  assert (child_pages tpages es2 (seqZ 0 (i + 1)) = child_pages tpages es' (seqZ 0 i) ++ tpages t') as Hcp.
  { rewrite child_pages_snoc by lia. f_equal; [|unfold es2; by rewrite decide_True].
    apply child_pages_ext. intros j Hj%elem_of_seqZ. unfold es2. rewrite decide_False by lia. done. }
  exists es2, l2. rewrite Hcp. split_and!; try done.
  - by rewrite <- app_assoc.
  - apply (km_inv_only s2 l2 [q]); [done|done|by apply Forall_singleton| |].
    + intros r Hr ->%list_elem_of_singleton. tauto.
    + apply mem_ok_store64, Hk2.
  - apply (only_in_trans _ _ (km_mem s')); [eapply only_in_more; [|exact Ho]|eapply only_in_more; [|exact Ho23]];
      intros r; rewrite !elem_of_cons, elem_of_app; tauto.
  - intros j Hj. unfold es2. rewrite decide_False by lia. apply Hnone. lia.
  - intros j Hj. simpl. rewrite Hword by lia. apply Hz. lia.
  - intros j Hj. destruct (decide (j = i)) as [->|Hne].
    + unfold copied_at, es2. rewrite E, decide_True by done. split_and!; try done.
      * by apply load64_store64_eq.
      * by apply (trep_agree (km_mem s2)).
      * by apply (same_content_agree (km_mem s) (km_mem s2)).
    + apply (copied_at_keep (km_mem s) (km_mem s') m3 q es es' es2 j); [apply Hword; lia|unfold es2; by rewrite decide_False| |apply Hc; lia].
      intros e' Ee'. assert (forall r, r ∈ tpages e'.2 -> r ∈ child_pages tpages es' (seqZ 0 i)) as Hin.
      { intros r Hr. apply (child_pages_in _ _ _ j e'); [apply elem_of_seqZ; lia|done|done]. }
      apply (only_in_agree (q :: tpages t')); [done|by apply Forall_cons| |].
      * apply Forall_forall. intros r Hr. apply frame_page. rewrite Forall_forall in Hfrc. by apply Hfrc, Hin.
      * intros r Hr%Hin [->|Hr']%elem_of_cons; [tauto|]. apply (Hdc r Hr). apply elem_of_app. by left.
Qed.

Lemma copying_entry i s' : 0 <= i < 512 -> copying i s' -> wp (copy_entry k p q i) (fun _ => copying (i + 1)) s'.
Proof using All.
  intros Hi Hcp. pose proof Hcp as (es' & l' & Hl & Hk & Ho & Hnone & Hz & Hc & Hlen).
  destruct (proj1 (trep_table (km_mem s) p es) Ht) as [Hp He]. specialize (He i Hi).
  pose proof (copying_agree es' l' i s' Hl Ho) as Ha.
  unfold copy_entry. apply wp_bind, wp_rd64; [by apply frame_pos|].
  rewrite (agree_word _ _ _ p i Ha) by first [done|apply (troot_in (table p es))].
  destruct (es i) as [e|] eqn:E.
  2: { rewrite He. apply wp_ret. by apply copying_skip. }
  destruct He as (Hf & -> & Hte). destruct (entry_valid e.1 (troot e.2) Hf (trep_root _ _ Hte)) as (-> & -> & -> & _). simpl whenM.
  assert (agree (tpages e.2) (km_mem s) (km_mem s')) as Hae by (eapply agree_more; [|exact Ha]; intros r; by apply (in_child p es i)).
  rewrite seqZ_cons in Hlen by lia. unfold child_pages in Hlen at 1. rewrite bind_cons, E, length_app in Hlen.
  pose proof Hfr as [Hq Hfrl]%Forall_cons. rewrite Hl in Hfrl. apply Forall_app in Hfrl as [Hfrc Hfrl].
  apply wp_bind. eapply wp_mono; [apply (IH e.2 s' l' Hk Hfrl (trep_agree _ _ _ Hae Hte))|].
  { intros r Hr Hr'. apply (Hd r); [by apply (in_child p es i e)|]. right. rewrite Hl. apply elem_of_app. by right. }
  { lia. }
  intros r s2 (t' & l2 & -> & -> & Hk2 & Ht2 & Hsc & Ho2).
  destruct (entry_valid e.1 (troot t') Hf (trep_root _ _ Ht2)) as (_ & _ & _ & ->).
  apply wp_wr64; [by apply frame_pos|]. rewrite length_app in Hlen.
  apply (copying_store i s' s2 es' l2 t' e); try done.
  { by apply (same_content_agree (km_mem s') (km_mem s2)); [apply agree_sym| |]. }
  pose proof (same_content_length _ _ _ _ Hsc) as Hsl. unfold child_pages. replace (512 - (i + 1)) with (Z.pred (512 - i)) by lia.
  change (i + 1) with (Z.succ i). lia.
Qed.
End copy_table.

Lemma pgdir_init_ok s q l : km_inv s (q :: l) -> page_ok q ->
  wp my_pgdir_init (fun r s' => r = q /\ km_inv s' l /\ only_in [q] (km_mem s) (km_mem s') /\
    forall j, idx_ok j -> load64 (km_mem s') (q + 8 * j) = 0) s.
Proof.
  intros Hk Hq. pose proof (ki_nodup _ _ Hk) as [Hql _]%NoDup_cons. unfold my_pgdir_init.
  apply wp_bind. eapply wp_mono; [by apply kalloc_ok|]. intros q' s1 (Hm & -> & Hk1).
  assert ((q =? 0) = false) as Eq0 by (apply Z.eqb_neq; destruct Hq as (_ & ? & _); lia).
  unfold memset_page. rewrite Eq0. unfold whenM. cbn [negb].
  apply wp_bind. apply wp_bind, wp_assert; [done|]. unfold mem_update. apply wp_modify, wp_ret.
  assert (only_in [q] (km_mem s1) (fill (km_mem s1) q PAGE_SIZE 0)) as Ho.
  { intros x Hx. specialize (Hx q (list_elem_of_here _ _)). unfold fill.
    destruct (Z.leb_spec q x), (Z.ltb_spec x (q + PAGE_SIZE)); simpl; try done. lia. }
  cbn [km_mem set_km_mem]. split; [done|]. split; [|split].
  - apply (km_inv_only s1 l [q]); [done|done|by apply Forall_singleton| |apply mem_ok_fill, Hk1].
    intros r Hr ->%list_elem_of_singleton. done.
  - by rewrite <- Hm.
  - intros j Hj. apply load64_fill_in; unfold idx_ok, PAGE_SIZE in *; lia.
Qed.

Lemma copy_node_ok k : forall (t : tree k) s l, km_inv s l -> Forall frame_ok l -> trep (km_mem s) t -> (forall q, q ∈ tpages t -> q ∉ l) ->
  (length (tpages t) <= length l)%nat -> wp (copy_node k (troot t)) (copied s t l) s.
Proof.
  induction k as [|k IH]; intros t s l Hk Hfr Ht Hd Hlen.
  - apply copy_page_ok; [done|done|done|apply Hd, (troot_in (k := 0))|exact Hlen].
  - destruct (tree_table t) as (p & es & ->). rewrite tpages_table in Hlen. destruct l as [|q l]; [exfalso; cbn [length] in Hlen; lia|].
    pose proof (ki_nodup _ _ Hk) as Hnd. pose proof Hfr as [Hq _]%Forall_cons.
    change (copy_node (S k) (troot (table p es))) with (recur_uvm_copy k p). rewrite recur_uvm_copy_eq.
    apply wp_bind. eapply wp_mono; [by apply pgdir_init_ok, frame_page|]. intros q' s1 (-> & Hk1 & Ho1 & Hz1).
    apply wp_bind, (wp_eachM_seqZ 512 _ (copying es s q l)); [lia| | |].
    + exists (fun _ => None), l. split_and!; try done.
      * intros j Hj. lia.
      * cbn [length] in Hlen. change (512 - 0) with 512. lia.
    + intros i s' Hi Hc. eapply wp_mono; [by apply (copying_entry IH)|]. by intros [].
    + intros s' (es' & l' & Hl & Hk' & Ho & _ & _ & Hc & _). apply wp_ret. exists (table q es'), l'. rewrite tpages_table.
      split_and!; [done|by rewrite Hl|done| | |done].
      * apply (proj2 (trep_table _ q es')). split; [done|]. intros i Hi. specialize (Hc i Hi). unfold copied_at in Hc.
        destruct (es i) as [e|], (es' i) as [e'|]; try done; [|by rewrite Hc]. destruct Hc as (E & Hf & Hl' & Ht' & _). by rewrite E in *.
      * intros i Hi. specialize (Hc i Hi). unfold copied_at in Hc. cbn [table snd].
        destruct (es i) as [e|], (es' i) as [e'|]; try done. destruct Hc as (E & _ & _ & _ & Hs). done.
Qed.

(** ** The operations of the kernel *)

(** C19: with as many free pages as the address space has, [my_uvm_copy] returns
    the root of a second address space: entries at the same indices with the
    same flags, pages with the same bytes, all in the first of the free pages.
    The old address space, and all memory outside the new pages, is as it
    was. *)
Theorem my_uvm_copy_correct (t : tree 4) s l :
  km_inv s l -> Forall frame_ok l -> trep (km_mem s) t -> (forall q, q ∈ tpages t -> q ∉ l) -> (length (tpages t) <= length l)%nat ->
  exists s' (t' : tree 4) l', my_uvm_copy (troot t) s = Ok (troot t', s') /\ l = tpages t' ++ l' /\ km_inv s' l' /\
    trep (km_mem s') t' /\ trep (km_mem s') t /\ same_content (km_mem s) (km_mem s') t t' /\ only_in (tpages t') (km_mem s) (km_mem s').
Proof.
  intros Hk Hfr Ht Hd Hlen. destruct (proj1 (wp_ok _ _ _) (copy_node_ok 4 t s l Hk Hfr Ht Hd Hlen)) as (r & s' & E & t' & l' & -> & Hl & Hk' & Ht' & Hs & Ho).
  exists s', t', l'. split_and!; try done. apply (trep_agree (km_mem s)); [|done]. apply (only_in_agree (tpages t')); [done|..].
  - by apply frames_pages, (trep_pages (km_mem s')).
  - by apply frames_pages, (trep_pages (km_mem s)).
  - intros q Hq Hq'. apply (Hd q Hq). rewrite Hl. apply elem_of_app. by left.
Qed.

(** C20: [my_vm_free] of an address space whose pages are in use once puts
    every one of its pages, tables and process pages alike, on the free list,
    each once, and changes no memory outside them. *)
Theorem my_vm_free_correct (t : tree 4) s l :
  km_inv s l -> trep (km_mem s) t -> NoDup (tpages t) -> (forall q, q ∈ tpages t -> q ∉ l) ->
  exists s' l', my_vm_free (troot t) s = Ok (tt, s') /\ l' ≡ₚ tpages t ++ l /\ km_inv s' l' /\ only_in (tpages t) (km_mem s) (km_mem s').
Proof.
  intros Hk Ht Hn Hd. destruct (proj1 (wp_ok _ _ _) (free_node_ok 4 t s l Hk Ht Hn Hd)) as ([] & s' & E & l' & Hl). by exists s', l'.
Qed.

(** Four tables with one entry each, above one page, and seven free pages. *)
Definition one_entry {k} (f : Z) (t : tree k) : Z -> option (Z * tree k) := fun i => if decide (i = 1) then Some (f, t) else None.
Definition demo_space : tree 4 :=
  table (k := 3) (demo_page 5) (one_entry PTE_TABLE (table (k := 2) (demo_page 6) (one_entry PTE_TABLE
    (table (k := 1) (demo_page 7) (one_entry PTE_TABLE (table (k := 0) (demo_page 8) (one_entry (k := 0) PTE_USER_DATA (demo_page 9)))))))).
Definition demo_free : list Z := demo_page <$> [10; 11; 12; 13; 14; 15; 16].
Definition demo_space_kmem : kmem :=
  let link a i b f m := store64 m (demo_page a + 8 * i) (K2P (demo_page b) + f) in
  let next a m := store64 m (demo_page a) (demo_page (a + 1)) in
  mkKmem (link 5 1 6 PTE_TABLE (link 6 1 7 PTE_TABLE (link 7 1 8 PTE_TABLE (link 8 1 9 PTE_USER_DATA
    (next 10 (next 11 (next 12 (next 13 (next 14 (next 15 (fun _ => 0))))))))))) (demo_page 10) false.

Lemma demo_space_inv : km_inv demo_space_kmem demo_free.
Proof.
  split; [by vm_compute| | |done|].
  - apply (bool_decide_unpack _). vm_compute. exact I.
  - repeat constructor; vm_compute; congruence.
  - unfold demo_space_kmem. cbv zeta. simpl km_mem. repeat apply mem_ok_store64. intros x. unfold byte_ok. lia.
Qed.

(** A page whose only entry is at 1. *)
Lemma trep_one {k} m p f (t : tree k) : frame_ok p -> flags_ok f -> load64 m (p + 8) = K2P (troot t) + f ->
  (forall i, idx_ok i -> i <> 1 -> load64 m (p + 8 * i) = 0) -> trep m t -> trep m (table p (one_entry f t)).
Proof.
  intros Hp Hf Hl Hz Ht. apply (proj2 (trep_table m p _)). split; [done|]. intros i Hi. unfold one_entry. case_decide as E; [by subst|]. by rewrite Hz.
Qed.
Lemma demo_space_rep : trep (km_mem demo_space_kmem) demo_space.
Proof.
  assert (forall a i, 5 <= a <= 8 -> idx_ok i -> i <> 1 -> load64 (km_mem demo_space_kmem) (demo_page a + 8 * i) = 0) as Hz.
  { intros a i Ha Hi Hne. unfold demo_space_kmem, idx_ok, demo_page in *. cbv zeta. cbn [km_mem].
    rewrite !load64_store64_ne by lia. done. }
  unfold demo_space. do 4 (apply trep_one; [by vm_compute|by vm_compute|by vm_compute|intros; by apply Hz|]). by vm_compute.
Qed.
Lemma demo_space_pages : tpages demo_space = demo_page <$> [5; 6; 7; 8; 9].
Proof. by vm_compute. Qed.
Lemma demo_space_sep q : q ∈ tpages demo_space -> q ∉ demo_free.
Proof.
  rewrite demo_space_pages. revert q. apply Forall_forall. apply (bool_decide_unpack _). vm_compute. exact I.
Qed.

Lemma my_uvm_copy_correct_witness :
  exists s' (t' : tree 4) l', my_uvm_copy (demo_page 5) demo_space_kmem = Ok (troot t', s') /\ demo_free = tpages t' ++ l' /\ km_inv s' l' /\
    trep (km_mem s') t' /\ trep (km_mem s') demo_space /\ same_content (km_mem demo_space_kmem) (km_mem s') demo_space t' /\
    only_in (tpages t') (km_mem demo_space_kmem) (km_mem s').
Proof.
  apply (my_uvm_copy_correct demo_space); [apply demo_space_inv|..|apply demo_space_rep|apply demo_space_sep|].
  - repeat constructor; vm_compute; congruence.
  - rewrite demo_space_pages. simpl. lia.
Defined.

Lemma my_vm_free_correct_witness :
  exists s' l', my_vm_free (demo_page 5) demo_space_kmem = Ok (tt, s') /\ l' ≡ₚ tpages demo_space ++ demo_free /\ km_inv s' l' /\
    only_in (tpages demo_space) (km_mem demo_space_kmem) (km_mem s').
Proof.
  apply (my_vm_free_correct demo_space); [apply demo_space_inv|apply demo_space_rep| |apply demo_space_sep].
  rewrite demo_space_pages. apply (bool_decide_unpack _). vm_compute. exact I.
Defined.
End VmTree.
