(* ===== verification/FsDefines.v ===== *)
(** * On-disk structures (src/fs/defines.h)

    Constants of the file system, its on-disk records and their byte layout.
    The C code reads a record by casting the data of a block; here a cast is a
    [decode_*] and a store through the cast pointer an [encode_*], and the
    layout lemmas say that the two are inverse. *)
From S2P Require Import Prelude.

(** ** Constants *)
Definition NINODES : Z := 200.
Definition NGROUPS : Z := 10.
Definition BLOCK_SIZE : Z := 512.
Definition SECT_SIZE : Z := 512.
Definition LOG_MAX_SIZE : Z := (BLOCK_SIZE - 8) / 8.
Definition INODE_NUM_DIRECT : Z := 12.
Definition INODE_NUM_INDIRECT : Z := BLOCK_SIZE / 4.
Definition sizeof_InodeEntry : Z := 64.
Definition sizeof_DirEntry : Z := 16.
Definition INODE_PER_BLOCK : Z := BLOCK_SIZE / sizeof_InodeEntry.
Definition INODE_MAX_BLOCKS : Z := INODE_NUM_DIRECT + INODE_NUM_INDIRECT.
Definition INODE_MAX_BYTES : Z := INODE_MAX_BLOCKS * BLOCK_SIZE.
Definition SECTS_PER_BLOCK : Z := BLOCK_SIZE / SECT_SIZE.
Definition FILE_NAME_MAX_LENGTH : Z := 14.
Definition BIT_PER_BLOCK : Z := BLOCK_SIZE * 8.
(** [#define FSSIZE 10000 + 2 + LOG_MAX_SIZE]: the macro has no parentheses;
    [FSSIZE_expr] is the sum it stands for where it is used alone. *)
Definition FSSIZE : Z := 10000 + 2 + LOG_MAX_SIZE.

(** Inode types. *)
Definition INODE_INVALID : Z := 0.
Definition INODE_DIRECTORY : Z := 1.
Definition INODE_REGULAR : Z := 2.
Definition INODE_DEVICE : Z := 3.

(** [BLOCK_SIZE] as a list length. *)
Definition bsize : nat := 512.
Definition zero_block : list Z := replicate bsize 0.

(** ** Records *)
Record SuperBlock : Type := mkSuperBlock {
  num_blocks : Z;
  num_log_blocks : Z;
  num_groups : Z;
  num_inodes : Z;
  blocks_per_group : Z;
  log_start : Z;
  bg_start : Z;
  num_inodeblocks_per_group : Z;
  num_bitmap_per_group : Z;
  num_datablocks_per_group : Z;
  bitmap_start_per_group : Z;
  data_start_per_group : Z
}.

Record InodeEntry : Type := mkInodeEntry {
  ie_type : Z;
  ie_major : Z;
  ie_minor : Z;
  ie_num_links : Z;
  ie_num_bytes : Z;
  ie_addrs : list Z;
  ie_indirect : Z
}.

Record DirEntry : Type := mkDirEntry {
  de_inode_no : Z;
  de_name : list Z
}.

Record LogHeader : Type := mkLogHeader {
  lh_num_blocks : Z;
  lh_block_no : list Z
}.

(** ** Byte layout *)
Definition decode_SuperBlock (d : list Z) : SuperBlock :=
  mkSuperBlock (load 4 0 d) (load 4 4 d) (load 4 8 d) (load 4 12 d)
               (load 4 16 d) (load 4 20 d) (load 4 24 d) (load 4 28 d)
               (load 4 32 d) (load 4 36 d) (load 4 40 d) (load 4 44 d).

Definition encode_SuperBlock (sb : SuperBlock) : list Z :=
  unwords 4 [num_blocks sb; num_log_blocks sb; num_groups sb; num_inodes sb;
             blocks_per_group sb; log_start sb; bg_start sb;
             num_inodeblocks_per_group sb; num_bitmap_per_group sb;
             num_datablocks_per_group sb; bitmap_start_per_group sb;
             data_start_per_group sb].

Definition decode_InodeEntry (d : list Z) : InodeEntry :=
  mkInodeEntry (load 2 0 d) (load 2 2 d) (load 2 4 d) (load 2 6 d) (load 4 8 d)
               (words 4 12 (drop 12 d)) (load 4 60 d).

Definition encode_InodeEntry (e : InodeEntry) : list Z :=
  le_bytes 2 (ie_type e) ++ le_bytes 2 (ie_major e) ++ le_bytes 2 (ie_minor e) ++
  le_bytes 2 (ie_num_links e) ++ le_bytes 4 (ie_num_bytes e) ++
  unwords 4 (ie_addrs e) ++ le_bytes 4 (ie_indirect e).

Definition decode_DirEntry (d : list Z) : DirEntry :=
  mkDirEntry (load 2 0 d) (slice 2 14 d).

Definition encode_DirEntry (e : DirEntry) : list Z :=
  le_bytes 2 (de_inode_no e) ++ de_name e.

Definition decode_LogHeader (d : list Z) : LogHeader :=
  mkLogHeader (load 8 0 d) (words 8 63 (drop 8 d)).

Definition encode_LogHeader (h : LogHeader) : list Z :=
  le_bytes 8 (lh_num_blocks h) ++ unwords 8 (lh_block_no h).

(** [IndirectBlock]: the 128 addresses of an indirect block. *)
Definition decode_IndirectBlock (d : list Z) : list Z := words 4 128 d.
Definition encode_IndirectBlock (addrs : list Z) : list Z := unwords 4 addrs.

(** ** Fields within their C widths *)
Definition InodeEntry_wf (e : InodeEntry) : Prop :=
  0 <= ie_type e < 2 ^ 16 /\ 0 <= ie_major e < 2 ^ 16 /\ 0 <= ie_minor e < 2 ^ 16 /\
  0 <= ie_num_links e < 2 ^ 16 /\ 0 <= ie_num_bytes e < 2 ^ 32 /\
  length (ie_addrs e) = 12%nat /\ Forall (fun x => 0 <= x < 2 ^ 32) (ie_addrs e) /\
  0 <= ie_indirect e < 2 ^ 32.

Definition DirEntry_wf (e : DirEntry) : Prop :=
  0 <= de_inode_no e < 2 ^ 16 /\ length (de_name e) = 14%nat /\ Forall byte_ok (de_name e).

Definition LogHeader_wf (h : LogHeader) : Prop :=
  0 <= lh_num_blocks h < 2 ^ 64 /\ length (lh_block_no h) = 63%nat /\
  Forall (fun x => 0 <= x < 2 ^ 64) (lh_block_no h).

(** Peels a load off a concatenation of encoded fields. *)
Ltac load_field :=
  repeat first
    [ rewrite load_app_r by (rewrite ?length_le_bytes, ?length_unwords; simpl; lia);
      rewrite ?length_le_bytes; simpl Nat.sub
    | rewrite load_app_l by (rewrite ?length_le_bytes; lia) ];
  rewrite ?load_le_bytes.

Lemma length_encode_InodeEntry e :
  length (ie_addrs e) = 12%nat -> length (encode_InodeEntry e) = 64%nat.
Proof.
  intros He. unfold encode_InodeEntry.
  rewrite !length_app, !length_le_bytes, length_unwords. lia.
Qed.

Lemma decode_encode_InodeEntry e :
  InodeEntry_wf e -> decode_InodeEntry (encode_InodeEntry e) = e.
Proof.
  intros (H1 & H2 & H3 & H4 & H5 & H6 & H7 & H8).
  destruct e as [t mj mn nl nb ad ind]; simpl in *.
  unfold decode_InodeEntry, encode_InodeEntry; simpl ie_type; simpl ie_major;
    simpl ie_minor; simpl ie_num_links; simpl ie_num_bytes; simpl ie_addrs; simpl ie_indirect.
  f_equal.
  - load_field. by rewrite Z.mod_small.
  - load_field. by rewrite Z.mod_small.
  - load_field. by rewrite Z.mod_small.
  - load_field. by rewrite Z.mod_small.
  - load_field. by rewrite Z.mod_small.
  - change (drop 12 ?l) with (drop 4 (drop 2 (drop 2 (drop 2 (drop 2 l))))).
    rewrite !drop_le_bytes_app.
    rewrite words_app_l by (rewrite length_unwords; lia).
    rewrite <- H6. rewrite words_unwords. by apply list_mod_id.
  - load_field.
    rewrite length_unwords, H6. simpl Nat.sub. rewrite load_le_bytes. by rewrite Z.mod_small.
Qed.

Lemma decode_encode_DirEntry e :
  DirEntry_wf e -> decode_DirEntry (encode_DirEntry e) = e.
Proof.
  intros (H1 & H2 & H3). destruct e as [i nm]; simpl in *.
  unfold decode_DirEntry, encode_DirEntry; simpl. f_equal.
  - change (load 2 0 (le_bytes 2 i ++ nm) = i).
    rewrite load_app_l by (rewrite length_le_bytes; lia).
    rewrite load_le_bytes. by rewrite Z.mod_small.
  - unfold slice. change (take 14 (drop 2 (le_bytes 2 i ++ nm)) = nm).
    rewrite drop_le_bytes_app. apply take_ge. lia.
Qed.

Lemma length_encode_LogHeader h :
  length (lh_block_no h) = 63%nat -> length (encode_LogHeader h) = bsize.
Proof.
  intros H. unfold encode_LogHeader. rewrite length_app, length_le_bytes, length_unwords, H. done.
Qed.

Lemma decode_encode_LogHeader h :
  LogHeader_wf h -> decode_LogHeader (encode_LogHeader h) = h.
Proof.
  intros (H1 & H2 & H3). destruct h as [n l]; simpl in *.
  unfold decode_LogHeader, encode_LogHeader; simpl lh_num_blocks; simpl lh_block_no. f_equal.
  - rewrite load_app_l by (rewrite length_le_bytes; lia). rewrite load_le_bytes.
    by rewrite Z.mod_small.
  - rewrite drop_le_bytes_app. rewrite <- H2. rewrite words_unwords. by apply list_mod_id.
Qed.

Lemma encode_decode_IndirectBlock d :
  Forall byte_ok d -> length d = bsize -> encode_IndirectBlock (decode_IndirectBlock d) = d.
Proof. intros. by apply unwords_words. Qed.
