(* ===== verification/CString.v ===== *)
(** * String and memory routines (src/common/string.c)

    A pointer that is only read is the list of bytes from it on; a buffer that
    is written is a list of bytes.  [memmove], whose arguments may overlap,
    works on one memory and two offsets. [char] is unsigned (aarch64). *)
From S2P Require Import Prelude.

Module CString.

(** Reading a byte; past the end of the memory given, a NUL. *)
Definition byte_at (s : list Z) (i : nat) : Z := default 0 (s !! i).

(** [for (i = 0; i < n; i++) ((u8 * )s)[i] = (u8)(c & 0xff);] *)
Definition memset (s : list Z) (c : Z) (n : nat) : list Z :=
  foldl (fun s i => <[i := u8 (Z.land c 255)]> s) s (seq 0 n).

Definition memcpy (dest src : list Z) (n : nat) : list Z :=
  foldl (fun d i => <[i := byte_at src i]> d) dest (seq 0 n).

Fixpoint memcmp (s1 s2 : list Z) (n : nat) : Z :=
  match n with
  | O => 0
  | S n' =>
      let c1 := byte_at s1 0%nat in let c2 := byte_at s2 0%nat in
      if negb (c1 =? c2) then c1 - c2 else memcmp (drop 1 s1) (drop 1 s2) n'
  end.

(** Copying one byte of the memory [m] from [s + i] to [d + i]. *)
Definition copy_byte (d s : nat) (m : list Z) (i : nat) : list Z := <[(d + i)%nat := byte_at m (s + i)%nat]> m.

Definition memmove (m : list Z) (d s n : nat) : list Z :=
  if (s <? d)%nat && (d - s <? n)%nat
  then foldl (copy_byte d s) m (rev (seq 0 n))
  else foldl (copy_byte d s) m (seq 0 n).

(** The first loop of [strncpy] and [strncpy_fast]: the buffer and [i]. *)
Fixpoint strncpy_copy (k i : nat) (dest src : list Z) : list Z * nat :=
  match k with
  | O => (dest, i)
  | S k' => if byte_at src i =? 0 then (dest, i) else strncpy_copy k' (S i) (<[i := byte_at src i]> dest) src
  end.

Definition strncpy (dest src : list Z) (n : nat) : list Z :=
  let '(dest, i) := strncpy_copy n 0 dest src in
  foldl (fun d i => <[i := 0]> d) dest (seq i (n - i)).

Definition strncpy_fast (dest src : list Z) (n : nat) : list Z :=
  let '(dest, i) := strncpy_copy n 0 dest src in
  if (i <? n)%nat then <[i := 0]> dest else dest.

Fixpoint strncmp (s1 s2 : list Z) (n : nat) : Z :=
  match n with
  | O => 0
  | S n' =>
      let c1 := byte_at s1 0%nat in let c2 := byte_at s2 0%nat in
      if negb (c1 =? c2) then c1 - c2
      else if (c1 =? 0) || (c2 =? 0) then 0
      else strncmp (drop 1 s1) (drop 1 s2) n'
  end.

(** [None]: no NUL within the memory the pointer points to. *)
Fixpoint strlen_from (s : list Z) (i : nat) : option nat :=
  match s with
  | [] => None
  | c :: s' => if c =? 0 then Some i else strlen_from s' (S i)
  end.
Definition strlen (s : list Z) : option nat := strlen_from s 0.

(** The C string at a pointer: the bytes before the first NUL. *)
Fixpoint cstr (s : list Z) : list Z :=
  match s with
  | [] => []
  | c :: s' => if c =? 0 then [] else c :: cstr s'
  end.

(** ** [memset], [memcpy] *)
Lemma lookup_byte_at s i : (i < length s)%nat -> s !! i = Some (byte_at s i).
Proof. intros [x Hx]%lookup_lt_is_Some_2. unfold byte_at. by rewrite Hx. Qed.

Lemma foldl_insert_prefix (f : nat -> Z) n (s : list Z) :
  (n <= length s)%nat -> foldl (fun s i => <[i := f i]> s) s (seq 0 n) = (f <$> seq 0 n) ++ drop n s.
Proof.
  induction n as [|n IH]; intros Hn; [done|].
  rewrite seq_S, foldl_app, IH by lia. simpl. rewrite fmap_app.
  rewrite insert_app_r_alt by (rewrite length_fmap, length_seq; lia).
  rewrite length_fmap, length_seq, Nat.sub_diag, <- app_assoc. f_equal.
  destruct (drop n s) as [|x l] eqn:E.
  { apply (f_equal length) in E. rewrite length_drop in E. simpl in E. lia. }
  simpl. f_equal. change (S n) with (1 + n)%nat. rewrite Nat.add_comm, <- drop_drop, E. done.
Qed.

Lemma fmap_const_seq (x : Z) i n : (fun _ : nat => x) <$> seq i n = replicate n x.
Proof. revert i. induction n as [|n IH]; intros i; [done|]. simpl. f_equal. apply IH. Qed.

Lemma memset_spec s c n :
  (n <= length s)%nat -> memset s c n = replicate n (u8 (Z.land c 255)) ++ drop n s.
Proof. intros H. unfold memset. rewrite foldl_insert_prefix by done. by rewrite fmap_const_seq. Qed.

Lemma fmap_lookup_seq (l : list Z) n : (n <= length l)%nat -> (fun i => byte_at l i) <$> seq 0 n = take n l.
Proof.
  intros H. apply list_eq. intros i. rewrite list_lookup_fmap.
  destruct (decide (i < n)%nat).
  - rewrite lookup_seq_lt, lookup_take_lt by done. simpl. symmetry. apply lookup_byte_at. lia.
  - rewrite lookup_seq_ge, lookup_take_ge by lia. done.
Qed.

Lemma memcpy_spec dest src n :
  (n <= length dest)%nat -> (n <= length src)%nat -> memcpy dest src n = take n src ++ drop n dest.
Proof. intros. unfold memcpy. rewrite foldl_insert_prefix by done. by rewrite fmap_lookup_seq. Qed.

(** ** [memmove] *)
Lemma slice_S s n m :
  (s + S n <= length m)%nat -> slice s (S n) m = slice s n m ++ [byte_at m (s + n)%nat].
Proof.
  intros H. unfold slice. apply take_S_r. rewrite lookup_drop.
  apply lookup_byte_at. lia.
Qed.

Lemma slice_cons s n m :
  (s + S n <= length m)%nat -> slice s (S n) m = byte_at m s :: slice (S s) n m.
Proof.
  intros H. unfold slice. rewrite (drop_S _ (byte_at m s)) by (apply lookup_byte_at; lia). done.
Qed.

Lemma splice_lookup_total off new l i :
  (off + length new <= length l)%nat -> ~ (off <= i < off + length new)%nat ->
  byte_at (splice off new l) i = byte_at l i.
Proof.
  intros Hl Hi. unfold byte_at. rewrite lookup_splice by done. by rewrite decide_False.
Qed.

Lemma splice_snoc off new x l :
  (off + length new < length l)%nat ->
  <[(off + length new)%nat := x]> (splice off new l) = splice off (new ++ [x]) l.
Proof.
  intros Hl. apply list_eq. intros i.
  rewrite (lookup_splice off (new ++ [x])) by (rewrite length_app; simpl; lia).
  rewrite length_app. simpl. destruct (decide (i = off + length new)%nat) as [->|Hne].
  - rewrite list_lookup_insert_eq by (rewrite length_splice; lia).
    rewrite decide_True by lia. rewrite lookup_app_r by lia.
    by replace (off + length new - off - length new)%nat with 0%nat by lia.
  - rewrite list_lookup_insert_ne by lia. rewrite lookup_splice by lia.
    destruct (decide (off <= i < off + length new)%nat).
    + rewrite decide_True by lia. by rewrite lookup_app_l by lia.
    + rewrite decide_False by lia. done.
Qed.

Lemma splice_cons off new x l :
  (S off + length new <= length l)%nat ->
  <[off := x]> (splice (S off) new l) = splice off (x :: new) l.
Proof.
  intros Hl. apply list_eq. intros i. rewrite (lookup_splice off (x :: new)) by (simpl; lia). simpl.
  destruct (decide (i = off)) as [->|Hne].
  - rewrite list_lookup_insert_eq by (rewrite length_splice; lia).
    rewrite decide_True by lia. by rewrite Nat.sub_diag.
  - rewrite list_lookup_insert_ne by lia. rewrite lookup_splice by lia.
    destruct (decide (S off <= i < S off + length new)%nat).
    + rewrite decide_True by lia. replace (i - off)%nat with (S (i - S off)) by lia. done.
    + rewrite decide_False by lia. done.
Qed.

Lemma splice_nil off l : splice off [] l = l.
Proof. unfold splice. simpl. by rewrite Nat.add_0_r, take_drop. Qed.

Lemma memmove_forward m d s n :
  (d + n <= length m)%nat -> (s + n <= length m)%nat -> (d <= s \/ n <= d - s)%nat ->
  foldl (copy_byte d s) m (seq 0 n) = splice d (slice s n m) m.
Proof.
  intros Hd Hs Hov. induction n as [|n IH]; [by rewrite splice_nil|].
  rewrite seq_S, foldl_app, IH by lia. simpl. unfold copy_byte.
  assert (length (slice s n m) = n) as Hl by (apply length_slice; lia).
  rewrite splice_lookup_total by lia.
  rewrite slice_S by lia. rewrite <- Hl at 1. rewrite splice_snoc by lia. done.
Qed.

Lemma memmove_backward m d s n k :
  (d + n <= length m)%nat -> (s + n <= length m)%nat -> (s < d)%nat -> (k <= n)%nat ->
  foldl (copy_byte d s) m (rev (seq (n - k) k)) = splice (d + (n - k)) (slice (s + (n - k)) k m) m.
Proof.
  intros Hd Hs Hsd Hk. induction k as [|k IH]; [by rewrite splice_nil|].
  assert (seq (n - S k) (S k) = (n - S k)%nat :: seq (n - k) k) as ->.
  { simpl. f_equal. f_equal. lia. }
  simpl rev. rewrite foldl_app, IH by lia. simpl. unfold copy_byte.
  assert (length (slice (s + (n - k)) k m) = k) as Hl by (apply length_slice; lia).
  rewrite splice_lookup_total by lia.
  rewrite (slice_cons (s + (n - S k))) by lia.
  replace (S (s + (n - S k))) with (s + (n - k))%nat by lia.
  replace (d + (n - k))%nat with (S (d + (n - S k))) by lia.
  by rewrite splice_cons by lia.
Qed.

(** ** [strncpy], [strncmp], [strlen] *)
Lemma strlen_from_spec s i : 0 ∈ s -> strlen_from s i = Some (i + length (cstr s))%nat.
Proof.
  revert i. induction s as [|c s IH]; intros i H; [by apply not_elem_of_nil in H|]. simpl.
  destruct (Z.eqb_spec c 0) as [->|Hc]; [f_equal; simpl; lia|].
  apply elem_of_cons in H as [H|H]; [congruence|]. rewrite IH by done. f_equal. simpl. lia.
Qed.

Lemma strlen_from_none s i : 0 ∉ s -> strlen_from s i = None.
Proof.
  revert i. induction s as [|c s IH]; intros i H; [done|]. simpl.
  apply not_elem_of_cons in H as [Hc Hs]. rewrite (proj2 (Z.eqb_neq c 0)) by congruence. by apply IH.
Qed.

Lemma splice_insert_before off new x i l :
  (off + length new <= length l)%nat -> (i < off)%nat ->
  splice off new (<[i := x]> l) = <[i := x]> (splice off new l).
Proof.
  intros Hl Hi. apply list_eq. intros j. rewrite lookup_splice by (by rewrite length_insert).
  destruct (decide (j = i)) as [->|Hne].
  - rewrite decide_False by lia. rewrite !list_lookup_insert_eq; [done|rewrite length_splice; lia|lia].
  - rewrite !(list_lookup_insert_ne _ i j) by done. by rewrite lookup_splice.
Qed.

Lemma cstr_drop_zero (src : list Z) i : byte_at src i = 0 -> cstr (drop i src) = [].
Proof.
  intros H. destruct (drop i src) as [|c l] eqn:E; [done|].
  assert (src !! i = Some c) as Hi.
  { replace i with (i + 0)%nat by lia. rewrite <- lookup_drop, E. done. }
  unfold byte_at in H. rewrite Hi in H. simpl in *. by subst.
Qed.

Lemma cstr_drop_cons (src : list Z) i :
  byte_at src i <> 0 -> cstr (drop i src) = byte_at src i :: cstr (drop (S i) src).
Proof.
  intros H. destruct (src !! i) as [c|] eqn:E.
  - rewrite (drop_S _ _ _ E). unfold byte_at in *. rewrite E in *. simpl in *.
    by rewrite (proj2 (Z.eqb_neq _ _)).
  - exfalso. apply H. unfold byte_at. by rewrite E.
Qed.

Lemma strncpy_copy_spec k i dest src :
  (i + k <= length dest)%nat ->
  let t := take k (cstr (drop i src)) in
  strncpy_copy k i dest src = (splice i t dest, (i + length t)%nat).
Proof.
  revert i dest. induction k as [|k IH]; intros i dest Hl; simpl strncpy_copy.
  - simpl. by rewrite splice_nil, Nat.add_0_r.
  - destruct (Z.eqb_spec (byte_at src i) 0) as [H0|H0].
    + rewrite cstr_drop_zero by done. simpl. by rewrite splice_nil, Nat.add_0_r.
    + rewrite cstr_drop_cons by done. simpl take. cbv zeta in IH.
      rewrite IH by (rewrite length_insert; lia). simpl length.
      set (t := take k (cstr (drop (S i) src))).
      assert (length t <= k)%nat by (unfold t; rewrite length_take; lia).
      rewrite splice_insert_before by lia. rewrite splice_cons by lia. f_equal. lia.
Qed.

Lemma foldl_insert_zeros i k (d : list Z) :
  (i + k <= length d)%nat ->
  foldl (fun d i => <[i := 0]> d) d (seq i k) = splice i (replicate k 0) d.
Proof.
  revert i d. induction k as [|k IH]; intros i d Hl; simpl; [by rewrite splice_nil|].
  rewrite IH by (rewrite length_insert; lia).
  rewrite splice_insert_before by (rewrite ?length_replicate; lia).
  rewrite splice_cons by (rewrite length_replicate; lia). done.
Qed.

(** [strncpy] copies the string and pads it with NULs. *)
Lemma strncpy_spec dest src n :
  (n <= length dest)%nat ->
  strncpy dest src n =
    take n (cstr src) ++ replicate (n - length (cstr src)) 0 ++ drop n dest.
Proof.
  intros Hn. unfold strncpy. rewrite strncpy_copy_spec by lia. rewrite drop_0, Nat.add_0_l.
  set (t := take n (cstr src)). assert (length t <= n)%nat by (unfold t; rewrite length_take; lia).
  rewrite foldl_insert_zeros by (rewrite length_splice; lia).
  assert (splice 0 t dest = t ++ drop (length t) dest) as -> by done.
  unfold splice. rewrite length_replicate.
  rewrite take_app_length, drop_app_ge by lia. rewrite drop_drop.
  replace (length t + (length t + (n - length t) - length t))%nat with n by lia.
  do 3 f_equal. unfold t. rewrite length_take. lia.
Qed.

(** Two strings compare equal up to [n] characters. *)
Lemma strncmp_eq s1 s2 n :
  (n <= length s1)%nat -> (n <= length s2)%nat ->
  strncmp s1 s2 n = 0 <-> take n (cstr s1) = take n (cstr s2).
Proof.
  revert s1 s2. induction n as [|n IH]; intros [|c1 s1] [|c2 s2] H1 H2; simpl in *; try lia; try done.
  unfold byte_at. simpl.
  destruct (Z.eqb_spec c1 c2) as [->|Hne]; simpl.
  - destruct (Z.eqb_spec c2 0) as [->|H0]; simpl; [done|]. rewrite !drop_0, IH by lia.
    split; [by intros ->|by intros [= ?]].
  - split; [lia|]. intros H. exfalso. destruct (Z.eqb_spec c1 0), (Z.eqb_spec c2 0); simplify_eq/=; congruence.
Qed.

Lemma cstr_nonzero s : Forall (fun c => c <> 0) (cstr s).
Proof.
  induction s as [|c s IH]; simpl; [done|]. destruct (Z.eqb_spec c 0); [done|]. by constructor.
Qed.

Lemma cstr_app_nonzero a b : Forall (fun c => c <> 0) a -> cstr (a ++ b) = a ++ cstr b.
Proof.
  induction 1 as [|c a Hc Ha IH]; simpl; [done|]. rewrite (proj2 (Z.eqb_neq c 0)) by done. by rewrite IH.
Qed.

Lemma take_cstr_strncpy dest src n :
  (n <= length dest)%nat -> take n (cstr (strncpy dest src n)) = take n (cstr src).
Proof.
  intros Hn. rewrite strncpy_spec by done.
  rewrite cstr_app_nonzero by (apply Forall_take, cstr_nonzero).
  destruct (n - length (cstr src))%nat as [|k] eqn:E.
  - simpl. rewrite take_app_le by (rewrite length_take; lia). rewrite take_take. f_equal. lia.
  - simpl. rewrite app_nil_r, take_take. f_equal. lia.
Qed.

(** ** Properties *)

(** [memmove] copies the bytes the source had before, whether or not the
    two regions overlap, and changes nothing else. *)
Theorem memmove_correct m d s n :
  (d + n <= length m)%nat -> (s + n <= length m)%nat ->
  memmove m d s n = splice d (slice s n m) m.
Proof.
  intros Hd Hs. unfold memmove.
  destruct (Nat.ltb_spec s d), (Nat.ltb_spec (d - s) n); simpl;
    try (apply memmove_forward; lia).
  pose proof (memmove_backward m d s n n Hd Hs) as Hb. rewrite Nat.sub_diag, !Nat.add_0_r in Hb.
  apply Hb; lia.
Qed.

Lemma memmove_correct_witness :
  memmove [1; 2; 3; 4; 5; 6] 2 0 4 = splice 2 [1; 2; 3; 4] [1; 2; 3; 4; 5; 6].
Proof. apply (memmove_correct [1; 2; 3; 4; 5; 6] 2 0 4); simpl; lia. Defined.

(** A name stored with [strncpy] is found with [strncmp]: comparing any
    string with the stored one over [n] characters gives 0 exactly when it has
    the same first [n] characters as the string stored. *)
Theorem strncpy_strncmp dest src s n :
  (n <= length dest)%nat -> (n <= length s)%nat ->
  strncmp s (strncpy dest src n) n = 0 <-> take n (cstr s) = take n (cstr src).
Proof.
  intros Hd Hs. rewrite strncmp_eq; [by rewrite take_cstr_strncpy|done|].
  rewrite strncpy_spec by done. rewrite !length_app, length_take, length_replicate. lia.
Qed.

Lemma strncpy_strncmp_witness :
  strncmp [97; 98; 0; 7; 7] (strncpy [9; 9; 9; 9] [97; 98; 0] 4) 4 = 0 <->
  take 4 (cstr [97; 98; 0; 7; 7]) = take 4 (cstr [97; 98; 0]).
Proof. apply (strncpy_strncmp [9; 9; 9; 9] [97; 98; 0] [97; 98; 0; 7; 7] 4); simpl; lia. Defined.

End CString.
