(* ===== verification/CList.v ===== *)
(** * Circular lists and reference counts (src/common/list.c, rc.c)

    A node is an address (0 is [NULL]); the store maps a node to its [prev]
    and [next]. [ring] says that nodes form one circular list, and the
    operations are shown to be the list operations that the other components
    use them for. *)
From S2P Require Import Prelude.

Module CList.

Record ListNode : Type := mkListNode { ln_prev : Z; ln_next : Z }.
Definition get_node (n : Z) : M (gmap Z ListNode) ListNode :=
  o ← gets (fun s => s !! n); from_option_M o.
Definition set_prev (n p : Z) : M (gmap Z ListNode) unit :=
  x ← get_node n; modify (<[n := mkListNode p (ln_next x)]>).
Definition set_next (n p : Z) : M (gmap Z ListNode) unit :=
  x ← get_node n; modify (<[n := mkListNode (ln_prev x) p]>).

(** The memory of [node] is there; its content is overwritten. *)
Definition init_list_node (node : Z) : M (gmap Z ListNode) unit :=
  set_prev node node;; set_next node node.

Definition merge_list (node1 node2 : Z) : M (gmap Z ListNode) Z :=
  if node1 =? 0 then mret node2
  else if node2 =? 0 then mret node1
  else
    x1 ← get_node node1;
    x2 ← get_node node2;
    let node3 := ln_next x1 in
    let node4 := ln_prev x2 in
    set_next node1 node2;;
    set_prev node2 node1;;
    set_next node4 node3;;
    set_prev node3 node4;;
    mret node1.

Definition detach_from_list (node : Z) : M (gmap Z ListNode) Z :=
  x ← get_node node;
  let prev := ln_prev x in
  set_next (ln_prev x) (ln_next x);;
  x ← get_node node;
  set_prev (ln_next x) (ln_prev x);;
  init_list_node node;;
  mret (if prev =? node then 0 else prev).

(** [RefCount]: an [isize], counted with atomic operations. *)
Definition init_rc : Z := 0.
Definition increment_rc (count : Z) : Z := i64 (count + 1).
Definition decrement_rc (count : Z) : Z * bool := let c := i64 (count - 1) in (c, c <=? 0).

(** ** Rings *)
Definition nx (s : (gmap Z ListNode)) (x : Z) : option Z := ln_next <$> (s !! x).
Definition pv (s : (gmap Z ListNode)) (x : Z) : option Z := ln_prev <$> (s !! x).

(** [y] follows [x]. *)
Definition adj (s : (gmap Z ListNode)) (x y : Z) : Prop := nx s x = Some y /\ pv s y = Some x.

(** Each node of [l] is followed by the next one, the last one by [z]. *)
Fixpoint chain (s : (gmap Z ListNode)) (l : list Z) (z : Z) : Prop :=
  match l with
  | [] => True
  | x :: l' => adj s x (hd z l') /\ chain s l' z
  end.

(** The nodes of [l], in this order, form one circular list. *)
Definition ring (s : (gmap Z ListNode)) (l : list Z) : Prop :=
  NoDup l /\ (0 ∉ l) /\ match l with [] => True | x :: _ => chain s l x end.

Lemma chain_frame s s' l z :
  (forall x, x ∈ l -> nx s' x = nx s x) -> (l <> [] -> forall y, y ∈ tail l \/ y = z -> pv s' y = pv s y) ->
  chain s l z -> chain s' l z.
Proof.
  induction l as [|x l IH]; intros Hn Hp; [done|]. simpl. intros [[Hx Hy] Hc]. split.
  - split; [rewrite Hn; [done|by left]|]. rewrite Hp; [done|done|].
    destruct l; simpl; [by right|left; by left].
  - apply IH; [intros; apply Hn; by right| |done]. intros Hl y Hyy. apply Hp; [done|]. simpl.
    destruct Hyy as [Hyy|Hyy]; [left|by right]. destruct l; [done|]. by right.
Qed.

Lemma chain_app s l1 l2 z : chain s (l1 ++ l2) z <-> chain s l1 (hd z l2) /\ chain s l2 z.
Proof.
  induction l1 as [|x l1 IH]; simpl; [tauto|]. rewrite IH.
  assert (hd z (l1 ++ l2) = hd (hd z l2) l1) as -> by (by destruct l1). tauto.
Qed.

Lemma chain_node s l z x : chain s l z -> x ∈ l -> is_Some (s !! x).
Proof.
  induction l as [|y l IH]; simpl; [by intros _ ?%not_elem_of_nil|].
  intros [[Hn _] Hc] [->|Hx]%elem_of_cons; [|by apply IH].
  unfold nx in Hn. destruct (s !! y); [by eexists|done].
Qed.

(** *** Stores *)
Lemma wp_get_node s n x (Q : ListNode -> (gmap Z ListNode) -> Prop) : s !! n = Some x -> Q x s -> wp (get_node n) Q s.
Proof. intros Hn HQ. unfold get_node. apply wp_bind, wp_gets. rewrite Hn. by apply wp_ret. Qed.

Lemma wp_set_next s n p (Q : unit -> (gmap Z ListNode) -> Prop) :
  is_Some (s !! n) ->
  (forall s', (forall x, nx s' x = if decide (x = n) then Some p else nx s x) -> (forall x, pv s' x = pv s x) ->
     (forall x, x <> n -> s' !! x = s !! x) -> Q tt s') ->
  wp (set_next n p) Q s.
Proof.
  intros [x Hx] HQ. unfold set_next. apply wp_bind, (wp_get_node s n x); [done|]. apply wp_modify, HQ.
  - intros y. unfold nx. destruct (decide (y = n)) as [->|Hy]; [by rewrite lookup_insert_eq|by rewrite lookup_insert_ne].
  - intros y. unfold pv. destruct (decide (y = n)) as [->|Hy]; [by rewrite lookup_insert_eq, Hx|by rewrite lookup_insert_ne].
  - intros y Hy. by rewrite lookup_insert_ne.
Qed.

Lemma wp_set_prev s n p (Q : unit -> (gmap Z ListNode) -> Prop) :
  is_Some (s !! n) ->
  (forall s', (forall x, pv s' x = if decide (x = n) then Some p else pv s x) -> (forall x, nx s' x = nx s x) ->
     (forall x, x <> n -> s' !! x = s !! x) -> Q tt s') ->
  wp (set_prev n p) Q s.
Proof.
  intros [x Hx] HQ. unfold set_prev. apply wp_bind, (wp_get_node s n x); [done|]. apply wp_modify, HQ.
  - intros y. unfold pv. destruct (decide (y = n)) as [->|Hy]; [by rewrite lookup_insert_eq|by rewrite lookup_insert_ne].
  - intros y. unfold nx. destruct (decide (y = n)) as [->|Hy]; [by rewrite lookup_insert_eq, Hx|by rewrite lookup_insert_ne].
  - intros y Hy. by rewrite lookup_insert_ne.
Qed.

Lemma nx_some s x y : nx s x = Some y -> is_Some (s !! x).
Proof. unfold nx. destruct (s !! x); [by eexists|done]. Qed.
Lemma pv_some s x y : pv s x = Some y -> is_Some (s !! x).
Proof. unfold pv. destruct (s !! x); [by eexists|done]. Qed.
Lemma nx_lookup s x r : s !! x = Some r -> nx s x = Some (ln_next r).
Proof. unfold nx. by intros ->. Qed.
Lemma pv_lookup s x r : s !! x = Some r -> pv s x = Some (ln_prev r).
Proof. unfold pv. by intros ->. Qed.
Lemma some_nx s s' x : nx s' x = nx s x -> is_Some (s !! x) -> is_Some (s' !! x).
Proof. unfold nx. intros H [r Hr]. rewrite Hr in H. destruct (s' !! x); [by eexists|done]. Qed.
Lemma some_pv s s' x : pv s' x = pv s x -> is_Some (s !! x) -> is_Some (s' !! x).
Proof. unfold pv. intros H [r Hr]. rewrite Hr in H. destruct (s' !! x); [by eexists|done]. Qed.

Lemma ring_last s u x : ring s (u ++ [x]) -> adj s x (hd x u) /\ chain s u x.
Proof.
  intros (_ & _ & Hc). destruct u as [|y u]; simpl in *; [by destruct Hc|].
  destruct Hc as [Ha Hc]. apply chain_app in Hc as [Hc1 [Hc2 _]]. simpl in *. split; [done|]. split; [|done].
  by destruct u.
Qed.

(** The links after [merge_list]. *)
Lemma merge_list_links s node1 node2 node3 node4 :
  node1 <> 0 -> node2 <> 0 -> nx s node1 = Some node3 -> pv s node2 = Some node4 ->
  is_Some (s !! node3) -> is_Some (s !! node4) -> node1 <> node4 -> node3 <> node2 ->
  wp (merge_list node1 node2) (fun r s' => r = node1 /\
    (forall x, nx s' x = if decide (x = node4) then Some node3 else if decide (x = node1) then Some node2 else nx s x) /\
    (forall x, pv s' x = if decide (x = node3) then Some node4 else if decide (x = node2) then Some node1 else pv s x) /\
    (forall x, x <> node1 -> x <> node2 -> x <> node3 -> x <> node4 -> s' !! x = s !! x)) s.
Proof.
  intros Hn1 Hn2 Hx1 Hp2 H3 H4 D1 D3.
  unfold merge_list. rewrite (proj2 (Z.eqb_neq _ _) Hn1), (proj2 (Z.eqb_neq _ _) Hn2).
  destruct (nx_some _ _ _ Hx1) as [x1 Hl1]. destruct (pv_some _ _ _ Hp2) as [x2 Hl2].
  pose proof (nx_lookup _ _ _ Hl1) as E1. rewrite Hx1 in E1. injection E1 as E1.
  pose proof (pv_lookup _ _ _ Hl2) as E2. rewrite Hp2 in E2. injection E2 as E2.
  apply wp_bind, (wp_get_node _ _ x1); [done|]. apply wp_bind, (wp_get_node _ _ x2); [done|]. rewrite <- E1, <- E2.
  apply wp_bind, wp_set_next; [by eexists|]. intros sa Na Pa Fa.
  apply wp_bind, wp_set_prev; [by eapply (some_pv s); [apply Pa|eexists]|]. intros sb Pb Nb Fb.
  apply wp_bind, wp_set_next.
  { apply (some_nx s); [rewrite Nb, Na; by rewrite decide_False|done]. }
  intros sc Nc Pc Fc. apply wp_bind, wp_set_prev.
  { apply (some_pv s); [rewrite Pc, Pb, decide_False by done; apply Pa|done]. }
  intros sd Pd Nd Fd. apply wp_ret. split_and!; [done| | |].
  - intros x. by rewrite Nd, Nc, Nb, Na.
  - intros x. by rewrite Pd, Pc, Pb, Pa.
  - intros x ? ? ? ?. by rewrite Fd, Fc, Fb, Fa.
Qed.

(** The second ring, cut open at its end. *)
Lemma merge_second s s' node1 node2 l2 node3 node4 u :
  NoDup (node2 :: l2) -> node2 :: l2 = u ++ [node4] -> chain s u node4 -> hd node4 u = node2 ->
  node1 ∉ node2 :: l2 -> node3 ∉ node2 :: l2 ->
  (forall x, nx s' x = if decide (x = node4) then Some node3 else if decide (x = node1) then Some node2 else nx s x) ->
  (forall x, pv s' x = if decide (x = node3) then Some node4 else if decide (x = node2) then Some node1 else pv s x) ->
  chain s' (node2 :: l2) node3.
Proof.
  intros Hnd2 Hu Hcu Hhd Hd1 Hd3 N P. rewrite Hu in *. apply chain_app. simpl.
  split; [|split; [split; [by rewrite N, decide_True|by rewrite P, decide_True]|done]].
  apply NoDup_app in Hnd2 as (Hndu & Hnu4 & _). eapply chain_frame; [| |exact Hcu].
  - intros x Hx. rewrite N, !decide_False; [done| |].
    + intros ->. apply Hd1, elem_of_app. by left.
    + intros ->. apply (Hnu4 node4 Hx). by left.
  - intros Hune y Hy. destruct u as [|a u]; [done|]. simpl in Hhd. subst a.
    assert (y ∈ (node2 :: u) ++ [node4]) as Hyin.
    { apply elem_of_app. simpl in Hy. destruct Hy as [Hy| ->]; [left; by right|right; by left]. }
    rewrite P, !decide_False; [done| |].
    + intros ->. destruct Hy as [Hy|Hy]; [apply NoDup_cons in Hndu as [? _]; done|].
      apply (Hnu4 node2); [by left|rewrite Hy; by left].
    + intros ->. done.
Qed.

Lemma merge_list_spec s node1 l1 node2 l2 :
  ring s (node1 :: l1) -> ring s (node2 :: l2) -> (forall x, x ∈ node1 :: l1 -> x ∈ node2 :: l2 -> False) ->
  exists s', merge_list node1 node2 s = Ok (node1, s') /\ ring s' (node1 :: node2 :: l2 ++ l1) /\
    forall x, x ∉ node1 :: l1 -> x ∉ node2 :: l2 -> s' !! x = s !! x.
Proof.
  intros H1 H2 Hdis. pose proof H1 as (Hnd1 & H01 & Hc1). pose proof H2 as (Hnd2 & H02 & Hc2).
  destruct (exists_last (l := node2 :: l2) ltac:(done)) as (u & node4 & Hu).
  rewrite Hu in H2. apply ring_last in H2 as [[Hn4 Hp2] Hcu].
  assert (hd node4 u = node2) as Hhd by (destruct u; simpl in *; congruence). rewrite Hhd in *.
  destruct Hc1 as [[Hx1 Hp3] Hct1]. set (node3 := hd node1 l1) in *.
  assert (node4 ∈ node2 :: l2) as Hin4 by (rewrite Hu; apply elem_of_app; right; by left).
  assert (node3 ∈ node1 :: l1) as Hin3 by (unfold node3; destruct l1; simpl; [by left|right; by left]).
  assert (forall x, x ∈ node1 :: l1 -> x ∉ node2 :: l2) as Hd by (intros x ? ?; by apply (Hdis x)).
  pose proof (Hd node1 (list_elem_of_here _ _)) as Hd1. pose proof (Hd node3 Hin3) as Hd3.
  assert (node1 <> 0 /\ node2 <> 0 /\ node1 <> node4 /\ node3 <> node2 /\ node1 <> node2) as (Hn1 & Hn2 & D1 & D3 & D2).
  { split_and!; intros Heq; [apply H01|apply H02|apply Hd1|apply Hd3|apply Hd1]; rewrite <- ?Heq in *; try done; try (by left). }
  pose proof (merge_list_links s node1 node2 node3 node4 Hn1 Hn2 Hx1 Hp2 (pv_some _ _ _ Hp3) (nx_some _ _ _ Hn4) D1 D3) as Hw.
  apply wp_ok in Hw as (r & sd & Heq & -> & N & P & F). exists sd. split; [done|]. split.
  - apply NoDup_cons in Hnd1 as [Hni1 Hnd1]. split_and!.
    + apply NoDup_cons. split.
      * change (node2 :: l2 ++ l1) with ((node2 :: l2) ++ l1). rewrite elem_of_app. intros [Hin|Hin]; [|done].
        apply (Hdis node1); [by left|done].
      * change (node2 :: l2 ++ l1) with ((node2 :: l2) ++ l1). apply NoDup_app. split_and!; try done.
        intros x Hx Hx'. apply (Hdis x); [by right|done].
    + change (node2 :: l2 ++ l1) with ((node2 :: l2) ++ l1). rewrite elem_of_cons, elem_of_app. set_solver.
    + split; [split; simpl; [rewrite N|rewrite P]; rewrite decide_False by done; by rewrite decide_True|].
      change (node2 :: l2 ++ l1) with ((node2 :: l2) ++ l1). apply chain_app. fold node3.
      split; [by apply (merge_second s sd node1 node2 l2 node3 node4 u)|].
      eapply chain_frame; [| |exact Hct1].
      * intros x Hx. rewrite N, !decide_False; [done| |].
        -- intros ->. done.
        -- intros ->. apply (Hdis node4); [by right|done].
      * intros Hne y Hy. destruct l1 as [|a l1]; [done|]. simpl in *. apply NoDup_cons in Hnd1 as [Hna _].
        rewrite P, !decide_False; [done| |].
        -- intros ->. apply (Hdis node2); [|by left]. destruct Hy as [Hy|Hy]; [right; by right|rewrite Hy; by left].
        -- unfold node3 in *. intros ->. destruct Hy as [Hy|Hy]; [done|]. apply Hni1. rewrite Hy. by left.
  - intros x Hx1' Hx2'. apply F; intros ->; try done; set_solver.
Qed.

(** The links after [detach_from_list]. *)
Lemma detach_links s node p n :
  nx s node = Some n -> pv s node = Some p -> nx s p = Some node -> pv s n = Some node ->
  wp (detach_from_list node) (fun r s' => r = (if p =? node then 0 else p) /\
    (forall x, nx s' x = if decide (x = node) then Some node else if decide (x = p) then Some n else nx s x) /\
    (forall x, pv s' x = if decide (x = node) then Some node else if decide (x = n) then Some p else pv s x) /\
    (forall x, x <> node -> x <> p -> x <> n -> s' !! x = s !! x)) s.
Proof.
  intros Hn Hp Hpn Hnp. destruct (nx_some _ _ _ Hn) as [r Hr].
  pose proof (nx_lookup _ _ _ Hr) as E1. rewrite Hn in E1. injection E1 as E1.
  pose proof (pv_lookup _ _ _ Hr) as E2. rewrite Hp in E2. injection E2 as E2.
  unfold detach_from_list. apply wp_bind, (wp_get_node _ _ r); [done|]. rewrite <- E1, <- E2.
  apply wp_bind, wp_set_next; [by eapply nx_some|]. intros sa Na Pa Fa.
  assert (is_Some (sa !! node)) as [ra Hra] by (eapply some_pv; [apply Pa|by eexists]).
  assert (ln_prev ra = p /\ ln_next ra = n) as [E3 E4].
  { pose proof (nx_lookup _ _ _ Hra) as E3. pose proof (pv_lookup _ _ _ Hra) as E4.
    rewrite Na in E3. rewrite Pa in E4. split; [congruence|]. case_decide; congruence. }
  apply wp_bind, (wp_get_node _ _ ra); [done|]. rewrite E3, E4.
  apply wp_bind, wp_set_prev; [by eapply some_pv; [apply Pa|eapply pv_some]|]. intros sb Pb Nb Fb.
  unfold init_list_node.
  apply wp_bind, wp_bind, wp_set_prev; [by eapply some_nx; [apply Nb|eexists]|]. intros sc Pc Nc Fc.
  apply wp_set_next; [eapply some_nx; [apply Nc|]; by eapply some_nx; [apply Nb|eexists]|]. intros sd Nd Pd Fd.
  apply wp_ret. split_and!; [done| | |].
  - intros x. rewrite Nd, Nc, Nb, Na. done.
  - intros x. rewrite Pd, Pc, Pb, Pa. done.
  - intros x ? ? ?. by rewrite Fd, Fc, Fb, Fa.
Qed.

Lemma detach_from_list_spec s node l :
  ring s (node :: l) ->
  exists s', detach_from_list node s = Ok (default 0 (last l), s') /\ ring s' [node] /\ ring s' l /\
    forall x, x ∉ node :: l -> s' !! x = s !! x.
Proof.
  intros (Hnd & H0 & Hc). pose proof Hc as [[Hn Hnp] Hcl].
  apply NoDup_cons in Hnd as [Hni Hnd].
  destruct l as [|a l' _] using rev_ind.
  - simpl in *. destruct (proj1 (wp_ok _ _ _) (detach_links s node node node Hn Hnp Hn Hnp)) as (r & s' & Heq & -> & N & P & F).
    exists s'. rewrite Heq, Z.eqb_refl. unfold ring. simpl. unfold adj. split_and!; try done.
    + apply NoDup_singleton.
    + by rewrite N, decide_True. + by rewrite P, decide_True.
    + apply not_elem_of_nil.
    + intros x Hx. rewrite list_elem_of_singleton in Hx. by apply F.
  - assert (ring s ((node :: l') ++ [a])) as Hr by (split_and!; [by apply NoDup_cons|done|done]).
    apply ring_last in Hr as [[Ha Hpa] Hcu]. simpl in Ha, Hpa.
    set (n := hd node (l' ++ [a])) in *.
    assert (n ∈ l' ++ [a]) as Hin by (unfold n; destruct l'; by left).
    assert (a ∈ l' ++ [a]) as Hia by (apply elem_of_app; right; by left).
    assert (a <> node /\ n <> node) as [Hane Hnne] by (split; intros ->; done).
    destruct (proj1 (wp_ok _ _ _) (detach_links s node a n Hn Hpa Ha Hnp)) as (r & s' & Heq & -> & N & P & F).
    exists s'. rewrite Heq, (proj2 (Z.eqb_neq a node)) by done. rewrite last_snoc. split; [done|]. split; [|split; [split; [done|split]|]].
    + split; [apply NoDup_singleton|]. split; [rewrite list_elem_of_singleton; intros <-; apply H0; by left|].
      split; [|done]. by split; [rewrite N, decide_True|rewrite P, decide_True].
    + intros H. apply H0. by right.
    + assert (chain s' (l' ++ [a]) n) as Hc'.
      { apply chain_app in Hcl as [Hc1 _]. simpl in Hc1. apply chain_app. simpl.
        apply NoDup_app in Hnd as (Hndl & Hdl & _). split.
        - eapply chain_frame; [| |exact Hc1].
          + intros x Hx. rewrite N, !decide_False; [done| |].
            * intros ->. apply (Hdl a Hx). by left.
            * intros ->. apply Hni, elem_of_app. by left.
          + intros Hne y Hy. destruct l' as [|b l']; [done|]. simpl in n. apply NoDup_cons in Hndl as [Hb _].
            rewrite P, !decide_False; [done| |].
            * unfold n. intros ->. destruct Hy as [Hy|Hy]; [done|]. apply (Hdl b); [by left|rewrite Hy; by left].
            * intros ->. apply Hni. simpl in Hy. destruct Hy as [Hy| Hy]; [right; apply elem_of_app; by left|by subst].
        - split; [|done]. split; [rewrite N|rewrite P]; rewrite decide_False by done; by rewrite decide_True. }
      destruct (l' ++ [a]) eqn:E; [by destruct l'|]. exact Hc'.
    + intros x Hx. apply F; intros ->; apply Hx; [by left|by right|by right].
Qed.

(** The operations on circular lists. [merge_list] joins two lists: the
    nodes of the second, from [node2] on, come right after [node1], followed by
    the rest of the first, and the result is [node1]. [detach_from_list] takes
    a node out: it becomes a list of its own, the others form the list that is
    left, in the same order, and the result is the node before it, or 0 when it
    was alone. Neither changes any other node. *)
Theorem list_ops_ring s node1 l1 :
  ring s (node1 :: l1) ->
  (forall node2 l2, ring s (node2 :: l2) -> (forall x, x ∈ node1 :: l1 -> x ∈ node2 :: l2 -> False) ->
     exists s', merge_list node1 node2 s = Ok (node1, s') /\ ring s' (node1 :: node2 :: l2 ++ l1) /\
       forall x, x ∉ node1 :: l1 -> x ∉ node2 :: l2 -> s' !! x = s !! x) /\
  (exists s', detach_from_list node1 s = Ok (default 0 (last l1), s') /\ ring s' [node1] /\ ring s' l1 /\
     forall x, x ∉ node1 :: l1 -> s' !! x = s !! x).
Proof. intros H. split; [intros node2 l2 H2 Hd; by apply merge_list_spec|by apply detach_from_list_spec]. Qed.

Lemma list_ops_ring_witness :
  let s := <[32 := mkListNode 32 32]> (<[8 := mkListNode 16 16]> {[16 := mkListNode 8 8]}) in
  (exists s', merge_list 8 32 s = Ok (8, s') /\ ring s' [8; 32; 16]) /\
  (exists s', detach_from_list 8 s = Ok (16, s') /\ ring s' [8] /\ ring s' [16]).
Proof.
  intros s. destruct (list_ops_ring s 8 [16]) as [Hm (s2 & H1 & H2 & H3 & _)].
  - split_and!; [|rewrite elem_of_cons, list_elem_of_singleton; lia|by repeat split].
    apply NoDup_cons. split; [by rewrite list_elem_of_singleton|apply NoDup_singleton].
  - destruct (Hm 32 []) as (s1 & H4 & H5 & _).
    + split_and!; [apply NoDup_singleton|by rewrite list_elem_of_singleton|by split].
    + intros x. rewrite elem_of_cons, !list_elem_of_singleton. lia.
    + split; [by exists s1|by exists s2].
Defined.

End CList.
