(* ===== verification/Arena.v ===== *)
(** * The object allocator (src/core/arena.h, arena.c)

    Objects of one size in pages: each page has a bitmap of its used objects,
    the pages of an arena form a circular list, and the pages with free
    objects come first. *)
From S2P Require Import Prelude Bitmap CList PhysMem.

Module Arena.
Import Bitmap CList PhysMem.

Definition ARENA_PAGE_SIZE : Z := PAGE_SIZE.
Definition ARENA_MIN_OBJECT_SIZE : Z := 16.
Definition ARENA_BITMAP_SIZE : Z := ARENA_PAGE_SIZE / ARENA_MIN_OBJECT_SIZE.
(** [arena] (8 bytes), [list] (16), [used] (32), [count] (8). *)
Definition sizeof_ArenaPage : Z := 64.
Definition ARENA_PAGE_CAPACITY : Z := ARENA_PAGE_SIZE - sizeof_ArenaPage.

(** The header of a page; its [list] is a node at [list_of page]. *)
Record ArenaPage : Type := mkArenaPage { ap_arena : Z; ap_used : list Z; ap_count : Z }.
Definition list_of (page : Z) : Z := page + 8.
(** [container_of(node, ArenaPage, list)] *)
Definition page_of (node : Z) : Z := node - 8.
(** [page->data] *)
Definition data_of (page : Z) : Z := page + sizeof_ArenaPage.

Record Arena : Type := mkArena {
  ar_lock : bool;
  ar_object_size : Z;
  ar_max_count : Z;
  ar_pages : Z;         (** 0 is [NULL] *)
  ar_num_objects : Z;
  ar_num_pages : Z
}.
Definition set_ar_lock (x : bool) (s : Arena) : Arena :=
  mkArena x (ar_object_size s) (ar_max_count s) (ar_pages s) (ar_num_objects s) (ar_num_pages s).
Definition set_ar_pages (x : Z) (s : Arena) : Arena :=
  mkArena (ar_lock s) (ar_object_size s) (ar_max_count s) x (ar_num_objects s) (ar_num_pages s).
Definition set_ar_num_objects (x : Z) (s : Arena) : Arena :=
  mkArena (ar_lock s) (ar_object_size s) (ar_max_count s) (ar_pages s) x (ar_num_pages s).
Definition set_ar_num_pages (x : Z) (s : Arena) : Arena :=
  mkArena (ar_lock s) (ar_object_size s) (ar_max_count s) (ar_pages s) (ar_num_objects s) x.

(** The arenas by address, the pages and list nodes in them, and the state of
    the page allocator. *)
Record astate (A : Type) : Type := mkAstate {
  as_arenas : gmap Z Arena;
  as_pg : gmap Z ArenaPage;
  as_nodes : gmap Z ListNode;
  as_alloc : A
}.
Arguments mkAstate {A}. Arguments as_arenas {A}. Arguments as_pg {A}. Arguments as_nodes {A}. Arguments as_alloc {A}.

Section arena.
(** [ArenaPageAllocator]: [kalloc] and [kfree] for all arenas of the kernel. *)
Context {A : Type} (allocate : M A Z) (free : Z -> M A unit).

Definition set_as_arenas (x : gmap Z Arena) (s : astate A) : astate A := mkAstate x (as_pg s) (as_nodes s) (as_alloc s).
Definition set_as_pg (x : gmap Z ArenaPage) (s : astate A) : astate A := mkAstate (as_arenas s) x (as_nodes s) (as_alloc s).
Definition set_as_nodes (x : gmap Z ListNode) (s : astate A) : astate A := mkAstate (as_arenas s) (as_pg s) x (as_alloc s).
Definition set_as_alloc (x : A) (s : astate A) : astate A := mkAstate (as_arenas s) (as_pg s) (as_nodes s) x.

Definition onnodes {B} (m : M (gmap Z ListNode) B) : M (astate A) B := lift as_nodes set_as_nodes m.
Definition onalloc {B} (m : M A B) : M (astate A) B := lift as_alloc set_as_alloc m.
Definition get_arena (a : Z) : M (astate A) Arena := o ← gets (fun s => as_arenas s !! a); from_option_M o.
Definition upd_arena (a : Z) (f : Arena -> Arena) : M (astate A) unit :=
  x ← get_arena a; modify (fun s => set_as_arenas (<[a := f x]> (as_arenas s)) s).
Definition get_page (p : Z) : M (astate A) ArenaPage := o ← gets (fun s => as_pg s !! p); from_option_M o.
Definition upd_page (p : Z) (f : ArenaPage -> ArenaPage) : M (astate A) unit :=
  x ← get_page p; modify (fun s => set_as_pg (<[p := f x]> (as_pg s)) s).
Definition acquire_arena (a : Z) : M (astate A) unit :=
  x ← get_arena a; assert_ (negb (ar_lock x));; upd_arena a (set_ar_lock true).
Definition release_arena (a : Z) : M (astate A) unit :=
  x ← get_arena a; assert_ (ar_lock x);; upd_arena a (set_ar_lock false).

Definition init_arena (arena object_size : Z) : M (astate A) unit :=
  assert_ (ARENA_MIN_OBJECT_SIZE <=? object_size);;
  assert_ (object_size <=? ARENA_PAGE_CAPACITY);;
  modify (fun s => set_as_arenas
    (<[arena := mkArena false object_size (ARENA_PAGE_CAPACITY / object_size) 0 0 0]> (as_arenas s)) s).

(** The loop that gives back the pages: at most [fuel] of them. A page that is
    given back is no [ArenaPage] any more. *)
Fixpoint clear_loop (fuel : nat) (head current : Z) : M (astate A) unit :=
  match fuel with
  | O => nofuel
  | S fuel' =>
      x ← onnodes (get_node current);
      let next := ln_next x in
      onalloc (free (page_of current));;
      modify (fun s => set_as_nodes (delete current (as_nodes s)) (set_as_pg (delete (page_of current) (as_pg s)) s));;
      if next =? head then mret tt else clear_loop fuel' head next
  end.

Definition clear_arena (arena : Z) : M (astate A) unit :=
  acquire_arena arena;;
  x ← get_arena arena;
  whenM (negb (ar_pages x =? 0))
    (n ← gets (fun s => size (as_pg s));
     clear_loop (S n) (list_of (ar_pages x)) (list_of (ar_pages x));;
     upd_arena arena (set_ar_pages 0);;
     upd_arena arena (set_ar_num_objects 0);;
     upd_arena arena (set_ar_num_pages 0));;
  release_arena arena.

(** The memory of [page] is an [ArenaPage] from here on; the bitmap is
    cleared, whatever it held. *)
Definition init_arena_page (arena page : Z) : M (astate A) unit :=
  modify (fun s => set_as_nodes (<[list_of page := mkListNode 0 0]> (as_nodes s)) s);;
  onnodes (init_list_node (list_of page));;
  modify (fun s => set_as_pg (<[page := mkArenaPage arena (init_bitmap [] ARENA_BITMAP_SIZE) 0]> (as_pg s)) s).

Definition insert_page (arena page : Z) : M (astate A) unit :=
  x ← get_arena arena;
  if negb (ar_pages x =? 0) then
    head ← onnodes (merge_list (list_of page) (list_of (ar_pages x)));
    upd_arena arena (set_ar_pages (page_of head))
  else upd_arena arena (set_ar_pages page).

Definition add_page (arena : Z) : M (astate A) Z :=
  page ← onalloc allocate;
  assert_ (page mod ARENA_PAGE_SIZE =? 0);;
  whenM (negb (page =? 0))
    (init_arena_page arena page;;
     insert_page arena page;;
     upd_arena arena (fun x => set_ar_num_pages (ar_num_pages x + 1) x));;
  mret page.

(** The loop of [alloc_object]: the index of the first free object. *)
Definition take_slot (arena page : Z) : M (astate A) (option Z) :=
  x ← get_arena arena;
  forM (Z.to_nat (ar_max_count x)) 0 1 (fun index =>
    p ← get_page page;
    if negb (bitmap_get (ap_used p) index) then
      upd_page page (fun p => mkArenaPage (ap_arena p) (bitmap_set (ap_used p) index) (ap_count p + 1));;
      upd_arena arena (fun x => set_ar_num_objects (ar_num_objects x + 1) x);;
      mret (Some (data_of page + index * ar_object_size x))
    else mret None).

Definition alloc_object (arena : Z) : M (astate A) Z :=
  acquire_arena arena;;
  x ← get_arena arena;
  need ← (if ar_pages x =? 0 then mret true
          else p ← get_page (ar_pages x); mret (ar_max_count x <=? ap_count p));
  whenM need (add_page arena;; mret tt);;
  x ← get_arena arena;
  let page := ar_pages x in
  o ← take_slot arena page;
  object ← from_option_M o;
  p ← get_page page;
  whenM (ar_max_count x <=? ap_count p)
    (n ← onnodes (get_node (list_of page)); upd_arena arena (set_ar_pages (page_of (ln_next n))));;
  release_arena arena;;
  mret object.

Definition get_container_page (object : Z) : Z := round_down object ARENA_PAGE_SIZE.

Definition move_page_to_head (arena page : Z) : M (astate A) unit :=
  x ← get_arena arena;
  whenM (negb (ar_pages x =? page)) (onnodes (detach_from_list (list_of page));; insert_page arena page).

Definition free_object (object : Z) : M (astate A) unit :=
  let page := get_container_page object in
  p ← get_page page;
  let arena := ap_arena p in
  acquire_arena arena;;
  x ← get_arena arena;
  let offset := u64 (object - data_of page) in
  assert_ (offset mod ar_object_size x =? 0);;
  let index := offset / ar_object_size x in
  p ← get_page page;
  assert_ (bitmap_get (ap_used p) index);;
  upd_page page (fun p => mkArenaPage (ap_arena p) (bitmap_clear (ap_used p) index) (ap_count p - 1));;
  upd_arena arena (fun x => set_ar_num_objects (ar_num_objects x - 1) x);;
  move_page_to_head arena page;;
  release_arena arena.

End arena.

(** ** [arena_test]

    The self test of the arena, over [kalloc] and [kfree]. An object is a
    [Payload]: a cookie, and 128 words of data. *)
Section arena_test.
(** The arena is a local variable; this is its address. *)
Context (arena : Z).

Definition sizeof_Payload : Z := 8 + 8 * 128.
Definition cookie_of (i : Z) : Z := u64 (i * 421922839).

Definition fill_payload (payload i : Z) : M (astate kmem) unit :=
  onalloc (wr64 payload (cookie_of i));;
  eachM (seqZ 0 128) (fun j => onalloc (wr64 (payload + 8 + 8 * j) (u64 (i * j)))).

(** The loop that allocates: [n] objects, from the number [i] on; [payloads]. *)
Fixpoint alloc_payloads (n : nat) (i : Z) : M (astate kmem) (list Z) :=
  match n with
  | O => mret []
  | S n' =>
      payload ← alloc_object kalloc arena;
      assert_ (negb (payload =? 0));;
      fill_payload payload i;;
      x ← get_arena arena;
      assert_ (ar_num_objects x =? i + 1);;
      payloads ← alloc_payloads n' (i + 1);
      mret (payload :: payloads)
  end.

(** [for (i = 0; i < 128; i += 2)] *)
Definition free_payloads (payloads : list Z) : M (astate kmem) unit :=
  eachM (seqZ 0 64) (fun k =>
    let i := 2 * k in
    let payload := payloads !!! Z.to_nat i in
    cookie ← onalloc (rd64 payload);
    assert_ (cookie =? cookie_of i);;
    free_object payload).

Definition arena_test : M (astate kmem) unit :=
  init_arena arena sizeof_Payload;;
  payloads ← alloc_payloads 128 0;
  free_payloads payloads;;
  x ← get_arena arena;
  assert_ (ar_num_objects x =? 64);;
  ptr ← alloc_object kalloc arena;
  assert_ (negb (ptr =? 0));;
  x ← get_arena arena;
  assert_ (ar_num_objects x =? 65);;
  clear_arena kfree arena.

(** The test in a kernel that has no arena but the one of the test. *)
Definition run_arena_test : M kmem unit := fun km =>
  match arena_test (mkAstate ∅ ∅ ∅ km) with
  | Ok (r, s) => Ok (r, as_alloc s)
  | Panic => Panic
  | Sleep => Sleep
  | Fuel => Fuel
  end.
End arena_test.
End Arena.
