(* ===== verification/ArenaFacts.v ===== *)
(** * Correctness of the object allocator (src/core/arena.c)

    The invariant of an arena, and that an allocated object is fresh and apart
    from all others. *)
From S2P Require Import Prelude Bitmap CList PhysMem Arena.

Module ArenaFacts.
Import Bitmap CList PhysMem Arena.

(** ** Rings can be cut anywhere *)
Lemma ring_rotate1 s x l : ring s (x :: l) -> ring s (l ++ [x]).
Proof.
  intros (Hnd & H0 & [Ha Hc]). split; [|split].
  - rewrite Permutation_app_comm. done.
  - rewrite elem_of_app, list_elem_of_singleton. rewrite elem_of_cons in H0. naive_solver.
  - destruct l as [|y l]; simpl in *; [done|]. destruct Hc as [Hy Hc]. split.
    + by destruct l.
    + apply chain_app. simpl. split; [done|]. split; [|done]. exact Ha.
Qed.

Lemma ring_rotate s l1 l2 : ring s (l1 ++ l2) -> ring s (l2 ++ l1).
Proof.
  revert l2. induction l1 as [|x l1 IH]; intros l2 H; [by rewrite app_nil_r|].
  replace (l2 ++ x :: l1) with ((l2 ++ [x]) ++ l1) by (by rewrite <- app_assoc). apply IH.
  rewrite app_assoc. by apply ring_rotate1.
Qed.

Lemma ring_next s x l : ring s (x :: l) -> exists n, s !! x = Some n /\ ln_next n = hd x l.
Proof.
  intros (_ & _ & [[Hn _] _]). unfold nx in Hn. destruct (s !! x) as [n|]; [|done]. exists n. split; [done|]. by injection Hn.
Qed.

Section facts.
Context {A : Type} (allocate : M A Z).
Implicit Types (s : astate A).

(** ** The invariant *)
Definition nobj (x : Arena) : nat := Z.to_nat (ar_max_count x).

Record page_good (n : nat) (a : Z) (pg : ArenaPage) : Prop := {
  pg_arena : ap_arena pg = a;
  pg_len : length (ap_used pg) = 4%nat;
  pg_count : ap_count pg = Z.of_nat (count_set (ap_used pg) n)
}.

(** The arena [x] at [a] has the pages [ps], from [arena->pages] on. *)
Record arena_core (b : bool) (a : Z) (s : astate A) (x : Arena) (ps : list Z) : Prop := {
  ac_arena : as_arenas s !! a = Some x;
  ac_lock : ar_lock x = b;
  ac_size : ARENA_MIN_OBJECT_SIZE <= ar_object_size x <= ARENA_PAGE_CAPACITY;
  ac_max : ar_max_count x = ARENA_PAGE_CAPACITY / ar_object_size x;
  ac_head : ar_pages x = hd 0 ps;
  ac_ring : ring (as_nodes s) (list_of <$> ps);
  ac_aligned : Forall page_ok ps;
  ac_pages : forall p, p ∈ ps -> exists pg, as_pg s !! p = Some pg /\ page_good (nobj x) a pg
}.

Definition full (s : astate A) (x : Arena) (p : Z) : Prop := exists pg, as_pg s !! p = Some pg /\ ap_count pg = ar_max_count x.

(** The pages with free objects come first. *)
Definition free_first (s : astate A) (x : Arena) (ps : list Z) : Prop :=
  exists l1 l2, ps = l1 ++ l2 /\ (forall p, p ∈ l1 -> ~ full s x p) /\ (forall p, p ∈ l2 -> full s x p).

Definition arena_ok (a : Z) (s : astate A) (x : Arena) (ps : list Z) : Prop :=
  arena_core false a s x ps /\ free_first s x ps.

(** The object [i] of the page [p] is in use; where it is. *)
Definition used_in (s : astate A) (p i : Z) : Prop := exists pg, as_pg s !! p = Some pg /\ bitmap_get (ap_used pg) i = true.
Definition object_at (x : Arena) (p i : Z) : Z := data_of p + i * ar_object_size x.

Lemma max_range b a s x ps : arena_core b a s x ps -> 1 <= ar_max_count x <= 252 /\ ar_max_count x * ar_object_size x <= ARENA_PAGE_CAPACITY.
Proof.
  intros Hc. pose proof (ac_size _ _ _ _ _ Hc) as Hs. rewrite (ac_max _ _ _ _ _ Hc).
  unfold ARENA_PAGE_CAPACITY, ARENA_MIN_OBJECT_SIZE, ARENA_PAGE_SIZE, PAGE_SIZE, sizeof_ArenaPage in *.
  Z.to_euclidean_division_equations. nia.
Qed.

Lemma count_bounds x a pg : page_good (nobj x) a pg -> 0 <= ar_max_count x -> 0 <= ap_count pg <= ar_max_count x.
Proof. intros [_ _ ->] H. pose proof (count_set_le (ap_used pg) (nobj x)). unfold nobj in *. lia. Qed.

(** Objects lie in the data of their page and do not overlap. *)
Lemma object_apart b a s x ps p i q j :
  arena_core b a s x ps -> page_ok p -> page_ok q -> 0 <= i < ar_max_count x -> 0 <= j < ar_max_count x -> (p, i) <> (q, j) ->
  object_at x p i + ar_object_size x <= object_at x q j \/ object_at x q j + ar_object_size x <= object_at x p i.
Proof.
  intros Hc Hp Hq Hi Hj Hne. destruct (max_range _ _ _ _ _ Hc) as [Hm Hcap]. pose proof (ac_size _ _ _ _ _ Hc) as Hs.
  unfold object_at, data_of, ARENA_PAGE_CAPACITY, ARENA_MIN_OBJECT_SIZE, ARENA_PAGE_SIZE, sizeof_ArenaPage in *.
  destruct (decide (p = q)) as [->|Hpq].
  - assert (i <> j) by congruence. nia.
  - pose proof (pages_disjoint p q Hp Hq Hpq) as Hd. unfold PAGE_SIZE in *.
    assert (0 <= i * ar_object_size x /\ i * ar_object_size x + ar_object_size x <= 4032) by nia.
    assert (0 <= j * ar_object_size x /\ j * ar_object_size x + ar_object_size x <= 4032) by nia. lia.
Qed.

(** *** Access *)
Lemma wp_get_arena s a x (Q : Arena -> astate A -> Prop) : as_arenas s !! a = Some x -> Q x s -> wp (get_arena a) Q s.
Proof. intros H HQ. unfold get_arena. apply wp_bind, wp_gets. rewrite H. by apply wp_ret. Qed.
Lemma wp_upd_arena s a x f (Q : unit -> astate A -> Prop) :
  as_arenas s !! a = Some x -> Q tt (set_as_arenas (<[a := f x]> (as_arenas s)) s) -> wp (upd_arena a f) Q s.
Proof. intros H HQ. unfold upd_arena. apply wp_bind, (wp_get_arena _ _ x); [done|]. by apply wp_modify. Qed.
Lemma wp_get_page s p pg (Q : ArenaPage -> astate A -> Prop) : as_pg s !! p = Some pg -> Q pg s -> wp (get_page p) Q s.
Proof. intros H HQ. unfold get_page. apply wp_bind, wp_gets. rewrite H. by apply wp_ret. Qed.
Lemma wp_upd_page s p pg f (Q : unit -> astate A -> Prop) :
  as_pg s !! p = Some pg -> Q tt (set_as_pg (<[p := f pg]> (as_pg s)) s) -> wp (upd_page p f) Q s.
Proof. intros H HQ. unfold upd_page. apply wp_bind, (wp_get_page _ _ pg); [done|]. by apply wp_modify. Qed.

(** A change of the arena's record that keeps its geometry and its head. *)
Definition same_arena (x y : Arena) : Prop :=
  ar_object_size y = ar_object_size x /\ ar_max_count y = ar_max_count x.
(** The same, with [k] more objects in use. *)
Definition grown (k : Z) (x y : Arena) : Prop := same_arena x y /\ ar_num_objects y = ar_num_objects x + k.

Lemma grown_trans j k x y z : grown j x y -> grown k y z -> grown (j + k) x z.
Proof. unfold grown, same_arena. intros [[? ?] ?] [[? ?] ?]. split; [split; congruence|lia]. Qed.
Lemma grown_same k x y : grown k x y -> same_arena x y.
Proof. by intros []. Qed.

Lemma core_arena b b' a s x y ps :
  arena_core b a s x ps -> same_arena x y -> ar_lock y = b' -> ar_pages y = hd 0 ps ->
  arena_core b' a (set_as_arenas (<[a := y]> (as_arenas s)) s) y ps.
Proof.
  intros [] [Hs Hm] Hl Hh. split; simpl; try done.
  - apply lookup_insert_eq.
  - by rewrite Hs.
  - by rewrite Hs, Hm.
  - intros p Hp. destruct (ac_pages0 p Hp) as (pg & Hpg & [H1 H2 H3]). exists pg. split; [done|]. split; try done.
    unfold nobj. by rewrite Hm.
Qed.

Lemma core_page b a s x ps p pg :
  arena_core b a s x ps -> page_good (nobj x) a pg -> arena_core b a (set_as_pg (<[p := pg]> (as_pg s)) s) x ps.
Proof.
  intros [] Hg. split; simpl; try done. intros q Hq. destruct (decide (q = p)) as [->|Hn].
  - rewrite lookup_insert_eq. by exists pg.
  - rewrite lookup_insert_ne by done. by apply ac_pages0.
Qed.

Lemma list_of_inj : Inj (=) (=) list_of.
Proof. intros p q. unfold list_of. lia. Qed.

(** ** Adding a page *)
Definition fresh_page (s : astate A) (q : Z) : Prop := page_ok q /\ as_pg s !! q = None.

Definition empty_page (a : Z) : ArenaPage := mkArenaPage a (init_bitmap [] ARENA_BITMAP_SIZE) 0.

Lemma empty_page_good x a : 1 <= ar_max_count x <= 252 -> page_good (nobj x) a (empty_page a).
Proof.
  intros Hm. split; [done|done|]. simpl. rewrite count_set_init; [done|].
  change ARENA_BITMAP_SIZE with 256. unfold nobj. lia.
Qed.

Lemma ring_frame (n n' : gmap Z ListNode) l : (forall y, y ∈ l -> n' !! y = n !! y) -> ring n l -> ring n' l.
Proof.
  intros H (Hnd & H0 & Hc). split; [done|]. split; [done|]. destruct l as [|x l]; [done|].
  eapply chain_frame; [| |exact Hc].
  - intros y Hy. unfold nx. by rewrite H.
  - intros _ y Hy. unfold pv. rewrite H; [done|]. destruct Hy as [Hy| ->]; [by right|by left].
Qed.

Lemma init_nodes_ok (n : gmap Z ListNode) q : q <> 0 ->
  wp (init_list_node q) (fun _ n' => ring n' [q] /\ forall y, y <> q -> n' !! y = n !! y) (<[q := mkListNode 0 0]> n).
Proof.
  intros Hq. unfold init_list_node. apply wp_bind, wp_set_prev; [rewrite lookup_insert_eq; by eexists|]. intros s1 P1 N1 F1.
  apply wp_set_next; [eapply some_nx; [apply N1|rewrite lookup_insert_eq; by eexists]|]. intros s2 N2 P2 F2. split.
  - split; [apply NoDup_singleton|]. split; [by rewrite list_elem_of_singleton|].
    split; [|done]. split; [by rewrite N2, decide_True|by rewrite P2, P1, decide_True].
  - intros y Hy. rewrite F2, F1 by done. by rewrite lookup_insert_ne.
Qed.

(** Entering a page that is a ring of its own at the head of the list. *)
Lemma insert_page_ok b a s x ps q pg :
  arena_core b a s x ps -> page_ok q -> q ∉ ps -> as_pg s !! q = Some pg -> page_good (nobj x) a pg -> ring (as_nodes s) [list_of q] ->
  wp (insert_page a q) (fun _ s' => arena_core b a s' (set_ar_pages q x) (q :: ps) /\ as_pg s' = as_pg s /\
    as_alloc s' = as_alloc s) s.
Proof.
  intros Hc Hq Hqn Hpg Hgood Hr. pose proof Hc as [Ha Hlk Hsz Hmx Hh Hring Hal Hpages].
  assert (forall s' , as_arenas s' = <[a := set_ar_pages q x]> (as_arenas s) -> as_pg s' = as_pg s ->
    ring (as_nodes s') (list_of <$> (q :: ps)) -> arena_core b a s' (set_ar_pages q x) (q :: ps)) as Hend.
  { intros s' Es Ep Er. split; simpl; try done.
    - rewrite Es. apply lookup_insert_eq.
    - by apply Forall_cons.
    - intros p [->|Hp]%elem_of_cons; rewrite Ep; [by exists pg|]. by apply Hpages. }
  unfold insert_page. apply wp_bind, (wp_get_arena _ _ x); [done|]. rewrite Hh.
  destruct ps as [|p l].
  - simpl. apply (wp_upd_arena _ _ x); [done|]. split; [|done]. by apply Hend.
  - simpl hd. apply Forall_cons in Hal as [Hp Hl]. pose proof Hp as (_ & Hp0 & _).
    rewrite (proj2 (Z.eqb_neq p 0)) by lia. simpl.
    destruct (merge_list_spec (as_nodes s) (list_of q) [] (list_of p) (fmap (M:=list) list_of l) Hr Hring) as (n' & Hm & Hr' & _).
    { intros y Hy Hy'. rewrite list_elem_of_singleton in Hy. subst y.
      change (list_of q ∈ (list_of <$> p :: l)) in Hy'. apply list_elem_of_fmap in Hy' as (z & Ez & Hz).
      apply list_of_inj in Ez as ->. done. }
    apply wp_bind. unfold onnodes. apply wp_lift. unfold wp. rewrite Hm.
    replace (page_of (list_of q)) with q by (unfold page_of, list_of; lia).
    apply (wp_upd_arena _ _ x); [done|]. split; [|done]. apply Hend; [done|done|]. simpl. by rewrite app_nil_r in Hr'.
Qed.

Lemma add_page_ok b a s x ps q al :
  arena_core b a s x ps -> allocate (as_alloc s) = Ok (q, al) -> fresh_page s q ->
  wp (add_page allocate a) (fun _ s' => exists x', arena_core b a s' x' (q :: ps) /\ grown 0 x x' /\
    as_pg s' = <[q := empty_page a]> (as_pg s) /\ as_alloc s' = al) s.
Proof.
  intros Hc Hal [Hq Hfresh]. pose proof Hq as (Hq4 & Hq0 & _).
  assert (q ∉ ps) as Hqn by (intros H; destruct (ac_pages _ _ _ _ _ Hc q H) as (pg & Hpg & _); congruence).
  assert (list_of q ∉ (list_of <$> ps)) as Hqn'.
  { intros (z & Ez & Hz)%list_elem_of_fmap. apply list_of_inj in Ez as ->. done. }
  unfold add_page. apply wp_bind. unfold onalloc. apply wp_lift. unfold wp. rewrite Hal.
  apply wp_bind, wp_assert; [by apply Z.eqb_eq|]. rewrite (proj2 (Z.eqb_neq q 0)) by lia. apply wp_bind. simpl whenM.
  unfold init_arena_page. apply wp_bind, wp_bind, wp_modify, wp_bind. apply wp_lift.
  eapply wp_mono; [apply (init_nodes_ok (as_nodes s) (list_of q)); unfold list_of; lia|]. intros [] n' [Hr Hf].
  apply wp_modify, wp_bind.
  set (s1 := set_as_pg _ _).
  assert (arena_core b a s1 x ps) as Hc1.
  { destruct Hc as [? ? ? ? ? Hring ? Hpages]. split; try done.
    - eapply ring_frame; [|exact Hring]. intros y Hy. apply Hf. intros ->. done.
    - intros p Hp. destruct (Hpages p Hp) as (pg & Hpg & Hg). exists pg. split; [|done]. simpl. rewrite lookup_insert_ne; [done|congruence]. }
  eapply wp_mono; [apply (insert_page_ok b a s1 x ps q (empty_page a)); try done|].
  { apply lookup_insert_eq. } { apply empty_page_good. by eapply max_range. }
  intros [] s2 (Hc2 & Hp2 & Ha2).
  eapply wp_upd_arena; [by eapply ac_arena|]. apply wp_ret. eexists. split; [|split; [|by split]].
  - eapply core_arena; [exact Hc2|by split|simpl; by eapply ac_lock|done].
  - split; [by split|]. simpl. lia.
Qed.

(** ** Taking an object *)
Lemma take_slot_ok b a s x p l pg :
  arena_core b a s x (p :: l) -> as_pg s !! p = Some pg -> ap_count pg < ar_max_count x ->
  wp (take_slot a p) (fun o s' => exists i x', 0 <= i < ar_max_count x /\ o = Some (object_at x p i) /\
    bitmap_get (ap_used pg) i = false /\ arena_core b a s' x' (p :: l) /\ grown 1 x x' /\
    as_pg s' = <[p := mkArenaPage (ap_arena pg) (bitmap_set (ap_used pg) i) (ap_count pg + 1)]> (as_pg s) /\ as_alloc s' = as_alloc s) s.
Proof.
  intros Hc Hpg Hlt. destruct (max_range _ _ _ _ _ Hc) as [Hm _].
  destruct (ac_pages _ _ _ _ _ Hc p) as (pg' & Hpg' & Hg); [by left|]. assert (pg' = pg) as -> by congruence.
  unfold take_slot. apply wp_bind, (wp_get_arena _ _ x); [by eapply ac_arena|].
  apply (wp_forM _ _ _ _ (fun k s' => s' = s /\ forall j, 0 <= j < k -> bitmap_get (ap_used pg) j = true)).
  - split; [done|]. intros j Hj. lia.
  - intros k s' Hk [-> Hset]. rewrite Z.mul_1_l, Z.add_0_l in *.
    apply wp_bind, (wp_get_page _ _ pg); [done|]. destruct (bitmap_get (ap_used pg) (Z.of_nat k)) eqn:E; simpl.
    + apply wp_ret. split; [done|]. intros j Hj. destruct (decide (j = Z.of_nat k)) as [->|]; [done|]. apply Hset. lia.
    + apply wp_bind, (wp_upd_page _ _ pg); [done|]. apply wp_bind, (wp_upd_arena _ _ x); [exact (ac_arena _ _ _ _ _ Hc)|].
      apply wp_ret. exists (Z.of_nat k), (set_ar_num_objects (ar_num_objects x + 1) x). split; [lia|]. split; [done|]. split; [done|]. split; [|split; [|by split]].
      2: { by split. }
      destruct Hg as [Hga Hgl Hgc].
      assert (in_bitmap (ap_used pg) (Z.of_nat k)) as Hib.
      { unfold in_bitmap, BITMAP_BITS_PER_CELL. rewrite Hgl. lia. }
      apply (core_page b a (set_as_arenas _ s) _ (p :: l)).
      * apply (core_arena b b a s x); [exact Hc|by split|exact (ac_lock _ _ _ _ _ Hc)|exact (ac_head _ _ _ _ _ Hc)].
      * split; simpl; [done|by rewrite length_bitmap_set|].
        unfold nobj in *. simpl ar_max_count. rewrite count_set_bitmap_set; [lia|lia|done|done].
  - intros s' [-> Hall]. exfalso. destruct Hg as [Hga Hgl Hgc]. unfold nobj in Hgc.
    pose proof (count_set_ge (ap_used pg) (Z.to_nat (ar_max_count x)) (Z.to_nat (ar_max_count x)) ltac:(lia)) as Hge.
    specialize (Hge ltac:(intros j Hj; apply Hall; lia)). lia.
Qed.

(** After [arena->pages] moves on from a page that became full. *)
Lemma rotate_core b a s x p l :
  arena_core b a s x (p :: l) ->
  wp (n ← onnodes (get_node (list_of p)); upd_arena a (set_ar_pages (page_of (ln_next n))))
    (fun _ s' => exists x', arena_core b a s' x' (l ++ [p]) /\ grown 0 x x' /\ as_pg s' = as_pg s /\ as_alloc s' = as_alloc s) s.
Proof.
  intros Hc. pose proof Hc as [Ha Hlk Hsz Hmx Hh Hring Hal Hpages].
  destruct (ring_next _ _ _ Hring) as (n & Hn & En).
  apply wp_bind. unfold onnodes. apply wp_lift, (wp_get_node _ _ n); [done|].
  apply (wp_upd_arena _ _ x); [done|]. exists (set_ar_pages (page_of (ln_next n)) x). split; [|split; [split; [by split|simpl; lia]|by split]].
  split; simpl; try done.
  - apply lookup_insert_eq.
  - rewrite En. destruct l; simpl; unfold page_of, list_of; lia.
  - rewrite fmap_app. by apply ring_rotate1.
  - apply Forall_cons in Hal as [??]. apply Forall_app. split; [done|]. by apply Forall_singleton.
  - intros q Hq. apply Hpages. by rewrite Permutation_app_comm in Hq.
Qed.

Lemma acquire_core a s x ps : arena_core false a s x ps ->
  wp (acquire_arena a) (fun _ s' => arena_core true a s' (set_ar_lock true x) ps /\ as_pg s' = as_pg s /\ as_alloc s' = as_alloc s) s.
Proof.
  intros Hc. unfold acquire_arena. apply wp_bind, (wp_get_arena _ _ x); [by eapply ac_arena|].
  apply wp_bind, wp_assert; [by rewrite (ac_lock _ _ _ _ _ Hc)|]. apply (wp_upd_arena _ _ x); [by eapply ac_arena|].
  split; [|done]. eapply core_arena; [exact Hc|by split|done|exact (ac_head _ _ _ _ _ Hc)].
Qed.

Lemma release_core a s x ps : arena_core true a s x ps ->
  wp (release_arena a) (fun _ s' => arena_core false a s' (set_ar_lock false x) ps /\ as_pg s' = as_pg s /\ as_alloc s' = as_alloc s) s.
Proof.
  intros Hc. unfold release_arena. apply wp_bind, (wp_get_arena _ _ x); [by eapply ac_arena|].
  apply wp_bind, wp_assert; [by rewrite (ac_lock _ _ _ _ _ Hc)|]. apply (wp_upd_arena _ _ x); [by eapply ac_arena|].
  split; [|done]. eapply core_arena; [exact Hc|by split|done|exact (ac_head _ _ _ _ _ Hc)].
Qed.

(** ** Allocation *)
Lemma full_dec s x p pg : as_pg s !! p = Some pg -> full s x p <-> ap_count pg = ar_max_count x.
Proof. intros H. split; [intros (pg' & H' & E); congruence|]. by exists pg. Qed.

Lemma full_frame s s' x x' p : as_pg s' !! p = as_pg s !! p -> same_arena x x' -> full s' x' p <-> full s x p.
Proof. intros H [_ Hm]. unfold full. by rewrite H, Hm. Qed.

(** If the head is full, all pages are. *)
Lemma free_first_full s x ps : free_first s x ps -> (ps = [] \/ full s x (hd 0 ps)) -> forall p, p ∈ ps -> full s x p.
Proof.
  intros (l1 & l2 & -> & H1 & H2) H p Hp. destruct l1 as [|q l1]; [by apply H2|].
  destruct H as [H|H]; [done|]. exfalso. apply (H1 q); [by left|done].
Qed.

Lemma free_first_cons s x p l : free_first s x l -> ~ full s x p -> free_first s x (p :: l).
Proof.
  intros (l1 & l2 & -> & H1 & H2) Hp. exists (p :: l1), l2. split; [done|]. split; [|done].
  by intros q [->|Hq]%elem_of_cons; [|apply H1].
Qed.

Lemma free_first_tail s x p l : free_first s x (p :: l) -> ~ full s x p -> free_first s x l.
Proof.
  intros (l1 & l2 & E & H1 & H2) Hp. destruct l1 as [|q l1].
  - simpl in E. subst l2. destruct Hp. apply H2. by left.
  - injection E as -> ->. exists l1, l2. split; [done|]. split; [|done]. intros z Hz. apply H1. by right.
Qed.

Lemma free_first_snoc s x p l : free_first s x l -> full s x p -> free_first s x (l ++ [p]).
Proof.
  intros (l1 & l2 & -> & H1 & H2) Hp. exists l1, (l2 ++ [p]). split; [by rewrite app_assoc|]. split; [done|].
  intros q [Hq|Hq]%elem_of_app; [by apply H2|]. by apply list_elem_of_singleton in Hq as ->.
Qed.

Lemma free_first_frame s s' x x' l :
  (forall p, p ∈ l -> as_pg s' !! p = as_pg s !! p) -> same_arena x x' -> free_first s x l -> free_first s' x' l.
Proof.
  intros H Hs (l1 & l2 & -> & H1 & H2). exists l1, l2. split; [done|].
  split; intros p Hp; rewrite (full_frame s s' x x' p); auto; apply H; apply elem_of_app; auto.
Qed.

Lemma core_NoDup b a s x ps : arena_core b a s x ps -> NoDup ps.
Proof. intros Hc. destruct (ac_ring _ _ _ _ _ Hc) as [Hnd _]. eapply NoDup_fmap_1; exact Hnd. Qed.

Lemma page_ne0 p : page_ok p -> p <> 0.
Proof. intros (_ & ? & _). lia. Qed.

(** The head of the list is a page with a free object, a new one if needed. *)
Definition ready (a : Z) (x : Arena) (ps : list Z) (s s' : astate A) (x' : Arena) (p : Z) (l : list Z) : Prop :=
  arena_core true a s' x' (p :: l) /\ grown 0 x x' /\ ~ full s' x' p /\ free_first s' x' l /\
  ((p :: l = ps /\ as_pg s' = as_pg s /\ as_alloc s' = as_alloc s) \/
   (l = ps /\ (forall q, q ∈ ps -> full s x q) /\ fresh_page s p /\ as_pg s' = <[p := empty_page a]> (as_pg s) /\
    allocate (as_alloc s) = Ok (p, as_alloc s'))).

Lemma make_ready a s x ps (Q : unit -> astate A -> Prop) :
  arena_core true a s x ps -> free_first s x ps ->
  ((forall p, p ∈ ps -> full s x p) -> exists q al, allocate (as_alloc s) = Ok (q, al) /\ fresh_page s q) ->
  (forall s' x' p l, ready a x ps s s' x' p l -> Q tt s') ->
  wp (need ← (if ar_pages x =? 0 then mret true else p ← get_page (ar_pages x); mret (ar_max_count x <=? ap_count p));
      whenM need (add_page allocate a;; mret tt)) Q s.
Proof.
  intros Hc Hff Hal HQ. destruct (max_range _ _ _ _ _ Hc) as [Hm _].
  assert (forall b, (b = true -> forall p, p ∈ ps -> full s x p) ->
    (b = false -> exists p l, ps = p :: l /\ ~ full s x p) -> wp (whenM b (add_page allocate a;; mret tt)) Q s) as Hmain.
  { intros [] Ht Hf; simpl.
    - destruct (Hal (Ht eq_refl)) as (q & al & Hq & Hfr). apply wp_bind.
      eapply wp_mono; [apply (add_page_ok true a s x ps q al Hc Hq Hfr)|]. intros _ s' (x' & Hc' & Hs & Hp & Ha). apply wp_ret.
      apply (HQ s' x' q ps). split; [done|]. split; [done|]. split; [|split; [|right; split; [done|]]].
      + rewrite (full_dec _ _ _ (empty_page a)) by (rewrite Hp; apply lookup_insert_eq). destruct Hs as [[_ ->] _]. simpl. lia.
      + eapply free_first_frame; [|exact (grown_same _ _ _ Hs)|exact Hff]. intros p Hp'. rewrite Hp. apply lookup_insert_ne.
        destruct Hfr as [_ Hfr]. destruct (ac_pages _ _ _ _ _ Hc p Hp') as (pg & Hpg & _). congruence.
      + split; [by apply Ht|]. split; [done|]. by rewrite Ha.
    - destruct (Hf eq_refl) as (p & l & -> & Hnf). apply (HQ s x p l). split; [done|]. split; [split; [by split|lia]|].
      split; [done|]. split; [by eapply free_first_tail|]. by left. }
  apply wp_bind. rewrite (ac_head _ _ _ _ _ Hc). destruct ps as [|p l].
  - simpl. apply Hmain; [|done]. intros _ p Hp%not_elem_of_nil. done.
  - simpl. assert (page_ok p) as Hp by (pose proof (ac_aligned _ _ _ _ _ Hc) as Hf; by apply Forall_cons in Hf as [? _]).
    rewrite (proj2 (Z.eqb_neq p 0)) by (by apply page_ne0).
    destruct (ac_pages _ _ _ _ _ Hc p) as (pg & Hpg & Hg); [by left|]. apply wp_bind, (wp_get_page _ _ pg); [done|]. apply wp_ret.
    pose proof (count_bounds x a pg Hg ltac:(lia)) as Hb. apply Hmain; intros E.
    + apply Z.leb_le in E. apply (free_first_full s x (p :: l) Hff). right. apply (full_dec _ _ _ pg); [done|lia].
    + apply Z.leb_gt in E. exists p, l. split; [done|]. rewrite (full_dec _ _ _ pg) by done. lia.
Qed.

Lemma wp_assoc {St B C D} (m : M St B) (f : B -> M St C) (g : C -> M St D) Q (s : St) :
  wp ((m ≫= f) ≫= g) Q s -> wp (m ≫= fun b => f b ≫= g) Q s.
Proof. unfold wp, mbind, M_bind. by destruct (m s) as [[]| | |]. Qed.

Definition taken (x : Arena) (s s' : astate A) (p i : Z) : Prop :=
  ~ used_in s p i /\ forall q j, 0 <= j < ar_max_count x -> used_in s' q j <-> (q, j) = (p, i) \/ used_in s q j.

Lemma taken_slot x s s1 p i pg a :
  as_pg s !! p = Some pg -> page_good (nobj x) a pg -> 0 <= i < 256 -> bitmap_get (ap_used pg) i = false ->
  as_pg s1 = <[p := mkArenaPage (ap_arena pg) (bitmap_set (ap_used pg) i) (ap_count pg + 1)]> (as_pg s) ->
  taken x s s1 p i.
Proof.
  intros Hpg [_ Hl _] Hi Hfree Hp1.
  assert (in_bitmap (ap_used pg) i) by (unfold in_bitmap, BITMAP_BITS_PER_CELL; rewrite Hl; lia).
  split; [intros (pg' & H1 & H2); congruence|]. intros q j Hj. unfold used_in. rewrite Hp1. destruct (decide (q = p)) as [->|Hn].
  - rewrite lookup_insert_eq. split.
    + intros (pg' & E & Hget). injection E as <-. simpl in Hget. rewrite bitmap_get_set in Hget by (done || lia).
      destruct (Z.eqb_spec i j) as [->|Hne]; [by left|]. right. by exists pg.
    + intros H1. eexists. split; [done|]. simpl. rewrite bitmap_get_set by (done || lia). apply orb_true_iff.
      destruct H1 as [E|(pg' & E & Hget)]; [left; apply Z.eqb_eq; congruence|]. right. congruence.
  - rewrite lookup_insert_ne by done. split; [by right|]. intros [E|H1]; [congruence|done].
Qed.

(** Of the pages only [p] has changed, and the allocator has not. *)
Definition page_change (s s' : astate A) (p : Z) : Prop :=
  (exists pg, as_pg s' = <[p := pg]> (as_pg s)) /\ as_alloc s' = as_alloc s.

(** What [alloc_object] has done when it returns. *)
Definition allocated (a : Z) (s : astate A) (x : Arena) (p : Z) (l : list Z) (o : Z) (s' : astate A) : Prop :=
  exists x' ps' i, o = object_at x p i /\ 0 <= i < ar_max_count x /\ arena_ok a s' x' ps' /\ grown 1 x x' /\
    ps' ≡ₚ p :: l /\ taken x s s' p i /\ page_change s s' p.

Lemma alloc_finish a s s1 x x1 ps' p l i :
  arena_core true a s1 x1 ps' -> grown 1 x x1 -> free_first s1 x1 ps' -> ps' ≡ₚ p :: l -> 0 <= i < ar_max_count x -> taken x s s1 p i ->
  page_change s s1 p -> wp (release_arena a;; mret (object_at x p i)) (allocated a s x p l) s1.
Proof.
  intros Hc Hs Hff Hperm Hi Htk Hpc. apply wp_bind. eapply wp_mono; [by apply release_core|].
  intros _ s3 (Hc3 & Hp3 & Ha3). apply wp_ret. exists (set_ar_lock false x1), ps', i.
  split; [done|]. split; [done|]. split; [|split; [done|split; [done|split]]].
  - split; [done|]. eapply free_first_frame; [|by split|exact Hff]. by rewrite Hp3.
  - unfold taken, used_in in *. rewrite Hp3. exact Htk.
  - unfold page_change in *. by rewrite Hp3, Ha3.
Qed.

(** The rest of [alloc_object] once the head has a free object. *)
Lemma alloc_rest_ok a s x p l :
  arena_core true a s x (p :: l) -> ~ full s x p -> free_first s x l ->
  wp (o ← take_slot a p; object ← from_option_M o; pg ← get_page p;
      whenM (ar_max_count x <=? ap_count pg)
        (n ← onnodes (get_node (list_of p)); upd_arena a (set_ar_pages (page_of (ln_next n))));;
      release_arena a;; mret object)
    (allocated a s x p l) s.
Proof.
  intros Hc Hnf Hff. destruct (max_range _ _ _ _ _ Hc) as [Hm _].
  destruct (ac_pages _ _ _ _ _ Hc p) as (pg & Hpg & Hg); [by left|].
  pose proof (count_bounds x a pg Hg ltac:(lia)) as Hb. rewrite (full_dec _ _ _ pg Hpg) in Hnf.
  apply wp_bind. eapply wp_mono; [apply (take_slot_ok true a s x p l pg Hc Hpg); lia|].
  intros o s1 (i & x1 & Hi & -> & Hfree & Hc1 & Hs1 & Hp1 & Ha1).
  apply wp_bind, wp_ret. set (pg1 := mkArenaPage _ _ _) in Hp1.
  assert (as_pg s1 !! p = Some pg1) as Hpg1 by (rewrite Hp1; apply lookup_insert_eq).
  apply wp_bind, (wp_get_page _ _ pg1); [done|].
  pose proof (taken_slot x s s1 p i pg a Hpg Hg ltac:(lia) Hfree Hp1) as Htk.
  assert (free_first s1 x1 l) as Hff1.
  { eapply free_first_frame; [|exact (grown_same _ _ _ Hs1)|exact Hff]. intros q Hq. rewrite Hp1. apply lookup_insert_ne.
    intros <-. pose proof (core_NoDup _ _ _ _ _ Hc) as Hnd. by apply NoDup_cons in Hnd as [? _]. }
  assert (full s1 x1 p <-> ap_count pg + 1 = ar_max_count x) as Hfull.
  { rewrite (full_dec _ _ _ pg1 Hpg1). destruct Hs1 as [[_ ->] _]. done. }
  assert (page_change s s1 p) as Hpc by (split; [by eexists|done]).
  apply wp_bind. simpl ap_count. destruct (Z.leb_spec (ar_max_count x) (ap_count pg + 1)) as [Hle|Hgt]; simpl.
  - eapply wp_mono; [by apply rotate_core|]. intros _ s2 (x2 & Hc2 & Hs2 & Hp2 & Ha2).
    apply (alloc_finish a s s2 x x2 (l ++ [p])); try done.
    + exact (grown_trans _ _ _ _ _ Hs1 Hs2).
    + apply free_first_snoc.
      * eapply free_first_frame; [|exact (grown_same _ _ _ Hs2)|exact Hff1]. by rewrite Hp2.
      * rewrite (full_frame s1 s2 x1 x2); [|by rewrite Hp2|exact (grown_same _ _ _ Hs2)]. apply Hfull. lia.
    + by rewrite Permutation_app_comm.
    + unfold taken, used_in in *. rewrite Hp2. exact Htk.
    + unfold page_change in *. by rewrite Hp2, Ha2.
  - apply wp_ret, (alloc_finish a s s1 x x1 (p :: l)); try done. apply free_first_cons; [done|]. rewrite Hfull. lia.
Qed.

Lemma taken_frame s s2 s3 x x2 p i :
  ar_max_count x2 = ar_max_count x -> 0 <= i < ar_max_count x ->
  (forall q j, 0 <= j < ar_max_count x -> used_in s2 q j <-> used_in s q j) -> taken x2 s2 s3 p i -> taken x s s3 p i.
Proof. unfold taken. intros -> Hi H [H1 H2]. split; [by rewrite <- H|]. intros q j Hj. by rewrite <- H, H2. Qed.

Lemma empty_unused a j : 0 <= j < 256 -> bitmap_get (ap_used (empty_page a)) j = false.
Proof. intros Hj. apply bitmap_get_init. change ARENA_BITMAP_SIZE with 256. lia. Qed.

Lemma alloc_object_run a s x ps :
  arena_ok a s x ps ->
  ((forall p, p ∈ ps -> full s x p) -> exists q al, allocate (as_alloc s) = Ok (q, al) /\ fresh_page s q) ->
  wp (alloc_object allocate a) (fun o s' => exists x' ps' p i,
    o = object_at x p i /\ 0 <= i < ar_max_count x /\ arena_ok a s' x' ps' /\ grown 1 x x' /\ taken x s s' p i /\
    (forall q, q <> p -> as_pg s' !! q = as_pg s !! q) /\
    ((p ∈ ps /\ ps' ≡ₚ ps /\ as_alloc s' = as_alloc s) \/
     ((forall q, q ∈ ps -> full s x q) /\ fresh_page s p /\ ps' ≡ₚ p :: ps /\ allocate (as_alloc s) = Ok (p, as_alloc s')))) s.
Proof.
  intros [Hc Hff] Hal.
  unfold alloc_object. apply wp_bind. eapply wp_mono; [by apply acquire_core|]. intros _ s1 (Hc1 & Hp1 & Ha1).
  apply wp_bind, (wp_get_arena _ _ (set_ar_lock true x)); [by eapply ac_arena|].
  assert (forall q, full s1 (set_ar_lock true x) q <-> full s x q) as Hfull by (intros q; apply full_frame; [by rewrite Hp1|done]).
  apply wp_assoc, wp_bind. apply (make_ready a s1 _ ps); [done| | |].
  - eapply free_first_frame; [|by split|exact Hff]. by rewrite Hp1.
  - intros H. destruct Hal as (q & al & H1 & H2); [intros q Hq; by apply Hfull, H|].
    exists q, al. rewrite Ha1. unfold fresh_page. by rewrite Hp1.
  - intros s2 x2 p l (Hc2 & Hs2 & Hnf & Hff2 & Hcase).
    apply wp_bind, (wp_get_arena _ _ x2); [by eapply ac_arena|]. rewrite (ac_head _ _ _ _ _ Hc2). simpl hd.
    eapply wp_mono; [by apply alloc_rest_ok|]. intros o s3 (x3 & ps3 & i & -> & Hi & Hok & Hs3 & Hperm & Htk & [pg Hpg] & Ha3).
    assert (grown 1 x x3) as Hg by exact (grown_trans _ _ _ _ _ Hs2 Hs3).
    destruct Hs2 as [[Hsz Hmx] _]. simpl in Hsz, Hmx. unfold fresh_page in Hcase. rewrite Hp1, Ha1 in Hcase.
    exists x3, ps3, p, i. unfold object_at. rewrite <- Hsz, <- Hmx.
    split; [done|]. split; [done|]. split; [done|]. split; [done|]. split; [|split].
    + apply (taken_frame s s2 s3 x x2 p i Hmx); [lia| |done]. intros q j Hj. unfold used_in.
      destruct Hcase as [(_ & E & _)|(_ & _ & (_ & Hn) & E & _)]; rewrite E, ?Hp1; [done|].
      destruct (decide (q = p)) as [->|Hne]; [|by rewrite lookup_insert_ne].
      rewrite lookup_insert_eq. split; intros (pg' & H1 & H2); [|congruence].
      injection H1 as <-. pose proof (max_range _ _ _ _ _ Hc1) as [Hm _]. simpl in Hm. by rewrite empty_unused in H2 by lia.
    + intros q Hq. rewrite Hpg, lookup_insert_ne by done.
      destruct Hcase as [(_ & E & _)|(_ & _ & _ & E & _)]; rewrite E, ?Hp1; [done|]. by rewrite lookup_insert_ne.
    + rewrite Ha3. destruct Hcase as [(<- & _ & ->)|(-> & Hf & Hn & _ & Heq)]; [left|right].
      * split; [by left|]. by split.
      * split; [intros q Hq; by apply Hfull, Hf|]. by split.
Qed.

(** C33: [alloc_object] returns an object that no one uses. If the page
    allocator gives a fresh page when all pages are full, an allocation returns
    the first object found free, in a page of the arena; from then on exactly
    this object is used besides those used before, it does not overlap any
    other object of the arena, and the invariant holds again: the pages form
    one circular list that starts at [arena->pages], each counts its used
    objects, and those with free objects come first. A page was added only if
    all were full. *)
Theorem alloc_object_fresh a s x ps :
  arena_ok a s x ps ->
  ((forall p, p ∈ ps -> full s x p) -> exists q al, allocate (as_alloc s) = Ok (q, al) /\ fresh_page s q) ->
  exists s' x' ps' p i, alloc_object allocate a s = Ok (object_at x p i, s') /\
    arena_ok a s' x' ps' /\ grown 1 x x' /\ p ∈ ps' /\ 0 <= i < ar_max_count x /\ taken x s s' p i /\
    (forall q j, q ∈ ps' -> 0 <= j < ar_max_count x -> (q, j) <> (p, i) ->
       object_at x p i + ar_object_size x <= object_at x q j \/ object_at x q j + ar_object_size x <= object_at x p i) /\
    (ps' ≡ₚ ps \/ (forall q, q ∈ ps -> full s x q) /\ ps' ≡ₚ p :: ps).
Proof.
  intros Hok0 Hal. pose proof (alloc_object_run a s x ps Hok0 Hal) as Hwp.
  apply wp_ok in Hwp as (o & s' & Heq & x' & ps' & p & i & -> & Hi & Hok & Hs & Htk & _ & Hps).
  assert (p ∈ ps') as Hp by (destruct Hps as [(Hp & -> & _)|(_ & _ & -> & _)]; [done|by left]).
  exists s', x', ps', p, i. rewrite Heq. split_and!; try done; try apply Hi.
  - intros q j Hq Hj Hne. destruct Hok as [Hc' _]. pose proof (ac_aligned _ _ _ _ _ Hc') as Hal'. rewrite Forall_forall in Hal'.
    destruct Hs as [[Hsz Hmx] _].
    destruct (object_apart false a s' x' ps' p i q j Hc') as [H|H]; try done; try (by apply Hal'); try (by rewrite Hmx);
      unfold object_at in *; rewrite !Hsz in H; auto.
  - destruct Hps as [(_ & ? & _)|(Hf & _ & ? & _)]; [by left|by right].
Qed.

(** ** Release *)
Lemma free_first_sublist s x l ps : sublist l ps -> free_first s x ps -> free_first s x l.
Proof.
  intros Hsub (l1 & l2 & -> & H1 & H2). apply sublist_app_r in Hsub as (k1 & k2 & -> & Hk1 & Hk2).
  exists k1, k2. split; [done|]. split; intros p Hp.
  - apply H1. by eapply elem_of_sublist.
  - apply H2. by eapply elem_of_sublist.
Qed.

Lemma detach_page_ok b a s x u p v :
  arena_core b a s x (u ++ p :: v) -> u <> [] ->
  wp (onnodes (detach_from_list (list_of p))) (fun _ s' => arena_core b a s' x (u ++ v) /\
    ring (as_nodes s') [list_of p] /\ as_pg s' = as_pg s /\ as_alloc s' = as_alloc s) s.
Proof.
  intros [Ha Hlk Hsz Hmx Hh Hring Hal Hpages] Hu. unfold onnodes. apply wp_lift.
  assert (ring (as_nodes s) (list_of p :: (list_of <$> v) ++ (list_of <$> u))) as Hr.
  { rewrite fmap_app in Hring. apply ring_rotate in Hring. exact Hring. }
  destruct (detach_from_list_spec _ _ _ Hr) as (n' & Hd & Hr1 & Hr2 & _). unfold wp. rewrite Hd.
  split; [|by split]. split; simpl; try done.
  - rewrite Hh. by destruct u.
  - rewrite fmap_app. by apply ring_rotate.
  - apply Forall_app in Hal as [? Hv]. apply Forall_cons in Hv as [_ ?]. by apply Forall_app.
  - intros q Hq. apply Hpages. apply elem_of_app. apply elem_of_app in Hq as [?|?]; [by left|]. right. by right.
Qed.

Lemma move_page_ok b a s x ps p :
  arena_core b a s x ps -> p ∈ ps ->
  wp (move_page_to_head a p) (fun _ s' => exists x' l, arena_core b a s' x' (p :: l) /\ grown 0 x x' /\
    p :: l ≡ₚ ps /\ sublist l ps /\ as_pg s' = as_pg s /\ as_alloc s' = as_alloc s) s.
Proof.
  intros Hc Hp. pose proof (core_NoDup _ _ _ _ _ Hc) as Hnd.
  unfold move_page_to_head. apply wp_bind, (wp_get_arena _ _ x); [by eapply ac_arena|]. rewrite (ac_head _ _ _ _ _ Hc).
  apply list_elem_of_split in Hp as (u & v & ->). destruct u as [|h u].
  - simpl. rewrite Z.eqb_refl. apply wp_ret. exists x, v.
    split; [done|]. split; [split; [by split|lia]|]. split; [done|]. split; [by apply sublist_cons|done].
  - assert (h <> p) as Hne by (intros ->; apply NoDup_cons in Hnd as [Hnd _]; apply Hnd, elem_of_app; right; by left).
    simpl. rewrite (proj2 (Z.eqb_neq h p)) by done. apply wp_bind.
    destruct (ac_pages _ _ _ _ _ Hc p) as (pg & Hpg & Hg); [apply elem_of_app; right; by left|].
    pose proof (ac_aligned _ _ _ _ _ Hc) as Hal. apply Forall_app in Hal as [_ Hal]. apply Forall_cons in Hal as [Hpo _].
    eapply wp_mono; [by apply (detach_page_ok b a s x (h :: u) p v)|]. intros _ s1 (Hc1 & Hr1 & Hp1 & Ha1).
    eapply wp_mono; [apply (insert_page_ok b a s1 x ((h :: u) ++ v) p pg); try done|].
    + apply NoDup_app in Hnd as (_ & Hd & Hnd). apply NoDup_cons in Hnd as [Hv _]. rewrite elem_of_app. intros [Hu|?]; [|done].
      apply (Hd p Hu). by left.
    + by rewrite Hp1.
    + intros _ s2 (Hc2 & Hp2 & Ha2). exists (set_ar_pages p x), ((h :: u) ++ v). split; [done|]. split; [split; [by split|simpl; lia]|].
      split; [|split; [|split; congruence]].
      * by rewrite (Permutation_middle (h :: u) v p).
      * change (sublist ((h :: u) ++ v) ((h :: u) ++ p :: v)). apply sublist_app; [done|by apply sublist_cons].
Qed.

Lemma container_of_object p off :
  page_ok p -> 0 <= off < ARENA_PAGE_CAPACITY -> get_container_page (data_of p + off) = p /\ u64 (data_of p + off - data_of p) = off.
Proof.
  intros (Hp & H0 & Hb) Ho. unfold get_container_page, round_down, data_of, ARENA_PAGE_CAPACITY, ARENA_PAGE_SIZE, PAGE_SIZE, sizeof_ArenaPage in *.
  split.
  - replace ((p + 64 + off) mod 4096) with (64 + off) by (Z.to_euclidean_division_equations; lia).
    rewrite u64_id; lia.
  - rewrite u64_id; lia.
Qed.

Lemma page_index (x : Arena) b a s ps off : arena_core b a s x ps -> 0 <= off < ar_max_count x * ar_object_size x -> 0 <= off / ar_object_size x < ar_max_count x.
Proof.
  intros Hc Ho. pose proof (ac_size _ _ _ _ _ Hc) as Hs. unfold ARENA_MIN_OBJECT_SIZE in Hs. split; [apply Z.div_pos; lia|].
  apply Z.div_lt_upper_bound; lia.
Qed.

Definition freed (x : Arena) (s s' : astate A) (p i : Z) : Prop :=
  forall q j, 0 <= j < ar_max_count x -> used_in s' q j <-> used_in s q j /\ (q, j) <> (p, i).

Lemma freed_slot x s s1 p i pg a n :
  as_pg s !! p = Some pg -> page_good n a pg -> 0 <= i < 256 ->
  as_pg s1 = <[p := mkArenaPage (ap_arena pg) (bitmap_clear (ap_used pg) i) (ap_count pg - 1)]> (as_pg s) ->
  freed x s s1 p i.
Proof.
  intros Hpg [_ Hl _] Hi Hp1.
  assert (in_bitmap (ap_used pg) i) by (unfold in_bitmap, BITMAP_BITS_PER_CELL; rewrite Hl; lia).
  intros q j Hj. unfold used_in. rewrite Hp1. destruct (decide (q = p)) as [->|Hn].
  - rewrite lookup_insert_eq. split.
    + intros (pg' & E & Hget). injection E as <-. simpl in Hget. rewrite bitmap_get_clear in Hget by (done || lia).
      apply andb_prop in Hget as [Hne Hget]. split; [by exists pg|]. intros E. injection E as ->. by rewrite Z.eqb_refl in Hne.
    + intros [(pg' & E & Hget) Hne]. eexists. split; [done|]. simpl. rewrite bitmap_get_clear by (done || lia). apply andb_true_iff.
      split; [|congruence]. apply negb_true_iff, Z.eqb_neq. intros ->. done.
  - rewrite lookup_insert_ne by done. split; [intros H1; split; [done|congruence]|]. by intros [? _].
Qed.

Lemma page_good_clear x a pg i :
  page_good (nobj x) a pg -> 0 <= i < ar_max_count x -> ar_max_count x <= 252 -> bitmap_get (ap_used pg) i = true ->
  page_good (nobj x) a (mkArenaPage (ap_arena pg) (bitmap_clear (ap_used pg) i) (ap_count pg - 1)).
Proof.
  intros [Hga Hgl Hgc] Hi Hm Hget.
  assert (in_bitmap (ap_used pg) i) by (unfold in_bitmap, BITMAP_BITS_PER_CELL; rewrite Hgl; lia).
  split; simpl; [done|by rewrite length_bitmap_clear|]. unfold nobj in *.
  pose proof (count_set_bitmap_clear (ap_used pg) (Z.to_nat (ar_max_count x)) (Z.to_nat i) ltac:(lia)) as E.
  rewrite Z2Nat.id in E by lia. specialize (E ltac:(done) ltac:(done)). lia.
Qed.

Lemma free_object_run a s x ps p i :
  arena_ok a s x ps -> p ∈ ps -> 0 <= i < ar_max_count x -> used_in s p i ->
  wp (free_object (object_at x p i)) (fun _ s' => exists x' l, arena_ok a s' x' (p :: l) /\ grown (-1) x x' /\
    p :: l ≡ₚ ps /\ freed x s s' p i /\ page_change s s' p) s.
Proof.
  intros [Hc Hff] Hp Hi (pg & Hpg & Hget). destruct (max_range _ _ _ _ _ Hc) as [Hm Hcap].
  pose proof (ac_size _ _ _ _ _ Hc) as Hsz. unfold ARENA_MIN_OBJECT_SIZE in Hsz.
  pose proof (ac_aligned _ _ _ _ _ Hc) as Hal. rewrite Forall_forall in Hal.
  destruct (ac_pages _ _ _ _ _ Hc p Hp) as (pg' & Hpg' & Hg). assert (pg' = pg) as -> by congruence. pose proof Hg as [Hga Hgl Hgc].
  destruct (container_of_object p (i * ar_object_size x) (Hal p Hp) ltac:(nia)) as [Ep Eo].
  unfold free_object, object_at. rewrite Ep, Eo. apply wp_bind, (wp_get_page _ _ pg); [done|]. rewrite Hga.
  apply wp_bind. eapply wp_mono; [by apply acquire_core|]. intros _ s1 (Hc1 & Hp1 & Ha1).
  apply wp_bind, (wp_get_arena _ _ (set_ar_lock true x)); [by eapply ac_arena|]. simpl ar_object_size.
  apply wp_bind, wp_assert; [rewrite Z.mod_mul by lia; done|]. rewrite Z.div_mul by lia.
  apply wp_bind, (wp_get_page _ _ pg); [by rewrite Hp1|]. apply wp_bind, wp_assert; [done|].
  apply wp_bind, (wp_upd_page _ _ pg); [by rewrite Hp1|]. set (pg1 := mkArenaPage _ _ _).
  set (s2 := set_as_pg _ _).
  pose proof (page_good_clear x a pg i Hg Hi ltac:(lia) Hget : page_good (nobj x) a pg1) as Hg1.
  pose proof (core_page true a s1 _ ps p pg1 Hc1 Hg1) as Hc2.
  apply wp_bind, (wp_upd_arena _ _ (set_ar_lock true x)); [exact (ac_arena _ _ _ _ _ Hc2)|].
  set (x3 := set_ar_num_objects _ _). set (s3 := set_as_arenas _ _).
  assert (arena_core true a s3 x3 ps) as Hc3.
  { apply (core_arena true true a s2 (set_ar_lock true x)); [exact Hc2|by split|done|exact (ac_head _ _ _ _ _ Hc2)]. }
  apply wp_bind. eapply wp_mono; [by apply move_page_ok|]. intros _ s4 (x4 & l & Hc4 & Hs4 & Hperm & Hsub & Hp4 & Ha4).
  assert (as_pg s4 = <[p := pg1]> (as_pg s)) as Hp4' by (rewrite Hp4; simpl; by rewrite Hp1).
  assert (grown (-1) x x4) as Hs.
  { apply (grown_trans (-1) 0 x x3); [|done]. split; [by split|]. simpl. lia. }
  eapply wp_mono; [by apply release_core|]. intros _ s5 (Hc5 & Hp5 & Ha5). exists (set_ar_lock false x4), l.
  split; [split; [done|]|split; [done|split; [done|split]]].
  - apply free_first_cons.
    + eapply (free_first_frame s); [|exact (grown_same _ _ _ Hs)|by eapply free_first_sublist]. intros q Hq. rewrite Hp5, Hp4'. apply lookup_insert_ne.
      intros <-. pose proof (core_NoDup _ _ _ _ _ Hc4) as Hnd. by apply NoDup_cons in Hnd as [? _].
    + rewrite (full_dec _ _ _ pg1) by (rewrite Hp5, Hp4'; apply lookup_insert_eq). simpl. destruct Hs as [[_ ->] _].
      pose proof (count_bounds x a pg Hg ltac:(lia)). lia.
  - eapply freed_slot; [exact Hpg|exact Hg|lia|]. by rewrite Hp5, Hp4'.
  - split; [exists pg1; by rewrite Hp5, Hp4'|]. by rewrite Ha5, Ha4.
Qed.

Lemma run_bind {St B C} (m : M St B) (f : B -> M St C) (s : St) b (s' : St) : m s = Ok (b, s') -> (m ≫= f) s = f b s'.
Proof. unfold mbind, M_bind. by intros ->. Qed.

Ltac run_lookup H := unfold mbind, M_bind, gets; rewrite H.

(** [free_object] gives back exactly the object it is called for, and
    refuses anything else. For an address in the objects of a page of the
    arena: if it is the start of an object in use, that object alone becomes
    free, and the page moves to the head of the list, where the next allocation
    finds it, with the invariant kept; an address inside an object, or an object
    that is not in use (a double free), panics. *)
Theorem free_object_correct a s x ps p off :
  arena_ok a s x ps -> p ∈ ps -> 0 <= off < ar_max_count x * ar_object_size x ->
  if decide (off mod ar_object_size x = 0 /\ bitmap_get (default [] (ap_used <$> (as_pg s !! p))) (off / ar_object_size x) = true) then
    exists s' x' l, free_object (data_of p + off) s = Ok (tt, s') /\ arena_ok a s' x' (p :: l) /\ grown (-1) x x' /\
      p :: l ≡ₚ ps /\ freed x s s' p (off / ar_object_size x)
  else free_object (data_of p + off) s = Panic.
Proof.
  intros [Hc Hff] Hp Hoff. destruct (max_range _ _ _ _ _ Hc) as [Hm Hcap].
  pose proof (page_index _ _ _ _ _ _ Hc Hoff) as Hi. pose proof (ac_aligned _ _ _ _ _ Hc) as Hal. rewrite Forall_forall in Hal.
  destruct (ac_pages _ _ _ _ _ Hc p Hp) as (pg & Hpg & [Hga _ _]). rewrite Hpg. simpl. case_decide as Hd.
  - destruct Hd as [Hmod Hget].
    pose proof (free_object_run a s x ps p (off / ar_object_size x) ltac:(by split) Hp Hi ltac:(by exists pg)) as Hwp.
    unfold object_at in Hwp. replace (off / ar_object_size x * ar_object_size x) with off in Hwp by (Z.to_euclidean_division_equations; lia).
    apply wp_ok in Hwp as ([] & s' & Heq & x' & l & Hok & Hg & Hl & Hf & _). exists s', x', l. by rewrite Heq.
  - destruct (container_of_object p off (Hal p Hp) ltac:(nia)) as [Ep Eo].
    destruct (proj1 (wp_ok _ _ _) (acquire_core a s x ps Hc)) as ([] & s1 & Ha & Hc1 & Hp1 & _).
    unfold free_object. rewrite Ep, Eo. rewrite (run_bind _ _ _ pg s); [|unfold get_page; by run_lookup Hpg].
    rewrite Hga, (run_bind _ _ _ tt s1) by done.
    rewrite (run_bind _ _ _ (set_ar_lock true x) s1); [|unfold get_arena; by run_lookup (ac_arena _ _ _ _ _ Hc1)]. simpl ar_object_size.
    destruct (Z.eqb_spec (off mod ar_object_size x) 0) as [E|E]; [|done].
    rewrite (run_bind _ _ _ tt s1) by done. rewrite (run_bind _ _ _ pg s1); [|unfold get_page; run_lookup Hp1; by run_lookup Hpg].
    destruct (bitmap_get (ap_used pg) (off / ar_object_size x)); [naive_solver|done].
Qed.

End facts.

(** ** Witnesses: an arena of [kalloc] at 100 *)
Definition demo_arena (pages : Z) : Arena := mkArena false 1000 4 pages 0 0.
Definition demo_empty : astate kmem := mkAstate {[100 := demo_arena 0]} ∅ ∅ (mkKmem (fun _ => 0) 8192 false).
(** One page at 8192, with the object 0 in use. *)
Definition demo_one : astate kmem :=
  mkAstate {[100 := demo_arena 8192]} {[8192 := mkArenaPage 100 [1; 0; 0; 0] 1]} {[8200 := mkListNode 8200 8200]} (mkKmem (fun _ => 0) 0 false).

Lemma demo_empty_ok : arena_ok 100 demo_empty (demo_arena 0) [].
Proof.
  split.
  - split; try done. + split; [apply NoDup_nil_2|]. split; [apply not_elem_of_nil|done]. + intros p Hp%not_elem_of_nil. done.
  - exists [], []. split; [done|]. split; intros p Hp%not_elem_of_nil; done.
Qed.

Lemma demo_one_ok : arena_ok 100 demo_one (demo_arena 8192) [8192].
Proof.
  assert (as_pg demo_one !! 8192 = Some (mkArenaPage 100 [1; 0; 0; 0] 1)) as Hpg by (vm_compute; reflexivity).
  split.
  - split; try done.
    + split; [apply NoDup_singleton|]. split; [simpl; rewrite list_elem_of_singleton; done|done].
    + by apply Forall_singleton.
    + intros p ->%list_elem_of_singleton. eexists. by split.
  - exists [8192], []. split; [done|]. split; [|intros p Hp%not_elem_of_nil; done].
    intros p ->%list_elem_of_singleton. rewrite (full_dec _ _ _ _ Hpg). done.
Qed.

Lemma alloc_object_fresh_witness :
  exists s' x' ps' p i, alloc_object kalloc 100 demo_empty = Ok (object_at (demo_arena 0) p i, s') /\
    arena_ok 100 s' x' ps' /\ grown 1 (demo_arena 0) x' /\ p ∈ ps' /\ 0 <= i < 4 /\ taken (demo_arena 0) demo_empty s' p i /\
    (forall q j, q ∈ ps' -> 0 <= j < 4 -> (q, j) <> (p, i) ->
       object_at (demo_arena 0) p i + 1000 <= object_at (demo_arena 0) q j \/ object_at (demo_arena 0) q j + 1000 <= object_at (demo_arena 0) p i) /\
    (ps' ≡ₚ [] \/ (forall q, q ∈ [] -> full demo_empty (demo_arena 0) q) /\ ps' ≡ₚ [p]).
Proof.
  apply (alloc_object_fresh kalloc 100 demo_empty (demo_arena 0) []); [apply demo_empty_ok|].
  intros _. eexists 8192, _. split; [reflexivity|]. split; [done|]. vm_compute. reflexivity.
Defined.

Lemma free_object_correct_witness :
  exists s' x' l, free_object 8256 demo_one = Ok (tt, s') /\ arena_ok 100 s' x' (8192 :: l) /\ grown (-1) (demo_arena 8192) x' /\
    8192 :: l ≡ₚ [8192] /\ freed (demo_arena 8192) demo_one s' 8192 0.
Proof.
  pose proof (free_object_correct 100 demo_one (demo_arena 8192) [8192] 8192 0 demo_one_ok ltac:(by left) ltac:(simpl; lia)) as H.
  rewrite decide_True in H by (split; [reflexivity|vm_compute; reflexivity]). exact H.
Defined.

End ArenaFacts.
