(* ===== verification/ArenaTest.v ===== *)
(** * An arena over a pool of pages (src/core/arena.c)

    What an arena relies on of its page allocator, as a class that [kalloc] and
    [kfree] implement; [clear_arena] gives every page back; and [arena_test],
    the self test at the start of the kernel, passes. *)
From S2P Require Import Prelude Bitmap CList PhysMem Arena ArenaFacts.

Module ArenaTest.
Import Bitmap CList PhysMem Arena ArenaFacts.

(** ** The page allocator *)
Class PagePool {A : Type} (allocate : M A Z) (free : Z -> M A unit) (pool : A -> list Z -> Prop) : Prop := {
  pool_pages al l : pool al l -> NoDup l /\ Forall page_ok l;
  pool_alloc al p l : pool al (p :: l) -> wp allocate (fun q al' => q = p /\ pool al' l) al;
  pool_free al p l : pool al l -> page_ok p -> p ∉ l -> wp (free p) (fun _ al' => pool al' (p :: l)) al
}.

#[export] Instance kalloc_pool : PagePool kalloc kfree km_inv.
Proof.
  split.
  - by intros al l [].
  - intros al p l H. eapply wp_mono; [by apply kalloc_ok|]. by intros q al' (_ & ? & ?).
  - intros al p l H Hp Hn. eapply wp_mono; [by apply (kfree_ok al l)|]. by intros _ al' [? _].
Qed.

(** ** [clear_arena] *)

(** The [next] links of [l], the last one to [z]. *)
Fixpoint forward (s : gmap Z ListNode) (l : list Z) (z : Z) : Prop :=
  match l with
  | [] => True
  | x :: l' => nx s x = Some (hd z l') /\ forward s l' z
  end.
Lemma chain_forward s l z : chain s l z -> forward s l z.
Proof. induction l as [|x l IH]; [done|]. intros [[H _] Hc]. split; [done|by apply IH]. Qed.
Lemma forward_ext s s' l z : (forall x, x ∈ l -> s' !! x = s !! x) -> forward s l z -> forward s' l z.
Proof.
  induction l as [|x l IH]; [done|]. intros H [Hx Hf]. split.
  - unfold nx in *. rewrite H; [done|by left].
  - apply IH; [|done]. intros y Hy. apply H. by right.
Qed.

Section clear.
Context {A : Type} (allocate : M A Z) (free : Z -> M A unit) (pool : A -> list Z -> Prop).
Context `{Hpool : !PagePool allocate free pool}.
Implicit Types (s : astate A).

(** The pages [ps] are given back. *)
Definition given_back s s' (ps l : list Z) : Prop :=
  as_arenas s' = as_arenas s /\ pool (as_alloc s') (reverse ps ++ l) /\
  (forall q, as_pg s' !! q = if decide (q ∈ ps) then None else as_pg s !! q).

Lemma clear_loop_ok head p ps s l fuel :
  forward (as_nodes s) (list_of <$> p :: ps) head -> NoDup (p :: ps) -> (head ∉ list_of <$> ps) ->
  pool (as_alloc s) l -> Forall page_ok (p :: ps) -> (forall q, q ∈ p :: ps -> q ∉ l) -> (length ps < fuel)%nat ->
  wp (clear_loop free fuel head (list_of p)) (fun _ s' => given_back s s' (p :: ps) l) s.
Proof using Hpool.
  revert p s l fuel. induction ps as [|p2 ps IH]; intros p s l fuel Hf Hnd Hh Hp Hpg Hdis Hlen; (destruct fuel as [|fuel]; [simpl in Hlen; lia|]).
  all: destruct Hf as [Hnx Hf]; unfold nx in Hnx; apply fmap_Some in Hnx as (x & Hx & Enx).
  all: apply Forall_cons in Hpg as [Hp1 Hpg]; pose proof (Hdis p (list_elem_of_here _ _)) as Hpl.
  all: cbn [clear_loop]; apply wp_bind, wp_lift, (wp_get_node _ _ x); [done|].
  all: replace (page_of (list_of p)) with p by (unfold page_of, list_of; lia).
  all: apply wp_bind, wp_lift; (eapply wp_mono; [by apply (pool_free (as_alloc s) p l)|]); intros [] al Hal.
  all: apply wp_bind, wp_modify; rewrite <- Enx; simpl hd.
  - rewrite Z.eqb_refl. apply wp_ret. split; [done|]. split; [done|]. intros q. simpl. case_decide as Hq.
    + apply list_elem_of_singleton in Hq as ->. apply lookup_delete_eq.
    + apply lookup_delete_ne. intros <-. apply Hq. by left.
  - apply NoDup_cons in Hnd as [Hn Hnd].
    rewrite (proj2 (Z.eqb_neq (list_of p2) head)) by (intros <-; apply Hh; by left).
    eapply wp_mono; [apply (IH p2 _ (p :: l) fuel)|].
    + eapply forward_ext; [|exact Hf]. intros y Hy. simpl. apply lookup_delete_ne. intros <-.
      apply list_elem_of_fmap in Hy as (z & Ez & Hz). apply list_of_inj in Ez as ->. done.
    + done.
    + intros H. apply Hh. by right.
    + exact Hal.
    + done.
    + intros q Hq [-> | H]%elem_of_cons; [done|]. apply (Hdis q); [by right|done].
    + simpl in Hlen. lia.
    + intros _ s' (H1 & H2 & H3). split; [done|]. split.
      * by rewrite (reverse_cons (p2 :: ps) p), <- app_assoc.
      * intros q. rewrite H3. simpl. destruct (decide (q ∈ p2 :: ps)) as [Hq|Hq].
        -- by rewrite decide_True by (by right).
        -- destruct (decide (q = p)) as [->|Hne].
           ++ rewrite lookup_delete_eq, decide_True; [done|by left].
           ++ rewrite lookup_delete_ne, decide_False; [done| |done]. intros [?|?]%elem_of_cons; done.
Qed.

Lemma pages_in_map a s x ps b : arena_core b a s x ps -> (length ps <= size (as_pg s))%nat.
Proof.
  intros Hc. rewrite <- (size_list_to_set (C := gset Z)) by (by eapply core_NoDup). rewrite <- (size_dom (D := gset Z)).
  apply subseteq_size. intros p Hp%elem_of_list_to_set. destruct (ac_pages _ _ _ _ _ Hc p Hp) as (pg & Hpg & _).
  by apply elem_of_dom_2 in Hpg.
Qed.

(** The arena is empty, and its pages are back in the pool. *)
Lemma clear_arena_ok a s x ps l :
  arena_core false a s x ps -> pool (as_alloc s) l -> (forall p, p ∈ ps -> p ∉ l) ->
  wp (clear_arena free a) (fun _ s' => exists x', arena_ok a s' x' [] /\ same_arena x x' /\
    (ps <> [] -> ar_num_objects x' = 0 /\ ar_num_pages x' = 0) /\ pool (as_alloc s') (reverse ps ++ l) /\
    (forall q, as_pg s' !! q = if decide (q ∈ ps) then None else as_pg s !! q)) s.
Proof using Hpool.
  intros Hc Hl Hdis.
  assert (forall b s' y, as_arenas s' !! a = Some y -> same_arena x y -> ar_lock y = b -> ar_pages y = 0 -> arena_core b a s' y []) as Hempty.
  { intros b s' y Ha [Hs Hm] Hb Hy. destruct Hc. split; try done; [by rewrite Hs|by rewrite Hs, Hm|..].
    + split; [apply NoDup_nil_2|]. split; [apply not_elem_of_nil|done].
    + intros p Hp%not_elem_of_nil. done. }
  assert (free_first s x []) as Hff by (exists [], []; split; [done|]; split; intros p Hp%not_elem_of_nil; done).
  unfold clear_arena. apply wp_bind. eapply wp_mono; [by apply acquire_core|]. intros _ s1 (Hc1 & Hp1 & Ha1).
  apply wp_bind, (wp_get_arena _ _ (set_ar_lock true x)); [by eapply ac_arena|]. simpl ar_pages.
  rewrite (ac_head _ _ _ _ _ Hc). destruct ps as [|p ps].
  - simpl. apply wp_bind, wp_ret. eapply wp_mono; [apply (release_core a s1 _ [] Hc1)|].
    intros _ s2 (Hc2 & Hp2 & Ha2). exists (set_ar_lock false (set_ar_lock true x)). rewrite Hp2, Ha2, Hp1, Ha1.
    split; [split; [done|]|]; [|split; [by split|split; [done|by split]]].
    exists [], []; split; [done|]; split; intros p Hp%not_elem_of_nil; done.
  - simpl hd. pose proof (ac_aligned _ _ _ _ _ Hc) as Hal. pose proof (core_NoDup _ _ _ _ _ Hc) as Hnd.
    rewrite (proj2 (Z.eqb_neq p 0)) by (apply page_ne0; by apply Forall_cons in Hal as [? _]). cbn [negb whenM].
    apply wp_bind, wp_bind, wp_gets, wp_bind.
    destruct (ac_ring _ _ _ _ _ Hc1) as (Hnd2 & _ & Hch). simpl in Hch.
    eapply wp_mono; [apply (clear_loop_ok (list_of p) p ps s1 l)|].
    + by apply (chain_forward _ (list_of <$> p :: ps)).
    + done.
    + by apply NoDup_cons in Hnd2 as [? _].
    + by rewrite Ha1.
    + done.
    + done.
    + pose proof (pages_in_map a s1 _ _ _ Hc1). simpl in *. lia.
    + intros _ s2 (E2 & H2 & Hpg2). pose proof (ac_arena _ _ _ _ _ Hc1) as Ha. rewrite <- E2 in Ha.
      apply wp_bind. eapply wp_upd_arena; [exact Ha|]. apply wp_bind. eapply wp_upd_arena; [apply lookup_insert_eq|].
      eapply wp_upd_arena; [apply lookup_insert_eq|].
      eapply wp_mono; [eapply release_core, Hempty; [apply lookup_insert_eq|by split|done|done]|].
      intros _ s3 (Hc3 & Hp3 & Ha3). eexists. split; [split; [exact Hc3|]|].
      * exists [], []; split; [done|]; split; intros q Hq%not_elem_of_nil; done.
      * split; [by split|]. split; [done|]. rewrite Ha3, Hp3. split; [done|]. intros q. rewrite Hp1 in Hpg2. apply Hpg2.
Qed.
End clear.

(** ** The self test *)
Section test.
Context (a : Z).
Implicit Types (s : astate kmem).

(** The free pages [l] and the pages [ps] of the arena are the pages [all];
    the objects in use are [objs]. *)
Record testing s (x : Arena) (ps l all : list Z) (objs : gset (Z * Z)) : Prop := {
  te_ok : arena_ok a s x ps;
  te_size : ar_object_size x = sizeof_Payload;
  te_pool : km_inv (as_alloc s) l;
  te_pages : ps ++ l ≡ₚ all;
  te_only : forall q, q ∉ ps -> as_pg s !! q = None;
  te_num : ar_num_objects x = Z.of_nat (size objs);
  te_used : forall q j, 0 <= j < 3 -> used_in s q j <-> (q, j) ∈ objs;
  te_range : forall q j, (q, j) ∈ objs -> 0 <= j < 3
}.

Lemma te_max s x ps l all objs : testing s x ps l all objs -> ar_max_count x = 3.
Proof. intros [[Hc _] Hs _ _ _ _ _ _]. rewrite (ac_max _ _ _ _ _ Hc), Hs. done. Qed.

Lemma te_page s x ps l all objs q j : testing s x ps l all objs -> (q, j) ∈ objs -> q ∈ ps /\ page_ok q.
Proof.
  intros Ht Hq. destruct Ht as [[Hc _] _ _ _ Ho _ Hu Hr]. apply Hu in Hq as (pg & Hpg & _); [|by eapply Hr].
  assert (q ∈ ps) as Hps by (destruct (decide (q ∈ ps)) as [|Hn]; [done|]; by rewrite (Ho q Hn) in Hpg).
  split; [done|]. pose proof (ac_aligned _ _ _ _ _ Hc) as Hal. rewrite Forall_forall in Hal. by apply Hal.
Qed.

Lemma te_disjoint s x ps l all objs : NoDup all -> testing s x ps l all objs -> forall p, p ∈ ps -> p ∉ l.
Proof. intros Hnd Ht. pose proof (te_pages _ _ _ _ _ _ Ht) as Hp. rewrite <- Hp in Hnd. by apply NoDup_app in Hnd as (_ & Hd & _). Qed.

(** Three objects in each page, when all are full. *)
Lemma full_count s x ps l all objs :
  testing s x ps l all objs -> (forall p, p ∈ ps -> full s x p) -> (3 * length ps <= size objs)%nat.
Proof.
  intros Ht Hf. pose proof (te_max _ _ _ _ _ _ Ht) as Hm. destruct Ht as [[Hc _] _ _ _ _ _ Hu _].
  pose proof (core_NoDup _ _ _ _ _ Hc) as Hnd.
  set (slots := p ← ps; j ← [0; 1; 2]; mret (p, j)).
  assert (length slots = 3 * length ps)%nat as <-.
  { unfold slots. clear. induction ps as [|p ps IH]; [done|]. rewrite bind_cons, length_app, IH. simpl. lia. }
  rewrite <- (size_list_to_set (C := gset (Z * Z))).
  - apply subseteq_size. intros [q j] Hq%elem_of_list_to_set. unfold slots in Hq.
    apply list_elem_of_bind in Hq as (p & Hq & Hp). apply list_elem_of_bind in Hq as (k & Hq & Hk).
    apply list_elem_of_singleton in Hq. injection Hq as -> ->.
    assert (0 <= k < 3) as Hk3 by (rewrite !elem_of_cons in Hk; destruct Hk as [->|[->|[->|H%not_elem_of_nil]]]; done).
    apply Hu; [done|]. destruct (ac_pages _ _ _ _ _ Hc p Hp) as (pg & Hpg & [_ _ Hg]). exists pg. split; [done|].
    rewrite <- (Z2Nat.id k) by lia. apply (count_set_full _ 3); [|lia].
    destruct (Hf p Hp) as (pg' & Hpg' & E). assert (pg' = pg) as -> by congruence. rewrite Hm in E. unfold nobj in Hg. rewrite Hm in Hg.
    change (Z.to_nat 3) with 3%nat in Hg. lia.
  - unfold slots. clear -Hnd. induction Hnd as [|p ps Hn Hnd IH]; [constructor|]. rewrite bind_cons. apply NoDup_app. split_and!; [|..|done].
    + apply (NoDup_fmap_1 snd). simpl. apply (bool_decide_unpack _). by vm_compute.
    + intros [q j] Hq Hq'. apply Hn. apply list_elem_of_bind in Hq as (k & Hq & _). apply list_elem_of_singleton in Hq. injection Hq as -> ->.
      apply list_elem_of_bind in Hq' as (p' & Hq' & Hp'). apply list_elem_of_bind in Hq' as (k' & Hq' & _).
      apply list_elem_of_singleton in Hq'. by injection Hq' as -> ->.
Qed.

(** An allocation takes an object that is not in [objs]. *)
Lemma test_alloc s x ps l all objs :
  testing s x ps l all objs -> NoDup all -> (43 <= length all)%nat -> (size objs < 129)%nat ->
  wp (alloc_object kalloc a) (fun o s' => exists x' ps' l' p i, o = object_at x' p i /\ 0 <= i < 3 /\ ((p, i) ∉ objs) /\
    testing s' x' ps' l' all ({[ (p, i) ]} ∪ objs) /\ km_mem (as_alloc s') = km_mem (as_alloc s)) s.
Proof.
  intros Ht Hnd Hlen Hsz. pose proof (te_max _ _ _ _ _ _ Ht) as Hm. pose proof (te_disjoint _ _ _ _ _ _ Hnd Ht) as Hdis.
  pose proof (full_count _ _ _ _ _ _ Ht) as Hfc. destruct Ht as [Hok Hs Hp Hpg Ho Hn Hu Hr].
  assert ((forall p, p ∈ ps -> full s x p) -> exists q l1 al, l = q :: l1 /\ kalloc (as_alloc s) = Ok (q, al) /\
    km_inv al l1 /\ km_mem al = km_mem (as_alloc s) /\ fresh_page s q) as Hal.
  { intros Hf. specialize (Hfc Hf). destruct l as [|q l1].
    - exfalso. rewrite app_nil_r in Hpg. apply Permutation_length in Hpg. lia.
    - destruct (proj1 (wp_ok _ _ _) (kalloc_ok _ _ Hp)) as (q' & al & Heq & Hmem & -> & Hinv).
      exists q, l1, al. split_and!; try done. split.
      + destruct Hp as [_ _ [Hq _]%Forall_cons _ _]. done.
      + apply Ho. intros H. apply (Hdis q H). by left. }
  eapply wp_mono; [apply (alloc_object_run kalloc a s x ps Hok)|].
  { intros Hf. destruct (Hal Hf) as (q & l1 & al & _ & H1 & _ & _ & H2). by exists q, al. }
  intros o s' (x' & ps' & p & i & -> & Hi & Hok' & [[Hsz' Hmx'] Hnum] & [Hfree Htk] & Hother & Hcase). rewrite Hm in *.
  assert ((p, i) ∉ objs) as Hnew by (by rewrite <- Hu).
  assert (exists l', km_inv (as_alloc s') l' /\ ps' ++ l' ≡ₚ all /\ km_mem (as_alloc s') = km_mem (as_alloc s) /\ (forall q, q ∉ ps' -> q <> p /\ q ∉ ps))
    as (l' & Hl' & Hperm' & Hmem' & Hnot).
  { destruct Hcase as [(Hpp & Hps & ->)|(Hf & _ & Hps & Heq)].
    - exists l. rewrite Hps. split_and!; try done. intros q Hq. rewrite Hps in Hq. split; [by intros ->|done].
    - destruct (Hal Hf) as (q & l1 & al & -> & Heq' & Hinv & Hmem & _). rewrite Heq in Heq'. injection Heq' as -> ->.
      exists l1. split_and!; try done.
      + rewrite Hps, <- Hpg. simpl. by rewrite Permutation_middle.
      + intros z Hz. rewrite Hps in Hz. by apply not_elem_of_cons in Hz. }
  exists x', ps', l', p, i. split; [unfold object_at; by rewrite Hsz'|]. split; [done|]. split; [done|]. split; [|done].
  split; try done.
  - by rewrite Hsz'.
  - intros q Hq. destruct (Hnot q Hq) as [Hqp Hqps]. rewrite Hother by done. by apply Ho.
  - rewrite Hnum, Hn, size_union, size_singleton by set_solver. lia.
  - intros q j Hj. rewrite Htk, Hu by done. rewrite elem_of_union, elem_of_singleton. done.
  - intros q j [E%elem_of_singleton|H]%elem_of_union; [by injection E as -> ->|by apply (Hr q)].
Qed.

(** Releasing an object of [objs]. *)
Lemma test_free s x ps l all objs p i :
  testing s x ps l all objs -> (p, i) ∈ objs ->
  wp (free_object (object_at x p i)) (fun _ s' => exists x' ps', testing s' x' ps' l all (objs ∖ {[ (p, i) ]}) /\ as_alloc s' = as_alloc s) s.
Proof.
  intros Ht Hin. pose proof (te_max _ _ _ _ _ _ Ht) as Hm. destruct (te_page _ _ _ _ _ _ _ _ Ht Hin) as [Hpp _].
  destruct Ht as [Hok Hs Hp Hpg Ho Hn Hu Hr]. pose proof (Hr _ _ Hin) as Hi.
  eapply wp_mono; [apply (free_object_run a s x ps p i Hok Hpp); [by rewrite Hm|by apply Hu]|].
  intros _ s' (x' & k & Hok' & [[Hsz' Hmx'] Hnum] & Hperm & Hfr & [pg Hch] & Hal). exists x', (p :: k). split; [|done].
  split; try done.
  - by rewrite Hsz'.
  - by rewrite Hal.
  - by rewrite Hperm.
  - intros q Hq. rewrite Hperm in Hq. rewrite Hch, lookup_insert_ne by (by intros <-). by apply Ho.
  - assert ({[ (p, i) ]} ⊆ objs) as Hsub by set_solver. rewrite Hnum, Hn, size_difference, size_singleton by done.
    apply subseteq_size in Hsub. rewrite size_singleton in Hsub. lia.
  - intros q j Hj. unfold freed in Hfr. rewrite Hm in Hfr. rewrite Hfr, Hu by done. rewrite elem_of_difference, elem_of_singleton. done.
  - intros q j [H _]%elem_of_difference. by apply (Hr q).
Qed.

(** *** What the test writes in an object *)
Definition payload_at (e : Z * Z) : Z := data_of e.1 + e.2 * sizeof_Payload.

Lemma object_payload x p i : ar_object_size x = sizeof_Payload -> object_at x p i = payload_at (p, i).
Proof. unfold object_at, payload_at. by intros ->. Qed.

(** The memory of [s] is [m'] now, which differs from what it was in the object
    at [o] only. *)
Definition wrote s (o : Z) (m' : Z -> Z) s' : Prop :=
  s' = set_as_alloc (set_km_mem m' (as_alloc s)) s /\ mem_ok m' /\
  (forall y, ~ (o <= y < o + sizeof_Payload) -> m' y = km_mem (as_alloc s) y).

Lemma wrote_word s o m s' b v (Q : unit -> astate kmem -> Prop) :
  wrote s o m s' -> 0 < o -> o <= b -> b + 8 <= o + sizeof_Payload ->
  (forall s2, wrote s o (store64 m b v) s2 -> Q tt s2) -> wp (onalloc (wr64 b v)) Q s'.
Proof.
  intros (-> & Hm & Hout) Ho H1 H2 HQ. apply wp_lift. unfold wr64. apply wp_bind, wp_assert; [apply negb_true_iff, Z.eqb_neq; lia|].
  apply wp_modify, HQ. split; [done|]. split; [by apply mem_ok_store64|]. intros y Hy. simpl. rewrite store64_out by lia. by apply Hout.
Qed.

Lemma fill_payload_ok s o i : 0 < o -> mem_ok (km_mem (as_alloc s)) ->
  wp (fill_payload o i) (fun _ s' => exists m', wrote s o m' s' /\ load64 m' o = cookie_of i) s.
Proof.
  intros Ho Hm. unfold fill_payload. apply wp_bind.
  assert (wrote s o (km_mem (as_alloc s)) s) as Hw by (split; [by destruct s as [? ? ? []]|done]).
  apply (wrote_word s o _ s o (cookie_of i) _ Hw); [done|lia|unfold sizeof_Payload; lia|]. intros s1 Hw1.
  apply (wp_eachM_seqZ 128 _ (fun _ s' => exists m', wrote s o m' s' /\ load64 m' o = cookie_of i)); [lia| | |done].
  - eexists. split; [exact Hw1|]. apply load64_store64_eq, u64_range.
  - intros j s' Hj (m' & Hw' & Hc). apply (wrote_word s o m' s' _ _ _ Hw'); [done|lia|unfold sizeof_Payload; lia|].
    intros s2 Hw2. eexists. split; [exact Hw2|]. rewrite load64_store64_ne by lia. done.
Qed.

(** Where a payload lies in its page. *)
Lemma payload_in_page p i : page_ok p -> 0 <= i < 3 -> p + 64 <= payload_at (p, i) /\ payload_at (p, i) + sizeof_Payload <= p + PAGE_SIZE.
Proof. intros Hp Hi. unfold payload_at, data_of, sizeof_ArenaPage, sizeof_Payload, PAGE_SIZE. simpl. lia. Qed.

Lemma testing_wrote s x ps l all objs p i m s' :
  NoDup all -> testing s x ps l all objs -> (p, i) ∈ objs -> wrote s (payload_at (p, i)) m s' -> testing s' x ps l all objs.
Proof.
  intros Hnd Ht Hin (-> & Hm & Hout). destruct (te_page _ _ _ _ _ _ _ _ Ht Hin) as [Hpp Hpo].
  pose proof (te_disjoint _ _ _ _ _ _ Hnd Ht p Hpp) as Hpl. pose proof (te_range _ _ _ _ _ _ Ht p i Hin) as Hi.
  destruct (payload_in_page p i Hpo Hi) as [H1 H2].
  destruct Ht as [[Hc Hff] Hs Hp Hpg Ho Hn Hu Hr]. split; try done.
  - split; [|exact Hff]. by destruct Hc.
  - apply km_inv_mem; [done| |done]. intros q Hq. apply load64_ext. intros y Hy. apply Hout.
    pose proof (ki_pages _ _ Hp) as Hpages. rewrite Forall_forall in Hpages.
    destruct (pages_disjoint p q Hpo (Hpages q Hq)) as [H|H]; [by intros ->|..]; unfold PAGE_SIZE in *; lia.
Qed.

(** The cookie of every payload is where it was put. *)
Definition cookies (m : Z -> Z) (pay : list (Z * Z)) : Prop :=
  forall k e, pay !! k = Some e -> load64 m (payload_at e) = cookie_of (Z.of_nat k).

Lemma cookies_snoc s m pay e s' :
  (forall k f, pay !! k = Some f -> payload_at f + 8 <= payload_at e \/ payload_at e + sizeof_Payload <= payload_at f) ->
  cookies (km_mem (as_alloc s)) pay -> wrote s (payload_at e) m s' -> load64 m (payload_at e) = cookie_of (Z.of_nat (length pay)) ->
  cookies m (pay ++ [e]).
Proof.
  intros Hapart Hc (_ & _ & Hout) Hm k f [Hk|[Hk Hf]]%lookup_app_Some.
  - rewrite <- (Hc k f Hk). apply load64_ext. intros y Hy. apply Hout. destruct (Hapart k f Hk); lia.
  - apply list_lookup_singleton_Some in Hf as [E <-]. rewrite Hm. do 2 f_equal. lia.
Qed.

Lemma payloads_apart s x ps l all objs e f : testing s x ps l all objs -> e ∈ objs -> f ∈ objs -> f <> e ->
  payload_at f + 8 <= payload_at e \/ payload_at e + sizeof_Payload <= payload_at f.
Proof.
  intros Ht He Hf Hne. destruct e as [p i], f as [q j]. pose proof (te_max _ _ _ _ _ _ Ht) as Hm.
  destruct (te_page _ _ _ _ _ _ _ _ Ht He) as [_ Hp], (te_page _ _ _ _ _ _ _ _ Ht Hf) as [_ Hq].
  pose proof (te_range _ _ _ _ _ _ Ht _ _ He) as Hi. pose proof (te_range _ _ _ _ _ _ Ht _ _ Hf) as Hj. destruct Ht as [[Hc _] Hs _ _ _ _ _ _].
  rewrite <- Hm in Hi, Hj. rewrite <- !(object_payload x) by done.
  destruct (object_apart false a s x ps q j p i Hc Hq Hp Hj Hi Hne) as [H|H]; rewrite Hs in H; unfold sizeof_Payload in *; lia.
Qed.

(** *** The loops of the test *)
Lemma alloc_payloads_ok n s x ps l all pay :
  testing s x ps l all (list_to_set pay) -> NoDup pay -> cookies (km_mem (as_alloc s)) pay ->
  NoDup all -> (43 <= length all)%nat -> (length pay + n <= 128)%nat ->
  wp (alloc_payloads a n (Z.of_nat (length pay))) (fun r s' => exists x' ps' l' new, r = payload_at <$> new /\ length new = n /\
    testing s' x' ps' l' all (list_to_set (pay ++ new)) /\ NoDup (pay ++ new) /\ cookies (km_mem (as_alloc s')) (pay ++ new)) s.
Proof.
  revert s x ps l pay. induction n as [|n IH]; intros s x ps l pay Ht Hnp Hck Hnd Hlen Hn.
  - apply wp_ret. exists x, ps, l, []. by rewrite app_nil_r.
  - cbn [alloc_payloads]. apply wp_bind. eapply wp_mono; [apply (test_alloc s x ps l all _ Ht Hnd Hlen)|].
    { rewrite size_list_to_set by done. lia. }
    intros o s1 (x1 & ps1 & l1 & p & i & -> & Hi & Hnew & Ht1 & Hm1).
    assert ((p, i) ∉ pay) as Hnew' by (by rewrite elem_of_list_to_set in Hnew).
    assert ((p, i) ∈ {[ (p, i) ]} ∪ list_to_set (C := gset (Z * Z)) pay) as Hin by set_solver.
    destruct (te_page _ _ _ _ _ _ _ _ Ht1 Hin) as [_ Hpo]. destruct (payload_in_page p i Hpo Hi) as [Hb _].
    assert (0 < payload_at (p, i)) as Hpos by (destruct Hpo as (_ & ? & _); lia).
    rewrite (object_payload x1) by apply Ht1. apply wp_bind, wp_assert; [apply negb_true_iff, Z.eqb_neq; lia|].
    apply wp_bind. eapply wp_mono; [apply (fill_payload_ok s1 _ (Z.of_nat (length pay)) Hpos), (te_pool _ _ _ _ _ _ Ht1)|].
    intros _ s2 (m & Hw & Hc). pose proof (testing_wrote _ _ _ _ _ _ p i m s2 Hnd Ht1 Hin Hw) as Ht2.
    assert (cookies (km_mem (as_alloc s2)) (pay ++ [(p, i)])) as Hck2.
    { rewrite (proj1 Hw). simpl. apply (cookies_snoc s1 m pay (p, i) s2); [|by rewrite Hm1|done|done]. intros k f Hk.
      apply (payloads_apart _ _ _ _ _ _ (p, i) f Ht1); [done|..].
      - apply elem_of_union. right. apply elem_of_list_to_set. by eapply list_elem_of_lookup_2.
      - intros ->. apply Hnew'. by eapply list_elem_of_lookup_2. }
    assert ({[ (p, i) ]} ∪ list_to_set pay = list_to_set (C := gset (Z * Z)) (pay ++ [(p, i)])) as Hset.
    { rewrite list_to_set_app_L. simpl. rewrite union_empty_r_L. apply (comm_L _). }
    rewrite Hset in Ht2.
    assert (NoDup (pay ++ [(p, i)])) as Hnp2 by (apply NoDup_app; split_and!; [done| |apply NoDup_singleton]; intros e He ->%list_elem_of_singleton; done).
    apply wp_bind, (wp_get_arena _ _ x1); [apply Ht2|].
    apply wp_bind, wp_assert. { rewrite (te_num _ _ _ _ _ _ Ht2), size_list_to_set, length_app by done. apply Z.eqb_eq. simpl. lia. }
    apply wp_bind. replace (Z.of_nat (length pay) + 1) with (Z.of_nat (length (pay ++ [(p, i)]))) by (rewrite length_app; simpl; lia).
    eapply wp_mono; [apply (IH s2 x1 ps1 l1 (pay ++ [(p, i)])); try done; rewrite length_app; simpl; lia|].
    intros r s3 (x3 & ps3 & l3 & new & -> & Hln & H). apply wp_ret. exists x3, ps3, l3, ((p, i) :: new).
    rewrite <- app_assoc in H. simpl in H. split; [done|]. split; [simpl; lia|done].
Qed.

Lemma free_payloads_ok s x ps l all pay :
  testing s x ps l all (list_to_set pay) -> NoDup pay -> cookies (km_mem (as_alloc s)) pay -> length pay = 128%nat ->
  wp (free_payloads (payload_at <$> pay)) (fun _ s' => exists x' ps' objs, testing s' x' ps' l all objs /\ size objs = 64%nat /\ as_alloc s' = as_alloc s) s.
Proof.
  intros Ht Hnp Hck Hlen. unfold free_payloads.
  apply (wp_eachM_seqZ 64 _ (fun k s' => exists x' ps' objs, testing s' x' ps' l all objs /\ Z.of_nat (size objs) = 128 - k /\
    as_alloc s' = as_alloc s /\ forall t e, 2 * k <= Z.of_nat t -> pay !! t = Some e -> e ∈ objs)); [lia|..].
  - exists x, ps, (list_to_set pay). split; [done|]. rewrite size_list_to_set, Hlen by done. split; [done|]. split; [done|].
    intros t e _ He. apply elem_of_list_to_set. by eapply list_elem_of_lookup_2.
  - intros k s' Hk (x' & ps' & objs & Ht' & Hsz & Hal & Hrest).
    assert (exists e, pay !! Z.to_nat (2 * k) = Some e) as [[p i] He] by (apply lookup_lt_is_Some; lia).
    assert ((p, i) ∈ objs) as Hin by (apply (Hrest (Z.to_nat (2 * k))); [lia|done]).
    rewrite (list_lookup_total_correct (payload_at <$> pay) (Z.to_nat (2 * k)) (payload_at (p, i))) by (by rewrite list_lookup_fmap, He).
    destruct (te_page _ _ _ _ _ _ _ _ Ht' Hin) as [_ Hpo].
    destruct (payload_in_page p i Hpo (te_range _ _ _ _ _ _ Ht' p i Hin)) as [Hb _].
    apply wp_bind, wp_lift. unfold rd64. apply wp_bind, wp_assert. { apply negb_true_iff, Z.eqb_neq. destruct Hpo as (_ & ? & _). lia. }
    apply wp_gets. apply wp_bind, wp_assert. { apply Z.eqb_eq. rewrite Hal, (Hck _ _ He). f_equal. lia. }
    replace (set_as_alloc (as_alloc s') s') with s' by (by destruct s').
    rewrite <- (object_payload x') by apply Ht'. eapply wp_mono; [by apply (test_free s' x' ps' l all objs p i)|].
    intros _ s2 (x2 & ps2 & Ht2 & Hal2). exists x2, ps2, (objs ∖ {[ (p, i) ]}). split; [done|]. split; [|split; [by rewrite Hal2|]].
    + assert ({[ (p, i) ]} ⊆ objs) as Hsub by set_solver. rewrite size_difference, size_singleton by done. apply subseteq_size in Hsub.
      rewrite size_singleton in Hsub. lia.
    + intros t e Hte Hpe. apply elem_of_difference. split; [apply (Hrest t); [lia|done]|]. intros ->%elem_of_singleton.
      pose proof (NoDup_lookup pay t (Z.to_nat (2 * k)) (p, i) Hnp Hpe He). lia.
  - intros s' (x' & ps' & objs & Ht' & Hsz & Hal & _). exists x', ps', objs. split; [done|]. split; [lia|done].
Qed.

(** An arena, before its first page. *)
Lemma init_arena_ok km l : km_inv km l ->
  wp (init_arena a sizeof_Payload) (fun _ s' => exists x, testing s' x [] l l ∅ /\ as_alloc s' = km) (mkAstate ∅ ∅ ∅ km).
Proof.
  intros Hk. unfold init_arena. apply wp_bind, wp_assert; [done|]. apply wp_bind, wp_assert; [done|]. apply wp_modify.
  exists (mkArena false sizeof_Payload (ARENA_PAGE_CAPACITY / sizeof_Payload) 0 0 0). split; [|done]. split; try done.
  - split; [split|]; try done.
    + apply lookup_insert_eq.
    + split; [apply NoDup_nil_2|]. split; [apply not_elem_of_nil|done].
    + intros p Hp%not_elem_of_nil. done.
    + exists [], []. split; [done|]. split; intros p Hp%not_elem_of_nil; done.
  - intros q j _. split; [|by intros ?%elem_of_empty]. by intros (pg & Hpg & _).
Qed.

(** The free pages are those of [l]. *)
Definition same_pages (l : list Z) (km : kmem) : Prop := exists l', l' ≡ₚ l /\ km_inv km l'.

Lemma run_arena_test_ok km l : km_inv km l -> (43 <= length l)%nat ->
  wp (run_arena_test a) (fun _ => same_pages l) km.
Proof.
  intros Hk Hlen. pose proof (ki_nodup _ _ Hk) as Hnd.
  assert (wp (arena_test a) (fun _ s' => exists l', l' ≡ₚ l /\ km_inv (as_alloc s') l') (mkAstate ∅ ∅ ∅ km)) as Hw.
  2: { unfold wp, run_arena_test in *. by destruct (arena_test a _) as [[[] s']| | |]. }
  unfold arena_test. apply wp_bind. eapply wp_mono; [by apply init_arena_ok|]. intros [] s0 (x0 & Ht0 & _).
  apply wp_bind. eapply wp_mono; [apply (alloc_payloads_ok 128 s0 x0 [] l l []); try done; apply NoDup_nil_2|].
  intros r s1 (x1 & ps1 & l1 & pay & -> & Hlp & Ht1 & Hnp & Hck). simpl in Ht1, Hnp, Hck.
  apply wp_bind. eapply wp_mono; [by apply (free_payloads_ok s1 x1 ps1 l1 l pay)|].
  intros [] s2 (x2 & ps2 & objs & Ht2 & Hsz & _).
  apply wp_bind, (wp_get_arena _ _ x2); [apply Ht2|]. apply wp_bind, wp_assert. { by rewrite (te_num _ _ _ _ _ _ Ht2), Hsz. }
  apply wp_bind. eapply wp_mono; [apply (test_alloc s2 x2 ps2 l1 l objs Ht2); [done|lia|lia]|].
  intros o s3 (x3 & ps3 & l3 & p & i & -> & Hi & Hnew & Ht3 & _).
  assert ((p, i) ∈ {[ (p, i) ]} ∪ objs) as Hin by set_solver. destruct (te_page _ _ _ _ _ _ _ _ Ht3 Hin) as [_ Hpo].
  rewrite (object_payload x3) by apply Ht3. destruct (payload_in_page p i Hpo Hi) as [Hb _].
  apply wp_bind, wp_assert. { apply negb_true_iff, Z.eqb_neq. destruct Hpo as (_ & ? & _). lia. }
  apply wp_bind, (wp_get_arena _ _ x3); [apply Ht3|]. apply wp_bind, wp_assert.
  { rewrite (te_num _ _ _ _ _ _ Ht3), size_union, size_singleton, Hsz by set_solver. done. }
  pose proof (te_disjoint _ _ _ _ _ _ Hnd Ht3) as Hdis. pose proof (te_pages _ _ _ _ _ _ Ht3) as Hperm.
  eapply wp_mono; [by apply (clear_arena_ok kalloc kfree km_inv a s3 x3 ps3 l3); [apply Ht3|apply Ht3|]|].
  intros _ s4 (x4 & _ & _ & _ & Hk4 & _). exists (reverse ps3 ++ l3). split; [|done]. by rewrite reverse_Permutation.
Qed.

(** C38: The self test of the arena passes, whatever pages the kernel has, if there
    are 43 of them: none of its assertions fails - the 128 objects that it takes
    are apart, so that each keeps its cookie until it is released, and the
    arena counts its objects right - and [clear_arena] gives every page back to
    [kfree], so that the free pages are those from before, in another order. *)
Theorem arena_test_passes km l :
  km_inv km l -> (43 <= length l)%nat ->
  exists km', run_arena_test a km = Ok (tt, km') /\ same_pages l km'.
Proof. intros Hk Hlen. destruct (proj1 (wp_ok _ _ _) (run_arena_test_ok km l Hk Hlen)) as ([] & km' & Heq & H). by exists km'. Qed.
End test.

(** A pool of 43 pages. *)
Definition demo_pages : list Z := pages_between 4096 (44 * 4096).
Lemma demo_pool : exists km l, km_inv km l /\ length l = 43%nat.
Proof.
  destruct (pages_between_ok 4096 (44 * 4096)) as [Hp Hnd]; [done..|]. fold demo_pages in Hp, Hnd.
  assert (length demo_pages = 43%nat) as Hlen by (by vm_compute). revert Hp Hnd Hlen. generalize demo_pages. intros ps Hp Hnd Hlen.
  destruct (proj1 (wp_ok _ _ _) (init_loop_ok (mkKmem (fun _ => 0) 0 false) [] ps ltac:(split; [done|apply NoDup_nil_2|done|done|done])
    ltac:(eapply Forall_impl; [exact Hp|by intros p [? _]]) ltac:(by rewrite app_nil_r))) as (u & s' & _ & H).
  eexists _, _. split; [exact H|]. by rewrite length_app, length_reverse, Hlen.
Qed.

Lemma arena_test_passes_witness :
  exists km l, length l = 43%nat /\ exists km', run_arena_test 100 km = Ok (tt, km') /\ same_pages l km'.
Proof.
  destruct demo_pool as (km & l & Hk & Hl). exists km, l. split; [exact Hl|].
  apply (arena_test_passes 100 km l Hk). rewrite Hl. lia.
Defined.
End ArenaTest.
