(* ===== verification/Console.v ===== *)
(** * The console (src/core/console.c)

    The ring buffer of typed characters with its read, write and edit
    indices, the line editing of [console_intr], [console_read] and
    [console_write]; formatted output is in Format.v.  A refinement relates the
    ring to a queue of committed characters and the line being edited. *)
From S2P Require Import Prelude.

Module Console.

Definition INPUT_BUF : Z := 128.
Definition CTRL (x : Z) : Z := x - 64.  (** [C(x)]: [x - '@'] *)
Definition BACKSPACE : Z := 256.

(** [input], [conslock], and the characters sent to the UART so far. *)
Record console : Type := mkConsole {
  in_buf : list Z;
  in_r : Z;
  in_w : Z;
  in_e : Z;
  conslock : bool;
  uart_out : list Z
}.

Definition set_in_buf (x : list Z) (s : console) : console :=
  mkConsole x (in_r s) (in_w s) (in_e s) (conslock s) (uart_out s).
Definition set_in_r (x : Z) (s : console) : console :=
  mkConsole (in_buf s) x (in_w s) (in_e s) (conslock s) (uart_out s).
Definition set_in_w (x : Z) (s : console) : console :=
  mkConsole (in_buf s) (in_r s) x (in_e s) (conslock s) (uart_out s).
Definition set_in_e (x : Z) (s : console) : console :=
  mkConsole (in_buf s) (in_r s) (in_w s) x (conslock s) (uart_out s).
Definition set_conslock (x : bool) (s : console) : console :=
  mkConsole (in_buf s) (in_r s) (in_w s) (in_e s) x (uart_out s).
Definition set_uart_out (x : list Z) (s : console) : console :=
  mkConsole (in_buf s) (in_r s) (in_w s) (in_e s) (conslock s) x.

(** [static int panicked = -1], which nothing changes. *)
Definition panicked : Z := -1.

Definition init_console : console := mkConsole (replicate 128 0) 0 0 0 false [].

Definition uart_put_char (c : Z) : M console unit :=
  modify (fun s => set_uart_out (uart_out s ++ [u8 c]) s).

Definition consputc (c : Z) : M console unit :=
  if c =? BACKSPACE then uart_put_char 8;; uart_put_char 32;; uart_put_char 8
  else uart_put_char c.

Definition acquire_conslock : M console unit :=
  b ← gets conslock; assert_ (negb b);; modify (set_conslock true).
Definition release_conslock : M console unit :=
  b ← gets conslock; assert_ b;; modify (set_conslock false).

(** [input.buf[i % INPUT_BUF]] *)
Definition buf_at (s : console) (i : Z) : Z := in_buf s !!! Z.to_nat (i mod INPUT_BUF).
Definition buf_set (i v : Z) (s : console) : console :=
  set_in_buf (<[Z.to_nat (i mod INPUT_BUF) := u8 v]> (in_buf s)) s.

(** The loop of [C('U')]; it runs at most [e - w] times. *)
Definition kill_line : M console unit :=
  n ← gets (fun s => Z.to_nat (in_e s - in_w s));
  whileM (S n)
    (s ← gets id;
     if negb (in_e s =? in_w s) && negb (buf_at s (u64 (in_e s - 1)) =? 10) then
       modify (fun s => set_in_e (u64 (in_e s - 1)) s);;
       consputc BACKSPACE;;
       mret true
     else mret false).

(** One iteration of the loop of [console_intr]. *)
Definition intr_char (c : Z) : M console unit :=
  if c =? CTRL 80 then mret tt
  else if c =? CTRL 85 then kill_line
  else if (c =? CTRL 72) || (c =? 127) then
    s ← gets id;
    whenM (negb (in_e s =? in_w s))
      (modify (fun s => set_in_e (u64 (in_e s - 1)) s);; consputc BACKSPACE)
  else
    s ← gets id;
    whenM (negb (c =? 0) && (u64 (in_e s - in_r s) <? INPUT_BUF))
      (let c := if c =? 13 then 10 else c in
       modify (fun s => set_in_e (u64 (in_e s + 1)) (buf_set (in_e s) c s));;
       consputc c;;
       s ← gets id;
       whenM ((c =? 10) || (c =? CTRL 68) || (in_e s =? u64 (in_r s + INPUT_BUF)))
         (modify (fun s => set_in_w (in_e s) s))).

(** [while ((c = getc()) != 0xff)]: [cs] is what [getc] returns, then [0xff]. *)
Fixpoint intr_loop (cs : list Z) : M console unit :=
  match cs with
  | [] => mret tt
  | c :: cs' => if c =? 255 then mret tt else intr_char c;; intr_loop cs'
  end.

Definition console_intr (cs : list Z) : M console unit :=
  acquire_conslock;;
  (if 0 <=? panicked then release_conslock;; asleep else mret tt);;
  intr_loop cs;;
  release_conslock.

(** [console_read] and [console_write] unlock the inode [ip] while they work;
    they run in the state of the caller, of which the console is a part. *)
Section with_inode.
Context {St : Type} (get : St -> console) (set : console -> St -> St).
Context (unlock_ip lock_ip : M St unit) (killed : St -> bool).
Let con {A} (m : M console A) : M St A := lift get set m.

Definition console_write (buf : list Z) : M St Z :=
  unlock_ip;;
  con (acquire_conslock;;
       eachM buf (fun c => consputc (Z.land c 255));;
       release_conslock);;
  lock_ip;;
  mret (Z.of_nat (length buf)).

(** The inner loops: [dst] is what was read; [None] is the early [return -1]. *)
Fixpoint read_loop (n : nat) (first : bool) (dst : list Z) : M St (option (list Z)) :=
  match n with
  | O => mret (Some dst)
  | S n' =>
      s ← gets id;
      if in_r (get s) =? in_w (get s) then
        if killed s : bool then mret None else asleep
      else
        let c := buf_at (get s) (in_r (get s)) in
        con (modify (fun s => set_in_r (u64 (in_r s + 1)) s));;
        if c =? CTRL 68 then
          whenM (negb first) (con (modify (fun s => set_in_r (u64 (in_r s - 1)) s)));;
          mret (Some dst)
        else if c =? 10 then mret (Some (dst ++ [c]))
        else read_loop n' false (dst ++ [c])
  end.

(** Returns the number of characters and the characters, [-1] when killed. *)
Definition console_read (n : Z) : M St (Z * list Z) :=
  unlock_ip;;
  con acquire_conslock;;
  r ← read_loop (Z.to_nat n) true [];
  con release_conslock;;
  lock_ip;;
  match r with
  | None => mret (-1, [])
  | Some dst => mret (Z.of_nat (length dst), dst)
  end.
End with_inode.

(** ** The line discipline, abstractly

    The committed characters a reader can have, and the line being edited. *)
Record lines : Type := mkLines { committed : list Z; editing : list Z }.

Definition line_char (c : Z) (a : lines) : lines :=
  if c =? CTRL 80 then a
  else if c =? CTRL 85 then mkLines (committed a) []
  else if (c =? CTRL 72) || (c =? 127) then mkLines (committed a) (removelast (editing a))
  else
    let len := Z.of_nat (length (committed a) + length (editing a)) in
    if negb (c =? 0) && (len <? INPUT_BUF) then
      let c := if c =? 13 then 10 else c in
      if (c =? 10) || (c =? CTRL 68) || (len + 1 =? INPUT_BUF)
      then mkLines (committed a ++ editing a ++ [c]) []
      else mkLines (committed a) (editing a ++ [c])
    else a.

(** The characters of the ring between two indices. *)
Definition ring (s : console) (i : Z) (n : Z) : list Z := buf_at s <$> seqZ i n.
Definition abs (s : console) : lines :=
  mkLines (ring s (in_r s) (in_w s - in_r s)) (ring s (in_w s) (in_e s - in_w s)).

Record console_inv (s : console) : Prop := {
  con_len : length (in_buf s) = 128%nat;
  con_order : 0 <= in_r s <= in_w s /\ in_w s <= in_e s <= in_r s + INPUT_BUF;
  con_line : Forall (fun c => c <> 10) (editing (abs s));
  con_nowrap : in_r s + 2 * INPUT_BUF < 2 ^ 64;
  con_lock : conslock s = false
}.

(** *** The ring *)
Lemma ring_snoc s i n : 0 <= n -> ring s i (n + 1) = ring s i n ++ [buf_at s (i + n)].
Proof. intros Hn. unfold ring. rewrite seqZ_app by lia. by rewrite fmap_app. Qed.

Lemma ring_cons s i n : 0 < n -> ring s i n = buf_at s i :: ring s (i + 1) (n - 1).
Proof.
  intros Hn. unfold ring. rewrite seqZ_cons by lia. rewrite fmap_cons.
  by replace (Z.succ i) with (i + 1) by lia; replace (Z.pred n) with (n - 1) by lia.
Qed.

Lemma ring_app s i n m : 0 <= n -> 0 <= m -> ring s i (n + m) = ring s i n ++ ring s (i + n) m.
Proof. intros Hn Hm. unfold ring. rewrite seqZ_app by lia. by rewrite fmap_app. Qed.

Lemma length_ring s i n : length (ring s i n) = Z.to_nat n.
Proof. unfold ring. by rewrite length_fmap, length_seqZ. Qed.

Lemma ring_ext s s' i n :
  (forall k, i <= k < i + n -> buf_at s' k = buf_at s k) -> ring s' i n = ring s i n.
Proof.
  intros H. unfold ring. apply list_fmap_ext. intros j k Hk.
  apply lookup_seqZ in Hk as [-> Hj]. apply H. lia.
Qed.

Lemma mod_window i j : i <= j < i + 128 -> i mod 128 = j mod 128 -> i = j.
Proof.
  intros Hij Hm. pose proof (Z.div_mod i 128). pose proof (Z.div_mod j 128).
  assert (i / 128 = j / 128) by nia. lia.
Qed.

Lemma buf_at_set s j v k :
  length (in_buf s) = 128%nat -> k <= j < k + 128 \/ j <= k < j + 128 ->
  buf_at (buf_set j v s) k = if decide (k = j) then u8 v else buf_at s k.
Proof.
  intros Hl Hk. unfold buf_at, buf_set, INPUT_BUF. simpl.
  pose proof (Z.mod_pos_bound j 128 ltac:(lia)). pose proof (Z.mod_pos_bound k 128 ltac:(lia)).
  case_decide as E.
  - subst. apply list_lookup_total_insert_eq. lia.
  - apply list_lookup_total_insert_ne. intros He. apply E.
    assert (j mod 128 = k mod 128) as He' by lia.
    destruct Hk as [Hk|Hk]; [by apply mod_window|symmetry; by apply mod_window].
Qed.

(** Shrinking the edited line drops its last character. *)
Lemma removelast_ring s i n : 0 < n -> removelast (ring s i n) = ring s i (n - 1).
Proof.
  intros Hn. replace n with (n - 1 + 1) at 1 by lia. rewrite ring_snoc by lia. apply removelast_last.
Qed.

(** ** The ring implements the line discipline *)
Definition intr_post (c : Z) (s : console) (s' : console) : Prop :=
  conslock s' = conslock s /\ in_r s' = in_r s /\
  (console_inv (set_conslock false s) ->
   console_inv (set_conslock false s') /\ abs s' = line_char c (abs s)).

(** The invariant while the lock is held. *)
Definition inv (s : console) : Prop := console_inv (set_conslock false s).

Lemma wp_consputc c (Q : unit -> console -> Prop) s :
  (forall o, Q tt (set_uart_out o s)) -> wp (consputc c) Q s.
Proof.
  intros HQ. unfold consputc. destruct (c =? BACKSPACE).
  - apply wp_bind, wp_modify, wp_bind, wp_modify, wp_modify. apply (HQ _).
  - apply wp_modify. apply (HQ _).
Qed.

Lemma inv_out s o : inv s -> inv (set_uart_out o s).
Proof. intros []. by split. Qed.

Lemma inv_shrink s n :
  inv s -> in_w s <= n <= in_e s -> inv (set_in_e n s) /\
  abs (set_in_e n s) = mkLines (committed (abs s)) (ring s (in_w s) (n - in_w s)).
Proof.
  intros [Hl Ho Hn Hw _] Hr. split; [|done]. split; try done; simpl in *.
  - lia.
  - change (Forall (fun c => c <> 10) (ring s (in_w s) (in_e s - in_w s))) in Hn.
    replace (in_e s - in_w s) with (n - in_w s + (in_e s - n)) in Hn by lia.
    rewrite ring_app in Hn by lia. apply Forall_app in Hn as [Hn _]. exact Hn.
Qed.

Lemma pred_e s : inv s -> in_e s <> in_w s -> u64 (in_e s - 1) = in_e s - 1.
Proof. intros [_ Ho _ Hw _] Hne. simpl in *. unfold INPUT_BUF in *. apply u64_id. lia. Qed.

(** [C('U')] erases the edited line. *)
Lemma kill_line_spec s :
  inv s -> wp kill_line (fun _ s' => conslock s' = conslock s /\ in_r s' = in_r s /\ inv s' /\
    abs s' = mkLines (committed (abs s)) []) s.
Proof.
  intros Hi. unfold kill_line. apply wp_bind, wp_gets.
  assert (in_w s <= in_e s) as Hwe by apply (con_order _ Hi).
  remember (Z.to_nat (in_e s - in_w s)) as n eqn:Hn. revert s Hi Hwe Hn.
  induction n as [|n IH]; intros s Hi Hwe Hn; change (whileM (S ?k) ?b) with
    (go ← b; if go : bool then whileM k b else mret tt); apply wp_bind, wp_bind, wp_gets; unfold id.
  - replace (in_e s) with (in_w s) by lia. rewrite Z.eqb_refl. do 2 apply wp_ret.
    split_and!; try done. unfold abs. simpl. f_equal. by replace (in_e s - in_w s) with 0 by lia.
  - assert (in_e s <> in_w s) as Hne by lia. rewrite (proj2 (Z.eqb_neq _ _)) by done.
    rewrite (pred_e s Hi Hne).
    destruct (Z.eqb_spec (buf_at s (in_e s - 1)) 10) as [E|E]; simpl.
    { exfalso. pose proof (con_line _ Hi) as Hf.
      change (Forall (fun c => c <> 10) (ring s (in_w s) (in_e s - in_w s))) in Hf.
      replace (in_e s - in_w s) with (in_e s - 1 - in_w s + 1) in Hf by lia.
      rewrite ring_snoc in Hf by lia. apply Forall_app in Hf as [_ [Hf _]%Forall_cons].
      apply Hf. by replace (in_w s + (in_e s - 1 - in_w s)) with (in_e s - 1) by lia. }
    apply wp_bind, wp_modify, wp_bind, wp_consputc. intros o. rewrite (pred_e s Hi Hne). apply wp_ret.
    destruct (inv_shrink s (in_e s - 1) Hi ltac:(lia)) as [Hi' Ha'].
    eapply wp_mono; [apply IH|].
    + by apply inv_out.
    + simpl. lia.
    + simpl. lia.
    + intros [] s' (H1 & H2 & H3 & H4). split_and!; try done.
Qed.
(** The state in which [c] has been put at the end of the line. *)
Definition typed (o : list Z) (c : Z) (s : console) : console :=
  set_uart_out o (set_in_e (in_e s + 1) (buf_set (in_e s) c s)).

Lemma ring_typed_old o c s a n :
  inv s -> in_e s - in_r s < INPUT_BUF -> in_r s <= a -> a + n <= in_e s ->
  ring (typed o c s) a n = ring s a n.
Proof.
  intros [Hl Ho _ _ _] He Ha Hn. unfold INPUT_BUF in *. apply ring_ext. intros k Hk.
  change (buf_at (typed o c s) k) with (buf_at (buf_set (in_e s) c s) k).
  rewrite buf_at_set by (done || lia). by rewrite decide_False by lia.
Qed.

Lemma ring_typed o c s a :
  inv s -> in_e s - in_r s < INPUT_BUF -> 0 <= c < 256 -> in_r s <= a <= in_e s ->
  ring (typed o c s) a (in_e s + 1 - a) = ring s a (in_e s - a) ++ [c].
Proof.
  intros Hi He Hc Ha. replace (in_e s + 1 - a) with (in_e s - a + 1) by lia.
  rewrite ring_snoc, ring_typed_old by (done || lia). f_equal.
  replace (a + (in_e s - a)) with (in_e s) by lia. destruct Hi as [Hl Ho _ _ _]. unfold INPUT_BUF in *.
  change (buf_at (typed o c s) (in_e s)) with (buf_at (buf_set (in_e s) c s) (in_e s)).
  rewrite buf_at_set by (done || lia). rewrite decide_True by done. f_equal. by apply Z.mod_small.
Qed.

(** The typed character commits the line ... *)
Lemma typed_commit o c s :
  inv s -> in_e s - in_r s < INPUT_BUF -> 0 <= c < 256 ->
  let s' := set_in_w (in_e s + 1) (typed o c s) in
  inv s' /\ abs s' = mkLines (committed (abs s) ++ editing (abs s) ++ [c]) [].
Proof.
  intros Hi He Hc s'. pose proof Hi as [Hl Ho Hline Hnw _]. simpl in Hl, Ho, Hnw.
  assert (length (in_buf s') = 128%nat) as Hlen by (simpl; by rewrite length_insert).
  unfold INPUT_BUF in *. split.
  - split; simpl; [done|unfold INPUT_BUF; lia| |unfold INPUT_BUF; lia|done].
    rewrite Z.sub_diag. constructor.
  - unfold abs. simpl. f_equal; [|by rewrite Z.sub_diag].
    transitivity (ring (typed o c s) (in_r s) (in_e s + 1 - in_r s)); [done|].
    rewrite ring_typed by (done || unfold INPUT_BUF; lia).
    replace (in_e s - in_r s) with (in_w s - in_r s + (in_e s - in_w s)) by lia.
    rewrite ring_app by lia. rewrite <- app_assoc. do 2 f_equal. f_equal; lia.
Qed.

(** ... or stays in it. *)
Lemma typed_edit o c s :
  inv s -> in_e s - in_r s + 1 < INPUT_BUF -> 0 <= c < 256 -> c <> 10 ->
  inv (typed o c s) /\ abs (typed o c s) = mkLines (committed (abs s)) (editing (abs s) ++ [c]).
Proof.
  intros Hi He Hc Hc10. pose proof Hi as [Hl Ho Hline Hnw _]. simpl in Hl, Ho, Hnw.
  assert (length (in_buf (typed o c s)) = 128%nat) as Hlen by (simpl; by rewrite length_insert).
  unfold INPUT_BUF in *.
  assert (ring (typed o c s) (in_w s) (in_e s + 1 - in_w s) = ring s (in_w s) (in_e s - in_w s) ++ [c]) as Hr
    by (apply ring_typed; done || unfold INPUT_BUF; lia).
  split.
  - split; simpl; [done|unfold INPUT_BUF in *; lia| |unfold INPUT_BUF; lia|done].
    change (Forall (fun c => c <> 10) (ring (typed o c s) (in_w s) (in_e s + 1 - in_w s))).
    rewrite Hr. apply Forall_app. split; [exact Hline|by apply Forall_singleton].
  - unfold abs. simpl. f_equal; [apply ring_typed_old; done || unfold INPUT_BUF; lia|exact Hr].
Qed.

(** One typed character does to the ring what [line_char] does to the lines. *)
Lemma intr_char_spec c s :
  0 <= c < 256 -> inv s ->
  wp (intr_char c) (fun _ s' => conslock s' = conslock s /\ in_r s' = in_r s /\ inv s' /\
    abs s' = line_char c (abs s)) s.
Proof.
  intros Hc Hi. unfold intr_char, line_char.
  destruct (c =? CTRL 80); [by apply wp_ret|]. destruct (c =? CTRL 85); [by apply kill_line_spec|].
  pose proof Hi as [Hl Ho Hline Hnw _]. simpl in Hl, Ho, Hnw. unfold INPUT_BUF in Ho, Hnw.
  destruct ((c =? CTRL 72) || (c =? 127)).
  - apply wp_bind, wp_gets. unfold id. destruct (Z.eqb_spec (in_e s) (in_w s)) as [E|E]; simpl.
    + apply wp_ret. split_and!; try done. unfold abs. simpl. f_equal.
      by replace (in_e s - in_w s) with 0 by lia.
    + apply wp_bind, wp_modify, wp_consputc. intros o. rewrite (pred_e s Hi E).
      destruct (inv_shrink s (in_e s - 1) Hi ltac:(lia)) as [Hi' Ha'].
      split_and!; [done|done|by apply inv_out|].
      transitivity (abs (set_in_e (in_e s - 1) s)); [done|]. rewrite Ha'. simpl.
      rewrite removelast_ring by lia. do 2 f_equal. lia.
  - apply wp_bind, wp_gets. unfold id. rewrite u64_id by lia.
    replace (Z.of_nat (length (committed (abs s)) + length (editing (abs s)))) with (in_e s - in_r s)
      by (simpl; rewrite !length_ring; lia).
    destruct (negb (c =? 0) && (in_e s - in_r s <? INPUT_BUF)) eqn:E; [|by apply wp_ret].
    apply andb_true_iff in E as [_ E%Z.ltb_lt].
    set (c' := if c =? 13 then 10 else c).
    assert (0 <= c' < 256) as Hc' by (unfold c'; destruct (c =? 13); lia).
    apply wp_bind, wp_modify, wp_bind, wp_consputc. intros o. unfold INPUT_BUF in E.
    rewrite !u64_id by lia. apply wp_bind, wp_gets. unfold id. simpl. fold (typed o c' s).
    unfold INPUT_BUF. replace (in_e s + 1 =? u64 (in_r s + 128)) with (in_e s - in_r s + 1 =? 128)
      by (rewrite u64_id by lia; apply eq_true_iff_eq; rewrite !Z.eqb_eq; lia).
    destruct ((c' =? 10) || (c' =? CTRL 68) || (in_e s - in_r s + 1 =? 128)) eqn:Eb; simpl.
    + apply wp_modify. split_and!; [done|done|..]; by apply typed_commit.
    + apply wp_ret. apply orb_false_iff in Eb as [[Eb%Z.eqb_neq _]%orb_false_iff ?%Z.eqb_neq].
      split_and!; [done|done|..]; apply typed_edit; done || unfold INPUT_BUF; lia.
Qed.

(** [getc] returns [0xff] when there is no more input. *)
Fixpoint until_ff (cs : list Z) : list Z :=
  match cs with
  | [] => []
  | c :: cs' => if c =? 255 then [] else c :: until_ff cs'
  end.

Definition line_chars (cs : list Z) (a : lines) : lines := foldl (fun a c => line_char c a) a cs.

Lemma intr_loop_spec cs s :
  Forall byte_ok cs -> inv s ->
  wp (intr_loop cs) (fun _ s' => conslock s' = conslock s /\ in_r s' = in_r s /\ inv s' /\
    abs s' = line_chars (until_ff cs) (abs s)) s.
Proof.
  intros Hcs. revert s. induction Hcs as [|c cs Hc Hcs IH]; intros s Hi; simpl; [by apply wp_ret|].
  destruct (c =? 255); [by apply wp_ret|].
  apply wp_bind. eapply wp_mono; [by apply intr_char_spec|]. intros [] s1 (H1 & H2 & H3 & H4).
  eapply wp_mono; [by apply IH|]. intros [] s2 (H5 & H6 & H7 & H8).
  split_and!; [congruence|congruence|done|]. by rewrite H8, H4.
Qed.

(** What a reader takes from the committed characters: up to [n] characters,
    to the end of a line or an end-of-file mark, which is left for the next
    reader unless it comes first.  [None]: there is not enough, it waits. *)
Fixpoint take_line (n : nat) (first : bool) (l : list Z) : option (list Z * list Z) :=
  match n, l with
  | O, _ => Some ([], l)
  | S _, [] => None
  | S n', c :: l' =>
      if c =? CTRL 68 then Some ([], if first then l' else l)
      else if c =? 10 then Some ([c], l')
      else p ← take_line n' false l'; Some (c :: p.1, p.2)
  end.

(** [console_read] for a reader whose inode lock is a matter apart. *)
Definition read_con (n : Z) : M console (Z * list Z) :=
  console_read id (fun c _ => c) (mret tt) (mret tt) (fun _ => false) n.

Lemma read_loop_spec n first dst s :
  inv s ->
  in_r s + 2 * INPUT_BUF + Z.of_nat n < 2 ^ 64 ->
  match take_line n first (committed (abs s)) with
  | Some (l, rest) =>
      wp (read_loop id (fun c _ => c) (fun _ => false) n first dst)
        (fun r s' => r = Some (dst ++ l) /\ conslock s' = conslock s /\ inv s' /\
           abs s' = mkLines rest (editing (abs s))) s
  | None => read_loop id (fun c _ => c) (fun _ => false) n first dst s = Sleep
  end.
Proof.
  revert first dst s. induction n as [|n IH]; intros first dst s Hi Hnw.
  { simpl. apply wp_ret. by rewrite app_nil_r. }
  pose proof Hi as [Hl Ho Hline Hn _]. simpl in Hl, Ho, Hn. unfold INPUT_BUF in *.
  destruct (decide (in_r s = in_w s)) as [E|E].
  - change (committed (abs s)) with (ring s (in_r s) (in_w s - in_r s)).
    replace (in_w s - in_r s) with 0 by lia. simpl.
    unfold mbind, M_bind, gets, id. simpl. by rewrite E, Z.eqb_refl.
  - change (committed (abs s)) with (ring s (in_r s) (in_w s - in_r s)).
    rewrite ring_cons by lia. set (c := buf_at s (in_r s)).
    set (s1 := set_in_r (in_r s + 1) s).
    assert (Hi1 : inv s1) by (split; simpl; unfold INPUT_BUF; try done; lia).
    assert (Ha1 : abs s1 = mkLines (ring s (in_r s + 1) (in_w s - in_r s - 1)) (editing (abs s))).
    { unfold abs. simpl. f_equal. replace (in_w s - (in_r s + 1)) with (in_w s - in_r s - 1) by lia. done. }
    assert (Hstep : read_loop id (fun c _ => c) (fun _ => false) (S n) first dst s =
      (if c =? CTRL 68 then
         whenM (negb first) (lift id (fun c _ => c) (modify (fun s => set_in_r (u64 (in_r s - 1)) s)));;
         mret (Some dst)
       else if c =? 10 then mret (Some (dst ++ [c]))
       else read_loop id (fun c _ => c) (fun _ => false) n false (dst ++ [c])) s1).
    { simpl. unfold mbind at 1, M_bind at 1. simpl. rewrite (proj2 (Z.eqb_neq _ _)) by done.
      unfold mbind at 1, M_bind at 1, lift at 1. simpl. rewrite u64_id by lia. reflexivity. }
    simpl take_line. fold c. destruct (c =? CTRL 68) eqn:Ec.
    + unfold wp. rewrite Hstep. destruct first; simpl.
      * rewrite app_nil_r. split_and!; try done.
      * rewrite u64_id by lia. replace (in_r s + 1 - 1) with (in_r s) by lia. rewrite app_nil_r.
        replace (set_in_r (in_r s) s1) with s by (by destruct s).
        split_and!; try done. unfold abs. f_equal. rewrite (ring_cons s (in_r s)) by lia. done.
    + destruct (c =? 10) eqn:E10.
      * unfold wp. rewrite Hstep. split_and!; try done.
      * specialize (IH false (dst ++ [c]) s1 Hi1). unfold wp in *. rewrite Hstep.
        change (committed (abs s1)) with (ring s (in_r s + 1) (in_w s - (in_r s + 1))) in IH.
        replace (in_w s - (in_r s + 1)) with (in_w s - in_r s - 1) in IH by lia.
        destruct (take_line n false (ring s (in_r s + 1) (in_w s - in_r s - 1))) as [[l rest]|] eqn:Et;
          simpl in IH |- *; [|apply IH; lia].
        destruct (read_loop _ _ _ n false _ s1) as [[r s2]| | |]; try (apply IH; simpl; lia).
        specialize (IH ltac:(simpl; lia)). rewrite <- app_assoc in IH. exact IH.
Qed.

(** ** Properties *)

(** C17: The interrupt handler implements the line discipline: from a
    well-formed ring [console_intr] returns with a well-formed ring, whose
    committed characters and edited line are those the typed characters give
    (echo, backspace, kill, carriage return, end of file, full buffer). *)
Theorem console_intr_refines cs s :
  Forall byte_ok cs -> console_inv s ->
  exists s', console_intr cs s = Ok (tt, s') /\ console_inv s' /\
    abs s' = line_chars (until_ff cs) (abs s) /\ in_r s' = in_r s.
Proof.
  intros Hcs Hi. pose proof (con_lock _ Hi) as Hlk.
  assert (inv (set_conslock true s)) as Hi' by (destruct Hi; split; done).
  assert (wp (console_intr cs) (fun _ s' => console_inv s' /\
            abs s' = line_chars (until_ff cs) (abs s) /\ in_r s' = in_r s) s) as Hwp.
  { unfold console_intr, acquire_conslock, release_conslock.
    apply wp_bind, wp_bind, wp_gets. rewrite Hlk. apply wp_bind, wp_assert, wp_modify; [done|].
    apply wp_bind, wp_ret, wp_bind. eapply wp_mono; [by apply intr_loop_spec|].
    intros [] s1 (H1 & H2 & H3 & H4). apply wp_bind, wp_gets. rewrite H1.
    apply wp_bind, wp_assert, wp_modify; [done|]. split_and!; [exact H3|exact H4|exact H2]. }
  apply wp_ok in Hwp as ([] & s' & Heq & H). eauto.
Qed.

Lemma init_console_inv : console_inv init_console.
Proof. by split. Qed.

Lemma console_intr_refines_witness :
  exists s', console_intr [104; 106; 127; 105; 13] init_console = Ok (tt, s') /\ console_inv s' /\
    abs s' = line_chars [104; 106; 127; 105; 13] (mkLines [] []) /\ in_r s' = 0.
Proof.
  apply (console_intr_refines [104; 106; 127; 105; 13] init_console); [|apply init_console_inv].
  apply (bool_decide_unpack _). vm_compute. exact I.
Defined.

(** [console_read] returns the characters of the next line, at most [n],
    and removes them from the committed ones; it waits exactly when they do
    not yet hold a whole line, [n] characters or an end-of-file mark. *)
Theorem console_read_refines n s :
  console_inv s -> 0 <= n -> in_r s + 2 * INPUT_BUF + n < 2 ^ 64 ->
  match take_line (Z.to_nat n) true (committed (abs s)) with
  | Some (l, rest) => exists s', read_con n s = Ok ((Z.of_nat (length l), l), s') /\
                        console_inv s' /\ abs s' = mkLines rest (editing (abs s))
  | None => read_con n s = Sleep
  end.
Proof.
  intros Hi Hn Hnw. pose proof (con_lock _ Hi) as Hlk.
  assert (inv (set_conslock true s)) as Hi' by (destruct Hi; split; done).
  pose proof (read_loop_spec (Z.to_nat n) true [] (set_conslock true s) Hi' ltac:(simpl; lia)) as H.
  change (abs (set_conslock true s)) with (abs s) in H.
  assert (Heq : read_con n s =
    (r ← read_loop id (fun c _ => c) (fun _ => false) (Z.to_nat n) true [];
     lift id (fun c _ => c) release_conslock;; mret tt;;
     match r with None => mret (-1, []) | Some dst => mret (Z.of_nat (length dst), dst) end)
      (set_conslock true s)).
  { unfold read_con, console_read, acquire_conslock. unfold mbind at 1, M_bind at 1. simpl.
    unfold mbind at 1, M_bind at 1, lift at 1, mbind at 1, M_bind at 1. simpl. rewrite Hlk. reflexivity. }
  rewrite Heq. destruct (take_line _ _ _) as [[l rest]|].
  - apply wp_ok in H as (r & s' & Hr & -> & Hl & Hi2 & Ha). unfold mbind at 1, M_bind at 1. rewrite Hr.
    exists (set_conslock false s'). unfold release_conslock, lift, mbind, M_bind, gets. simpl.
    unfold id. rewrite Hl. simpl. split_and!; [done|exact Hi2|exact Ha].
  - unfold mbind at 1, M_bind at 1. by rewrite H.
Qed.

Lemma console_read_refines_witness :
  exists s', read_con 100 (mkConsole (104 :: 105 :: 10 :: replicate 125 0) 0 3 3 false []) =
    Ok ((3, [104; 105; 10]), s') /\ console_inv s' /\ abs s' = mkLines [] [].
Proof.
  apply (console_read_refines 100 (mkConsole (104 :: 105 :: 10 :: replicate 125 0) 0 3 3 false []));
    [by split|done|done].
Defined.

End Console.
