(* ===== verification/Format.v ===== *)
(** * Formatted output (src/common/format.c, and the output of core/console.c)

    [vformat] over any character sink, and the functions of the console that
    use it. A format that is written from a list of directives prints what the
    directives say; an integer is printed as the numeral of its value. *)
From S2P Require Import Prelude CString.

Module Format.
Import CString.

(** [static char digit[] = "0123456789abcdef"] *)
Definition digit : list Z := [48; 49; 50; 51; 52; 53; 54; 55; 56; 57; 97; 98; 99; 100; 101; 102].

Section format.
Context {St : Type} (put_char : Z -> M St unit).
(** The bytes from an address on, for [%s]. *)
Context (mem : Z -> list Z).

(** The first loop of [_print_int]: the characters of [buf] so far, the last
    one first. [room] is what is left of [buf]; a write behind it panics. *)
Fixpoint put_digits (room : nat) (v base : Z) (pos : list Z) : M St (list Z) :=
  match room with
  | O => panic
  | S room' =>
      let pos := digit !!! Z.to_nat (v mod base) :: pos in
      let v := v / base in
      if v =? 0 then mret pos else put_digits room' v base pos
  end.

Definition _print_int (u _base : Z) (is_signed : bool) : M St unit :=
  let v := u64 u in
  let base := u64 _base in
  v ← (if is_signed && (u <? 0) then put_char 45;; mret (u64 (- v)) else mret v);
  pos ← put_digits 64 v base [];
  eachM pos put_char.

(** [va_arg]: the next 8-byte slot. *)
Definition va_arg (args : list Z) : M St (Z * list Z) :=
  match args with [] => panic | a :: args' => mret (a, args') end.

(** The types that [_INT_CASE] reads. *)
Inductive int_type : Type := T_u32 | T_u64 | T_i32 | T_i64.
Definition of_type (t : int_type) (a : Z) : Z :=
  i64 (match t with T_u32 => u32 a | T_u64 => u64 a | T_i32 => i32 a | T_i64 => i64 a end).

(** The [_INT_CASE]s in their order: u, llu, d, lld, x, llx, p, zu, zd. *)
Definition int_cases : list (list Z * int_type * Z * bool) :=
  [([117], T_u32, 10, false); ([108; 108; 117], T_u64, 10, false); ([100], T_i32, 10, true); ([108; 108; 100], T_i64, 10, true);
   ([120], T_u32, 16, false); ([108; 108; 120], T_u64, 16, false); ([112], T_u64, 16, false); ([122; 117], T_u64, 10, false);
   ([122; 100], T_i64, 10, true)].

Fixpoint int_case (cases : list (list Z * int_type * Z * bool)) (pos : list Z) : option (list Z * int_type * Z * bool) :=
  match cases with
  | [] => None
  | (ident, t, base, sign) :: cases' =>
      if strncmp pos ident (length ident) =? 0 then Some (ident, t, base, sign) else int_case cases' pos
  end.

(** [(null)] *)
Definition null_string : list Z := [40; 110; 117; 108; 108; 41].

Definition put_string (s : Z) : M St unit :=
  if s =? 0 then eachM null_string put_char
  else match strlen (mem s) with
       | None => panic
       | Some _ => eachM (cstr (mem s)) put_char
       end.

(** One turn of the loop per character of the format, at most. *)
Fixpoint vformat_loop (fuel : nat) (pos : list Z) (args : list Z) : M St unit :=
  match fuel with
  | O => nofuel
  | S fuel' =>
      let c := byte_at pos 0%nat in
      let pos := drop 1 pos in
      if c =? 0 then mret tt
      else if c =? 37 then
        if byte_at pos 0%nat =? 37 then put_char 37;; vformat_loop fuel' (drop 1 pos) args
        else if byte_at pos 0%nat =? 99 then
          '(a, args) ← va_arg args; put_char (u8 a);; vformat_loop fuel' (drop 1 pos) args
        else if byte_at pos 0%nat =? 115 then
          '(s, args) ← va_arg args; put_string s;; vformat_loop fuel' (drop 1 pos) args
        else
          match int_case int_cases pos with
          | Some (ident, t, base, sign) =>
              '(a, args) ← va_arg args; _print_int (of_type t a) base sign;;
              vformat_loop fuel' (drop (length ident) pos) args
          | None => put_char c;; vformat_loop fuel' pos args
          end
      else put_char c;; vformat_loop fuel' pos args
  end.

Definition vformat (fmt : list Z) (arg : list Z) : M St unit := vformat_loop (S (length fmt)) fmt arg.

(** ** Numerals *)
Definition digit_val (c : Z) : Z := if c <? 97 then c - 48 else c - 87.

(** The value of a numeral, the most significant digit first. *)
Definition num_val (base : Z) (l : list Z) : Z := foldl (fun n c => n * base + digit_val c) 0 l.

(** [l] is the numeral of [v] in [base]: digits below the base, no leading 0. *)
Definition is_numeral (base v : Z) (l : list Z) : Prop :=
  l <> [] /\ Forall (fun c => c ∈ digit /\ digit_val c < base) l /\ (hd 0 l = 48 -> l = [48]) /\ num_val base l = v.

Lemma digit_lookup d : 0 <= d < 16 -> digit !!! Z.to_nat d ∈ digit /\ digit_val (digit !!! Z.to_nat d) = d.
Proof.
  intros Hd. assert (d ∈ seqZ 0 16) as H by (apply elem_of_seqZ; lia). clear Hd. revert d H. apply Forall_forall.
  apply (bool_decide_unpack _). vm_compute. exact I.
Qed.

Lemma num_val_acc base l a : foldl (fun n c => n * base + digit_val c) a l = a * base ^ Z.of_nat (length l) + num_val base l.
Proof.
  revert a. unfold num_val. induction l as [|c l IH]; intros a; [simpl; lia|]. simpl foldl. rewrite IH, (IH (0 * base + _)).
  simpl length. rewrite Nat2Z.inj_succ, Z.pow_succ_r by lia. ring.
Qed.

Lemma num_val_cons base c l : num_val base (c :: l) = digit_val c * base ^ Z.of_nat (length l) + num_val base l.
Proof. unfold num_val at 1. simpl. rewrite num_val_acc. ring. Qed.

(** Put in front of [pos], the digits of [v] are a numeral. *)
Lemma put_digits_ok room v base :
  2 <= base <= 16 -> 0 <= v < base ^ Z.of_nat room -> (0 < room)%nat ->
  exists l, is_numeral base v l /\ forall pos s, put_digits room v base pos s = Ok (l ++ pos, s).
Proof.
  intros Hb. revert v. induction room as [|room IH]; intros v Hv Hr; [lia|].
  simpl put_digits. pose proof (Z.mod_pos_bound v base ltac:(lia)) as Hm.
  destruct (digit_lookup (v mod base) ltac:(lia)) as [Hd Hdv]. set (c := digit !!! Z.to_nat (v mod base)) in *.
  rewrite Nat2Z.inj_succ, Z.pow_succ_r in Hv by lia. pose proof (Z.div_mod v base ltac:(lia)) as Hdm.
  destruct (Z.eqb_spec (v / base) 0) as [E|E].
  - exists [c]. split; [|done]. split; [done|]. split; [|split].
    + apply Forall_singleton. split; [done|]. lia.
    + simpl. congruence.
    + unfold num_val. simpl. rewrite Hdv. lia.
  - assert (0 < v / base) by (pose proof (Z.div_pos v base ltac:(lia) ltac:(lia)); lia).
    assert (v / base < base ^ Z.of_nat room) by (apply Z.div_lt_upper_bound; lia).
    assert (0 < room)%nat by (destruct room; [simpl in *; lia|lia]).
    destruct (IH (v / base) ltac:(lia) ltac:(lia)) as (l & (Hne & Hdig & Hlead & Hval) & Heq).
    exists (l ++ [c]). split; [|intros pos s; rewrite <- app_assoc; apply Heq]. split; [by destruct l|]. split; [|split].
    + apply Forall_app. split; [done|]. apply Forall_singleton. split; [done|lia].
    + intros Hh. exfalso. assert (hd 0 l = 48) as Hh' by (by destruct l). rewrite (Hlead Hh') in Hval. rewrite num_val_cons in Hval. change (digit_val 48) with 0 in Hval. change (num_val base []) with 0 in Hval. lia.
    + unfold num_val. rewrite foldl_app. fold (num_val base l). simpl. rewrite Hdv. lia.
Qed.

(** What an integer is printed as. *)
Definition int_text (base u : Z) (is_signed : bool) (out : list Z) : Prop :=
  if is_signed then exists l, out = (if decide (u < 0) then [45] else []) ++ l /\ is_numeral base (Z.abs u) l
  else is_numeral base (u64 u) out.

Lemma eachM_app {A} (l1 l2 : list A) (f : A -> M St unit) s : eachM (l1 ++ l2) f s = (eachM l1 f;; eachM l2 f) s.
Proof.
  revert s. induction l1 as [|x l1 IH]; intros s; [done|]. simpl. unfold mbind, M_bind in *. destruct (f x s) as [[[] s']| | |]; done || apply IH.
Qed.

Lemma print_int_ok u base is_signed :
  2 <= base <= 16 -> - 2 ^ 63 <= u < 2 ^ 63 ->
  exists out, int_text base u is_signed out /\ forall s, _print_int u base is_signed s = eachM out put_char s.
Proof.
  intros Hb Hu. unfold _print_int, int_text. rewrite (u64_id base) by lia.
  assert (2 ^ 64 <= base ^ Z.of_nat 64) as Hpow by (apply Z.pow_le_mono_l; lia).
  assert (forall v, 0 <= v < 2 ^ 64 -> exists l, is_numeral base v l /\
    forall s, (put_digits 64 v base [] ≫= (fun pos => eachM pos put_char)) s = eachM l put_char s) as Hrun.
  { intros v Hv. destruct (put_digits_ok 64 v base Hb ltac:(lia) ltac:(lia)) as (l & Hl & Heq). exists l. split; [done|].
    intros s. unfold mbind, M_bind. by rewrite Heq, app_nil_r. }
  destruct is_signed; cbn [andb].
  - destruct (Z.ltb_spec u 0) as [E|E].
    + assert (u64 (- u64 u) = - u) as ->.
      { unfold u64. replace (u mod 2 ^ 64) with (u + 2 ^ 64) by (Z.to_euclidean_division_equations; lia). Z.to_euclidean_division_equations; lia. }
      destruct (Hrun (- u) ltac:(lia)) as (l & Hl & Heq). exists (45 :: l). split.
      * exists l. rewrite decide_True by lia. by rewrite Z.abs_neq by lia.
      * intros s. cbn [eachM]. unfold mbind, M_bind, mret, M_ret in *. destruct (put_char 45 s) as [[[] s']| | |]; [apply Heq|done..].
    + destruct (Hrun (u64 u) (u64_range u)) as (l & Hl & Heq). exists l. split; [|intros s; apply Heq].
      exists l. rewrite decide_False by lia. rewrite u64_id in Hl by lia. by rewrite Z.abs_eq by lia.
  - destruct (Hrun (u64 u) (u64_range u)) as (l & Hl & Heq). exists l. split; [done|]. intros s. apply Heq.
Qed.

(** ** Formats from directives *)
Inductive directive : Type :=
| Lit (c : Z)
| Percent
| Chr (a : Z)
| Str (a : Z)
| Int (ident : list Z) (t : int_type) (base : Z) (sign : bool) (a : Z).

Definition directive_ok (d : directive) : Prop :=
  match d with
  | Lit c => c <> 0 /\ c <> 37
  | Str a => a = 0 \/ is_Some (strlen (mem a))
  | Int ident t base sign _ => (ident, t, base, sign) ∈ int_cases
  | _ => True
  end.

(** How it is written in a format, the arguments it takes, what it prints. *)
Definition written (d : directive) : list Z :=
  match d with
  | Lit c => [c] | Percent => [37; 37] | Chr _ => [37; 99] | Str _ => [37; 115]
  | Int ident _ _ _ _ => 37 :: ident
  end.
Definition taken_args (d : directive) : list Z :=
  match d with Chr a => [a] | Str a => [a] | Int _ _ _ _ a => [a] | _ => [] end.
Definition prints (d : directive) (out : list Z) : Prop :=
  match d with
  | Lit c => out = [c]
  | Percent => out = [37]
  | Chr a => out = [u8 a]
  | Str a => out = if decide (a = 0) then null_string else cstr (mem a)
  | Int _ t base sign a => int_text base (of_type t a) sign out
  end.

Lemma swrap64_range z : - 2 ^ 63 <= i64 z < 2 ^ 63.
Proof. unfold i64, swrap. pose proof (Z.mod_pos_bound (z + 2 ^ (64 - 1)) (2 ^ 64) ltac:(lia)). lia. Qed.

Lemma int_case_written ident t base sign rest :
  (ident, t, base, sign) ∈ int_cases ->
  int_case int_cases (ident ++ rest) = Some (ident, t, base, sign) /\ 2 <= base <= 16 /\
  exists c l, ident = c :: l /\ c <> 37 /\ c <> 99 /\ c <> 115.
Proof.
  unfold int_cases. intros H.
  repeat (apply elem_of_cons in H as [H|H]; [injection H as -> -> -> ->; split; [reflexivity|split; [lia|by eexists _, _]]|]).
  by apply not_elem_of_nil in H.
Qed.

Lemma put_string_ok a s :
  a = 0 \/ is_Some (strlen (mem a)) -> put_string a s = eachM (if decide (a = 0) then null_string else cstr (mem a)) put_char s.
Proof.
  intros H. unfold put_string. destruct (Z.eqb_spec a 0) as [->|Hne]; [by rewrite decide_True|]. rewrite decide_False by done.
  destruct H as [|[n Hn]]; [done|]. by rewrite Hn.
Qed.

(** One directive in front of a format. *)
Lemma vformat_step fuel d rest args :
  directive_ok d ->
  exists out, prints d out /\ forall s, vformat_loop (S fuel) (written d ++ rest) (taken_args d ++ args) s =
    (eachM out put_char;; vformat_loop fuel rest args) s.
Proof.
  intros Hok. destruct d as [c| |a|a|ident t base sign a]; simpl in Hok.
  - destruct Hok as [H0 H37]. exists [c]. split; [done|]. intros s. simpl written. simpl app. cbn [vformat_loop].
    change (byte_at (c :: rest) 0) with c. rewrite (proj2 (Z.eqb_neq c 0) H0), (proj2 (Z.eqb_neq c 37) H37).
    simpl. unfold mbind, M_bind. destruct (put_char c s) as [[[] s']| | |]; done.
  - exists [37]. split; [done|]. intros s. simpl. unfold mbind, M_bind. destruct (put_char 37 s) as [[[] s']| | |]; done.
  - exists [u8 a]. split; [done|]. intros s. simpl. unfold mbind, M_bind. simpl. destruct (put_char (u8 a) s) as [[[] s']| | |]; done.
  - eexists. split; [done|]. intros s. simpl. unfold mbind, M_bind. simpl. by rewrite put_string_ok.
  - destruct (int_case_written _ _ _ _ rest Hok) as (Hcase & Hbase & c & l & Hid & H1 & H2 & H3).
    destruct (print_int_ok (of_type t a) base sign Hbase (swrap64_range _)) as (out & Hout & Hrun). exists out. split; [done|].
    intros s. simpl written. simpl taken_args. simpl app. cbn [vformat_loop]. change (byte_at (37 :: ident ++ rest) 0) with 37.
    change (37 =? 0) with false. change (37 =? 37) with true. cbn iota. change (drop 1 (37 :: ident ++ rest)) with (ident ++ rest).
    assert (byte_at (ident ++ rest) 0 = c) as -> by (by rewrite Hid).
    rewrite (proj2 (Z.eqb_neq c 37) H1), (proj2 (Z.eqb_neq c 99) H2), (proj2 (Z.eqb_neq c 115) H3), Hcase.
    cbn [app va_arg]. unfold mbind, M_bind, mret, M_ret. cbn iota beta. rewrite Hrun. by rewrite drop_app_length.
Qed.

Lemma length_written ds : (length ds <= length (concat (written <$> ds)))%nat.
Proof.
  induction ds as [|d ds IH]; [done|]. rewrite fmap_cons. cbn [concat length]. rewrite length_app.
  assert (1 <= length (written d))%nat by (destruct d; simpl; lia). lia.
Qed.

(** C35: formatted output prints what the format says. For a format written
    from directives (plain characters, [%%], [%c], [%s], and the nine integer
    conversions), followed by a NUL, and arguments that match, [vformat] sends
    exactly the texts of the directives, in order, whatever the sink does: a
    [%s] prints the string up to its NUL or [(null)], an integer conversion
    prints the numeral of the argument at the width and signedness of the
    conversion, in its base, without leading zeros and with a sign if it is
    negative. *)
Theorem vformat_correct ds rest extra :
  Forall directive_ok ds ->
  exists outs, Forall2 prints ds outs /\
    forall s, vformat (concat (written <$> ds) ++ 0 :: rest) (concat (taken_args <$> ds) ++ extra) s = eachM (concat outs) put_char s.
Proof.
  intros Hok. unfold vformat.
  enough (forall fuel, (length ds < fuel)%nat -> exists outs, Forall2 prints ds outs /\
    forall s, vformat_loop fuel (concat (written <$> ds) ++ 0 :: rest) (concat (taken_args <$> ds) ++ extra) s = eachM (concat outs) put_char s) as H.
  { apply H. rewrite length_app, Nat.lt_succ_r. transitivity (length (concat (written <$> ds))); [|lia]. apply length_written. }
  induction Hok as [|d ds Hd Hds IH]; intros fuel Hf; (destruct fuel as [|fuel]; [simpl in Hf; lia|]).
  - exists []. by split.
  - simpl in Hf. destruct (IH fuel ltac:(lia)) as (outs & Hp & Hrun).
    destruct (vformat_step fuel d (concat (written <$> ds) ++ 0 :: rest) (concat (taken_args <$> ds) ++ extra) Hd) as (out & Ho & Hstep).
    exists (out :: outs). split; [by constructor|]. intros s. rewrite !fmap_cons. simpl concat. rewrite <- !app_assoc, Hstep.
    rewrite eachM_app. unfold mbind, M_bind. destruct (eachM out put_char s) as [[[] s']| | |]; [apply Hrun|done..].
Qed.

End format.
(** A sink that collects the characters; "x=%d %s" with [-5] and [NULL]. *)
Definition collect (c : Z) : M (list Z) unit := modify (fun s => s ++ [c]).

Example vformat_example :
  vformat collect (fun _ => []) [120; 61; 37; 100; 32; 37; 115; 0] [2 ^ 32 - 5; 0] [] =
    Ok (tt, [120; 61; 45; 53; 32; 40; 110; 117; 108; 108; 41]).
Proof. vm_compute. reflexivity. Qed.

Lemma vformat_correct_witness :
  exists outs, Forall2 (prints (fun _ => [])) [Lit 120; Lit 61; Int [100] T_i32 10 true (2 ^ 32 - 5); Lit 32; Str 0] outs /\
    forall s, vformat collect (fun _ => []) [120; 61; 37; 100; 32; 37; 115; 0] [2 ^ 32 - 5; 0] s = eachM (concat outs) collect s.
Proof.
  apply (vformat_correct collect (fun _ => []) [Lit 120; Lit 61; Int [100] T_i32 10 true (2 ^ 32 - 5); Lit 32; Str 0] [] []).
  repeat apply Forall_cons_2; [by split..| |by split|by left|constructor].
  apply list_elem_of_In. right. right. left. reflexivity.
Defined.

(** ** The console's output (core/console.c) *)
Definition NEWLINE : Z := 10.
Definition PANIC_BAR_CHAR : Z := 61.
Definition PANIC_BAR_LENGTH : Z := 32.

(** [ctx.lock], [panicked_flag] and the characters sent to [ctx.device]. *)
Record outctx : Type := mkOutctx { oc_locked : bool; panicked_flag : bool; oc_out : list Z }.

(** Whether a function returns, or ends in [no_return]. *)
Inductive returns : Type := Returns | NoReturn.

Section output.
Context (mem : Z -> list Z) (cpuid : Z).

Definition acquire_ctx : M outctx unit :=
  b ← gets oc_locked; assert_ (negb b);; modify (fun s => mkOutctx true (panicked_flag s) (oc_out s)).
Definition release_ctx : M outctx unit :=
  b ← gets oc_locked; assert_ b;; modify (fun s => mkOutctx false (panicked_flag s) (oc_out s)).
(** [ctx.device.put] *)
Definition device_put (c : Z) : M outctx unit := modify (fun s => mkOutctx (oc_locked s) (panicked_flag s) (oc_out s ++ [u8 c])).

Definition check_panicked : M outctx returns :=
  panicked ← gets panicked_flag;
  if (panicked : bool) then release_ctx;; mret NoReturn else mret Returns.

(** The rest of a function after [check_panicked]. *)
Definition unless_panicked (m : M outctx returns) : M outctx returns :=
  r ← check_panicked; match r with NoReturn => mret NoReturn | Returns => m end.

Definition puts (str : list Z) : M outctx returns :=
  acquire_ctx;;
  unless_panicked (eachM (cstr str) device_put;; device_put NEWLINE;; release_ctx;; mret Returns).

Definition _put_char (c : Z) : M outctx unit := device_put c.

Definition vprintf (fmt arg : list Z) : M outctx returns :=
  acquire_ctx;;
  unless_panicked (vformat _put_char mem fmt arg;; release_ctx;; mret Returns).

Definition printf (fmt args : list Z) : M outctx returns := vprintf fmt args.

(** The three messages of [_panic], as bytes: the formats with [%zu] and [%s]. *)
Definition panic_cpu_fmt : list Z :=
  [75; 69; 82; 78; 69; 76; 32; 80; 65; 78; 73; 67; 32; 97; 116; 32; 67; 80; 85; 32; 37; 122; 117; 58; 10; 0].
Definition panic_file_fmt : list Z := [102; 105; 108; 101; 58; 32; 37; 115; 10; 0].
Definition panic_line_fmt : list Z := [108; 105; 110; 101; 58; 32; 37; 122; 117; 10; 0].

(** [file] is the address of the name of the source file. *)
Definition _panic (file line : Z) (fmt arg : list Z) : M outctx returns :=
  acquire_ctx;;
  unless_panicked
    (modify (fun s => mkOutctx (oc_locked s) true (oc_out s));;
     eachM (seqZ 0 PANIC_BAR_LENGTH) (fun _ => device_put PANIC_BAR_CHAR);;
     device_put NEWLINE;;
     vformat _put_char mem panic_cpu_fmt [cpuid];;
     vformat _put_char mem panic_file_fmt [file];;
     vformat _put_char mem panic_line_fmt [line];;
     vformat _put_char mem fmt arg;;
     device_put NEWLINE;;
     release_ctx;;
     mret NoReturn).
End output.

End Format.
