(* ===== verification/Mmio.v ===== *)
(** * Device registers (src/aarch64/arm.h, intrinsic.h)

    A device is a state machine behind its registers: reading a register gives
    a value and may change the device, writing changes it, and so does the time
    that passes while the kernel waits. *)
From S2P Require Import Prelude.

Module Mmio.

(** [Us n]: [n] microseconds; [Turns n]: [n] turns of the loop of [delay]. *)
Inductive pause : Type := Us (n : Z) | Turns (n : Z).

Class Mmio (D : Type) : Type := {
  reg_read : Z -> D -> Z * D;
  reg_write : Z -> Z -> D -> D;
  dev_wait : pause -> D -> D
}.

Definition KERNEL_BASE : Z := 0xffff000000000000.
Definition MMIO_BASE : Z := KERNEL_BASE + 0x3F000000.
Definition LOCAL_BASE : Z := KERNEL_BASE + 0x40000000.

(** *** gpio.h *)
Definition GPIO_BASE : Z := MMIO_BASE + 0x200000.
Definition GPFSEL4 : Z := GPIO_BASE + 0x10.
Definition GPFSEL5 : Z := GPIO_BASE + 0x14.
Definition GPEDS1 : Z := GPIO_BASE + 0x44.
Definition GPHEN1 : Z := GPIO_BASE + 0x68.
Definition GPPUD : Z := GPIO_BASE + 0x94.
Definition GPPUDCLK0 : Z := GPIO_BASE + 0x98.
Definition GPPUDCLK1 : Z := GPIO_BASE + 0x9C.

Section mmio.
Context {D : Type} `{Mmio D}.

Definition get32 (p : Z) : M D Z := fun d => let '(v, d') := reg_read p d in Ok (v, d').
Definition put32 (p x : Z) : M D unit := modify (reg_write p (u32 x)).
Definition device_get_u32 (addr : Z) : M D Z := get32 addr.
Definition device_put_u32 (addr value : Z) : M D unit := put32 addr value.
Definition delay (count : Z) : M D unit := modify (dev_wait (Turns count)).
Definition delayus (n : Z) : M D unit := modify (dev_wait (Us n)).

(** [*reg = f( *reg);] *)
Definition update32 (p : Z) (f : Z -> Z) : M D unit := v ← get32 p; put32 p (f v).

(** [while (cond && count--) pause;]: the last value of [count]. *)
Fixpoint poll_down {St} (cond : M St bool) (pause : M St unit) (count : nat) : M St Z :=
  b ← cond;
  if negb b then mret (Z.of_nat count)
  else match count with O => mret (-1) | S n => pause;; poll_down cond pause n end.

(** [while (cond && --count) pause;] *)
Fixpoint poll_pre {St} (cond : M St bool) (pause : M St unit) (count : nat) : M St Z :=
  b ← cond;
  if negb b then mret (Z.of_nat count)
  else match count with
       | O => mret (-1)
       | S n => if bool_decide (n = O) then mret 0 else pause;; poll_pre cond pause n
       end.

(** [while (cond && ++count < limit) pause;], with [left = limit - count]. *)
Fixpoint poll_up {St} (cond : M St bool) (pause : M St unit) (limit : Z) (left : nat) : M St Z :=
  b ← cond;
  if negb b then mret (limit - Z.of_nat left)
  else match left with
       | O => mret (limit + 1)
       | S n => if bool_decide (n = O) then mret limit else pause;; poll_up cond pause limit n
       end.
End mmio.
End Mmio.
