(* ===== verification/KernelPt.v ===== *)
(** * The page tables of the kernel (src/aarch64/kernel_pt.c)

    The constant tables that start.S loads: physical memory seen from
    [KSPACE_MASK] on, in blocks of two megabytes, normal memory up to the
    registers of the devices. *)
From S2P Require Import Prelude PhysMem VirtMem VmFacts Mmio.

Module KernelPt.
Import PhysMem VirtMem VmFacts Mmio.

(** mmu.h *)
Definition MT_DEVICE_nGnRnE : Z := 0x0.
Definition PTE_BLOCK : Z := 0x1.
Definition PTE_KERNEL : Z := Z.shiftl 0 6.
Definition PTE_DEVICE : Z := Z.lor (Z.shiftl MT_DEVICE_nGnRnE 2) AF_USED.
Definition PTE_KERNEL_DATA : Z := Z.lor (Z.lor PTE_KERNEL PTE_NORMAL) PTE_BLOCK.
Definition PTE_KERNEL_DEVICE : Z := Z.lor (Z.lor PTE_KERNEL PTE_DEVICE) PTE_BLOCK.

#[local] Notation "a .| b" := (Z.lor a b) (at level 45, no associativity).

Definition kernel_pt_level3 : list Z := [
    0x0 .| PTE_KERNEL_DATA; 0x200000 .| PTE_KERNEL_DATA; 0x400000 .| PTE_KERNEL_DATA;
    0x600000 .| PTE_KERNEL_DATA; 0x800000 .| PTE_KERNEL_DATA; 0xa00000 .| PTE_KERNEL_DATA;
    0xc00000 .| PTE_KERNEL_DATA; 0xe00000 .| PTE_KERNEL_DATA; 0x1000000 .| PTE_KERNEL_DATA;
    0x1200000 .| PTE_KERNEL_DATA; 0x1400000 .| PTE_KERNEL_DATA; 0x1600000 .| PTE_KERNEL_DATA;
    0x1800000 .| PTE_KERNEL_DATA; 0x1a00000 .| PTE_KERNEL_DATA; 0x1c00000 .| PTE_KERNEL_DATA;
    0x1e00000 .| PTE_KERNEL_DATA; 0x2000000 .| PTE_KERNEL_DATA; 0x2200000 .| PTE_KERNEL_DATA;
    0x2400000 .| PTE_KERNEL_DATA; 0x2600000 .| PTE_KERNEL_DATA; 0x2800000 .| PTE_KERNEL_DATA;
    0x2a00000 .| PTE_KERNEL_DATA; 0x2c00000 .| PTE_KERNEL_DATA; 0x2e00000 .| PTE_KERNEL_DATA;
    0x3000000 .| PTE_KERNEL_DATA; 0x3200000 .| PTE_KERNEL_DATA; 0x3400000 .| PTE_KERNEL_DATA;
    0x3600000 .| PTE_KERNEL_DATA; 0x3800000 .| PTE_KERNEL_DATA; 0x3a00000 .| PTE_KERNEL_DATA;
    0x3c00000 .| PTE_KERNEL_DATA; 0x3e00000 .| PTE_KERNEL_DATA; 0x4000000 .| PTE_KERNEL_DATA;
    0x4200000 .| PTE_KERNEL_DATA; 0x4400000 .| PTE_KERNEL_DATA; 0x4600000 .| PTE_KERNEL_DATA;
    0x4800000 .| PTE_KERNEL_DATA; 0x4a00000 .| PTE_KERNEL_DATA; 0x4c00000 .| PTE_KERNEL_DATA;
    0x4e00000 .| PTE_KERNEL_DATA; 0x5000000 .| PTE_KERNEL_DATA; 0x5200000 .| PTE_KERNEL_DATA;
    0x5400000 .| PTE_KERNEL_DATA; 0x5600000 .| PTE_KERNEL_DATA; 0x5800000 .| PTE_KERNEL_DATA;
    0x5a00000 .| PTE_KERNEL_DATA; 0x5c00000 .| PTE_KERNEL_DATA; 0x5e00000 .| PTE_KERNEL_DATA;
    0x6000000 .| PTE_KERNEL_DATA; 0x6200000 .| PTE_KERNEL_DATA; 0x6400000 .| PTE_KERNEL_DATA;
    0x6600000 .| PTE_KERNEL_DATA; 0x6800000 .| PTE_KERNEL_DATA; 0x6a00000 .| PTE_KERNEL_DATA;
    0x6c00000 .| PTE_KERNEL_DATA; 0x6e00000 .| PTE_KERNEL_DATA; 0x7000000 .| PTE_KERNEL_DATA;
    0x7200000 .| PTE_KERNEL_DATA; 0x7400000 .| PTE_KERNEL_DATA; 0x7600000 .| PTE_KERNEL_DATA;
    0x7800000 .| PTE_KERNEL_DATA; 0x7a00000 .| PTE_KERNEL_DATA; 0x7c00000 .| PTE_KERNEL_DATA;
    0x7e00000 .| PTE_KERNEL_DATA; 0x8000000 .| PTE_KERNEL_DATA; 0x8200000 .| PTE_KERNEL_DATA;
    0x8400000 .| PTE_KERNEL_DATA; 0x8600000 .| PTE_KERNEL_DATA; 0x8800000 .| PTE_KERNEL_DATA;
    0x8a00000 .| PTE_KERNEL_DATA; 0x8c00000 .| PTE_KERNEL_DATA; 0x8e00000 .| PTE_KERNEL_DATA;
    0x9000000 .| PTE_KERNEL_DATA; 0x9200000 .| PTE_KERNEL_DATA; 0x9400000 .| PTE_KERNEL_DATA;
    0x9600000 .| PTE_KERNEL_DATA; 0x9800000 .| PTE_KERNEL_DATA; 0x9a00000 .| PTE_KERNEL_DATA;
    0x9c00000 .| PTE_KERNEL_DATA; 0x9e00000 .| PTE_KERNEL_DATA; 0xa000000 .| PTE_KERNEL_DATA;
    0xa200000 .| PTE_KERNEL_DATA; 0xa400000 .| PTE_KERNEL_DATA; 0xa600000 .| PTE_KERNEL_DATA;
    0xa800000 .| PTE_KERNEL_DATA; 0xaa00000 .| PTE_KERNEL_DATA; 0xac00000 .| PTE_KERNEL_DATA;
    0xae00000 .| PTE_KERNEL_DATA; 0xb000000 .| PTE_KERNEL_DATA; 0xb200000 .| PTE_KERNEL_DATA;
    0xb400000 .| PTE_KERNEL_DATA; 0xb600000 .| PTE_KERNEL_DATA; 0xb800000 .| PTE_KERNEL_DATA;
    0xba00000 .| PTE_KERNEL_DATA; 0xbc00000 .| PTE_KERNEL_DATA; 0xbe00000 .| PTE_KERNEL_DATA;
    0xc000000 .| PTE_KERNEL_DATA; 0xc200000 .| PTE_KERNEL_DATA; 0xc400000 .| PTE_KERNEL_DATA;
    0xc600000 .| PTE_KERNEL_DATA; 0xc800000 .| PTE_KERNEL_DATA; 0xca00000 .| PTE_KERNEL_DATA;
    0xcc00000 .| PTE_KERNEL_DATA; 0xce00000 .| PTE_KERNEL_DATA; 0xd000000 .| PTE_KERNEL_DATA;
    0xd200000 .| PTE_KERNEL_DATA; 0xd400000 .| PTE_KERNEL_DATA; 0xd600000 .| PTE_KERNEL_DATA;
    0xd800000 .| PTE_KERNEL_DATA; 0xda00000 .| PTE_KERNEL_DATA; 0xdc00000 .| PTE_KERNEL_DATA;
    0xde00000 .| PTE_KERNEL_DATA; 0xe000000 .| PTE_KERNEL_DATA; 0xe200000 .| PTE_KERNEL_DATA;
    0xe400000 .| PTE_KERNEL_DATA; 0xe600000 .| PTE_KERNEL_DATA; 0xe800000 .| PTE_KERNEL_DATA;
    0xea00000 .| PTE_KERNEL_DATA; 0xec00000 .| PTE_KERNEL_DATA; 0xee00000 .| PTE_KERNEL_DATA;
    0xf000000 .| PTE_KERNEL_DATA; 0xf200000 .| PTE_KERNEL_DATA; 0xf400000 .| PTE_KERNEL_DATA;
    0xf600000 .| PTE_KERNEL_DATA; 0xf800000 .| PTE_KERNEL_DATA; 0xfa00000 .| PTE_KERNEL_DATA;
    0xfc00000 .| PTE_KERNEL_DATA; 0xfe00000 .| PTE_KERNEL_DATA; 0x10000000 .| PTE_KERNEL_DATA;
    0x10200000 .| PTE_KERNEL_DATA; 0x10400000 .| PTE_KERNEL_DATA; 0x10600000 .| PTE_KERNEL_DATA;
    0x10800000 .| PTE_KERNEL_DATA; 0x10a00000 .| PTE_KERNEL_DATA; 0x10c00000 .| PTE_KERNEL_DATA;
    0x10e00000 .| PTE_KERNEL_DATA; 0x11000000 .| PTE_KERNEL_DATA; 0x11200000 .| PTE_KERNEL_DATA;
    0x11400000 .| PTE_KERNEL_DATA; 0x11600000 .| PTE_KERNEL_DATA; 0x11800000 .| PTE_KERNEL_DATA;
    0x11a00000 .| PTE_KERNEL_DATA; 0x11c00000 .| PTE_KERNEL_DATA; 0x11e00000 .| PTE_KERNEL_DATA;
    0x12000000 .| PTE_KERNEL_DATA; 0x12200000 .| PTE_KERNEL_DATA; 0x12400000 .| PTE_KERNEL_DATA;
    0x12600000 .| PTE_KERNEL_DATA; 0x12800000 .| PTE_KERNEL_DATA; 0x12a00000 .| PTE_KERNEL_DATA;
    0x12c00000 .| PTE_KERNEL_DATA; 0x12e00000 .| PTE_KERNEL_DATA; 0x13000000 .| PTE_KERNEL_DATA;
    0x13200000 .| PTE_KERNEL_DATA; 0x13400000 .| PTE_KERNEL_DATA; 0x13600000 .| PTE_KERNEL_DATA;
    0x13800000 .| PTE_KERNEL_DATA; 0x13a00000 .| PTE_KERNEL_DATA; 0x13c00000 .| PTE_KERNEL_DATA;
    0x13e00000 .| PTE_KERNEL_DATA; 0x14000000 .| PTE_KERNEL_DATA; 0x14200000 .| PTE_KERNEL_DATA;
    0x14400000 .| PTE_KERNEL_DATA; 0x14600000 .| PTE_KERNEL_DATA; 0x14800000 .| PTE_KERNEL_DATA;
    0x14a00000 .| PTE_KERNEL_DATA; 0x14c00000 .| PTE_KERNEL_DATA; 0x14e00000 .| PTE_KERNEL_DATA;
    0x15000000 .| PTE_KERNEL_DATA; 0x15200000 .| PTE_KERNEL_DATA; 0x15400000 .| PTE_KERNEL_DATA;
    0x15600000 .| PTE_KERNEL_DATA; 0x15800000 .| PTE_KERNEL_DATA; 0x15a00000 .| PTE_KERNEL_DATA;
    0x15c00000 .| PTE_KERNEL_DATA; 0x15e00000 .| PTE_KERNEL_DATA; 0x16000000 .| PTE_KERNEL_DATA;
    0x16200000 .| PTE_KERNEL_DATA; 0x16400000 .| PTE_KERNEL_DATA; 0x16600000 .| PTE_KERNEL_DATA;
    0x16800000 .| PTE_KERNEL_DATA; 0x16a00000 .| PTE_KERNEL_DATA; 0x16c00000 .| PTE_KERNEL_DATA;
    0x16e00000 .| PTE_KERNEL_DATA; 0x17000000 .| PTE_KERNEL_DATA; 0x17200000 .| PTE_KERNEL_DATA;
    0x17400000 .| PTE_KERNEL_DATA; 0x17600000 .| PTE_KERNEL_DATA; 0x17800000 .| PTE_KERNEL_DATA;
    0x17a00000 .| PTE_KERNEL_DATA; 0x17c00000 .| PTE_KERNEL_DATA; 0x17e00000 .| PTE_KERNEL_DATA;
    0x18000000 .| PTE_KERNEL_DATA; 0x18200000 .| PTE_KERNEL_DATA; 0x18400000 .| PTE_KERNEL_DATA;
    0x18600000 .| PTE_KERNEL_DATA; 0x18800000 .| PTE_KERNEL_DATA; 0x18a00000 .| PTE_KERNEL_DATA;
    0x18c00000 .| PTE_KERNEL_DATA; 0x18e00000 .| PTE_KERNEL_DATA; 0x19000000 .| PTE_KERNEL_DATA;
    0x19200000 .| PTE_KERNEL_DATA; 0x19400000 .| PTE_KERNEL_DATA; 0x19600000 .| PTE_KERNEL_DATA;
    0x19800000 .| PTE_KERNEL_DATA; 0x19a00000 .| PTE_KERNEL_DATA; 0x19c00000 .| PTE_KERNEL_DATA;
    0x19e00000 .| PTE_KERNEL_DATA; 0x1a000000 .| PTE_KERNEL_DATA; 0x1a200000 .| PTE_KERNEL_DATA;
    0x1a400000 .| PTE_KERNEL_DATA; 0x1a600000 .| PTE_KERNEL_DATA; 0x1a800000 .| PTE_KERNEL_DATA;
    0x1aa00000 .| PTE_KERNEL_DATA; 0x1ac00000 .| PTE_KERNEL_DATA; 0x1ae00000 .| PTE_KERNEL_DATA;
    0x1b000000 .| PTE_KERNEL_DATA; 0x1b200000 .| PTE_KERNEL_DATA; 0x1b400000 .| PTE_KERNEL_DATA;
    0x1b600000 .| PTE_KERNEL_DATA; 0x1b800000 .| PTE_KERNEL_DATA; 0x1ba00000 .| PTE_KERNEL_DATA;
    0x1bc00000 .| PTE_KERNEL_DATA; 0x1be00000 .| PTE_KERNEL_DATA; 0x1c000000 .| PTE_KERNEL_DATA;
    0x1c200000 .| PTE_KERNEL_DATA; 0x1c400000 .| PTE_KERNEL_DATA; 0x1c600000 .| PTE_KERNEL_DATA;
    0x1c800000 .| PTE_KERNEL_DATA; 0x1ca00000 .| PTE_KERNEL_DATA; 0x1cc00000 .| PTE_KERNEL_DATA;
    0x1ce00000 .| PTE_KERNEL_DATA; 0x1d000000 .| PTE_KERNEL_DATA; 0x1d200000 .| PTE_KERNEL_DATA;
    0x1d400000 .| PTE_KERNEL_DATA; 0x1d600000 .| PTE_KERNEL_DATA; 0x1d800000 .| PTE_KERNEL_DATA;
    0x1da00000 .| PTE_KERNEL_DATA; 0x1dc00000 .| PTE_KERNEL_DATA; 0x1de00000 .| PTE_KERNEL_DATA;
    0x1e000000 .| PTE_KERNEL_DATA; 0x1e200000 .| PTE_KERNEL_DATA; 0x1e400000 .| PTE_KERNEL_DATA;
    0x1e600000 .| PTE_KERNEL_DATA; 0x1e800000 .| PTE_KERNEL_DATA; 0x1ea00000 .| PTE_KERNEL_DATA;
    0x1ec00000 .| PTE_KERNEL_DATA; 0x1ee00000 .| PTE_KERNEL_DATA; 0x1f000000 .| PTE_KERNEL_DATA;
    0x1f200000 .| PTE_KERNEL_DATA; 0x1f400000 .| PTE_KERNEL_DATA; 0x1f600000 .| PTE_KERNEL_DATA;
    0x1f800000 .| PTE_KERNEL_DATA; 0x1fa00000 .| PTE_KERNEL_DATA; 0x1fc00000 .| PTE_KERNEL_DATA;
    0x1fe00000 .| PTE_KERNEL_DATA; 0x20000000 .| PTE_KERNEL_DATA; 0x20200000 .| PTE_KERNEL_DATA;
    0x20400000 .| PTE_KERNEL_DATA; 0x20600000 .| PTE_KERNEL_DATA; 0x20800000 .| PTE_KERNEL_DATA;
    0x20a00000 .| PTE_KERNEL_DATA; 0x20c00000 .| PTE_KERNEL_DATA; 0x20e00000 .| PTE_KERNEL_DATA;
    0x21000000 .| PTE_KERNEL_DATA; 0x21200000 .| PTE_KERNEL_DATA; 0x21400000 .| PTE_KERNEL_DATA;
    0x21600000 .| PTE_KERNEL_DATA; 0x21800000 .| PTE_KERNEL_DATA; 0x21a00000 .| PTE_KERNEL_DATA;
    0x21c00000 .| PTE_KERNEL_DATA; 0x21e00000 .| PTE_KERNEL_DATA; 0x22000000 .| PTE_KERNEL_DATA;
    0x22200000 .| PTE_KERNEL_DATA; 0x22400000 .| PTE_KERNEL_DATA; 0x22600000 .| PTE_KERNEL_DATA;
    0x22800000 .| PTE_KERNEL_DATA; 0x22a00000 .| PTE_KERNEL_DATA; 0x22c00000 .| PTE_KERNEL_DATA;
    0x22e00000 .| PTE_KERNEL_DATA; 0x23000000 .| PTE_KERNEL_DATA; 0x23200000 .| PTE_KERNEL_DATA;
    0x23400000 .| PTE_KERNEL_DATA; 0x23600000 .| PTE_KERNEL_DATA; 0x23800000 .| PTE_KERNEL_DATA;
    0x23a00000 .| PTE_KERNEL_DATA; 0x23c00000 .| PTE_KERNEL_DATA; 0x23e00000 .| PTE_KERNEL_DATA;
    0x24000000 .| PTE_KERNEL_DATA; 0x24200000 .| PTE_KERNEL_DATA; 0x24400000 .| PTE_KERNEL_DATA;
    0x24600000 .| PTE_KERNEL_DATA; 0x24800000 .| PTE_KERNEL_DATA; 0x24a00000 .| PTE_KERNEL_DATA;
    0x24c00000 .| PTE_KERNEL_DATA; 0x24e00000 .| PTE_KERNEL_DATA; 0x25000000 .| PTE_KERNEL_DATA;
    0x25200000 .| PTE_KERNEL_DATA; 0x25400000 .| PTE_KERNEL_DATA; 0x25600000 .| PTE_KERNEL_DATA;
    0x25800000 .| PTE_KERNEL_DATA; 0x25a00000 .| PTE_KERNEL_DATA; 0x25c00000 .| PTE_KERNEL_DATA;
    0x25e00000 .| PTE_KERNEL_DATA; 0x26000000 .| PTE_KERNEL_DATA; 0x26200000 .| PTE_KERNEL_DATA;
    0x26400000 .| PTE_KERNEL_DATA; 0x26600000 .| PTE_KERNEL_DATA; 0x26800000 .| PTE_KERNEL_DATA;
    0x26a00000 .| PTE_KERNEL_DATA; 0x26c00000 .| PTE_KERNEL_DATA; 0x26e00000 .| PTE_KERNEL_DATA;
    0x27000000 .| PTE_KERNEL_DATA; 0x27200000 .| PTE_KERNEL_DATA; 0x27400000 .| PTE_KERNEL_DATA;
    0x27600000 .| PTE_KERNEL_DATA; 0x27800000 .| PTE_KERNEL_DATA; 0x27a00000 .| PTE_KERNEL_DATA;
    0x27c00000 .| PTE_KERNEL_DATA; 0x27e00000 .| PTE_KERNEL_DATA; 0x28000000 .| PTE_KERNEL_DATA;
    0x28200000 .| PTE_KERNEL_DATA; 0x28400000 .| PTE_KERNEL_DATA; 0x28600000 .| PTE_KERNEL_DATA;
    0x28800000 .| PTE_KERNEL_DATA; 0x28a00000 .| PTE_KERNEL_DATA; 0x28c00000 .| PTE_KERNEL_DATA;
    0x28e00000 .| PTE_KERNEL_DATA; 0x29000000 .| PTE_KERNEL_DATA; 0x29200000 .| PTE_KERNEL_DATA;
    0x29400000 .| PTE_KERNEL_DATA; 0x29600000 .| PTE_KERNEL_DATA; 0x29800000 .| PTE_KERNEL_DATA;
    0x29a00000 .| PTE_KERNEL_DATA; 0x29c00000 .| PTE_KERNEL_DATA; 0x29e00000 .| PTE_KERNEL_DATA;
    0x2a000000 .| PTE_KERNEL_DATA; 0x2a200000 .| PTE_KERNEL_DATA; 0x2a400000 .| PTE_KERNEL_DATA;
    0x2a600000 .| PTE_KERNEL_DATA; 0x2a800000 .| PTE_KERNEL_DATA; 0x2aa00000 .| PTE_KERNEL_DATA;
    0x2ac00000 .| PTE_KERNEL_DATA; 0x2ae00000 .| PTE_KERNEL_DATA; 0x2b000000 .| PTE_KERNEL_DATA;
    0x2b200000 .| PTE_KERNEL_DATA; 0x2b400000 .| PTE_KERNEL_DATA; 0x2b600000 .| PTE_KERNEL_DATA;
    0x2b800000 .| PTE_KERNEL_DATA; 0x2ba00000 .| PTE_KERNEL_DATA; 0x2bc00000 .| PTE_KERNEL_DATA;
    0x2be00000 .| PTE_KERNEL_DATA; 0x2c000000 .| PTE_KERNEL_DATA; 0x2c200000 .| PTE_KERNEL_DATA;
    0x2c400000 .| PTE_KERNEL_DATA; 0x2c600000 .| PTE_KERNEL_DATA; 0x2c800000 .| PTE_KERNEL_DATA;
    0x2ca00000 .| PTE_KERNEL_DATA; 0x2cc00000 .| PTE_KERNEL_DATA; 0x2ce00000 .| PTE_KERNEL_DATA;
    0x2d000000 .| PTE_KERNEL_DATA; 0x2d200000 .| PTE_KERNEL_DATA; 0x2d400000 .| PTE_KERNEL_DATA;
    0x2d600000 .| PTE_KERNEL_DATA; 0x2d800000 .| PTE_KERNEL_DATA; 0x2da00000 .| PTE_KERNEL_DATA;
    0x2dc00000 .| PTE_KERNEL_DATA; 0x2de00000 .| PTE_KERNEL_DATA; 0x2e000000 .| PTE_KERNEL_DATA;
    0x2e200000 .| PTE_KERNEL_DATA; 0x2e400000 .| PTE_KERNEL_DATA; 0x2e600000 .| PTE_KERNEL_DATA;
    0x2e800000 .| PTE_KERNEL_DATA; 0x2ea00000 .| PTE_KERNEL_DATA; 0x2ec00000 .| PTE_KERNEL_DATA;
    0x2ee00000 .| PTE_KERNEL_DATA; 0x2f000000 .| PTE_KERNEL_DATA; 0x2f200000 .| PTE_KERNEL_DATA;
    0x2f400000 .| PTE_KERNEL_DATA; 0x2f600000 .| PTE_KERNEL_DATA; 0x2f800000 .| PTE_KERNEL_DATA;
    0x2fa00000 .| PTE_KERNEL_DATA; 0x2fc00000 .| PTE_KERNEL_DATA; 0x2fe00000 .| PTE_KERNEL_DATA;
    0x30000000 .| PTE_KERNEL_DATA; 0x30200000 .| PTE_KERNEL_DATA; 0x30400000 .| PTE_KERNEL_DATA;
    0x30600000 .| PTE_KERNEL_DATA; 0x30800000 .| PTE_KERNEL_DATA; 0x30a00000 .| PTE_KERNEL_DATA;
    0x30c00000 .| PTE_KERNEL_DATA; 0x30e00000 .| PTE_KERNEL_DATA; 0x31000000 .| PTE_KERNEL_DATA;
    0x31200000 .| PTE_KERNEL_DATA; 0x31400000 .| PTE_KERNEL_DATA; 0x31600000 .| PTE_KERNEL_DATA;
    0x31800000 .| PTE_KERNEL_DATA; 0x31a00000 .| PTE_KERNEL_DATA; 0x31c00000 .| PTE_KERNEL_DATA;
    0x31e00000 .| PTE_KERNEL_DATA; 0x32000000 .| PTE_KERNEL_DATA; 0x32200000 .| PTE_KERNEL_DATA;
    0x32400000 .| PTE_KERNEL_DATA; 0x32600000 .| PTE_KERNEL_DATA; 0x32800000 .| PTE_KERNEL_DATA;
    0x32a00000 .| PTE_KERNEL_DATA; 0x32c00000 .| PTE_KERNEL_DATA; 0x32e00000 .| PTE_KERNEL_DATA;
    0x33000000 .| PTE_KERNEL_DATA; 0x33200000 .| PTE_KERNEL_DATA; 0x33400000 .| PTE_KERNEL_DATA;
    0x33600000 .| PTE_KERNEL_DATA; 0x33800000 .| PTE_KERNEL_DATA; 0x33a00000 .| PTE_KERNEL_DATA;
    0x33c00000 .| PTE_KERNEL_DATA; 0x33e00000 .| PTE_KERNEL_DATA; 0x34000000 .| PTE_KERNEL_DATA;
    0x34200000 .| PTE_KERNEL_DATA; 0x34400000 .| PTE_KERNEL_DATA; 0x34600000 .| PTE_KERNEL_DATA;
    0x34800000 .| PTE_KERNEL_DATA; 0x34a00000 .| PTE_KERNEL_DATA; 0x34c00000 .| PTE_KERNEL_DATA;
    0x34e00000 .| PTE_KERNEL_DATA; 0x35000000 .| PTE_KERNEL_DATA; 0x35200000 .| PTE_KERNEL_DATA;
    0x35400000 .| PTE_KERNEL_DATA; 0x35600000 .| PTE_KERNEL_DATA; 0x35800000 .| PTE_KERNEL_DATA;
    0x35a00000 .| PTE_KERNEL_DATA; 0x35c00000 .| PTE_KERNEL_DATA; 0x35e00000 .| PTE_KERNEL_DATA;
    0x36000000 .| PTE_KERNEL_DATA; 0x36200000 .| PTE_KERNEL_DATA; 0x36400000 .| PTE_KERNEL_DATA;
    0x36600000 .| PTE_KERNEL_DATA; 0x36800000 .| PTE_KERNEL_DATA; 0x36a00000 .| PTE_KERNEL_DATA;
    0x36c00000 .| PTE_KERNEL_DATA; 0x36e00000 .| PTE_KERNEL_DATA; 0x37000000 .| PTE_KERNEL_DATA;
    0x37200000 .| PTE_KERNEL_DATA; 0x37400000 .| PTE_KERNEL_DATA; 0x37600000 .| PTE_KERNEL_DATA;
    0x37800000 .| PTE_KERNEL_DATA; 0x37a00000 .| PTE_KERNEL_DATA; 0x37c00000 .| PTE_KERNEL_DATA;
    0x37e00000 .| PTE_KERNEL_DATA; 0x38000000 .| PTE_KERNEL_DATA; 0x38200000 .| PTE_KERNEL_DATA;
    0x38400000 .| PTE_KERNEL_DATA; 0x38600000 .| PTE_KERNEL_DATA; 0x38800000 .| PTE_KERNEL_DATA;
    0x38a00000 .| PTE_KERNEL_DATA; 0x38c00000 .| PTE_KERNEL_DATA; 0x38e00000 .| PTE_KERNEL_DATA;
    0x39000000 .| PTE_KERNEL_DATA; 0x39200000 .| PTE_KERNEL_DATA; 0x39400000 .| PTE_KERNEL_DATA;
    0x39600000 .| PTE_KERNEL_DATA; 0x39800000 .| PTE_KERNEL_DATA; 0x39a00000 .| PTE_KERNEL_DATA;
    0x39c00000 .| PTE_KERNEL_DATA; 0x39e00000 .| PTE_KERNEL_DATA; 0x3a000000 .| PTE_KERNEL_DATA;
    0x3a200000 .| PTE_KERNEL_DATA; 0x3a400000 .| PTE_KERNEL_DATA; 0x3a600000 .| PTE_KERNEL_DATA;
    0x3a800000 .| PTE_KERNEL_DATA; 0x3aa00000 .| PTE_KERNEL_DATA; 0x3ac00000 .| PTE_KERNEL_DATA;
    0x3ae00000 .| PTE_KERNEL_DATA; 0x3b000000 .| PTE_KERNEL_DATA; 0x3b200000 .| PTE_KERNEL_DATA;
    0x3b400000 .| PTE_KERNEL_DATA; 0x3b600000 .| PTE_KERNEL_DATA; 0x3b800000 .| PTE_KERNEL_DATA;
    0x3ba00000 .| PTE_KERNEL_DATA; 0x3bc00000 .| PTE_KERNEL_DATA; 0x3be00000 .| PTE_KERNEL_DATA;
    0x3c000000 .| PTE_KERNEL_DATA; 0x3c200000 .| PTE_KERNEL_DATA; 0x3c400000 .| PTE_KERNEL_DATA;
    0x3c600000 .| PTE_KERNEL_DATA; 0x3c800000 .| PTE_KERNEL_DATA; 0x3ca00000 .| PTE_KERNEL_DATA;
    0x3cc00000 .| PTE_KERNEL_DATA; 0x3ce00000 .| PTE_KERNEL_DATA; 0x3d000000 .| PTE_KERNEL_DATA;
    0x3d200000 .| PTE_KERNEL_DATA; 0x3d400000 .| PTE_KERNEL_DATA; 0x3d600000 .| PTE_KERNEL_DATA;
    0x3d800000 .| PTE_KERNEL_DATA; 0x3da00000 .| PTE_KERNEL_DATA; 0x3dc00000 .| PTE_KERNEL_DATA;
    0x3de00000 .| PTE_KERNEL_DATA; 0x3e000000 .| PTE_KERNEL_DATA; 0x3e200000 .| PTE_KERNEL_DATA;
    0x3e400000 .| PTE_KERNEL_DATA; 0x3e600000 .| PTE_KERNEL_DATA; 0x3e800000 .| PTE_KERNEL_DATA;
    0x3ea00000 .| PTE_KERNEL_DATA; 0x3ec00000 .| PTE_KERNEL_DATA; 0x3ee00000 .| PTE_KERNEL_DATA;
    0x3f000000 .| PTE_KERNEL_DEVICE; 0x3f200000 .| PTE_KERNEL_DEVICE; 0x3f400000 .| PTE_KERNEL_DEVICE;
    0x3f600000 .| PTE_KERNEL_DEVICE; 0x3f800000 .| PTE_KERNEL_DEVICE; 0x3fa00000 .| PTE_KERNEL_DEVICE;
    0x3fc00000 .| PTE_KERNEL_DEVICE; 0x3fe00000 .| PTE_KERNEL_DEVICE].

(** The addresses of the tables are the linker's. *)
Section tables.
Context (kernel_pt_addr level2_addr level3_addr : Z).

(** The other entries of these are zero. *)
Definition kernel_pt_level2 : list Z := [
    K2P level3_addr + PTE_TABLE;
    0x40000000 .| PTE_KERNEL_DEVICE;
    0;
    0xC0000000 .| PTE_KERNEL_DEVICE].
Definition kernel_pt : list Z := [K2P level2_addr + PTE_TABLE].

(** ** What the processor makes of them

    The walk of a 48-bit address with pages of 4096 bytes: an entry ends in 3
    for a table, in 1 for a block, whose address is in the bits from [shift]
    on, and is not valid otherwise. The result is a physical address and the
    entry's flags. *)
Definition table_at (pa : Z) : option (list Z) :=
  if pa =? K2P kernel_pt_addr then Some kernel_pt
  else if pa =? K2P level2_addr then Some kernel_pt_level2
  else if pa =? K2P level3_addr then Some kernel_pt_level3
  else None.
Definition out_address (e shift : Z) : Z := e mod 2 ^ 48 / 2 ^ shift * 2 ^ shift.

Fixpoint mmu_walk (level : nat) (table va shift : Z) : option (Z * Z) :=
  t ← table_at table;
  let e := nth (Z.to_nat (va / 2 ^ shift mod 512)) t 0 in
  if e mod 4 =? 3 then
    match level with
    | O => None
    | S level' => mmu_walk level' (out_address e 12) va (shift - 9)
    end
  else if e mod 4 =? 1 then Some (out_address e shift + va mod 2 ^ shift, PTE_FLAGS e)
  else None.

(** Levels 0 to 2; the tables have no level 3. *)
Definition translate (va : Z) : option (Z * Z) := mmu_walk 2 (K2P kernel_pt_addr) va 39.

(** ** The entries *)
Lemma level3_entry i : 0 <= i < 512 -> exists e, nth (Z.to_nat i) kernel_pt_level3 0 = e /\
  e mod 4 = 1 /\ out_address e 21 = i * 2 ^ 21 /\ PTE_FLAGS e = if i <? 504 then PTE_KERNEL_DATA else PTE_KERNEL_DEVICE.
Proof.
  intros Hi. eexists. split; [done|].
  assert (forall j, j ∈ seqZ 0 512 -> let e := nth (Z.to_nat j) kernel_pt_level3 0 in
    e mod 4 = 1 /\ out_address e 21 = j * 2 ^ 21 /\ PTE_FLAGS e = if j <? 504 then PTE_KERNEL_DATA else PTE_KERNEL_DEVICE) as H.
  { apply Forall_forall. apply (bool_decide_unpack _). vm_compute. exact I. }
  apply H, elem_of_seqZ. lia.
Qed.

Context (H1 : frame_ok kernel_pt_addr) (H2 : frame_ok level2_addr) (H3 : frame_ok level3_addr).
Context (H12 : kernel_pt_addr <> level2_addr) (H13 : kernel_pt_addr <> level3_addr) (H23 : level2_addr <> level3_addr).

Lemma table_entry_walk p : frame_ok p -> (K2P p + PTE_TABLE) mod 4 = 3 /\ out_address (K2P p + PTE_TABLE) 12 = K2P p.
Proof.
  intros Hp. destruct (frame_K2P p Hp) as (_ & Hm & Hr). unfold out_address, PTE_TABLE, PAGE_SIZE in *.
  change (2 ^ 31) with 2147483648 in Hr. change (2 ^ 48) with 281474976710656. change (2 ^ 12) with 4096.
  Z.to_euclidean_division_equations. lia.
Qed.

Lemma K2P_ne p q : frame_ok p -> frame_ok q -> p <> q -> K2P p <> K2P q.
Proof.
  intros Hp Hq Hne. destruct (frame_K2P p Hp) as (E & _ & _), (frame_K2P q Hq) as (E' & _ & _). rewrite E, E'. lia.
Qed.

Lemma table_at_ok : table_at (K2P kernel_pt_addr) = Some kernel_pt /\ table_at (K2P level2_addr) = Some kernel_pt_level2 /\
  table_at (K2P level3_addr) = Some kernel_pt_level3.
Proof using H1 H2 H3 H12 H13 H23.
  unfold table_at. rewrite !Z.eqb_refl. split; [done|].
  rewrite !(proj2 (Z.eqb_neq _ _)) by (apply K2P_ne; auto). done.
Qed.

(** The indices of the levels for the kernel address of [pa], [pa] below 4 GB. *)
Lemma kernel_index pa : 0 <= pa < 2 ^ 32 ->
  P2K pa / 2 ^ 39 mod 512 = 0 /\ P2K pa / 2 ^ 30 mod 512 = pa / 2 ^ 30 /\ P2K pa / 2 ^ 21 mod 512 = pa / 2 ^ 21 mod 512 /\
  P2K pa mod 2 ^ 30 = pa mod 2 ^ 30 /\ P2K pa mod 2 ^ 21 = pa mod 2 ^ 21.
Proof.
  intros Hpa. change (2 ^ 32) with 4294967296 in Hpa. unfold P2K. rewrite u64_id by (unfold KSPACE_MASK; lia). unfold KSPACE_MASK.
  change (2 ^ 39) with 549755813888. change (2 ^ 30) with 1073741824. change (2 ^ 21) with 2097152.
  Z.to_euclidean_division_equations. lia.
Qed.

Lemma kernel_address x : KSPACE_MASK <= x < KSPACE_MASK + 2 ^ 32 -> x = P2K (K2P x) /\ K2P x = x - KSPACE_MASK.
Proof.
  intros Hx. change (2 ^ 32) with 4294967296 in Hx. unfold K2P, P2K. unfold KSPACE_MASK in *.
  rewrite (u64_id (x - _)) by lia. rewrite u64_id by lia. lia.
Qed.

Lemma translate_top pa : 0 <= pa < 2 ^ 32 ->
  translate (P2K pa) = mmu_walk 1 (K2P level2_addr) (P2K pa) 30.
Proof using H1 H2 H3 H12 H13 H23.
  intros Hpa. destruct table_at_ok as (T1 & _ & _). destruct (kernel_index pa Hpa) as (E & _).
  destruct (table_entry_walk level2_addr H2) as [Et Ea]. unfold translate. cbn [mmu_walk]. rewrite T1. cbn [mbind option_bind].
  rewrite E. change (nth (Z.to_nat 0) kernel_pt 0) with (K2P level2_addr + PTE_TABLE). by rewrite Et, Ea.
Qed.

Lemma translate_linear pa : 0 <= pa < 2 ^ 32 ->
  translate (P2K pa) =
    if pa <? 0x3F000000 then Some (pa, PTE_KERNEL_DATA)
    else if (2 ^ 31 <=? pa) && (pa <? 3 * 2 ^ 30) then None
    else Some (pa, PTE_KERNEL_DEVICE).
Proof using H1 H2 H3 H12 H13 H23.
  intros Hpa. rewrite translate_top by done. destruct table_at_ok as (_ & T2 & T3). destruct (kernel_index pa Hpa) as (_ & E1 & E2 & E3 & E4).
  cbn [mmu_walk]. rewrite T2. cbn [mbind option_bind]. rewrite E1, E3. change (2 ^ 31) with 2147483648. change (2 ^ 30) with 1073741824 in *.
  change (2 ^ 32) with 4294967296 in Hpa. change (2 ^ 21) with 2097152 in *.
  assert (pa / 1073741824 = 0 \/ pa / 1073741824 = 1 \/ pa / 1073741824 = 2 \/ pa / 1073741824 = 3) as Hg
    by (Z.to_euclidean_division_equations; lia).
  assert (pa = 1073741824 * (pa / 1073741824) + pa mod 1073741824) as Hdm by (apply Z.div_mod; lia).
  pose proof (Z.mod_pos_bound pa 1073741824 ltac:(lia)) as Hmod.
  destruct Hg as [Hg|[Hg|[Hg|Hg]]]; rewrite Hg in *.
  - change (nth (Z.to_nat 0) kernel_pt_level2 0) with (K2P level3_addr + PTE_TABLE).
    destruct (table_entry_walk level3_addr H3) as [Et Ea]. rewrite Et, Ea. cbn [Z.eqb]. change (3 =? 3) with true. cbn iota.
    rewrite T3. cbn [mbind option_bind]. change (30 - 9) with 21. change (2 ^ 21) with 2097152. rewrite E2, E4.
    destruct (level3_entry (pa / 2097152 mod 512)) as (e & -> & Hb & Ho & Hf); [by apply Z.mod_pos_bound|].
    rewrite Hb, Ho, Hf. change (1 =? 3) with false. change (1 =? 1) with true. cbn iota.
    assert (pa / 2097152 mod 512 = pa / 2097152) as Em by (apply Z.mod_small; Z.to_euclidean_division_equations; lia). rewrite Em.
    change (2 ^ 21) with 2097152.
    replace (pa / 2097152 * 2097152 + pa mod 2097152) with pa by (pose proof (Z.div_mod pa 2097152); lia).
    assert ((pa / 2097152 <? 504) = (pa <? 0x3F000000)) as ->.
    { apply eq_true_iff_eq. rewrite !Z.ltb_lt. Z.to_euclidean_division_equations. lia. }
    destruct (pa <? 0x3F000000); [done|]. by rewrite (proj2 (Z.leb_gt 2147483648 pa)) by lia.
  - change (nth (Z.to_nat 1) kernel_pt_level2 0) with (Z.lor 0x40000000 PTE_KERNEL_DEVICE).
    rewrite (proj2 (Z.ltb_ge pa 0x3F000000)), (proj2 (Z.leb_gt 2147483648 pa)) by lia.
    change (Some (1073741824 + pa mod 1073741824, PTE_KERNEL_DEVICE) = Some (pa, PTE_KERNEL_DEVICE)). do 2 f_equal. lia.
  - change (nth (Z.to_nat 2) kernel_pt_level2 0) with 0.
    rewrite (proj2 (Z.ltb_ge pa 0x3F000000)), (proj2 (Z.leb_le 2147483648 pa)), (proj2 (Z.ltb_lt pa (3 * 1073741824))) by lia. done.
  - change (nth (Z.to_nat 3) kernel_pt_level2 0) with (Z.lor 0xC0000000 PTE_KERNEL_DEVICE).
    rewrite (proj2 (Z.ltb_ge pa 0x3F000000)), (proj2 (Z.ltb_ge pa (3 * 1073741824))), andb_false_r by lia.
    change (Some (3221225472 + pa mod 1073741824, PTE_KERNEL_DEVICE) = Some (pa, PTE_KERNEL_DEVICE)). do 2 f_equal. lia.
Qed.

(** C39: Through its constant page tables the kernel sees physical memory at
    [KSPACE_MASK]: for every address below 2 GB the processor's walk of the
    tables leads from [P2K pa] back to [pa], as data of the kernel below
    0x3F000000 and as device memory from there on; between 2 and 3 GB nothing
    is mapped, and the last gigabyte is device memory. So all the memory that
    [init_memory_manager] gives to the page allocator is data, and every
    register of a device is device memory. *)
Theorem kernel_pt_linear :
  (forall pa, 0 <= pa < 2 ^ 32 -> translate (P2K pa) =
    if pa <? 0x3F000000 then Some (pa, PTE_KERNEL_DATA)
    else if (2 ^ 31 <=? pa) && (pa <? 3 * 2 ^ 30) then None
    else Some (pa, PTE_KERNEL_DEVICE)) /\
  (forall s kernel_end, KSPACE_MASK < kernel_end <= P2K 0x3F000000 -> km_next s = 0 -> mem_ok (km_mem s) ->
    exists s' l, init_memory_manager kernel_end s = Ok (tt, s') /\ km_inv s' l /\
      forall p x, p ∈ l -> p <= x < p + PAGE_SIZE -> translate x = Some (K2P x, PTE_KERNEL_DATA)) /\
  (forall r, MMIO_BASE <= r < KERNEL_BASE + 2 ^ 31 -> translate r = Some (K2P r, PTE_KERNEL_DEVICE)).
Proof using H1 H2 H3 H12 H13 H23.
  split; [exact translate_linear|]. split.
  - intros s kernel_end Hend Hn Hm. destruct (init_memory_manager_pages s kernel_end Hend Hn Hm) as (s' & l & Heq & Hk & Hl).
    exists s', l. split; [done|]. split; [done|]. intros p x (_ & Hp1 & Hp2)%Hl Hx. rewrite P2K_top in *.
    change (P2K 0x3F000000) with 18446462599789805568 in Hend. unfold KSPACE_MASK, PAGE_SIZE in *.
    destruct (kernel_address x) as [E Ek]; [unfold KSPACE_MASK; change (2 ^ 32) with 4294967296; lia|]. unfold KSPACE_MASK in Ek.
    rewrite E at 1. change (2 ^ 32) with 4294967296 in *. rewrite translate_linear by (change (2 ^ 32) with 4294967296; lia).
    by rewrite (proj2 (Z.ltb_lt (K2P x) 0x3F000000)) by lia.
  - intros r Hr. change MMIO_BASE with (KSPACE_MASK + 0x3F000000) in Hr. change KERNEL_BASE with KSPACE_MASK in Hr.
    change (2 ^ 31) with 2147483648 in Hr.
    destruct (kernel_address r) as [E Ek]; [change (2 ^ 32) with 4294967296; lia|].
    rewrite E at 1. rewrite translate_linear by (change (2 ^ 32) with 4294967296; lia).
    rewrite (proj2 (Z.ltb_ge (K2P r) 0x3F000000)) by lia. change (2 ^ 31) with 2147483648. by rewrite (proj2 (Z.leb_gt 2147483648 (K2P r))) by lia.
Qed.
End tables.

(** The tables right behind the boot code. *)
Lemma kernel_pt_linear_witness :
  translate (KSPACE_MASK + 0x90000) (KSPACE_MASK + 0x91000) (KSPACE_MASK + 0x92000) (P2K 0x200000) = Some (0x200000, PTE_KERNEL_DATA).
Proof.
  assert (forall k, k ∈ [0x90000; 0x91000; 0x92000] -> frame_ok (KSPACE_MASK + k)) as Hf.
  { intros k. rewrite !elem_of_cons. unfold frame_ok, PAGE_SIZE, KSPACE_MASK. change (2 ^ 31) with 2147483648.
    intros [->|[->|[->|H%not_elem_of_nil]]]; [..|done]; split; [done|lia|done|lia|done|lia]. }
  destruct (kernel_pt_linear (KSPACE_MASK + 0x90000) (KSPACE_MASK + 0x91000) (KSPACE_MASK + 0x92000)) as (H & _ & _);
    [apply Hf; set_solver|apply Hf; set_solver|apply Hf; set_solver|unfold KSPACE_MASK; lia|unfold KSPACE_MASK; lia|unfold KSPACE_MASK; lia|].
  apply (H 0x200000). change (2 ^ 32) with 4294967296. lia.
Defined.
End KernelPt.
