(* ===== verification/Drivers.v ===== *)
(** * The serial line, the mailbox and the timer (src/driver/uart.c, mbox.c,
    clock.c, the registers of interrupt.c; aux.h, gpio.h, irq.h)

    Loops that wait for a device are followed for [turns] turns. *)
From S2P Require Import Prelude Mmio.

Module Drivers.
Import Mmio.

(** [while (cond) {}] *)
Fixpoint spin {St} (turns : nat) (cond : M St bool) : M St unit :=
  match turns with
  | O => nofuel
  | S turns' => b ← cond; if (b : bool) then spin turns' cond else mret tt
  end.

Definition any_bit (v mask : Z) : bool := negb (Z.land v mask =? 0).

(** ** Registers *)
Definition AUX_BASE : Z := MMIO_BASE + 0x215000.
Definition AUX_ENABLES : Z := AUX_BASE + 0x04.
Definition AUX_MU_IO_REG : Z := AUX_BASE + 0x40.
Definition AUX_MU_IER_REG : Z := AUX_BASE + 0x44.
Definition AUX_MU_IIR_REG : Z := AUX_BASE + 0x48.
Definition AUX_MU_LCR_REG : Z := AUX_BASE + 0x4C.
Definition AUX_MU_MCR_REG : Z := AUX_BASE + 0x50.
Definition AUX_MU_LSR_REG : Z := AUX_BASE + 0x54.
Definition AUX_MU_CNTL_REG : Z := AUX_BASE + 0x60.
Definition AUX_MU_BAUD_REG : Z := AUX_BASE + 0x68.
Definition AUX_UART_CLOCK : Z := 250000000.
Definition AUX_MU_BAUD (baudrate : Z) : Z := AUX_UART_CLOCK / (baudrate * 8) - 1.
Definition ENABLE_IRQS_1 : Z := MMIO_BASE + 0xB210.
Definition ENABLE_IRQS_2 : Z := MMIO_BASE + 0xB214.
Definition GPU_INT_ROUTE : Z := LOCAL_BASE + 0xC.
Definition GPU_IRQ2CORE (i : Z) : Z := i.
Definition AUX_INT : Z := Z.shiftl 1 29.
Definition VC_ARASANSDIO_INT : Z := Z.shiftl 1 30.
Definition IRQ_AUX : Z := 29.

Section drivers.
Context {D : Type} `{Mmio D} (turns : nat).

(** ** interrupt.c: the registers; the table of handlers is in [Syscall]. *)
Definition init_interrupt_regs : M D unit :=
  put32 ENABLE_IRQS_1 AUX_INT;;
  put32 ENABLE_IRQS_2 VC_ARASANSDIO_INT;;
  device_put_u32 GPU_INT_ROUTE (GPU_IRQ2CORE 0).
Definition enable_interrupt (type : Z) : M D unit :=
  device_put_u32 (ENABLE_IRQS_1 + 4 * (type / 32)) (Z.shiftl 1 (type mod 32)).

(** ** uart.c *)
Definition delay_us (n : Z) : M D unit := modify (dev_wait (Us n)).

Definition init_uart : M D unit :=
  device_put_u32 GPPUD 0;;
  delay_us 5;;
  device_put_u32 GPPUDCLK0 (Z.lor (Z.shiftl 1 14) (Z.shiftl 1 15));;
  delay_us 5;;
  device_put_u32 GPPUDCLK0 0;;
  device_put_u32 AUX_ENABLES 1;;
  device_put_u32 AUX_MU_CNTL_REG 0;;
  device_put_u32 AUX_MU_IER_REG (Z.lor (Z.shiftl 3 2) 1);;
  device_put_u32 AUX_MU_LCR_REG 3;;
  device_put_u32 AUX_MU_MCR_REG 0;;
  device_put_u32 AUX_MU_BAUD_REG (AUX_MU_BAUD 115200);;
  device_put_u32 AUX_MU_IIR_REG 6;;
  device_put_u32 AUX_MU_CNTL_REG 3;;
  enable_interrupt IRQ_AUX.

(** [(char)-1] is 255. *)
Definition uart_get_char : M D Z :=
  state ← device_get_u32 AUX_MU_IIR_REG;
  if any_bit state 1 || negb (Z.land state 6 =? 4) then mret 255
  else v ← device_get_u32 AUX_MU_IO_REG; mret (Z.land v 0xff).

Definition uart_send (c : Z) : M D unit :=
  spin turns (v ← device_get_u32 AUX_MU_LSR_REG; mret (negb (any_bit v 0x20)));;
  device_put_u32 AUX_MU_IO_REG c.
Definition uart_put_char (c : Z) : M D unit := uart_send c;; whenM (c =? 10) (uart_send 13).

(** ** mbox.c *)
Definition VIDEOCORE_MBOX : Z := MMIO_BASE + 0x0000B880.
Definition MBOX_READ : Z := VIDEOCORE_MBOX + 0x00.
Definition MBOX_STATUS : Z := VIDEOCORE_MBOX + 0x18.
Definition MBOX_WRITE : Z := VIDEOCORE_MBOX + 0x20.
Definition MBOX_FULL : Z := 0x80000000.
Definition MBOX_EMPTY : Z := 0x40000000.
Definition MBOX_TAG_GET_ARM_MEMORY : Z := 0x00010005.
Definition MBOX_TAG_GET_CLOCK_RATE : Z := 0x00030002.
Definition MBOX_TAG_END : Z := 0.

(** Messages for other channels are dropped. *)
Fixpoint mbox_read_loop (n : nat) (chan : Z) : M D Z :=
  match n with
  | O => nofuel
  | S n' =>
      spin turns (v ← get32 MBOX_STATUS; mret (any_bit v MBOX_EMPTY));;
      r ← get32 MBOX_READ;
      if Z.land r 0xF =? chan then mret (i32 (Z.shiftr r 4)) else mbox_read_loop n' chan
  end.
Definition mbox_read (chan : Z) : M D Z := mbox_read_loop turns chan.

Definition mbox_write (buf chan : Z) : M D unit :=
  assert_ ((Z.land buf 0xF =? 0) && (Z.land chan (u32 (Z.lnot 0xF)) =? 0));;
  spin turns (v ← get32 MBOX_STATUS; mret (any_bit v MBOX_FULL));;
  put32 MBOX_WRITE (Z.lor (Z.land buf (u32 (Z.lnot 0xF))) chan).

(** What the firmware leaves in the message at the physical address [pa], on
    the stack, by the time it has answered. *)
Context (answer : D -> list Z) (pa : Z).

Definition mbox_call : M D (list Z) :=
  assert_ (Z.land pa 0xF =? 0);;
  mbox_write (u32 pa) 8;;
  mbox_read 8;;
  gets answer.

Definition arm_memory_request : list Z := [36; 0; MBOX_TAG_GET_ARM_MEMORY; 8; 0; 0; 0; MBOX_TAG_END].
Definition clock_rate_request : list Z := [36; 0; MBOX_TAG_GET_CLOCK_RATE; 8; 0; 1; 0; MBOX_TAG_END].

(** The message is in memory before the call. *)
Context (send : list Z -> M D unit).

Definition mbox_get_arm_memory : M D Z :=
  send arm_memory_request;;
  buf ← mbox_call;
  assert_ (nth 5 buf 0 =? 0);;
  assert_ (negb (nth 6 buf 0 =? 0));;
  mret (i32 (nth 6 buf 0)).

Definition mbox_get_clock_rate : M D Z :=
  send clock_rate_request;;
  buf ← mbox_call;
  mret (i32 (nth 6 buf 0)).
End drivers.

(** ** clock.c: [one_ms] and the registers of the timer *)
Record ClockContext : Type := mkClock { one_ms : Z; cntp_ctl : Z; cntp_tval : Z }.
Definition CORE_CLOCK_CTRL (id : Z) : Z := LOCAL_BASE + 0x40 + 4 * id.
Definition CORE_CLOCK_ENABLE : Z := Z.shiftl 1 1.

Definition reset_clock (countdown_ms : Z) (c : ClockContext) : ClockContext :=
  mkClock (one_ms c) (cntp_ctl c) (u64 (countdown_ms * one_ms c)).
(** With the frequency of the counter and the number of the CPU; also the
    register that is written. *)
Definition init_clock (frequency cpuid : Z) (c : ClockContext) : ClockContext * (Z * Z) :=
  (reset_clock 1000 (mkClock (frequency / 1000) 1 (cntp_tval c)), (CORE_CLOCK_CTRL cpuid, CORE_CLOCK_ENABLE)).
End Drivers.
