(* ===== verification/Sd.v ===== *)
(** * The SD card driver (src/driver/sd.c, buf.h; sd_read and sd_write of
    src/fs/block_device.c)

    The EMMC controller is a device behind its registers. State: the device,
    the descriptor of the card, the buffers that [struct buf] pointers point
    to, the queue of requests and its lock. Messages are left out, but not the
    reads of registers for them. *)
From stdpp Require Import strings.
From S2P Require Import Prelude CString Mmio.

Module Sd.
Import CString Mmio.

(** ** Registers and their bits *)
Definition EMMC_BLKSIZECNT : Z := MMIO_BASE + 0x00300004.
Definition EMMC_ARG1 : Z := MMIO_BASE + 0x00300008.
Definition EMMC_CMDTM : Z := MMIO_BASE + 0x0030000C.
Definition EMMC_RESP0 : Z := MMIO_BASE + 0x00300010.
Definition EMMC_RESP1 : Z := MMIO_BASE + 0x00300014.
Definition EMMC_RESP2 : Z := MMIO_BASE + 0x00300018.
Definition EMMC_RESP3 : Z := MMIO_BASE + 0x0030001C.
Definition EMMC_DATA : Z := MMIO_BASE + 0x00300020.
Definition EMMC_STATUS : Z := MMIO_BASE + 0x00300024.
Definition EMMC_CONTROL0 : Z := MMIO_BASE + 0x00300028.
Definition EMMC_CONTROL1 : Z := MMIO_BASE + 0x0030002C.
Definition EMMC_INTERRUPT : Z := MMIO_BASE + 0x00300030.
Definition EMMC_IRPT_MASK : Z := MMIO_BASE + 0x00300034.
Definition EMMC_IRPT_EN : Z := MMIO_BASE + 0x00300038.
Definition EMMC_SLOTISR_VER : Z := MMIO_BASE + 0x003000fc.

Definition CMD_IS_DATA : Z := 0x00200000.
Definition CMD_RSPNS_NO : Z := 0x00000000.
Definition CMD_RSPNS_136 : Z := 0x00010000.
Definition CMD_RSPNS_48 : Z := 0x00020000.
Definition CMD_RSPNS_48B : Z := 0x00030000.
Definition TM_MULTI_BLOCK : Z := 0x00000020.
Definition TM_DAT_DIR_HC : Z := 0x00000000.
Definition TM_DAT_DIR_CH : Z := 0x00000010.
Definition TM_BLKCNT_EN : Z := 0x00000002.
Definition TM_MULTI_DATA : Z := Z.lor (Z.lor CMD_IS_DATA TM_MULTI_BLOCK) TM_BLKCNT_EN.

Definition INT_AUTO_ERROR : Z := 0x01000000.
Definition INT_DATA_END_ERR : Z := 0x00400000.
Definition INT_DATA_CRC_ERR : Z := 0x00200000.
Definition INT_DATA_TIMEOUT : Z := 0x00100000.
Definition INT_INDEX_ERROR : Z := 0x00080000.
Definition INT_END_ERROR : Z := 0x00040000.
Definition INT_CRC_ERROR : Z := 0x00020000.
Definition INT_CMD_TIMEOUT : Z := 0x00010000.
Definition INT_ERR : Z := 0x00008000.
Definition INT_READ_RDY : Z := 0x00000020.
Definition INT_WRITE_RDY : Z := 0x00000010.
Definition INT_DATA_DONE : Z := 0x00000002.
Definition INT_CMD_DONE : Z := 0x00000001.
Definition INT_ERROR_MASK : Z :=
  foldr Z.lor 0 [INT_CRC_ERROR; INT_END_ERROR; INT_INDEX_ERROR; INT_DATA_TIMEOUT; INT_DATA_CRC_ERR; INT_DATA_END_ERR; INT_ERR; INT_AUTO_ERROR].

Definition C0_HCTL_DWITDH : Z := 0x00000002.
Definition C1_SRST_HC : Z := 0x01000000.
Definition C1_TOUNIT_MAX : Z := 0x000e0000.
Definition C1_CLK_EN : Z := 0x00000004.
Definition C1_CLK_STABLE : Z := 0x00000002.
Definition C1_CLK_INTLEN : Z := 0x00000001.
Definition FREQ_SETUP : Z := 400000.
Definition FREQ_NORMAL : Z := 25000000.
Definition HOST_SPEC_NUM : Z := 0x00ff0000.
Definition HOST_SPEC_NUM_SHIFT : Z := 16.
Definition HOST_SPEC_V2 : Z := 1.
Definition SR_READ_AVAILABLE : Z := 0x00000800.
Definition SR_DAT_INHIBIT : Z := 0x00000002.
Definition SR_CMD_INHIBIT : Z := 0x00000001.
Definition ACMD41_HCS : Z := 0x40000000.
Definition ACMD41_SDXC_POWER : Z := 0x10000000.
Definition ACMD41_S18R : Z := 0x01000000.
Definition ACMD41_VOLTAGE : Z := 0x00ff8000.
Definition ACMD41_ARG_HC : Z := foldr Z.lor 0 [ACMD41_HCS; ACMD41_SDXC_POWER; ACMD41_VOLTAGE; ACMD41_S18R].
Definition ACMD41_ARG_SC : Z := Z.lor ACMD41_VOLTAGE ACMD41_S18R.
Definition ST_CARD_STATE : Z := 0x00001e00.
Definition ST_APP_CMD : Z := 0x00000020.
Definition R1_CARD_STATE_SHIFT : Z := 9.
Definition R1_ERRORS_MASK : Z := 0xfff9c004.
Definition R3_COMPLETE : Z := 0x80000000.
Definition R3_CCS : Z := 0x40000000.
Definition R3_S18A : Z := 0x01000000.
Definition R6_RCA_MASK : Z := 0xffff0000.

(** ** Commands *)
Inductive response : Type := RESP_NO | RESP_R1 | RESP_R1b | RESP_R2I | RESP_R2S | RESP_R3 | RESP_R6 | RESP_R7.

Record EMMCCommand : Type := mkCmd { cmd_name : string; cmd_code : Z; cmd_resp : response; cmd_rca : bool; cmd_delay : Z }.
Definition RCA_NO : bool := false.
Definition RCA_YES : bool := true.

Definition sdCommandTable : list EMMCCommand :=
  let data_ch := Z.lor CMD_IS_DATA TM_DAT_DIR_CH in
  let data_hc := Z.lor CMD_IS_DATA TM_DAT_DIR_HC in
  let multi_ch := Z.lor TM_MULTI_DATA TM_DAT_DIR_CH in
  let multi_hc := Z.lor TM_MULTI_DATA TM_DAT_DIR_HC in
  [mkCmd "GO_IDLE_STATE" (Z.lor 0x00000000 CMD_RSPNS_NO) RESP_NO RCA_NO 0;
   mkCmd "ALL_SEND_CID" (Z.lor 0x02000000 CMD_RSPNS_136) RESP_R2I RCA_NO 0;
   mkCmd "SEND_REL_ADDR" (Z.lor 0x03000000 CMD_RSPNS_48) RESP_R6 RCA_NO 0;
   mkCmd "SET_DSR" (Z.lor 0x04000000 CMD_RSPNS_NO) RESP_NO RCA_NO 0;
   mkCmd "SWITCH_FUNC" (Z.lor 0x06000000 CMD_RSPNS_48) RESP_R1 RCA_NO 0;
   mkCmd "CARD_SELECT" (Z.lor 0x07000000 CMD_RSPNS_48B) RESP_R1b RCA_YES 0;
   mkCmd "SEND_IF_COND" (Z.lor 0x08000000 CMD_RSPNS_48) RESP_R7 RCA_NO 100;
   mkCmd "SEND_CSD" (Z.lor 0x09000000 CMD_RSPNS_136) RESP_R2S RCA_YES 0;
   mkCmd "SEND_CID" (Z.lor 0x0A000000 CMD_RSPNS_136) RESP_R2I RCA_YES 0;
   mkCmd "VOLT_SWITCH" (Z.lor 0x0B000000 CMD_RSPNS_48) RESP_R1 RCA_NO 0;
   mkCmd "STOP_TRANS" (Z.lor 0x0C000000 CMD_RSPNS_48B) RESP_R1b RCA_NO 0;
   mkCmd "SEND_STATUS" (Z.lor 0x0D000000 CMD_RSPNS_48) RESP_R1 RCA_YES 0;
   mkCmd "GO_INACTIVE" (Z.lor 0x0F000000 CMD_RSPNS_NO) RESP_NO RCA_YES 0;
   mkCmd "SET_BLOCKLEN" (Z.lor 0x10000000 CMD_RSPNS_48) RESP_R1 RCA_NO 0;
   mkCmd "READ_SINGLE" (Z.lor (Z.lor 0x11000000 CMD_RSPNS_48) data_ch) RESP_R1 RCA_NO 0;
   mkCmd "READ_MULTI" (Z.lor (Z.lor 0x12000000 CMD_RSPNS_48) multi_ch) RESP_R1 RCA_NO 0;
   mkCmd "SEND_TUNING" (Z.lor 0x13000000 CMD_RSPNS_48) RESP_R1 RCA_NO 0;
   mkCmd "SPEED_CLASS" (Z.lor 0x14000000 CMD_RSPNS_48B) RESP_R1b RCA_NO 0;
   mkCmd "SET_BLOCKCNT" (Z.lor 0x17000000 CMD_RSPNS_48) RESP_R1 RCA_NO 0;
   mkCmd "WRITE_SINGLE" (Z.lor (Z.lor 0x18000000 CMD_RSPNS_48) data_hc) RESP_R1 RCA_NO 0;
   mkCmd "WRITE_MULTI" (Z.lor (Z.lor 0x19000000 CMD_RSPNS_48) multi_hc) RESP_R1 RCA_NO 0;
   mkCmd "PROGRAM_CSD" (Z.lor 0x1B000000 CMD_RSPNS_48) RESP_R1 RCA_NO 0;
   mkCmd "SET_WRITE_PR" (Z.lor 0x1C000000 CMD_RSPNS_48B) RESP_R1b RCA_NO 0;
   mkCmd "CLR_WRITE_PR" (Z.lor 0x1D000000 CMD_RSPNS_48B) RESP_R1b RCA_NO 0;
   mkCmd "SND_WRITE_PR" (Z.lor 0x1E000000 CMD_RSPNS_48) RESP_R1 RCA_NO 0;
   mkCmd "ERASE_WR_ST" (Z.lor 0x20000000 CMD_RSPNS_48) RESP_R1 RCA_NO 0;
   mkCmd "ERASE_WR_END" (Z.lor 0x21000000 CMD_RSPNS_48) RESP_R1 RCA_NO 0;
   mkCmd "ERASE" (Z.lor 0x26000000 CMD_RSPNS_48B) RESP_R1b RCA_NO 0;
   mkCmd "LOCK_UNLOCK" (Z.lor 0x2A000000 CMD_RSPNS_48) RESP_R1 RCA_NO 0;
   mkCmd "APP_CMD" (Z.lor 0x37000000 CMD_RSPNS_NO) RESP_NO RCA_NO 100;
   mkCmd "APP_CMD" (Z.lor 0x37000000 CMD_RSPNS_48) RESP_R1 RCA_YES 0;
   mkCmd "GEN_CMD" (Z.lor 0x38000000 CMD_RSPNS_48) RESP_R1 RCA_NO 0;
   mkCmd "SET_BUS_WIDTH" (Z.lor 0x06000000 CMD_RSPNS_48) RESP_R1 RCA_NO 0;
   mkCmd "SD_STATUS" (Z.lor 0x0D000000 CMD_RSPNS_48) RESP_R1 RCA_YES 0;
   mkCmd "SEND_NUM_WRBL" (Z.lor 0x16000000 CMD_RSPNS_48) RESP_R1 RCA_NO 0;
   mkCmd "SEND_NUM_ERS" (Z.lor 0x17000000 CMD_RSPNS_48) RESP_R1 RCA_NO 0;
   mkCmd "SD_SENDOPCOND" (Z.lor 0x29000000 CMD_RSPNS_48) RESP_R3 RCA_NO 1000;
   mkCmd "SET_CLR_DET" (Z.lor 0x2A000000 CMD_RSPNS_48) RESP_R1 RCA_NO 0;
   mkCmd "SEND_SCR" (Z.lor (Z.lor 0x33000000 CMD_RSPNS_48) data_ch) RESP_R1 RCA_NO 0].

Definition IX_GO_IDLE_STATE : nat := 0.
Definition IX_ALL_SEND_CID : nat := 1.
Definition IX_SEND_REL_ADDR : nat := 2.
Definition IX_CARD_SELECT : nat := 5.
Definition IX_SEND_IF_COND : nat := 6.
Definition IX_SEND_CSD : nat := 7.
Definition IX_SET_BLOCKLEN : nat := 13.
Definition IX_READ_SINGLE : nat := 14.
Definition IX_WRITE_SINGLE : nat := 19.
Definition IX_APP_CMD : nat := 29.
Definition IX_APP_CMD_RCA : nat := 30.
Definition IX_APP_CMD_START : nat := 32.
Definition IX_SET_BUS_WIDTH : nat := 32.
Definition IX_APP_SEND_OP_COND : nat := 36.
Definition IX_SEND_SCR : nat := 38.

(** Results. *)
Definition SD_OK : Z := 0.
Definition SD_ERROR : Z := 1.
Definition SD_TIMEOUT : Z := 2.
Definition SD_BUSY : Z := 3.
Definition SD_ERROR_RESET : Z := 6.
Definition SD_ERROR_CLOCK : Z := 7.
Definition SD_ERROR_VOLTAGE : Z := 8.
Definition SD_ERROR_APP_CMD : Z := 9.
Definition SD_CARD_CHANGED : Z := 10.
Definition SD_CARD_ABSENT : Z := 11.
Definition SD_CARD_REINSERTED : Z := 12.

Definition SD_TYPE_1 : Z := 2.
Definition SD_TYPE_2_SC : Z := 3.
Definition SD_TYPE_2_HC : Z := 4.
Definition SD_SUPP_SET_BLOCK_COUNT : Z := 0x80000000.
Definition SD_SUPP_SPEED_CLASS : Z := 0x40000000.
Definition SD_SUPP_BUS_WIDTH_4 : Z := 0x20000000.
Definition SD_SUPP_BUS_WIDTH_1 : Z := 0x10000000.

(** ** The state *)
Record SDDescriptor : Type := mkSD {
  capacity : Z; cid : list Z; csd : list Z; scr : list Z; ocr : Z; support : Z; fileFormat : Z;
  sd_type : Z; uhsi : Z; sd_ready : bool (** [init] *); absent : bool;
  rca : Z; cardState : Z; status : Z;
  lastCmd : option nat (** an index of the table *); lastArg : Z
}.
Definition set_capacity (x : Z) (s : SDDescriptor) : SDDescriptor :=
  mkSD x (cid s) (csd s) (scr s) (ocr s) (support s) (fileFormat s) (sd_type s) (uhsi s) (sd_ready s) (absent s) (rca s) (cardState s) (status s) (lastCmd s) (lastArg s).
Definition set_cid (x : list Z) (s : SDDescriptor) : SDDescriptor :=
  mkSD (capacity s) x (csd s) (scr s) (ocr s) (support s) (fileFormat s) (sd_type s) (uhsi s) (sd_ready s) (absent s) (rca s) (cardState s) (status s) (lastCmd s) (lastArg s).
Definition set_csd (x : list Z) (s : SDDescriptor) : SDDescriptor :=
  mkSD (capacity s) (cid s) x (scr s) (ocr s) (support s) (fileFormat s) (sd_type s) (uhsi s) (sd_ready s) (absent s) (rca s) (cardState s) (status s) (lastCmd s) (lastArg s).
Definition set_scr (x : list Z) (s : SDDescriptor) : SDDescriptor :=
  mkSD (capacity s) (cid s) (csd s) x (ocr s) (support s) (fileFormat s) (sd_type s) (uhsi s) (sd_ready s) (absent s) (rca s) (cardState s) (status s) (lastCmd s) (lastArg s).
Definition set_ocr (x : Z) (s : SDDescriptor) : SDDescriptor :=
  mkSD (capacity s) (cid s) (csd s) (scr s) x (support s) (fileFormat s) (sd_type s) (uhsi s) (sd_ready s) (absent s) (rca s) (cardState s) (status s) (lastCmd s) (lastArg s).
Definition set_support (x : Z) (s : SDDescriptor) : SDDescriptor :=
  mkSD (capacity s) (cid s) (csd s) (scr s) (ocr s) x (fileFormat s) (sd_type s) (uhsi s) (sd_ready s) (absent s) (rca s) (cardState s) (status s) (lastCmd s) (lastArg s).
Definition set_fileFormat (x : Z) (s : SDDescriptor) : SDDescriptor :=
  mkSD (capacity s) (cid s) (csd s) (scr s) (ocr s) (support s) x (sd_type s) (uhsi s) (sd_ready s) (absent s) (rca s) (cardState s) (status s) (lastCmd s) (lastArg s).
Definition set_sd_type (x : Z) (s : SDDescriptor) : SDDescriptor :=
  mkSD (capacity s) (cid s) (csd s) (scr s) (ocr s) (support s) (fileFormat s) x (uhsi s) (sd_ready s) (absent s) (rca s) (cardState s) (status s) (lastCmd s) (lastArg s).
Definition set_uhsi (x : Z) (s : SDDescriptor) : SDDescriptor :=
  mkSD (capacity s) (cid s) (csd s) (scr s) (ocr s) (support s) (fileFormat s) (sd_type s) x (sd_ready s) (absent s) (rca s) (cardState s) (status s) (lastCmd s) (lastArg s).
Definition set_sd_ready (x : bool) (s : SDDescriptor) : SDDescriptor :=
  mkSD (capacity s) (cid s) (csd s) (scr s) (ocr s) (support s) (fileFormat s) (sd_type s) (uhsi s) x (absent s) (rca s) (cardState s) (status s) (lastCmd s) (lastArg s).
Definition set_absent (x : bool) (s : SDDescriptor) : SDDescriptor :=
  mkSD (capacity s) (cid s) (csd s) (scr s) (ocr s) (support s) (fileFormat s) (sd_type s) (uhsi s) (sd_ready s) x (rca s) (cardState s) (status s) (lastCmd s) (lastArg s).
Definition set_rca (x : Z) (s : SDDescriptor) : SDDescriptor :=
  mkSD (capacity s) (cid s) (csd s) (scr s) (ocr s) (support s) (fileFormat s) (sd_type s) (uhsi s) (sd_ready s) (absent s) x (cardState s) (status s) (lastCmd s) (lastArg s).
Definition set_cardState (x : Z) (s : SDDescriptor) : SDDescriptor :=
  mkSD (capacity s) (cid s) (csd s) (scr s) (ocr s) (support s) (fileFormat s) (sd_type s) (uhsi s) (sd_ready s) (absent s) (rca s) x (status s) (lastCmd s) (lastArg s).
Definition set_status (x : Z) (s : SDDescriptor) : SDDescriptor :=
  mkSD (capacity s) (cid s) (csd s) (scr s) (ocr s) (support s) (fileFormat s) (sd_type s) (uhsi s) (sd_ready s) (absent s) (rca s) (cardState s) x (lastCmd s) (lastArg s).
Definition set_lastCmd (x : option nat) (s : SDDescriptor) : SDDescriptor :=
  mkSD (capacity s) (cid s) (csd s) (scr s) (ocr s) (support s) (fileFormat s) (sd_type s) (uhsi s) (sd_ready s) (absent s) (rca s) (cardState s) (status s) x (lastArg s).
Definition set_lastArg (x : Z) (s : SDDescriptor) : SDDescriptor :=
  mkSD (capacity s) (cid s) (csd s) (scr s) (ocr s) (support s) (fileFormat s) (sd_type s) (uhsi s) (sd_ready s) (absent s) (rca s) (cardState s) (status s) (lastCmd s) x.

(** [struct buf]; [b_data] is [BSIZE] bytes, [b_qnext] an address or 0. *)
Definition BSIZE : Z := 512.
Definition B_VALID : Z := 2.
Definition B_DIRTY : Z := 4.
Record buf : Type := mkBuf { b_flags : Z; b_blockno : Z; b_data : list Z; b_qnext : Z }.
Definition set_b_flags (x : Z) (s : buf) : buf := mkBuf x (b_blockno s) (b_data s) (b_qnext s).
Definition set_b_data (x : list Z) (s : buf) : buf := mkBuf (b_flags s) (b_blockno s) x (b_qnext s).
Definition set_b_qnext (x : Z) (s : buf) : buf := mkBuf (b_flags s) (b_blockno s) (b_data s) x.

(** The statics and the memory of the buffers; [wakeups] records the channels
    that [wakeup] was called with. *)
Record sd (D : Type) : Type := mkSdSt {
  dev : D; sdCard : SDDescriptor; sdHostVer : Z; sdBaseClock : Z;
  bufs : gmap Z buf; sdlock : bool; wakeups : list Z
}.
Arguments mkSdSt {D}. Arguments dev {D}. Arguments sdCard {D}. Arguments sdHostVer {D}. Arguments sdBaseClock {D}.
Arguments bufs {D}. Arguments sdlock {D}. Arguments wakeups {D}.

Section setters.
Context {D : Type}.
Definition set_dev (x : D) (s : sd D) : sd D :=
  mkSdSt x (sdCard s) (sdHostVer s) (sdBaseClock s) (bufs s) (sdlock s) (wakeups s).
Definition set_sdCard (x : SDDescriptor) (s : sd D) : sd D :=
  mkSdSt (dev s) x (sdHostVer s) (sdBaseClock s) (bufs s) (sdlock s) (wakeups s).
Definition set_sdHostVer (x : Z) (s : sd D) : sd D :=
  mkSdSt (dev s) (sdCard s) x (sdBaseClock s) (bufs s) (sdlock s) (wakeups s).
Definition set_sdBaseClock (x : Z) (s : sd D) : sd D :=
  mkSdSt (dev s) (sdCard s) (sdHostVer s) x (bufs s) (sdlock s) (wakeups s).
Definition set_bufs (x : gmap Z buf) (s : sd D) : sd D :=
  mkSdSt (dev s) (sdCard s) (sdHostVer s) (sdBaseClock s) x (sdlock s) (wakeups s).
Definition set_sdlock (x : bool) (s : sd D) : sd D :=
  mkSdSt (dev s) (sdCard s) (sdHostVer s) (sdBaseClock s) (bufs s) x (wakeups s).
Definition set_wakeups (x : list Z) (s : sd D) : sd D :=
  mkSdSt (dev s) (sdCard s) (sdHostVer s) (sdBaseClock s) (bufs s) (sdlock s) x.
End setters.

Section sd.
Context {D : Type} `{Mmio D}.

Definition ondev {A} (m : M D A) : M (sd D) A := lift dev set_dev m.
Definition get (r : Z) : M (sd D) Z := ondev (get32 r).
Definition put (r v : Z) : M (sd D) unit := ondev (put32 r v).
Definition upd_reg (r : Z) (f : Z -> Z) : M (sd D) unit := ondev (update32 r f).
Definition upd_card (f : SDDescriptor -> SDDescriptor) : M (sd D) unit := modify (fun s => set_sdCard (f (sdCard s)) s).
Definition any (v mask : Z) : bool := negb (Z.land v mask =? 0).

(** [if ((resp = m)) return resp;] and [.. return sdDebugResponse(resp);] *)
Definition or_return (m k : M (sd D) Z) : M (sd D) Z := resp ← m; if negb (resp =? 0) then mret resp else k.

Definition sd_delayus (c : Z) : M (sd D) unit := ondev (delayus (u32 (c * 3))).

(** The registers are read for the message. *)
Definition sdDebugResponse (resp : Z) : M (sd D) Z :=
  eachM [EMMC_RESP3; EMMC_RESP2; EMMC_RESP1; EMMC_RESP0; EMMC_STATUS; EMMC_CONTROL1; EMMC_INTERRUPT] (fun r => get r;; mret tt);;
  mret resp.
Definition or_debug (m k : M (sd D) Z) : M (sd D) Z := resp ← m; if negb (resp =? 0) then sdDebugResponse resp else k.

(** ** Waiting *)
Definition sdWaitForInterrupt (mask : Z) : M (sd D) Z :=
  let waitMask := Z.lor mask INT_ERROR_MASK in
  count ← poll_down (v ← get EMMC_INTERRUPT; mret (negb (any v waitMask))) (sd_delayus 1) (Z.to_nat 1000000);
  ival ← get EMMC_INTERRUPT;
  if (count <=? 0) || any ival INT_CMD_TIMEOUT || any ival INT_DATA_TIMEOUT then
    put EMMC_INTERRUPT ival;; mret SD_TIMEOUT
  else if any ival INT_ERROR_MASK then
    get EMMC_STATUS;; get EMMC_RESP0;;
    put EMMC_INTERRUPT ival;; mret SD_ERROR
  else put EMMC_INTERRUPT mask;; mret SD_OK.

Definition busy (inhibit : Z) : M (sd D) bool :=
  st ← get EMMC_STATUS;
  if any st inhibit then v ← get EMMC_INTERRUPT; mret (negb (any v INT_ERROR_MASK)) else mret false.

Definition aborted (timeout : bool) : M (sd D) Z :=
  b ← (if timeout then mret true else v ← get EMMC_INTERRUPT; mret (any v INT_ERROR_MASK));
  if (b : bool) then get EMMC_STATUS;; get EMMC_INTERRUPT;; get EMMC_RESP0;; mret SD_BUSY else mret SD_OK.

Definition sdWaitForCommand : M (sd D) Z :=
  count ← poll_down (busy SR_CMD_INHIBIT) (sd_delayus 1) (Z.to_nat 1000000);
  aborted (count <=? 0).

Definition sdWaitForData : M (sd D) Z :=
  count ← poll_up (busy SR_DAT_INHIBIT) (sd_delayus 1) 500000 (Z.to_nat 500000);
  aborted (500000 <=? count).

(** ** Commands *)
Definition card_state (resp0 : Z) : Z := Z.shiftr (Z.land resp0 ST_CARD_STATE) R1_CARD_STATE_SHIFT.
Definition r6_status (resp0 : Z) : Z :=
  foldr Z.lor 0 [Z.land resp0 0x00001fff; Z.shiftl (Z.land resp0 0x00002000) 6;
    Z.shiftl (Z.land resp0 0x00004000) 8; Z.shiftl (Z.land resp0 0x00008000) 8].

(** What the response means, by its type. *)
Definition handle_response (resp : response) (arg resp0 : Z) : M (sd D) Z :=
  match resp with
  | RESP_NO => mret SD_OK
  | RESP_R1 | RESP_R1b =>
      upd_card (set_status resp0);;
      upd_card (set_cardState (card_state resp0));;
      mret (i32 (Z.land resp0 R1_ERRORS_MASK))
  | RESP_R2I | RESP_R2S =>
      upd_card (set_status 0);;
      r3 ← get EMMC_RESP3; r2 ← get EMMC_RESP2; r1 ← get EMMC_RESP1;
      upd_card (match resp with RESP_R2I => set_cid [r3; r2; r1; resp0] | _ => set_csd [r3; r2; r1; resp0] end);;
      mret SD_OK
  | RESP_R3 => upd_card (set_status 0);; upd_card (set_ocr resp0);; mret SD_OK
  | RESP_R6 =>
      upd_card (set_rca (Z.land resp0 R6_RCA_MASK));;
      upd_card (set_status (r6_status resp0));;
      upd_card (set_cardState (card_state resp0));;
      mret (i32 (Z.land (r6_status resp0) R1_ERRORS_MASK))
  | RESP_R7 => upd_card (set_status 0);; mret (if i32 resp0 =? arg then SD_OK else SD_ERROR)
  end.

(** [cmd] is an index of the table; [sdDebug] is never set. *)
Definition sdSendCommandP (ix : nat) (arg : Z) : M (sd D) Z :=
  cmd ← from_option_M (sdCommandTable !! ix);
  r ← sdWaitForCommand;
  if negb (r =? 0) then mret SD_BUSY
  else
    upd_card (set_lastCmd (Some ix));;
    upd_card (set_lastArg (u32 arg));;
    upd_reg EMMC_INTERRUPT id;;
    put EMMC_ARG1 arg;;
    put EMMC_CMDTM (cmd_code cmd);;
    whenM (negb (cmd_delay cmd =? 0)) (sd_delayus (cmd_delay cmd));;
    or_return (sdWaitForInterrupt INT_CMD_DONE)
      (resp0 ← get EMMC_RESP0; handle_response (cmd_resp cmd) arg resp0).

Definition sdSendAppCommand : M (sd D) Z :=
  c ← gets sdCard;
  if rca c =? 0 then sdSendCommandP IX_APP_CMD 0;; mret SD_OK
  else
    or_debug (sdSendCommandP IX_APP_CMD_RCA (i32 (rca c)))
      (c ← gets sdCard; mret (if any (status c) ST_APP_CMD then SD_OK else SD_ERROR)).

(** After the command. *)
Definition check_app (index : nat) (resp : Z) : M (sd D) Z :=
  c ← gets sdCard;
  mret (if (IX_APP_CMD_START <=? index)%nat && negb (rca c =? 0) && negb (any (status c) ST_APP_CMD) then SD_ERROR_APP_CMD else resp).
Definition app_prefix (index : nat) (k : M (sd D) Z) : M (sd D) Z :=
  if (IX_APP_CMD_START <=? index)%nat then or_debug sdSendAppCommand k else k.

Definition sdSendCommand (index : nat) : M (sd D) Z :=
  app_prefix index
    (cmd ← from_option_M (sdCommandTable !! index);
     c ← gets sdCard;
     or_return (sdSendCommandP index (if cmd_rca cmd then i32 (rca c) else 0)) (check_app index 0)).

Definition sdSendCommandA (index : nat) (arg : Z) : M (sd D) Z :=
  app_prefix index (or_return (sdSendCommandP index arg) (check_app index 0)).

(** The loop of [sdReadSCR]: the number of words read. *)
Fixpoint read_scr (fuel : nat) (numRead count : Z) : M (sd D) Z :=
  match fuel with
  | O => nofuel
  | S fuel' =>
      if numRead <? 2 then
        st ← get EMMC_STATUS;
        if any st SR_READ_AVAILABLE then
          v ← get EMMC_DATA;
          upd_card (fun c => set_scr (<[Z.to_nat numRead := v]> (scr c)) c);;
          read_scr fuel' (numRead + 1) count
        else
          sd_delayus 1;;
          if count - 1 =? 0 then mret numRead else read_scr fuel' numRead (count - 1)
      else mret numRead
  end.

Definition SCR_SD_BUS_WIDTH_1 : Z := 0x00000100.
Definition SCR_SD_BUS_WIDTH_4 : Z := 0x00000400.
Definition SCR_CMD_SUPP_SET_BLKCNT : Z := 0x02000000.
Definition SCR_CMD_SUPP_SPEED_CLASS : Z := 0x01000000.

Definition add_support (scr_flag flag : Z) : M (sd D) unit :=
  upd_card (fun c => if any (nth 0 (scr c) 0) scr_flag then set_support (Z.lor (support c) flag) c else c).

Definition sdReadSCR : M (sd D) Z :=
  r ← sdWaitForData;
  if negb (r =? 0) then mret SD_TIMEOUT
  else
    put EMMC_BLKSIZECNT (Z.lor (Z.shiftl 1 16) 8);;
    or_debug (sdSendCommand IX_SEND_SCR)
      (or_debug (sdWaitForInterrupt INT_READ_RDY)
         (numRead ← read_scr (Z.to_nat 100003) 0 100000;
          if negb (numRead =? 2) then get EMMC_STATUS;; get EMMC_INTERRUPT;; get EMMC_RESP0;; mret SD_TIMEOUT
          else
            add_support SCR_SD_BUS_WIDTH_4 SD_SUPP_BUS_WIDTH_4;;
            add_support SCR_SD_BUS_WIDTH_1 SD_SUPP_BUS_WIDTH_1;;
            add_support SCR_CMD_SUPP_SET_BLKCNT SD_SUPP_SET_BLOCK_COUNT;;
            add_support SCR_CMD_SUPP_SPEED_CLASS SD_SUPP_SPEED_CLASS;;
            mret SD_OK)).
End sd.

(** ** The clock *)

(** One test of [fls_long]: the argument and the result so far. *)
Definition fls_step (mask k : Z) (st : Z * Z) : Z * Z :=
  let '(x, r) := st in if Z.land x mask =? 0 then (u64 (Z.shiftl x k), r - k) else (x, r).
Definition fls_long (x : Z) : Z :=
  if x =? 0 then 0
  else (fls_step 0x80000000 1 (fls_step 0xc0000000 2 (fls_step 0xf0000000 4 (fls_step 0xff000000 8 (fls_step 0xffff0000 16 (x, 32)))))).2.
Definition roundup_pow_of_two (x : Z) : Z := u64 (Z.shiftl 1 (fls_long (u64 (x - 1)))).

(** A frequency of 0 is not divided by. *)
Definition sdGetClockDivider (hostVer freq : Z) : Z :=
  let closest := 41666666 / freq in
  let shiftcount := fls_long (u32 (closest - 1)) in
  let shiftcount := if 0 <? shiftcount then shiftcount - 1 else shiftcount in
  let shiftcount := if 7 <? shiftcount then 7 else shiftcount in
  let divisor := if HOST_SPEC_V2 <? hostVer then closest else Z.shiftl 1 shiftcount in
  let divisor := if divisor <=? 2 then 2 else divisor in
  let hi := if HOST_SPEC_V2 <? hostVer then Z.shiftr (Z.land divisor 0x300) 2 else 0 in
  let lo := Z.land divisor 0x0ff in
  Z.shiftl lo 8 + hi.

Section init.
Context {D : Type} `{Mmio D}.
(** [mbox_get_clock_rate] of mbox.c. *)
Context (mbox_get_clock_rate : M D Z).

(** [if (cond && (resp = m)) return resp;] *)
Definition or_return_if (cond : bool) (m k : M (sd D) Z) : M (sd D) Z := if cond then or_return m k else k.

(** Clocking a pull up/down setting into the pins of [clk]. *)
Definition set_pull (clk : Z) : M D unit :=
  put32 GPPUD 2;; delay 150;; put32 GPPUDCLK1 clk;; delay 150;; put32 GPPUD 0;; put32 GPPUDCLK1 0.

Definition sdInitGPIO : M D unit :=
  update32 GPFSEL4 (fun r => Z.land r (u32 (Z.lnot (Z.shiftl 7 (7 * 3)))));;
  set_pull (Z.shiftl 1 15);;
  update32 GPHEN1 (fun r => Z.lor r (Z.shiftl 1 15));;
  update32 GPFSEL4 (fun r => Z.lor r (Z.lor (Z.shiftl 7 (8 * 3)) (Z.shiftl 7 (9 * 3))));;
  set_pull (Z.lor (Z.shiftl 1 16) (Z.shiftl 1 17));;
  update32 GPFSEL5 (fun r => Z.lor r (foldr Z.lor 0 [Z.shiftl 7 (0 * 3); Z.shiftl 7 (1 * 3); Z.shiftl 7 (2 * 3); Z.shiftl 7 (3 * 3)]));;
  set_pull (foldr Z.lor 0 [Z.shiftl 1 18; Z.shiftl 1 19; Z.shiftl 1 20; Z.shiftl 1 21]).

(** ** Starting the card *)
Definition sdSetClock (freq : Z) : M (sd D) Z :=
  count ← poll_pre (st ← get EMMC_STATUS; mret (any st (Z.lor SR_CMD_INHIBIT SR_DAT_INHIBIT))) (sd_delayus 1) (Z.to_nat 100000);
  if count <=? 0 then get EMMC_STATUS;; mret SD_ERROR_CLOCK
  else
    upd_reg EMMC_CONTROL1 (fun v => Z.land v (u32 (Z.lnot C1_CLK_EN)));;
    sd_delayus 10;;
    hostVer ← gets sdHostVer;
    let cdiv := sdGetClockDivider hostVer (u32 freq) in
    upd_reg EMMC_CONTROL1 (fun v => Z.lor (Z.land v 0xffff003f) cdiv);;
    sd_delayus 10;;
    upd_reg EMMC_CONTROL1 (fun v => Z.lor v C1_CLK_EN);;
    sd_delayus 10;;
    count ← poll_down (v ← get EMMC_CONTROL1; mret (negb (any v C1_CLK_STABLE))) (sd_delayus 10) (Z.to_nat 10000);
    if count <=? 0 then mret SD_ERROR_CLOCK
    else get EMMC_STATUS;; get EMMC_CONTROL1;; mret SD_OK.

Definition reset_registers (c : SDDescriptor) : SDDescriptor :=
  set_uhsi 0 (set_sd_type 0 (set_status 0 (set_lastCmd None (set_lastArg 0 (set_ocr 0 (set_rca 0 c)))))).

Definition sdResetCard (resetType : Z) : M (sd D) Z :=
  put EMMC_CONTROL0 0;;
  upd_reg EMMC_CONTROL1 (fun v => Z.lor v resetType);;
  sd_delayus 10;;
  count ← poll_down (v ← get EMMC_CONTROL1; mret (any v resetType)) (sd_delayus 10) (Z.to_nat 10000);
  if count <=? 0 then mret SD_ERROR_RESET
  else
    upd_reg EMMC_CONTROL1 (fun v => Z.lor v (Z.lor C1_CLK_INTLEN C1_TOUNIT_MAX));;
    sd_delayus 10;;
    or_return (sdSetClock FREQ_SETUP)
      (put EMMC_IRPT_EN (Z.land (Z.land 0xffffffff (u32 (Z.lnot INT_CMD_DONE))) (u32 (Z.lnot INT_WRITE_RDY)));;
       put EMMC_IRPT_MASK 0xffffffff;;
       upd_card reset_registers;;
       sdSendCommand IX_GO_IDLE_STATE).

(** The loop of [sdAppSendOpCond]; [Some resp] is its early [return]. *)
Fixpoint op_cond_loop (arg : Z) (count : nat) : M (sd D) (option Z) :=
  c ← gets sdCard;
  if any (ocr c) R3_COMPLETE then mret None
  else
    match count with
    | O => mret None
    | S count' =>
        get EMMC_STATUS;;
        ondev (delay 50000);;
        resp ← sdSendCommandA IX_APP_SEND_OP_COND arg;
        if negb (resp =? 0) && negb (resp =? SD_TIMEOUT) then mret (Some resp) else op_cond_loop arg count'
    end.

Definition sdAppSendOpCond (arg : Z) : M (sd D) Z :=
  get EMMC_STATUS;;
  resp ← sdSendCommandA IX_APP_SEND_OP_COND arg;
  if negb (resp =? 0) && negb (resp =? SD_TIMEOUT) then mret resp
  else
    r ← op_cond_loop arg 6;
    match r with
    | Some resp => mret resp
    | None =>
        c ← gets sdCard;
        mret (if negb (any (ocr c) R3_COMPLETE) then SD_TIMEOUT
              else if negb (any (ocr c) ACMD41_VOLTAGE) then SD_ERROR_VOLTAGE
              else SD_OK)
    end.

Definition sdSwitchVoltage : M (sd D) Z := mret SD_OK.

Definition sdGetBaseClock : M (sd D) Z :=
  v ← ondev mbox_get_clock_rate;
  modify (set_sdBaseClock v);;
  mret (if v =? -1 then SD_ERROR else SD_OK).

(** The size of the card and its file format; [mult] and the block size are
    [int]s. *)
Definition CSD0_VERSION : Z := 0x00c00000.
Definition CSD0_V1 : Z := 0x00000000.
Definition CSD1VN_READ_BL_LEN : Z := 0x00000f00.
Definition CSD1VN_READ_BL_LEN_SHIFT : Z := 8.
Definition CSD3VN_FILE_FORMAT : Z := 0x0000000c.
Definition CSD3VN_FILE_FORMAT_HDD : Z := 0x00000000.
Definition CSD3VN_FILE_FORMAT_DOSFAT : Z := 0x00000004.
Definition CSD1V1_C_SIZEH : Z := 0x00000003.
Definition CSD1V1_C_SIZEH_SHIFT : Z := 10.
Definition CSD2V1_C_SIZEL : Z := 0xffc00000.
Definition CSD2V1_C_SIZEL_SHIFT : Z := 22.
Definition CSD2V1_C_SIZE_MULT : Z := 0x00000380.
Definition CSD2V1_C_SIZE_MULT_SHIFT : Z := 7.
Definition CSD2V2_C_SIZE : Z := 0x3fffff00.
Definition CSD2V2_C_SIZE_SHIFT : Z := 8.

Definition card_capacity (csd : list Z) : Z :=
  let w i := nth i csd 0 in
  if Z.land (w 0%nat) CSD0_VERSION =? CSD0_V1 then
    let csize := Z.shiftl (Z.land (w 1%nat) CSD1V1_C_SIZEH) CSD1V1_C_SIZEH_SHIFT
                 + Z.shiftr (Z.land (w 2%nat) CSD2V1_C_SIZEL) CSD2V1_C_SIZEL_SHIFT in
    let mult := Z.shiftl 1 (Z.shiftr (Z.land (w 2%nat) CSD2V1_C_SIZE_MULT) CSD2V1_C_SIZE_MULT_SHIFT + 2) in
    let blockSize := Z.shiftl 1 (Z.shiftr (Z.land (w 1%nat) CSD1VN_READ_BL_LEN) CSD1VN_READ_BL_LEN_SHIFT) in
    let numBlocks := (csize + 1) * mult in
    u64 (numBlocks * blockSize)
  else
    let csize := Z.shiftr (Z.land (w 2%nat) CSD2V2_C_SIZE) CSD2V2_C_SIZE_SHIFT in
    u64 ((csize + 1) * 512 * 1024).

Definition sdParseCSD : M (sd D) unit :=
  upd_card (fun c => set_fileFormat (Z.land (nth 3 (csd c) 0) CSD3VN_FILE_FORMAT) (set_capacity (card_capacity (csd c)) c)).

(** Finding the type of the card. *)
Definition sdFindType : M (sd D) Z :=
  resp ← sdSendCommandA IX_SEND_IF_COND 0x000001AA;
  if resp =? SD_OK then
    ondev (delay 50);;
    or_debug (sdAppSendOpCond ACMD41_ARG_HC)
      (upd_card (fun c => set_sd_type (if any (ocr c) R3_CCS then SD_TYPE_2_HC else SD_TYPE_2_SC) c);; mret SD_OK)
  else if resp =? SD_BUSY then mret resp
  else
    st ← get EMMC_STATUS;
    or_return_if (any st SR_CMD_INHIBIT) (sdResetCard C1_SRST_HC)
      (or_debug (sdAppSendOpCond ACMD41_ARG_SC) (upd_card (set_sd_type SD_TYPE_1);; mret SD_OK)).

(** The rest of [sdInit], from the identification of the card on. *)
Definition sdIdentify (oldCID : list Z) : M (sd D) Z :=
  c ← gets sdCard;
  or_return_if (any (ocr c) R3_S18A) sdSwitchVoltage
  (or_debug (sdSendCommand IX_ALL_SEND_CID)
  (or_debug (sdSendCommand IX_SEND_REL_ADDR)
  (or_debug (sdSendCommand IX_SEND_CSD)
  (sdParseCSD;;
   c ← gets sdCard;
   if negb (fileFormat c =? CSD3VN_FILE_FORMAT_DOSFAT) && negb (fileFormat c =? CSD3VN_FILE_FORMAT_HDD) then mret SD_ERROR
   else
     or_debug (sdSetClock FREQ_NORMAL)
     (or_debug (sdSendCommand IX_CARD_SELECT)
     (or_debug sdReadSCR
     (c ← gets sdCard;
      resp ← (if any (support c) SD_SUPP_BUS_WIDTH_4 then
                or_debug (sdSendCommandA IX_SET_BUS_WIDTH (i32 (Z.lor (rca c) 2)))
                  (upd_reg EMMC_CONTROL0 (fun v => Z.lor v C0_HCTL_DWITDH);; mret SD_OK)
              else mret SD_OK);
      if negb (resp =? 0) then mret resp
      else
        or_debug (sdSendCommandA IX_SET_BLOCKLEN 512)
        (upd_card (set_sd_ready true);;
         c ← gets sdCard;
         mret (if bool_decide (oldCID = cid c) then SD_CARD_REINSERTED else SD_CARD_CHANGED))))))))).

Definition sdInit : M (sd D) Z :=
  c ← gets sdCard;
  whenM (negb (sd_ready c)) (ondev sdInitGPIO);;
  cardEjected ← ondev (get32 GPEDS1);
  let cardEjected := any cardEjected (Z.shiftl 1 (47 - 32)) in
  upd_card (set_absent false);;
  let oldCID := if cardEjected && sd_ready c then cid c else replicate 4 0 in
  whenM (cardEjected && sd_ready c) (upd_card (set_sd_ready false));;
  if sd_ready c && negb cardEjected then mret SD_OK
  else
    v ← get EMMC_SLOTISR_VER;
    modify (set_sdHostVer (Z.shiftr (Z.land v HOST_SPEC_NUM) HOST_SPEC_NUM_SHIFT));;
    or_return sdGetBaseClock
      (or_return (sdResetCard C1_SRST_HC)
        (resp ← sdFindType;
         if negb (resp =? 0) then mret resp else sdIdentify oldCID)).
End init.

(** ** Requests *)
Section requests.
Context {D : Type} `{Mmio D}.
(** The address of the static [sdque], and the bound on a walk of the queue. *)
Context (sdque : Z) (qmax : nat).
(** [sleep(b, &sdlock)]: the lock is given back, the rest of the system runs
    until [wakeup(b)], and the lock is taken again. *)
Context (sleep : Z -> M (sd D) unit).

Definition get_buf (b : Z) : M (sd D) buf := s ← gets bufs; from_option_M (s !! b).
Definition upd_buf (b : Z) (f : buf -> buf) : M (sd D) unit :=
  x ← get_buf b; modify (fun s => set_bufs (<[b := f x]> (bufs s)) s).

(** *** buf.h *)
Definition init_buflist (head : Z) : M (sd D) unit :=
  get_buf head;; modify (fun s => set_bufs (<[head := mkBuf 0 0 (replicate 512 0) 0]> (bufs s)) s).

(** The walk to the last buffer. *)
Fixpoint buflist_last (fuel : nat) (tmp : Z) : M (sd D) Z :=
  match fuel with
  | O => nofuel
  | S fuel' => x ← get_buf tmp; if negb (b_qnext x =? 0) then buflist_last fuel' (b_qnext x) else mret tmp
  end.
(** The two assignments that append [n] behind [tmp]. *)
Definition buflist_link (tmp n : Z) : M (sd D) unit := upd_buf tmp (set_b_qnext n);; upd_buf n (set_b_qnext 0).
Definition buflist_push (n head : Z) : M (sd D) unit := tmp ← buflist_last qmax head; buflist_link tmp n.
Definition buflist_front (head : Z) : M (sd D) Z := x ← get_buf head; mret (b_qnext x).
Definition buflist_pop (head : Z) : M (sd D) unit :=
  x ← get_buf head; y ← get_buf (b_qnext x); upd_buf head (set_b_qnext (b_qnext y)).
Definition buflist_empty (head : Z) : M (sd D) bool := x ← get_buf head; mret (b_qnext x =? 0).

(** *** sd.c *)
Definition is_write (x : buf) : bool := any (b_flags x) B_DIRTY.

Definition sd_start (b : Z) : M (sd D) unit :=
  c ← gets sdCard;
  x ← get_buf b;
  let bno := if sd_type c =? SD_TYPE_2_HC then i32 (b_blockno x) else i32 (Z.shiftl (b_blockno x) 9) in
  i ← get EMMC_INTERRUPT;
  assert_ (i =? 0);;
  let cmd := if is_write x then IX_WRITE_SINGLE else IX_READ_SINGLE in
  put EMMC_BLKSIZECNT 512;;
  resp ← sdSendCommandA cmd bno;
  assert_ (resp =? 0);;
  assert_ (Z.land (b + 8) 3 =? 0);;
  whenM (is_write x)
    (resp ← sdWaitForInterrupt INT_WRITE_RDY;
     assert_ (resp =? 0);;
     i ← get EMMC_INTERRUPT;
     assert_ (i =? 0);;
     eachM (seqZ 0 128) (fun done => x ← get_buf b; put EMMC_DATA (load 4 (Z.to_nat (4 * done)) (b_data x)))).

(** Reading the 128 words of a block into a buffer. *)
Definition read_data (b : Z) : M (sd D) unit :=
  eachM (seqZ 0 128) (fun done =>
    v ← get EMMC_DATA; upd_buf b (fun x => set_b_data (splice (Z.to_nat (4 * done)) (le_bytes 4 v) (b_data x)) x)).

Definition acquire_sdlock : M (sd D) unit := b ← gets sdlock; assert_ (negb b);; modify (set_sdlock true).
Definition release_sdlock : M (sd D) unit := b ← gets sdlock; assert_ b;; modify (set_sdlock false).

Definition sd_intr : M (sd D) unit :=
  acquire_sdlock;;
  e ← buflist_empty sdque;
  (if (e : bool) then get EMMC_INTERRUPT;; mret tt
   else
     i ← get EMMC_INTERRUPT;
     assert_ (any i INT_DATA_DONE || any i INT_READ_RDY);;
     put EMMC_INTERRUPT i;;
     b ← buflist_front sdque;
     x ← get_buf b;
     let write := is_write x in
     if negb (write && (i =? INT_DATA_DONE) || negb write && (i =? INT_READ_RDY)) then sd_start b
     else
       whenM (negb write) (read_data b;; sdWaitForInterrupt INT_DATA_DONE;; mret tt);;
       upd_buf b (fun x => set_b_flags (Z.lor (b_flags x) B_VALID) x);;
       upd_buf b (fun x => set_b_flags (Z.land (b_flags x) (Z.lnot B_DIRTY)) x);;
       modify (fun s => set_wakeups (wakeups s ++ [b]) s);;
       buflist_pop sdque;;
       e ← buflist_empty sdque;
       whenM (negb e) (b ← buflist_front sdque; sd_start b));;
  release_sdlock.

(** The part of [sdrw] under the lock, up to its loop. *)
Definition sdrw_start (flag : bool) : M (sd D) unit :=
  acquire_sdlock;;
  whenM flag (b ← buflist_front sdque; sd_start b).

(** [sdrw] up to its loop: the queue is read and changed without the lock. *)
Definition sdrw_submit (b : Z) : M (sd D) unit :=
  flag ← buflist_empty sdque;
  buflist_push b sdque;;
  sdrw_start flag.

(** The test that ends the loop. *)
Definition sdrw_done (b : Z) : M (sd D) bool :=
  x ← get_buf b; mret (any (b_flags x) B_VALID && any (Z.lnot (b_flags x)) B_DIRTY).

Definition sdrw_finish : M (sd D) unit := h ← gets sdlock; whenM h release_sdlock.

(** [turns] bounds how often the thread is woken. *)
Definition sdrw (turns : nat) (b : Z) : M (sd D) unit :=
  sdrw_submit b;;
  whileM turns (sleep b;; d ← sdrw_done b; mret (negb d));;
  sdrw_finish.

(** *** block_device.c: the buffer [b] is on the stack, and holds [junk] *)
Definition BLOCKNO_OFFSET : Z := 0x20800.
Definition new_buf (b : Z) (x : buf) : M (sd D) unit := modify (fun s => set_bufs (<[b := x]> (bufs s)) s).
Definition free_buf (b : Z) : M (sd D) unit := modify (fun s => set_bufs (delete b (bufs s)) s).

Definition sd_read (turns : nat) (b : Z) (junk : buf) (block_no : Z) : M (sd D) (list Z) :=
  new_buf b (mkBuf 0 (u32 (u32 block_no + BLOCKNO_OFFSET)) (b_data junk) (b_qnext junk));;
  sdrw turns b;;
  x ← get_buf b;
  free_buf b;;
  mret (b_data x).

Definition sd_write (turns : nat) (b : Z) (junk : buf) (block_no : Z) (buffer : list Z) : M (sd D) unit :=
  new_buf b (mkBuf (Z.lor B_DIRTY B_VALID) (u32 (u32 block_no + BLOCKNO_OFFSET)) (take 512 buffer) (b_qnext junk));;
  sdrw turns b;;
  free_buf b.

(** *** The start: [mbr] is the address of the static buffer. *)
Definition sd_init (mbox_get_clock_rate : M D Z) (mbr : Z) : M (sd D) unit :=
  modify (set_sdlock false);;
  init_buflist sdque;;
  sdInit mbox_get_clock_rate;;
  c ← gets sdCard;
  assert_ (sd_ready c);;
  x ← get_buf mbr;
  modify (fun s => set_bufs (<[mbr := mkBuf 0 0 (b_data x) 0]> (bufs s)) s);;
  sd_start mbr;;
  sdWaitForInterrupt INT_READ_RDY;;
  read_data mbr;;
  sdWaitForInterrupt INT_DATA_DONE;;
  mret tt.
End requests.
End Sd.
