(* ===== verification/SdFacts.v ===== *)
(** * Correctness of the SD card driver (src/driver/sd.c)

    The arithmetic of the clock; what the driver relies on of the controller
    and the card, the class [SdCard]; waiting, commands, [sd_start] and the
    transfer of a block under it. *)
From S2P Require Import Prelude CString Mmio Sd.

Module SdFacts.
Import CString Mmio Sd.

(** ** [fls_long] and the clock divider *)
Definition top_mask (k : Z) : Z := Z.shiftl (Z.ones k) (32 - k).

Lemma land_top x k : 0 <= k <= 32 -> 0 <= x < 2 ^ 32 -> Z.land x (top_mask k) = 0 <-> x < 2 ^ (32 - k).
Proof.
  intros Hk Hx. unfold top_mask.
  assert (Z.land x (Z.shiftl (Z.ones k) (32 - k)) = Z.shiftl (Z.shiftr x (32 - k)) (32 - k)) as ->.
  { apply Z.bits_inj'. intros i Hi. rewrite Z.land_spec, !Z.shiftl_spec by lia.
    destruct (decide (i < 32 - k)) as [Hlt|Hge].
    - by rewrite !(Z.testbit_neg_r _ (i - (32 - k))), andb_false_r by lia.
    - rewrite Z.shiftr_spec by lia. replace (i - (32 - k) + (32 - k)) with i by lia.
      destruct (decide (i < 32)) as [Hlt'|Hge'].
      + by rewrite Z.ones_spec_low, andb_true_r by lia.
      + rewrite Z.ones_spec_high, andb_false_r by lia. symmetry. rewrite Z.bits_above_log2; [done|lia|].
        destruct (decide (x = 0)) as [->|]; [simpl; lia|]. assert (Z.log2 x < 32) by (apply Z.log2_lt_pow2; lia). lia. }
  rewrite Z.shiftl_mul_pow2, Z.shiftr_div_pow2 by lia. split; intros H.
  - assert (0 < 2 ^ (32 - k)) by lia. assert (x / 2 ^ (32 - k) = 0) by nia. by apply Z.div_small_iff in H1 as [?|?]; lia.
  - rewrite Z.div_small by lia. lia.
Qed.

(** What holds of the shifted argument and the result so far. *)
Definition fls_inv (x0 : Z) (j : Z) (st : Z * Z) : Prop :=
  0 < st.2 <= 32 /\ st.1 = x0 * 2 ^ (32 - st.2) /\ 0 < st.1 < 2 ^ 32 /\ 32 - j <= Z.log2 st.1.

Lemma fls_step_inv x0 k st mask :
  0 < k <= 16 -> mask = top_mask k -> 0 < x0 -> fls_inv x0 (2 * k) st -> fls_inv x0 k (fls_step mask k st).
Proof.
  intros Hk -> Hx0. destruct st as [x r]. unfold fls_inv. simpl. intros (Hr & Hx & Hx32 & Hlog). unfold fls_step.
  destruct (Z.eqb_spec (Z.land x (top_mask k)) 0) as [E|E]; simpl.
  - apply land_top in E; [|lia|lia]. rewrite Z.shiftl_mul_pow2 by lia.
    assert (x * 2 ^ k < 2 ^ 32) as Hlt.
    { replace (2 ^ 32) with (2 ^ (32 - k) * 2 ^ k) by (rewrite <- Z.pow_add_r by lia; f_equal; lia). apply Z.mul_lt_mono_pos_r; lia. }
    rewrite u64_id by lia.
    assert (x * 2 ^ k = x0 * 2 ^ (32 - (r - k))) as Heq.
    { rewrite Hx, <- Z.mul_assoc, <- Z.pow_add_r by lia. do 2 f_equal. lia. }
    split; [|split; [exact Heq|split; [lia|]]].
    + split; [|lia]. assert (32 - (r - k) < 32); [|lia]. apply (Z.pow_lt_mono_r_iff 2); [lia|lia|]. rewrite Heq in Hlt. nia.
    + rewrite Z.log2_mul_pow2 by lia. lia.
  - rewrite land_top in E by lia. split; [done|]. split; [done|]. split; [done|].
    apply Z.log2_le_pow2; lia.
Qed.

(** The number of bits of a 32-bit number. *)
Lemma fls_long_bits x : 0 < x < 2 ^ 32 -> fls_long x = Z.log2 x + 1.
Proof.
  intros Hx. unfold fls_long. rewrite (proj2 (Z.eqb_neq x 0)) by lia.
  assert (fls_inv x 32 (x, 32)) as H0.
  { unfold fls_inv. cbn [fst snd]. change (2 ^ (32 - 32)) with 1. pose proof (Z.log2_nonneg x). lia. }
  apply (fls_step_inv x 16 _ 0xffff0000 ltac:(lia) eq_refl ltac:(lia)) in H0.
  apply (fls_step_inv x 8 _ 0xff000000 ltac:(lia) eq_refl ltac:(lia)) in H0.
  apply (fls_step_inv x 4 _ 0xf0000000 ltac:(lia) eq_refl ltac:(lia)) in H0.
  apply (fls_step_inv x 2 _ 0xc0000000 ltac:(lia) eq_refl ltac:(lia)) in H0.
  apply (fls_step_inv x 1 _ 0x80000000 ltac:(lia) eq_refl ltac:(lia)) in H0.
  destruct (fls_step 0x80000000 1 _) as [y r]. destruct H0 as (Hr & Hy & Hy32 & Hlog). simpl in *.
  assert (Z.log2 y < 32) by (apply Z.log2_lt_pow2; lia). rewrite Hy, Z.log2_mul_pow2 in * by lia. lia.
Qed.

(** The least power of two that is not smaller. *)
Lemma roundup_pow_of_two_correct x : 1 <= x <= 2 ^ 32 ->
  exists n, roundup_pow_of_two x = 2 ^ n /\ 0 <= n /\ x <= 2 ^ n /\ (forall m, 0 <= m -> x <= 2 ^ m -> n <= m).
Proof.
  intros Hx. unfold roundup_pow_of_two. rewrite (u64_id (x - 1)) by lia. exists (fls_long (x - 1)).
  destruct (decide (x = 1)) as [->|Hne]; [split_and!; [reflexivity|reflexivity|reflexivity|by intros]|].
  rewrite fls_long_bits by lia. destruct (Z.log2_spec (x - 1) ltac:(lia)) as [Hlo Hhi]. pose proof (Z.log2_nonneg (x - 1)).
  assert (Z.log2 (x - 1) < 32) by (apply Z.log2_lt_pow2; lia). rewrite Z.shiftl_mul_pow2, Z.mul_1_l by lia.
  assert (2 ^ (Z.log2 (x - 1) + 1) <= 2 ^ 32) by (apply Z.pow_le_mono_r; lia).
  rewrite u64_id by lia. rewrite <- Z.add_1_r in Hhi. split_and!; [done|lia|lia|].
  intros m Hm Hxm. destruct (decide (Z.log2 (x - 1) < m)) as [|Hge]; [lia|].
  assert (2 ^ m <= 2 ^ Z.log2 (x - 1)) by (apply Z.pow_le_mono_r; lia). lia.
Qed.

(** ** What the driver relies on of the controller and the card

    [Idle]: nothing in progress. [Arg a]: the argument register is written.
    [Wait n m k]: after [n] more pauses interrupt [m] is raised, and clearing
    it leads to [k]. [Recv a ws]: the controller takes the words of block [a],
    and has [ws]. [Send ws k]: it hands out the words [ws]. *)
Inductive phase : Type :=
| Idle
| Arg (a : Z)
| Wait (n : nat) (m : Z) (k : phase)
| Recv (a : Z) (ws : list Z)
| Send (ws : list Z) (k : phase).

(** The interrupt register. *)
Definition raised (p : phase) : Z := match p with Wait O m _ => m | _ => 0 end.
Definition cleared (p : phase) : phase := match p with Wait O _ k => k | p => p end.
Definition waited (p : phase) : phase := match p with Wait (S n) m k => Wait n m k | p => p end.

Definition CMD_READ : Z := default 0 (cmd_code <$> sdCommandTable !! IX_READ_SINGLE).
Definition CMD_WRITE : Z := default 0 (cmd_code <$> sdCommandTable !! IX_WRITE_SINGLE).

(** Commands and buffers become ready before the driver gives up waiting. *)
Definition soon (n : nat) : Prop := Z.of_nat n < 1000000.

Class SdCard (D : Type) `{Mmio D} : Type := {
  ph : D -> phase;
  blk : D -> Z -> list Z;        (** the words of each block *)
  valid : Z -> Prop;             (** the addresses that the card has *)
  dev_at (p : phase) (B : Z -> list Z) (d : D) : Prop := ph d = p /\ forall a, blk d a = B a;

  blk_words d a : length (blk d a) = 128%nat;
  blk_range d a : Forall (fun w => 0 <= w < 2 ^ 32) (blk d a);
  int_read d p B : dev_at p B d -> (reg_read EMMC_INTERRUPT d).1 = raised p /\ dev_at p B (reg_read EMMC_INTERRUPT d).2;
  int_clear d p B : dev_at p B d -> dev_at (cleared p) B (reg_write EMMC_INTERRUPT (raised p) d);
  wait_law d p B c : dev_at p B d -> dev_at (waited p) B (dev_wait c d);
  status_read d B : dev_at Idle B d -> Z.land (reg_read EMMC_STATUS d).1 SR_CMD_INHIBIT = 0 /\ dev_at Idle B (reg_read EMMC_STATUS d).2;
  resp_read d n m k B : dev_at (Wait n m k) B d ->
    Z.land (reg_read EMMC_RESP0 d).1 R1_ERRORS_MASK = 0 /\ dev_at (Wait n m k) B (reg_read EMMC_RESP0 d).2;
  size_write d B : dev_at Idle B d -> dev_at Idle B (reg_write EMMC_BLKSIZECNT 512 d);
  arg_write d B a : dev_at Idle B d -> dev_at (Arg a) B (reg_write EMMC_ARG1 a d);
  cmd_read d B a : dev_at (Arg a) B d -> valid a -> exists n1 n2 n3, soon n1 /\ soon n3 /\
    dev_at (Wait n1 INT_CMD_DONE (Wait n2 INT_READ_RDY (Send (B a) (Wait n3 INT_DATA_DONE Idle)))) B (reg_write EMMC_CMDTM CMD_READ d);
  cmd_write d B a : dev_at (Arg a) B d -> valid a -> exists n1 n2, soon n1 /\ soon n2 /\
    dev_at (Wait n1 INT_CMD_DONE (Wait n2 INT_WRITE_RDY (Recv a []))) B (reg_write EMMC_CMDTM CMD_WRITE d);
  data_read d B w w' ws k : dev_at (Send (w :: w' :: ws) k) B d ->
    (reg_read EMMC_DATA d).1 = w /\ dev_at (Send (w' :: ws) k) B (reg_read EMMC_DATA d).2;
  data_read_last d B w k : dev_at (Send [w] k) B d -> (reg_read EMMC_DATA d).1 = w /\ dev_at k B (reg_read EMMC_DATA d).2;
  data_write d B a ws w : dev_at (Recv a ws) B d -> (length ws < 127)%nat -> 0 <= w < 2 ^ 32 -> dev_at (Recv a (ws ++ [w])) B (reg_write EMMC_DATA w d);
  data_write_last d B a ws w : dev_at (Recv a ws) B d -> length ws = 127%nat -> Forall (fun w => 0 <= w < 2 ^ 32) (ws ++ [w]) ->
    exists n, dev_at (Wait n INT_DATA_DONE Idle) (fun a' => if decide (a' = a) then ws ++ [w] else B a') (reg_write EMMC_DATA w d)
}.

(** ** One request *)
Section request.
Context {D : Type} `{SdCard D}.
Implicit Types (s : sd D) (p : phase) (B : Z -> list Z).

(** [s] is [s0] but for the device, at [p] and [B], and for what the commands
    record in the descriptor. *)
Definition at_ (p : phase) (B : Z -> list Z) (s0 s : sd D) : Prop :=
  exists d c, s = set_sdCard c (set_dev d s0) /\ sd_type c = sd_type (sdCard s0) /\ dev_at p B d.

Lemma at_refl p B s : dev_at p B (dev s) -> at_ p B s s.
Proof. intros Hd. exists (dev s), (sdCard s). by destruct s. Qed.

Lemma at_dev p B s0 s p' B' d : at_ p B s0 s -> dev_at p' B' d -> at_ p' B' s0 (set_dev d s).
Proof. intros (d0 & c & -> & Hc & _) Hd. by exists d, c. Qed.

Lemma at_at p B s0 s : at_ p B s0 s -> dev_at p B (dev s).
Proof. by intros (d & c & -> & _ & Hd). Qed.

Lemma at_card p B s0 s f : at_ p B s0 s -> sd_type (f (sdCard s)) = sd_type (sdCard s) -> at_ p B s0 (set_sdCard (f (sdCard s)) s).
Proof. intros (d & c & -> & Hc & Hd) Hf. exists d, (f c). simpl in *. by rewrite Hf. Qed.

Lemma wp_get r p B p' s0 s (Q : Z -> sd D -> Prop) :
  at_ p B s0 s -> dev_at p' B (reg_read r (dev s)).2 -> (forall s', at_ p' B s0 s' -> Q (reg_read r (dev s)).1 s') -> wp (get r) Q s.
Proof.
  intros Hat Hd HQ. unfold get, ondev. apply wp_lift. unfold wp, get32. destruct (reg_read r (dev s)) as [v d'].
  apply HQ. by apply (at_dev p B).
Qed.

Lemma wp_put r v p B p' B' s0 s (Q : unit -> sd D -> Prop) :
  at_ p B s0 s -> dev_at p' B' (reg_write r (u32 v) (dev s)) -> (forall s', at_ p' B' s0 s' -> Q tt s') -> wp (put r v) Q s.
Proof. intros Hat Hd HQ. unfold put, ondev, put32. apply wp_lift, wp_modify. apply HQ. by apply (at_dev p B). Qed.

Lemma wp_get_int p B s0 s (Q : Z -> sd D -> Prop) :
  at_ p B s0 s -> (forall s', at_ p B s0 s' -> Q (raised p) s') -> wp (get EMMC_INTERRUPT) Q s.
Proof. intros Hat HQ. destruct (int_read _ _ _ (at_at _ _ _ _ Hat)) as [Hv Hd]. eapply wp_get; [done|done|]. by rewrite Hv. Qed.

Lemma wp_put_int p B s0 s v (Q : unit -> sd D -> Prop) :
  at_ p B s0 s -> v = raised p -> 0 <= raised p < 2 ^ 32 -> (forall s', at_ (cleared p) B s0 s' -> Q tt s') -> wp (put EMMC_INTERRUPT v) Q s.
Proof.
  intros Hat -> Hr HQ. eapply (wp_put _ _ p); [done| |done]. rewrite u32_id by done. apply int_clear. by eapply at_at.
Qed.

Lemma wp_upd_card p B f s0 s (Q : unit -> sd D -> Prop) :
  at_ p B s0 s -> (forall c, sd_type (f c) = sd_type c) -> (forall s', at_ p B s0 s' -> Q tt s') -> wp (upd_card f) Q s.
Proof. intros Hat Hf HQ. unfold upd_card. apply wp_modify, HQ. by apply at_card. Qed.

Lemma wp_sd_delayus p B c s0 s (Q : unit -> sd D -> Prop) :
  at_ p B s0 s -> (forall s', at_ (waited p) B s0 s' -> Q tt s') -> wp (sd_delayus c) Q s.
Proof.
  intros Hat HQ. unfold sd_delayus, ondev, delayus. apply wp_lift, wp_modify, HQ. eapply at_dev; [done|].
  apply wait_law. by eapply at_at.
Qed.

(** Waiting for an interrupt that comes soon. *)
Definition plain (m : Z) : Prop := m ∈ [INT_CMD_DONE; INT_WRITE_RDY; INT_READ_RDY; INT_DATA_DONE].

Lemma plain_spec m : plain m ->
  0 <= m < 2 ^ 32 /\ any m (Z.lor m INT_ERROR_MASK) = true /\ any m INT_CMD_TIMEOUT = false /\ any m INT_DATA_TIMEOUT = false /\ any m INT_ERROR_MASK = false.
Proof. intros Hm. repeat (apply elem_of_cons in Hm as [->|Hm]; [by vm_compute|]). by apply elem_of_nil in Hm. Qed.

Lemma wp_poll_int n m k B count s0 s (Q : Z -> sd D -> Prop) :
  plain m -> at_ (Wait n m k) B s0 s -> (n <= count)%nat ->
  (forall s', at_ (Wait 0 m k) B s0 s' -> Q (Z.of_nat (count - n)) s') ->
  wp (poll_down (v ← get EMMC_INTERRUPT; mret (negb (any v (Z.lor m INT_ERROR_MASK)))) (sd_delayus 1) count) Q s.
Proof.
  intros Hm. destruct (plain_spec m Hm) as (_ & Hany & _). revert count s. induction n as [|n IH]; intros count s Hat Hn HQ.
  - destruct count as [|count]; cbn [poll_down]; apply wp_bind, wp_bind; (eapply wp_get_int; [exact Hat|]); intros s1 Hat1; apply wp_ret; simpl raised;
      rewrite Hany; by apply wp_ret, HQ.
  - destruct count as [|count]; [lia|]. cbn [poll_down]. apply wp_bind, wp_bind. eapply wp_get_int; [exact Hat|]. intros s1 Hat1. apply wp_ret. simpl raised.
    change (any 0 (Z.lor m INT_ERROR_MASK)) with false. simpl. apply wp_bind. eapply wp_sd_delayus; [exact Hat1|]. simpl waited. intros s2 Hat2.
    apply IH; [done|lia|]. intros s3 Hat3. specialize (HQ s3 Hat3). by replace (S count - S n)%nat with (count - n)%nat in HQ by lia.
Qed.

Lemma wp_wait_int n m k B s0 s (Q : Z -> sd D -> Prop) :
  plain m -> soon n -> at_ (Wait n m k) B s0 s -> (forall s', at_ k B s0 s' -> Q SD_OK s') -> wp (sdWaitForInterrupt m) Q s.
Proof.
  intros Hm Hn Hat HQ. destruct (plain_spec m Hm) as (Hr & Hany & H1 & H2 & H3). unfold soon in Hn. unfold sdWaitForInterrupt. apply wp_bind.
  eapply wp_poll_int; [done|exact Hat|lia|]. intros s1 Hat1. apply wp_bind. eapply wp_get_int; [exact Hat1|]. intros s2 Hat2. simpl raised.
  rewrite H1, H2, H3. rewrite (proj2 (Z.leb_gt _ _)) by lia. simpl. apply wp_bind. eapply wp_put_int; [exact Hat2|done|done|].
  intros s3 Hat3. by apply wp_ret, HQ.
Qed.

Lemma wp_wait_command B s0 s (Q : Z -> sd D -> Prop) :
  at_ Idle B s0 s -> (forall s', at_ Idle B s0 s' -> Q SD_OK s') -> wp sdWaitForCommand Q s.
Proof.
  intros Hat HQ. unfold sdWaitForCommand. apply wp_bind. destruct (status_read _ _ (at_at _ _ _ _ Hat)) as [Hv Hd].
  assert (wp (busy SR_CMD_INHIBIT) (fun b s' => b = false /\ at_ Idle B s0 s') s) as Hb.
  { unfold busy. apply wp_bind. eapply wp_get; [exact Hat|exact Hd|]. intros s1 Hat1. unfold any. rewrite Hv. simpl. by apply wp_ret. }
  assert (forall c, (0 < c)%nat -> wp (poll_down (busy SR_CMD_INHIBIT) (sd_delayus 1) c) (fun n s' => n = Z.of_nat c /\ at_ Idle B s0 s') s) as Hp.
  { intros [|c] Hc; [lia|]. cbn [poll_down]. apply wp_bind. eapply wp_mono; [exact Hb|]. intros b s1 [-> Hat1]. by apply wp_ret. }
  eapply wp_mono; [apply Hp; lia|]. intros n s1 [-> Hat1]. rewrite (proj2 (Z.leb_gt _ _)) by lia.
  unfold aborted. apply wp_bind, wp_bind. eapply wp_get_int; [exact Hat1|]. intros s2 Hat2. by apply wp_ret, wp_ret, HQ.
Qed.

Lemma wp_clear_int B s0 s (Q : unit -> sd D -> Prop) :
  at_ Idle B s0 s -> (forall s', at_ Idle B s0 s' -> Q tt s') -> wp (upd_reg EMMC_INTERRUPT id) Q s.
Proof.
  intros Hat HQ. apply (wp_change _ (v ← get EMMC_INTERRUPT; put EMMC_INTERRUPT v)).
  { unfold upd_reg, update32, get, put, ondev, lift, mbind, M_bind, get32. by destruct (reg_read EMMC_INTERRUPT (dev s)). }
  apply wp_bind. eapply wp_get_int; [exact Hat|]. intros s1 Hat1. by eapply (wp_put_int Idle); [exact Hat1|..].
Qed.

(** A command for one block, up to its response. *)
Lemma wp_send_block ix cmd arg B s0 s (Q : Z -> sd D -> Prop) :
  sdCommandTable !! ix = Some cmd -> (ix < IX_APP_CMD_START)%nat -> cmd_delay cmd = 0 -> cmd_resp cmd = RESP_R1 -> 0 <= cmd_code cmd < 2 ^ 32 ->
  at_ Idle B s0 s -> (forall d, dev_at (Arg (u32 arg)) B d -> exists n1 n2 m k, soon n1 /\
     dev_at (Wait n1 INT_CMD_DONE (Wait n2 m k)) B (reg_write EMMC_CMDTM (cmd_code cmd) d) /\ forall s', at_ (Wait n2 m k) B s0 s' -> Q SD_OK s') ->
  wp (sdSendCommandA ix arg) Q s.
Proof.
  intros Hcmd Hix Hdelay Hresp Hcode Hat Hdev. unfold sdSendCommandA, app_prefix. rewrite (proj2 (Nat.leb_gt _ _)) by done.
  unfold or_return. apply wp_bind. unfold sdSendCommandP. rewrite Hcmd. apply wp_bind, wp_ret, wp_bind.
  eapply wp_wait_command; [exact Hat|]. intros s1 Hat1. simpl (negb _). cbn iota.
  apply wp_bind. eapply wp_upd_card; [exact Hat1|done|]. intros s2 Hat2. apply wp_bind. eapply wp_upd_card; [exact Hat2|done|]. intros s3 Hat3.
  apply wp_bind. eapply wp_clear_int; [exact Hat3|]. intros s4 Hat4.
  apply wp_bind. eapply wp_put; [exact Hat4|apply arg_write; by eapply at_at|]. intros s5 Hat5.
  destruct (Hdev _ (at_at _ _ _ _ Hat5)) as (n1 & n2 & m & k & Hn1 & Hd6 & HQ).
  apply wp_bind. eapply wp_put; [exact Hat5|rewrite u32_id by done; exact Hd6|]. intros s6 Hat6.
  rewrite Hdelay. apply wp_bind, wp_ret. unfold or_return. apply wp_bind.
  eapply wp_wait_int; [|exact Hn1|exact Hat6|]; [by left|]. intros s7 Hat7. simpl (negb _). cbn iota.
  destruct (resp_read _ _ _ _ _ (at_at _ _ _ _ Hat7)) as [Hv Hd8]. apply wp_bind. eapply wp_get; [exact Hat7|exact Hd8|]. intros s8 Hat8.
  rewrite Hresp. cbn [handle_response]. apply wp_bind. eapply wp_upd_card; [exact Hat8|done|]. intros s9 Hat9.
  apply wp_bind. eapply wp_upd_card; [exact Hat9|done|]. intros s10 Hat10. rewrite Hv. apply wp_ret. simpl (negb _). cbn iota.
  unfold check_app. apply wp_bind, wp_gets. rewrite (proj2 (Nat.leb_gt _ _)) by done. simpl. by apply wp_ret, HQ.
Qed.

(** *** [sd_start] *)
Definition addr_of (ty : Z) (x : buf) : Z :=
  u32 (if ty =? SD_TYPE_2_HC then i32 (b_blockno x) else i32 (Z.shiftl (b_blockno x) 9)).
Definition buf_words (x : buf) : list Z := words 4 128 (b_data x).
Definition write_block (B : Z -> list Z) (a : Z) (ws : list Z) : Z -> list Z := fun a' => if decide (a' = a) then ws else B a'.

(** A buffer that can be queued: its data are bytes, its address is aligned. *)
Definition buf_ok (ty b : Z) (x : buf) : Prop :=
  length (b_data x) = 512%nat /\ Forall byte_ok (b_data x) /\ Z.land (b + 8) 3 = 0 /\ valid (addr_of ty x).

Lemma at_bufs p B s0 s : at_ p B s0 s -> bufs s = bufs s0 /\ sdlock s = sdlock s0 /\ wakeups s = wakeups s0 /\ sd_type (sdCard s) = sd_type (sdCard s0).
Proof. by intros (d & c & -> & Hc & _). Qed.

Lemma wp_get_buf b x s (Q : buf -> sd D -> Prop) : bufs s !! b = Some x -> Q x s -> wp (get_buf b) Q s.
Proof. intros Hb HQ. unfold get_buf. apply wp_bind, wp_gets. by rewrite Hb. Qed.

Lemma buf_words_range x : Forall byte_ok (b_data x) -> Forall (fun w => 0 <= w < 2 ^ 32) (buf_words x).
Proof. intros Hok. unfold buf_words, words. apply Forall_fmap, Forall_forall. intros i _. by apply load_range. Qed.

(** The data of a block, word by word. *)
Lemma wp_write_words b x a B s0 s (Q : unit -> sd D -> Prop) :
  at_ (Recv a []) B s0 s -> bufs s0 !! b = Some x -> Forall byte_ok (b_data x) ->
  (forall n s', at_ (Wait n INT_DATA_DONE Idle) (write_block B a (buf_words x)) s0 s' -> Q tt s') ->
  wp (eachM (seqZ 0 128) (fun done => x ← get_buf b; put EMMC_DATA (load 4 (Z.to_nat (4 * done)) (b_data x)))) Q s.
Proof.
  intros Hat Hb Hok HQ.
  apply (wp_eachM_seqZ 128 _ (fun i s' => (i < 128 /\ at_ (Recv a (take (Z.to_nat i) (buf_words x))) B s0 s') \/
    i = 128 /\ exists n, at_ (Wait n INT_DATA_DONE Idle) (write_block B a (buf_words x)) s0 s')); [done|by left|..].
  - intros i s1 Hi [[_ Hat1]|[-> _]]; [|lia]. destruct (at_bufs _ _ _ _ Hat1) as [Hbufs _].
    apply wp_bind, (wp_get_buf _ x); [by rewrite Hbufs|]. set (w := load 4 (Z.to_nat (4 * i)) (b_data x)).
    assert (Hw : buf_words x !! Z.to_nat i = Some w).
    { unfold buf_words. rewrite lookup_words by lia. by replace (4 * Z.to_nat i)%nat with (Z.to_nat (4 * i)) by lia. }
    assert (Hw32 : 0 <= w < 2 ^ 32) by (by apply load_range). pose proof (u32_id w Hw32) as Hwr.
    assert (Hlen : length (take (Z.to_nat i) (buf_words x)) = Z.to_nat i).
    { rewrite length_take. unfold buf_words. rewrite length_words. lia. }
    pose proof (take_S_r _ _ _ Hw) as Htake. replace (S (Z.to_nat i)) with (Z.to_nat (i + 1)) in Htake by lia.
    destruct (decide (i = 127)) as [->|Hne].
    + destruct (data_write_last _ _ _ _ w (at_at _ _ _ _ Hat1) Hlen) as [n Hn]; [rewrite <- Htake; by apply Forall_take, buf_words_range|].
      eapply wp_put; [exact Hat1|rewrite Hwr; exact Hn|]. intros s2 Hat2. right. split; [done|]. exists n.
      rewrite <- Htake in Hat2. rewrite (take_ge (buf_words x)) in Hat2; [exact Hat2|]. unfold buf_words. rewrite length_words. lia.
    + eapply wp_put; [exact Hat1|rewrite Hwr; apply data_write; [by eapply at_at|lia|done]|]. intros s2 Hat2. left. split; [lia|]. by rewrite Htake.
  - intros s1 [[? _]|[_ [n Hn]]]; [lia|]. by apply (HQ n).
Qed.

(** What [sd_start] makes of an idle controller. *)
Definition started (ty : Z) (x : buf) (B : Z -> list Z) (s0 s : sd D) : Prop :=
  if is_write x then exists n, at_ (Wait n INT_DATA_DONE Idle) (write_block B (addr_of ty x) (buf_words x)) s0 s
  else exists n n', soon n' /\ at_ (Wait n INT_READ_RDY (Send (B (addr_of ty x)) (Wait n' INT_DATA_DONE Idle))) B s0 s.

Lemma wp_sd_start b x B s0 s (Q : unit -> sd D -> Prop) :
  at_ Idle B s0 s -> bufs s0 !! b = Some x -> buf_ok (sd_type (sdCard s0)) b x ->
  (forall s', started (sd_type (sdCard s0)) x B s0 s' -> Q tt s') -> wp (sd_start b) Q s.
Proof.
  intros Hat Hb (Hlen & Hok & Halign & Hvalid) HQ. destruct (at_bufs _ _ _ _ Hat) as (Hbufs & _ & _ & Hty).
  unfold sd_start. apply wp_bind, wp_gets, wp_bind, (wp_get_buf _ x); [by rewrite Hbufs|]. rewrite Hty.
  set (bno := if _ =? _ then _ else _). assert (Hbno : u32 bno = addr_of (sd_type (sdCard s0)) x) by done. clearbody bno.
  apply wp_bind. eapply wp_get_int; [exact Hat|]. intros s1 Hat1. apply wp_bind, wp_assert; [done|].
  apply wp_bind. eapply wp_put; [exact Hat1|apply size_write; by eapply at_at|]. intros s2 Hat2.
  unfold started in HQ. destruct (is_write x) eqn:Ew; apply wp_bind.
  - eapply (wp_send_block IX_WRITE_SINGLE _ bno B); [reflexivity|by vm_compute; lia|done|done|done|exact Hat2|].
    intros d Hd. rewrite Hbno in Hd. destruct (cmd_write _ _ _ Hd Hvalid) as (n1 & n2 & Hn1 & Hn2 & Hd').
    exists n1, n2, INT_WRITE_RDY, (Recv (addr_of (sd_type (sdCard s0)) x) []). split; [done|]. split; [exact Hd'|]. intros s3 Hat3.
    apply wp_bind, wp_assert; [done|]. apply wp_bind, wp_assert; [by rewrite Halign|]. cbn [whenM].
    apply wp_bind. eapply wp_wait_int; [|exact Hn2|exact Hat3|]; [by right; left|]. intros s4 Hat4. apply wp_bind, wp_assert; [done|].
    apply wp_bind. eapply wp_get_int; [exact Hat4|]. intros s5 Hat5. apply wp_bind, wp_assert; [done|].
    eapply wp_write_words; [exact Hat5|done|done|]. intros n s6 Hat6. apply HQ. by exists n.
  - eapply (wp_send_block IX_READ_SINGLE _ bno B); [reflexivity|by vm_compute; lia|done|done|done|exact Hat2|].
    intros d Hd. rewrite Hbno in Hd. destruct (cmd_read _ _ _ Hd Hvalid) as (n1 & n2 & n3 & Hn1 & Hn3 & Hd').
    exists n1, n2, INT_READ_RDY, (Send (B (addr_of (sd_type (sdCard s0)) x)) (Wait n3 INT_DATA_DONE Idle)). split; [done|]. split; [exact Hd'|]. intros s3 Hat3.
    apply wp_bind, wp_assert; [done|]. apply wp_bind, wp_assert; [by rewrite Halign|]. cbn [whenM]. apply wp_ret, HQ. by exists n2, n3.
Qed.

(** *** Reading a block into a buffer *)
Definition with_data (b : Z) (x : buf) (data : list Z) (s : sd D) : sd D := set_bufs (<[b := set_b_data data x]> (bufs s)) s.

Lemma wp_upd_buf b x f p B s0 s (Q : unit -> sd D -> Prop) :
  at_ p B s0 s -> bufs s0 !! b = Some x -> (forall s', at_ p B (set_bufs (<[b := f x]> (bufs s0)) s0) s' -> Q tt s') -> wp (upd_buf b f) Q s.
Proof.
  intros (d & c & -> & Hc & Hd) Hb HQ. unfold upd_buf. apply wp_bind, (wp_get_buf _ x); [done|]. apply wp_modify, HQ. by exists d, c.
Qed.

Lemma splice_words i w ws data :
  ws !! i = Some w -> (4 * length ws <= length data)%nat ->
  splice (4 * i) (le_bytes 4 w) (unwords 4 (take i ws) ++ drop (4 * i) data) = unwords 4 (take (S i) ws) ++ drop (4 * S i) data.
Proof.
  intros Hi Hl. pose proof (lookup_lt_Some _ _ _ Hi). assert (Hlu : length (unwords 4 (take i ws)) = (4 * i)%nat) by (rewrite length_unwords, length_take; lia).
  unfold splice. rewrite <- Hlu at 1. rewrite take_app_length, length_le_bytes, drop_app, Hlu, (drop_ge (unwords 4 (take i ws))) by lia.
  rewrite drop_drop, (take_S_r _ _ _ Hi), unwords_app. change (unwords 4 [w]) with (le_bytes 4 w ++ []). rewrite app_nil_r, <- app_assoc. do 2 f_equal. cbn [app]. f_equal. lia.
Qed.

Lemma wp_read_data b x ws n' B s0 s (Q : unit -> sd D -> Prop) :
  at_ (Send ws (Wait n' INT_DATA_DONE Idle)) B s0 s -> length ws = 128%nat -> bufs s0 !! b = Some x -> length (b_data x) = 512%nat ->
  (forall s', at_ (Wait n' INT_DATA_DONE Idle) B (with_data b x (unwords 4 ws) s0) s' -> Q tt s') -> wp (read_data b) Q s.
Proof.
  intros Hat Hws Hb Hlen HQ. set (k := Wait n' INT_DATA_DONE Idle) in *.
  set (upto i := unwords 4 (take i ws) ++ drop (4 * i) (b_data x)).
  apply (wp_eachM_seqZ 128 _ (fun i s' => at_ (if decide (i = 128) then k else Send (drop (Z.to_nat i) ws) k) B (with_data b x (upto (Z.to_nat i)) s0) s')); [done| | |].
  - unfold upto, with_data. simpl. rewrite drop_0. destruct x as [f bn data q]. simpl. rewrite insert_id by done. by destruct s0.
  - intros i s1 Hi Hat1. rewrite decide_False in Hat1 by lia.
    destruct (lookup_lt_is_Some_2 ws (Z.to_nat i) ltac:(lia)) as [w Hw]. rewrite (drop_S _ _ _ Hw) in Hat1.
    assert (exists d', wp (get EMMC_DATA) (fun v s' => v = w /\ s' = set_dev d' s1) s1 /\
      dev_at (if decide (i + 1 = 128) then k else Send (drop (Z.to_nat (i + 1)) ws) k) B d') as (d' & Hget & Hd').
    { pose proof (at_at _ _ _ _ Hat1) as Hd. exists (reg_read EMMC_DATA (dev s1)).2. split.
      - unfold get, ondev. apply wp_lift. unfold wp, get32. destruct (reg_read EMMC_DATA (dev s1)) as [v d'] eqn:E. split; [|done].
        destruct (drop (S (Z.to_nat i)) ws) as [|w' ws']; [destruct (data_read_last _ _ _ _ Hd) as [Hv _]|destruct (data_read _ _ _ _ _ _ Hd) as [Hv _]]; by rewrite E in Hv.
      - replace (Z.to_nat (i + 1)) with (S (Z.to_nat i)) by lia. case_decide as E.
        + rewrite drop_ge in Hd by lia. by apply data_read_last in Hd as [_ Hd].
        + destruct (lookup_lt_is_Some_2 ws (S (Z.to_nat i)) ltac:(lia)) as [w' Hw']. rewrite (drop_S _ _ _ Hw') in Hd |- *. by apply data_read in Hd as [_ Hd]. }
    apply wp_bind. eapply wp_mono; [exact Hget|]. intros v s2 [-> ->].
    eapply (wp_upd_buf _ (set_b_data (upto (Z.to_nat i)) x)); [eapply at_dev; [exact Hat1|exact Hd']|apply lookup_insert_eq|].
    intros s3 Hat3. unfold with_data in Hat3 |- *. simpl in Hat3. rewrite insert_insert_eq in Hat3.
    replace (upto (Z.to_nat (i + 1))) with (splice (Z.to_nat (4 * i)) (le_bytes 4 w) (upto (Z.to_nat i))); [exact Hat3|].
    unfold upto. replace (Z.to_nat (i + 1)) with (S (Z.to_nat i)) by lia. replace (Z.to_nat (4 * i)) with (4 * Z.to_nat i)%nat by lia.
    apply splice_words; [done|lia].
  - intros s1 Hat1. rewrite decide_True in Hat1 by done. apply HQ. unfold upto in Hat1.
    rewrite take_ge, drop_ge, app_nil_r in Hat1 by (simpl; lia). exact Hat1.
Qed.
End request.
End SdFacts.
