(* ===== verification/SdQueue.v ===== *)
(** * The request queue of the SD card driver (src/driver/sd.c, buf.h)

    The steps of [sdrw], the passing of time and the interrupt handler,
    interleaved: the requests are served first in, first out, each on the store
    of blocks that the ones before it left, unless the queue changes between the
    unlocked steps of a request, which can then be lost. *)
From S2P Require Import Prelude CString Mmio Sd SdFacts.

Module SdQueue.
Import CString Mmio Sd SdFacts.

(** ** The linked list of buf.h *)
Definition next (bs : gmap Z buf) (p : Z) : option Z := b_qnext <$> bs !! p.

(** The buffers behind [p]. *)
Fixpoint chain (bs : gmap Z buf) (p : Z) (l : list Z) : Prop :=
  match l with
  | [] => next bs p = Some 0
  | b :: l => next bs p = Some b /\ b <> 0 /\ chain bs b l
  end.

Lemma qchain_frame bs bs' p l :
  (forall x, x ∈ p :: l -> next bs' x = next bs x) -> chain bs p l -> chain bs' p l.
Proof.
  revert p. induction l as [|b l IH]; intros p Hf; simpl.
  - by rewrite Hf by set_solver.
  - intros (Hn & Hb & Hc). rewrite Hf by set_solver. split; [done|]. split; [done|]. apply IH; [|done]. intros x Hx. apply Hf. by right.
Qed.

Lemma next_insert bs p x : next (<[p := x]> bs) p = Some (b_qnext x).
Proof. unfold next. by rewrite lookup_insert_eq. Qed.
Lemma next_insert_ne bs p q x : p <> q -> next (<[q := x]> bs) p = next bs p.
Proof. intros. unfold next. by rewrite lookup_insert_ne. Qed.
Lemma next_some bs p v : next bs p = Some v -> exists x, bs !! p = Some x /\ b_qnext x = v.
Proof. unfold next. destruct (bs !! p) as [x|]; simpl; [|done]. intros [= <-]. by exists x. Qed.

(** A change of data or flags. *)
Lemma next_same bs p q x x' : bs !! q = Some x -> b_qnext x' = b_qnext x -> next (<[q := x']> bs) p = next bs p.
Proof.
  intros Hq Hx. destruct (decide (p = q)) as [->|Hne]; [|by apply next_insert_ne].
  rewrite next_insert. unfold next. rewrite Hq. simpl. by rewrite Hx.
Qed.

Lemma chain_lookup bs p l t : chain bs p l -> t ∈ p :: l -> exists y, bs !! t = Some y.
Proof.
  revert p. induction l as [|c l IH]; intros p Hc Ht; simpl in Hc.
  - apply next_some in Hc as (y & Hy & _). apply list_elem_of_singleton in Ht as ->. by exists y.
  - destruct Hc as (Hp & _ & Hc). apply next_some in Hp as (y & Hy & _). apply elem_of_cons in Ht as [->|Ht]; [by exists y|]. by apply (IH c).
Qed.

Lemma chain_snoc bs p l n x y :
  NoDup (p :: l) -> n ∉ p :: l -> n <> 0 -> chain bs p l -> bs !! default p (last l) = Some x ->
  chain (<[n := set_b_qnext 0 y]> (<[default p (last l) := set_b_qnext n x]> bs)) p (l ++ [n]).
Proof.
  revert p. induction l as [|b l IH]; intros p Hnd Hn Hn0 Hc Hx; cbn [chain app] in *.
  - assert (p <> n) by set_solver. rewrite next_insert_ne, next_insert by done. split; [done|]. split; [done|]. by rewrite next_insert.
  - destruct Hc as (Hp & Hb & Hc). apply NoDup_cons in Hnd as [Hpl Hnd].
    assert (Hd : default p (last (b :: l)) = default b (last l)) by (rewrite last_cons; by destruct (last l)).
    rewrite Hd in *. assert (Hin : default b (last l) ∈ b :: l).
    { destruct (last l) as [z|] eqn:E; simpl; [right; by apply last_Some_elem_of|left]. }
    rewrite !next_insert_ne by set_solver. split; [done|]. split; [done|]. apply IH; [done|set_solver|done|done|done].
Qed.

Lemma chain_pop bs p b l x y :
  NoDup (p :: b :: l) -> chain bs p (b :: l) -> bs !! p = Some x -> bs !! b = Some y -> chain (<[p := set_b_qnext (b_qnext y) x]> bs) p l.
Proof.
  intros Hnd (Hp & Hb & Hc) Hx Hy. apply NoDup_cons in Hnd as [Hpn Hnd]. destruct l as [|b' l]; simpl in *.
  - rewrite next_insert. simpl. unfold next in Hc. by rewrite Hy in Hc.
  - destruct Hc as (Hn & Hb' & Hc). rewrite next_insert. simpl. unfold next in Hn. rewrite Hy in Hn. injection Hn as ->. split; [done|]. split; [done|].
    eapply qchain_frame; [|exact Hc]. intros z Hz. apply next_insert_ne. set_solver.
Qed.

Section queue.
Context {D : Type} `{SdCard D} (sdque : Z) (qmax : nat).
Implicit Types (s : sd D) (B : Z -> list Z).

(** ** The invariant

    [B] is the store that the requests served so far have left; [l] are the
    buffers in the queue. The controller works on the first of them, unless
    [st] is false: then that request is not started yet. *)
Definition working (ty : Z) (x : buf) (B : Z -> list Z) (d : D) : Prop :=
  if is_write x then exists n, dev_at (Wait n INT_DATA_DONE Idle) (write_block B (addr_of ty x) (buf_words x)) d
  else exists n n', soon n' /\ dev_at (Wait n INT_READ_RDY (Send (B (addr_of ty x)) (Wait n' INT_DATA_DONE Idle))) B d.

Definition sd_ty s : Z := sd_type (sdCard s).

Record driver_ok (st : bool) (B : Z -> list Z) (l : list Z) (s : sd D) : Prop := {
  ok_lock : sdlock s = false;
  ok_chain : chain (bufs s) sdque l;
  ok_nodup : NoDup (sdque :: l);
  ok_len : (length l < qmax)%nat;
  ok_bufs : forall b, b ∈ l -> exists x, bufs s !! b = Some x /\ buf_ok (sd_ty s) b x;
  ok_dev : match l with
           | [] => dev_at Idle B (dev s)
           | b :: _ => if st then exists x, bufs s !! b = Some x /\ working (sd_ty s) x B (dev s) else dev_at Idle B (dev s)
           end
}.

(** What serving the request [x] does to the store, and to its buffer. *)
Definition serve (ty : Z) (B : Z -> list Z) (x : buf) : Z -> list Z :=
  if is_write x then write_block B (addr_of ty x) (buf_words x) else B.
Definition served (ty : Z) (B : Z -> list Z) (x : buf) : buf :=
  set_b_flags (Z.land (Z.lor (b_flags x) B_VALID) (Z.lnot B_DIRTY)) (if is_write x then x else set_b_data (unwords 4 (B (addr_of ty x))) x).

(** The same buffer, but for its link. *)
Definition same_buf (x y : buf) : Prop := set_b_qnext 0 x = set_b_qnext 0 y.
Definition same_bufs (bs bs' : gmap Z buf) : Prop :=
  forall b x, bs !! b = Some x -> exists x', bs' !! b = Some x' /\ same_buf x x'.

Lemma same_buf_eq x y : same_buf x y -> b_flags x = b_flags y /\ b_blockno x = b_blockno y /\ b_data x = b_data y.
Proof. unfold same_buf, set_b_qnext. by intros [= -> -> ->]. Qed.

Lemma buf_ok_same ty b x y : same_buf x y -> buf_ok ty b x -> buf_ok ty b y.
Proof. intros (Hf & Hn & Hd)%same_buf_eq. unfold buf_ok, addr_of. by rewrite Hn, Hd. Qed.

Lemma working_same ty x y B d : same_buf x y -> working ty x B d -> working ty y B d.
Proof. intros (Hf & Hn & Hd)%same_buf_eq. unfold working, is_write, addr_of, buf_words. by rewrite Hf, Hn, Hd. Qed.

Lemma same_insert bs b x q : bs !! b = Some x -> same_bufs bs (<[b := set_b_qnext q x]> bs).
Proof.
  intros Hb b' x' Hb'. destruct (decide (b = b')) as [<-|Hne].
  - rewrite lookup_insert_eq. eexists. split; [done|]. rewrite Hb in Hb'. by injection Hb' as <-.
  - exists x'. by rewrite lookup_insert_ne.
Qed.

Lemma same_trans bs1 bs2 bs3 : same_bufs bs1 bs2 -> same_bufs bs2 bs3 -> same_bufs bs1 bs3.
Proof.
  intros H1 H2 b x Hb. destruct (H1 b x Hb) as (y & Hy & E1). destruct (H2 b y Hy) as (z & Hz & E2). exists z. split; [done|]. unfold same_buf in *. congruence.
Qed.

Lemma started_working ty x B s0 s : started ty x B s0 s -> working ty x B (dev s).
Proof.
  unfold started, working. destruct (is_write x).
  - intros [n Hn]. exists n. by eapply at_at.
  - intros (n & n' & Hn' & Hn). exists n, n'. split; [done|]. by eapply at_at.
Qed.

Lemma started_bufs ty x B s0 s : started ty x B s0 s ->
  bufs s = bufs s0 /\ sdlock s = sdlock s0 /\ wakeups s = wakeups s0 /\ sd_type (sdCard s) = sd_type (sdCard s0).
Proof. unfold started. destruct (is_write x); [intros [n Hn]|intros (n & n' & _ & Hn)]; by eapply at_bufs. Qed.

(** ** Submitting a request *)
Lemma wp_buflist_empty l s (Q : bool -> sd D -> Prop) :
  chain (bufs s) sdque l -> Q (bool_decide (l = [])) s -> wp (buflist_empty sdque) Q s.
Proof.
  intros Hc HQ. unfold buflist_empty. destruct l as [|b l]; simpl in Hc.
  - apply next_some in Hc as (x & Hx & Hn). apply wp_bind, (wp_get_buf _ x); [done|]. apply wp_ret. by rewrite Hn.
  - destruct Hc as (Hc & Hb & _). apply next_some in Hc as (x & Hx & Hn). apply wp_bind, (wp_get_buf _ x); [done|]. apply wp_ret.
    rewrite Hn, (proj2 (Z.eqb_neq b 0)) by done. done.
Qed.

Lemma wp_buflist_last l p fuel s (Q : Z -> sd D -> Prop) :
  chain (bufs s) p l -> (length l < fuel)%nat -> Q (default p (last l)) s -> wp (buflist_last fuel p) Q s.
Proof.
  revert p fuel. induction l as [|b l IH]; intros p fuel Hc Hf HQ; (destruct fuel as [|fuel]; [simpl in Hf; lia|]); cbn [buflist_last]; simpl in Hc.
  - apply next_some in Hc as (x & Hx & Hn). apply wp_bind, (wp_get_buf _ x); [done|]. rewrite Hn. by apply wp_ret.
  - destruct Hc as (Hc & Hb & Hcl). apply next_some in Hc as (x & Hx & Hn). apply wp_bind, (wp_get_buf _ x); [done|].
    rewrite Hn, (proj2 (Z.eqb_neq b 0)) by done. simpl. apply IH; [done|simpl in Hf; lia|]. rewrite last_cons in HQ. by destruct (last l).
Qed.

Lemma wp_buflist_link l b x s (Q : unit -> sd D -> Prop) :
  chain (bufs s) sdque l -> NoDup (sdque :: l) -> b <> 0 -> b ∉ sdque :: l -> bufs s !! b = Some x ->
  (forall bs, chain bs sdque (l ++ [b]) -> same_bufs (bufs s) bs -> Q tt (set_bufs bs s)) -> wp (buflist_link (default sdque (last l)) b) Q s.
Proof.
  intros Hc Hnd Hb0 Hb Hx HQ. set (t := default sdque (last l)). assert (Ht : t ∈ sdque :: l).
  { unfold t. destruct (last l) as [z|] eqn:E; simpl; [right; by apply last_Some_elem_of|left]. }
  assert (exists y, bufs s !! t = Some y) as [y Hy].
  { by eapply chain_lookup. }
  assert (Hne : t <> b) by (intros ->; done).
  unfold buflist_link, upd_buf. apply wp_bind, wp_bind, (wp_get_buf _ y); [done|]. apply wp_modify, wp_bind, (wp_get_buf _ x); [simpl; by rewrite lookup_insert_ne|].
  apply wp_modify. simpl. apply HQ.
  - by apply chain_snoc.
  - eapply same_trans; [by apply same_insert|]. apply same_insert. by rewrite lookup_insert_ne.
Qed.

Lemma wp_buflist_front l b s (Q : Z -> sd D -> Prop) :
  chain (bufs s) sdque (b :: l) -> Q b s -> wp (buflist_front sdque) Q s.
Proof. intros (Hc & _) HQ. apply next_some in Hc as (x & Hx & <-). unfold buflist_front. by apply wp_bind, (wp_get_buf _ x), wp_ret. Qed.

(** Appending a buffer: the first one is not started yet. *)
Lemma wp_link st B l b x s :
  driver_ok st B l s -> bufs s !! b = Some x -> b <> 0 -> b ∉ sdque :: l -> buf_ok (sd_ty s) b x -> (S (length l) < qmax)%nat ->
  wp (buflist_link (default sdque (last l)) b) (fun _ s' => driver_ok (st && negb (bool_decide (l = []))) B (l ++ [b]) s' /\
    wakeups s' = wakeups s /\ same_bufs (bufs s) (bufs s') /\ sd_ty s' = sd_ty s) s.
Proof.
  intros [Hlock Hc Hnd Hlen Hbufs Hdev] Hx Hb0 Hb Hok Hl. eapply wp_buflist_link; [exact Hc|done|done|done|exact Hx|]. intros bs Hc' Hsame.
  split; [|done]. split; simpl; [done|done| |rewrite length_app; simpl; lia| |].
  - change (sdque :: l ++ [b]) with ((sdque :: l) ++ [b]). apply NoDup_app. split; [done|]. split; [set_solver|apply NoDup_singleton].
  - intros b' Hb'. assert (exists z, bufs s !! b' = Some z /\ buf_ok (sd_ty s) b' z) as (z & Hz & Hzok).
    { apply elem_of_app in Hb' as [Hb'|Hb']; [by apply Hbufs|]. apply list_elem_of_singleton in Hb' as ->. by exists x. }
    destruct (Hsame b' z Hz) as (z' & Hz' & E). exists z'. split; [done|]. by eapply buf_ok_same.
  - destruct l as [|h l]; simpl; [by rewrite andb_false_r|]. change (bool_decide (h :: l = [])) with false. destruct st; [|done]. simpl.
    destruct Hdev as (z & Hz & Hw). destruct (Hsame h z Hz) as (z' & Hz' & E). exists z'. split; [done|]. by eapply working_same.
Qed.

(** Starting the first request. *)
Lemma wp_start_first B b l s :
  driver_ok false B (b :: l) s -> wp (sdrw_start sdque true) (fun _ s' => driver_ok true B (b :: l) (set_sdlock false s') /\
    sdlock s' = true /\ wakeups s' = wakeups s /\ bufs s' = bufs s /\ sd_ty s' = sd_ty s) s.
Proof.
  intros [Hlock Hc Hnd Hlen Hbufs Hdev]. destruct (Hbufs b ltac:(left)) as (x & Hx & Hok).
  unfold sdrw_start, acquire_sdlock. apply wp_bind, wp_bind, wp_gets, wp_bind. rewrite Hlock. apply wp_assert; [done|]. apply wp_modify.
  cbn [whenM]. apply wp_bind. eapply wp_buflist_front; [exact Hc|].
  eapply (wp_sd_start b x B (set_sdlock true s)); [by apply at_refl|done|done|]. intros s2 Hs2.
  destruct (started_bufs _ _ _ _ _ Hs2) as (Hbs & Hlk & Hwk & Hty). simpl in Hbs, Hlk, Hwk, Hty. split; [|done].
  split; simpl; [done|by rewrite Hbs|done|done|rewrite Hbs; unfold sd_ty; simpl; by rewrite Hty|].
  exists x. rewrite Hbs. split; [done|]. unfold sd_ty. simpl. rewrite Hty. by eapply started_working.
Qed.

(** The lock taken and given back. *)
Lemma wp_start_none st B l s :
  driver_ok st B l s -> wp (sdrw_start sdque false) (fun _ s' => s' = set_sdlock true s) s.
Proof. intros [Hlock _ _ _ _ _]. unfold sdrw_start, acquire_sdlock. apply wp_bind, wp_bind, wp_gets, wp_bind. rewrite Hlock. apply wp_assert; [done|]. apply wp_modify. by apply wp_ret. Qed.

(** [sdrw] up to its sleep, without another step in between. *)
Lemma wp_submit B b x s :
  driver_ok true B [] s -> bufs s !! b = Some x -> b <> 0 -> b <> sdque -> buf_ok (sd_ty s) b x -> (1 < qmax)%nat ->
  wp (sdrw_submit sdque qmax b) (fun _ s' => driver_ok true B [b] (set_sdlock false s') /\ sdlock s' = true /\
    wakeups s' = wakeups s /\ same_bufs (bufs s) (bufs s') /\ sd_ty s' = sd_ty s) s.
Proof.
  intros Hd Hx Hb0 Hb Hok Hl. pose proof (ok_chain _ _ _ _ Hd) as Hc. unfold sdrw_submit, buflist_push. apply wp_bind. eapply wp_buflist_empty; [exact Hc|].
  apply wp_bind, wp_bind. eapply wp_buflist_last; [exact Hc|simpl; lia|]. eapply wp_mono; [apply (wp_link true B [] b x s); [done|done|done|set_solver|done|simpl; lia]|].
  intros [] s1 (Hd1 & Hw1 & Hs1 & Ht1). eapply wp_mono; [by apply wp_start_first|]. intros [] s2 (Hd2 & Hk2 & Hw2 & Hb2 & Ht2).
  split; [done|]. split; [done|]. rewrite Hw2, Hb2, Ht2. done.
Qed.

(** ** The passing of time *)
Lemma tick_ok st B l s c : driver_ok st B l s -> driver_ok st B l (set_dev (dev_wait c (dev s)) s).
Proof.
  intros [Hlock Hc Hnd Hlen Hbufs Hdev]. split; [done..|]. simpl. destruct l as [|b l]; [by apply (wait_law _ _ _ c) in Hdev|].
  destruct st; [|by apply (wait_law _ _ _ c) in Hdev].
  destruct Hdev as (x & Hx & Hw). exists x. split; [done|]. unfold working in *. change (sd_ty (set_dev _ s)) with (sd_ty s). destruct (is_write x).
  - destruct Hw as [n Hn]. apply (wait_law _ _ _ c) in Hn. destruct n; by eexists.
  - destruct Hw as (n & n' & Hn' & Hn). apply (wait_law _ _ _ c) in Hn. destruct n; by eexists _, _.
Qed.

(** ** The interrupt handler *)

Lemma at_wakeups p B s0 s b : at_ p B s0 s -> at_ p B (set_wakeups (wakeups s0 ++ [b]) s0) (set_wakeups (wakeups s ++ [b]) s).
Proof. intros (d & c & -> & Hc & Hd). by exists d, c. Qed.

(** Clearing the interrupt and taking the data of the first request. *)
Lemma wp_complete l b x B k s (Q : unit -> sd D -> Prop) :
  chain (bufs s) sdque (b :: l) -> bufs s !! b = Some x -> buf_ok (sd_ty s) b x -> working (sd_ty s) x B (dev s) -> raised (ph (dev s)) <> 0 ->
  (forall s', at_ Idle (serve (sd_ty s) B x) (set_wakeups (wakeups s ++ [b]) (set_bufs (<[b := served (sd_ty s) B x]> (bufs s)) s)) s' -> wp k Q s') ->
  wp (i ← get EMMC_INTERRUPT;
      assert_ (any i INT_DATA_DONE || any i INT_READ_RDY);;
      put EMMC_INTERRUPT i;;
      b ← buflist_front sdque;
      x ← get_buf b;
      let write := is_write x in
      if negb (write && (i =? INT_DATA_DONE) || negb write && (i =? INT_READ_RDY)) then sd_start b
      else
        whenM (negb write) (read_data b;; sdWaitForInterrupt INT_DATA_DONE;; mret tt);;
        upd_buf b (fun x => set_b_flags (Z.lor (b_flags x) B_VALID) x);;
        upd_buf b (fun x => set_b_flags (Z.land (b_flags x) (Z.lnot B_DIRTY)) x);;
        modify (fun s => set_wakeups (wakeups s ++ [b]) s);;
        k) Q s.
Proof.
  intros Hc Hx (Hlen & _) Hw Hr HQ. unfold working, serve, served in *. apply wp_bind. destruct (is_write x) eqn:Ew.
  - destruct Hw as [[|n] Hn]; [|destruct Hn as [Hn _]; by rewrite Hn in Hr]. eapply wp_get_int; [by apply at_refl|]. intros s1 Hat1.
    apply wp_bind, wp_assert; [done|]. apply wp_bind. eapply wp_put_int; [exact Hat1|done|done|]. intros s2 Hat2. simpl cleared in Hat2.
    destruct (at_bufs _ _ _ _ Hat2) as [Hb2 _].
    apply wp_bind. eapply wp_buflist_front; [rewrite Hb2; exact Hc|]. apply wp_bind, (wp_get_buf _ x); [by rewrite Hb2|]. cbv zeta. rewrite Ew. simpl.
    apply wp_bind, wp_ret, wp_bind. eapply wp_upd_buf; [exact Hat2|exact Hx|]. intros s3 Hat3.
    apply wp_bind. eapply wp_upd_buf; [exact Hat3|simpl; apply lookup_insert_eq|]. intros s4 Hat4. apply wp_bind, wp_modify, HQ.
    simpl in Hat4. rewrite insert_insert_eq in Hat4. exact (at_wakeups _ _ _ _ b Hat4).
  - destruct Hw as ([|n] & n' & Hn' & Hn); [|destruct Hn as [Hn _]; by rewrite Hn in Hr]. eapply wp_get_int; [by apply at_refl|]. intros s1 Hat1.
    apply wp_bind, wp_assert; [done|]. apply wp_bind. eapply wp_put_int; [exact Hat1|done|done|]. intros s2 Hat2. simpl cleared in Hat2.
    destruct (at_bufs _ _ _ _ Hat2) as [Hb2 _].
    apply wp_bind. eapply wp_buflist_front; [rewrite Hb2; exact Hc|]. apply wp_bind, (wp_get_buf _ x); [by rewrite Hb2|]. cbv zeta. rewrite Ew. simpl.
    apply wp_bind, wp_bind. set (a := addr_of (sd_ty s) x) in *.
    eapply wp_read_data; [exact Hat2|rewrite <- (proj2 Hn); apply blk_words|exact Hx|done|]. intros s3 Hat3.
    apply wp_bind. eapply wp_wait_int; [by right; right; right; left|exact Hn'|exact Hat3|]. intros s4 Hat4. apply wp_ret, wp_bind.
    eapply wp_upd_buf; [exact Hat4|simpl; apply lookup_insert_eq|]. intros s5 Hat5.
    apply wp_bind. eapply wp_upd_buf; [exact Hat5|simpl; apply lookup_insert_eq|]. intros s6 Hat6. apply wp_bind, wp_modify, HQ.
    simpl in Hat6. rewrite !insert_insert_eq in Hat6. exact (at_wakeups _ _ _ _ b Hat6).
Qed.

Lemma wp_buflist_pop b l x y p B s0 s (Q : unit -> sd D -> Prop) :
  at_ p B s0 s -> chain (bufs s0) sdque (b :: l) -> bufs s0 !! sdque = Some x -> bufs s0 !! b = Some y ->
  (forall s', at_ p B (set_bufs (<[sdque := set_b_qnext (b_qnext y) x]> (bufs s0)) s0) s' -> Q tt s') -> wp (buflist_pop sdque) Q s.
Proof.
  intros Hat Hc Hx Hy HQ. destruct (at_bufs _ _ _ _ Hat) as [Hb _]. unfold buflist_pop. apply wp_bind, (wp_get_buf _ x); [by rewrite Hb|].
  destruct Hc as (Hc & _). apply next_some in Hc as (x' & Hx' & Hn). rewrite Hx in Hx'. injection Hx' as <-. rewrite Hn.
  apply wp_bind, (wp_get_buf _ y); [by rewrite Hb|]. by eapply wp_upd_buf.
Qed.

(** The next request, if there is one. *)
Lemma wp_start_next l B s0 s (Q : unit -> sd D -> Prop) :
  at_ Idle B s0 s -> chain (bufs s0) sdque l -> (forall b, b ∈ l -> exists x, bufs s0 !! b = Some x /\ buf_ok (sd_ty s0) b x) ->
  (forall s', bufs s' = bufs s0 -> sdlock s' = sdlock s0 -> wakeups s' = wakeups s0 -> sd_ty s' = sd_ty s0 ->
     match l with [] => dev_at Idle B (dev s') | b :: _ => exists x, bufs s0 !! b = Some x /\ working (sd_ty s0) x B (dev s') end -> Q tt s') ->
  wp (e ← buflist_empty sdque; whenM (negb e) (b ← buflist_front sdque; sd_start b)) Q s.
Proof.
  intros Hat Hc Hbufs HQ. destruct (at_bufs _ _ _ _ Hat) as (Hb & Hlk & Hwk & Hty). apply wp_bind. eapply wp_buflist_empty; [rewrite Hb; exact Hc|].
  destruct l as [|h l]; simpl.
  - apply wp_ret, HQ; try done. by eapply at_at.
  - apply wp_bind. eapply wp_buflist_front; [rewrite Hb; exact Hc|]. destruct (Hbufs h ltac:(left)) as (x & Hx & Hok).
    eapply (wp_sd_start h x B s0); [exact Hat|done|done|]. intros s1 Hs1. destruct (started_bufs _ _ _ _ _ Hs1) as (Hb1 & Hlk1 & Hwk1 & Hty1).
    apply HQ; [done..|]. exists x. split; [done|]. by eapply started_working.
Qed.

(** The interrupt of the first request: it is served on the store that the
    requests before it left, its thread is woken, and the next one is started. *)
Lemma wp_intr B b l x s :
  driver_ok true B (b :: l) s -> bufs s !! b = Some x -> raised (ph (dev s)) <> 0 ->
  wp (sd_intr sdque) (fun _ s' => driver_ok true (serve (sd_ty s) B x) l s' /\ bufs s' !! b = Some (served (sd_ty s) B x) /\
    wakeups s' = wakeups s ++ [b] /\ same_bufs (delete b (bufs s)) (delete b (bufs s')) /\ sd_ty s' = sd_ty s) s.
Proof.
  intros [Hlock Hc Hnd Hlen Hbufs (x' & Hx' & Hw)] Hx Hr. rewrite Hx in Hx'. injection Hx' as <-.
  destruct (Hbufs b ltac:(left)) as (x' & Hx' & Hok). rewrite Hx in Hx'. injection Hx' as <-.
  unfold sd_intr, acquire_sdlock. apply wp_bind, wp_bind, wp_gets, wp_bind. rewrite Hlock. apply wp_assert; [done|]. apply wp_modify.
  set (s1 := set_sdlock true s). apply wp_bind. eapply (wp_buflist_empty (b :: l)); [exact Hc|]. change (bool_decide (b :: l = [])) with false. cbn iota.
  apply wp_bind. eapply (wp_complete l b x B _ s1); [exact Hc|exact Hx|exact Hok|exact Hw|exact Hr|]. intros s2 Hat2.
  set (s1' := set_wakeups _ _) in Hat2. change (sd_ty s1) with (sd_ty s) in *.
  destruct Hc as (Hq & Hb0 & Hc). apply next_some in Hq as (h & Hh & Hn).
  assert (Hne : sdque <> b) by (apply NoDup_cons in Hnd as [Hni _]; set_solver).
  set (y := served (sd_ty s) B x) in *.
  assert (Hyn : b_qnext y = b_qnext x) by (unfold y, served; by destruct (is_write x)).
  assert (Hc1 : chain (bufs s1') sdque (b :: l)).
  { eapply qchain_frame; [intros z _; by apply (next_same _ _ _ x)|]. simpl. split; [|done]. unfold next. rewrite Hh. simpl. by rewrite Hn. }
  apply wp_bind. eapply wp_buflist_pop; [exact Hat2|exact Hc1|simpl; rewrite lookup_insert_ne by done; exact Hh|simpl; apply lookup_insert_eq|].
  intros s3 Hat3. set (s2' := set_bufs _ s1') in Hat3.
  pose proof Hnd as Hnd'. rewrite !NoDup_cons, not_elem_of_cons in Hnd'. destruct Hnd' as ([_ Hql] & Hbl & Hndl).
  assert (Hlook : forall z, z <> sdque -> z <> b -> bufs s2' !! z = bufs s !! z) by (intros z ??; simpl; by rewrite !lookup_insert_ne).
  eapply (wp_start_next l (serve (sd_ty s) B x) s2'); [exact Hat3| | |].
  - eapply (chain_pop _ _ b); [done|exact Hc1|simpl; rewrite lookup_insert_ne by done; exact Hh|simpl; apply lookup_insert_eq].
  - intros b' Hb'. destruct (Hbufs b' ltac:(by right)) as (z & Hz & Hzok). exists z. by rewrite Hlook by (intros ->; done).
  - intros s4 Hb4 Hl4 Hw4 Ht4 Hd4. unfold release_sdlock. apply wp_bind, wp_gets, wp_bind. rewrite Hl4. apply wp_assert; [done|]. apply wp_modify.
    assert (Hsame : same_bufs (delete b (bufs s)) (delete b (bufs s4))).
    { rewrite Hb4. intros z v Hz. apply lookup_delete_Some in Hz as [Hzb Hz]. rewrite lookup_delete_ne by done. destruct (decide (z = sdque)) as [->|Hzq].
      - simpl. rewrite lookup_insert_eq. eexists. split; [done|]. rewrite Hh in Hz. by injection Hz as <-.
      - exists v. by rewrite Hlook by done. }
    split; [|split; [simpl; rewrite Hb4; simpl; rewrite lookup_insert_ne by done; apply lookup_insert_eq|split; [simpl; by rewrite Hw4|by split]]].
    split; simpl; [done|rewrite Hb4| |simpl in Hlen; lia| |].
    + eapply (chain_pop _ _ b); [done|exact Hc1|simpl; rewrite lookup_insert_ne by done; exact Hh|simpl; apply lookup_insert_eq].
    + apply NoDup_cons. by split.
    + intros b' Hb'. destruct (Hbufs b' ltac:(by right)) as (z & Hz & Hzok). exists z. change (sd_ty (set_sdlock false s4)) with (sd_ty s4).
      rewrite Ht4, Hb4. by rewrite Hlook by (intros ->; done).
    + destruct l as [|h' l]; [done|]. destruct Hd4 as (z & Hz & Hzw). exists z. change (sd_ty (set_sdlock false s4)) with (sd_ty s4). by rewrite Ht4, Hb4.
Qed.

(** ** The driver as a queue in front of a store

    The specification: a store of blocks, the buffers in the queue, what the
    buffers hold (links apart), and the calls of [wakeup] so far. *)
Record spec : Type := mkSpec { sp_store : Z -> list Z; sp_queue : list Z; sp_bufs : gmap Z buf; sp_woken : list Z }.

(** How far a request has come in [sdrw], named by its buffer, before it takes
    the lock: it has tested the queue, with the answer [flag]; it has found
    [tmp] at the end of the queue; it has appended its buffer there. *)
Inductive place : Type := Tested (flag : bool) | Found (flag : bool) (tmp : Z) | Linked (flag : bool).

(** The steps of [sdrw] up to its sleep, which any other step can come between:
    the buffer is filled and the queue tested; the end of the queue is found;
    the buffer is appended; the lock is taken, the first request started when
    the queue was empty, and the lock given back by [sleep]. The controller
    interrupts; time passes. *)
Inductive event : Type := Test (b : Z) (x : buf) | Find (b : Z) | Link (b : Z) | Start (b : Z) | Interrupt | Tick (c : pause).

Definition impl_step (pl : gmap Z place) (e : event) : M (sd D) (gmap Z place) :=
  match e with
  | Test b x => new_buf b x;; flag ← buflist_empty sdque; mret (<[b := Tested flag]> pl)
  | Find b => match pl !! b with Some (Tested flag) => tmp ← buflist_last qmax sdque; mret (<[b := Found flag tmp]> pl) | _ => mret pl end
  | Link b => match pl !! b with Some (Found flag tmp) => buflist_link tmp b;; mret (<[b := Linked flag]> pl) | _ => mret pl end
  | Start b => match pl !! b with Some (Linked flag) => sdrw_start sdque flag;; modify (set_sdlock false);; mret (delete b pl) | _ => mret pl end
  | Interrupt => sd_intr sdque;; mret pl
  | Tick c => modify (fun s => set_dev (dev_wait c (dev s)) s);; mret pl
  end.

Fixpoint run (pl : gmap Z place) (evs : list event) : M (sd D) (gmap Z place) :=
  match evs with
  | [] => mret pl
  | e :: evs => pl' ← impl_step pl e; run pl' evs
  end.

Definition spec_step (ty : Z) (sp : spec) (e : event) : spec :=
  match e with
  | Test b x => mkSpec (sp_store sp) (sp_queue sp) (<[b := x]> (sp_bufs sp)) (sp_woken sp)
  | Link b => mkSpec (sp_store sp) (sp_queue sp ++ [b]) (sp_bufs sp) (sp_woken sp)
  | Interrupt =>
      match sp_queue sp with
      | [] => sp
      | b :: l =>
          match sp_bufs sp !! b with
          | None => sp
          | Some x => mkSpec (serve ty (sp_store sp) x) l (<[b := served ty (sp_store sp) x]> (sp_bufs sp)) (sp_woken sp ++ [b])
          end
      end
  | _ => sp
  end.

(** When a step can happen. A buffer is in one request at a time, and the
    controller raises the interrupts. Of the race in [sdrw] one case is left
    out: the queue must not change between the walk to its end and the
    assignment that appends there. *)
Definition enabled (ty : Z) (sp : spec) (pl : gmap Z place) (s : sd D) (e : event) : Prop :=
  match e with
  | Test b x => pl !! b = None /\ b <> 0 /\ b ∉ (sdque :: sp_queue sp) /\ buf_ok ty b x
  | Find b => exists flag, pl !! b = Some (Tested flag)
  | Link b => exists flag, pl !! b = Some (Found flag (default sdque (last (sp_queue sp)))) /\ (S (length (sp_queue sp)) < qmax)%nat
  | Start b => exists flag, pl !! b = Some (Linked flag)
  | Interrupt => raised (ph (dev s)) <> 0
  | Tick _ => True
  end.

(** The other case: the queue is no longer as the test saw it when the buffer
    is appended. *)
Definition fresh (sp : spec) (pl : gmap Z place) (e : event) : Prop :=
  match e with
  | Link b => forall flag tmp, pl !! b = Some (Found flag tmp) -> flag = bool_decide (sp_queue sp = [])
  | _ => True
  end.

(** Each event of a sequence can happen where it comes. *)
Fixpoint feasible (ty : Z) (sp : spec) (pl : gmap Z place) (s : sd D) (evs : list event) : Prop :=
  match evs with
  | [] => True
  | e :: evs => enabled ty sp pl s e /\ fresh sp pl e /\
      forall pl' s', impl_step pl e s = Ok (pl', s') -> feasible ty (spec_step ty sp e) pl' s' evs
  end.

(** The state of the driver is that of the specification; [st] tells that the
    first request of the queue is started. *)
Record models (ty : Z) (st : bool) (sp : spec) (pl : gmap Z place) (s : sd D) : Prop := {
  ref_ok : driver_ok st (sp_store sp) (sp_queue sp) s;
  ref_ty : sd_ty s = ty;
  ref_in : forall b, b ∈ sp_queue sp -> is_Some (sp_bufs sp !! b);
  ref_bufs : forall b x, sp_bufs sp !! b = Some x -> exists x', bufs s !! b = Some x' /\ same_buf x x';
  ref_woken : wakeups s = sp_woken sp;
  ref_pending : forall b f tmp, pl !! b = Some (Tested f) \/ pl !! b = Some (Found f tmp) ->
    b <> 0 /\ b ∉ sdque :: sp_queue sp /\ exists x, sp_bufs sp !! b = Some x /\ buf_ok ty b x
}.

(** The request that will start the first one, if that is not started yet, is
    the first one itself. *)
Definition starter (st : bool) (sp : spec) (pl : gmap Z place) : Prop :=
  forall b, pl !! b = Some (Linked true) <-> st = false /\ head (sp_queue sp) = Some b.

Definition refines (ty : Z) (sp : spec) (pl : gmap Z place) (s : sd D) : Prop := exists st, models ty st sp pl s /\ starter st sp pl.

Lemma new_buf_ok st B l b x s : driver_ok st B l s -> b ∉ sdque :: l -> driver_ok st B l (set_bufs (<[b := x]> (bufs s)) s).
Proof.
  intros [Hlock Hc Hnd Hlen Hbufs Hdev] Hb. split; simpl; [done| |done|done| |].
  - eapply qchain_frame; [|exact Hc]. intros z Hz. apply next_insert_ne. set_solver.
  - intros b' Hb'. rewrite lookup_insert_ne by set_solver. by apply Hbufs.
  - destruct l as [|h l]; [done|]. destruct st; [|done]. destruct Hdev as (z & Hz & Hw). exists z. by rewrite lookup_insert_ne by set_solver.
Qed.

Lemma serve_same ty B x y : same_buf x y -> serve ty B x = serve ty B y.
Proof. intros (Hf & Hn & Hd)%same_buf_eq. unfold serve, is_write, addr_of, buf_words. by rewrite Hf, Hn, Hd. Qed.
Lemma served_same ty B x y : same_buf x y -> same_buf (served ty B x) (served ty B y).
Proof.
  intros (Hf & Hn & Hd)%same_buf_eq. unfold served, is_write, addr_of, same_buf. rewrite Hf, Hn. destruct (any _ _); unfold set_b_qnext; simpl; by rewrite Hn, ?Hd.
Qed.

(** *** The steps of a request *)
Lemma test_models ty st sp pl s b x :
  models ty st sp pl s -> enabled ty sp pl s (Test b x) ->
  wp (impl_step pl (Test b x)) (fun pl' s' => pl' = (<[b := Tested (bool_decide (sp_queue sp = []))]> pl) /\ models ty st (spec_step ty sp (Test b x)) pl' s') s.
Proof.
  intros [Hok Hty Hin Hbufs Hwk Hpend] (Hp & Hb0 & Hb & Hbok). simpl. apply wp_bind, wp_modify. pose proof (new_buf_ok _ _ _ b x s Hok Hb) as Hok'.
  apply wp_bind. eapply wp_buflist_empty; [apply (ok_chain _ _ _ _ Hok')|]. apply wp_ret. split; [done|]. split; simpl; [done|done| | |done|].
  - intros b' Hb'. rewrite lookup_insert_ne by set_solver. by apply Hin.
  - intros b' y Hy. destruct (decide (b = b')) as [<-|Hne].
    + rewrite lookup_insert_eq in Hy |- *. exists x. by injection Hy as <-.
    + rewrite lookup_insert_ne by done. rewrite lookup_insert_ne in Hy by done. by apply Hbufs.
  - intros b' f tmp Hpl. destruct (decide (b = b')) as [<-|Hne].
    + split; [done|]. split; [done|]. exists x. by rewrite lookup_insert_eq.
    + rewrite lookup_insert_ne by done. rewrite !lookup_insert_ne in Hpl by done. by eapply Hpend.
Qed.

Lemma find_models ty st sp pl s b flag :
  models ty st sp pl s -> pl !! b = Some (Tested flag) ->
  wp (impl_step pl (Find b)) (fun pl' s' => pl' = (<[b := Found flag (default sdque (last (sp_queue sp)))]> pl) /\ models ty st sp pl' s') s.
Proof.
  intros [Hok Hty Hin Hbufs Hwk Hpend] Hp. simpl. rewrite Hp. apply wp_bind. eapply wp_buflist_last; [apply (ok_chain _ _ _ _ Hok)|apply (ok_len _ _ _ _ Hok)|].
  apply wp_ret. split; [done|]. split; try done. intros b' f tmp Hpl. destruct (decide (b = b')) as [<-|Hne].
  - apply (Hpend b flag tmp). by left.
  - rewrite !lookup_insert_ne in Hpl by done. by eapply Hpend.
Qed.

Lemma link_models ty st sp pl s b flag :
  models ty st sp pl s -> pl !! b = Some (Found flag (default sdque (last (sp_queue sp)))) -> (S (length (sp_queue sp)) < qmax)%nat ->
  wp (impl_step pl (Link b)) (fun pl' s' => pl' = (<[b := Linked flag]> pl) /\
    models ty (st && negb (bool_decide (sp_queue sp = []))) (spec_step ty sp (Link b)) pl' s') s.
Proof.
  intros [Hok Hty Hin Hbufs Hwk Hpend] Hp Hlen. simpl. rewrite Hp. destruct (Hpend b flag _ (or_intror Hp)) as (Hb0 & Hb & x & Hx & Hbok).
  destruct (Hbufs b x Hx) as (x' & Hx' & E). apply wp_bind.
  eapply wp_mono; [apply (wp_link st (sp_store sp) (sp_queue sp) b x' s); [done|done|done|done|rewrite Hty; by eapply buf_ok_same|done]|].
  intros [] s' (Hok' & Hwk' & Hsame & Hty'). apply wp_ret. split; [done|]. split; simpl; [done|by rewrite Hty'| | |by rewrite Hwk'|].
  - intros b' [Hb'|Hb']%elem_of_app; [by apply Hin|]. apply list_elem_of_singleton in Hb' as ->. by exists x.
  - intros b' y Hy. destruct (Hbufs b' y Hy) as (y' & Hy' & E'). destruct (Hsame b' y' Hy') as (z & Hz & E2). exists z. split; [done|]. unfold same_buf in *. congruence.
  - intros b' f tmp Hpl. destruct (decide (b = b')) as [<-|Hne]; [rewrite lookup_insert_eq in Hpl; by destruct Hpl|].
    rewrite !lookup_insert_ne in Hpl by done. destruct (Hpend b' f tmp Hpl) as (? & ? & ?). split; [done|]. split; [set_solver|done].
Qed.

Lemma start_models ty st sp pl s b flag :
  models ty st sp pl s -> pl !! b = Some (Linked flag) -> (flag = true -> st = false /\ sp_queue sp <> []) ->
  wp (impl_step pl (Start b)) (fun pl' s' => pl' = delete b pl /\ models ty (flag || st) sp pl' s') s.
Proof.
  intros [Hok Hty Hin Hbufs Hwk Hpend] Hp Hst. simpl. rewrite Hp. apply wp_bind.
  assert (Hpend' : forall b' f tmp, (delete b pl) !! b' = Some (Tested f) \/ (delete b pl) !! b' = Some (Found f tmp) ->
    b' <> 0 /\ b' ∉ sdque :: sp_queue sp /\ exists x, sp_bufs sp !! b' = Some x /\ buf_ok ty b' x).
  { intros b' f tmp Hpl. apply (Hpend b' f tmp). by destruct Hpl as [[_ H1]%lookup_delete_Some|[_ H1]%lookup_delete_Some]; [left|right]. }
  destruct flag; simpl.
  - destruct (Hst eq_refl) as [-> Hne]. destruct (sp_queue sp) as [|h l] eqn:Eq; [done|].
    eapply wp_mono; [by apply (wp_start_first (sp_store sp) h l)|]. intros [] s' (Hok' & _ & Hw' & Hb' & Ht'). apply wp_bind, wp_modify, wp_ret. split; [done|].
    split; simpl; [by rewrite Eq|by rewrite <- Hty, <- Ht'|by rewrite Eq|by rewrite Hb'|by rewrite Hw'|by rewrite Eq].
  - eapply wp_mono; [by eapply wp_start_none|]. intros [] s' ->. apply wp_bind, wp_modify, wp_ret. split; [done|].
    split; simpl; [|done..]. destruct Hok. by split.
Qed.

Lemma intr_models ty sp pl s st :
  models ty st sp pl s -> raised (ph (dev s)) <> 0 -> st = true /\ sp_queue sp <> [] /\
  wp (impl_step pl Interrupt) (fun pl' s' => pl' = pl /\ models ty true (spec_step ty sp Interrupt) pl s') s.
Proof.
  intros [Hok Hty Hin Hbufs Hwk Hpend] He. simpl. destruct (sp_queue sp) as [|b l] eqn:Eq.
  { destruct Hok as [_ _ _ _ _ [Hd _]]. by rewrite Hd in He. }
  destruct st; [|destruct Hok as [_ _ _ _ _ [Hd _]]; by rewrite Hd in He]. split; [done|]. split; [done|]. apply wp_bind.
  destruct (Hin b ltac:(left)) as [x Hx]. rewrite Hx. destruct (Hbufs b x Hx) as (x' & Hx' & E). pose proof (ok_nodup _ _ _ _ Hok) as Hnd.
  eapply wp_mono; [by apply (wp_intr (sp_store sp) b l x')|]. intros [] s2 (Hok2 & Hb2 & Hwk2 & Hsame & Hty2). rewrite Hty in *. apply wp_ret. split; [done|].
  split; simpl; [by rewrite (serve_same _ _ _ x')|done| | |by rewrite Hwk2, Hwk|].
  - intros b' Hb'. destruct (decide (b = b')) as [<-|]; [rewrite lookup_insert_eq|rewrite lookup_insert_ne by done; apply Hin; by right]; by eexists.
  - intros b' y Hy. destruct (decide (b = b')) as [<-|Hne].
    + rewrite lookup_insert_eq in Hy. injection Hy as <-. eexists. split; [exact Hb2|]. by apply served_same.
    + rewrite lookup_insert_ne in Hy by done. destruct (Hbufs b' y Hy) as (y' & Hy' & E1).
      destruct (Hsame b' y') as (z & Hz & E2); [by rewrite lookup_delete_ne|]. rewrite lookup_delete_ne in Hz by done.
      exists z. split; [done|]. unfold same_buf in *. congruence.
  - intros b' f tmp Hpl. destruct (Hpend b' f tmp Hpl) as (Hz0 & Hni & Hex). split; [done|]. split; [set_solver|]. by rewrite lookup_insert_ne by set_solver.
Qed.

Lemma tick_models ty st sp pl s c : models ty st sp pl s -> wp (impl_step pl (Tick c)) (fun pl' s' => pl' = pl /\ models ty st sp pl s') s.
Proof. intros [Hok Hty Hin Hbufs Hwk Hpend]. apply wp_bind, wp_modify, wp_ret. split; [done|]. split; [by apply tick_ok|done..]. Qed.

Lemma starter_other st sp sp' pl b p :
  starter st sp pl -> head (sp_queue sp') = head (sp_queue sp) -> head (sp_queue sp) <> Some b \/ st = true -> p <> Linked true -> starter st sp' (<[b := p]> pl).
Proof.
  intros Hs Hh Hb Hp b'. rewrite Hh. destruct (decide (b = b')) as [<-|Hne]; [|by rewrite lookup_insert_ne].
  rewrite lookup_insert_eq. split; [by intros [= ->]|]. by intros [-> Hx]; destruct Hb.
Qed.

Lemma head_in (l : list Z) b : head l = Some b -> b ∈ l.
Proof. destruct l; [done|]. intros [= ->]. by left. Qed.

Lemma step_refines ty sp pl s e :
  refines ty sp pl s -> enabled ty sp pl s e -> fresh sp pl e -> wp (impl_step pl e) (fun pl' s' => refines ty (spec_step ty sp e) pl' s') s.
Proof.
  intros (st & Hm & Hst) He Hfr. destruct e as [b x|b|b|b| |c].
  - destruct He as (Hp & Hb0 & Hb & Hbok). eapply wp_mono; [by apply (test_models ty st)|]. intros pl' s' [-> Hm']. exists st. split; [done|].
    apply (starter_other _ _ _ _ _ _ Hst); [done| |done]. left. intros H1%head_in. set_solver.
  - destruct He as [flag Hp]. eapply wp_mono; [by apply (find_models ty st)|]. intros pl' s' [-> Hm']. exists st. split; [done|].
    apply (starter_other _ _ _ _ _ _ Hst); [done| |done]. left. intros H1%head_in.
    destruct (ref_pending _ _ _ _ _ Hm b flag 0 (or_introl Hp)) as (_ & Hni & _). set_solver.
  - destruct He as (flag & Hp & Hlen). specialize (Hfr flag _ Hp). eapply wp_mono; [by apply (link_models ty st)|]. intros pl' s' [-> Hm']. eexists. split; [exact Hm'|].
    destruct (ref_pending _ _ _ _ _ Hm b flag _ (or_intror Hp)) as (_ & Hni & _). simpl. destruct (sp_queue sp) as [|h l] eqn:Eq.
    + rewrite andb_false_r. subst flag. intros b'. simpl. destruct (decide (b = b')) as [<-|Hne]; [by rewrite lookup_insert_eq|].
      rewrite lookup_insert_ne by done. rewrite (Hst b'), Eq. by split; [intros [_ ?]|intros [_ [= ?]]].
    + change (bool_decide (h :: l = [])) with false in *. rewrite andb_true_r. subst flag.
      apply (starter_other _ _ _ _ _ _ Hst); [by rewrite Eq|left; rewrite Eq; intros [= ->]; set_solver|done].
  - destruct He as [flag Hp]. assert (Hf : flag = true -> st = false /\ head (sp_queue sp) = Some b) by (intros ->; by apply Hst).
    eapply wp_mono; [apply (start_models ty st sp pl s b flag Hm Hp); intros E; destruct (Hf E) as [-> Hh]; split; [done|by destruct (sp_queue sp)]|].
    intros pl' s' [-> Hm']. exists (flag || st). split; [done|]. intros b'. destruct (decide (b = b')) as [<-|Hne].
    + rewrite lookup_delete_eq. split; [done|]. intros [[-> ->]%orb_false_iff Hh]. assert (Hx : pl !! b = Some (Linked true)) by by apply Hst. by rewrite Hp in Hx.
    + rewrite lookup_delete_ne by done. rewrite (Hst b'). destruct flag; [|done]. destruct (Hf eq_refl) as [-> Hh]. rewrite Hh. by split; intros [? [= ?]].
  - destruct (intr_models ty sp pl s st Hm He) as (-> & _ & Hw). eapply wp_mono; [exact Hw|]. intros pl' s' [-> Hm']. exists true. split; [done|].
    intros b. rewrite (Hst b). by split; intros [? _].
  - eapply wp_mono; [by apply (tick_models ty st)|]. intros pl' s' [-> Hm']. by exists st.
Qed.

Lemma run_refines ty evs sp pl s :
  refines ty sp pl s -> feasible ty sp pl s evs -> wp (run pl evs) (fun pl' s' => refines ty (foldl (spec_step ty) sp evs) pl' s') s.
Proof.
  revert sp pl s. induction evs as [|e evs IH]; intros sp pl s Hr Hf; [by apply wp_ret|]. destruct Hf as (He & Hfr & Hf). cbn [run foldl]. apply wp_bind.
  pose proof (step_refines ty sp pl s e Hr He Hfr) as Hs. unfold wp in *. destruct (impl_step pl e s) as [[pl1 s1]| | |]; [|done..].
  by apply IH, Hf.
Qed.

(** *** The race of [sdrw]

    A request that found the queue busy, and appends its buffer when the queue
    has become empty, is lost: it is never started, and neither is any request
    behind it, for the controller never interrupts again. *)
Definition lost (ty : Z) (b : Z) (woken : list Z) (sp : spec) (pl : gmap Z place) (s : sd D) : Prop :=
  models ty false sp pl s /\ head (sp_queue sp) = Some b /\ sp_woken sp = woken /\
  forall b', pl !! b' <> Some (Tested true) /\ (forall tmp, pl !! b' <> Some (Found true tmp)) /\ pl !! b' <> Some (Linked true).

Lemma lost_insert (pl : gmap Z place) b0 p :
  (forall b', pl !! b' <> Some (Tested true) /\ (forall tmp, pl !! b' <> Some (Found true tmp)) /\ pl !! b' <> Some (Linked true)) ->
  p <> Tested true -> (forall tmp, p <> Found true tmp) -> p <> Linked true ->
  let pl := <[b0 := p]> pl in
  forall b', pl !! b' <> Some (Tested true) /\ (forall tmp, pl !! b' <> Some (Found true tmp)) /\ pl !! b' <> Some (Linked true).
Proof.
  intros Hpl H1 H2 H3 pl' b'. subst pl'. destruct (decide (b0 = b')) as [<-|Hne]; [|rewrite lookup_insert_ne by done; apply Hpl].
  rewrite lookup_insert_eq. split; [by intros [= ->]|]. split; [intros tmp [= ->]; by apply (H2 tmp)|by intros [= ->]].
Qed.

Lemma lost_step ty b woken sp pl s e :
  lost ty b woken sp pl s -> enabled ty sp pl s e -> e <> Interrupt /\ wp (impl_step pl e) (fun pl' s' => lost ty b woken (spec_step ty sp e) pl' s') s.
Proof.
  intros (Hm & Hh & Hw & Hpl) He. destruct (sp_queue sp) as [|h l] eqn:Eq; [done|]. injection Hh as ->. split.
  { intros ->. by destruct (intr_models ty sp pl s false Hm He). }
  assert (Hq : bool_decide (sp_queue sp = []) = false) by (by rewrite Eq).
  destruct e as [b0 x|b0|b0|b0| |c].
  - eapply wp_mono; [by apply (test_models ty false)|]. intros pl' s' [-> Hm']. split; [done|]. rewrite Hq. simpl. rewrite Eq. split; [done|]. split; [done|]. by apply lost_insert.
  - destruct He as [flag Hp]. eapply wp_mono; [by apply (find_models ty false)|]. intros pl' s' [-> Hm']. split; [done|]. simpl. rewrite Eq. split; [done|]. split; [done|].
    apply lost_insert; try done. intros tmp [= -> _]. by destruct (Hpl b0) as [? _].
  - destruct He as (flag & Hp & Hlen). eapply wp_mono; [by apply (link_models ty false)|]. intros pl' s' [-> Hm']. split; [done|]. simpl. rewrite Eq. split; [done|]. split; [done|].
    apply lost_insert; try done. intros [= ->]. by destruct (Hpl b0) as (_ & Hx & _); apply Hx in Hp.
  - destruct He as [flag Hp]. assert (flag = false) as -> by (destruct flag; [by apply (Hpl b0) in Hp|done]).
    eapply wp_mono; [by apply (start_models ty false)|]. intros pl' s' [-> Hm']. split; [done|]. simpl. rewrite Eq. split; [done|]. split; [done|]. intros b'.
    destruct (decide (b0 = b')) as [<-|Hne]; [by rewrite lookup_delete_eq|rewrite lookup_delete_ne by done; apply Hpl].
  - by destruct (intr_models ty sp pl s false Hm He).
  - eapply wp_mono; [by apply (tick_models ty false)|]. intros pl' s' [-> Hm']. split; [done|]. simpl. by rewrite Eq.
Qed.

Lemma lost_forever ty b woken evs sp pl s :
  lost ty b woken sp pl s -> feasible ty sp pl s evs ->
  ~ In Interrupt evs /\ wp (run pl evs) (fun pl' s' => lost ty b woken (foldl (spec_step ty) sp evs) pl' s') s.
Proof.
  revert sp pl s. induction evs as [|e evs IH]; intros sp pl s Hr Hf; [split; [by intros []|by apply wp_ret]|]. destruct Hf as (He & _ & Hf). cbn [run foldl].
  destruct (lost_step ty b woken sp pl s e Hr He) as [Hne Hs]. unfold wp, mbind, M_bind in *. destruct (impl_step pl e s) as [[pl1 s1]| | |]; [|done..].
  destruct (IH _ _ _ Hs (Hf _ _ eq_refl)) as [Hn Hw]. split; [|done]. by intros [|].
Qed.

Lemma stale_link_lost ty sp pl s b :
  models ty true sp pl s -> sp_queue sp = [] -> pl !! b = Some (Found false sdque) -> (1 < qmax)%nat ->
  (forall b', pl !! b' <> Some (Tested true) /\ (forall tmp, pl !! b' <> Some (Found true tmp)) /\ pl !! b' <> Some (Linked true)) ->
  wp (impl_step pl (Link b)) (fun pl' s' => lost ty b (sp_woken sp) (spec_step ty sp (Link b)) pl' s') s.
Proof.
  intros Hm Hq Hp Hlen Hpl. eapply wp_mono; [apply (link_models ty true sp pl s b false Hm); rewrite Hq; done|].
  intros pl' s' [-> Hm']. rewrite Hq in Hm'. split; [done|]. simpl. rewrite Hq. split; [done|]. split; [done|]. by apply lost_insert.
Qed.

End queue.
End SdQueue.
