(* ===== verification/SdBlock.v ===== *)
(** * The block device over the SD card (src/fs/block_device.c)

    With no other request in progress, [sd_read] and [sd_write] are the reads
    and writes of a store of blocks of 512 bytes. *)
From S2P Require Import Prelude CString Mmio Sd SdFacts SdQueue.

Module SdBlock.
Import CString Mmio Sd SdFacts SdQueue.

(** ** Flags *)
Lemma any_bit v k : 0 <= k -> any v (2 ^ k) = Z.testbit v k.
Proof.
  intros Hk. unfold any. destruct (Z.testbit v k) eqn:E.
  - apply negb_true_iff, Z.eqb_neq. intros H. apply (f_equal (fun z => Z.testbit z k)) in H.
    by rewrite Z.land_spec, E, Z.pow2_bits_true, Z.bits_0 in H by done.
  - apply negb_false_iff, Z.eqb_eq. apply Z.bits_inj'. intros i Hi. rewrite Z.land_spec, Z.bits_0.
    destruct (decide (i = k)) as [->|Hne]; [by rewrite E|]. by rewrite Z.pow2_bits_false, andb_false_r by done.
Qed.

(** A buffer that was served ends the loop of [sdrw]. *)
Lemma served_done ty B x : any (b_flags (served ty B x)) B_VALID && any (Z.lnot (b_flags (served ty B x))) B_DIRTY = true.
Proof.
  assert (forall f, any (Z.land (Z.lor f B_VALID) (Z.lnot B_DIRTY)) B_VALID && any (Z.lnot (Z.land (Z.lor f B_VALID) (Z.lnot B_DIRTY))) B_DIRTY = true) as H; [|apply H].
  intros f. change B_VALID with (2 ^ 1) at 2. change B_DIRTY with (2 ^ 2) at 3. rewrite !any_bit by done.
  rewrite Z.lnot_spec, !Z.land_spec, Z.lor_spec by done. change (Z.testbit B_VALID 1) with true. change (Z.testbit (Z.lnot B_DIRTY) 1) with true.
  change (Z.testbit (Z.lnot B_DIRTY) 2) with false. by rewrite orb_true_r, andb_false_r.
Qed.

Section block.
Context {D : Type} `{SdCard D} (sdque : Z) (qmax turns : nat) (sleep : Z -> M (sd D) unit).
Implicit Types (s : sd D).

Definition ticks (cs : list pause) (s : sd D) : sd D := foldl (fun s c => set_dev (dev_wait c (dev s)) s) s cs.

(** [sleep] when nothing else runs: the lock is given back, time passes until
    the controller interrupts, the handler runs, and the lock is taken again. *)
Context (sleep_law : forall s B b, driver_ok sdque qmax true B [b] (set_sdlock false s) -> exists cs s2,
  raised (ph (dev (ticks cs (set_sdlock false s)))) <> 0 /\ sd_intr sdque (ticks cs (set_sdlock false s)) = Ok (tt, s2) /\
  sleep b s = Ok (tt, set_sdlock true s2)).

Lemma ticks_ok cs B l s : driver_ok sdque qmax true B l s -> driver_ok sdque qmax true B l (ticks cs s) /\ bufs (ticks cs s) = bufs s /\ sd_ty (ticks cs s) = sd_ty s.
Proof.
  revert s. induction cs as [|c cs IH]; intros s Hok; [done|]. simpl. apply (tick_ok _ _ _ _ _ _ c) in Hok. by destruct (IH _ Hok) as (? & ? & ?).
Qed.

Lemma wp_sdrw b x B s :
  driver_ok sdque qmax true B [] s -> (1 < qmax)%nat -> bufs s !! b = Some x -> b <> 0 -> b <> sdque -> buf_ok (sd_ty s) b x ->
  wp (sdrw sdque qmax sleep (S turns) b) (fun _ s' => driver_ok sdque qmax true (serve (sd_ty s) B x) [] s' /\ sd_ty s' = sd_ty s /\
    exists x', bufs s' !! b = Some x' /\ same_buf (served (sd_ty s) B x) x') s.
Proof using sleep_law.
  intros Hok Hq Hx Hb0 Hbq Hbok. unfold sdrw. apply wp_bind.
  eapply wp_mono; [by apply (wp_submit sdque qmax B b x s)|].
  intros [] s1 (Hok1 & Hl1 & _ & Hsame & Hty1). simpl in Hok1. destruct (sleep_law s1 B b Hok1) as (cs & s2 & Hr & Hi & Hs).
  destruct (ticks_ok cs B [b] _ Hok1) as (Hok1' & Hb1 & Ht1). destruct (Hsame b x Hx) as (x1 & Hx1 & E1).
  pose proof (wp_intr sdque qmax B b [] x1 (ticks cs (set_sdlock false s1)) Hok1' ltac:(rewrite Hb1; exact Hx1) Hr) as Hw.
  unfold wp in Hw. rewrite Hi in Hw. destruct Hw as (Hok2 & Hx2 & _ & _ & Hty2). rewrite Ht1 in *. change (sd_ty (set_sdlock false s1)) with (sd_ty s1) in *. rewrite Hty1 in *.
  cbn [whileM]. apply wp_bind, wp_bind, wp_bind. unfold wp at 1. rewrite Hs. unfold sdrw_done. apply wp_bind, wp_bind.
  eapply wp_get_buf; [exact Hx2|]. apply wp_ret. rewrite served_done. apply wp_ret. simpl. apply wp_ret.
  unfold sdrw_finish. apply wp_bind, wp_gets. cbn [whenM sdlock set_sdlock]. unfold release_sdlock. apply wp_bind, wp_gets, wp_bind, wp_assert; [done|].
  apply wp_modify. split; [|split; [done|]].
  - rewrite (serve_same _ _ _ x1) by done. destruct Hok2. by split.
  - exists (served (sd_ty s) B x1). split; [done|]. by apply served_same.
Qed.

(** The address of a block of the file system on the card. *)
Definition sector (ty n : Z) : Z := addr_of ty (mkBuf 0 (u32 (u32 n + BLOCKNO_OFFSET)) [] 0).

(** A free place for a buffer on the stack. *)
Definition stack_ok (b : Z) (junk : buf) : Prop :=
  b <> 0 /\ b <> sdque /\ Z.land (b + 8) 3 = 0 /\ length (b_data junk) = 512%nat /\ Forall byte_ok (b_data junk).

Lemma free_buf_ok B b s : driver_ok sdque qmax true B [] s -> b <> sdque -> driver_ok sdque qmax true B [] (set_bufs (delete b (bufs s)) s).
Proof.
  intros [Hlock Hc Hnd Hlen _ Hdev] Hb. split; simpl; try done; [|set_solver]. unfold next. simpl in Hc. by rewrite lookup_delete_ne.
Qed.

Lemma wp_sd_read b junk n B s :
  driver_ok sdque qmax true B [] s -> (1 < qmax)%nat -> stack_ok b junk -> valid (sector (sd_ty s) n) ->
  wp (sd_read sdque qmax sleep (S turns) b junk n) (fun d s' => d = unwords 4 (B (sector (sd_ty s) n)) /\ driver_ok sdque qmax true B [] s' /\ sd_ty s' = sd_ty s) s.
Proof using sleep_law.
  intros Hok Hq (Hb0 & Hbq & Hal & Hlen & Hby) Hv. unfold sd_read. apply wp_bind, wp_modify, wp_bind.
  eapply wp_mono; [apply (wp_sdrw b); [apply new_buf_ok; [done|by rewrite list_elem_of_singleton]|done|simpl; apply lookup_insert_eq|done|done|by split]|].
  intros [] s1 (Hok1 & Hty1 & x1 & Hx1 & E1). apply wp_bind, (wp_get_buf _ x1); [done|]. apply wp_bind, wp_modify, wp_ret.
  apply same_buf_eq in E1 as (_ & _ & <-). split; [done|]. split; [by apply free_buf_ok|done].
Qed.

Lemma wp_sd_write b junk n d B s :
  driver_ok sdque qmax true B [] s -> (1 < qmax)%nat -> stack_ok b junk -> valid (sector (sd_ty s) n) -> length d = 512%nat -> Forall byte_ok d ->
  wp (sd_write sdque qmax sleep (S turns) b junk n d)
    (fun _ s' => driver_ok sdque qmax true (write_block B (sector (sd_ty s) n) (words 4 128 d)) [] s' /\ sd_ty s' = sd_ty s) s.
Proof using sleep_law.
  intros Hok Hq (Hb0 & Hbq & Hal & _) Hv Hlen Hby. unfold sd_write. rewrite take_ge by lia. apply wp_bind, wp_modify, wp_bind.
  eapply wp_mono; [apply (wp_sdrw b); [apply new_buf_ok; [done|by rewrite list_elem_of_singleton]|done|simpl; apply lookup_insert_eq|done|done|by split]|].
  intros [] s1 (Hok1 & Hty1 & _). apply wp_modify. split; [by apply free_buf_ok|done].
Qed.

(** C26: [sd_read] and [sd_write] are a store of blocks. While no other request
    is in progress, [sd_read] returns the content of the block at sector
    [block_no + 0x20800] and changes nothing; [sd_write] makes its buffer the
    content of that block and changes no other; so a later [sd_read] returns
    what was written, or what another block held before. Both return. *)
Theorem sd_block_store b junk n d B s :
  driver_ok sdque qmax true B [] s -> (1 < qmax)%nat -> stack_ok b junk -> valid (sector (sd_ty s) n) -> length d = 512%nat -> Forall byte_ok d ->
  wp (sd_read sdque qmax sleep (S turns) b junk n) (fun d s' => d = unwords 4 (B (sector (sd_ty s) n)) /\ driver_ok sdque qmax true B [] s') s /\
  wp (sd_write sdque qmax sleep (S turns) b junk n d) (fun _ s' =>
    driver_ok sdque qmax true (write_block B (sector (sd_ty s) n) (words 4 128 d)) [] s' /\
    forall m, valid (sector (sd_ty s) m) -> wp (sd_read sdque qmax sleep (S turns) b junk m) (fun d' _ =>
      d' = if decide (sector (sd_ty s) m = sector (sd_ty s) n) then d else unwords 4 (B (sector (sd_ty s) m))) s') s.
Proof using sleep_law.
  intros Hok Hq Hst Hv Hlen Hby. split.
  - eapply wp_mono; [by apply wp_sd_read|]. intros d' s' (-> & Hok' & _). done.
  - eapply wp_mono; [by apply wp_sd_write|]. intros [] s1 [Hok1 Hty1]. split; [done|]. intros m Hm. rewrite <- Hty1 in Hm.
    eapply wp_mono; [by apply (wp_sd_read b junk m _ s1 Hok1)|]. intros d' s' (-> & _). rewrite Hty1. unfold write_block.
    case_decide; [|done]. by apply unwords_words.
Qed.
End block.
End SdBlock.
