(* ===== verification/SdDemo.v ===== *)
(** * A model card: the contract of the card can be met

    An executable controller with a card behind it, whose interrupts come two
    pauses after their cause, and the theorems of the driver applied to it. *)
From S2P Require Import Prelude CString Mmio Sd SdFacts SdQueue SdBlock.

Module SdDemo.
Import CString Mmio Sd SdFacts SdQueue SdBlock.

Record card : Type := mkCard { c_ph : phase; c_blk : gmap Z (list Z) }.
Definition latency : nat := 2.

Definition card_block (d : card) (a : Z) : list Z := (fun i => u32 (default 0 (default [] (c_blk d !! a) !! i))) <$> seq 0 128.

Definition card_read (r : Z) (d : card) : Z * card :=
  if r =? EMMC_INTERRUPT then (raised (c_ph d), d)
  else if r =? EMMC_DATA then
    match c_ph d with
    | Send [w] k => (w, mkCard k (c_blk d))
    | Send (w :: ws) k => (w, mkCard (Send ws k) (c_blk d))
    | _ => (0, d)
    end
  else (0, d).

Definition card_write (r v : Z) (d : card) : card :=
  if r =? EMMC_INTERRUPT then if v =? raised (c_ph d) then mkCard (cleared (c_ph d)) (c_blk d) else d
  else if r =? EMMC_ARG1 then match c_ph d with Idle => mkCard (Arg v) (c_blk d) | _ => d end
  else if r =? EMMC_CMDTM then
    match c_ph d with
    | Arg a =>
        if v =? CMD_READ then
          mkCard (Wait latency INT_CMD_DONE (Wait latency INT_READ_RDY (Send (card_block d a) (Wait latency INT_DATA_DONE Idle)))) (c_blk d)
        else mkCard (Wait latency INT_CMD_DONE (Wait latency INT_WRITE_RDY (Recv a []))) (c_blk d)
    | _ => d
    end
  else if r =? EMMC_DATA then
    match c_ph d with
    | Recv a ws =>
        if (length ws <? 127)%nat then mkCard (Recv a (ws ++ [v])) (c_blk d)
        else mkCard (Wait latency INT_DATA_DONE Idle) (<[a := ws ++ [v]]> (c_blk d))
    | _ => d
    end
  else d.

#[export] Instance card_mmio : Mmio card := {
  reg_read := card_read; reg_write := card_write; dev_wait := fun _ d => mkCard (waited (c_ph d)) (c_blk d)
}.

Definition at_card (p : phase) (B : Z -> list Z) (d : card) : Prop := c_ph d = p /\ forall a, card_block d a = B a.

Lemma card_data_read d B w ws k :
  at_card (Send (w :: ws) k) B d ->
  (card_read EMMC_DATA d).1 = w /\ at_card (match ws with [] => k | _ => Send ws k end) B (card_read EMMC_DATA d).2.
Proof.
  intros [Hp HB]. unfold card_read. change (EMMC_DATA =? EMMC_INTERRUPT) with false. rewrite Z.eqb_refl, Hp. destruct ws as [|w' ws]; by split.
Qed.

Lemma card_data_write_last d B a ws w :
  at_card (Recv a ws) B d -> length ws = 127%nat -> Forall (fun w => 0 <= w < 2 ^ 32) (ws ++ [w]) ->
  at_card (Wait latency INT_DATA_DONE Idle) (fun a' => if decide (a' = a) then ws ++ [w] else B a') (card_write EMMC_DATA w d).
Proof.
  intros [Hp HB] Hl Hr. unfold card_write. change (EMMC_DATA =? EMMC_INTERRUPT) with false. change (EMMC_DATA =? EMMC_ARG1) with false.
  change (EMMC_DATA =? EMMC_CMDTM) with false. rewrite Z.eqb_refl, Hp. rewrite Hl. split; [done|]. intros a'. unfold card_block. simpl c_blk. case_decide as E.
  - subst a'. apply list_eq. intros i. rewrite list_lookup_fmap, lookup_insert_eq. destruct (decide (i < 128)%nat) as [Hi|Hi].
    + rewrite lookup_seq_lt by done. simpl. destruct (lookup_lt_is_Some_2 (ws ++ [w]) i) as [x Hx]; [rewrite length_app; simpl; lia|].
      rewrite Hx. simpl. f_equal. apply u32_id. rewrite Forall_lookup in Hr. by apply (Hr i).
    + rewrite lookup_seq_ge by lia. symmetry. apply lookup_ge_None. rewrite length_app. simpl. lia.
  - rewrite lookup_insert_ne by done. apply HB.
Qed.

#[export] Program Instance card_sd : SdCard card := {
  ph := c_ph; blk := card_block; valid := fun a => 0 <= a < 2 ^ 32
}.
Next Obligation. intros d a. unfold card_block. by rewrite length_fmap, length_seq. Qed.
Next Obligation. intros d a. unfold card_block. apply Forall_fmap, Forall_forall. intros i _. simpl. apply u32_range. Qed.
Next Obligation. intros d p B [Hp HB]. simpl. by rewrite Hp. Qed.
Next Obligation. intros d p B [Hp HB]. simpl. unfold card_write. simpl. rewrite Hp, Z.eqb_refl. by split. Qed.
Next Obligation. intros d p B c [Hp HB]. simpl. by rewrite Hp. Qed.
Next Obligation. intros d B Hd. by split. Qed.
Next Obligation. intros d n m k B Hd. by split. Qed.
Next Obligation. done. Qed.
Next Obligation. intros d B a [Hp HB]. simpl. unfold card_write. simpl. by rewrite Hp. Qed.
Next Obligation.
  intros d B a [Hp HB] _. exists latency, latency, latency. split; [done|]. split; [done|]. simpl in Hp, HB. simpl. unfold card_write. simpl. by rewrite Hp, HB.
Qed.
Next Obligation. intros d B a [Hp HB] _. exists latency, latency. split; [done|]. split; [done|]. simpl in Hp, HB. simpl. unfold card_write. simpl. by rewrite Hp. Qed.
Next Obligation. intros d B w w' ws k Hd. by apply (card_data_read d B w (w' :: ws) k). Qed.
Next Obligation. intros d B w k Hd. by apply (card_data_read d B w [] k). Qed.
Next Obligation.
  intros d B a ws w [Hp HB] Hl _. simpl in Hp, HB. simpl. unfold card_write. simpl. rewrite Hp, (proj2 (Nat.ltb_lt _ _)) by lia. by split.
Qed.
Next Obligation. intros d B a ws w Hd Hl Hr. exists latency. by apply card_data_write_last. Qed.

(** ** The theorems at a concrete state *)
Definition demo_desc : SDDescriptor := mkSD 0 [] [] [] 0 0 0 SD_TYPE_2_HC 0 true false 0 0 0 None 0.
Definition demo_sd : sd card := mkSdSt (mkCard Idle ∅) demo_desc 2 0 {[4096 := mkBuf 0 0 (replicate 512 0) 0]} false [].
Definition demo_write : buf := mkBuf 6 5 (replicate 512 7) 0.
Definition demo_read : buf := mkBuf 0 5 (replicate 512 0) 0.
Definition demo_spec : spec := mkSpec (card_block (mkCard Idle ∅)) [] ∅ [].
Definition demo_events : list event :=
  [Test 8192 demo_write; Find 8192; Link 8192; Test 12288 demo_read; Find 12288; Link 12288; Start 12288; Tick (Us 1); Start 8192;
   Tick (Us 1); Tick (Us 1); Interrupt; Tick (Us 1); Tick (Us 1); Interrupt].

(** A thread found the queue busy and its end at the head, now empty. *)
Definition stale_sd : sd card := set_bufs (<[8192 := demo_write]> (bufs demo_sd)) demo_sd.
Definition stale_spec : spec := mkSpec (card_block (mkCard Idle ∅)) [] {[8192 := demo_write]} [].
Definition stale_pl : gmap Z place := {[8192 := Found false 4096]}.

Lemma demo_driver_ok : driver_ok 4096 4 true (card_block (mkCard Idle ∅)) [] demo_sd.
Proof. split; [done|by vm_compute|apply NoDup_singleton|simpl; lia|set_solver|done]. Qed.

Lemma demo_buf_ok b f n v : Z.land (b + 8) 3 = 0 -> 0 <= v < 256 -> buf_ok SD_TYPE_2_HC b (mkBuf f n (replicate 512 v) 0).
Proof. intros Hb Hv. split; [apply length_replicate|]. split; [by apply Forall_replicate|]. split; [done|]. exact (u32_range _). Qed.

(** One step of [feasible], by computation. *)
Ltac next_event := intros ? ? E; vm_compute in E; injection E as <- <-.
Ltac plain_event := split; [first [done | by eexists | eexists; split; [reflexivity|simpl; lia]]|split; [first [done | by intros ? ? [= <- _]]|next_event]].


(** Sleeping beside this card: it is known how long it takes. *)
Definition remaining (p : phase) : nat := match p with Wait n _ _ => n | _ => 0 end.
Definition card_sleep (b : Z) : M (sd card) unit :=
  modify (set_sdlock false);;
  n ← gets (fun s => remaining (ph (dev s)));
  modify (ticks (replicate n (Us 1)));;
  sd_intr 4096;;
  modify (set_sdlock true).

Lemma ticks_ph n s : c_ph (dev (ticks (replicate n (Us 1)) s)) = Nat.iter n waited (c_ph (dev s)).
Proof. revert s. induction n as [|n IH]; intros s; [done|]. cbn [ticks replicate foldl]. unfold ticks in IH. rewrite IH. simpl. by rewrite <- Nat.iter_succ_r. Qed.

Lemma iter_waited n m k : Nat.iter n waited (Wait n m k) = Wait 0 m k.
Proof. induction n as [|n IH]; [done|]. rewrite Nat.iter_succ_r. exact IH. Qed.

Lemma card_sleep_law s B b : driver_ok 4096 4 true B [b] (set_sdlock false s) -> exists cs s2,
  raised (ph (dev (ticks cs (set_sdlock false s)))) <> 0 /\ sd_intr 4096 (ticks cs (set_sdlock false s)) = Ok (tt, s2) /\
  card_sleep b s = Ok (tt, set_sdlock true s2).
Proof.
  intros Hok. set (n := remaining (ph (dev s))). exists (replicate n (Us 1)).
  destruct (ticks_ok 4096 4 (replicate n (Us 1)) _ _ _ Hok) as (Hok' & _ & _).
  assert (Hr : raised (ph (dev (ticks (replicate n (Us 1)) (set_sdlock false s)))) <> 0).
  { pose proof Hok as [_ _ _ _ _ (x & _ & Hw)].
    assert (exists m k, ph (dev s) = Wait n m k /\ m <> 0) as (m & k & Hp & Hm).
    { unfold n, working in *. destruct (is_write x); [destruct Hw as [j [Hj _]]|destruct Hw as (j & j' & _ & Hj & _)]; simpl in Hj |- *; rewrite Hj; by eexists _, _. }
    change (ph (dev (ticks (replicate n (Us 1)) (set_sdlock false s)))) with (c_ph (dev (ticks (replicate n (Us 1)) (set_sdlock false s)))).
    rewrite ticks_ph. change (c_ph (dev (set_sdlock false s))) with (ph (dev s)). rewrite Hp, iter_waited. done. }
  pose proof Hok' as [_ _ _ _ _ (x & Hx & _)]. pose proof (wp_intr 4096 4 B b [] x _ Hok' Hx Hr) as Hw. unfold wp in Hw.
  destruct (sd_intr 4096 _) as [[[] s2]| | |] eqn:E; [|done..]. exists s2. split; [done|]. split; [done|].
  unfold card_sleep, mbind, M_bind, modify, gets. change (remaining (ph (dev (set_sdlock false s)))) with n. by rewrite E.
Qed.

Lemma sd_block_store_witness :
  let sd_rd := sd_read 4096 4 card_sleep 1 8192 demo_read in
  let sd_wr := sd_write 4096 4 card_sleep 1 8192 demo_read in
  wp (sd_wr 3 (replicate 512 9)) (fun _ s' => wp (sd_rd 3) (fun d _ => d = replicate 512 9) s' /\ wp (sd_rd 4) (fun d _ => d = replicate 512 0) s') demo_sd.
Proof.
  intros sd_rd sd_wr.
  destruct (sd_block_store 4096 4 0 card_sleep card_sleep_law 8192 demo_read 3 (replicate 512 9) (card_block (mkCard Idle ∅)) demo_sd) as [_ Hw];
    [apply demo_driver_ok|lia|by split_and!; [| | |apply length_replicate|apply Forall_replicate]|exact (u32_range _)|apply length_replicate|by apply Forall_replicate|].
  eapply wp_mono; [exact Hw|]. intros [] s' [_ Hr]. split.
  - eapply wp_mono; [apply (Hr 3); exact (u32_range _)|]. intros d s2 ->. reflexivity.
  - eapply wp_mono; [apply (Hr 4); exact (u32_range _)|]. intros d s2 ->. reflexivity.
Defined.
End SdDemo.
