(* ===== verification/BlockIface.v ===== *)
(** * What the block cache promises to its clients (src/fs/cache.h)

    [BlockCache] is the function table of cache.h with the accesses a client
    makes through [block->data]; [BlockCacheSpec] states what the comments of
    cache.h promise, on the logical content of blocks. *)
From S2P Require Import Prelude FsDefines.

(** The function table; a [Block] pointer and an [OpContext] pointer are [nat]s. *)
Record BlockCache (St : Type) : Type := mkBlockCache {
  bc_acquire : Z -> M St nat;
  bc_release : nat -> M St unit;
  bc_begin_op : nat -> M St unit;
  bc_sync : option nat -> nat -> M St unit;
  bc_end_op : nat -> M St unit;
  bc_alloc : option nat -> M St Z;
  bc_allocg : option nat -> Z -> M St Z;
  bc_free : option nat -> Z -> M St unit;
  bc_data : nat -> M St (list Z);         (** reading [block->data] *)
  bc_store : nat -> list Z -> M St unit;  (** writing [block->data] *)
  bc_used_block : M St (list Z)           (** reading the global [used_block] *)
}.
Arguments bc_acquire {St}. Arguments bc_release {St}. Arguments bc_begin_op {St}.
Arguments bc_sync {St}. Arguments bc_end_op {St}. Arguments bc_alloc {St}.
Arguments bc_allocg {St}. Arguments bc_free {St}. Arguments bc_data {St}. Arguments bc_store {St}. Arguments bc_used_block {St}.

(** The geometry of block groups. *)
Section geometry.
Context (sb : SuperBlock).

Definition group_block (g j : Z) : Z := bg_start sb + g * blocks_per_group sb + j.
Definition bitmap_block (g : Z) : Z := group_block g (bitmap_start_per_group sb).

(** One bitmap block per group, groups that fit the counters, no overflow. *)
Record geometry_ok : Prop := {
  geo_bpg : 0 < blocks_per_group sb <= BIT_PER_BLOCK;
  geo_groups : 0 < num_groups sb <= NGROUPS;
  geo_bg : 0 < bg_start sb;
  geo_bitmap : 0 <= bitmap_start_per_group sb < data_start_per_group sb;
  geo_data : data_start_per_group sb <= blocks_per_group sb;
  geo_num : num_datablocks_per_group sb = blocks_per_group sb - data_start_per_group sb;
  geo_max : bg_start sb + NGROUPS * blocks_per_group sb < 2 ^ 32
}.

Definition is_bitmap (n : Z) : Prop := exists g, 0 <= g < num_groups sb /\ n = bitmap_block g.
Definition in_group (g n : Z) : Prop := exists j, 0 <= j < blocks_per_group sb /\ n = group_block g j.
(** The blocks that the clients of the cache work on. *)
Definition in_groups (n : Z) : Prop := exists g, 0 <= g < num_groups sb /\ in_group g n.

End geometry.

(** The abstract state of the cache, and the laws. [bk_ok] is its invariant,
    [bk_view] the logical content of blocks, [bk_held] the blocks the running
    thread has acquired, [bk_dirty] those changed since their last [sync],
    [bk_room ctx ns k] room in [ctx] for the blocks [ns] and [k] more,
    [bk_alloced] the bits of the bitmaps. *)
Class BlockCacheSpec {St : Type} (sb : SuperBlock) (B : BlockCache St) : Type := {
  bk_ok : St -> Prop;
  bk_view : St -> Z -> list Z;
  bk_held : St -> gmap nat Z;
  bk_dirty : St -> nat -> Prop;
  bk_room : St -> option nat -> list Z -> Z -> Prop;
  bk_alloced : St -> Z -> bool;

  bk_view_len s n : bk_ok s -> length (bk_view s n) = bsize;
  bk_view_bytes s n : bk_ok s -> Forall byte_ok (bk_view s n);
  bk_room_sub s ctx ns ns' k :
    bk_room s ctx ns k -> (forall n, n ∈ ns' -> n ∈ ns) -> bk_room s ctx ns' k;
  bk_room_weaken s ctx ns n k :
    in_groups sb n -> bk_room s ctx ns (1 + k) -> bk_room s ctx (n :: ns) k;

  (** The blocks before the data area of a group are never free. *)
  bk_meta s g j :
    bk_ok s -> 0 <= g < num_groups sb -> 0 <= j < data_start_per_group sb ->
    bk_alloced s (group_block sb g j) = true;

  (** What the laws below leave alone. *)
  bk_same (s s' : St) : Prop :=
    (forall n, bk_view s' n = bk_view s n) /\ (forall n, bk_alloced s' n = bk_alloced s n);

  acquire_law s n :
    bk_ok s -> in_groups sb n -> (forall p, bk_held s !! p <> Some n) ->
    wp (bc_acquire B n) (fun p s' =>
      bk_ok s' /\ bk_same s s' /\ bk_held s !! p = None /\ bk_held s' = <[p := n]> (bk_held s) /\
      ~ bk_dirty s' p /\ (forall q, q <> p -> bk_dirty s' q -> bk_dirty s q) /\
      (forall ctx ns k, bk_room s ctx ns k -> bk_room s' ctx ns k)) s;

  data_law s p n :
    bk_ok s -> bk_held s !! p = Some n ->
    wp (bc_data B p) (fun d s' => d = bk_view s n /\ s' = s) s;

  store_law s p n d :
    bk_ok s -> bk_held s !! p = Some n -> ~ is_bitmap sb n -> length d = bsize -> Forall byte_ok d ->
    wp (bc_store B p d) (fun _ s' =>
      bk_ok s' /\ bk_held s' = bk_held s /\
      (forall m, bk_view s' m = if decide (m = n) then d else bk_view s m) /\
      (forall m, bk_alloced s' m = bk_alloced s m) /\
      (forall q, q <> p -> bk_dirty s' q -> bk_dirty s q) /\
      (forall ctx ns k, bk_room s ctx ns k -> bk_room s' ctx ns k)) s;

  sync_law s ctx p n ns k :
    bk_ok s -> bk_held s !! p = Some n -> bk_room s ctx ns k -> 0 <= k -> n ∈ ns -> 0 <= n < 2 ^ 64 ->
    wp (bc_sync B ctx p) (fun _ s' =>
      bk_ok s' /\ bk_same s s' /\ bk_held s' = bk_held s /\
      ~ bk_dirty s' p /\ (forall q, q <> p -> bk_dirty s' q -> bk_dirty s q) /\
      bk_room s' ctx ns k) s;

  release_law s p n :
    bk_ok s -> bk_held s !! p = Some n -> ~ bk_dirty s p ->
    wp (bc_release B p) (fun _ s' =>
      bk_ok s' /\ bk_same s s' /\ bk_held s' = delete p (bk_held s) /\
      (forall q, bk_dirty s' q -> bk_dirty s q) /\
      (forall ctx ns k, bk_room s ctx ns k -> bk_room s' ctx ns k)) s;

  (** A block is allocated for [ctx]: it was free, it is zero now, and no
      other block changed but those of the bitmaps. *)
  bk_allocated (s s' : St) (ctx : option nat) (ns : list Z) (k r : Z) : Prop :=
    0 < r < 2 ^ 32 /\ bk_alloced s r = false /\
    (forall n, bk_alloced s' n = if decide (n = r) then true else bk_alloced s n) /\
    bk_view s' r = zero_block /\
    (forall n, n <> r -> ~ is_bitmap sb n -> bk_view s' n = bk_view s n) /\
    bk_room s' ctx (r :: ns) k;
  (** No held block may be hit by an allocation. *)
  bk_held_ok (s : St) : Prop :=
    forall p n, bk_held s !! p = Some n -> bk_alloced s n = true /\ ~ is_bitmap sb n;

  allocg_law s ctx g ns k :
    bk_ok s -> 0 <= g < num_groups sb -> bk_room s ctx ns (2 + k) -> 0 <= k -> bk_held_ok s ->
    wp (bc_allocg B ctx g) (fun r s' =>
      bk_ok s' /\ bk_held s' = bk_held s /\ (forall q, bk_dirty s' q -> bk_dirty s q) /\
      ((r = 0 /\ bk_same s s' /\ (forall n, in_group sb g n -> bk_alloced s n = true) /\
        bk_room s' ctx ns (2 + k)) \/
       (in_group sb g r /\ bk_allocated s s' ctx ns k r))) s;

  alloc_law s ctx ns k :
    bk_ok s -> bk_room s ctx ns (2 + k) -> 0 <= k -> bk_held_ok s ->
    (exists g n, 0 <= g < num_groups sb /\ in_group sb g n /\ bk_alloced s n = false) ->
    wp (bc_alloc B ctx) (fun r s' =>
      bk_ok s' /\ bk_held s' = bk_held s /\ (forall q, bk_dirty s' q -> bk_dirty s q) /\
      (exists g, 0 <= g < num_groups sb /\ in_group sb g r) /\ bk_allocated s s' ctx ns k r) s;

  free_law s ctx g n ns k :
    bk_ok s -> 0 <= g < num_groups sb ->
    (exists j, data_start_per_group sb <= j < blocks_per_group sb /\ n = group_block sb g j) ->
    bk_alloced s n = true -> bk_room s ctx ns (1 + k) -> 0 <= k ->
    (forall p m, bk_held s !! p = Some m -> ~ is_bitmap sb m) ->
    wp (bc_free B ctx n) (fun _ s' =>
      bk_ok s' /\ bk_held s' = bk_held s /\ (forall q, bk_dirty s' q -> bk_dirty s q) /\
      (forall m, bk_alloced s' m = if decide (m = n) then false else bk_alloced s m) /\
      (forall m, ~ is_bitmap sb m -> bk_view s' m = bk_view s m) /\
      bk_room s' ctx ns k) s;

  (** The counter of a group says whether the group is full. *)
  used_block_law s g :
    bk_ok s -> 0 <= g < num_groups sb ->
    wp (bc_used_block B) (fun ub s' => s' = s /\
      (ub !!! Z.to_nat g = num_datablocks_per_group sb <->
       forall n, in_group sb g n -> bk_alloced s n = true)) s
}.
