(* ===== verification/Cache.v ===== *)
(** * The block cache and its log (src/fs/cache.h, cache.c)

    State: the device, the [Block] objects in LRU order, the in-memory log
    header, the statics of the log and the per-group usage counters.  The
    operations are those of the [BlockCache] function table; a thread that
    would sleep ([begin_op] without log space, a held sleep lock, [end_op]
    before its batch is persisted) has the outcome [Sleep]. *)
From S2P Require Import Prelude Bitmap FsDefines.

Module Cache.
Import Bitmap.

Definition OP_MAX_NUM_BLOCKS : Z := 10.
Definition EVICTION_THRESHOLD : nat := 20.

Record Block : Type := mkBlock {
  bk_block_no : Z;
  bk_acquired : bool;
  bk_pinned : bool;
  bk_locked : bool;  (** the sleep lock [lock] *)
  bk_valid : bool;
  bk_data : list Z
}.

#[export] Instance Block_eq_dec : EqDecision Block.
Proof. solve_decision. Defined.

Definition set_bk_block_no (x : Z) (s : Block) : Block :=
  mkBlock x (bk_acquired s) (bk_pinned s) (bk_locked s) (bk_valid s) (bk_data s).
Definition set_bk_acquired (x : bool) (s : Block) : Block :=
  mkBlock (bk_block_no s) x (bk_pinned s) (bk_locked s) (bk_valid s) (bk_data s).
Definition set_bk_pinned (x : bool) (s : Block) : Block :=
  mkBlock (bk_block_no s) (bk_acquired s) x (bk_locked s) (bk_valid s) (bk_data s).
Definition set_bk_locked (x : bool) (s : Block) : Block :=
  mkBlock (bk_block_no s) (bk_acquired s) (bk_pinned s) x (bk_valid s) (bk_data s).
Definition set_bk_valid (x : bool) (s : Block) : Block :=
  mkBlock (bk_block_no s) (bk_acquired s) (bk_pinned s) (bk_locked s) x (bk_data s).
Definition set_bk_data (x : list Z) (s : Block) : Block :=
  mkBlock (bk_block_no s) (bk_acquired s) (bk_pinned s) (bk_locked s) (bk_valid s) x.

Record OpContext : Type := mkOpContext {
  oc_lock : bool;
  oc_ts : Z;
  oc_num_blocks : Z;
  oc_block_no : list Z
}.

Definition set_oc_lock (x : bool) (s : OpContext) : OpContext :=
  mkOpContext x (oc_ts s) (oc_num_blocks s) (oc_block_no s).
Definition set_oc_ts (x : Z) (s : OpContext) : OpContext :=
  mkOpContext (oc_lock s) x (oc_num_blocks s) (oc_block_no s).
Definition set_oc_num_blocks (x : Z) (s : OpContext) : OpContext :=
  mkOpContext (oc_lock s) (oc_ts s) x (oc_block_no s).
Definition set_oc_block_no (x : list Z) (s : OpContext) : OpContext :=
  mkOpContext (oc_lock s) (oc_ts s) (oc_num_blocks s) x.

Record Device : Type := mkDevice {
  dv_disk : gmap Z (list Z);          (** the blocks; one never written is zero *)
  dv_writes : list (Z * list Z)       (** every write so far, oldest first *)
}.

Record LogState : Type := mkLogState {
  last_allocated_ts : Z;
  last_persisted_ts : Z;
  lg_log_start : Z;
  log_size : Z;
  log_used : Z;
  op_count : Z
}.

Definition set_last_allocated_ts (x : Z) (s : LogState) : LogState :=
  mkLogState x (last_persisted_ts s) (lg_log_start s) (log_size s) (log_used s) (op_count s).
Definition set_last_persisted_ts (x : Z) (s : LogState) : LogState :=
  mkLogState (last_allocated_ts s) x (lg_log_start s) (log_size s) (log_used s) (op_count s).
Definition set_lg_log_start (x : Z) (s : LogState) : LogState :=
  mkLogState (last_allocated_ts s) (last_persisted_ts s) x (log_size s) (log_used s) (op_count s).
Definition set_log_size (x : Z) (s : LogState) : LogState :=
  mkLogState (last_allocated_ts s) (last_persisted_ts s) (lg_log_start s) x (log_used s) (op_count s).
Definition set_log_used (x : Z) (s : LogState) : LogState :=
  mkLogState (last_allocated_ts s) (last_persisted_ts s) (lg_log_start s) (log_size s) x (op_count s).
Definition set_op_count (x : Z) (s : LogState) : LogState :=
  mkLogState (last_allocated_ts s) (last_persisted_ts s) (lg_log_start s) (log_size s) (log_used s) x.

Record cache : Type := mkCache {
  c_dev : Device;
  c_blocks : gmap nat Block;  (** the objects allocated from [arena] *)
  c_next : nat;  (** the object [alloc_object] returns next *)
  c_head : list nat;  (** the list [head], from [head.next] *)
  c_lock : bool;  (** the spin lock [lock] *)
  c_header : LogHeader;
  c_log : LogState;  (** the statics of the log *)
  c_used_block : list Z;
  c_ctxs : gmap nat OpContext  (** the callers' [OpContext] objects *)
}.

Definition set_c_dev (x : Device) (s : cache) : cache :=
  mkCache x (c_blocks s) (c_next s) (c_head s) (c_lock s) (c_header s) (c_log s) (c_used_block s) (c_ctxs s).
Definition set_c_blocks (x : gmap nat Block) (s : cache) : cache :=
  mkCache (c_dev s) x (c_next s) (c_head s) (c_lock s) (c_header s) (c_log s) (c_used_block s) (c_ctxs s).
Definition set_c_next (x : nat) (s : cache) : cache :=
  mkCache (c_dev s) (c_blocks s) x (c_head s) (c_lock s) (c_header s) (c_log s) (c_used_block s) (c_ctxs s).
Definition set_c_head (x : list nat) (s : cache) : cache :=
  mkCache (c_dev s) (c_blocks s) (c_next s) x (c_lock s) (c_header s) (c_log s) (c_used_block s) (c_ctxs s).
Definition set_c_lock (x : bool) (s : cache) : cache :=
  mkCache (c_dev s) (c_blocks s) (c_next s) (c_head s) x (c_header s) (c_log s) (c_used_block s) (c_ctxs s).
Definition set_c_header (x : LogHeader) (s : cache) : cache :=
  mkCache (c_dev s) (c_blocks s) (c_next s) (c_head s) (c_lock s) x (c_log s) (c_used_block s) (c_ctxs s).
Definition set_c_log (x : LogState) (s : cache) : cache :=
  mkCache (c_dev s) (c_blocks s) (c_next s) (c_head s) (c_lock s) (c_header s) x (c_used_block s) (c_ctxs s).
Definition set_c_used_block (x : list Z) (s : cache) : cache :=
  mkCache (c_dev s) (c_blocks s) (c_next s) (c_head s) (c_lock s) (c_header s) (c_log s) x (c_ctxs s).
Definition set_c_ctxs (x : gmap nat OpContext) (s : cache) : cache :=
  mkCache (c_dev s) (c_blocks s) (c_next s) (c_head s) (c_lock s) (c_header s) (c_log s) (c_used_block s) x.

(** ** The device *)
Definition disk_read (d : gmap Z (list Z)) (n : Z) : list Z := default zero_block (d !! n).

Definition dev_write (n : Z) (data : list Z) (d : Device) : Device :=
  mkDevice (<[n := data]> (dv_disk d)) (dv_writes d ++ [(n, data)]).

(** [device->read(block_no, buffer)] and [device->write(block_no, buffer)]. *)
Definition device_read_M (n : Z) : M cache (list Z) :=
  gets (fun s => disk_read (dv_disk (c_dev s)) n).
Definition device_write_M (n : Z) (data : list Z) : M cache unit :=
  modify (fun s => set_c_dev (dev_write n data (c_dev s)) s).

(** ** Spin locks, as one CPU sees them (see Spinlock.v): acquiring a lock this
    CPU holds, or releasing one it does not hold, is a [PANIC]. *)
Definition acquire_lock : M cache unit :=
  b ← gets c_lock; assert_ (negb b);; modify (set_c_lock true).
Definition release_lock : M cache unit :=
  b ← gets c_lock; assert_ b;; modify (set_c_lock false).

(** ** Pointers to blocks and to contexts *)
Definition get_block (p : nat) : M cache Block :=
  s ← gets (fun s => c_blocks s !! p); from_option_M s.
Definition put_block (p : nat) (b : Block) : M cache unit :=
  modify (fun s => set_c_blocks (<[p := b]> (c_blocks s)) s).
Definition upd_block (p : nat) (f : Block -> Block) : M cache unit :=
  b ← get_block p; put_block p (f b).
Definition get_ctx (c : nat) : M cache OpContext :=
  s ← gets (fun s => c_ctxs s !! c); from_option_M s.
Definition put_ctx (c : nat) (o : OpContext) : M cache unit :=
  modify (fun s => set_c_ctxs (<[c := o]> (c_ctxs s)) s).

(** [acquire_spinlock(&ctx->lock)], [release_spinlock(&ctx->lock)] *)
Definition acquire_ctx_lock (c : nat) : M cache unit :=
  o ← get_ctx c; assert_ (negb (oc_lock o));; put_ctx c (set_oc_lock true o).
Definition release_ctx_lock (c : nat) : M cache unit :=
  o ← get_ctx c; assert_ (oc_lock o);; put_ctx c (set_oc_lock false o).

Definition modify_log (f : LogState -> LogState) : M cache unit :=
  modify (fun s => set_c_log (f (c_log s)) s).

Section cache.
  Context (sblock : SuperBlock).

(** [device_read(block)], [device_write(block)] *)
Definition device_read (p : nat) : M cache unit :=
  b ← get_block p;
  d ← device_read_M (bk_block_no b);
  put_block p (set_bk_data d b).
Definition device_write (p : nat) : M cache unit :=
  b ← get_block p;
  device_write_M (bk_block_no b) (bk_data b).

Definition read_header : M cache unit :=
  d ← device_read_M (log_start sblock);
  modify (set_c_header (decode_LogHeader d)).
Definition write_header : M cache unit :=
  h ← gets c_header;
  device_write_M (log_start sblock) (encode_LogHeader h).

Definition init_block : Block :=
  mkBlock 0 false false false false zero_block.

Definition _get_num_cached_blocks : M cache nat := gets (fun s => length (c_head s)).

Definition get_num_cached_blocks : M cache nat :=
  acquire_lock;;
  count ← _get_num_cached_blocks;
  release_lock;;
  mret count.

(** The scan of [head] in [cache_acquire]: [Some] of the block with number
    [block_no] if it is cached, else the last block that may be evicted. *)
Fixpoint scan (blocks : gmap nat Block) (block_no : Z) (l : list nat) (slot : option nat)
    : option nat :=
  match l with
  | [] => slot
  | p :: l' =>
      match blocks !! p with
      | None => None
      | Some block =>
          if bk_block_no block =? block_no then Some p
          else if negb (bk_acquired block) && negb (bk_pinned block)
               then scan blocks block_no l' (Some p)
               else scan blocks block_no l' slot
      end
  end.

(** [alloc_object(&arena)]: a fresh object. *)
Definition alloc_object : M cache nat :=
  p ← gets c_next;
  modify (set_c_next (S p));;
  mret p.

(** [detach_from_list(&slot->node); merge_list(&head, &slot->node)] *)
Definition move_to_front (p : nat) : M cache unit :=
  modify (fun s => set_c_head (p :: filter (fun q => q <> p) (c_head s)) s).

(** [acquire_sleeplock(&slot->lock)], [release_sleeplock(&block->lock)] *)
Definition acquire_sleeplock (p : nat) : M cache unit :=
  b ← get_block p;
  if bk_locked b : bool then asleep else put_block p (set_bk_locked true b).
Definition release_sleeplock (p : nat) : M cache unit :=
  upd_block p (set_bk_locked false).

(** The part of [cache_acquire] that chooses [slot]: the block itself, an
    evicted one, or a new one. *)
Definition find_slot (block_no : Z) : M cache nat :=
  slot ← gets (fun s => scan (c_blocks s) block_no (c_head s) None);
  slot ← match slot with
         | Some p =>
             b ← get_block p;
             if bk_block_no b =? block_no then mret (Some p)
             else
               count ← _get_num_cached_blocks;
               if decide (EVICTION_THRESHOLD <= count)%nat then
                 put_block p (set_bk_valid false (set_bk_block_no block_no b));;
                 mret (Some p)
               else mret None
         | None => mret None
         end;
  match slot with
  | Some p => mret p
  | None =>
      p ← alloc_object;
      put_block p (set_bk_block_no block_no init_block);;
      mret p
  end.

Definition cache_acquire (block_no : Z) : M cache nat :=
  acquire_lock;;
  slot ← find_slot block_no;
  move_to_front slot;;
  upd_block slot (set_bk_acquired true);;
  release_lock;;
  acquire_sleeplock slot;;
  b ← get_block slot;
  whenM (negb (bk_valid b))
    (device_read slot;; upd_block slot (set_bk_valid true));;
  mret slot.

Definition cache_release (p : nat) : M cache unit :=
  release_sleeplock p;;
  acquire_lock;;
  upd_block p (set_bk_acquired false);;
  release_lock.

Definition cache_begin_op (ctx : nat) : M cache unit :=
  put_ctx ctx (mkOpContext false 0 0 (replicate (Z.to_nat OP_MAX_NUM_BLOCKS) 0));;
  acquire_lock;;
  lg ← gets c_log;
  if log_size lg <? u64 (log_used lg + OP_MAX_NUM_BLOCKS) then asleep
  else
    modify_log (fun lg => set_log_used (u64 (log_used lg + OP_MAX_NUM_BLOCKS)) lg);;
    modify_log (fun lg => set_last_allocated_ts (u64 (last_allocated_ts lg + 1)) lg);;
    ts ← gets (fun s => last_allocated_ts (c_log s));
    o ← get_ctx ctx;
    put_ctx ctx (set_oc_ts ts o);;
    modify_log (fun lg => set_op_count (u64 (op_count lg + 1)) lg);;
    release_lock.

Definition cache_sync (ctx : option nat) (p : nat) : M cache unit :=
  match ctx with
  | Some c =>
      acquire_ctx_lock c;;
      o ← get_ctx c;
      b ← get_block p;
      let num := Z.to_nat (oc_num_blocks o) in
      let i := find_pos (bk_block_no b) (take num (oc_block_no o)) in
      assert_ (Z.of_nat i <? OP_MAX_NUM_BLOCKS);;
      put_ctx c (set_oc_num_blocks
                   (if decide (num <= i)%nat then oc_num_blocks o + 1 else oc_num_blocks o)
                   (set_oc_block_no (<[i := bk_block_no b]> (oc_block_no o)) o));;
      release_ctx_lock c;;
      acquire_lock;;
      upd_block p (set_bk_pinned true);;
      release_lock
  | None => device_write p
  end.

(** The loop of [commit] over the blocks of a context; returns [absorbed]. *)
Fixpoint commit_blocks (bs : list Z) (absorbed : Z) : M cache Z :=
  match bs with
  | [] => mret absorbed
  | block_no :: bs' =>
      h ← gets c_header;
      lg ← gets c_log;
      let num := Z.to_nat (lh_num_blocks h) in
      let j := find_pos block_no (take num (lh_block_no h)) in
      assert_ (Z.of_nat j <? log_size lg);;
      let arr := <[j := block_no]> (lh_block_no h) in
      if decide (j < num)%nat then
        modify (set_c_header (mkLogHeader (lh_num_blocks h) arr));;
        commit_blocks bs' (absorbed + 1)
      else
        modify (set_c_header (mkLogHeader (lh_num_blocks h + 1) arr));;
        commit_blocks bs' absorbed
  end.

Definition commit (ctx : nat) : M cache unit :=
  acquire_ctx_lock ctx;;
  o ← get_ctx ctx;
  absorbed ← commit_blocks (take (Z.to_nat (oc_num_blocks o)) (oc_block_no o)) 0;
  release_ctx_lock ctx;;
  let unused := u64 (OP_MAX_NUM_BLOCKS - oc_num_blocks o) in
  modify_log (fun lg => set_log_used (u64 (log_used lg - u64 (unused + absorbed))) lg).

(** One iteration of the loop of [replay] and of [checkpoint]. *)
Definition replay_one (i : Z) : M cache unit :=
  ls ← gets (fun s => lg_log_start (c_log s));
  h ← gets c_header;
  src ← cache_acquire (ls + i);
  dest ← cache_acquire (lh_block_no h !!! Z.to_nat i);
  sb ← get_block src;
  upd_block dest (set_bk_data (bk_data sb));;
  cache_release src;;
  device_write dest;;
  acquire_lock;;
  upd_block dest (set_bk_pinned false);;
  release_lock;;
  cache_release dest.

Definition replay : M cache unit :=
  n ← gets (fun s => lh_num_blocks (c_header s));
  if n =? 0 then mret tt
  else
    eachM (seqZ 0 n) replay_one;;
    h ← gets c_header;
    modify (set_c_header (mkLogHeader 0 (lh_block_no h)));;
    write_header.

Definition checkpoint_one (i : Z) : M cache unit :=
  h ← gets c_header;
  ls ← gets (fun s => lg_log_start (c_log s));
  src ← cache_acquire (lh_block_no h !!! Z.to_nat i);
  dest ← cache_acquire (ls + i);
  sb ← get_block src;
  upd_block dest (set_bk_data (bk_data sb));;
  cache_release src;;
  device_write dest;;
  cache_release dest.

Definition checkpoint : M cache unit :=
  n ← gets (fun s => lh_num_blocks (c_header s));
  eachM (seqZ 0 n) checkpoint_one;;
  write_header;;
  replay;;
  acquire_lock;;
  modify_log (fun lg => set_last_persisted_ts (last_allocated_ts lg) lg);;
  release_lock.

Definition cache_end_op (ctx : nat) : M cache unit :=
  acquire_lock;;
  commit ctx;;
  modify_log (fun lg => set_op_count (u64 (op_count lg - 1)) lg);;
  lg ← gets c_log;
  let do_checkpoint := op_count lg =? 0 in
  let log_size_copy := log_size lg in
  (if do_checkpoint : bool then modify_log (set_log_size 0)
   else
     o ← get_ctx ctx;
     if last_persisted_ts lg <? oc_ts o then asleep else mret tt);;
  release_lock;;
  whenM do_checkpoint
    (checkpoint;;
     acquire_lock;;
     modify_log (set_log_size log_size_copy);;
     modify_log (set_log_used 0);;
     release_lock).

(** [init_bcache]: the statics are reset, the header is read and replayed. *)
Definition init_cache (d : Device) : cache :=
  mkCache d ∅ 0 [] false (mkLogHeader 0 (replicate 63 0)) (mkLogState 0 0 0 0 0 0)
          (replicate (Z.to_nat NGROUPS) 0) ∅.

Definition init_bcache : M cache unit :=
  modify (fun s => set_c_lock false (set_c_blocks ∅ (set_c_head [] s)));;
  modify_log (fun lg =>
    mkLogState 0 0 (u32 (log_start sblock + 1))
               (Z.min (u32 (num_log_blocks sblock - 1)) LOG_MAX_SIZE) 0 0);;
  read_header;;
  replay.

(** ** Allocation of blocks *)

(** [block->data] cast to an array of [BitmapCell], and storing through that
    pointer. *)
Definition bitmap_of (data : list Z) : list Z := words 8 64 data.
Definition of_bitmap (cells : list Z) : list Z := unwords 8 cells.

(** [used_block[h]++], [used_block[h]--]; the array has [NGROUPS] elements. *)
Definition add_used (h : Z) (d : Z) : M cache unit :=
  ub ← gets c_used_block;
  assert_ ((0 <=? h) && (h <? NGROUPS));;
  modify (set_c_used_block (<[Z.to_nat h := u32 (ub !!! Z.to_nat h + d)]> ub)).

(** The body common to [cache_alloc] and [cache_allocg] once bit [j] of the
    bitmap in [block] is found clear: take the bit, zero block [data_no]. *)
Definition take_bit (ctx : option nat) (block : nat) (j : Z) (data_no : Z) (h : Z) : M cache Z :=
  upd_block block (fun b => set_bk_data (of_bitmap (bitmap_set (bitmap_of (bk_data b)) j)) b);;
  cache_sync ctx block;;
  cache_release block;;
  p ← cache_acquire data_no;
  upd_block p (set_bk_data zero_block);;
  cache_sync ctx p;;
  cache_release p;;
  add_used h 1;;
  mret data_no.

(** Number of iterations of [for (i = 0; i < n; i += BIT_PER_BLOCK)]. *)
Definition bitmap_blocks (n : Z) : nat := Z.to_nat ((n + BIT_PER_BLOCK - 1) / BIT_PER_BLOCK).

Definition cache_alloc (ctx : option nat) : M cache Z :=
  r ← forM (Z.to_nat (num_groups sblock)) 0 1 (fun h =>
        forM (bitmap_blocks (blocks_per_group sblock)) 0 BIT_PER_BLOCK (fun i =>
          let block_no := u64 (bg_start sblock + h * blocks_per_group sblock +
                               bitmap_start_per_group sblock + i / BIT_PER_BLOCK) in
          block ← cache_acquire block_no;
          b ← get_block block;
          let bitmap := bitmap_of (bk_data b) in
          r ← forM (Z.to_nat (Z.min BIT_PER_BLOCK (blocks_per_group sblock - i))) 0 1 (fun j =>
                if bitmap_get bitmap j then mret None
                else
                  n ← take_bit ctx block j
                        (u64 (bg_start sblock + h * blocks_per_group sblock + i + j)) h;
                  mret (Some n));
          match r with
          | Some n => mret (Some n)
          | None => cache_release block;; mret None
          end));
  match r with
  | Some n => mret n
  | None => panic
  end.

(** In [cache_allocg] the group number is a [u32], so the block number is
    computed in 32 bits before [i] is added, and the inner loop compares [j]
    (not [i + j]) with [blocks_per_group]. *)
Definition cache_allocg (ctx : option nat) (gno : Z) : M cache Z :=
  assert_ (gno <? NGROUPS);;
  r ← forM (bitmap_blocks (blocks_per_group sblock)) 0 BIT_PER_BLOCK (fun i =>
        let block_no := u64 (u32 (bg_start sblock + bitmap_start_per_group sblock +
                                  gno * blocks_per_group sblock) + i / BIT_PER_BLOCK) in
        block ← cache_acquire block_no;
        b ← get_block block;
        let bitmap := bitmap_of (bk_data b) in
        r ← forM (Z.to_nat (Z.min BIT_PER_BLOCK (blocks_per_group sblock))) 0 1 (fun j =>
              if bitmap_get bitmap j then mret None
              else
                n ← take_bit ctx block j
                      (u64 (u32 (bg_start sblock + gno * blocks_per_group sblock) + i + j)) gno;
                mret (Some n));
        match r with
        | Some n => mret (Some n)
        | None => cache_release block;; mret None
        end);
  mret (default 0 r).

Definition cache_free (ctx : option nat) (block_no : Z) : M cache unit :=
  let h := u64 (block_no - bg_start sblock) / blocks_per_group sblock in
  let off := u64 (block_no - bg_start sblock) mod blocks_per_group sblock in
  let i := off / BIT_PER_BLOCK in
  let j := off mod BIT_PER_BLOCK in
  block ← cache_acquire (u64 (bg_start sblock + h * blocks_per_group sblock +
                              bitmap_start_per_group sblock + i));
  b ← get_block block;
  let bitmap := bitmap_of (bk_data b) in
  assert_ (bitmap_get bitmap j);;
  put_block block (set_bk_data (of_bitmap (bitmap_clear bitmap j)) b);;
  add_used h (-1);;
  cache_sync ctx block;;
  cache_release block.

End cache.
End Cache.
