(* ===== verification/CacheFacts.v ===== *)
(** * Facts about the block cache

    The invariant of the cache, the logical content [view] of a block (its
    cached data if it is valid, else the device's), and what [cache_acquire],
    [cache_release], [cache_sync] and stores through [block->data] do to them. *)
From S2P Require Import Prelude Bitmap FsDefines Cache.

Module CacheFacts.
Import Cache.

Implicit Types (s : cache) (n m : Z) (p q : nat) (b : Block).

Definition dev_read s n : list Z := disk_read (dv_disk (c_dev s)) n.

(** The cached block with number [n], scanning the list as the code does. *)
Fixpoint lookup_in (blocks : gmap nat Block) n (l : list nat) : option Block :=
  match l with
  | [] => None
  | p :: l' =>
      match blocks !! p with
      | Some b => if bk_block_no b =? n then Some b else lookup_in blocks n l'
      | None => lookup_in blocks n l'
      end
  end.

Definition cached s n : option Block := lookup_in (c_blocks s) n (c_head s).

Definition view s n : list Z :=
  match cached s n with
  | Some b => if bk_valid b then bk_data b else dev_read s n
  | None => dev_read s n
  end.

Definition is_locked s n : bool := if cached s n is Some b then bk_locked b else false.
Definition is_pinned s n : bool := if cached s n is Some b then bk_pinned b else false.

(** Neither held by a thread nor waiting for the log: [cache_acquire] may evict it. *)
Definition evictable b : bool := negb (bk_acquired b) && negb (bk_pinned b).

Record cache_inv s : Prop := {
  ci_head : forall p, p ∈ c_head s <-> is_Some (c_blocks s !! p);
  ci_nodup : NoDup (c_head s);
  ci_next : forall p, is_Some (c_blocks s !! p) -> (p < c_next s)%nat;
  ci_inj : forall p q b b', c_blocks s !! p = Some b -> c_blocks s !! q = Some b' ->
             bk_block_no b = bk_block_no b' -> p = q;
  ci_coh : forall p b, c_blocks s !! p = Some b -> evictable b = true -> bk_valid b = true ->
             bk_data b = dev_read s (bk_block_no b);
  ci_held : forall p b, c_blocks s !! p = Some b -> bk_locked b = bk_acquired b;
  ci_valid : forall p b, c_blocks s !! p = Some b -> evictable b = false -> bk_valid b = true;
  ci_len : forall p b, c_blocks s !! p = Some b -> length (bk_data b) = bsize;
  ci_dlen : forall n, length (dev_read s n) = bsize;
  ci_lock : c_lock s = false
}.

(** *** [cached] and [view] *)
Lemma lookup_in_Some blocks n l b :
  lookup_in blocks n l = Some b -> exists p, p ∈ l /\ blocks !! p = Some b /\ bk_block_no b = n.
Proof.
  induction l as [|p l IH]; simpl; [done|].
  destruct (blocks !! p) as [b'|] eqn:E.
  - destruct (Z.eqb_spec (bk_block_no b') n).
    + intros [= ->]. exists p. split_and!; [by left|done|done].
    + intros (q & ? & ? & ?)%IH. exists q. split_and!; [by right|done|done].
  - intros (q & ? & ? & ?)%IH. exists q. split_and!; [by right|done|done].
Qed.

Lemma lookup_in_None blocks n l :
  (forall p b, p ∈ l -> blocks !! p = Some b -> bk_block_no b <> n) -> lookup_in blocks n l = None.
Proof.
  intros H. destruct (lookup_in blocks n l) as [b|] eqn:E; [|done].
  destruct (lookup_in_Some _ _ _ _ E) as (p & Hp & Hb & Hn). by destruct (H p b).
Qed.

Lemma lookup_in_is_Some blocks n l p b :
  p ∈ l -> blocks !! p = Some b -> bk_block_no b = n -> is_Some (lookup_in blocks n l).
Proof.
  intros Hp Hb Hn. induction l as [|q l IH]; [by apply not_elem_of_nil in Hp|]. simpl.
  apply elem_of_cons in Hp as [->|Hp].
  - rewrite Hb, Hn, Z.eqb_refl. eauto.
  - destruct (blocks !! q); [destruct (_ =? _)|]; eauto.
Qed.

Lemma cached_Some s n b :
  cached s n = Some b -> exists p, c_blocks s !! p = Some b /\ bk_block_no b = n.
Proof. intros (p & _ & ? & ?)%lookup_in_Some. eauto. Qed.

Lemma cached_lookup s p b :
  cache_inv s -> c_blocks s !! p = Some b -> cached s (bk_block_no b) = Some b.
Proof.
  intros Hi Hp.
  destruct (lookup_in_is_Some (c_blocks s) (bk_block_no b) (c_head s) p b) as [b' Hb']; auto.
  { apply (ci_head _ Hi). eauto. }
  unfold cached. rewrite Hb'. f_equal.
  destruct (lookup_in_Some _ _ _ _ Hb') as (q & _ & Hq & Hno).
  assert (q = p) as -> by (eapply (ci_inj _ Hi); eauto). congruence.
Qed.

Lemma cached_iff s n b :
  cache_inv s -> cached s n = Some b <-> exists p, c_blocks s !! p = Some b /\ bk_block_no b = n.
Proof.
  intros Hi. split; [apply cached_Some|]. intros (p & Hp & <-). by eapply cached_lookup.
Qed.

Lemma cached_None s n :
  cached s n = None <-> (forall p b, p ∈ c_head s -> c_blocks s !! p = Some b -> bk_block_no b <> n).
Proof.
  split; [|apply lookup_in_None].
  intros Hc p b Hp Hb Hn.
  destruct (lookup_in_is_Some _ n _ _ _ Hp Hb Hn) as [b' Hb']. unfold cached in Hc. congruence.
Qed.

Lemma cached_no s n b : cached s n = Some b -> bk_block_no b = n.
Proof. intros (p & _ & ?)%cached_Some. done. Qed.

Lemma view_of s n b : cached s n = Some b -> bk_valid b = true -> view s n = bk_data b.
Proof. unfold view. by intros -> ->. Qed.

Lemma view_miss s n : cached s n = None -> view s n = dev_read s n.
Proof. unfold view. by intros ->. Qed.

Lemma length_view s n : cache_inv s -> length (view s n) = bsize.
Proof.
  intros Hi. unfold view. destruct (cached s n) as [b|] eqn:E; [|apply Hi].
  destruct (bk_valid b); [|apply Hi].
  destruct (cached_Some _ _ _ E) as (p & ? & ?). by eapply ci_len.
Qed.

(** *** The scan of [cache_acquire] *)
Lemma scan_spec blocks n l slot :
  (forall p, p ∈ l -> is_Some (blocks !! p)) ->
  (exists p b, p ∈ l /\ blocks !! p = Some b /\ bk_block_no b = n /\
     scan blocks n l slot = Some p) \/
  ((forall p b, p ∈ l -> blocks !! p = Some b -> bk_block_no b <> n) /\
   (scan blocks n l slot = slot \/
    exists p b, p ∈ l /\ blocks !! p = Some b /\ evictable b = true /\
      scan blocks n l slot = Some p)).
Proof.
  revert slot. induction l as [|p l IH]; intros slot Hl; simpl.
  - right. split; [by intros ?? ?%not_elem_of_nil|by left].
  - destruct (Hl p ltac:(by left)) as [b Hb]. rewrite Hb.
    destruct (Z.eqb_spec (bk_block_no b) n) as [Hn|Hn].
    { left. exists p, b. split_and!; [by left|done..]. }
    assert (forall q, q ∈ l -> is_Some (blocks !! q)) as Hl' by (intros; apply Hl; by right).
    fold (evictable b).
    destruct (evictable b) eqn:Ev;
      [destruct (IH (Some p) Hl') as [(q & bq & ? & ? & ? & ?)|(Hno & Hr)]
      |destruct (IH slot Hl') as [(q & bq & ? & ? & ? & ?)|(Hno & Hr)]].
    + left. exists q, bq. split_and!; [by right|done..].
    + right. split.
      * intros q bq [->|Hq]%elem_of_cons Hbq; [congruence|by eapply Hno].
      * right. destruct Hr as [->|(q & bq & ? & ? & ? & ->)].
        -- exists p, b. split_and!; [by left|done..].
        -- exists q, bq. split_and!; [by right|done..].
    + left. exists q, bq. split_and!; [by right|done..].
    + right. split.
      * intros q bq [->|Hq]%elem_of_cons Hbq; [congruence|by eapply Hno].
      * destruct Hr as [->|(q & bq & ? & ? & ? & ->)]; [by left|].
        right. exists q, bq. split_and!; [by right|done..].
Qed.

(** *** Weakest preconditions of the primitives *)
Lemma wp_get_block p b (Q : Block -> cache -> Prop) s :
  c_blocks s !! p = Some b -> Q b s -> wp (get_block p) Q s.
Proof. intros Hb HQ. apply wp_bind, wp_gets. by rewrite Hb. Qed.

Lemma wp_put_block p b (Q : unit -> cache -> Prop) s :
  Q tt (set_c_blocks (<[p := b]> (c_blocks s)) s) -> wp (put_block p b) Q s.
Proof. done. Qed.

Lemma wp_upd_block p b f (Q : unit -> cache -> Prop) s :
  c_blocks s !! p = Some b -> Q tt (set_c_blocks (<[p := f b]> (c_blocks s)) s) ->
  wp (upd_block p f) Q s.
Proof. intros Hb HQ. apply wp_bind. by apply (wp_get_block _ b). Qed.

Lemma wp_acquire_lock (Q : unit -> cache -> Prop) s :
  c_lock s = false -> Q tt (set_c_lock true s) -> wp acquire_lock Q s.
Proof. intros H HQ. apply wp_bind, wp_gets. rewrite H. by apply wp_bind, wp_assert. Qed.

Lemma wp_release_lock (Q : unit -> cache -> Prop) s :
  c_lock s = true -> Q tt (set_c_lock false s) -> wp release_lock Q s.
Proof. intros H HQ. apply wp_bind, wp_gets. rewrite H. by apply wp_bind, wp_assert. Qed.

(** *** [cache_acquire] *)

(** How the slot for block [n] is found: it is cached, or an evictable block
    is reused once [EVICTION_THRESHOLD] blocks are cached, or a new one is
    allocated.  [pin] is the [pinned] flag the slot keeps and [nx] the next
    fresh object afterwards. *)
Inductive acq_case s n : nat -> bool -> nat -> Prop :=
| AcqHit p b :
    c_blocks s !! p = Some b -> bk_block_no b = n ->
    acq_case s n p (bk_pinned b) (c_next s)
| AcqEvict p b :
    cached s n = None -> c_blocks s !! p = Some b -> evictable b = true ->
    (EVICTION_THRESHOLD <= length (c_head s))%nat ->
    acq_case s n p false (c_next s)
| AcqNew :
    cached s n = None -> acq_case s n (c_next s) false (S (c_next s)).

Definition acq_block n (pin : bool) (d : list Z) : Block := mkBlock n true pin true true d.

Definition acquired_state s p b nx : cache :=
  mkCache (c_dev s) (<[p := b]> (c_blocks s)) nx (p :: filter (fun q => q <> p) (c_head s))
          false (c_header s) (c_log s) (c_used_block s) (c_ctxs s).

Lemma evictable_flags b :
  evictable b = true -> bk_acquired b = false /\ bk_pinned b = false.
Proof. unfold evictable. destruct (bk_acquired b), (bk_pinned b); done. Qed.

Lemma find_slot_ok s n (Q : nat -> cache -> Prop) :
  cache_inv s ->
  (forall p pin nx b0 blocks0,
     acq_case s n p pin nx ->
     bk_block_no b0 = n -> bk_pinned b0 = pin ->
     bk_locked b0 = is_locked s n ->
     (bk_valid b0 = true -> cached s n = Some b0) ->
     (bk_valid b0 = false -> view s n = dev_read s n) ->
     <[p := b0]> (c_blocks s) = blocks0 ->
     Q p (mkCache (c_dev s) blocks0 nx (c_head s) true (c_header s) (c_log s)
            (c_used_block s) (c_ctxs s))) ->
  wp (find_slot n) Q (set_c_lock true s).
Proof.
  intros Hi HQ. unfold find_slot. apply wp_bind, wp_gets. simpl.
  destruct (scan_spec (c_blocks s) n (c_head s) None) as [(p & b & Hp & Hb & Hn & ->)|(Hno & Hr)].
  { intros p. apply Hi. }
  - apply wp_bind, wp_bind, (wp_get_block _ b); [done|]. rewrite Hn, Z.eqb_refl.
    apply wp_ret, wp_ret. pose proof (cached_lookup _ _ _ Hi Hb) as Hc. rewrite Hn in Hc.
    apply (HQ p (bk_pinned b) (c_next s) b); auto.
    + by constructor.
    + unfold is_locked. by rewrite Hc.
    + unfold view. rewrite Hc. by intros ->.
    + by apply insert_id.
  - apply cached_None in Hno.
    assert (Hl : is_locked s n = false) by (unfold is_locked; by rewrite Hno).
    assert (Hnew : wp (p ← alloc_object; put_block p (set_bk_block_no n init_block);; mret p) Q
                      (set_c_lock true s)).
    { apply wp_bind, wp_bind, wp_gets, wp_bind, wp_modify, wp_ret, wp_bind, wp_put_block, wp_ret.
      apply (HQ (c_next s) false (S (c_next s)) (set_bk_block_no n init_block)); auto.
      - by constructor.
      - done.
      - by intros _; apply view_miss. }
    destruct Hr as [->|(p & b & Hp & Hb & He & ->)]; [done|].
    apply wp_bind, wp_bind, (wp_get_block _ b); [done|].
    assert (bk_block_no b <> n) as Hne by (apply (proj1 (cached_None s n) Hno p b); auto).
    rewrite (proj2 (Z.eqb_neq _ _)) by done.
    apply wp_bind, wp_gets. simpl. case_decide; [|by apply wp_ret].
    apply wp_bind, wp_put_block, wp_ret, wp_ret. simpl.
    destruct (evictable_flags _ He) as [Ha Hpin].
    apply (HQ p false (c_next s) (set_bk_valid false (set_bk_block_no n b))); auto.
    + by eapply AcqEvict.
    + simpl. rewrite Hl, <- Ha. by eapply ci_held.
    + done.
    + by intros _; apply view_miss.
Qed.

Lemma cache_acquire_ok s n :
  cache_inv s -> is_locked s n = false ->
  exists p pin nx, acq_case s n p pin nx /\
    cache_acquire n s = Ok (p, acquired_state s p (acq_block n pin (view s n)) nx).
Proof.
  intros Hi Hl.
  assert (wp (cache_acquire n) (fun p s' => exists pin nx, acq_case s n p pin nx /\
            s' = acquired_state s p (acq_block n pin (view s n)) nx) s) as Hwp.
  { unfold cache_acquire. apply wp_bind, wp_acquire_lock; [apply Hi|].
    apply wp_bind, find_slot_ok; [done|]. intros p pin nx b0 ? Hcase Hn Hpin Hlk Hv1 Hv2 <-.
    apply wp_bind, wp_modify, wp_bind. simpl.
    eapply wp_upd_block; [simpl; apply lookup_insert_eq|]. simpl. rewrite insert_insert_eq.
    apply wp_bind, wp_release_lock; [done|]. simpl.
    apply wp_bind. unfold acquire_sleeplock.
    apply wp_bind. eapply wp_get_block; [simpl; apply lookup_insert_eq|]. simpl.
    rewrite Hlk, Hl. apply wp_put_block. simpl. rewrite insert_insert_eq.
    apply wp_bind. eapply wp_get_block; [simpl; apply lookup_insert_eq|]. simpl.
    apply wp_bind. destruct (bk_valid b0) eqn:Ev; simpl.
    - do 2 apply wp_ret. exists pin, nx. split; [done|].
      unfold acquired_state, acq_block. simpl. f_equal. f_equal.
      rewrite (view_of s n b0) by auto. destruct b0; simpl in *; by subst.
    - apply wp_bind. unfold device_read.
      apply wp_bind. eapply wp_get_block; [simpl; apply lookup_insert_eq|]. simpl.
      apply wp_bind, wp_gets, wp_put_block. simpl. rewrite insert_insert_eq.
      eapply wp_upd_block; [simpl; apply lookup_insert_eq|]. simpl. rewrite insert_insert_eq.
      apply wp_ret. exists pin, nx. split; [done|].
      unfold acquired_state, acq_block. simpl. f_equal. f_equal.
      rewrite Hv2 by done. destruct b0; simpl in *; by subst. }
  apply wp_ok in Hwp as (p & s' & Heq & pin & nx & Hc & ->). eauto.
Qed.

(** *** Replacing one block

    Every operation changes one [Block] object [p] (and perhaps the device):
    the invariant is preserved if the new object is well-formed and no other
    object has its number. *)
Record block_ok (dev : Z -> list Z) b : Prop := {
  bo_coh : evictable b = true -> bk_valid b = true -> bk_data b = dev (bk_block_no b);
  bo_held : bk_locked b = bk_acquired b;
  bo_valid : evictable b = false -> bk_valid b = true;
  bo_len : length (bk_data b) = bsize
}.

Lemma inv_update s s' p b' :
  cache_inv s ->
  c_blocks s' = <[p := b']> (c_blocks s) ->
  (forall q, q ∈ c_head s' <-> q = p \/ q ∈ c_head s) -> NoDup (c_head s') ->
  (p < c_next s')%nat -> (c_next s <= c_next s')%nat -> c_lock s' = false ->
  (forall q b, q <> p -> c_blocks s !! q = Some b -> bk_block_no b <> bk_block_no b') ->
  block_ok (dev_read s') b' ->
  (forall q b, q <> p -> c_blocks s !! q = Some b -> evictable b = true -> bk_valid b = true ->
     dev_read s' (bk_block_no b) = dev_read s (bk_block_no b)) ->
  (forall n, length (dev_read s' n) = bsize) ->
  cache_inv s'.
Proof.
  intros Hi Hbl Hhead Hnd Hp Hnx Hlk Hno Hok Hdev Hdl. split; try done.
  - intros q. rewrite Hhead, Hbl, lookup_insert_is_Some', (ci_head _ Hi). naive_solver.
  - intros q. rewrite Hbl. destruct (decide (p = q)) as [<-|Hq]; [done|].
    rewrite lookup_insert_ne by done. intros Hs. pose proof (ci_next _ Hi _ Hs). lia.
  - intros q1 q2 b1 b2. rewrite Hbl.
    destruct (decide (p = q1)) as [<-|], (decide (p = q2)) as [<-|];
      rewrite ?lookup_insert_eq, ?lookup_insert_ne by done.
    + done.
    + intros [= <-] H2 He. by destruct (Hno q2 b2).
    + intros H1 [= <-] He. by destruct (Hno q1 b1).
    + by apply Hi.
  - intros q b. rewrite Hbl. destruct (decide (p = q)) as [<-|Hq].
    + rewrite lookup_insert_eq. intros [= <-]. apply Hok.
    + rewrite lookup_insert_ne by done. intros Hb He Hv.
      rewrite (Hdev q b) by done. by apply (ci_coh _ Hi q).
  - intros q b. rewrite Hbl. destruct (decide (p = q)) as [<-|Hq].
    + rewrite lookup_insert_eq. intros [= <-]. apply Hok.
    + rewrite lookup_insert_ne by done. by apply Hi.
  - intros q b. rewrite Hbl. destruct (decide (p = q)) as [<-|Hq].
    + rewrite lookup_insert_eq. intros [= <-]. apply Hok.
    + rewrite lookup_insert_ne by done. by apply Hi.
  - intros q b. rewrite Hbl. destruct (decide (p = q)) as [<-|Hq].
    + rewrite lookup_insert_eq. intros [= <-]. apply Hok.
    + rewrite lookup_insert_ne by done. by apply Hi.
Qed.

Lemma cached_update s s' p b' m :
  cache_inv s -> cache_inv s' -> c_blocks s' = <[p := b']> (c_blocks s) ->
  cached s' m =
    if decide (bk_block_no b' = m) then Some b'
    else match c_blocks s !! p with
         | Some b0 => if decide (bk_block_no b0 = m) then None else cached s m
         | None => cached s m
         end.
Proof.
  intros Hi Hi' Hbl. apply option_eq. intros b. rewrite (cached_iff s') by done. rewrite Hbl.
  split.
  - intros (q & Hq & Hn). destruct (decide (p = q)) as [<-|Hpq].
    + rewrite lookup_insert_eq in Hq. simplify_eq. by rewrite decide_True.
    + rewrite lookup_insert_ne in Hq by done. rewrite decide_False.
      2: { intros He. apply Hpq. eapply (ci_inj _ Hi' p q b' b); rewrite ?Hbl;
           rewrite ?lookup_insert_eq, ?lookup_insert_ne by done; congruence. }
      destruct (c_blocks s !! p) as [b0|] eqn:Hp; [rewrite decide_False|];
        [apply cached_iff; eauto| |apply cached_iff; eauto].
      intros He. apply Hpq. eapply (ci_inj _ Hi p q); eauto. congruence.
  - case_decide as Hd; [intros [= <-]; exists p; by rewrite lookup_insert_eq|].
    intros Hc. assert (cached s m = Some b) as Hc'.
    { destruct (c_blocks s !! p); [case_decide|]; done. }
    apply (cached_iff _ _ _ Hi) in Hc' as (q & Hq & Hn).
    exists q. split; [|done]. rewrite lookup_insert_ne; [done|].
    intros <-. rewrite Hq in Hc. by rewrite decide_True in Hc.
Qed.

(** What an operation leaves alone. *)
Definition same_log s s' : Prop :=
  c_header s' = c_header s /\ c_log s' = c_log s.
Definition same_rest s s' : Prop :=
  same_log s s' /\ c_used_block s' = c_used_block s /\ c_ctxs s' = c_ctxs s.

Lemma acq_case_spec s n p pin nx :
  cache_inv s -> acq_case s n p pin nx ->
  pin = is_pinned s n /\ (p < nx)%nat /\ (c_next s <= nx)%nat /\
  (forall q b, q <> p -> c_blocks s !! q = Some b -> bk_block_no b <> n) /\
  (forall b, c_blocks s !! p = Some b -> bk_block_no b = n \/
     (cached s n = None /\ evictable b = true)).
Proof.
  intros Hi [q b Hq Hn|q b Hc Hq He _|Hc]; split_and!.
  - pose proof (cached_lookup _ _ _ Hi Hq) as Hc. unfold is_pinned. by rewrite <- Hn, Hc.
  - apply (ci_next _ Hi). eauto.
  - done.
  - intros q' b' Hne Hq' Hn'. apply Hne. eapply (ci_inj _ Hi q' q); eauto. congruence.
  - intros b' Hb'. simplify_eq. by left.
  - unfold is_pinned. by rewrite Hc.
  - apply (ci_next _ Hi). eauto.
  - done.
  - intros q' b' Hne Hq'. apply (proj1 (cached_None s n) Hc q'); [|done]. apply (ci_head _ Hi). eauto.
  - intros b' Hb'. simplify_eq. by right.
  - unfold is_pinned. by rewrite Hc.
  - lia.
  - lia.
  - intros q' b' Hne Hq'. apply (proj1 (cached_None s n) Hc q'); [|done]. apply (ci_head _ Hi). eauto.
  - intros b Hb. assert (c_next s < c_next s)%nat; [|lia]. apply (ci_next _ Hi). eauto.
Qed.

(** The cache after [cache_acquire]: the invariant, and what each number finds. *)
Lemma acquired_state_inv s n p pin nx :
  cache_inv s -> acq_case s n p pin nx ->
  cache_inv (acquired_state s p (acq_block n (is_pinned s n) (view s n)) nx).
Proof.
  intros Hi Hcase. destruct (acq_case_spec _ _ _ _ _ Hi Hcase) as (_ & Hp & Hnx & Hno & Hold).
  set (b' := acq_block n (is_pinned s n) (view s n)). set (s' := acquired_state s p b' nx).
  apply (inv_update s s' p b'); auto.
  - intros q. simpl. rewrite elem_of_cons, list_elem_of_filter. destruct (decide (q = p)); naive_solver.
  - simpl. constructor; [|by apply NoDup_filter, Hi].
    rewrite list_elem_of_filter. naive_solver.
  - split; simpl; try done. by apply length_view.
  - apply Hi.
Qed.

Lemma acquired_state_cached s n p pin nx m :
  cache_inv s -> acq_case s n p pin nx ->
  let b' := acq_block n (is_pinned s n) (view s n) in
  cached (acquired_state s p b' nx) m = if decide (m = n) then Some b' else
    match cached s m with
    | Some b => if decide (c_blocks s !! p = Some b) then None else Some b
    | None => None
    end.
Proof.
  intros Hi Hcase b'. destruct (acq_case_spec _ _ _ _ _ Hi Hcase) as (_ & Hp & Hnx & Hno & Hold).
  pose proof (acquired_state_inv s n p pin nx Hi Hcase) as Hi'.
  fold b' in Hi'. set (s' := acquired_state s p b' nx) in *.
  rewrite (cached_update s s' p b' m Hi Hi') by done. simpl.
  destruct (decide (n = m)) as [<-|Hnm]; [by rewrite decide_True|].
  rewrite (decide_False (P := m = n)) by done.
  destruct (cached s m) as [b|] eqn:Em.
  - destruct (c_blocks s !! p) as [b0|] eqn:Hb0; [|by rewrite decide_False].
    destruct (decide (bk_block_no b0 = m)) as [<-|Hb0m].
    + rewrite (cached_lookup _ _ _ Hi Hb0) in Em. simplify_eq. by rewrite decide_True.
    + rewrite decide_False; [done|]. intros [= ->]. by apply Hb0m, (cached_no s).
  - destruct (c_blocks s !! p); [case_decide|]; done.
Qed.

Lemma cache_acquire_spec s n (Q : nat -> cache -> Prop) :
  cache_inv s -> is_locked s n = false ->
  (forall p s',
     cache_inv s' ->
     c_blocks s' !! p = Some (acq_block n (is_pinned s n) (view s n)) ->
     (forall m, view s' m = view s m) ->
     (forall m, is_pinned s' m = is_pinned s m) ->
     (forall m, is_locked s' m = bool_decide (m = n) || is_locked s m) ->
     (forall q b, c_blocks s !! q = Some b -> evictable b = false -> bk_block_no b <> n ->
        q <> p /\ c_blocks s' !! q = Some b) ->
     (forall m, m <> n -> cached s m = None -> cached s' m = None) ->
     (forall q, q <> p -> c_blocks s' !! q = c_blocks s !! q) ->
     (forall b, c_blocks s !! p = Some b -> bk_acquired b = false) ->
     c_dev s' = c_dev s -> same_rest s s' -> Q p s') ->
  wp (cache_acquire n) Q s.
Proof.
  intros Hi Hl HQ. destruct (cache_acquire_ok s n Hi Hl) as (p & pin & nx & Hcase & Heq).
  destruct (acq_case_spec _ _ _ _ _ Hi Hcase) as (-> & Hp & Hnx & Hno & Hold).
  unfold wp. rewrite Heq.
  pose proof (acquired_state_inv _ _ _ _ _ Hi Hcase) as Hi'.
  pose proof (fun m => acquired_state_cached _ _ _ _ _ m Hi Hcase) as Hc'. simpl in Hc'.
  set (b' := acq_block n (is_pinned s n) (view s n)) in *.
  set (s' := acquired_state s p b' nx) in *.
  assert (Hev : forall m b, m <> n -> cached s m = Some b -> c_blocks s !! p = Some b ->
            evictable b = true).
  { intros m b Hm Em Hb. pose proof (cached_no _ _ _ Em). destruct (Hold _ Hb) as [|[_ ?]]; congruence. }
  apply HQ; auto.
  - apply lookup_insert_eq.
  - intros m. unfold view at 1. rewrite Hc'. case_decide as Hm; [by subst|].
    unfold view. change (dev_read s' m) with (dev_read s m).
    destruct (cached s m) as [b|] eqn:Em; [|done]. case_decide as Hb; [|done].
    destruct (bk_valid b) eqn:Ev; [|done].
    rewrite (ci_coh _ Hi p b) by eauto. by rewrite (cached_no _ _ _ Em).
  - intros m. unfold is_pinned at 1. rewrite Hc'. case_decide as Hm; [by subst|].
    unfold is_pinned. destruct (cached s m) as [b|] eqn:Em; [|done]. case_decide as Hb; [|done].
    destruct (evictable_flags b) as [_ ->]; eauto.
  - intros m. unfold is_locked at 1. rewrite Hc'. case_decide as Hm.
    { rewrite bool_decide_true by done. done. }
    rewrite bool_decide_false by done. simpl.
    unfold is_locked. destruct (cached s m) as [b|] eqn:Em; [|done]. case_decide as Hb; [|done].
    rewrite (ci_held _ Hi p b) by done. destruct (evictable_flags b) as [-> _]; eauto.
  - intros q b Hq He Hn.
    assert (q <> p). { intros ->. destruct (Hold _ Hq) as [|[_ ?]]; congruence. }
    split; [done|]. simpl. by rewrite lookup_insert_ne.
  - intros m Hm Em. rewrite Hc', decide_False, Em by done. done.
  - intros q Hq. simpl. by rewrite lookup_insert_ne.
  - intros b Hb. destruct (Hold b Hb) as [Hn|[_ He]]; [|by destruct (evictable_flags _ He)].
    rewrite <- (ci_held _ Hi p b Hb). unfold is_locked in Hl.
    pose proof (cached_lookup _ _ _ Hi Hb) as E. rewrite Hn in E. by rewrite E in Hl.
  - done.
Qed.

(** *** Blocks held by the running thread *)
Definition held s p b : Prop := c_blocks s !! p = Some b /\ bk_acquired b = true.

Lemma held_not_evictable s p b : held s p b -> evictable b = false.
Proof. intros [_ H]. unfold evictable. by rewrite H. Qed.

Lemma held_locked s p b : cache_inv s -> held s p b -> is_locked s (bk_block_no b) = true.
Proof.
  intros Hi [Hp Ha]. unfold is_locked. rewrite (cached_lookup _ _ _ Hi Hp).
  by rewrite (ci_held _ Hi _ _ Hp).
Qed.

Lemma held_view s p b : cache_inv s -> held s p b -> view s (bk_block_no b) = bk_data b.
Proof.
  intros Hi Hh. pose proof Hh as [Hp _]. unfold view. rewrite (cached_lookup _ _ _ Hi Hp).
  by rewrite (ci_valid _ Hi _ _ Hp (held_not_evictable _ _ _ Hh)).
Qed.

(** An unpinned block no thread holds has its device's content. *)
Lemma view_clean s n :
  cache_inv s -> is_locked s n = false -> is_pinned s n = false -> view s n = dev_read s n.
Proof.
  intros Hi Hl Hp. unfold view, is_locked, is_pinned in *.
  destruct (cached s n) as [b|] eqn:E; [|done]. destruct (bk_valid b) eqn:Ev; [|done].
  destruct (cached_Some _ _ _ E) as (p & Hb & <-). apply (ci_coh _ Hi p b); auto.
  unfold evictable. by rewrite <- (ci_held _ Hi p b), Hl, Hp by done.
Qed.

(** The effect of replacing a held block [b] by [b'] (and perhaps writing its
    device block): only the block's own number is affected. *)
Definition upd_state s dev p b' : cache :=
  mkCache dev (<[p := b']> (c_blocks s)) (c_next s) (c_head s) (c_lock s)
          (c_header s) (c_log s) (c_used_block s) (c_ctxs s).

Lemma held_update s dev p b b' :
  cache_inv s -> held s p b -> bk_block_no b' = bk_block_no b ->
  let s' := upd_state s dev p b' in
  block_ok (dev_read s') b' ->
  (forall m, m <> bk_block_no b -> dev_read s' m = dev_read s m) ->
  length (dev_read s' (bk_block_no b)) = bsize ->
  cache_inv s' /\
  forall m, cached s' m = if decide (m = bk_block_no b) then Some b' else cached s m.
Proof.
  intros Hi Hh Hn s' Hok Hdev Hdl. pose proof Hh as [Hp Ha].
  assert (Hi' : cache_inv s').
  { apply (inv_update s s' p b'); auto.
    - intros q. split; [by right|]. intros [->|]; [|done]. apply (ci_head _ Hi). eauto.
    - apply Hi.
    - apply (ci_next _ Hi). eauto.
    - apply Hi.
    - intros q bq Hq Hbq. rewrite Hn. intros He. apply Hq. by eapply (ci_inj _ Hi).
    - intros q bq Hq Hbq _ _. apply Hdev. intros He. apply Hq. by eapply (ci_inj _ Hi).
    - intros m. destruct (decide (m = bk_block_no b)) as [->|]; [done|]. rewrite Hdev by done. apply Hi. }
  split; [done|]. intros m.
  rewrite (cached_update s s' p b' m Hi Hi') by done. rewrite Hn, Hp.
  destruct (decide (bk_block_no b = m)); [by rewrite decide_True|]. by rewrite decide_False.
Qed.

Lemma held_update_facts s dev p b b' :
  cache_inv s -> held s p b -> bk_block_no b' = bk_block_no b ->
  let s' := upd_state s dev p b' in
  block_ok (dev_read s') b' -> bk_valid b' = true ->
  (forall m, m <> bk_block_no b -> dev_read s' m = dev_read s m) ->
  length (dev_read s' (bk_block_no b)) = bsize ->
  cache_inv s' /\
  (forall m, view s' m = if decide (m = bk_block_no b) then bk_data b' else view s m) /\
  (forall m, is_locked s' m = if decide (m = bk_block_no b) then bk_locked b' else is_locked s m) /\
  (forall m, is_pinned s' m = if decide (m = bk_block_no b) then bk_pinned b' else is_pinned s m) /\
  (forall m, m <> bk_block_no b -> cached s' m = cached s m).
Proof.
  intros Hi Hh Hn s' Hok Hv Hdev Hdl.
  destruct (held_update s dev p b b') as [Hi' Hc]; auto. split; [done|].
  fold s' in Hc.
  split_and!; intros m; [unfold view|unfold is_locked|unfold is_pinned|]; rewrite Hc;
    case_decide as Hm; auto; try done.
  - by rewrite Hv.
  - by rewrite Hdev.
Qed.

Lemma upd_state_same s p b : c_blocks s !! p = Some b -> upd_state s (c_dev s) p b = s.
Proof. intros H. unfold upd_state. rewrite insert_id by done. by destruct s. Qed.

(** *** The operations on a held block

    Each is an [upd_state]; [upd_spec] says what that does to the cache. *)
Definition released b : Block :=
  mkBlock (bk_block_no b) false (bk_pinned b) false (bk_valid b) (bk_data b).

Record upd_spec s s' p n d lk pn : Prop := {
  us_inv : cache_inv s';
  us_view : forall m, view s' m = if decide (m = n) then d else view s m;
  us_locked : forall m, is_locked s' m = if decide (m = n) then lk else is_locked s m;
  us_pinned : forall m, is_pinned s' m = if decide (m = n) then pn else is_pinned s m;
  us_miss : forall m, m <> n -> cached s m = None -> cached s' m = None;
  us_other : forall q b, q <> p -> c_blocks s !! q = Some b -> c_blocks s' !! q = Some b;
  us_rest : same_rest s s'
}.

Lemma upd_spec_intro s dev p b b' :
  cache_inv s -> held s p b -> bk_block_no b' = bk_block_no b -> bk_valid b' = true ->
  block_ok (disk_read (dv_disk dev)) b' ->
  (forall m, m <> bk_block_no b -> disk_read (dv_disk dev) m = dev_read s m) ->
  length (disk_read (dv_disk dev) (bk_block_no b)) = bsize ->
  upd_spec s (upd_state s dev p b') p (bk_block_no b) (bk_data b') (bk_locked b') (bk_pinned b').
Proof.
  intros Hi Hh Hn Hv Hok Hdev Hdl.
  destruct (held_update_facts s dev p b b') as (? & ? & ? & ? & Hc); auto.
  split; auto.
  - intros m Hm. by rewrite Hc.
  - intros q b0 Hq Hb0. simpl. by rewrite lookup_insert_ne.
  - done.
Qed.

Lemma cache_release_eq s p b :
  cache_inv s -> held s p b ->
  cache_release p s = Ok (tt, upd_state s (c_dev s) p (released b)).
Proof.
  intros Hi [Hp Ha].
  assert (wp (cache_release p) (fun _ s' => s' = upd_state s (c_dev s) p (released b)) s) as Hwp.
  { apply wp_bind. eapply wp_upd_block; [done|].
    apply wp_bind, wp_acquire_lock; [apply Hi|].
    apply wp_bind. eapply wp_upd_block; [simpl; apply lookup_insert_eq|]. simpl.
    apply wp_release_lock; [done|]. unfold upd_state. simpl. rewrite insert_insert_eq.
    by rewrite (ci_lock _ Hi). }
  apply wp_ok in Hwp as ([] & s' & Heq & ->). done.
Qed.

Lemma cache_release_spec s p b :
  cache_inv s -> held s p b ->
  (bk_pinned b = false -> bk_data b = dev_read s (bk_block_no b)) ->
  upd_spec s (upd_state s (c_dev s) p (released b)) p (bk_block_no b) (bk_data b) false (bk_pinned b).
Proof.
  intros Hi Hh Hcl. pose proof Hh as [Hp Ha].
  apply (upd_spec_intro s (c_dev s) p b (released b)); auto; [|split|apply Hi]; simpl; auto.
  - eapply ci_valid; eauto using held_not_evictable.
  - intros [_ ?]%evictable_flags _. by apply Hcl.
  - intros _. eapply ci_valid; eauto using held_not_evictable.
  - by eapply ci_len.
Qed.

(** A store through [block->data] of a block held. *)
Lemma store_spec s p b d :
  cache_inv s -> held s p b -> length d = bsize ->
  upd_spec s (upd_state s (c_dev s) p (set_bk_data d b)) p (bk_block_no b) d true (bk_pinned b).
Proof.
  intros Hi Hh Hd. pose proof Hh as [Hp Ha].
  pose proof (ci_held _ Hi _ _ Hp) as Hl. rewrite Ha in Hl. rewrite <- Hl.
  pose proof (ci_valid _ Hi _ _ Hp (held_not_evictable _ _ _ Hh)) as Hv.
  apply (upd_spec_intro s (c_dev s) p b (set_bk_data d b)); auto; [|apply Hi].
  split; simpl; auto.
  - intros [He _]%evictable_flags. simpl in He. congruence.
  - by rewrite Hl.
Qed.

(** [device_write] of a held block. *)
Lemma device_write_spec s p b :
  cache_inv s -> held s p b ->
  upd_spec s (set_c_dev (dev_write (bk_block_no b) (bk_data b) (c_dev s)) s) p
    (bk_block_no b) (bk_data b) true (bk_pinned b).
Proof.
  intros Hi Hh. pose proof Hh as [Hp Ha].
  pose proof (ci_held _ Hi _ _ Hp) as Hl. rewrite Ha in Hl. rewrite <- Hl.
  pose proof (ci_valid _ Hi _ _ Hp (held_not_evictable _ _ _ Hh)) as Hv.
  replace (set_c_dev _ s) with (upd_state s (dev_write (bk_block_no b) (bk_data b) (c_dev s)) p b)
    by (unfold upd_state; rewrite insert_id by done; by destruct s).
  apply (upd_spec_intro s _ p b b); auto.
  - split; auto; [|by rewrite Hl|by eapply ci_len].
    intros [He _]%evictable_flags. congruence.
  - intros m Hm. unfold dev_read, disk_read. simpl. by rewrite lookup_insert_ne.
  - unfold disk_read. simpl. rewrite lookup_insert_eq. by eapply ci_len.
Qed.

Lemma device_write_eq s p b :
  c_blocks s !! p = Some b ->
  device_write p s = Ok (tt, set_c_dev (dev_write (bk_block_no b) (bk_data b) (c_dev s)) s).
Proof. intros Hp. unfold device_write, get_block, mbind, M_bind, gets. by rewrite Hp. Qed.

Lemma dev_read_write s n d m :
  dev_read (set_c_dev (dev_write n d (c_dev s)) s) m = if decide (m = n) then d else dev_read s m.
Proof.
  unfold dev_read, disk_read. simpl. case_decide; [subst; by rewrite lookup_insert_eq|].
  by rewrite lookup_insert_ne.
Qed.

(** Setting [pinned] of a held block. *)
Lemma pin_spec s p b x :
  cache_inv s -> held s p b ->
  upd_spec s (upd_state s (c_dev s) p (set_bk_pinned x b)) p (bk_block_no b) (bk_data b) true x.
Proof.
  intros Hi Hh. pose proof Hh as [Hp Ha].
  pose proof (ci_held _ Hi _ _ Hp) as Hl. rewrite Ha in Hl. rewrite <- Hl.
  pose proof (ci_valid _ Hi _ _ Hp (held_not_evictable _ _ _ Hh)) as Hv.
  apply (upd_spec_intro s (c_dev s) p b (set_bk_pinned x b)); auto; [|apply Hi].
  split; simpl; auto.
  - intros [He _]%evictable_flags. simpl in He. congruence.
  - by rewrite Hl.
  - by eapply ci_len.
Qed.

(** The flag that keeps a block in the cache, written under the lock. *)
Lemma wp_set_pinned {A} s p b x (k : M cache A) Q :
  cache_inv s -> c_blocks s !! p = Some b -> wp k Q (upd_state s (c_dev s) p (set_bk_pinned x b)) ->
  wp (acquire_lock;; upd_block p (set_bk_pinned x);; release_lock;; k) Q s.
Proof.
  intros Hi Hp HQ. apply wp_bind, wp_acquire_lock; [apply Hi|].
  apply wp_bind. eapply wp_upd_block; [done|]. apply wp_bind, wp_release_lock; [done|].
  unfold upd_state in HQ. simpl in *. by rewrite (ci_lock _ Hi) in HQ.
Qed.

(** *** Copying one block over another

    The common part of one iteration of [checkpoint] and of [replay]. *)
Definition copy_block (a b : Z) (unpin : bool) : M cache unit :=
  src ← cache_acquire a;
  dest ← cache_acquire b;
  sb ← get_block src;
  upd_block dest (set_bk_data (bk_data sb));;
  cache_release src;;
  device_write dest;;
  if unpin then
    acquire_lock;; upd_block dest (set_bk_pinned false);; release_lock;; cache_release dest
  else cache_release dest.

(** No thread holds a block. *)
Definition idle s : Prop := cache_inv s /\ forall m, is_locked s m = false.

Record copy_spec s s' (a b : Z) (pn : bool) : Prop := {
  cs_idle : idle s';
  cs_view : forall m, view s' m = if decide (m = b) then view s a else view s m;
  cs_pinned : forall m, is_pinned s' m = if decide (m = b) then pn else is_pinned s m;
  cs_miss : forall m, m <> a -> m <> b -> cached s m = None -> cached s' m = None;
  cs_dev : c_dev s' = dev_write b (view s a) (c_dev s);
  cs_rest : same_rest s s'
}.

Lemma same_rest_trans s1 s2 s3 : same_rest s1 s2 -> same_rest s2 s3 -> same_rest s1 s3.
Proof. unfold same_rest, same_log. intros [[-> ->] [-> ->]]. done. Qed.

(** While block [b] is held, with the content of [a] in the cache and on the
    device already. *)
Record copying s s' (a b : Z) (q : nat) (blk : Block) : Prop := {
  cg_inv : cache_inv s';
  cg_held : held s' q blk;
  cg_no : bk_block_no blk = b;
  cg_data : bk_data blk = view s a;
  cg_dev : c_dev s' = dev_write b (view s a) (c_dev s);
  cg_rest : same_rest s s';
  cg_view : forall m, m <> b -> view s' m = view s m;
  cg_locked : forall m, m <> b -> is_locked s' m = false;
  cg_pinned : forall m, m <> b -> is_pinned s' m = is_pinned s m;
  cg_miss : forall m, m <> a -> m <> b -> cached s m = None -> cached s' m = None
}.

Lemma copying_start {A} s (a b : Z) (k : nat -> M cache A) Q :
  idle s -> a <> b ->
  (forall q blk s', copying s s' a b q blk -> bk_pinned blk = is_pinned s b -> wp (k q) Q s') ->
  wp (src ← cache_acquire a;
      dest ← cache_acquire b;
      sb ← get_block src;
      upd_block dest (set_bk_data (bk_data sb));;
      cache_release src;;
      device_write dest;;
      k dest) Q s.
Proof.
  intros [Hi Hl] Hab HQ.
  apply wp_bind, cache_acquire_spec; auto. intros p s1 Hi1 Hp1 Hv1 Hpn1 Hl1 _ Hm1 _ _ Hd1 Hr1.
  apply wp_bind, cache_acquire_spec; auto.
  { rewrite Hl1, bool_decide_false by done. by simpl. }
  intros q s2 Hi2 Hq2 Hv2 Hpn2 Hl2 Hk2 Hm2 _ _ Hd2 Hr2.
  destruct (Hk2 p _ Hp1) as [Hpq Hp2]; [done|done|].
  apply wp_bind. eapply wp_get_block; [done|]. simpl.
  apply wp_bind. eapply wp_upd_block; [done|].
  destruct (store_spec s2 q _ (view s a) Hi2 (conj Hq2 eq_refl)) as [Hi3 Hv3 Hl3 Hpn3 Hm3 Hk3 Hr3].
  { by apply length_view. }
  match goal with |- wp _ _ ?t => set (s3 := t) end.
  pose proof (Hk3 p _ Hpq Hp2) as Hp3.
  assert (Hq3 : c_blocks s3 !! q = Some (acq_block b (is_pinned s1 b) (view s a)))
    by apply lookup_insert_eq.
  assert (Hrel : upd_spec s3 _ p _ _ _ _) by
    (apply (cache_release_spec s3 p _ Hi3 (conj Hp3 eq_refl)); simpl; intros Hpn;
     change (dev_read s3 a) with (dev_read s2 a); unfold dev_read; rewrite Hd2, Hd1;
     by apply view_clean).
  apply wp_bind. eapply wp_eq; [by apply (cache_release_eq s3 p _ Hi3 (conj Hp3 eq_refl))|].
  destruct Hrel as [Hi4 Hv4 Hl4 Hpn4 Hm4 Hk4 Hr4].
  match goal with |- wp _ _ ?t => set (s4 := t) in * end.
  pose proof (Hk4 q _ (not_eq_sym Hpq) Hq3) as Hq4.
  apply wp_bind. eapply wp_eq; [by apply device_write_eq|].
  destruct (device_write_spec s4 q _ Hi4 (conj Hq4 eq_refl)) as [Hi5 Hv5 Hl5 Hpn5 Hm5 Hk5 Hr5].
  simpl in *. match goal with |- wp _ _ ?t => set (s5 := t) in * end.
  apply (HQ q (acq_block b (is_pinned s1 b) (view s a))); [|simpl; by rewrite Hpn1].
  split; [done|by split|done|done| | | | | |].
  - unfold s5. simpl. by rewrite Hd2, Hd1.
  - do 4 (eapply same_rest_trans; [done|]). done.
  - intros m Hm. rewrite Hv5, decide_False by done. rewrite Hv4. case_decide; [by subst|].
    rewrite Hv3, decide_False by done. by rewrite Hv2, Hv1.
  - intros m Hm. rewrite Hl5, decide_False by done. rewrite Hl4. case_decide; [done|].
    rewrite Hl3, decide_False by done. by rewrite Hl2, Hl1, !bool_decide_false, Hl by done.
  - intros m Hm. rewrite Hpn5, decide_False by done. rewrite Hpn4. case_decide; [by subst|].
    rewrite Hpn3, decide_False by done. by rewrite Hpn2, Hpn1.
  - intros m Hma Hmb Hc. apply Hm5, Hm4, Hm3, Hm2, Hm1; done.
Qed.

Lemma copying_unpin s s' (a b : Z) (q : nat) (blk : Block) :
  copying s s' a b q blk ->
  copying s (upd_state s' (c_dev s') q (set_bk_pinned false blk)) a b q (set_bk_pinned false blk).
Proof.
  intros [Hi [Hb Hlk] Hn Hdt Hd Hr Hv Hl Hp Hm].
  destruct (pin_spec s' q blk false Hi (conj Hb Hlk)) as [Hi6 Hv6 Hl6 Hpn6 Hm6 Hk6 Hr6].
  rewrite Hn in *. split; try done.
  - split; [apply lookup_insert_eq|done].
  - intros m Hne. rewrite Hv6, decide_False by done. by apply Hv.
  - intros m Hne. rewrite Hl6, decide_False by done. by apply Hl.
  - intros m Hne. rewrite Hpn6, decide_False by done. by apply Hp.
  - intros m Hma Hmb Hc. by apply Hm6, Hm.
Qed.

Lemma copying_end s s' (a b : Z) (q : nat) (blk : Block) (Q : unit -> cache -> Prop) :
  copying s s' a b q blk -> (forall s2, copy_spec s s2 a b (bk_pinned blk) -> Q tt s2) ->
  wp (cache_release q) Q s'.
Proof.
  intros [Hi Hh Hn Hdt Hd Hr Hv Hl Hp Hm] HQ.
  eapply wp_eq; [by apply cache_release_eq|]. apply HQ.
  destruct (cache_release_spec s' q blk Hi Hh) as [Hi7 Hv7 Hl7 Hpn7 Hm7 Hk7 Hr7].
  { intros _. rewrite Hdt, Hn. unfold dev_read. rewrite Hd. unfold disk_read; simpl. by rewrite lookup_insert_eq. }
  rewrite Hn in *. split.
  - split; [done|]. intros m. rewrite Hl7. case_decide; [done|]. by apply Hl.
  - intros m. rewrite Hv7, Hdt. case_decide; [done|]. by apply Hv.
  - intros m. rewrite Hpn7. case_decide; [done|]. by apply Hp.
  - intros m Hma Hmb Hc. by apply Hm7, Hm.
  - done.
  - by eapply same_rest_trans.
Qed.

Lemma copy_block_spec s (a b : Z) (unpin : bool) (Q : unit -> cache -> Prop) :
  idle s -> a <> b ->
  (forall s', copy_spec s s' a b (if unpin then false else is_pinned s b) -> Q tt s') ->
  wp (copy_block a b unpin) Q s.
Proof.
  intros Hi Hab HQ. apply copying_start; [done|done|]. intros q blk s' Hc Hp. destruct unpin.
  - eapply wp_set_pinned; [apply Hc|apply Hc|]. eapply copying_end; [by apply copying_unpin|done].
  - eapply copying_end; [done|]. by rewrite Hp.
Qed.

End CacheFacts.
