(* ===== verification/CacheLog.v ===== *)
(** * The log: checkpoint, replay and crash recovery

    What [checkpoint] and [replay] (cache.c) write to the device, in order,
    and what a crash between any two of these writes leaves after recovery. *)
From S2P Require Import Prelude Bitmap FsDefines Cache CacheFacts.

Module CacheLog.
Import Cache CacheFacts.

(** ** Traces of device writes *)

Definition apply_writes (d : gmap Z (list Z)) (ws : list (Z * list Z)) : gmap Z (list Z) :=
  foldl (fun d w => <[w.1 := w.2]> d) d ws.

Definition over (v : Z -> list Z) (ws : list (Z * list Z)) : Z -> list Z :=
  foldl (fun v w m => if decide (m = w.1) then w.2 else v m) v ws.

Lemma over_app v ws1 ws2 : over v (ws1 ++ ws2) = over (over v ws1) ws2.
Proof. apply foldl_app. Qed.

Lemma over_ext v v' ws m :
  (forall m, v m = v' m) -> over v ws m = over v' ws m.
Proof.
  revert v v'. induction ws as [|w ws IH]; intros v v' H; [apply H|].
  apply IH. intros m'. case_decide; auto.
Qed.

Lemma over_notin v ws m : m ∉ ws.*1 -> over v ws m = v m.
Proof.
  revert v. induction ws as [|w ws IH]; intros v H; [done|].
  rewrite fmap_cons, not_elem_of_cons in H. simpl. rewrite IH by tauto.
  by rewrite decide_False by tauto.
Qed.

Lemma over_in v v' ws m : m ∈ ws.*1 -> over v ws m = over v' ws m.
Proof.
  revert v v'. induction ws as [|w ws IH] using rev_ind; intros v v' H; [by apply not_elem_of_nil in H|].
  rewrite fmap_app, elem_of_app in H. rewrite !over_app. simpl. case_decide; [done|].
  apply IH. destruct H as [H|H]; [done|]. apply list_elem_of_singleton in H. done.
Qed.

Lemma over_lookup v ws m i x :
  NoDup ws.*1 -> ws !! i = Some (m, x) -> over v ws m = x.
Proof.
  revert v i. induction ws as [|w ws IH]; intros v i Hnd Hi; [done|].
  rewrite fmap_cons, NoDup_cons in Hnd. destruct Hnd as [Hn Hnd].
  destruct i as [|i]; simpl in *.
  - simplify_eq. rewrite over_notin by done. by rewrite decide_True.
  - by eapply IH.
Qed.

Lemma disk_read_apply d ws m : disk_read (apply_writes d ws) m = over (disk_read d) ws m.
Proof.
  revert d. induction ws as [|w ws IH]; intros d; [done|]. simpl. rewrite IH.
  apply over_ext. intros m'. unfold disk_read.
  case_decide; [subst; by rewrite lookup_insert_eq|]. by rewrite lookup_insert_ne.
Qed.

(** [dev'] is [dev] after the writes [ws]. *)
Definition wrote (dev dev' : Device) (ws : list (Z * list Z)) : Prop :=
  dv_disk dev' = apply_writes (dv_disk dev) ws /\ dv_writes dev' = dv_writes dev ++ ws.

Lemma wrote_nil dev : wrote dev dev [].
Proof. split; [done|]. by rewrite app_nil_r. Qed.

Lemma wrote_one dev n x : wrote dev (dev_write n x dev) [(n, x)].
Proof. done. Qed.

Lemma wrote_app dev dev' dev'' ws ws' :
  wrote dev dev' ws -> wrote dev' dev'' ws' -> wrote dev dev'' (ws ++ ws').
Proof.
  intros [H1 H2] [H3 H4]. split.
  - rewrite H3, H1. unfold apply_writes. by rewrite foldl_app.
  - by rewrite H4, H2, app_assoc.
Qed.

Lemma wrote_read dev dev' ws m :
  wrote dev dev' ws -> disk_read (dv_disk dev') m = over (disk_read (dv_disk dev)) ws m.
Proof. intros [-> _]. apply disk_read_apply. Qed.

(** ** The log area and its header *)
Definition entries (h : LogHeader) : list Z := take (Z.to_nat (lh_num_blocks h)) (lh_block_no h).

(** The block numbers a header may list: distinct, outside of the log, and no
    more than the log holds. *)
Record good_log (sb : SuperBlock) (ls : Z) (hs : list Z) : Prop := {
  gl_nodup : NoDup hs;
  gl_out : forall m, m ∈ hs -> m <> log_start sb /\ forall i, 0 <= i < Z.of_nat (length hs) -> m <> ls + i;
  gl_ls : log_start sb < ls
}.

Record good_header (sb : SuperBlock) (ls : Z) (h : LogHeader) : Prop := {
  gh_wf : LogHeader_wf h;
  gh_num : lh_num_blocks h <= 63;
  gh_log : good_log sb ls (entries h)
}.

Lemma length_entries h :
  LogHeader_wf h -> lh_num_blocks h <= 63 -> Z.of_nat (length (entries h)) = lh_num_blocks h.
Proof. intros (? & Hl & ?) ?. unfold entries. rewrite length_take, Hl. lia. Qed.

(** Copying the log to the blocks it logs, and the blocks to the log. *)
Definition install_writes (v : Z -> list Z) (ls : Z) (hs : list Z) : list (Z * list Z) :=
  imap (fun i n => (n, v (ls + Z.of_nat i))) hs.
Definition log_writes (v : Z -> list Z) (ls : Z) (hs : list Z) : list (Z * list Z) :=
  imap (fun i n => (ls + Z.of_nat i, v n)) hs.

Definition cleared (h : LogHeader) : LogHeader := mkLogHeader 0 (lh_block_no h).

Lemma install_writes_fst v ls hs : (install_writes v ls hs).*1 = hs.
Proof.
  unfold install_writes. rewrite fmap_imap. rewrite <- (list_fmap_id hs) at 2.
  apply list_eq. intros i. rewrite list_lookup_imap, list_lookup_fmap. by destruct (hs !! i).
Qed.

Lemma log_writes_fst v ls hs m :
  m ∈ (log_writes v ls hs).*1 <-> exists i, 0 <= i < Z.of_nat (length hs) /\ m = ls + i.
Proof.
  rewrite list_elem_of_fmap. split.
  - intros ([a x] & -> & Hin). apply elem_of_lookup_imap in Hin as (i & y & He & Hy).
    simplify_eq. exists (Z.of_nat i). apply lookup_lt_Some in Hy. split; [lia|done].
  - intros (i & Hi & ->). destruct (lookup_lt_is_Some_2 hs (Z.to_nat i)) as [y Hy]; [lia|].
    exists (ls + i, v y). split; [done|]. apply elem_of_lookup_imap.
    exists (Z.to_nat i), y. split; [|done]. f_equal. lia.
Qed.

Lemma take_S_install v ls hs i :
  (i < length hs)%nat ->
  take (S i) (install_writes v ls hs) =
    take i (install_writes v ls hs) ++ [(hs !!! i, v (ls + Z.of_nat i))].
Proof.
  intros Hi. apply take_S_r. unfold install_writes. rewrite list_lookup_imap.
  destruct (lookup_lt_is_Some_2 hs i Hi) as [y Hy]. rewrite Hy. simpl.
  by rewrite (list_lookup_total_correct _ _ _ Hy).
Qed.

Lemma take_S_log v ls hs i :
  (i < length hs)%nat ->
  take (S i) (log_writes v ls hs) =
    take i (log_writes v ls hs) ++ [(ls + Z.of_nat i, v (hs !!! i))].
Proof.
  intros Hi. apply take_S_r. unfold log_writes. rewrite list_lookup_imap.
  destruct (lookup_lt_is_Some_2 hs i Hi) as [y Hy]. rewrite Hy. simpl.
  by rewrite (list_lookup_total_correct _ _ _ Hy).
Qed.

(** ** [replay] and [checkpoint] *)
Section log.
Context (sb : SuperBlock).

(** The state before a [checkpoint] or [replay]: nobody holds a block, the
    header block is not in the cache, and the statics are those of [sb]. *)
Record log_ready (s : cache) : Prop := {
  lr_idle : idle s;
  lr_miss : cached s (log_start sb) = None;
  lr_hdr : good_header sb (lg_log_start (c_log s)) (c_header s)
}.

(** [s'] is [s] with the blocks [ws] written and their logical content
    replaced; [pn] says which blocks stay pinned. *)
Record wrote_spec (s s' : cache) (ws : list (Z * list Z)) (pn : Z -> bool) : Prop := {
  ws_idle : idle s';
  ws_miss : cached s' (log_start sb) = None;
  ws_view : forall m, view s' m = over (view s) ws m;
  ws_pinned : forall m, is_pinned s' m = pn m;
  ws_dev : wrote (c_dev s) (c_dev s') ws;
  ws_rest : same_rest s s'
}.

Lemma wrote_spec_nil s : idle s -> cached s (log_start sb) = None -> wrote_spec s s [] (is_pinned s).
Proof. intros. split; auto; try done. apply wrote_nil. Qed.

Lemma wrote_spec_snoc s s1 s2 ws pn a b x pn' :
  wrote_spec s s1 ws pn -> copy_spec s1 s2 a b x ->
  log_start sb <> a -> log_start sb <> b ->
  (forall m, pn' m = if decide (m = b) then x else pn m) ->
  wrote_spec s s2 (ws ++ [(b, view s1 a)]) pn'.
Proof.
  intros H1 H2 Ha Hb Hpn. split.
  - apply H2.
  - apply (cs_miss _ _ _ _ _ H2); auto. apply H1.
  - intros m. rewrite (cs_view _ _ _ _ _ H2), over_app. simpl. case_decide; [done|]. apply H1.
  - intros m. rewrite Hpn, (cs_pinned _ _ _ _ _ H2). case_decide; [done|]. apply H1.
  - eapply wrote_app; [apply H1|]. rewrite (cs_dev _ _ _ _ _ H2). apply wrote_one.
  - eapply same_rest_trans; [apply H1|apply H2].
Qed.

Lemma replay_one_eq i s :
  replay_one i s =
    copy_block (lg_log_start (c_log s) + i) (lh_block_no (c_header s) !!! Z.to_nat i) true s.
Proof. done. Qed.

Lemma checkpoint_one_eq i s :
  checkpoint_one i s =
    copy_block (lh_block_no (c_header s) !!! Z.to_nat i) (lg_log_start (c_log s) + i) false s.
Proof. done. Qed.

Lemma entry_lookup h i :
  LogHeader_wf h -> lh_num_blocks h <= 63 -> 0 <= i < lh_num_blocks h ->
  lh_block_no h !!! Z.to_nat i = entries h !!! Z.to_nat i /\
  lh_block_no h !!! Z.to_nat i ∈ entries h.
Proof.
  intros Hwf Hn Hi. pose proof (length_entries h Hwf Hn) as Hlen.
  destruct (lookup_lt_is_Some_2 (entries h) (Z.to_nat i)) as [y Hy]; [lia|].
  pose proof Hy as Hy'. unfold entries in Hy'. rewrite lookup_take_lt in Hy' by lia.
  rewrite (list_lookup_total_correct _ _ _ Hy'), (list_lookup_total_correct _ _ _ Hy).
  split; [done|]. by eapply list_elem_of_lookup_2.
Qed.

(** The loop of [replay]. *)
Lemma replay_loop_spec s (Q : unit -> cache -> Prop) :
  log_ready s ->
  let h := c_header s in let ls := lg_log_start (c_log s) in
  (forall s', wrote_spec s s' (install_writes (view s) ls (entries h))
                (fun m => is_pinned s m && bool_decide (m ∉ entries h)) -> Q tt s') ->
  wp (eachM (seqZ 0 (lh_num_blocks h)) replay_one) Q s.
Proof.
  intros [Hid Hms [Hwf Hn [Hnd Hout Hls]]] h ls HQ.
  pose proof (length_entries _ Hwf Hn) as Hlen. fold h in Hlen, Hn, Hnd, Hout, Hwf.
  set (ws := install_writes (view s) ls (entries h)) in *.
  assert (length ws = length (entries h)) as Hlw by apply length_imap.
  apply (wp_eachM_seqZ _ _ (fun i s' => wrote_spec s s' (take (Z.to_nat i) ws)
           (fun m => is_pinned s m && bool_decide (m ∉ take (Z.to_nat i) (entries h))))).
  - apply Hwf.
  - rewrite take_0. destruct (wrote_spec_nil s Hid Hms) as [? ? ? _ ? ?]. split; auto.
    intros m. rewrite bool_decide_true by apply not_elem_of_nil. by rewrite andb_true_r.
  - intros i s' Hi HI. eapply wp_change; [apply replay_one_eq|].
    destruct (ws_rest _ _ _ _ HI) as [[-> ->] _]. fold h ls.
    destruct (entry_lookup h i Hwf Hn Hi) as [He Hin]. rewrite He in *.
    set (m0 := entries h !!! Z.to_nat i) in *. destruct (Hout m0 Hin) as [Hm1 Hm2].
    apply copy_block_spec; [apply HI|intros Heq; by apply (Hm2 i); [lia|]|].
    intros s'' Hc. replace (Z.to_nat (i + 1)) with (S (Z.to_nat i)) by lia.
    unfold ws. rewrite take_S_install by lia. fold ws m0. rewrite Z2Nat.id by lia.
    replace (view s (ls + i)) with (view s' (ls + i)).
    + eapply wrote_spec_snoc; [done..|fold ls in Hls; lia|done|]. intros m.
      rewrite (take_S_r _ _ m0).
      2: { apply list_lookup_lookup_total_lt. lia. }
      case_decide as Hm.
      * rewrite bool_decide_false; [by rewrite andb_false_r|]. intros []%not_elem_of_app.
        subst m. set_solver.
      * f_equal. apply bool_decide_ext. rewrite not_elem_of_app, not_elem_of_cons.
        split; [by intros []|]. intros. split_and!; auto. apply not_elem_of_nil.
    + rewrite (ws_view _ _ _ _ HI). apply over_notin. rewrite fmap_take. unfold ws.
      rewrite install_writes_fst. intros Hx. apply elem_of_take in Hx as (k & Hk & _).
      apply list_elem_of_lookup_2 in Hk. destruct (Hout _ Hk) as [_ Hk2]. by apply (Hk2 i); [lia|].
  - intros s' Hs'. apply HQ. rewrite !take_ge in Hs' by lia. done.
Qed.

(** Writing a block that is not cached, as [write_header] does. *)
Lemma raw_write_spec s d :
  idle s -> cached s (log_start sb) = None -> length d = bsize ->
  wrote_spec s (set_c_dev (dev_write (log_start sb) d (c_dev s)) s) [(log_start sb, d)] (is_pinned s).
Proof.
  intros [Hi Hl] Hms Hd. set (s' := set_c_dev _ s).
  assert (Hne : forall p b, c_blocks s !! p = Some b -> bk_block_no b <> log_start sb).
  { intros p b Hp. apply (proj1 (cached_None s _) Hms p b); [|done]. apply (ci_head _ Hi). eauto. }
  assert (Hr : forall m, dev_read s' m = if decide (m = log_start sb) then d else dev_read s m)
    by apply dev_read_write.
  split; try done.
  - split; [|done]. destruct Hi. split; try done.
    + intros p b Hp He Hv. rewrite Hr, decide_False by eauto. by eapply ci_coh0.
    + intros m. rewrite Hr. by case_decide.
  - intros m. simpl. unfold view. change (cached s' m) with (cached s m). rewrite Hr.
    destruct (decide (m = log_start sb)) as [->|]; [|done]. by rewrite Hms.
Qed.

Lemma write_header_eq s :
  write_header sb s =
    Ok (tt, set_c_dev (dev_write (log_start sb) (encode_LogHeader (c_header s)) (c_dev s)) s).
Proof. done. Qed.

Lemma wrote_spec_trans s s1 s2 ws ws' pn pn' :
  wrote_spec s s1 ws pn -> wrote_spec s1 s2 ws' pn' -> wrote_spec s s2 (ws ++ ws') pn'.
Proof.
  intros H1 H2. split; try apply H2.
  - intros m. rewrite (ws_view _ _ _ _ H2), over_app. apply over_ext, H1.
  - eapply wrote_app; [apply H1|apply H2].
  - eapply same_rest_trans; [apply H1|apply H2].
Qed.

(** The writes of [replay], given the content [v] of the log area. *)
Definition replay_writes (v : Z -> list Z) (ls : Z) (h : LogHeader) : list (Z * list Z) :=
  if lh_num_blocks h =? 0 then []
  else install_writes v ls (entries h) ++ [(log_start sb, encode_LogHeader (cleared h))].

Definition with_header (h : LogHeader) (s : cache) : cache := set_c_header h s.

(** [replay] terminates and writes exactly [replay_writes]. *)
Lemma replay_spec s (Q : unit -> cache -> Prop) :
  log_ready s ->
  let h := c_header s in
  (forall s1 s',
     wrote_spec s s1 (replay_writes (view s) (lg_log_start (c_log s)) h)
       (fun m => is_pinned s m && bool_decide (m ∉ entries h)) ->
     s' = set_c_header (cleared h) s1 -> Q tt s') ->
  wp (replay sb) Q s.
Proof.
  intros Hr h HQ. pose proof Hr as [Hid Hms [Hwf Hn Hg]]. unfold replay_writes in HQ.
  unfold replay. apply wp_bind, wp_gets. fold h.
  destruct (Z.eqb_spec (lh_num_blocks h) 0) as [H0|H0].
  - apply wp_ret. apply (HQ s).
    + destruct (wrote_spec_nil s Hid Hms) as [? ? ? _ ? ?]. split; auto.
      intros m. unfold entries. rewrite H0, bool_decide_true by apply not_elem_of_nil.
      by rewrite andb_true_r.
    + unfold cleared. rewrite <- H0. unfold h. by destruct s as [? ? ? ? ? [] ? ? ?].
  - apply wp_bind, replay_loop_spec; [done|]. intros s1 Hw. fold h in Hw.
    apply wp_bind, wp_gets, wp_bind, wp_modify.
    eapply wp_eq; [apply write_header_eq|].
    destruct (ws_rest _ _ _ _ Hw) as [[Hh Hlg] _].
    set (d := encode_LogHeader (cleared h)).
    apply (HQ (set_c_dev (dev_write (log_start sb) d (c_dev s1)) s1)).
    + eapply wrote_spec_trans; [exact Hw|].
      pose proof (raw_write_spec s1 d (ws_idle _ _ _ _ Hw) (ws_miss _ _ _ _ Hw)) as Hd.
      destruct Hd as [? ? ? Hp ? ?]; [apply length_encode_LogHeader, Hwf|].
      split; auto. intros m. rewrite Hp. apply Hw.
    + rewrite Hh. unfold d, cleared. by destruct s1.
Qed.

(** The loop of [checkpoint]. *)
Lemma checkpoint_loop_spec s (Q : unit -> cache -> Prop) :
  log_ready s ->
  let h := c_header s in let ls := lg_log_start (c_log s) in
  (forall s', wrote_spec s s' (log_writes (view s) ls (entries h)) (is_pinned s) -> Q tt s') ->
  wp (eachM (seqZ 0 (lh_num_blocks h)) checkpoint_one) Q s.
Proof.
  intros [Hid Hms [Hwf Hn [Hnd Hout Hls]]] h ls HQ.
  pose proof (length_entries _ Hwf Hn) as Hlen. fold h in Hlen, Hn, Hnd, Hout, Hwf.
  set (ws := log_writes (view s) ls (entries h)) in *.
  assert (length ws = length (entries h)) as Hlw by apply length_imap.
  apply (wp_eachM_seqZ _ _ (fun i s' => wrote_spec s s' (take (Z.to_nat i) ws) (is_pinned s))).
  - apply Hwf.
  - by apply wrote_spec_nil.
  - intros i s' Hi HI. eapply wp_change; [apply checkpoint_one_eq|].
    destruct (ws_rest _ _ _ _ HI) as [[-> ->] _]. fold h ls.
    destruct (entry_lookup h i Hwf Hn Hi) as [He Hin]. rewrite He in *.
    set (m0 := entries h !!! Z.to_nat i) in *. destruct (Hout m0 Hin) as [Hm1 Hm2].
    apply copy_block_spec; [apply HI|intros Heq; by apply (Hm2 i); [lia|]|].
    intros s'' Hc. replace (Z.to_nat (i + 1)) with (S (Z.to_nat i)) by lia.
    unfold ws. rewrite take_S_log by lia. fold ws m0. rewrite Z2Nat.id by lia.
    replace (view s m0) with (view s' m0).
    + eapply wrote_spec_snoc; [done..|fold ls in Hls; lia|]. intros m.
      case_decide; [|done]. rewrite (ws_pinned _ _ _ _ HI). by subst.
    + rewrite (ws_view _ _ _ _ HI). apply over_notin. rewrite fmap_take. intros Hx.
      apply subseteq_take, log_writes_fst in Hx as (k & Hk & Hk'). by apply (Hm2 k).
  - intros s' Hs'. apply HQ. rewrite take_ge in Hs' by lia. done.
Qed.

(** The content of the logged blocks, written to their places. *)
Definition flush_writes (v : Z -> list Z) (hs : list Z) : list (Z * list Z) := (fun n => (n, v n)) <$> hs.

Definition checkpoint_writes (v : Z -> list Z) (ls : Z) (h : LogHeader) : list (Z * list Z) :=
  log_writes v ls (entries h) ++ [(log_start sb, encode_LogHeader h)] ++
  if lh_num_blocks h =? 0 then []
  else flush_writes v (entries h) ++ [(log_start sb, encode_LogHeader (cleared h))].

Lemma flush_writes_fst v hs : (flush_writes v hs).*1 = hs.
Proof. unfold flush_writes. rewrite <- list_fmap_compose. apply list_fmap_id. Qed.

Lemma log_lookup v ls hs i m :
  hs !! i = Some m -> log_writes v ls hs !! i = Some (ls + Z.of_nat i, v m).
Proof. intros H. unfold log_writes. by rewrite list_lookup_imap, H. Qed.

Lemma log_writes_nodup v ls hs : NoDup (log_writes v ls hs).*1.
Proof.
  apply NoDup_alt. intros i j x. rewrite !list_lookup_fmap. unfold log_writes.
  rewrite !list_lookup_imap. destruct (hs !! i), (hs !! j); simpl; try done.
  intros [= <-] [= ?]. lia.
Qed.

Lemma over_cases v ws m : over v ws m = v m \/ (m, over v ws m) ∈ ws.
Proof.
  induction ws as [|w ws IH] using rev_ind; [by left|]. rewrite over_app. simpl.
  rewrite !elem_of_app, list_elem_of_singleton. case_decide as H; [right; right; subst; by destruct w|].
  destruct IH; auto.
Qed.

(** The blocks a checkpoint writes: of the log area, the header, and the logged ones. *)
Inductive checkpoint_write (v : Z -> list Z) (ls : Z) (h : LogHeader) : Z * list Z -> Prop :=
| cw_log i n : 0 <= i < Z.of_nat (length (entries h)) -> checkpoint_write v ls h (ls + i, v n)
| cw_header : checkpoint_write v ls h (log_start sb, encode_LogHeader h)
| cw_clear : checkpoint_write v ls h (log_start sb, encode_LogHeader (cleared h))
| cw_home n : n ∈ entries h -> checkpoint_write v ls h (n, v n).

Lemma checkpoint_writes_elem v ls h w : w ∈ checkpoint_writes v ls h -> checkpoint_write v ls h w.
Proof.
  unfold checkpoint_writes. rewrite !elem_of_app, list_elem_of_singleton. intros [Hw|[->|Hw]].
  - apply elem_of_lookup_imap in Hw as (i & n & -> & Hn). apply lookup_lt_Some in Hn. apply cw_log. lia.
  - apply cw_header.
  - destruct (_ =? 0); [by apply not_elem_of_nil in Hw|]. apply elem_of_app in Hw as [Hw|Hw%list_elem_of_singleton]; [|subst; apply cw_clear].
    apply list_elem_of_fmap in Hw as (n & -> & Hn). by apply cw_home.
Qed.

(** Whatever was written before, the log area holds the logged blocks. *)
Lemma over_log v0 v ls hs i m ws :
  hs !! i = Some m -> ls + Z.of_nat i ∉ ws.*1 ->
  over v0 (log_writes v ls hs ++ ws) (ls + Z.of_nat i) = v m.
Proof.
  intros Hi Hn. rewrite over_app, over_notin by done.
  eapply over_lookup; [apply log_writes_nodup|]. by apply log_lookup.
Qed.

Lemma install_flush v v' ls hs :
  (forall i m, hs !! i = Some m -> v' (ls + Z.of_nat i) = v m) ->
  install_writes v' ls hs = flush_writes v hs.
Proof.
  intros H. apply list_eq. intros i. unfold install_writes, flush_writes.
  rewrite list_lookup_imap, list_lookup_fmap. destruct (hs !! i) as [m|] eqn:E; [|done].
  simpl. by rewrite (H i m E).
Qed.

Lemma replay_after_log v ls h :
  good_header sb ls h ->
  replay_writes (over v (log_writes v ls (entries h) ++ [(log_start sb, encode_LogHeader h)])) ls h =
  if lh_num_blocks h =? 0 then []
  else flush_writes v (entries h) ++ [(log_start sb, encode_LogHeader (cleared h))].
Proof.
  intros [Hwf Hn Hg]. unfold replay_writes. case_match; [done|]. f_equal.
  apply install_flush. intros i m Hi. apply over_log; [done|].
  simpl. intros Hx%list_elem_of_singleton. pose proof (gl_ls _ _ _ Hg). lia.
Qed.

(** Not a block of the log with [n] entries. *)
Definition outside (ls n m : Z) : Prop :=
  m <> log_start sb /\ forall i, 0 <= i < n -> m <> ls + i.

(** Outside of the log a checkpoint changes nothing but the logged blocks. *)
Lemma over_checkpoint v0 v ls h m :
  good_header sb ls h -> outside ls (lh_num_blocks h) m ->
  over v0 (checkpoint_writes v ls h) m = if decide (m ∈ entries h) then v m else v0 m.
Proof.
  intros [Hwf Hn [Hnd Hout Hls]] [Hm1 Hm2]. pose proof (length_entries _ Hwf Hn) as Hlen.
  unfold checkpoint_writes. rewrite over_app. change (?x :: ?y) with ([x] ++ y). rewrite over_app.
  set (v1 := over v0 (log_writes v ls (entries h))).
  assert (v1 m = v0 m) as Hv1.
  { apply over_notin. intros (i & Hi & ->)%log_writes_fst. apply (Hm2 i); [lia|done]. }
  destruct (Z.eqb_spec (lh_num_blocks h) 0) as [E|E].
  - simpl. rewrite decide_False by done. rewrite decide_False; [done|].
    unfold entries. rewrite E. apply not_elem_of_nil.
  - rewrite over_app. simpl. rewrite decide_False by done. case_decide as Hm.
    + apply list_elem_of_lookup in Hm as [i Hi].
      apply (over_lookup _ _ _ i); [by rewrite flush_writes_fst|].
      unfold flush_writes. by rewrite list_lookup_fmap, Hi.
    + rewrite over_notin by (by rewrite flush_writes_fst). by rewrite decide_False.
Qed.

(** [checkpoint] terminates; it writes exactly [checkpoint_writes]. *)
Lemma checkpoint_spec s (Q : unit -> cache -> Prop) :
  log_ready s ->
  let h := c_header s in let lg := c_log s in
  (forall s1, wrote_spec s s1 (checkpoint_writes (view s) (lg_log_start lg) h)
       (fun m => is_pinned s m && bool_decide (m ∉ entries h)) ->
     Q tt (set_c_log (set_last_persisted_ts (last_allocated_ts lg) lg)
            (set_c_header (cleared h) s1))) ->
  wp (checkpoint sb) Q s.
Proof.
  intros Hr h lg HQ. pose proof Hr as [Hid Hms Hh].
  unfold checkpoint. apply wp_bind, wp_gets, wp_bind, checkpoint_loop_spec; [done|].
  intros s1 Hw1. apply wp_bind. eapply wp_eq; [apply write_header_eq|].
  destruct (ws_rest _ _ _ _ Hw1) as [[Hh1 Hl1] _].
  pose proof (raw_write_spec s1 (encode_LogHeader (c_header s1)) (ws_idle _ _ _ _ Hw1)
                (ws_miss _ _ _ _ Hw1)) as Hw2.
  rewrite Hh1 in *. specialize (Hw2 (length_encode_LogHeader _ (proj1 (proj2 (gh_wf _ _ _ Hh))))).
  pose proof (wrote_spec_trans _ _ _ _ _ _ _ Hw1 Hw2) as Hw3.
  match type of Hw2 with wrote_spec _ ?t _ _ => set (s2 := t) in * end.
  destruct (ws_rest _ _ _ _ Hw3) as [[Hh3 Hl3] _].
  apply wp_bind, replay_spec.
  { split; [apply Hw3|apply Hw3|]. by rewrite Hh3, Hl3. }
  intros s3 s3' Hw4 ->. rewrite Hh3, Hl3 in Hw4.
  assert (c_log s3 = lg) as Hl4 by (destruct (ws_rest _ _ _ _ Hw4) as [[_ ->] _]; done).
  apply wp_bind, wp_acquire_lock; [apply (ws_idle _ _ _ _ Hw4)|].
  apply wp_bind, wp_modify, wp_release_lock; [done|]. simpl. rewrite Hl4, Hh1. fold h lg.
  replace (set_c_lock _ _) with
    (set_c_log (set_last_persisted_ts (last_allocated_ts lg) lg) (set_c_header (cleared h) s3)).
  2: { pose proof (ci_lock _ (proj1 (ws_idle _ _ _ _ Hw4))) as E. destruct s3; simpl in *. by subst. }
  apply HQ. pose proof (wrote_spec_trans _ _ _ _ _ _ _ Hw3 Hw4) as Hw5.
  unfold checkpoint_writes. rewrite app_assoc. fold h lg in Hw5.
  rewrite <- (replay_after_log (view s) (lg_log_start lg) h Hh).
  assert (replay_writes (view s2) (lg_log_start lg) h =
          replay_writes (over (view s) (log_writes (view s) (lg_log_start lg) (entries h) ++
             [(log_start sb, encode_LogHeader h)])) (lg_log_start lg) h) as <-.
  { unfold replay_writes. case_match; [done|]. f_equal. unfold install_writes. apply imap_ext.
    intros i n _. f_equal. apply (ws_view _ _ _ _ Hw3). }
  destruct Hw5 as [? ? ? Hp ? ?]. split; auto. intros m. rewrite Hp.
  rewrite (ws_pinned _ _ _ _ Hw2). by rewrite (ws_pinned _ _ _ _ Hw1).
Qed.

(** ** Recovery *)

(** The header found on a disk, and the content a disk has once its log is
    replayed. *)
Definition disk_header (d : gmap Z (list Z)) : LogHeader :=
  decode_LogHeader (disk_read d (log_start sb)).
Definition first_log_block : Z := u32 (log_start sb + 1).
Definition log_block_count : Z := Z.min (u32 (num_log_blocks sb - 1)) LOG_MAX_SIZE.
Definition recovered (d : gmap Z (list Z)) : Z -> list Z :=
  over (disk_read d) (install_writes (disk_read d) first_log_block (entries (disk_header d))).

Definition disk_ok (d : gmap Z (list Z)) : Prop :=
  (forall m, length (disk_read d m) = bsize) /\ good_header sb first_log_block (disk_header d).

(** The state of the cache when [init_bcache] calls [replay]. *)
Definition boot_state (dev : Device) : cache :=
  mkCache dev ∅ 0 [] false (disk_header (dv_disk dev))
    (mkLogState 0 0 first_log_block log_block_count 0 0) (replicate (Z.to_nat NGROUPS) 0) ∅.

Lemma init_bcache_eq dev : init_bcache sb (init_cache dev) = replay sb (boot_state dev).
Proof. done. Qed.

Lemma boot_idle dev : (forall m, length (disk_read (dv_disk dev) m) = bsize) -> idle (boot_state dev).
Proof.
  intros Hd. split; [|done]. split; simpl; try done.
  - intros p. split; [by intros ?%not_elem_of_nil|]. by rewrite lookup_empty; intros [? ?].
  - constructor.
  - intros p. rewrite lookup_empty. by intros [? ?].
Qed.

(** [init_bcache] terminates on every disk with a well-formed header, and
    writes [replay_writes]. *)
Lemma init_bcache_spec dev (Q : unit -> cache -> Prop) :
  disk_ok (dv_disk dev) ->
  let h := disk_header (dv_disk dev) in
  (forall s1,
     wrote_spec (boot_state dev) s1 (replay_writes (disk_read (dv_disk dev)) first_log_block h)
       (fun _ => false) ->
     Q tt (set_c_header (cleared h) s1)) ->
  wp (init_bcache sb) Q (init_cache dev).
Proof.
  intros [Hl Hg] h HQ. unfold wp. rewrite init_bcache_eq.
  change (wp (replay sb) Q (boot_state dev)).
  apply replay_spec.
  - split; [by apply boot_idle|done|done].
  - intros s1 s' Hw ->. apply HQ. destruct Hw as [? ? ? Hp ? ?]. split; auto.
Qed.

Lemma over_install_indep v v' w ls hs m :
  (forall i, 0 <= i < Z.of_nat (length hs) -> w (ls + i) = v (ls + i)) ->
  (m ∉ hs -> v' m = w m) ->
  over v' (install_writes v ls hs) m = over w (install_writes w ls hs) m.
Proof.
  intros Hlog Hm.
  assert (install_writes w ls hs = install_writes v ls hs) as ->.
  { unfold install_writes. apply imap_ext. intros i n Hi. f_equal. apply Hlog.
    apply lookup_lt_Some in Hi. lia. }
  destruct (decide (m ∈ hs)) as [H|H].
  - apply over_in. by rewrite install_writes_fst.
  - rewrite !over_notin by (by rewrite install_writes_fst). auto.
Qed.

Lemma good_cleared ls h : good_header sb ls h -> good_header sb ls (cleared h).
Proof.
  intros [Hwf ? [? ? ?]]. split; simpl; [split; [simpl; lia|apply Hwf]|lia|].
  split; simpl; [constructor| |done]. by intros ? ?%not_elem_of_nil.
Qed.

(** A crash at any point of a recovery loses nothing: what the disk then
    recovers to is what it recovered to before. *)
Lemma recovered_prefix d k m :
  let h := disk_header d in let ls := first_log_block in
  disk_ok d ->
  let d' := apply_writes d (take k (replay_writes (disk_read d) ls h)) in
  outside ls (lh_num_blocks h) m ->
  good_header sb ls (disk_header d') /\ recovered d' m = recovered d m.
Proof.
  intros h ls [Hl Hg] d' [Hm1 Hm2]. pose proof Hg as [Hwf Hn [Hnd Hout Hls]].
  pose proof (length_entries _ Hwf Hn) as Hlen. fold h ls in Hg, Hwf, Hn, Hnd, Hout, Hls, Hlen.
  unfold d', replay_writes. destruct (Z.eqb_spec (lh_num_blocks h) 0) as [H0|H0].
  { by rewrite take_nil. }
  set (ws := install_writes (disk_read d) ls (entries h)).
  rewrite take_app. destruct (decide (k <= length ws)%nat) as [Hk|Hk].
  - replace (k - length ws)%nat with 0%nat by lia. rewrite take_0, app_nil_r.
    assert (Hsame : forall x, x ∉ entries h -> disk_read (apply_writes d (take k ws)) x = disk_read d x).
    { intros x Hx. rewrite disk_read_apply. apply over_notin. rewrite fmap_take.
      unfold ws. rewrite install_writes_fst. intros ?%subseteq_take. done. }
    assert (disk_header (apply_writes d (take k ws)) = h) as Hh.
    { unfold disk_header. rewrite Hsame; [done|]. intros Hx. by destruct (Hout _ Hx). }
    unfold recovered. rewrite Hh. split; [done|]. fold h ls.
    apply over_install_indep; [|apply Hsame]. intros i Hi. symmetry. apply Hsame.
    intros Hx. by apply (proj2 (Hout _ Hx) i).
  - rewrite !take_ge by (simpl; lia).
    assert (disk_header (apply_writes d (ws ++ [(log_start sb, encode_LogHeader (cleared h))])) =
            cleared h) as Hh.
    { unfold disk_header. rewrite disk_read_apply, over_app. simpl. rewrite decide_True by done.
      apply decode_encode_LogHeader. split; [simpl; lia|]. apply Hwf. }
    rewrite Hh. split.
    + by apply good_cleared.
    + unfold recovered at 1. rewrite Hh. simpl. rewrite disk_read_apply, over_app. simpl.
      by rewrite decide_False.
Qed.


Lemma prefix_header_le d k :
  disk_ok d ->
  lh_num_blocks (disk_header (apply_writes d (take k (replay_writes (disk_read d) first_log_block
    (disk_header d))))) <= lh_num_blocks (disk_header d).
Proof.
  intros [Hl Hg]. pose proof Hg as [Hwf Hn [Hnd Hout Hls]].
  set (h := disk_header d) in *. unfold replay_writes.
  destruct (Z.eqb_spec (lh_num_blocks h) 0) as [H0|H0]; [by rewrite take_nil|].
  set (ws := install_writes _ _ _).
  assert (Hin : forall j, log_start sb ∉ (take j ws).*1).
  { intros j. unfold ws. rewrite fmap_take, install_writes_fst. intros ?%subseteq_take%Hout. tauto. }
  rewrite take_app. unfold disk_header at 1. rewrite disk_read_apply, over_app.
  destruct (k - length ws)%nat as [|j].
  - simpl. rewrite over_notin by done. done.
  - rewrite (take_ge [_]) by (simpl; lia). unfold over at 1. cbn [foldl fst snd].
    rewrite decide_True by done. rewrite decode_encode_LogHeader by apply (good_cleared _ _ Hg). simpl. apply Hwf.
Qed.

(** *** A crash during [checkpoint]

    [d] is the disk before, with an empty log; [v] the content of the blocks
    the header [h] lists. *)
Lemma read_log_phase d v ls hs k m :
  (forall i, 0 <= i < Z.of_nat (length hs) -> m <> ls + i) ->
  disk_read (apply_writes d (take k (log_writes v ls hs))) m = disk_read d m.
Proof.
  intros Hm. rewrite disk_read_apply. apply over_notin. rewrite fmap_take.
  intros (i & Hi & ->)%subseteq_take%log_writes_fst. by apply (Hm i).
Qed.

Lemma crash_in_log_phase d v h k m :
  let ls := first_log_block in
  disk_ok d -> lh_num_blocks (disk_header d) = 0 -> good_header sb ls h ->
  outside ls (lh_num_blocks h) m ->
  let d' := apply_writes d (take k (log_writes v ls (entries h))) in
  good_header sb ls (disk_header d') /\ recovered d' m = disk_read d m.
Proof.
  intros ls [Hl Hg] H0 [Hwf Hn [_ _ Hls]] [Hm1 Hm2] d'.
  pose proof (length_entries _ Hwf Hn) as Hlen.
  assert (disk_header d' = disk_header d) as Hh.
  { unfold disk_header, d'. rewrite read_log_phase; [done|]. intros i Hi. lia. }
  rewrite Hh. split; [done|]. unfold recovered. rewrite Hh. unfold entries at 1. rewrite H0. simpl.
  unfold d'. apply read_log_phase. rewrite Hlen. done.
Qed.

(** After the header is written, and during the installation. *)
Lemma crash_in_install_phase d v h ws m :
  let ls := first_log_block in
  good_header sb ls h -> outside ls (lh_num_blocks h) m ->
  (forall x, x ∈ ws.*1 -> x ∈ entries h) ->
  let d' := apply_writes d (log_writes v ls (entries h) ++ (log_start sb, encode_LogHeader h) :: ws) in
  disk_header d' = h /\
  recovered d' m = if decide (m ∈ entries h) then v m else disk_read d m.
Proof.
  intros ls [Hwf Hn [Hnd Hout Hls]] [Hm1 Hm2] Hws d'.
  pose proof (length_entries _ Hwf Hn) as Hlen.
  assert (Hread : forall x, x ∉ entries h -> x <> log_start sb ->
            disk_read d' x = disk_read (apply_writes d (log_writes v ls (entries h))) x).
  { intros x Hx Hx'. unfold d'. rewrite !disk_read_apply, over_app. apply over_notin.
    rewrite fmap_cons, not_elem_of_cons. split; [done|]. intros ?%Hws. done. }
  assert (disk_header d' = h) as Hh.
  { unfold disk_header, d'. rewrite disk_read_apply, over_app.
    change (?x :: ws) with ([x] ++ ws). rewrite over_app, over_notin.
    - simpl. rewrite decide_True by done. by apply decode_encode_LogHeader.
    - intros Hx%Hws. by destruct (Hout _ Hx). }
  split; [done|]. unfold recovered. rewrite Hh. fold ls. case_decide as Hm.
  - apply list_elem_of_lookup in Hm as [i Hi].
    eapply (over_lookup _ _ _ i); [by rewrite install_writes_fst|].
    unfold install_writes. rewrite list_lookup_imap, Hi. simpl. do 2 f_equal.
    apply lookup_lt_Some in Hi as Hlt.
    rewrite Hread; [|intros Hx; by apply (proj2 (Hout _ Hx) (Z.of_nat i)); [lia|]|lia].
    rewrite disk_read_apply. rewrite <- (app_nil_r (log_writes _ _ _)).
    apply over_log; [done|apply not_elem_of_nil].
  - rewrite over_notin by (by rewrite install_writes_fst). rewrite Hread by done.
    rewrite <- (take_ge (log_writes v ls (entries h)) (length (log_writes v ls (entries h)))) by lia.
    apply read_log_phase. by rewrite Hlen.
Qed.

Lemma crash_after_clear d v h m :
  let ls := first_log_block in
  good_header sb ls h -> outside ls (lh_num_blocks h) m ->
  let ws := flush_writes v (entries h) ++ [(log_start sb, encode_LogHeader (cleared h))] in
  let d' := apply_writes d (log_writes v ls (entries h) ++ (log_start sb, encode_LogHeader h) :: ws) in
  disk_header d' = cleared h /\
  recovered d' m = if decide (m ∈ entries h) then v m else disk_read d m.
Proof.
  intros ls Hg [Hm1 Hm2] ws d'. pose proof Hg as [Hwf Hn [Hnd Hout Hls]].
  pose proof (length_entries _ Hwf Hn) as Hlen.
  assert (disk_header d' = cleared h) as Hh.
  { unfold disk_header, d', ws. rewrite app_comm_cons, app_assoc.
    rewrite disk_read_apply, over_app. simpl.
    rewrite decide_True by done. apply decode_encode_LogHeader, (good_cleared _ _ Hg). }
  split; [done|]. unfold recovered. rewrite Hh. simpl.
  unfold d', ws. rewrite disk_read_apply. change (?x :: ?y) with ([x] ++ y).
  rewrite !over_app. simpl. rewrite decide_False by done.
  case_decide as Hm.
  - apply list_elem_of_lookup in Hm as [i Hi].
    apply (over_lookup _ _ _ i); [by rewrite flush_writes_fst|].
    unfold flush_writes. by rewrite list_lookup_fmap, Hi.
  - rewrite over_notin by (by rewrite flush_writes_fst). rewrite decide_False by done.
    rewrite <- disk_read_apply.
    rewrite <- (take_ge (log_writes v ls (entries h)) (length (log_writes v ls (entries h)))) by lia.
    apply read_log_phase. by rewrite Hlen.
Qed.

(** The content of the blocks before a checkpoint, and after it. *)
Definition committed (s : cache) (m : Z) : list Z :=
  if decide (m ∈ entries (c_header s)) then view s m else dev_read s m.

(** A disk whose log is well-formed and holds, together with the blocks
    outside of the log, the content [f]. *)
Record recovering (d : gmap Z (list Z)) (n : Z) (f : Z -> list Z) : Prop := {
  rv_len : forall m, length (disk_read d m) = bsize;
  rv_hdr : good_header sb first_log_block (disk_header d);
  rv_num : lh_num_blocks (disk_header d) <= n;
  rv_read : forall m, outside first_log_block n m -> recovered d m = f m
}.

(** A disk on which a crash happened after the first [k] writes recovers to
    [f]: [init_bcache] terminates on it and leaves [f] outside of the log. *)
Definition recovers_to (d : gmap Z (list Z)) (n : Z) (f : Z -> list Z) : Prop :=
  exists s', init_bcache sb (init_cache (mkDevice d [])) = Ok (tt, s') /\
    lh_num_blocks (c_header s') = 0 /\
    forall m, outside first_log_block n m -> dev_read s' m = f m /\ view s' m = f m.

Lemma recovers_to_intro d n f : recovering d n f -> recovers_to d n f.
Proof.
  intros [Hl Hg Hn Hf].
  assert (wp (init_bcache sb) (fun _ s' => lh_num_blocks (c_header s') = 0 /\
            forall m, outside first_log_block n m -> dev_read s' m = f m /\ view s' m = f m)
            (init_cache (mkDevice d []))) as Hwp.
  { apply init_bcache_spec; [done|]. intros s1 Hw. split; [done|]. intros m Hm.
    assert (Hrd : dev_read s1 m = f m).
    { unfold dev_read. rewrite (wrote_read _ _ _ _ (ws_dev _ _ _ _ Hw)), <- (Hf m Hm).
      change (over (disk_read d) (replay_writes (disk_read d) first_log_block (disk_header d)) m =
              recovered d m).
      unfold recovered, replay_writes. destruct (Z.eqb_spec (lh_num_blocks (disk_header d)) 0) as [E|E].
      - unfold entries. by rewrite E.
      - rewrite over_app. simpl. rewrite decide_False; [done|apply Hm]. }
    split; [done|]. change (view s1 m = f m). rewrite view_clean; [done|apply Hw|apply Hw|apply Hw]. }
  apply wp_ok in Hwp as ([] & s' & Heq & H0 & Hv). exists s'. auto.
Qed.

Lemma recovering_mono d n n' f : n <= n' -> recovering d n f -> recovering d n' f.
Proof.
  intros Hn [Hl Hg Hnum Hf]. split; [done|done|lia|]. intros m [Hm1 Hm2].
  apply Hf. split; [done|]. intros i Hi. apply Hm2. lia.
Qed.

Lemma recovering_ext d n f g : (forall m, f m = g m) -> recovering d n f -> recovering d n g.
Proof. intros Hfg []. split; try done. intros m Hm. rewrite <- Hfg. auto. Qed.

Lemma length_apply_writes d ws m :
  (forall m, length (disk_read d m) = bsize) -> Forall (fun w => length w.2 = bsize) ws ->
  length (disk_read (apply_writes d ws) m) = bsize.
Proof.
  rewrite disk_read_apply. intros Hd. revert m. induction ws as [|w ws IH] using rev_ind; intros m Hw.
  - apply Hd.
  - apply Forall_app in Hw as [Hws [Hw _]%Forall_cons]. rewrite over_app. simpl.
    case_decide; [done|]. by apply IH.
Qed.

Lemma checkpoint_writes_len v ls h :
  length (lh_block_no h) = 63%nat -> (forall m, length (v m) = bsize) ->
  Forall (fun w => length w.2 = bsize) (checkpoint_writes v ls h).
Proof.
  intros Hh Hv. unfold checkpoint_writes.
  assert (Forall (fun w => length w.2 = bsize) (log_writes v ls (entries h))) as H1.
  { apply Forall_lookup. intros i x. unfold log_writes. rewrite list_lookup_imap.
    destruct (entries h !! i); simpl; [|done]. intros [= <-]. apply Hv. }
  assert (Forall (fun w => length w.2 = bsize) (flush_writes v (entries h))) as H2.
  { unfold flush_writes. apply Forall_fmap, Forall_true. intros x. apply Hv. }
  apply Forall_app. split; [done|]. simpl. apply Forall_cons. split; [by apply length_encode_LogHeader|].
  case_match; [done|]. apply Forall_app. split; [done|].
  apply Forall_singleton. simpl. by apply length_encode_LogHeader.
Qed.

Lemma replay_writes_len d :
  disk_ok d ->
  Forall (fun w => length w.2 = bsize) (replay_writes (disk_read d) first_log_block (disk_header d)).
Proof.
  intros Hd. unfold replay_writes. case_match; [done|]. apply Forall_app. split.
  - unfold install_writes. apply Forall_lookup. intros i x. rewrite list_lookup_imap.
    destruct (_ !! i); simpl; [|done]. intros [= <-]. apply Hd.
  - apply Forall_singleton. apply length_encode_LogHeader, (proj2 Hd).
Qed.

Definition quiet_log (d : gmap Z (list Z)) : Prop :=
  disk_ok d /\ lh_num_blocks (disk_header d) = 0.

Lemma take_checkpoint_writes v ls h k :
  let A := log_writes v ls (entries h) in
  let B := flush_writes v (entries h) in
  (take k (checkpoint_writes v ls h) = take k A) \/
  (exists ws, take k (checkpoint_writes v ls h) = A ++ (log_start sb, encode_LogHeader h) :: ws /\
     ((exists j, ws = take j B) \/ ws = B ++ [(log_start sb, encode_LogHeader (cleared h))])).
Proof.
  intros A B. unfold checkpoint_writes. fold A B. rewrite take_app.
  destruct (decide (k <= length A)%nat).
  { left. replace (k - length A)%nat with 0%nat by lia. by rewrite take_0, app_nil_r. }
  right. rewrite (take_ge A) by lia. destruct (k - length A)%nat as [|j] eqn:E; [lia|]. simpl.
  eexists; split; [done|]. case_match.
  - left. exists 0%nat. by rewrite take_nil, take_0.
  - rewrite take_app. destruct (decide (j <= length B)%nat).
    + left. exists j. replace (j - length B)%nat with 0%nat by lia. by rewrite take_0, app_nil_r.
    + right. rewrite !take_ge by (simpl; lia). done.
Qed.

Lemma some_outside ls h : good_header sb ls h -> exists m, outside ls (lh_num_blocks h) m.
Proof.
  intros Hg. exists (log_start sb - 1). pose proof (gl_ls _ _ _ (gh_log _ _ _ Hg)).
  split; [lia|]. intros; lia.
Qed.

Lemma checkpoint_prefix_len s h k m :
  cache_inv s -> (forall m, length (disk_read (dv_disk (c_dev s)) m) = bsize) -> LogHeader_wf h ->
  length (disk_read (apply_writes (dv_disk (c_dev s))
            (take k (checkpoint_writes (view s) first_log_block h))) m) = bsize.
Proof.
  intros Hi Hl Hwf. apply length_apply_writes; [done|]. apply Forall_take, checkpoint_writes_len.
  - apply Hwf.
  - intros x. by apply length_view.
Qed.

(** The whole of the writes of a checkpoint recovers to the new content. *)
Lemma checkpoint_durable s :
  log_ready s -> lg_log_start (c_log s) = first_log_block -> quiet_log (dv_disk (c_dev s)) ->
  let h := c_header s in
  recovering (apply_writes (dv_disk (c_dev s)) (checkpoint_writes (view s) first_log_block h))
    (lh_num_blocks h) (committed s).
Proof.
  intros [[Hi _] _ Hg] Hls [[Hl _] _] h. rewrite Hls in Hg. fold h in Hg.
  pose proof (fun m => checkpoint_prefix_len s h (length (checkpoint_writes (view s) first_log_block h))
                m Hi Hl (gh_wf _ _ _ Hg)) as Hd.
  rewrite take_ge in Hd by lia. destruct (some_outside _ _ Hg) as [m0 Hm0].
  unfold checkpoint_writes in *. change ([?x] ++ ?y) with (x :: y) in *.
  destruct (Z.eqb_spec (lh_num_blocks h) 0) as [E|E].
  - pose proof (fun m Hm => crash_in_install_phase (dv_disk (c_dev s)) (view s) h [] m Hg Hm) as Hc.
    destruct (Hc m0 Hm0) as [Hdh _]; [by intros ? ?%not_elem_of_nil|].
    split; [done|by rewrite Hdh|by rewrite Hdh|].
    intros m Hm. apply Hc; [done|]. by intros ? ?%not_elem_of_nil.
  - pose proof (fun m Hm => crash_after_clear (dv_disk (c_dev s)) (view s) h m Hg Hm) as Hc.
    destruct (Hc m0 Hm0) as [Hdh _].
    split; [done|rewrite Hdh; by apply good_cleared|rewrite Hdh; apply Hg|].
    intros m Hm. by apply Hc.
Qed.

Lemma checkpoint_header d v h :
  good_header sb first_log_block h ->
  lh_num_blocks (disk_header (apply_writes d (checkpoint_writes v first_log_block h))) = 0.
Proof.
  intros Hg. destruct (some_outside _ _ Hg) as [m0 Hm0]. unfold checkpoint_writes. change ([?x] ++ ?y) with (x :: y).
  destruct (Z.eqb_spec (lh_num_blocks h) 0) as [E|E].
  - destruct (crash_in_install_phase d v h [] m0 Hg Hm0) as [-> _]; [by intros ? ?%not_elem_of_nil|done].
  - by destruct (crash_after_clear d v h m0 Hg Hm0) as [-> _].
Qed.

(** Every prefix of the writes of a checkpoint recovers to the old or to the
    new content. *)
Lemma checkpoint_prefix s k :
  log_ready s -> lg_log_start (c_log s) = first_log_block -> quiet_log (dv_disk (c_dev s)) ->
  let h := c_header s in let n := lh_num_blocks h in
  let ws := checkpoint_writes (view s) first_log_block h in
  let d := apply_writes (dv_disk (c_dev s)) (take k ws) in
  recovering d n (dev_read s) \/ recovering d n (committed s).
Proof.
  intros [[Hi _] _ Hh] Hls [[Hl Hg] H0] h n ws d. rewrite Hls in Hh.
  pose proof (fun m => checkpoint_prefix_len s h k m Hi Hl (gh_wf _ _ _ Hh)) as Hd.
  assert (0 <= n) as Hn by apply Hh. destruct (some_outside _ _ Hh) as [m0 Hm0].
  destruct (take_checkpoint_writes (view s) first_log_block h k) as [E|(ws' & E & Hws)];
    fold ws in E, Hd; unfold d; rewrite E; rewrite E in Hd.
  - left. pose proof (fun m => crash_in_log_phase (dv_disk (c_dev s)) (view s) h k m (conj Hl Hg) H0 Hh) as Hc.
    assert (disk_header (apply_writes (dv_disk (c_dev s)) (take k (log_writes (view s) first_log_block
              (entries h)))) = disk_header (dv_disk (c_dev s))) as Hdh.
    { unfold disk_header. rewrite read_log_phase; [done|]. intros i Hi'.
      pose proof (gl_ls _ _ _ (gh_log _ _ _ Hh)). lia. }
    split; [done|by rewrite Hdh|rewrite Hdh, H0; done|].
    intros m Hm. by apply Hc.
  - right. destruct Hws as [[j ->]| ->].
    + pose proof (fun m Hm => crash_in_install_phase (dv_disk (c_dev s)) (view s) h
        (take j (flush_writes (view s) (entries h))) m Hh Hm) as Hc.
      assert (Hin : forall x, x ∈ (take j (flush_writes (view s) (entries h))).*1 -> x ∈ entries h).
      { intros x. rewrite fmap_take, flush_writes_fst. apply subseteq_take. }
      destruct (Hc m0 Hm0 Hin) as [Hdh _].
      split; [done|by rewrite Hdh|by rewrite Hdh|].
      intros m Hm. by apply Hc.
    + pose proof (fun m Hm => crash_after_clear (dv_disk (c_dev s)) (view s) h m Hh Hm) as Hc.
      destruct (Hc m0 Hm0) as [Hdh _].
      split; [done|rewrite Hdh; by apply good_cleared|rewrite Hdh; done|].
      intros m Hm. by apply Hc.
Qed.
End log.

(** ** Property *)

(** C4: Recovery can itself be interrupted.  On a disk with a well-formed
    header [init_bcache] terminates, and if the machine stops after any number
    of the device writes it makes, the next [init_bcache] still recovers the
    same content. *)
Theorem recovery_restartable sb d :
  disk_ok sb d ->
  exists s' ws, init_bcache sb (init_cache (mkDevice d [])) = Ok (tt, s') /\
    dv_writes (c_dev s') = ws /\
    forall k, recovers_to sb (apply_writes d (take k ws)) (lh_num_blocks (disk_header sb d)) (recovered sb d).
Proof.
  intros Hd. set (ws := replay_writes sb (disk_read d) (first_log_block sb) (disk_header sb d)).
  assert (Hwp : wp (init_bcache sb) (fun _ s' => dv_writes (c_dev s') = ws) (init_cache (mkDevice d []))).
  { apply init_bcache_spec; [done|]. intros s1 Hw. by destruct (ws_dev _ _ _ _ _ Hw) as [_ ?]. }
  apply wp_ok in Hwp as ([] & s' & Heq & Hws). exists s', ws. split_and!; [done..|].
  intros k. destruct (some_outside _ _ _ (proj2 Hd)) as [m0 Hm0].
  pose proof (fun m => recovered_prefix sb d k m Hd) as Hc. cbv zeta in Hc. fold ws in Hc.
  apply recovers_to_intro. split.
  - intros m. apply length_apply_writes; [apply Hd|]. by apply Forall_take, replay_writes_len.
  - apply (Hc m0 Hm0).
  - apply prefix_header_le; done.
  - intros m Hm. by apply Hc.
Qed.

(** A disk whose log holds the new content of block 1000. *)
Definition demo_sb : SuperBlock := mkSuperBlock 10065 63 10 200 1000 2 65 3 1 996 3 4.
Definition demo_header : LogHeader := mkLogHeader 1 (1000 :: replicate 62 0).
Definition demo_disk : gmap Z (list Z) :=
  <[2 := encode_LogHeader demo_header]> {[3 := replicate bsize 7]}.

Lemma demo_disk_good : disk_ok demo_sb demo_disk.
Proof.
  split.
  - intros m. unfold disk_read, demo_disk.
    destruct (decide (m = 2)) as [->|]; [rewrite lookup_insert_eq; by apply length_encode_LogHeader|].
    rewrite lookup_insert_ne by done.
    destruct (decide (m = 3)) as [->|]; [by rewrite lookup_singleton_eq|]. by rewrite lookup_singleton_ne.
  - assert (disk_header demo_sb demo_disk = demo_header) as -> by (vm_compute; reflexivity).
    split; [|done|].
    + split_and!; try done. apply (bool_decide_unpack _). vm_compute. exact I.
    + split; [apply NoDup_singleton| |done].
      intros m Hm. change (entries demo_header) with [1000] in *.
      apply list_elem_of_singleton in Hm as ->. split; [done|]. simpl.
      change (first_log_block demo_sb) with 3. lia.
Qed.

Lemma recovery_restartable_witness :
  exists s' ws, init_bcache demo_sb (init_cache (mkDevice demo_disk [])) = Ok (tt, s') /\
    dv_writes (c_dev s') = ws /\
    forall k, recovers_to demo_sb (apply_writes demo_disk (take k ws)) 1 (recovered demo_sb demo_disk).
Proof. exact (recovery_restartable demo_sb demo_disk demo_disk_good). Defined.

End CacheLog.
