(* ===== verification/CacheTx.v ===== *)
(** * Atomic operations: [begin_op], [sync], [commit], [end_op]

    How the block numbers of a context are merged into the log header, why the
    log cannot overflow when operations interleave, and what [end_op] of the
    last operation leaves on the disk. *)
From S2P Require Import Prelude Bitmap FsDefines Cache CacheFacts CacheLog.

Module CacheTx.
Import Cache CacheFacts CacheLog.

(** ** What operations on blocks leave alone *)
Definition keeps {A} (m : M cache A) : Prop :=
  forall s, match m s with Ok (_, s') => same_rest s s' | _ => True end.

Lemma same_rest_refl s : same_rest s s.
Proof. done. Qed.

Lemma keeps_ret {A} (a : A) : keeps (mret a).
Proof. intros s. apply same_rest_refl. Qed.

Lemma keeps_gets {A} (f : cache -> A) : keeps (gets f).
Proof. intros s. apply same_rest_refl. Qed.

Lemma keeps_panic {A} : keeps (panic (A := A)).
Proof. done. Qed.

Lemma keeps_asleep {A} : keeps (asleep (A := A)).
Proof. done. Qed.

Lemma keeps_bind {A B} (m : M cache A) (f : A -> M cache B) :
  keeps m -> (forall a, keeps (f a)) -> keeps (m ≫= f).
Proof.
  intros Hm Hf s. unfold mbind, M_bind. specialize (Hm s).
  destruct (m s) as [[a s1]| | |]; [|done..]. specialize (Hf a s1).
  destruct (f a s1) as [[b s2]| | |]; [|done..]. by eapply same_rest_trans.
Qed.

Lemma keeps_modify f : (forall s, same_rest s (f s)) -> keeps (modify f).
Proof. intros H s. apply H. Qed.

Lemma keeps_assert b : keeps (assert_ b).
Proof. destruct b; [apply keeps_ret|apply keeps_panic]. Qed.

Lemma keeps_option {A} (o : option A) : keeps (from_option_M o).
Proof. destruct o; [apply keeps_ret|apply keeps_panic]. Qed.

Lemma keeps_when b m : keeps m -> keeps (whenM b m).
Proof. destruct b; [done|]. intros _. apply keeps_ret. Qed.

Lemma keeps_each {A} (l : list A) body : (forall a, keeps (body a)) -> keeps (eachM l body).
Proof.
  intros Hb. induction l as [|a l IH]; [apply keeps_ret|]. apply keeps_bind; [apply Hb|done].
Qed.

Create HintDb keeps.
#[local] Hint Resolve keeps_ret keeps_gets keeps_panic keeps_asleep keeps_bind keeps_assert
  keeps_option keeps_when keeps_each : keeps.
#[local] Hint Extern 1 (keeps (modify _)) => apply keeps_modify; done : keeps.

Ltac keeps_tac :=
  repeat first
    [ progress (intros)
    | progress (eauto with keeps nocore)
    | apply keeps_bind
    | apply keeps_when
    | match goal with |- keeps (if ?b then _ else _) => destruct b end
    | match goal with |- keeps (match ?b with _ => _ end) => destruct b end ].

Lemma keeps_get_block p : keeps (get_block p).
Proof. unfold get_block. keeps_tac. Qed.
Lemma keeps_put_block p b : keeps (put_block p b).
Proof. unfold put_block. keeps_tac. Qed.
#[local] Hint Resolve keeps_get_block keeps_put_block : keeps.
Lemma keeps_upd_block p f : keeps (upd_block p f).
Proof. unfold upd_block. keeps_tac. Qed.
Lemma keeps_acquire_lock : keeps acquire_lock.
Proof. unfold acquire_lock. keeps_tac. Qed.
Lemma keeps_release_lock : keeps release_lock.
Proof. unfold release_lock. keeps_tac. Qed.
#[local] Hint Resolve keeps_upd_block keeps_acquire_lock keeps_release_lock : keeps.

Lemma keeps_device_write p : keeps (device_write p).
Proof. unfold device_write, device_write_M. keeps_tac. Qed.
Lemma keeps_device_read p : keeps (device_read p).
Proof. unfold device_read, device_read_M. keeps_tac. Qed.
#[local] Hint Resolve keeps_device_write keeps_device_read : keeps.

Lemma keeps_find_slot n : keeps (find_slot n).
Proof. unfold find_slot, alloc_object, _get_num_cached_blocks. keeps_tac. Qed.
#[local] Hint Resolve keeps_find_slot : keeps.

Lemma keeps_acquire n : keeps (cache_acquire n).
Proof. unfold cache_acquire, move_to_front, acquire_sleeplock. keeps_tac. Qed.
Lemma keeps_release p : keeps (cache_release p).
Proof. unfold cache_release, release_sleeplock. keeps_tac. Qed.
#[local] Hint Resolve keeps_acquire keeps_release : keeps.

Lemma keeps_replay_one i : keeps (replay_one i).
Proof. unfold replay_one. keeps_tac. Qed.
Lemma keeps_checkpoint_one i : keeps (checkpoint_one i).
Proof. unfold checkpoint_one. keeps_tac. Qed.
#[local] Hint Resolve keeps_replay_one keeps_checkpoint_one : keeps.

(** ** [commit] *)

(** Appending the block numbers [bs] to the header's, without duplicates. *)
Definition merge (l bs : list Z) : list Z :=
  foldl (fun l b => if decide (b ∈ l) then l else l ++ [b]) l bs.

Lemma merge_cons l b bs : merge l (b :: bs) = merge (if decide (b ∈ l) then l else l ++ [b]) bs.
Proof. done. Qed.

Lemma merge_length l bs :
  (length l <= length (merge l bs) <= length l + length bs)%nat.
Proof.
  revert l. induction bs as [|b bs IH]; intros l; [simpl; lia|]. rewrite merge_cons.
  case_decide; [specialize (IH l)|specialize (IH (l ++ [b]))]; rewrite ?length_app in IH; simpl in *; lia.
Qed.

Lemma merge_elem l bs m : m ∈ merge l bs <-> m ∈ l \/ m ∈ bs.
Proof.
  revert l. induction bs as [|b bs IH]; intros l; [simpl; set_solver|].
  rewrite merge_cons, IH. case_decide; set_solver.
Qed.

Lemma merge_nodup l bs : NoDup l -> NoDup (merge l bs).
Proof.
  revert l. induction bs as [|b bs IH]; intros l Hl; [done|]. rewrite merge_cons. apply IH.
  case_decide; [done|]. apply NoDup_app. split_and!; [done| |apply NoDup_singleton].
  intros x Hx Hx'%list_elem_of_singleton. by subst.
Qed.

Lemma entries_insert_old h b i :
  LogHeader_wf h -> entries h !! i = Some b ->
  <[i := b]> (lh_block_no h) = lh_block_no h.
Proof.
  intros _ Hi. apply list_insert_id. unfold entries in Hi.
  apply lookup_take_Some in Hi. tauto.
Qed.

Lemma entries_insert_new h b :
  LogHeader_wf h -> lh_num_blocks h < 63 ->
  entries (mkLogHeader (lh_num_blocks h + 1) (<[Z.to_nat (lh_num_blocks h) := b]> (lh_block_no h))) =
    entries h ++ [b].
Proof.
  intros (Hn & Hl & _) Hlt. unfold entries. simpl.
  replace (Z.to_nat (lh_num_blocks h + 1)) with (S (Z.to_nat (lh_num_blocks h))) by lia.
  rewrite (take_S_r _ _ b) by (apply list_lookup_insert_eq; lia).
  f_equal. apply take_insert_ge. lia.
Qed.

(** [h'] is [h] with [bs] merged into its entries. *)
Record merged (h h' : LogHeader) (bs : list Z) : Prop := {
  mg_wf : LogHeader_wf h';
  mg_num : 0 <= lh_num_blocks h' <= 63;
  mg_entries : entries h' = merge (entries h) bs
}.

Lemma commit_blocks_spec bs a s (Q : Z -> cache -> Prop) :
  let h := c_header s in
  LogHeader_wf h -> lh_num_blocks h <= 63 -> Forall (fun b => 0 <= b < 2 ^ 64) bs ->
  log_size (c_log s) <= 63 ->
  Z.of_nat (length (merge (entries h) bs)) <= log_size (c_log s) ->
  (forall h', merged h h' bs ->
     Q (a + Z.of_nat (length bs) - (lh_num_blocks h' - lh_num_blocks h)) (set_c_header h' s)) ->
  wp (commit_blocks bs a) Q s.
Proof.
  revert a s. induction bs as [|b bs IH]; intros a s h Hwf Hn Hbs Hls Hlen HQ.
  - simpl. apply wp_ret. replace a with (a + Z.of_nat 0 - (lh_num_blocks h - lh_num_blocks h)) by lia.
    replace s with (set_c_header h s) by (by destruct s). apply HQ. split; [done|apply conj, Hn; apply Hwf|done].
  - apply Forall_cons in Hbs as [Hb Hbs]. rewrite merge_cons in Hlen.
    pose proof (length_entries h Hwf Hn) as Hle.
    simpl. apply wp_bind, wp_gets, wp_bind, wp_gets. fold h. fold (entries h).
    set (j := find_pos b (entries h)). pose proof (find_pos_le b (entries h)) as Hj. fold j in Hj.
    pose proof (merge_length (if decide (b ∈ entries h) then entries h else entries h ++ [b]) bs) as Hml.
    destruct (decide (b ∈ entries h)) as [Hin|Hin].
    + pose proof (proj2 (find_pos_lt b _) Hin) as Hlt. fold j in Hlt.
      apply wp_bind, wp_assert; [apply Z.ltb_lt; lia|].
      rewrite decide_True by lia. rewrite entries_insert_old by (done || by apply find_pos_lookup).
      apply wp_bind, wp_modify.
      replace (set_c_header _ s) with s by (unfold h; by destruct s as [? ? ? ? ? [] ? ? ?]).
      apply IH; try done. intros h' Hm.
      replace (a + 1 + Z.of_nat (length bs) - (lh_num_blocks h' - lh_num_blocks (c_header s)))
        with (a + Z.of_nat (length (b :: bs)) - (lh_num_blocks h' - lh_num_blocks h)) by (simpl; fold h; lia).
      apply HQ. destruct Hm as [? ? He]. split; [done..|]. rewrite He, merge_cons. by rewrite decide_True.
    + pose proof (find_pos_not_in b _ Hin) as Hjn. fold j in Hjn.
      rewrite length_app in Hml. simpl in Hml.
      apply wp_bind, wp_assert; [apply Z.ltb_lt; lia|].
      rewrite decide_False by lia. apply wp_bind, wp_modify.
      replace j with (Z.to_nat (lh_num_blocks h)) by lia.
      set (h1 := mkLogHeader _ _).
      assert (He1 : entries h1 = entries h ++ [b]) by (apply entries_insert_new; [done|lia]).
      destruct Hwf as (Hw1 & Hw2 & Hw3).
      apply IH; simpl; try done.
      * split_and!; simpl; [lia|lia|by rewrite length_insert|]. by apply Forall_insert.
      * lia.
      * by rewrite He1.
      * intros h' Hm.
        replace (a + Z.of_nat (length bs) - (lh_num_blocks h' - (lh_num_blocks h + 1)))
          with (a + Z.of_nat (length (b :: bs)) - (lh_num_blocks h' - lh_num_blocks h)) by (simpl; lia).
        change (Q (a + Z.of_nat (length (b :: bs)) - (lh_num_blocks h' - lh_num_blocks h))
                  (set_c_header h' s)).
        apply HQ. destruct Hm as [? ? He]. split; [done..|]. rewrite He, He1, merge_cons.
        by rewrite decide_False.
Qed.

Lemma merged_num h h' bs :
  LogHeader_wf h -> lh_num_blocks h <= 63 -> merged h h' bs ->
  lh_num_blocks h' = Z.of_nat (length (merge (entries h) bs)) /\
  lh_num_blocks h <= lh_num_blocks h' <= lh_num_blocks h + Z.of_nat (length bs).
Proof.
  intros Hwf Hn [Hwf' [? Hn'] He].
  pose proof (length_entries h Hwf Hn). pose proof (length_entries h' Hwf' Hn') as H'.
  pose proof (merge_length (entries h) bs). rewrite He in H'. lia.
Qed.

(** ** Contexts *)
Definition ctx_ok (o : OpContext) : Prop :=
  0 <= oc_num_blocks o <= OP_MAX_NUM_BLOCKS /\ length (oc_block_no o) = 10%nat /\
  Forall (fun b => 0 <= b < 2 ^ 64) (oc_block_no o).

Definition ctx_blocks (o : OpContext) : list Z := take (Z.to_nat (oc_num_blocks o)) (oc_block_no o).

Lemma ctx_blocks_len o : ctx_ok o -> Z.of_nat (length (ctx_blocks o)) = oc_num_blocks o.
Proof.
  intros (Hn & Hl & _). unfold ctx_blocks. rewrite length_take, Hl. unfold OP_MAX_NUM_BLOCKS in *. lia.
Qed.

Lemma wp_get_ctx c o (Q : OpContext -> cache -> Prop) s :
  c_ctxs s !! c = Some o -> Q o s -> wp (get_ctx c) Q s.
Proof. intros Ho HQ. apply wp_bind, wp_gets. by rewrite Ho. Qed.

Definition commit_used (lu n a : Z) : Z := u64 (lu - u64 (u64 (OP_MAX_NUM_BLOCKS - n) + a)).

(** The effect of [commit]. *)
Lemma commit_spec c o s (Q : unit -> cache -> Prop) :
  let h := c_header s in
  c_ctxs s !! c = Some o -> ctx_ok o -> oc_lock o = false ->
  LogHeader_wf h -> lh_num_blocks h <= 63 -> log_size (c_log s) <= 63 ->
  Z.of_nat (length (merge (entries h) (ctx_blocks o))) <= log_size (c_log s) ->
  (forall h', merged h h' (ctx_blocks o) ->
     let absorbed := oc_num_blocks o - (lh_num_blocks h' - lh_num_blocks h) in
     Q tt (set_c_log (set_log_used (commit_used (log_used (c_log s)) (oc_num_blocks o) absorbed) (c_log s))
             (set_c_header h' s))) ->
  wp (commit c) Q s.
Proof.
  intros h Hc Hok Hlk Hwf Hn Hls Hlen HQ. unfold commit.
  apply wp_bind, wp_bind. eapply wp_get_ctx; [done|]. rewrite Hlk.
  apply wp_bind, wp_assert, wp_modify; [done|].
  apply wp_bind. eapply wp_get_ctx; [simpl; apply lookup_insert_eq|]. simpl.
  apply wp_bind, commit_blocks_spec; try done.
  { apply Forall_take, Hok. }
  intros h' Hm. apply wp_bind, wp_bind. simpl.
  eapply wp_get_ctx; [simpl; apply lookup_insert_eq|].
  apply wp_bind, wp_assert; [done|]. apply wp_modify, wp_modify. simpl. rewrite insert_insert_eq. fold (ctx_blocks o). rewrite (ctx_blocks_len o Hok). fold h.
  replace (0 + oc_num_blocks o - (lh_num_blocks h' - lh_num_blocks h))
    with (oc_num_blocks o - (lh_num_blocks h' - lh_num_blocks h)) by lia.
  specialize (HQ h' Hm). simpl in HQ. unfold commit_used in HQ.
  replace (set_oc_lock false (set_oc_lock true o)) with o by (destruct o; simpl in *; by subst).
  replace (<[c:=o]> (c_ctxs s)) with (c_ctxs s) by (symmetry; by apply insert_id).
  exact HQ.
Qed.

(** ** [begin_op] and [sync] *)
Definition fresh_ctx (ts : Z) : OpContext := mkOpContext false ts 0 (replicate 10 0).

Definition begun (lg : LogState) : LogState :=
  mkLogState (u64 (last_allocated_ts lg + 1)) (last_persisted_ts lg) (lg_log_start lg) (log_size lg)
             (u64 (log_used lg + OP_MAX_NUM_BLOCKS)) (u64 (op_count lg + 1)).

Lemma cache_begin_op_eq c s :
  c_lock s = false ->
  cache_begin_op c s =
    if log_size (c_log s) <? u64 (log_used (c_log s) + OP_MAX_NUM_BLOCKS) then Sleep
    else Ok (tt, set_c_ctxs (<[c := fresh_ctx (u64 (last_allocated_ts (c_log s) + 1))]> (c_ctxs s))
                   (set_c_log (begun (c_log s)) s)).
Proof.
  intros Hl. destruct s as [dev bl nx hd lk h lg ub cx]. simpl in Hl. subst lk.
  unfold cache_begin_op, put_ctx, acquire_lock, release_lock, modify_log, modify, get_ctx,
    mbind, M_bind, gets. simpl.
  destruct (_ <? _); [done|]. simpl. rewrite lookup_insert_eq. simpl. by rewrite insert_insert_eq.
Qed.

(** The context after [sync] of block [n]. *)
Definition synced (o : OpContext) (n : Z) : OpContext :=
  let i := find_pos n (ctx_blocks o) in
  mkOpContext (oc_lock o) (oc_ts o)
    (if decide (Z.to_nat (oc_num_blocks o) <= i)%nat then oc_num_blocks o + 1 else oc_num_blocks o)
    (<[i := n]> (oc_block_no o)).

Lemma cache_sync_eq c o p b s :
  c_lock s = false -> c_ctxs s !! c = Some o -> oc_lock o = false -> c_blocks s !! p = Some b ->
  cache_sync (Some c) p s =
    if Z.of_nat (find_pos (bk_block_no b) (ctx_blocks o)) <? OP_MAX_NUM_BLOCKS
    then Ok (tt, set_c_ctxs (<[c := synced o (bk_block_no b)]> (c_ctxs s))
                   (upd_state s (c_dev s) p (set_bk_pinned true b)))
    else Panic.
Proof.
  intros Hl Ho Hlk Hp. destruct s as [dev bl nx hd lk h lg ub cx]. simpl in *. subst lk.
  destruct o as [olk ots on obs]. simpl in Hlk. subst olk.
  unfold cache_sync, acquire_ctx_lock, release_ctx_lock, put_ctx, acquire_lock, release_lock, modify,
    get_ctx, get_block, upd_block, put_block, mbind, M_bind, gets. simpl. rewrite Ho. simpl.
  rewrite lookup_insert_eq. simpl. rewrite Hp. simpl. fold (ctx_blocks (mkOpContext false ots on obs)).
  unfold ctx_blocks, synced, upd_state. simpl.
  destruct (Z.of_nat _ <? OP_MAX_NUM_BLOCKS); [|done]. simpl.
  rewrite lookup_insert_eq. simpl. rewrite insert_insert_eq. unfold get_block, gets, mbind, M_bind. simpl.
  rewrite Hp. simpl. by rewrite insert_insert_eq.
Qed.

Lemma synced_blocks o n :
  ctx_ok o -> Z.of_nat (find_pos n (ctx_blocks o)) < OP_MAX_NUM_BLOCKS -> 0 <= n < 2 ^ 64 ->
  ctx_ok (synced o n) /\
  ctx_blocks (synced o n) = if decide (n ∈ ctx_blocks o) then ctx_blocks o else ctx_blocks o ++ [n].
Proof.
  intros Hok Hlt Hn. pose proof (ctx_blocks_len o Hok) as Hlen. destruct Hok as (H1 & H2 & H3).
  unfold synced. pose proof (find_pos_le n (ctx_blocks o)) as Hle.
  destruct (decide (n ∈ ctx_blocks o)) as [Hin|Hin].
  - pose proof (proj2 (find_pos_lt _ _) Hin). rewrite (decide_False (P := (_ <= _)%nat)) by lia.
    assert (<[find_pos n (ctx_blocks o):=n]> (oc_block_no o) = oc_block_no o) as ->.
    { apply list_insert_id. pose proof (find_pos_lookup _ _ Hin) as Hl. unfold ctx_blocks in Hl at 2.
      by apply lookup_take_Some in Hl as [? _]. }
    split; done.
  - pose proof (find_pos_not_in _ _ Hin) as Hp.
    rewrite (decide_True (P := (_ <= _)%nat)) by lia. split.
    + split_and!; simpl; [lia|lia|by rewrite length_insert|by apply Forall_insert].
    + unfold ctx_blocks at 1. simpl.
      replace (Z.to_nat (oc_num_blocks o + 1)) with (S (Z.to_nat (oc_num_blocks o))) by lia.
      rewrite Hp. replace (length (ctx_blocks o)) with (Z.to_nat (oc_num_blocks o)) by lia.
      unfold OP_MAX_NUM_BLOCKS in *.
      rewrite (take_S_r _ _ n) by (apply list_lookup_insert_eq; lia).
      f_equal. by apply take_insert_ge.
Qed.

(** ** The phases of [end_op] *)

(** Up to the wait or the checkpoint: whether this thread does the checkpoint,
    and its [log_size_copy]. *)
Definition end_op_enter (ctx : nat) : M cache (bool * Z) :=
  acquire_lock;;
  commit ctx;;
  modify_log (fun lg => set_op_count (u64 (op_count lg - 1)) lg);;
  lg ← gets c_log;
  let do_checkpoint := op_count lg =? 0 in
  (if do_checkpoint : bool then modify_log (set_log_size 0) else mret tt);;
  release_lock;;
  mret (do_checkpoint, log_size lg).

(** [while (ctx->ts > last_persisted_ts) sleep(..)] *)
Definition end_op_wait (ctx : nat) : M cache unit :=
  acquire_lock;;
  o ← get_ctx ctx;
  lg ← gets c_log;
  (if last_persisted_ts lg <? oc_ts o then asleep else mret tt);;
  release_lock.

Definition end_op_finish (sb : SuperBlock) (log_size_copy : Z) : M cache unit :=
  checkpoint sb;;
  acquire_lock;;
  modify_log (set_log_size log_size_copy);;
  modify_log (set_log_used 0);;
  release_lock.

Lemma commit_blocks_frame bs a s :
  match commit_blocks bs a s with
  | Ok (_, s') => exists h', s' = set_c_header h' s
  | _ => True
  end.
Proof.
  revert a s. induction bs as [|b bs IH]; intros a s; simpl.
  { exists (c_header s). by destruct s. }
  unfold mbind, M_bind, gets, assert_.
  destruct (_ <? _); simpl; [|done]. case_decide; simpl;
    match goal with |- context [commit_blocks bs ?a' ?s'] => specialize (IH a' s') end;
    destruct (commit_blocks _ _ _) as [[? ?]| | |]; try done;
    destruct IH as [h' ->]; by exists h'.
Qed.

Lemma commit_lock c s :
  match commit c s with Ok (_, s') => c_lock s' = c_lock s | _ => True end.
Proof.
  unfold commit, acquire_ctx_lock, release_ctx_lock, get_ctx, put_ctx, modify_log, modify,
    mbind, M_bind, gets, assert_.
  destruct (c_ctxs s !! c) as [o|]; simpl; [|done]. destruct (oc_lock o); simpl; [done|].
  rewrite lookup_insert_eq. simpl.
  match goal with |- context [commit_blocks ?b 0 ?s'] => pose proof (commit_blocks_frame b 0 s') as H;
    destruct (commit_blocks b 0 s') as [[? s1]| | |] end; simpl; try done.
  destruct H as [h' ->]. simpl. rewrite lookup_insert_eq. done.
Qed.

(** [end_op] is its phases, one after the other. *)
Lemma cache_end_op_phases sb ctx s :
  cache_end_op sb ctx s =
    (r ← end_op_enter ctx;
     if r.1 : bool then end_op_finish sb r.2 else end_op_wait ctx) s.
Proof.
  unfold cache_end_op, end_op_enter, mbind, M_bind.
  destruct (acquire_lock s) as [[[] s1]| | |] eqn:E1; [|done..].
  assert (c_lock s1 = true) as Hl1.
  { revert E1. unfold acquire_lock, mbind, M_bind, gets, assert_. destruct (c_lock s); simpl; [done|].
    by intros [= <-]. }
  pose proof (commit_lock ctx s1) as Hc.
  destruct (commit ctx s1) as [[[] s2]| | |]; [|done..]. rewrite Hl1 in Hc.
  destruct s2 as [dev bl nx hd lk h lg ub cx]. simpl in Hc. subst lk. simpl.
  destruct (u64 (op_count lg - 1) =? 0); simpl; [done|].
  unfold end_op_wait, mbind, M_bind. simpl. unfold get_ctx, mbind, M_bind. simpl.
  destruct (cx !! ctx) as [o|]; simpl; [|done]. destruct (_ <? _); done.
Qed.

#[local] Arguments cache_sync : simpl never.

(** ** Log space under interleaving

    The threads' steps on the log, in any order: operations begin, record
    blocks, end, and the last one to end does the checkpoint ([tx_ckpt] holds
    its [log_size_copy]); in between threads acquire, release and modify
    blocks. *)
Record txst : Type := mkTx {
  tx_s : cache;
  tx_running : gset nat;
  tx_ckpt : option Z
}.

Inductive tx_step (sb : SuperBlock) : txst -> txst -> Prop :=
| tx_begin s s' A k c :
    c ∉ A -> cache_begin_op c s = Ok (tt, s') ->
    tx_step sb (mkTx s A k) (mkTx s' ({[c]} ∪ A) k)
| tx_sync s s' A k c p b :
    c ∈ A -> c_blocks s !! p = Some b -> 0 <= bk_block_no b < 2 ^ 64 ->
    cache_sync (Some c) p s = Ok (tt, s') ->
    tx_step sb (mkTx s A k) (mkTx s' A k)
| tx_end s s' A k c ck sz :
    c ∈ A -> end_op_enter c s = Ok ((ck, sz), s') ->
    tx_step sb (mkTx s A k) (mkTx s' (A ∖ {[c]}) (if ck then Some sz else k))
| tx_finish s s' A sz :
    end_op_finish sb sz s = Ok (tt, s') ->
    tx_step sb (mkTx s A (Some sz)) (mkTx s' A None)
| tx_acquire s s' A k n p :
    cache_acquire n s = Ok (p, s') -> tx_step sb (mkTx s A k) (mkTx s' A k)
| tx_release s s' A k p :
    cache_release p s = Ok (tt, s') -> tx_step sb (mkTx s A k) (mkTx s' A k)
| tx_store s s' A k p d :
    upd_block p (set_bk_data d) s = Ok (tt, s') -> tx_step sb (mkTx s A k) (mkTx s' A k).

(** The reserved space covers the header and ten blocks per running operation. *)
Record tx_inv (LS : Z) (t : txst) : Prop := {
  ti_hdr : LogHeader_wf (c_header (tx_s t));
  ti_count : op_count (c_log (tx_s t)) = Z.of_nat (size (tx_running t));
  ti_used : lh_num_blocks (c_header (tx_s t)) + OP_MAX_NUM_BLOCKS * Z.of_nat (size (tx_running t))
              <= log_used (c_log (tx_s t)) <= LS;
  ti_LS : LS <= LOG_MAX_SIZE;
  ti_phase : match tx_ckpt t with
             | None => log_size (c_log (tx_s t)) = LS /\
                       (tx_running t = ∅ -> log_used (c_log (tx_s t)) = 0)
             | Some sz => sz = LS /\ log_size (c_log (tx_s t)) = 0 /\ tx_running t = ∅
             end;
  ti_ctx : forall c, c ∈ tx_running t -> exists o, c_ctxs (tx_s t) !! c = Some o /\ ctx_ok o
}.

Lemma acquire_lock_Ok s a s' : acquire_lock s = Ok (a, s') -> c_lock s = false.
Proof. unfold acquire_lock, mbind, M_bind, gets, assert_. by destruct (c_lock s). Qed.

Lemma bind_Ok {St A B} (m : M St A) (f : A -> M St B) s b s' :
  (m ≫= f) s = Ok (b, s') -> exists a s1, m s = Ok (a, s1) /\ f a s1 = Ok (b, s').
Proof.
  unfold mbind, M_bind. destruct (m s) as [[a s1]| | |]; [|done..]. eauto.
Qed.

Lemma begin_op_Ok_lock c s s' : cache_begin_op c s = Ok (tt, s') -> c_lock s = false.
Proof.
  unfold cache_begin_op. intros (? & s1 & H1 & H)%bind_Ok. injection H1 as <- <-.
  apply bind_Ok in H as (? & ? & H%acquire_lock_Ok & _). done.
Qed.

Lemma sync_Ok c o p s s' :
  c_ctxs s !! c = Some o -> cache_sync (Some c) p s = Ok (tt, s') -> c_lock s = false /\ oc_lock o = false.
Proof.
  intros Ho. destruct s as [dev bl nx hd lk h lg ub cx]. simpl in Ho.
  unfold cache_sync, acquire_ctx_lock, release_ctx_lock, put_ctx, modify, get_ctx, get_block,
    mbind, M_bind, gets. simpl. rewrite Ho. simpl.
  destruct (oc_lock o); simpl; [done|]. rewrite lookup_insert_eq. simpl.
  destruct (bl !! p); simpl; [|done]. destruct (_ <? _); simpl; [|done].
  rewrite lookup_insert_eq. simpl. by destruct lk.
Qed.

Lemma end_enter_Ok c o s r s' :
  c_ctxs s !! c = Some o -> end_op_enter c s = Ok (r, s') -> c_lock s = false /\ oc_lock o = false.
Proof.
  intros Ho H. unfold end_op_enter in H. apply bind_Ok in H as ([] & s1 & H1 & H).
  pose proof (acquire_lock_Ok _ _ _ H1) as Hl. split; [done|].
  apply bind_Ok in H as (? & s2 & H & _). unfold commit in H.
  apply bind_Ok in H as (? & s3 & H & _). revert H.
  assert (c_ctxs s1 = c_ctxs s) as Hc.
  { pose proof (keeps_acquire_lock s) as K. rewrite H1 in K. apply K. }
  unfold acquire_ctx_lock, get_ctx, mbind, M_bind, gets, assert_. rewrite Hc, Ho. simpl.
  by destruct (oc_lock o).
Qed.

Lemma commit_used_ok num lu n num' A :
  0 <= n <= OP_MAX_NUM_BLOCKS -> 0 <= num -> 1 <= A ->
  num <= num' <= num + n -> num + OP_MAX_NUM_BLOCKS * A <= lu <= 63 ->
  commit_used lu n (n - (num' - num)) = lu - OP_MAX_NUM_BLOCKS + (num' - num).
Proof.
  unfold OP_MAX_NUM_BLOCKS. intros. unfold commit_used, OP_MAX_NUM_BLOCKS.
  rewrite (u64_id (10 - n)), (u64_id (10 - n + _)), u64_id by lia. lia.
Qed.

(** What [end_op_enter] does when [N] operations are counted. *)
Lemma end_op_enter_counted LS N s c o (Q : bool * Z -> cache -> Prop) :
  let h := c_header s in let lg := c_log s in
  LogHeader_wf h -> op_count lg = N -> 1 <= N -> lh_num_blocks h + OP_MAX_NUM_BLOCKS * N <= log_used lg <= LS ->
  LS <= LOG_MAX_SIZE -> log_size lg = LS -> c_ctxs s !! c = Some o -> ctx_ok o -> c_lock s = false -> oc_lock o = false ->
  (forall h', merged h h' (ctx_blocks o) ->
     Q (N =? 1, LS)
       (set_c_log (mkLogState (last_allocated_ts lg) (last_persisted_ts lg) (lg_log_start lg)
                     (if N =? 1 then 0 else LS)
                     (log_used lg - OP_MAX_NUM_BLOCKS + (lh_num_blocks h' - lh_num_blocks h)) (N - 1))
          (set_c_header h' s))) ->
  wp (end_op_enter c) Q s.
Proof.
  intros h lg Hwf Hcnt HN Hused HLS Hls Ho Hok Hlk Hlo HQ.
  unfold OP_MAX_NUM_BLOCKS, LOG_MAX_SIZE, BLOCK_SIZE in *. change ((512 - 8) / 8) with 63 in HLS.
  pose proof (merge_length (entries h) (ctx_blocks o)) as Hml.
  assert (0 <= lh_num_blocks h) by apply Hwf.
  pose proof (length_entries h Hwf ltac:(lia)) as Hle. pose proof (ctx_blocks_len o Hok) as Hcl.
  assert (0 <= oc_num_blocks o <= 10) as Hon by apply Hok.
  unfold end_op_enter. apply wp_bind, wp_acquire_lock; [done|].
  apply wp_bind. eapply (commit_spec c o); simpl; try done; try (fold h lg; lia).
  intros h' Hm. fold h lg in Hm |- *. destruct (merged_num h h' _ Hwf ltac:(lia) Hm) as [_ Hn'].
  rewrite (commit_used_ok _ _ _ _ N) by (unfold OP_MAX_NUM_BLOCKS; lia).
  assert ((u64 (op_count lg - 1) =? 0) = (N =? 1)) as Hlast.
  { rewrite u64_id by lia. rewrite Hcnt. destruct (Z.eqb_spec (N - 1) 0), (Z.eqb_spec N 1); (done || lia). }
  specialize (HQ h' Hm). unfold OP_MAX_NUM_BLOCKS in HQ |- *.
  apply wp_bind, wp_modify. apply wp_bind, wp_gets. simpl. rewrite Hlast.
  rewrite u64_id in Hlast |- * by lia. rewrite Hls, Hcnt.
  assert (s = mkCache (c_dev s) (c_blocks s) (c_next s) (c_head s) false h lg (c_used_block s) (c_ctxs s)) as Hs
    by (unfold h, lg; destruct s; simpl in *; by subst).
  destruct (N =? 1); apply wp_bind, wp_modify, wp_bind, wp_release_lock; try done; apply wp_ret;
    rewrite Hs in HQ; unfold set_c_log, set_c_lock, set_c_header, set_op_count, set_log_used,
      set_log_size in *; simpl in *; rewrite ?Hls; exact HQ.
Qed.

(** What [end_op_enter] does, from a state that satisfies the invariant. *)
Lemma end_op_enter_spec LS t c o (Q : bool * Z -> cache -> Prop) :
  tx_inv LS t -> c ∈ tx_running t -> c_ctxs (tx_s t) !! c = Some o -> ctx_ok o ->
  c_lock (tx_s t) = false -> oc_lock o = false ->
  let s := tx_s t in let h := c_header s in let lg := c_log s in
  let last := bool_decide (tx_running t ∖ {[c]} = ∅) in
  (forall h', merged h h' (ctx_blocks o) ->
     Q (last, LS)
       (set_c_log (mkLogState (last_allocated_ts lg) (last_persisted_ts lg) (lg_log_start lg)
                     (if last then 0 else LS)
                     (log_used lg - OP_MAX_NUM_BLOCKS + (lh_num_blocks h' - lh_num_blocks h))
                     (op_count lg - 1))
          (set_c_header h' s))) ->
  wp (end_op_enter c) Q s.
Proof.
  intros [Hwf Hcnt Hused HLS Hph _] Hin Ho Hok Hlk Hlo s h lg last HQ.
  assert (size (tx_running t) <> 0%nat) as Hsz by (intros Hz%size_empty_inv; set_solver).
  assert (log_size lg = LS) as Hls.
  { destruct (tx_ckpt t); [|apply Hph]. destruct Hph as (_ & _ & Hn). set_solver. }
  assert (size (tx_running t ∖ {[c]}) = (size (tx_running t) - 1)%nat) as Hsd.
  { rewrite size_difference by set_solver. by rewrite size_singleton. }
  assert ((op_count lg =? 1) = last) as Hlast.
  { unfold last, lg, s. rewrite Hcnt. destruct (Z.eqb_spec (Z.of_nat (size (tx_running t))) 1) as [E|E]; symmetry.
    - apply bool_decide_eq_true, leibniz_equiv, size_empty_inv. lia.
    - apply bool_decide_eq_false. intros He. apply E. rewrite He, size_empty in Hsd. lia. }
  apply (end_op_enter_counted LS (op_count lg) s c o); try done.
  - unfold lg, s. lia. - unfold lg, s. rewrite Hcnt. done.
  - rewrite Hlast. exact HQ.
Qed.

Lemma keeps_Ok {A} (m : M cache A) s a s' : keeps m -> m s = Ok (a, s') -> same_rest s s'.
Proof. intros Hk Hm. specialize (Hk s). by rewrite Hm in Hk. Qed.

Lemma keeps_write_header sb : keeps (write_header sb).
Proof. unfold write_header, device_write_M. keeps_tac. Qed.

Definition same_ctxs s s' : Prop := c_log s' = c_log s /\ c_ctxs s' = c_ctxs s.

Lemma replay_frame sb s s' :
  replay sb s = Ok (tt, s') -> c_header s' = cleared (c_header s) /\ same_ctxs s s'.
Proof.
  unfold replay. intros (n & s1 & [= <- <-] & H)%bind_Ok.
  destruct (Z.eqb_spec (lh_num_blocks (c_header s)) 0) as [E|E].
  - injection H as <-. split; [|done]. unfold cleared. rewrite <- E. by destruct (c_header s).
  - apply bind_Ok in H as (? & s2 & H2 & H).
    apply (keeps_Ok _ _ _ _ (keeps_each _ _ keeps_replay_one)) in H2 as [[Hh Hl] [_ Hc]].
    apply bind_Ok in H as (? & s3 & [= <- <-] & H).
    apply bind_Ok in H as (? & s4 & [= <- <-] & H).
    apply (keeps_Ok _ _ _ _ (keeps_write_header sb)) in H as [[Hh' Hl'] [_ Hc']].
    simpl in *. rewrite Hh', Hh. split; [done|]. split; congruence.
Qed.

Lemma checkpoint_frame sb s s' :
  checkpoint sb s = Ok (tt, s') ->
  c_header s' = cleared (c_header s) /\ c_ctxs s' = c_ctxs s /\ c_lock s' = false /\
  c_log s' = set_last_persisted_ts (last_allocated_ts (c_log s)) (c_log s).
Proof.
  unfold checkpoint. intros (n & s1 & [= <- <-] & H)%bind_Ok.
  apply bind_Ok in H as (? & s1 & H1 & H).
  apply (keeps_Ok _ _ _ _ (keeps_each _ _ keeps_checkpoint_one)) in H1 as [[Hh1 Hl1] [_ Hc1]].
  apply bind_Ok in H as (? & s2 & H2 & H).
  apply (keeps_Ok _ _ _ _ (keeps_write_header sb)) in H2 as [[Hh2 Hl2] [_ Hc2]].
  apply bind_Ok in H as ([] & s3 & [Hh3 [Hl3 Hc3]]%replay_frame & H).
  apply bind_Ok in H as ([] & s4 & H4 & H).
  pose proof (keeps_Ok _ _ _ _ keeps_acquire_lock H4) as [[Hh4 Hl4] [_ Hc4]].
  apply bind_Ok in H as ([] & s5 & [= <-] & H).
  unfold release_lock in H. apply bind_Ok in H as (lk & s6 & [= <- <-] & H). simpl in H.
  destruct (c_lock s4); [|done]. injection H as <-. simpl.
  rewrite Hh4, Hh3, Hh2, Hh1, Hc4, Hc3, Hc2, Hc1, Hl4, Hl3, Hl2, Hl1. done.
Qed.

Lemma end_op_finish_frame sb sz s s' :
  end_op_finish sb sz s = Ok (tt, s') ->
  c_header s' = cleared (c_header s) /\ c_ctxs s' = c_ctxs s /\
  let lg := c_log s in
  c_log s' = mkLogState (last_allocated_ts lg) (last_allocated_ts lg) (lg_log_start lg) sz 0 (op_count lg).
Proof.
  unfold end_op_finish. intros ([] & s1 & (Hh & Hc & Hlk & Hl)%checkpoint_frame & H)%bind_Ok.
  destruct s1 as [dev bl nx hd lk h lg ub cx]. simpl in *. subst lk h lg cx.
  injection H as <-. done.
Qed.

Lemma cleared_wf h : LogHeader_wf h -> LogHeader_wf (cleared h).
Proof. intros (? & ? & ?). split_and!; simpl; [lia|lia|done|done]. Qed.

Lemma tx_inv_rest LS t t' :
  tx_inv LS t -> same_rest (tx_s t) (tx_s t') -> tx_running t' = tx_running t ->
  tx_ckpt t' = tx_ckpt t -> tx_inv LS t'.
Proof.
  intros [? ? ? ? ? ?] [[Hh Hl] [_ Hc]] Hr Hk. split; rewrite ?Hh, ?Hl, ?Hr, ?Hk, ?Hc; done.
Qed.

Lemma fresh_ctx_ok ts : ctx_ok (fresh_ctx ts).
Proof.
  split_and!; [done|done|done|]. apply (Forall_replicate (fun b => 0 <= b < 2 ^ 64) 10 0). lia.
Qed.

Lemma tx_inv_bounds LS t :
  tx_inv LS t -> 0 <= lh_num_blocks (c_header (tx_s t)) /\ LS <= 63.
Proof. intros Hi. split; [apply Hi|apply (ti_LS _ _ Hi)]. Qed.

Lemma tx_begin_inv LS s s' A k c :
  tx_inv LS (mkTx s A k) -> c ∉ A -> cache_begin_op c s = Ok (tt, s') ->
  tx_inv LS (mkTx s' ({[c]} ∪ A) k).
Proof.
  intros Hi Hc H. destruct (tx_inv_bounds _ _ Hi) as [Hnum HLS'].
  destruct Hi as [Hwf Hcnt Hused HLS Hph Hctx]. simpl in *.
  rewrite cache_begin_op_eq in H by (by eapply begin_op_Ok_lock).
  unfold OP_MAX_NUM_BLOCKS in *.
  destruct (Z.ltb_spec (log_size (c_log s)) (u64 (log_used (c_log s) + 10))) as [|Hle]; [done|].
  injection H as <-. rewrite u64_id in Hle by lia.
  assert (size ({[c]} ∪ A) = S (size A)) as Hsz.
  { rewrite size_union by set_solver. by rewrite size_singleton. }
  assert (k = None) as -> by (destruct k; [lia|done]).
  split; simpl; rewrite ?Hsz; unfold OP_MAX_NUM_BLOCKS; rewrite ?u64_id by lia; try done; try lia.
  - split; [apply Hph|]. intros He. exfalso. set_solver.
  - intros c'. destruct (decide (c' = c)) as [->|Hne].
    + intros _. eexists. split; [apply lookup_insert_eq|apply fresh_ctx_ok].
    + intros Hc'. rewrite lookup_insert_ne by done. apply Hctx. set_solver.
Qed.

Lemma tx_sync_inv LS s s' A k c p b :
  tx_inv LS (mkTx s A k) -> c ∈ A -> c_blocks s !! p = Some b -> 0 <= bk_block_no b < 2 ^ 64 ->
  cache_sync (Some c) p s = Ok (tt, s') -> tx_inv LS (mkTx s' A k).
Proof.
  intros [Hwf Hcnt Hused HLS Hph Hctx] Hc Hb Hn H. simpl in *.
  destruct (Hctx c Hc) as (o & Ho & Hok). destruct (sync_Ok _ _ _ _ _ Ho H) as [Hlk Hlo].
  rewrite (cache_sync_eq c o p b) in H by done.
  destruct (Z.ltb_spec (Z.of_nat (find_pos (bk_block_no b) (ctx_blocks o))) OP_MAX_NUM_BLOCKS); [|done].
  injection H as <-. split; simpl; try done. intros c' Hc'.
  destruct (decide (c' = c)) as [->|Hne].
  - eexists. split; [apply lookup_insert_eq|]. by apply synced_blocks.
  - rewrite lookup_insert_ne by done. by apply Hctx.
Qed.

Lemma tx_end_inv LS s s' A k c r :
  tx_inv LS (mkTx s A k) -> c ∈ A -> end_op_enter c s = Ok (r, s') ->
  tx_inv LS (mkTx s' (A ∖ {[c]}) (if r.1 : bool then Some r.2 else k)).
Proof.
  intros Hi Hc H. destruct (tx_inv_bounds _ _ Hi) as [Hnum HLS'].
  pose proof Hi as [Hwf Hcnt Hused HLS Hph Hctx]. simpl in *.
  destruct (Hctx c Hc) as (o & Ho & Hok). destruct (end_enter_Ok _ _ _ _ _ Ho H) as [Hlk Hlo].
  assert (size A = S (size (A ∖ {[c]}))) as Hsd.
  { rewrite (union_difference_singleton_L c A) at 1 by done.
    rewrite size_union by set_solver. by rewrite size_singleton. }
  assert (k = None) as ->. { destruct k; [|done]. destruct Hph as (_ & _ & ->). set_solver. }
  enough (Hwp : wp (end_op_enter c) (fun r s' =>
            tx_inv LS (mkTx s' (A ∖ {[c]}) (if r.1 : bool then Some r.2 else None))) s).
  { unfold wp in Hwp. by rewrite H in Hwp. }
  apply (end_op_enter_spec LS (mkTx s A None) c o); try done. intros h' Hm. simpl in *.
  unfold OP_MAX_NUM_BLOCKS in *.
  destruct (merged_num _ _ _ Hwf ltac:(lia) Hm) as [_ Hn']. pose proof (ctx_blocks_len o Hok) as Hcl.
  assert (0 <= oc_num_blocks o <= 10) as Hon by apply Hok.
  split; simpl; unfold OP_MAX_NUM_BLOCKS; [apply Hm|lia|lia|done| |].
  - case_bool_decide as He; [done|]. split; [done|]. intros He'. done.
  - intros c' Hc'. apply Hctx. set_solver.
Qed.

Lemma tx_finish_inv sb LS s s' A sz :
  tx_inv LS (mkTx s A (Some sz)) -> end_op_finish sb sz s = Ok (tt, s') -> tx_inv LS (mkTx s' A None).
Proof.
  intros [Hwf Hcnt Hused HLS Hph Hctx] H. simpl in *.
  apply end_op_finish_frame in H as (Hh & Hc & Hl). destruct Hph as (-> & Hz & HA).
  split; simpl; rewrite ?Hh, ?Hl, ?Hc, ?HA, ?size_empty; simpl; try done.
  - by apply cleared_wf.
  - by rewrite Hcnt, HA.
  - rewrite HA, size_empty in Hused. destruct Hwf as [? _]. unfold OP_MAX_NUM_BLOCKS in *. lia.
Qed.

(** Every step preserves the space invariant. *)
Lemma tx_step_inv sb LS t t' : tx_inv LS t -> tx_step sb t t' -> tx_inv LS t'.
Proof.
  intros Hi Hst. destruct Hst.
  - by eapply tx_begin_inv.
  - by eapply tx_sync_inv.
  - by eapply (tx_end_inv LS s s' A k c (ck, sz)).
  - by eapply tx_finish_inv.
  - eapply tx_inv_rest; [exact Hi|by eapply keeps_Ok; [apply (keeps_acquire n)|]|done..].
  - eapply tx_inv_rest; [exact Hi|by eapply keeps_Ok; [apply (keeps_release p)|]|done..].
  - eapply tx_inv_rest; [exact Hi|by eapply keeps_Ok; [apply keeps_upd_block|]|done..].
Qed.

(** The states reached from the one [init_bcache] leaves. *)
Inductive tx_reachable (sb : SuperBlock) : txst -> Prop :=
| tx_start d s :
    disk_ok sb (dv_disk d) -> init_bcache sb (init_cache d) = Ok (tt, s) ->
    tx_reachable sb (mkTx s ∅ None)
| tx_next t t' : tx_reachable sb t -> tx_step sb t t' -> tx_reachable sb t'.

Lemma tx_reachable_inv sb t : tx_reachable sb t -> tx_inv (log_block_count sb) t.
Proof.
  induction 1 as [d s Hd Hs|t t' _ IH Hst]; [|by eapply tx_step_inv].
  enough (Hwp : wp (init_bcache sb) (fun _ s' => tx_inv (log_block_count sb) (mkTx s' ∅ None)) (init_cache d)).
  { unfold wp in Hwp. by rewrite Hs in Hwp. }
  apply init_bcache_spec; [done|]. intros s1 Hw.
  destruct (ws_rest _ _ _ _ _ Hw) as [[_ Hl] _].
  split; cbn [tx_s tx_running tx_ckpt]; change (c_log (set_c_header ?h ?s)) with (c_log s); rewrite ?Hl.
  - apply cleared_wf, Hd.
  - done.
  - simpl op_count; simpl log_used; simpl lh_num_blocks. unfold log_block_count, LOG_MAX_SIZE, BLOCK_SIZE. pose proof (u32_range (num_log_blocks sb - 1)).
    change ((512 - 8) / 8) with 63. unfold OP_MAX_NUM_BLOCKS.
    replace (size (∅ : gset nat)) with 0%nat by (symmetry; apply size_empty). lia.
  - unfold log_block_count. lia.
  - done.
  - intros c Hc. set_solver.
Qed.

(** ** [end_op] of the last operation *)
Lemma idle_relog s h lg : idle s -> idle (set_c_log lg (set_c_header h s)).
Proof. intros [[] Hl]. split; [by split|done]. Qed.

(** A state in which operation [c], with context [o], is the only one running,
    and nobody holds a block. *)
Record last_op (sb : SuperBlock) (s : cache) (c : nat) (o : OpContext) : Prop := {
  lo_inv : tx_inv (log_block_count sb) (mkTx s {[c]} None);
  lo_ctx : c_ctxs s !! c = Some o;
  lo_ok : ctx_ok o;
  lo_lock : oc_lock o = false;
  lo_idle : idle s;
  lo_miss : cached s (log_start sb) = None;
  lo_nodup : NoDup (entries (c_header s));
  lo_data : forall m, m ∈ entries (c_header s) \/ m ∈ ctx_blocks o ->
              outside sb (first_log_block sb) (log_block_count sb) m;
  lo_start : lg_log_start (c_log s) = first_log_block sb;
  lo_ls : log_start sb < first_log_block sb;
  lo_disk : quiet_log sb (dv_disk (c_dev s))
}.

(** The blocks after [end_op]: those of the header and of the context have
    their content in the cache. *)
Definition op_result (s : cache) (o : OpContext) (m : Z) : list Z :=
  if decide (m ∈ entries (c_header s) \/ m ∈ ctx_blocks o) then view s m else dev_read s m.

Lemma last_op_ready sb s c o h' lg' :
  last_op sb s c o -> merged (c_header s) h' (ctx_blocks o) ->
  lg_log_start lg' = first_log_block sb ->
  lh_num_blocks h' <= log_block_count sb ->
  log_ready sb (set_c_log lg' (set_c_header h' s)).
Proof.
  intros Hlo [Hwf Hn He] Hls Hcnt. destruct (tx_inv_bounds _ _ (lo_inv _ _ _ _ Hlo)) as [_ HLS].
  pose proof (length_entries _ Hwf ltac:(lia)) as Hlen.
  split; [apply idle_relog, Hlo|apply Hlo|]. simpl. rewrite Hls.
  split; [done|lia|]. rewrite He. split.
  - apply merge_nodup, Hlo.
  - intros m Hm%merge_elem. destruct (lo_data _ _ _ _ Hlo m Hm) as [Hm1 Hm2]. split; [done|].
    intros i Hi. apply Hm2. rewrite <- He in Hi. lia.
  - apply Hlo.
Qed.

(** The state in which the thread that ends the last operation starts the checkpoint. *)
Definition entered (s : cache) (h' : LogHeader) : cache :=
  let lg := c_log s in
  set_c_log (mkLogState (last_allocated_ts lg) (last_persisted_ts lg) (lg_log_start lg) 0
               (log_used lg - OP_MAX_NUM_BLOCKS + (lh_num_blocks h' - lh_num_blocks (c_header s)))
               (op_count lg - 1)) (set_c_header h' s).

Record end_op_post (sb : SuperBlock) (s : cache) (o : OpContext) (h' : LogHeader) (s' : cache) : Prop := {
  eo_merged : merged (c_header s) h' (ctx_blocks o);
  eo_count : lh_num_blocks h' <= log_block_count sb;
  eo_ready : log_ready sb (entered s h');
  eo_wrote : wrote (c_dev s) (c_dev s') (checkpoint_writes sb (view s) (first_log_block sb) h');
  eo_view : forall m, outside sb (first_log_block sb) (log_block_count sb) m -> view s' m = view s m;
  eo_hdr : c_header s' = cleared h';
  eo_log : c_log s' = mkLogState (last_allocated_ts (c_log s)) (last_allocated_ts (c_log s)) (lg_log_start (c_log s))
                        (log_block_count sb) 0 (op_count (c_log s) - 1);
  eo_rest : c_used_block s' = c_used_block s /\ c_ctxs s' = c_ctxs s;
  eo_idle : idle s';
  eo_miss : cached s' (log_start sb) = None;
  eo_pinned : forall m, is_pinned s' m = is_pinned s m && bool_decide (m ∉ entries h');
  eo_over : forall m, view s' m = over (view s) (checkpoint_writes sb (view s) (first_log_block sb) h') m
}.

Lemma end_op_last sb s c o :
  last_op sb s c o -> wp (cache_end_op sb c) (fun _ s' => exists h', end_op_post sb s o h' s') s.
Proof.
  intros Hlo. pose proof (lo_inv _ _ _ _ Hlo) as Hi.
  destruct (tx_inv_bounds _ _ Hi) as [Hnum HLS].
  pose proof (ti_used _ _ Hi) as Hu. cbn [tx_s tx_running] in Hu, Hnum.
  rewrite size_singleton in Hu. unfold OP_MAX_NUM_BLOCKS in Hu.
  pose proof (lo_ok _ _ _ _ Hlo) as Hok. pose proof (ctx_blocks_len o Hok) as Hcl.
  assert (0 <= oc_num_blocks o <= 10) as Hon by apply Hok.
  eapply wp_change; [apply cache_end_op_phases|]. apply wp_bind.
  apply (end_op_enter_spec (log_block_count sb) (mkTx s {[c]} None) c o); try apply Hlo; [set_solver|].
  cbn [tx_s tx_running]. intros h' Hm. rewrite bool_decide_true by set_solver. cbn [fst snd].
  destruct (merged_num _ _ _ (ti_hdr _ _ Hi) ltac:(cbn [tx_s]; lia) Hm) as [_ Hn']. cbn [tx_s] in Hn'.
  assert (lh_num_blocks h' <= log_block_count sb) as Hcnt by lia.
  change (set_c_log _ _) with (entered s h').
  assert (log_ready sb (entered s h')) as Hr by (eapply last_op_ready; [done|done|apply Hlo|done]).
  unfold end_op_finish. apply wp_bind, checkpoint_spec; [done|]. intros s2 Hw.
  pose proof (ci_lock _ (proj1 (ws_idle _ _ _ _ _ Hw))) as Hlk.
  apply wp_bind, wp_acquire_lock; [done|]. apply wp_bind, wp_modify, wp_bind, wp_modify.
  apply wp_release_lock; [done|]. exists h'.
  pose proof (ws_view _ _ _ _ _ Hw) as Hv. simpl in Hv. rewrite (lo_start _ _ _ _ Hlo) in Hv.
  split; try done.
  - pose proof (ws_dev _ _ _ _ _ Hw) as Hd. simpl in Hd. by rewrite (lo_start _ _ _ _ Hlo) in Hd.
  - intros m [Hm1 Hm2]. change (view s2 m = view s m). rewrite Hv.
    pose proof (lr_hdr _ _ Hr) as Hg. simpl in Hg. rewrite (lo_start _ _ _ _ Hlo) in Hg.
    rewrite over_checkpoint; [by case_decide|done|]. split; [done|]. intros i Hi'. apply Hm2. lia.
  - apply (ws_rest _ _ _ _ _ Hw).
  - split; [|apply (ws_idle _ _ _ _ _ Hw)]. destruct (proj1 (ws_idle _ _ _ _ _ Hw)). by split.
  - apply (ws_miss _ _ _ _ _ Hw).
  - apply (ws_pinned _ _ _ _ _ Hw).
Qed.

Lemma end_op_committed sb s o h' s' m :
  end_op_post sb s o h' s' -> committed (entered s h') m = op_result s o m.
Proof.
  intros Hp. unfold committed, op_result. simpl. destruct (eo_merged _ _ _ _ _ Hp) as [_ _ ->].
  apply decide_ext, merge_elem.
Qed.

(** What a crash among the writes of [end_op] leaves, and what they leave when
    they are all done. *)
Lemma end_op_prefix sb s c o h' s' k :
  last_op sb s c o -> end_op_post sb s o h' s' ->
  let d := apply_writes (dv_disk (c_dev s)) (take k (checkpoint_writes sb (view s) (first_log_block sb) h')) in
  recovering sb d (log_block_count sb) (dev_read s) \/ recovering sb d (log_block_count sb) (op_result s o).
Proof.
  intros Hlo Hp d. destruct (checkpoint_prefix sb (entered s h') k) as [H|H];
    [apply Hp|apply Hlo|apply Hlo| |]; [left|right];
    apply (recovering_mono _ _ _ _ _ (eo_count _ _ _ _ _ Hp)); [done|].
  eapply recovering_ext; [intros m; by apply (end_op_committed _ _ _ _ _ m Hp)|done].
Qed.

Lemma end_op_durable sb s c o h' s' :
  last_op sb s c o -> end_op_post sb s o h' s' ->
  recovering sb (apply_writes (dv_disk (c_dev s)) (checkpoint_writes sb (view s) (first_log_block sb) h'))
    (log_block_count sb) (op_result s o).
Proof.
  intros Hlo Hp. apply (recovering_mono _ _ _ _ _ (eo_count _ _ _ _ _ Hp)).
  eapply recovering_ext; [intros m; by apply (end_op_committed _ _ _ _ _ m Hp)|].
  apply (checkpoint_durable sb (entered s h')); [apply Hp|apply Hlo|apply Hlo].
Qed.

(** ** Properties *)

(** C3: An atomic operation is all or nothing.  When the last running
    operation calls [end_op], [end_op] returns, and if the machine stops after
    any number of the device writes it makes, [init_bcache] on the disk left
    terminates and every block outside of the log reads as before the
    operation, or every one reads as the operations ended so far left it; with
    all writes done it is the latter. *)
Theorem end_op_crash_atomic sb s c o :
  last_op sb s c o ->
  exists s' ws, cache_end_op sb c s = Ok (tt, s') /\
    dv_writes (c_dev s') = dv_writes (c_dev s) ++ ws /\
    (forall k, let d := apply_writes (dv_disk (c_dev s)) (take k ws) in
       recovers_to sb d (log_block_count sb) (dev_read s) \/
       recovers_to sb d (log_block_count sb) (op_result s o)) /\
    recovers_to sb (dv_disk (c_dev s')) (log_block_count sb) (op_result s o) /\
    (forall m, outside sb (first_log_block sb) (log_block_count sb) m -> view s' m = view s m).
Proof.
  intros Hlo. destruct (proj1 (wp_ok _ _ _) (end_op_last _ _ _ _ Hlo)) as ([] & s' & Heq & h' & Hp).
  destruct (eo_wrote _ _ _ _ _ Hp) as [Hd Hw]. eexists s', _. split; [done|]. split; [done|].
  split; [|split; [|apply Hp]].
  - intros k. destruct (end_op_prefix _ _ _ _ _ _ k Hlo Hp) as [H|H]; [left|right]; by apply recovers_to_intro.
  - rewrite Hd. apply recovers_to_intro. by eapply end_op_durable.
Qed.

(** *** A concrete operation

    The superblock mkfs writes; one operation that has changed block 1000. *)
Definition demo_block : Block := mkBlock 1000 false true false true (replicate bsize 7).
Definition demo_ctx : OpContext := mkOpContext false 1 1 (1000 :: replicate 9 0).
Definition demo : cache :=
  mkCache (mkDevice ∅ []) {[0%nat := demo_block]} 1 [0%nat] false
    (mkLogHeader 0 (replicate 63 0)) (mkLogState 1 0 3 62 10 1) (replicate 10 0) {[0%nat := demo_ctx]}.

(** It is the state the code reaches. *)
Example demo_reached :
  (init_bcache demo_sb;;
   cache_begin_op 0;;
   p ← cache_acquire 1000;
   upd_block p (set_bk_data (replicate bsize 7));;
   cache_sync (Some 0%nat) p;;
   cache_release p) (init_cache (mkDevice ∅ [])) = Ok (tt, demo).
Proof. vm_compute. reflexivity. Qed.

Lemma demo_disk_ok : disk_ok demo_sb ∅.
Proof.
  split; [intros m; unfold disk_read; by rewrite lookup_empty|].
  split; [split; [done|split; [done|]]|done|split; [constructor| |done]].
  - apply (bool_decide_unpack _). vm_compute. exact I.
  - intros m Hm. by apply not_elem_of_nil in Hm.
Qed.

Lemma demo_idle : idle demo.
Proof.
  split.
  - split; simpl; try done.
    + intros p. rewrite list_elem_of_singleton, lookup_singleton_is_Some. done.
    + apply NoDup_singleton.
    + intros p. rewrite lookup_singleton_is_Some. lia.
    + intros p q b b' [<- _]%lookup_singleton_Some [<- _]%lookup_singleton_Some. done.
    + intros p b [_ <-]%lookup_singleton_Some. done.
    + intros p b [_ <-]%lookup_singleton_Some. done.
    + intros p b [_ <-]%lookup_singleton_Some. done.
    + intros p b [_ <-]%lookup_singleton_Some. done.
  - intros m. unfold is_locked. destruct (cached demo m) as [b|] eqn:E; [|done].
    apply cached_Some in E as (p & Hp & _). simpl in Hp.
    apply lookup_singleton_Some in Hp as [_ <-]. done.
Qed.

Lemma demo_last_op : last_op demo_sb demo 0 demo_ctx.
Proof.
  assert (ctx_ok demo_ctx) as Hok.
  { split_and!; try done. apply (bool_decide_unpack _). vm_compute. exact I. }
  split; try done.
  - split; simpl; try done.
    + split_and!; try done. apply (bool_decide_unpack _). vm_compute. exact I.
    + intros c ->%elem_of_singleton. by exists demo_ctx.
  - apply demo_idle.
  - constructor.
  - intros m. change (entries (c_header demo)) with ([] : list Z).
    change (ctx_blocks demo_ctx) with [1000]. rewrite list_elem_of_singleton.
    intros [?%not_elem_of_nil| ->]; [done|]. split; [done|].
    change (log_block_count demo_sb) with 62. change (first_log_block demo_sb) with 3. lia.
  - split; [apply demo_disk_ok|done].
Qed.

Lemma end_op_crash_atomic_witness :
  exists s' ws, cache_end_op demo_sb 0 demo = Ok (tt, s') /\
    dv_writes (c_dev s') = dv_writes (c_dev demo) ++ ws /\
    (forall k, let d := apply_writes ∅ (take k ws) in
       recovers_to demo_sb d 62 (dev_read demo) \/ recovers_to demo_sb d 62 (op_result demo demo_ctx)) /\
    recovers_to demo_sb (dv_disk (c_dev s')) 62 (op_result demo demo_ctx) /\
    (forall m, outside demo_sb 3 62 m -> view s' m = view demo m).
Proof. exact (end_op_crash_atomic demo_sb demo 0 demo_ctx demo_last_op). Defined.

(** C5: The log never overflows.  However operations interleave, an operation
    that ends finds the space for its blocks: [end_op]'s [commit] does not
    fail its assertion, and the header it leaves fits in the log. *)
Theorem log_never_overflows sb t c o :
  tx_reachable sb t -> c ∈ tx_running t -> c_ctxs (tx_s t) !! c = Some o ->
  c_lock (tx_s t) = false -> oc_lock o = false ->
  exists r s', end_op_enter c (tx_s t) = Ok (r, s') /\
    lh_num_blocks (c_header s') <= log_block_count sb <= LOG_MAX_SIZE.
Proof.
  intros Hr Hc Ho Hlk Hlo. pose proof (tx_reachable_inv _ _ Hr) as Hi.
  destruct (ti_ctx _ _ Hi c Hc) as (o' & Ho' & Hok). simplify_eq.
  assert (wp (end_op_enter c) (fun _ s' => lh_num_blocks (c_header s') <= log_block_count sb) (tx_s t)) as Hwp.
  { eapply end_op_enter_spec; try done. simpl. intros h' Hm.
    pose proof (ti_used _ _ Hi) as Hu. destruct (tx_inv_bounds _ _ Hi) as [Hn HLS].
    unfold OP_MAX_NUM_BLOCKS in Hu.
    destruct (merged_num _ _ _ (ti_hdr _ _ Hi) ltac:(lia) Hm) as [_ Hn'].
    rewrite (ctx_blocks_len o Hok) in Hn'. destruct Hok as ([_ Hle] & _). unfold OP_MAX_NUM_BLOCKS in Hle.
    assert (size (tx_running t) <> 0%nat) by (intros Hz%size_empty_inv; set_solver). lia. }
  apply wp_ok in Hwp as (r & s' & Heq & Hn). exists r, s'. split; [done|].
  split; [done|apply (ti_LS _ _ Hi)].
Qed.

(** [begin_op] does not wait for nothing: with no operation running and no
    checkpoint under way, a log of at least ten blocks admits an operation. *)
Theorem begin_op_available sb t c :
  tx_reachable sb t -> tx_running t = ∅ -> tx_ckpt t = None -> c_lock (tx_s t) = false ->
  OP_MAX_NUM_BLOCKS <= log_block_count sb ->
  exists s', cache_begin_op c (tx_s t) = Ok (tt, s').
Proof.
  intros Hr Ha Hk Hlk HLS. pose proof (tx_reachable_inv _ _ Hr) as [_ _ _ _ Hph _].
  rewrite Hk in Hph. destruct Hph as [Hsz Hu]. rewrite cache_begin_op_eq by done.
  rewrite (Hu Ha), Hsz. unfold OP_MAX_NUM_BLOCKS in *. rewrite u64_id by lia.
  rewrite (proj2 (Z.ltb_ge _ _)) by lia. eauto.
Qed.

(** The state after booting on an empty disk, and a running operation on it. *)
Definition demo_boot : cache := set_c_header (cleared (disk_header demo_sb ∅)) (boot_state demo_sb (mkDevice ∅ [])).

Lemma demo_boot_reachable : tx_reachable demo_sb (mkTx demo_boot ∅ None).
Proof. apply (tx_start _ (mkDevice ∅ [])); [apply demo_disk_ok|vm_compute; reflexivity]. Qed.

Definition demo_begun : cache :=
  set_c_ctxs {[0%nat := fresh_ctx 1]} (set_c_log (mkLogState 1 0 3 62 10 1) demo_boot).

Lemma demo_begun_reachable : tx_reachable demo_sb (mkTx demo_begun {[0%nat]} None).
Proof.
  eapply tx_next; [apply demo_boot_reachable|].
  replace {[0%nat]} with ({[0%nat]} ∪ ∅ : gset nat) by set_solver.
  apply tx_begin; [set_solver|]. vm_compute. reflexivity.
Qed.

Lemma log_never_overflows_witness :
  exists r s', end_op_enter 0 demo_begun = Ok (r, s') /\
    lh_num_blocks (c_header s') <= log_block_count demo_sb <= LOG_MAX_SIZE.
Proof.
  apply (log_never_overflows demo_sb (mkTx demo_begun {[0%nat]} None) 0 (fresh_ctx 1));
    [apply demo_begun_reachable|set_solver|done|done|done].
Defined.

Lemma begin_op_available_witness : exists s', cache_begin_op 7 demo_boot = Ok (tt, s').
Proof.
  apply (begin_op_available demo_sb (mkTx demo_boot ∅ None) 7);
    [apply demo_boot_reachable|done|done|done|vm_compute; discriminate].
Defined.

End CacheTx.
