(* ===== verification/NestedOp.v ===== *)
(** * An operation begun inside of an operation

    [namex] begins an operation, with the context of its caller, where a path
    leads through a file that is no directory; its callers have begun one
    already. The inner [end_op] then waits for a checkpoint that only the end of
    the outer operation could start. *)
From S2P Require Import Prelude Bitmap FsDefines Cache CacheFacts CacheLog CacheTx.
From stdpp Require Import relations.

#[local] Open Scope Z_scope.

Module NestedOp.
Import Cache CacheFacts CacheLog CacheTx.

#[local] Arguments cache_sync : simpl never.
#[local] Arguments cache_begin_op : simpl never.

(** The steps of the threads but the one that runs operation [c]. *)
Definition others (sb : SuperBlock) (c : nat) (t t' : txst) : Prop := tx_step sb t t' /\ c ∈ tx_running t'.

(** Operation [c] is counted, and waits for timestamp [T], when [P] is the last
    that was persisted. *)
Record stuck (LS : Z) (c : nat) (P T : Z) (t : txst) : Prop := {
  st_inv : tx_inv LS t;
  st_running : c ∈ tx_running t;
  st_persisted : last_persisted_ts (c_log (tx_s t)) = P;
  st_ts : exists o, c_ctxs (tx_s t) !! c = Some o /\ oc_ts o = T
}.

Lemma stuck_rest LS c P T t t' :
  stuck LS c P T t -> tx_inv LS t' -> c ∈ tx_running t' -> same_rest (tx_s t) (tx_s t') -> stuck LS c P T t'.
Proof. intros [_ _ Hp Ht] Hi Hc [[_ Hl] [_ Hx]]. split; [done|done|by rewrite Hl|by rewrite Hx]. Qed.

Lemma begin_stuck LS c P T s s' c' A k :
  stuck LS c P T (mkTx s A k) -> c' ∉ A -> cache_begin_op c' s = Ok (tt, s') ->
  last_persisted_ts (c_log s') = P /\ exists o, c_ctxs s' !! c = Some o /\ oc_ts o = T.
Proof.
  intros [_ Hc Hp Ht] Hc' H. simpl in *. pose proof (begin_op_Ok_lock _ _ _ H) as Hlk.
  rewrite cache_begin_op_eq in H by exact Hlk.
  destruct (_ <? _)%Z; [done|]. injection H as <-. split; [done|]. simpl. destruct Ht as (o & Ho & Hts).
  exists o. split; [|done]. rewrite lookup_insert_ne by (intros ->; done). done.
Qed.

Lemma sync_stuck LS c P T s s' c' p b A k :
  stuck LS c P T (mkTx s A k) -> c' ∈ A -> c_blocks s !! p = Some b -> cache_sync (Some c') p s = Ok (tt, s') ->
  last_persisted_ts (c_log s') = P /\ exists o, c_ctxs s' !! c = Some o /\ oc_ts o = T.
Proof.
  intros [Hi Hc Hp (o & Ho & Hts)] Hc' Hb H. simpl in *. destruct (ti_ctx _ _ Hi c' Hc') as (o' & Ho' & _). cbn [tx_s] in Ho'.
  destruct (sync_Ok _ _ _ _ _ Ho' H) as [Hlk Hlo]. rewrite (cache_sync_eq c' o' p b s) in H by assumption.
  destruct (_ <? _)%Z; [|done]. injection H as <-. split; [done|]. simpl. destruct (decide (c = c')) as [->|Hne].
  - rewrite lookup_insert_eq. eexists. split; [done|]. simpl. congruence.
  - rewrite lookup_insert_ne by done. by exists o.
Qed.

Lemma end_stuck LS c P T s s' c' r A k :
  stuck LS c P T (mkTx s A k) -> c' ∈ A -> end_op_enter c' s = Ok (r, s') ->
  last_persisted_ts (c_log s') = P /\ exists o, c_ctxs s' !! c = Some o /\ oc_ts o = T.
Proof.
  intros [Hi Hc Hp Hts] Hc' H. destruct (ti_ctx _ _ Hi c' Hc') as (o' & Ho' & Hok). cbn [tx_s] in *.
  destruct (end_enter_Ok _ _ _ _ _ Ho' H) as [Hlk Hlo].
  enough (wp (end_op_enter c') (fun _ s' => last_persisted_ts (c_log s') = P /\ exists o, c_ctxs s' !! c = Some o /\ oc_ts o = T) s) as Hwp.
  { unfold wp in Hwp. by rewrite H in Hwp. }
  apply (end_op_enter_spec LS (mkTx s A k) c' o'); try done.
Qed.

Lemma others_stuck sb LS c P T t t' : stuck LS c P T t -> others sb c t t' -> stuck LS c P T t'.
Proof.
  intros Hs [Hst Hc]. pose proof (tx_step_inv sb LS t t' (st_inv _ _ _ _ _ Hs) Hst) as Hi.
  destruct Hst as [s s' A k c' Hc' H|s s' A k c' p b Hc' Hb Hn H|s s' A k c' ck sz Hc' H|s s' A sz H|s s' A k n p H|s s' A k p H|s s' A k p d H].
  - destruct (begin_stuck _ _ _ _ _ _ _ _ _ Hs Hc' H). by split.
  - destruct (sync_stuck _ _ _ _ _ _ _ _ _ _ _ Hs Hc' Hb H). by split.
  - destruct (end_stuck _ _ _ _ _ _ _ _ _ _ Hs Hc' H). by split.
  - destruct (ti_phase _ _ (st_inv _ _ _ _ _ Hs)) as (_ & _ & HA). cbn [tx_running] in *. set_solver.
  - eapply stuck_rest; [done|done|done|]. by eapply keeps_Ok; [apply (keeps_acquire n)|].
  - eapply stuck_rest; [done|done|done|]. by eapply keeps_Ok; [apply (keeps_release p)|].
  - eapply stuck_rest; [done|done|done|]. by eapply keeps_Ok; [apply keeps_upd_block|].
Qed.

(** The wait at the end of the inner operation. *)
Lemma stuck_waits LS c P T t r s' : stuck LS c P T t -> P < T -> end_op_wait c (tx_s t) <> Ok (r, s').
Proof.
  intros [_ _ Hp (o & Ho & <-)] Hlt H. unfold end_op_wait in H. apply bind_Ok in H as ([] & s1 & H1 & H).
  pose proof (keeps_Ok _ _ _ _ keeps_acquire_lock H1) as [[_ Hl] [_ Hx]].
  apply bind_Ok in H as (o' & s2 & H2 & H). unfold get_ctx in H2. apply bind_Ok in H2 as (cx & s3 & [= <- <-] & H2).
  rewrite Hx, Ho in H2. injection H2 as <- <-. apply bind_Ok in H as (lg & s4 & [= <- <-] & H).
  rewrite Hl, Hp in H. rewrite (proj2 (Z.ltb_lt _ _) Hlt) in H. by apply bind_Ok in H as (? & ? & ? & _).
Qed.

Lemma stuck_sleeps LS c P T t : stuck LS c P T t -> P < T -> c_lock (tx_s t) = false -> end_op_wait c (tx_s t) = Sleep.
Proof.
  intros [_ _ Hp (o & Ho & <-)] Hlt Hlk. unfold end_op_wait, acquire_lock, get_ctx, mbind, M_bind, gets, assert_, modify.
  rewrite Hlk. simpl. rewrite Ho. simpl. by rewrite Hp, (proj2 (Z.ltb_lt _ _) Hlt).
Qed.

(** The state after the inner [begin_op] and the first part of its [end_op]. *)
Lemma nested_enter LS t c s1 :
  tx_inv LS t -> c ∈ tx_running t -> cache_begin_op c (tx_s t) = Ok (tt, s1) ->
  0 <= last_persisted_ts (c_log (tx_s t)) ->
  last_persisted_ts (c_log (tx_s t)) <= last_allocated_ts (c_log (tx_s t)) < 2 ^ 64 - 1 ->
  exists s2, end_op_enter c s1 = Ok ((false, LS), s2) /\ c_lock s2 = false /\
    stuck LS c (last_persisted_ts (c_log (tx_s t))) (last_allocated_ts (c_log (tx_s t)) + 1) (mkTx s2 (tx_running t) None).
Proof.
  intros Hi Hc H Hts0 Hts. pose proof (begin_op_Ok_lock _ _ _ H) as Hlk. rewrite cache_begin_op_eq in H by done.
  destruct (tx_inv_bounds _ _ Hi) as [Hnum HLS']. destruct Hi as [Hwf Hcnt Hused HLS Hph Hctx].
  set (s := tx_s t) in *. set (n := Z.of_nat (size (tx_running t))) in *.
  assert (1 <= n) as Hn by (assert (size (tx_running t) <> 0%nat) by (intros Hz%size_empty_inv; set_solver); lia).
  assert (tx_ckpt t = None) as Hk by (destruct (tx_ckpt t); [destruct Hph as (_ & _ & He); set_solver|done]). rewrite Hk in Hph.
  destruct (Z.ltb_spec (log_size (c_log s)) (u64 (log_used (c_log s) + OP_MAX_NUM_BLOCKS))) as [|Hle]; [done|].
  injection H as <-. unfold OP_MAX_NUM_BLOCKS in *. rewrite u64_id in Hle by lia. rewrite u64_id by lia.
  set (o := fresh_ctx (last_allocated_ts (c_log s) + 1)).
  set (s1 := set_c_ctxs _ _).
  assert (wp (end_op_enter c) (fun r s2 => r = (false, LS) /\ c_lock s2 = false /\ stuck LS c (last_persisted_ts (c_log s)) (last_allocated_ts (c_log s) + 1)
            (mkTx s2 (tx_running t) None)) s1) as Hwp.
  { apply (end_op_enter_counted LS (n + 1) s1 c o); simpl; unfold OP_MAX_NUM_BLOCKS; rewrite ?u64_id by lia; try done; try lia.
    - apply lookup_insert_eq. - apply fresh_ctx_ok.
    - intros h' Hm. rewrite (proj2 (Z.eqb_neq (n + 1) 1)) by lia. split; [done|]. split; [done|].
      assert (lh_num_blocks h' = lh_num_blocks (c_header s)) as Hh'.
      { destruct (merged_num _ _ _ Hwf ltac:(lia) Hm) as [_ H]. unfold o, ctx_blocks in H. simpl in H. lia. }
      split; cbn [tx_s tx_running]; [|done|done|exists o; split; [apply lookup_insert_eq|done]].
      split; cbn [tx_s tx_running tx_ckpt]; simpl; [apply Hm|fold n; lia|unfold OP_MAX_NUM_BLOCKS; fold n; lia|done| |].
      + split; [done|]. intros He. set_solver.
      + intros c' Hc'. destruct (decide (c' = c)) as [->|Hne].
        * exists o. split; [apply lookup_insert_eq|apply fresh_ctx_ok].
        * rewrite lookup_insert_ne by done. by apply Hctx. }
  apply wp_ok in Hwp as (r & s2 & Heq & -> & Hlk2 & Hst). by exists s2.
Qed.

(** C16: An operation begun inside of an operation never ends.  When the thread
    that runs operation [c] begins it a second time, as [namex] does where a
    path leads through a file that is no directory, the [end_op] that follows
    does not do the checkpoint and waits; and whatever the other threads do, it
    does not return from this wait: the outer operation stays counted, so there
    is no checkpoint any more. *)
Theorem nested_op_hangs sb t c s1 :
  tx_reachable sb t -> c ∈ tx_running t -> cache_begin_op c (tx_s t) = Ok (tt, s1) ->
  0 <= last_persisted_ts (c_log (tx_s t)) ->
  last_persisted_ts (c_log (tx_s t)) <= last_allocated_ts (c_log (tx_s t)) < 2 ^ 64 - 1 ->
  exists s2, end_op_enter c s1 = Ok ((false, log_block_count sb), s2) /\ cache_end_op sb c s1 = Sleep /\
    forall t' r s', rtc (others sb c) (mkTx s2 (tx_running t) None) t' -> end_op_wait c (tx_s t') <> Ok (r, s').
Proof.
  intros Hr Hc H Hts0 Hts. pose proof (tx_reachable_inv _ _ Hr) as Hi.
  destruct (nested_enter _ _ _ _ Hi Hc H Hts0 Hts) as (s2 & Heq & Hlk & Hst). exists s2. split; [done|]. split.
  - rewrite cache_end_op_phases. unfold mbind, M_bind. rewrite Heq. simpl.
    eapply (stuck_sleeps _ _ _ _ _ Hst); [lia|done].
  - intros t' r s' Hsteps. enough (stuck (log_block_count sb) c (last_persisted_ts (c_log (tx_s t))) (last_allocated_ts (c_log (tx_s t)) + 1) t') as Hs'.
    { eapply stuck_waits; [done|lia]. }
    clear H Heq. revert Hst. induction Hsteps as [t'|t1 t2 t3 H12 _ IH]; intros Hst; [done|]. apply IH. by eapply others_stuck.
Qed.

(** One operation runs: thread 0 begins it again. *)
Lemma nested_op_hangs_witness :
  exists s1 s2, cache_begin_op 0 demo_begun = Ok (tt, s1) /\
    end_op_enter 0 s1 = Ok ((false, log_block_count demo_sb), s2) /\ cache_end_op demo_sb 0 s1 = Sleep /\
    forall t' r s', rtc (others demo_sb 0) (mkTx s2 {[0%nat]} None) t' -> end_op_wait 0 (tx_s t') <> Ok (r, s').
Proof.
  eexists.
  assert (cache_begin_op 0 demo_begun = Ok (tt, set_c_ctxs (<[0%nat := fresh_ctx 2]> {[0%nat := fresh_ctx 1]})
    (set_c_log (mkLogState 2 0 3 62 20 2) demo_boot))) as H by (vm_compute; reflexivity).
  destruct (nested_op_hangs demo_sb (mkTx demo_begun {[0%nat]} None) 0 _ demo_begun_reachable ltac:(set_solver) H
    ltac:(simpl; lia) ltac:(simpl; lia)) as (s2 & H1 & H2 & H3).
  exists s2. split; [exact H|]. split; [exact H1|]. split; [exact H2|]. exact H3.
Defined.

End NestedOp.
