(* ===== verification/CacheSpec.v ===== *)
(** * The block cache implements [BlockCacheSpec]

    The laws of BlockIface.v for the functions of cache.c other than block
    allocation; the [Instance] is in CacheAlloc.v. *)
From S2P Require Import Prelude Bitmap FsDefines BlockIface Cache CacheFacts CacheTx.

Module CacheSpec.
Import Bitmap Cache CacheFacts CacheTx.

(** [block->data], read and written by a client. *)
Definition block_data (p : nat) : M cache (list Z) := b ← get_block p; mret (bk_data b).
Definition block_store (p : nat) (d : list Z) : M cache unit := upd_block p (set_bk_data d).

(** The table [bcache]. *)
Definition bcache (sb : SuperBlock) : BlockCache cache :=
  mkBlockCache cache cache_acquire cache_release cache_begin_op cache_sync (cache_end_op sb)
    (cache_alloc sb) (cache_allocg sb) (cache_free sb) block_data block_store
    (gets c_used_block).

(** ** The abstract state *)
Definition held_map (s : cache) : gmap nat Z :=
  omap (fun b => if bk_acquired b then Some (bk_block_no b) else None) (c_blocks s).

Definition dirty (s : cache) (p : nat) : Prop :=
  exists b, c_blocks s !! p = Some b /\ bk_pinned b = false /\ bk_data b <> dev_read s (bk_block_no b).

(** [s'] differs from [s] in nothing an operation depends on. *)
Record evolves (sb : SuperBlock) (s s' : cache) : Prop := {
  ev_dev : c_dev s' = c_dev s;
  ev_log : same_log s s';
  ev_ctxs : c_ctxs s' = c_ctxs s;
  ev_pinned : forall m, is_pinned s' m = is_pinned s m;
  ev_miss : forall m, ~ in_groups sb m -> cached s m = None -> cached s' m = None
}.

Lemma evolves_used sb s x : evolves sb s (set_c_used_block x s).
Proof. by split. Qed.

(** [s'] is [s] with block [n] pinned. *)
Record pins (s s' : cache) (n : Z) : Prop := {
  pi_dev : c_dev s' = c_dev s;
  pi_log : same_log s s';
  pi_pinned : forall m, is_pinned s' m = bool_decide (m = n) || is_pinned s m;
  pi_miss : forall m, m <> n -> cached s m = None -> cached s' m = None
}.

(** What is known about a running operation besides its room: [op_knows] speaks of
    the context of an operation, and [op_no_ctx] says whether blocks may be written
    without one. *)
Class op_invariant (sb : SuperBlock) : Type := {
  op_knows : cache -> nat -> OpContext -> Prop;
  op_no_ctx : Prop;
  op_knows_evolves s s' c o : evolves sb s s' -> op_knows s c o -> op_knows s' c o;
  op_knows_sync s s' c o n :
    in_groups sb n -> 0 <= n < 2 ^ 64 -> ctx_ok o -> Z.of_nat (find_pos n (ctx_blocks o)) < OP_MAX_NUM_BLOCKS ->
    pins s s' n -> op_knows s c o -> op_knows s' c (synced o n)
}.

(** Nothing is known. *)
Definition any_op (sb : SuperBlock) : op_invariant sb :=
  Build_op_invariant sb (fun _ _ _ => True) True (fun _ _ _ _ _ _ => I) (fun _ _ _ _ _ _ _ _ _ _ _ => I).

Section spec.
Context (sb : SuperBlock) {OI : op_invariant sb}.

Definition room (s : cache) (ctx : option nat) (ns : list Z) (k : Z) : Prop :=
  match ctx with
  | None => op_no_ctx
  | Some c => exists o, c_ctxs s !! c = Some o /\ ctx_ok o /\ oc_lock o = false /\ NoDup (ctx_blocks o) /\
                (forall n, n ∈ ns -> in_groups sb n) /\ op_knows s c o /\
                Z.of_nat (length (merge (ctx_blocks o) ns)) + k <= OP_MAX_NUM_BLOCKS
  end.

Lemma held_map_lookup s p n :
  held_map s !! p = Some n <-> exists b, held s p b /\ bk_block_no b = n.
Proof.
  unfold held_map, held. rewrite lookup_omap. destruct (c_blocks s !! p) as [b|]; simpl.
  - destruct (bk_acquired b) eqn:E; split.
    + intros [= <-]. eauto.
    + intros (b' & [[= <-] _] & <-). done.
    + done.
    + intros (b' & [[= <-] ?] & _). congruence.
  - split; [done|]. intros (? & [? _] & _). done.
Qed.

(** A state in which only block object [p] was replaced. *)
Lemma held_map_insert s s' p b :
  (forall q, q <> p -> c_blocks s' !! q = c_blocks s !! q) -> c_blocks s' !! p = Some b ->
  held_map s' = if bk_acquired b then <[p := bk_block_no b]> (held_map s) else delete p (held_map s).
Proof.
  intros Hne Hp. apply map_eq. intros q. unfold held_map.
  destruct (decide (q = p)) as [->|Hq].
  - rewrite lookup_omap, Hp. simpl. destruct (bk_acquired b); [by rewrite lookup_insert_eq|].
    by rewrite lookup_delete_eq.
  - rewrite lookup_omap, Hne by done. rewrite <- lookup_omap.
    destruct (bk_acquired b); [by rewrite lookup_insert_ne|by rewrite lookup_delete_ne].
Qed.

Lemma dirty_other s s' p q :
  (forall q, q <> p -> c_blocks s' !! q = c_blocks s !! q) -> q <> p ->
  (forall b, c_blocks s !! q = Some b -> dev_read s' (bk_block_no b) = dev_read s (bk_block_no b)) ->
  dirty s' q -> dirty s q.
Proof.
  intros Hne Hq Hd (b & Hb & Hp & Hdt). rewrite Hne in Hb by done. exists b.
  rewrite Hd in Hdt by done. done.
Qed.

Lemma room_eq s s' ctx ns k : evolves sb s s' -> room s ctx ns k -> room s' ctx ns k.
Proof.
  intros He. unfold room. destruct ctx as [c|]; [|done]. rewrite (ev_ctxs _ _ _ He).
  intros (o & Ho & ? & ? & ? & ? & Hx & ?). exists o. split_and!; try done. by eapply op_knows_evolves.
Qed.

(** Nothing but blocks in the cache changed. *)
Definition quiet_step (s s' : cache) : Prop := same_rest s s' /\ evolves sb s s'.

Lemma held_unlocked s n : cache_inv s -> (forall p, held_map s !! p <> Some n) -> is_locked s n = false.
Proof.
  intros Hi Hn. unfold is_locked. destruct (cached s n) as [b|] eqn:E; [|done].
  destruct (bk_locked b) eqn:Hl; [|done].
  destruct (cached_Some _ _ _ E) as (p & Hp & Hno). exfalso. apply (Hn p), held_map_lookup.
  exists b. split; [split; [done|]|done]. by rewrite <- (ci_held _ Hi p b).
Qed.

Lemma evolves_upd s s' p b d lk :
  cache_inv s -> held s p b -> upd_spec s s' p (bk_block_no b) d lk (bk_pinned b) ->
  c_dev s' = c_dev s -> evolves sb s s'.
Proof.
  intros Hi [Hp _] [_ _ _ Hpn Hms _ Hr] Hd. pose proof (cached_lookup _ _ _ Hi Hp) as Hc.
  split; [done|apply Hr|apply Hr| |].
  - intros m. rewrite Hpn. case_decide as Hm; [|done]. subst m. unfold is_pinned. by rewrite Hc.
  - intros m _ Hm. apply Hms; [|done]. intros ->. by rewrite Hc in Hm.
Qed.

(** ** Laws *)
Lemma acquire_ok s n :
  cache_inv s -> in_groups sb n -> (forall p, held_map s !! p <> Some n) ->
  wp (cache_acquire n) (fun p s' =>
    cache_inv s' /\ (forall m, view s' m = view s m) /\
    held_map s !! p = None /\ held_map s' = <[p := n]> (held_map s) /\
    ~ dirty s' p /\ (forall q, q <> p -> dirty s' q -> dirty s q) /\
    quiet_step s s') s.
Proof.
  intros Hi Hg Hn. pose proof (held_unlocked _ _ Hi Hn) as Hl.
  apply cache_acquire_spec; [done|done|].
  intros p s' Hi' Hp Hv Hpn Hlk _ Hms Hne Hold Hd Hr.
  assert (Hdr : forall m, dev_read s' m = dev_read s m) by (intros m; unfold dev_read; by rewrite Hd).
  split_and!; try done.
  - unfold held_map. rewrite lookup_omap. destruct (c_blocks s !! p) as [b|] eqn:E; [|done].
    simpl. by rewrite Hold.
  - by rewrite (held_map_insert s s' p _ Hne Hp).
  - intros (b & Hb & Hpb & Hdt). simplify_eq. simpl in *. apply Hdt. rewrite Hdr. by apply view_clean.
  - intros q Hq. apply (dirty_other s s' p); auto.
  - split; [done|]. split; [done|apply Hr|apply Hr|done|]. intros m Hm. apply Hms. by intros ->.
Qed.

Lemma data_ok s p n :
  cache_inv s -> held_map s !! p = Some n ->
  wp (block_data p) (fun d s' => d = view s n /\ s' = s) s.
Proof.
  intros Hi (b & Hh & <-)%held_map_lookup. unfold block_data.
  apply wp_bind. eapply wp_get_block; [apply Hh|]. apply wp_ret.
  by rewrite (held_view s p b).
Qed.

Lemma store_ok s p n d :
  cache_inv s -> held_map s !! p = Some n -> length d = bsize ->
  wp (block_store p d) (fun _ s' =>
    cache_inv s' /\ held_map s' = held_map s /\
    (forall m, view s' m = if decide (m = n) then d else view s m) /\
    (forall q, q <> p -> dirty s' q -> dirty s q) /\ quiet_step s s') s.
Proof.
  intros Hi (b & Hh & <-)%held_map_lookup Hd. pose proof Hh as [Hp Ha].
  unfold block_store. eapply wp_upd_block; [done|].
  pose proof (store_spec s p b d Hi Hh Hd) as Hspec.
  pose proof (evolves_upd _ _ _ _ _ _ Hi Hh Hspec eq_refl) as He. destruct Hspec as [Hi' Hv _ _ _ _ Hr].
  change (set_c_blocks _ s) with (upd_state s (c_dev s) p (set_bk_data d b)).
  set (s' := upd_state s (c_dev s) p (set_bk_data d b)) in *.
  assert (Hne : forall q, q <> p -> c_blocks s' !! q = c_blocks s !! q)
    by (intros q Hq; simpl; by rewrite lookup_insert_ne).
  split_and!; try done.
  - rewrite (held_map_insert s s' p (set_bk_data d b)); [|done|apply lookup_insert_eq].
    simpl. rewrite Ha. apply insert_id. apply held_map_lookup. eauto.
  - intros q Hq. by apply (dirty_other s s' p).
Qed.

Lemma merge_comm_nil l bs : (forall b, b ∈ bs -> b ∈ l) -> merge l bs = l.
Proof.
  revert l. induction bs as [|b bs IH]; intros l H; [done|]. rewrite merge_cons.
  rewrite decide_True by (apply H; by left). apply IH. intros x Hx. apply H. by right.
Qed.

Lemma merge_len_mono l1 l2 n1 n2 :
  NoDup l1 -> (forall x, x ∈ l1 \/ x ∈ n1 -> x ∈ l2 \/ x ∈ n2) ->
  (length (merge l1 n1) <= length (merge l2 n2))%nat.
Proof.
  intros Hnd H. apply submseteq_length, NoDup_submseteq; [by apply merge_nodup|].
  intros x Hx%merge_elem. by apply merge_elem, H.
Qed.

Lemma NoDup_snoc (l : list Z) n : NoDup l -> n ∉ l -> NoDup (l ++ [n]).
Proof.
  intros Hl Hn. apply NoDup_app. split_and!; [done| |apply NoDup_singleton].
  intros x Hx ->%list_elem_of_singleton. done.
Qed.

(** Recording a block for which there is room. *)
Lemma room_sync s c ns k n :
  room s (Some c) ns k -> 0 <= k -> n ∈ ns -> 0 <= n < 2 ^ 64 ->
  exists o, c_ctxs s !! c = Some o /\ oc_lock o = false /\
    Z.of_nat (find_pos n (ctx_blocks o)) < OP_MAX_NUM_BLOCKS /\
    forall s', c_ctxs s' = <[c := synced o n]> (c_ctxs s) -> pins s s' n -> room s' (Some c) ns k.
Proof.
  intros (o & Ho & Hok & Hlk & Hnd & Hng & HX & Hlen) Hk Hn Hrange. exists o. split; [done|]. split; [done|].
  assert (Z.of_nat (find_pos n (ctx_blocks o)) < OP_MAX_NUM_BLOCKS) as Hlt.
  { pose proof (ctx_blocks_len o Hok) as Hcl. pose proof (find_pos_le n (ctx_blocks o)) as Hle.
    destruct (decide (n ∈ ctx_blocks o)) as [Hin|Hin].
    - apply find_pos_lt in Hin. destruct Hok as ([_ ?] & _). lia.
    - rewrite find_pos_not_in by done.
      assert (length (merge (ctx_blocks o) [n]) <= length (merge (ctx_blocks o) ns))%nat as Hm.
      { apply merge_len_mono; [done|]. intros x [Hx|Hx%list_elem_of_singleton]; [by left|right; by subst]. }
      simpl in Hm. rewrite decide_False, length_app in Hm by done. simpl in Hm. lia. }
  split; [done|]. intros s' Hs' Hpin. destruct (synced_blocks o n Hok Hlt Hrange) as [Hok' Hb'].
  exists (synced o n). rewrite Hs', lookup_insert_eq. split_and!; [done|done|done| |done|by apply (op_knows_sync s s'); auto|].
  - rewrite Hb'. case_decide; [done|]. by apply NoDup_snoc.
  - enough (length (merge (ctx_blocks (synced o n)) ns) <= length (merge (ctx_blocks o) ns))%nat by lia.
    apply merge_len_mono.
    + rewrite Hb'. case_decide; [done|]. by apply NoDup_snoc.
    + intros x. rewrite Hb'. case_decide; [tauto|]. rewrite elem_of_app, list_elem_of_singleton.
      intros [[?| ->]|?]; auto.
Qed.

Lemma inv_ctxs s x : cache_inv s -> cache_inv (set_c_ctxs x s).
Proof. intros []. by split. Qed.

(** Pinning a held block that is recorded in the context. *)
Lemma sync_ctx_ok s c p n ns k :
  cache_inv s -> held_map s !! p = Some n -> room s (Some c) ns k -> 0 <= k -> n ∈ ns ->
  0 <= n < 2 ^ 64 ->
  wp (cache_sync (Some c) p) (fun _ s' =>
    cache_inv s' /\ (forall m, view s' m = view s m) /\ held_map s' = held_map s /\
    ~ dirty s' p /\ (forall q, q <> p -> dirty s' q -> dirty s q) /\
    room s' (Some c) ns k /\ same_log s s' /\ c_used_block s' = c_used_block s) s.
Proof.
  intros Hi Hh0 Hroom Hk Hin Hrange. pose proof Hh0 as (b & Hh & <-)%held_map_lookup.
  pose proof Hh as [Hp Ha].
  destruct (room_sync _ _ _ _ _ Hroom Hk Hin Hrange) as (o & Ho & Hlk & Hlt & Hr).
  unfold wp. rewrite (cache_sync_eq c o p b) by (done || apply Hi).
  rewrite (proj2 (Z.ltb_lt _ _)) by done.
  destruct (pin_spec s p b true Hi Hh) as [Hi' Hv _ Hpn Hms _ _].
  set (s1 := upd_state s (c_dev s) p (set_bk_pinned true b)) in *.
  set (s' := set_c_ctxs _ s1).
  assert (Hne : forall q, q <> p -> c_blocks s' !! q = c_blocks s !! q)
    by (intros q Hq; simpl; by rewrite lookup_insert_ne).
  assert (Hp' : c_blocks s' !! p = Some (set_bk_pinned true b)) by apply lookup_insert_eq.
  split_and!; try done.
  - by apply inv_ctxs.
  - intros m. change (view s1 m = view s m). rewrite Hv. case_decide as Hm; [rewrite Hm|done].
    symmetry. by apply (held_view s p b).
  - rewrite (held_map_insert s s' p _ Hne Hp'). simpl. rewrite Ha. by apply insert_id.
  - intros (b' & Hb' & Hpin & _). rewrite Hp' in Hb'. by simplify_eq.
  - intros q Hq. by apply (dirty_other s s' p).
  - apply Hr; [done|]. split; [done|done| |].
    + intros m. change (is_pinned s' m) with (is_pinned s1 m). rewrite Hpn.
      case_decide; [by rewrite bool_decide_true|by rewrite bool_decide_false].
    + intros m Hm Hc. by apply (Hms m Hm).
Qed.

(** [sync(NULL, block)] writes the block to the device at once. *)
Lemma sync_null_ok s p n :
  cache_inv s -> held_map s !! p = Some n ->
  wp (cache_sync None p) (fun _ s' =>
    cache_inv s' /\ (forall m, view s' m = view s m) /\ held_map s' = held_map s /\
    ~ dirty s' p /\ (forall q, q <> p -> dirty s' q -> dirty s q) /\ same_rest s s') s.
Proof.
  intros Hi Hh0. pose proof Hh0 as (b & Hh & <-)%held_map_lookup. pose proof Hh as [Hp Ha].
  eapply wp_eq; [by apply device_write_eq|].
  destruct (device_write_spec s p b Hi Hh) as [Hi' Hv _ _ _ _ Hr].
  set (s' := set_c_dev _ s) in *.
  split_and!; try done.
  - intros m. rewrite Hv. case_decide as Hm; [rewrite Hm|done]. symmetry. by apply (held_view s p b).
  - intros (b' & Hb' & _ & Hdt). change (c_blocks s') with (c_blocks s) in Hb'. simplify_eq.
    apply Hdt. unfold s'. rewrite dev_read_write. by rewrite decide_True.
  - intros q Hq. apply (dirty_other s s' p); [done|done|].
    intros b' Hb'. unfold s'. rewrite dev_read_write. rewrite decide_False; [done|].
    intros He. apply Hq. by apply (ci_inj _ Hi q p b' b).
Qed.

Lemma sync_ok s ctx p n ns k :
  cache_inv s -> held_map s !! p = Some n -> room s ctx ns k -> 0 <= k -> n ∈ ns -> 0 <= n < 2 ^ 64 ->
  wp (cache_sync ctx p) (fun _ s' =>
    cache_inv s' /\ (forall m, view s' m = view s m) /\ held_map s' = held_map s /\
    ~ dirty s' p /\ (forall q, q <> p -> dirty s' q -> dirty s q) /\
    room s' ctx ns k /\ same_log s s' /\ c_used_block s' = c_used_block s) s.
Proof.
  intros. destruct ctx as [c|]; [by apply (sync_ctx_ok _ _ _ n)|].
  eapply wp_mono; [by apply (sync_null_ok _ _ n)|].
  intros [] s' (? & ? & ? & ? & ? & Hl & Hu & _). done.
Qed.

Lemma release_ok s p n :
  cache_inv s -> held_map s !! p = Some n -> ~ dirty s p ->
  wp (cache_release p) (fun _ s' =>
    cache_inv s' /\ (forall m, view s' m = view s m) /\ held_map s' = delete p (held_map s) /\
    (forall q, dirty s' q -> dirty s q) /\ quiet_step s s') s.
Proof.
  intros Hi Hh0 Hcl. pose proof Hh0 as (b & Hh & <-)%held_map_lookup. pose proof Hh as [Hp Ha].
  eapply wp_eq; [by apply cache_release_eq|].
  assert (bk_pinned b = false -> bk_data b = dev_read s (bk_block_no b)) as Hclean.
  { intros Hpin. destruct (decide (bk_data b = dev_read s (bk_block_no b))); [done|].
    exfalso. apply Hcl. by exists b. }
  pose proof (cache_release_spec s p b Hi Hh Hclean) as Hspec.
  pose proof (evolves_upd _ _ _ _ _ _ Hi Hh Hspec eq_refl) as He. destruct Hspec as [Hi' Hv _ _ _ _ Hr].
  set (s' := upd_state s (c_dev s) p (released b)) in *.
  assert (Hne : forall q, q <> p -> c_blocks s' !! q = c_blocks s !! q)
    by (intros q Hq; simpl; by rewrite lookup_insert_ne).
  assert (Hp' : c_blocks s' !! p = Some (released b)) by apply lookup_insert_eq.
  split_and!; try done.
  - intros m. rewrite Hv. case_decide as Hm; [rewrite Hm|done]. symmetry. by apply (held_view s p b).
  - by rewrite (held_map_insert s s' p _ Hne Hp').
  - intros q. destruct (decide (q = p)) as [->|Hq]; [|by apply (dirty_other s s' p)].
    intros (b' & Hb' & Hpin & Hdt). rewrite Hp' in Hb'. simplify_eq. by exists b.
Qed.
End spec.
End CacheSpec.
