(* ===== verification/CacheAlloc.v ===== *)
(** * Block allocation (cache.c: [cache_alloc], [cache_allocg], [cache_free])

    The bitmaps and the counters [used_block], what allocating and freeing do
    to them, and the [Instance] of [BlockCacheSpec] for the whole cache. *)
From S2P Require Import Prelude Bitmap FsDefines BlockIface Cache CacheFacts CacheTx CacheSpec.

Module CacheAlloc.
Import Bitmap Cache CacheFacts CacheTx CacheSpec.

(** ** Cells and bytes *)
Lemma length_bitmap_of d : length (bitmap_of d) = 64%nat.
Proof. apply length_words. Qed.

Lemma of_bitmap_of d : Forall byte_ok d -> length d = bsize -> of_bitmap (bitmap_of d) = d.
Proof. intros. by apply unwords_words. Qed.

Definition cells_ok (cells : list Z) : Prop :=
  length cells = 64%nat /\ Forall (fun c => 0 <= c < 2 ^ 64) cells.

Lemma bitmap_of_ok d : Forall byte_ok d -> cells_ok (bitmap_of d).
Proof.
  intros Hd. split; [apply length_bitmap_of|]. unfold bitmap_of, words.
  apply Forall_fmap, Forall_forall. intros i _. change (2 ^ 64) with (256 ^ Z.of_nat 8).
  by apply load_range.
Qed.

Lemma bitmap_of_of cells : cells_ok cells -> bitmap_of (of_bitmap cells) = cells.
Proof.
  intros [Hl Hr]. unfold bitmap_of, of_bitmap. rewrite <- Hl, words_unwords. by apply list_mod_id.
Qed.

Lemma of_bitmap_length cells : length cells = 64%nat -> length (of_bitmap cells) = bsize.
Proof. intros H. unfold of_bitmap. by rewrite length_unwords, H. Qed.

Lemma cells_ok_lookup cells i : cells_ok cells -> (i < 64)%nat -> 0 <= cells !!! i < 2 ^ 64.
Proof.
  intros [Hl Hr] Hi. eapply Forall_lookup_total_1 in Hr; [done|]. lia.
Qed.

Lemma in_bitmap_cells cells j : cells_ok cells -> 0 <= j < BIT_PER_BLOCK -> in_bitmap cells j.
Proof.
  intros [Hl _] Hj. unfold in_bitmap. rewrite Hl. exact Hj.
Qed.

Lemma log2_u64 x : 0 <= x -> x < 2 ^ 64 <-> Z.log2 x < 64.
Proof.
  intros Hx. destruct (Z.eq_dec x 0) as [->|]; [done|]. rewrite Z.log2_lt_pow2 by lia. done.
Qed.

Lemma lor_range a b : 0 <= a < 2 ^ 64 -> 0 <= b < 2 ^ 64 -> 0 <= Z.lor a b < 2 ^ 64.
Proof.
  intros [Ha Ha'%log2_u64] [Hb Hb'%log2_u64]; try done.
  assert (0 <= Z.lor a b) by (apply Z.lor_nonneg; lia). split; [done|].
  apply log2_u64; [done|]. rewrite Z.log2_lor by done. lia.
Qed.

Lemma land_range a b : 0 <= a < 2 ^ 64 -> 0 <= b < 2 ^ 64 -> 0 <= Z.land a b < 2 ^ 64.
Proof.
  intros [Ha Ha'%log2_u64] [Hb Hb'%log2_u64]; try done.
  assert (0 <= Z.land a b) by (apply Z.land_nonneg; lia). split; [done|].
  apply log2_u64; [done|]. pose proof (Z.log2_land a b Ha Hb). lia.
Qed.

Lemma index_lt j : 0 <= j < BIT_PER_BLOCK -> (Z.to_nat (j / 64) < 64)%nat.
Proof.
  intros Hj. change BIT_PER_BLOCK with (64 * 64) in Hj.
  assert (j / 64 < 64) by (apply Z.div_lt_upper_bound; lia).
  pose proof (Z.div_pos j 64 ltac:(lia) ltac:(lia)). lia.
Qed.

Lemma bitmap_set_ok cells j : cells_ok cells -> 0 <= j < BIT_PER_BLOCK -> cells_ok (bitmap_set cells j).
Proof.
  intros Hc Hj. pose proof (index_lt j Hj). split; [by rewrite length_bitmap_set; apply Hc|].
  unfold bitmap_set, BITMAP_PARSE_INDEX, BITMAP_BITS_PER_CELL. apply Forall_insert; [apply Hc|].
  apply lor_range; [by apply cells_ok_lookup|apply u64_range].
Qed.

Lemma bitmap_clear_ok cells j : cells_ok cells -> 0 <= j < BIT_PER_BLOCK -> cells_ok (bitmap_clear cells j).
Proof.
  intros Hc Hj. pose proof (index_lt j Hj). split; [by rewrite length_bitmap_clear; apply Hc|].
  unfold bitmap_clear, BITMAP_PARSE_INDEX, BITMAP_BITS_PER_CELL. apply Forall_insert; [apply Hc|].
  apply land_range; [by apply cells_ok_lookup|apply u64_range].
Qed.

(** ** The invariant of allocation *)
Section alloc.
Context (sb : SuperBlock) (Hgeo : geometry_ok sb) {OI : op_invariant sb}.

Definition bits (s : cache) (g : Z) : list Z := bitmap_of (view s (bitmap_block sb g)).

(** Bit [n] of the bitmaps, for a block of a group; the other blocks count as allocated. *)
Definition alloced (s : cache) (n : Z) : bool :=
  let g := (n - bg_start sb) / blocks_per_group sb in
  if decide (0 <= g < num_groups sb)
  then bitmap_get (bits s g) ((n - bg_start sb) mod blocks_per_group sb) else true.

Record alloc_inv (s : cache) : Prop := {
  ai_inv : cache_inv s;
  ai_bytes : forall n, Forall byte_ok (view s n);
  ai_len : length (c_used_block s) = Z.to_nat NGROUPS;
  ai_reserved : forall g j, 0 <= g < num_groups sb -> 0 <= j < data_start_per_group sb ->
                  bitmap_get (bits s g) j = true;
  ai_used : forall g, 0 <= g < num_groups sb ->
              c_used_block s !!! Z.to_nat g =
                Z.of_nat (count_set (bits s g) (Z.to_nat (blocks_per_group sb))) - data_start_per_group sb
}.

Lemma group_div g j :
  0 <= j < blocks_per_group sb ->
  (group_block sb g j - bg_start sb) / blocks_per_group sb = g /\
  (group_block sb g j - bg_start sb) mod blocks_per_group sb = j.
Proof using Hgeo.
  intros Hj. destruct Hgeo. unfold group_block.
  replace (bg_start sb + g * blocks_per_group sb + j - bg_start sb)
    with (j + g * blocks_per_group sb) by lia.
  rewrite Z.div_add, Z.mod_add, Z.div_small, Z.mod_small by lia. lia.
Qed.

Lemma group_block_inj g j g' j' :
  0 <= j < blocks_per_group sb -> 0 <= j' < blocks_per_group sb ->
  group_block sb g j = group_block sb g' j' -> g = g' /\ j = j'.
Proof using Hgeo.
  intros Hj Hj' He. destruct (group_div g j Hj) as [H1 H2]. destruct (group_div g' j' Hj') as [H3 H4].
  rewrite He in H1, H2. split; congruence.
Qed.

Lemma alloced_group s g j :
  0 <= g < num_groups sb -> 0 <= j < blocks_per_group sb ->
  alloced s (group_block sb g j) = bitmap_get (bits s g) j.
Proof using Hgeo.
  intros Hg Hj. unfold alloced. destruct (group_div g j Hj) as [-> ->]. by rewrite decide_True.
Qed.

Lemma bitmap_in_group : 0 <= bitmap_start_per_group sb < blocks_per_group sb.
Proof using Hgeo. destruct Hgeo. lia. Qed.

Lemma group_block_range g j :
  0 <= g < num_groups sb -> 0 <= j < blocks_per_group sb -> 0 < group_block sb g j < 2 ^ 32.
Proof using Hgeo. intros Hg Hj. destruct Hgeo. unfold group_block, NGROUPS in *. nia. Qed.

Lemma group_in_groups g j : 0 <= g < num_groups sb -> 0 <= j < blocks_per_group sb -> in_groups sb (group_block sb g j).
Proof. intros Hg Hj. exists g. split; [done|]. by exists j. Qed.
Lemma bitmap_in_groups g : 0 <= g < num_groups sb -> in_groups sb (bitmap_block sb g).
Proof using Hgeo. intros Hg. apply group_in_groups; [done|apply bitmap_in_group]. Qed.

(** A free block is not a bitmap. *)
Lemma free_not_bitmap s g j :
  alloc_inv s -> 0 <= g < num_groups sb -> 0 <= j < blocks_per_group sb ->
  bitmap_get (bits s g) j = false -> ~ is_bitmap sb (group_block sb g j).
Proof using Hgeo.
  intros Hi Hg Hj Hb (g' & Hg' & He).
  destruct (group_block_inj _ _ _ _ Hj bitmap_in_group He) as [-> ->].
  rewrite (ai_reserved _ Hi) in Hb; [done|done|]. destruct Hgeo. lia.
Qed.

Lemma free_is_data s g j :
  alloc_inv s -> 0 <= g < num_groups sb -> 0 <= j < blocks_per_group sb ->
  bitmap_get (bits s g) j = false -> data_start_per_group sb <= j.
Proof.
  intros Hi Hg Hj Hb. destruct (decide (data_start_per_group sb <= j)); [done|].
  rewrite (ai_reserved _ Hi) in Hb; [done|done|lia].
Qed.

(** A free data bit is not part of a full group. *)
Lemma full_iff s g :
  alloc_inv s -> 0 <= g < num_groups sb ->
  c_used_block s !!! Z.to_nat g = num_datablocks_per_group sb <->
  forall n, in_group sb g n -> alloced s n = true.
Proof using Hgeo.
  intros Hi Hg. rewrite (ai_used _ Hi) by done. pose proof Hgeo as [Hb ? ? ? ? Hn ?]. rewrite Hn.
  pose proof (count_set_le (bits s g) (Z.to_nat (blocks_per_group sb))) as Hle. split.
  - intros He n (j & Hj & ->). rewrite alloced_group by done.
    replace j with (Z.of_nat (Z.to_nat j)) by lia.
    apply (count_set_full _ (Z.to_nat (blocks_per_group sb))); lia.
  - intros Hall. enough (count_set (bits s g) (Z.to_nat (blocks_per_group sb)) =
                          Z.to_nat (blocks_per_group sb)) by lia.
    destruct (decide (count_set (bits s g) (Z.to_nat (blocks_per_group sb)) <
                       Z.to_nat (blocks_per_group sb))%nat) as [Hlt|]; [|lia].
    apply count_set_free in Hlt as (k & Hk & Hf).
    specialize (Hall (group_block sb g (Z.of_nat k))).
    rewrite alloced_group in Hall by lia. rewrite Hf in Hall. exfalso.
    by discriminate Hall; exists (Z.of_nat k); split; [lia|].
Qed.

Lemma bits_same s s' : (forall n, view s' n = view s n) -> forall g, bits s' g = bits s g.
Proof. intros Hv g. unfold bits. by rewrite Hv. Qed.

Lemma alloc_inv_same s s' :
  alloc_inv s -> cache_inv s' -> (forall n, view s' n = view s n) -> c_used_block s' = c_used_block s ->
  alloc_inv s'.
Proof.
  intros [] Hi' Hv Hu. pose proof (bits_same _ _ Hv) as Hb. split; rewrite ?Hu; auto.
  - intros n. by rewrite Hv.
  - intros g j. rewrite Hb. auto.
  - intros g Hg. rewrite Hb. auto.
Qed.

Lemma alloced_same s s' : (forall n, view s' n = view s n) -> forall n, alloced s' n = alloced s n.
Proof. intros Hv n. unfold alloced. case_decide; [|done]. by rewrite (bits_same _ _ Hv). Qed.

(** Changing a block that is not a bitmap. *)
Lemma bits_not_bitmap s s' n d :
  (forall m, view s' m = if decide (m = n) then d else view s m) -> ~ is_bitmap sb n ->
  forall g, 0 <= g < num_groups sb -> bits s' g = bits s g.
Proof.
  intros Hv Hn g Hg. unfold bits. rewrite Hv, decide_False; [done|]. intros He. apply Hn. by exists g.
Qed.

(** *** Flipping one bit of a group's bitmap *)

(** [s'] is [s] with bit [j] of group [g] set to [b], the counter of the group
    adjusted, and (when setting it) the block zeroed. *)
Record flipped (s s' : cache) (g j : Z) (b : bool) (zeroed : bool) : Prop := {
  fl_inv : cache_inv s';
  fl_view : forall m, view s' m =
    if decide (m = bitmap_block sb g)
    then of_bitmap ((if b then bitmap_set else bitmap_clear) (bits s g) j)
    else if zeroed && bool_decide (m = group_block sb g j) then zero_block else view s m;
  fl_used : c_used_block s' =
    <[Z.to_nat g := u32 (c_used_block s !!! Z.to_nat g + (if b then 1 else -1))]> (c_used_block s)
}.

Lemma bits_ok s g : alloc_inv s -> cells_ok (bits s g).
Proof. intros Hi. apply bitmap_of_ok, (ai_bytes _ Hi). Qed.

Lemma flip_ok s g j (b : bool) :
  alloc_inv s -> 0 <= j < BIT_PER_BLOCK ->
  cells_ok ((if b then bitmap_set else bitmap_clear) (bits s g) j).
Proof.
  intros Hi Hj. pose proof (bits_ok s g Hi).
  destruct b; [by apply bitmap_set_ok|by apply bitmap_clear_ok].
Qed.

Lemma flip_get s g j (b : bool) i :
  alloc_inv s -> 0 <= j < BIT_PER_BLOCK -> 0 <= i ->
  bitmap_get ((if b then bitmap_set else bitmap_clear) (bits s g) j) i =
    if decide (i = j) then b else bitmap_get (bits s g) i.
Proof.
  intros Hi Hj Hi0. pose proof (in_bitmap_cells _ _ (bits_ok s g Hi) Hj) as Hin.
  destruct b; [rewrite bitmap_get_set by done|rewrite bitmap_get_clear by done];
    (case_decide as E; [rewrite E, Z.eqb_refl; done|];
     by rewrite (proj2 (Z.eqb_neq j i)) by (by intros ->)).
Qed.

Lemma bitmap_block_inj g g' : bitmap_block sb g = bitmap_block sb g' -> g = g'.
Proof using Hgeo.
  intros H. by destruct (group_block_inj g _ g' _ bitmap_in_group bitmap_in_group H).
Qed.

(** The bits of a group after a flip. *)
Lemma flipped_bits s s' g j b zeroed g' :
  alloc_inv s -> flipped s s' g j b zeroed -> 0 <= g < num_groups sb -> 0 <= g' < num_groups sb ->
  data_start_per_group sb <= j < blocks_per_group sb ->
  bits s' g' = if decide (g' = g) then (if b then bitmap_set else bitmap_clear) (bits s g) j
               else bits s g'.
Proof using Hgeo.
  intros Hi Hf Hg Hg' Hj. unfold bits at 1. rewrite (fl_view _ _ _ _ _ _ Hf).
  assert (0 <= j < BIT_PER_BLOCK) as Hjb by (destruct Hgeo; lia).
  destruct (decide (g' = g)) as [->|Hne].
  - rewrite decide_True by done. by apply bitmap_of_of, flip_ok.
  - rewrite decide_False by (intros He; by apply Hne, bitmap_block_inj).
    replace (zeroed && bool_decide (bitmap_block sb g' = group_block sb g j)) with false; [done|].
    destruct zeroed; [|done]. symmetry. apply bool_decide_eq_false. intros He.
    assert (0 <= j < blocks_per_group sb) as Hj' by (destruct Hgeo; lia).
    destruct (group_block_inj _ _ _ _ bitmap_in_group Hj' He) as [_ Hb]. destruct Hgeo. lia.
Qed.

Lemma flipped_count s g j (b : bool) :
  alloc_inv s -> 0 <= j < blocks_per_group sb -> bitmap_get (bits s g) j = negb b ->
  Z.of_nat (count_set ((if b then bitmap_set else bitmap_clear) (bits s g) j)
              (Z.to_nat (blocks_per_group sb))) =
  Z.of_nat (count_set (bits s g) (Z.to_nat (blocks_per_group sb))) + (if b then 1 else -1).
Proof using Hgeo.
  intros Hi Hj Hb. assert (0 <= j < BIT_PER_BLOCK) as Hjb by (destruct Hgeo; lia).
  pose proof (in_bitmap_cells _ _ (bits_ok s g Hi) Hjb) as Hin.
  replace j with (Z.of_nat (Z.to_nat j)) in * by lia. destruct b.
  - rewrite count_set_bitmap_set by (done || lia). lia.
  - pose proof (count_set_bitmap_clear (bits s g) (Z.to_nat (blocks_per_group sb)) (Z.to_nat j)) as H.
    rewrite H by (done || lia). lia.
Qed.

Lemma flipped_inv s s' g j b zeroed :
  alloc_inv s -> flipped s s' g j b zeroed -> 0 <= g < num_groups sb ->
  data_start_per_group sb <= j < blocks_per_group sb -> bitmap_get (bits s g) j = negb b ->
  alloc_inv s'.
Proof using Hgeo.
  intros Hi Hf Hg Hj Hb. pose proof (fun g' Hg' => flipped_bits s s' g j b zeroed g' Hi Hf Hg Hg' Hj) as Hbits.
  assert (0 <= j < BIT_PER_BLOCK) as Hjb by (destruct Hgeo; lia). split.
  - apply Hf.
  - intros n. rewrite (fl_view _ _ _ _ _ _ Hf). case_decide; [apply unwords_ok|].
    destruct (_ && _); [|apply Hi]. unfold zero_block. apply Forall_replicate. unfold byte_ok. lia.
  - rewrite (fl_used _ _ _ _ _ _ Hf), length_insert. apply Hi.
  - intros g' i Hg' Hi'. rewrite Hbits by done. case_decide as E; [|by apply (ai_reserved _ Hi)].
    subst. rewrite flip_get by (done || lia). rewrite decide_False by lia. by apply (ai_reserved _ Hi).
  - intros g' Hg'. rewrite Hbits, (fl_used _ _ _ _ _ _ Hf) by done. destruct (decide (g' = g)) as [->|Hne].
    + rewrite list_lookup_total_insert_eq by (rewrite (ai_len _ Hi); destruct Hgeo; lia).
      pose proof (flipped_count s g j b Hi ltac:(destruct Hgeo; lia) Hb) as Hfc.
      rewrite (ai_used _ Hi) by done.
      set (c' := (if b then bitmap_set else bitmap_clear) (bits s g) j) in *.
      pose proof (count_set_le c' (Z.to_nat (blocks_per_group sb))) as Hle.
      pose proof (count_set_ge c' (Z.to_nat (data_start_per_group sb)) (Z.to_nat (blocks_per_group sb))) as Hge.
      assert (Z.to_nat (data_start_per_group sb) <= count_set c' (Z.to_nat (blocks_per_group sb)))%nat.
      { apply Hge; [lia|]. intros k Hk. unfold c'. rewrite flip_get by (done || lia).
        rewrite decide_False by lia. apply (ai_reserved _ Hi); [done|lia]. }
      destruct Hgeo as [[? ?] ? ? ? ? ? ?]. change BIT_PER_BLOCK with 4096 in *.
      rewrite u32_id; lia.
    + rewrite list_lookup_total_insert_ne by lia. by apply (ai_used _ Hi).
Qed.

(** ** Taking a bit *)

(** A store through the pointer that depends on the data there. *)
Lemma upd_data_ok s p n f :
  cache_inv s -> held_map s !! p = Some n -> length (f (view s n)) = bsize ->
  wp (upd_block p (fun b => set_bk_data (f (bk_data b)) b)) (fun _ s' =>
    cache_inv s' /\ held_map s' = held_map s /\
    (forall m, view s' m = if decide (m = n) then f (view s n) else view s m) /\
    (forall q, q <> p -> dirty s' q -> dirty s q) /\ quiet_step sb s s') s.
Proof.
  intros Hi Hh Hl. pose proof Hh as (b & Hhb & <-)%held_map_lookup.
  eapply wp_change; [|by apply (store_ok sb s p (bk_block_no b) (f (view s (bk_block_no b))))].
  unfold block_store, upd_block, get_block, mbind, M_bind, gets. rewrite (proj1 Hhb). simpl.
  by rewrite (held_view s p b Hi Hhb).
Qed.

Lemma room_sub s ctx ns ns' k :
  room sb s ctx ns k -> (forall n, n ∈ ns' -> n ∈ ns) -> room sb s ctx ns' k.
Proof.
  destruct ctx as [c|]; [|done]. intros (o & Ho & Hok & Hl & Hnd & Hng & HX & Hlen) Hsub.
  exists o. split_and!; try done; [by auto|].
  enough (length (merge (ctx_blocks o) ns') <= length (merge (ctx_blocks o) ns))%nat by lia.
  apply merge_len_mono; [done|]. intros x [?|?]; auto.
Qed.

Lemma room_weaken s ctx ns n k : in_groups sb n -> room sb s ctx ns (1 + k) -> room sb s ctx (n :: ns) k.
Proof.
  intros Hn. destruct ctx as [c|]; [|done]. intros (o & Ho & Hok & Hl & Hnd & Hng & HX & Hlen).
  exists o. split_and!; try done; [by intros x [->|Hx]%elem_of_cons; auto|].
  enough (length (merge (ctx_blocks o) (n :: ns)) <= S (length (merge (ctx_blocks o) ns)))%nat by lia.
  transitivity (length (n :: merge (ctx_blocks o) ns)); [|done].
  apply submseteq_length, NoDup_submseteq; [by apply merge_nodup|].
  intros x. rewrite elem_of_cons, !merge_elem, elem_of_cons. tauto.
Qed.

Lemma wp_add_used s g d (Q : unit -> cache -> Prop) :
  0 <= g < num_groups sb ->
  Q tt (set_c_used_block (<[Z.to_nat g := u32 (c_used_block s !!! Z.to_nat g + d)]> (c_used_block s)) s) ->
  wp (add_used g d) Q s.
Proof using Hgeo.
  intros Hg HQ. unfold add_used. apply wp_bind, wp_gets, wp_bind, wp_assert; [|done].
  destruct Hgeo. apply andb_true_iff. lia.
Qed.

(** Zeroing block [n] for [ctx], as [take_bit] does. *)
Lemma wp_zero {A} s ctx n ns k (m : M cache A) Q :
  cache_inv s -> in_groups sb n -> (forall p, held_map s !! p <> Some n) -> room sb s ctx ns k -> 0 <= k -> n ∈ ns ->
  0 <= n < 2 ^ 64 ->
  (forall s', cache_inv s' -> held_map s' = held_map s ->
    (forall m, view s' m = if decide (m = n) then zero_block else view s m) ->
    (forall q, dirty s' q -> dirty s q) -> room sb s' ctx ns k -> c_used_block s' = c_used_block s ->
    wp m Q s') ->
  wp (p ← cache_acquire n; upd_block p (set_bk_data zero_block);; cache_sync ctx p;; cache_release p;; m) Q s.
Proof.
  intros Hi Hng Hn Hroom Hk Hin Hr HQ.
  apply wp_bind. eapply wp_mono; [by apply (acquire_ok sb)|].
  intros p s1 (Hi1 & Hv1 & Hp & Hh1 & Hd1 & Hdo1 & [[Hl1 [Hu1 Hc1]] He1]).
  assert (held_map s1 !! p = Some n) as Hhp by (by rewrite Hh1, lookup_insert_eq).
  apply wp_bind. eapply wp_mono; [by apply (store_ok sb s1 p n zero_block)|].
  intros [] s2 (Hi2 & Hh2 & Hv2 & Hdo2 & [[Hl2 [Hu2 Hc2]] He2]).
  apply wp_bind. eapply wp_mono.
  { apply (sync_ok sb s2 ctx p n ns k); try done; [by rewrite Hh2|].
    apply (room_eq sb s1), (room_eq sb s); done. }
  intros [] s3 (Hi3 & Hv3 & Hh3 & Hd3 & Hdo3 & Hr3 & Hl3 & Hu3).
  apply wp_bind. eapply wp_mono; [apply (release_ok sb s3 p n); [done|by rewrite Hh3, Hh2|done]|].
  intros [] s4 (Hi4 & Hv4 & Hh4 & Hdo4 & [[Hl4 [Hu4 Hc4]] He4]).
  apply HQ; [done| | | |by apply (room_eq sb s3)|congruence].
  - rewrite Hh4, Hh3, Hh2, Hh1. by apply delete_insert_id.
  - intros x. rewrite Hv4, Hv3, Hv2. case_decide; [done|]. by rewrite Hv1.
  - intros q Hq. apply Hdo4 in Hq. destruct (decide (q = p)) as [->|Hqp]; [done|]. auto.
Qed.

(** [take_bit] on a clear bit [j] of group [g], whose bitmap is held. *)
Lemma take_bit_ok s ctx p g j ns k :
  alloc_inv s -> 0 <= g < num_groups sb -> 0 <= j < blocks_per_group sb ->
  bitmap_get (bits s g) j = false -> held_map s !! p = Some (bitmap_block sb g) ->
  (forall q, held_map s !! q <> Some (group_block sb g j)) ->
  room sb s ctx ns (2 + k) -> 0 <= k ->
  wp (take_bit ctx p j (group_block sb g j) g) (fun r s' =>
    r = group_block sb g j /\ flipped s s' g j true true /\
    held_map s' = delete p (held_map s) /\ (forall q, dirty s' q -> dirty s q) /\
    room sb s' ctx (group_block sb g j :: ns) k) s.
Proof using Hgeo.
  intros Hi Hg Hj Hb Hh Hfree Hroom Hk. set (r := group_block sb g j). set (bm := bitmap_block sb g).
  pose proof (group_block_range g j Hg Hj) as Hrr.
  pose proof (group_block_range g (bitmap_start_per_group sb) Hg bitmap_in_group) as Hbr.
  assert (0 <= j < BIT_PER_BLOCK) as Hjb by (destruct Hgeo; lia).
  assert (r <> bm) as Hne.
  { intros He. apply (free_not_bitmap s g j Hi Hg Hj Hb). exists g. by split. }
  assert (room sb s ctx (bm :: r :: ns) k) as Hroom'.
  { apply room_weaken; [by apply bitmap_in_groups|]. apply room_weaken; [by apply group_in_groups|]. by replace (1 + (1 + k)) with (2 + k) by lia. }
  unfold take_bit.
  apply wp_bind. eapply wp_mono.
  { apply (upd_data_ok s p bm (fun d => of_bitmap (bitmap_set (bitmap_of d) j))); [apply Hi|done|].
    apply of_bitmap_length. rewrite length_bitmap_set. apply length_bitmap_of. }
  intros [] s1 (Hi1 & Hh1 & Hv1 & Hdo1 & [[Hl1 [Hu1 Hc1]] He1]).
  apply wp_bind. eapply wp_mono.
  { apply (sync_ok sb s1 ctx p bm (bm :: r :: ns) k); try done; [by rewrite Hh1|by apply (room_eq sb s)|by left|].
    unfold bm, bitmap_block. lia. }
  intros [] s2 (Hi2 & Hv2 & Hh2 & Hd2 & Hdo2 & Hr2 & Hl2 & Hu2).
  apply wp_bind. eapply wp_mono; [apply (release_ok sb s2 p bm); [done|by rewrite Hh2, Hh1|done]|].
  intros [] s3 (Hi3 & Hv3 & Hh3 & Hdo3 & [[Hl3 [Hu3 Hc3]] He3]).
  apply wp_zero with (ns := bm :: r :: ns) (k := k);
    [done|by apply group_in_groups| |by apply (room_eq sb s2)|done|by right; left|unfold r; lia|].
  { intros q. rewrite Hh3, Hh2, Hh1, lookup_delete_Some. intros [_ ?]. by apply (Hfree q). }
  intros s4 Hi4 Hh4 Hv4 Hdo4 Hr4 Hu4. apply wp_bind, wp_add_used; [done|].
  apply wp_ret. split_and!; [done| | | |].
  - split.
    + by destruct Hi4.
    + intros m. change (view s4 m = if decide (m = bm) then of_bitmap (bitmap_set (bits s g) j)
        else if true && bool_decide (m = r) then zero_block else view s m).
      rewrite Hv4, Hv3, Hv2, Hv1. simpl. destruct (decide (m = r)) as [->|Hmr].
      * rewrite decide_False by done. by rewrite bool_decide_true.
      * rewrite bool_decide_false by done. done.
    + simpl. by rewrite Hu4, Hu3, Hu2, Hu1.
  - change (held_map s4 = delete p (held_map s)). by rewrite Hh4, Hh3, Hh2, Hh1.
  - intros q Hq. change (dirty s4 q) in Hq. apply Hdo4, Hdo3 in Hq.
    destruct (decide (q = p)) as [->|Hqp]; [done|]. auto.
  - apply (room_eq sb s4); [done|]. apply (room_sub _ _ (bm :: r :: ns)); [done|].
    intros x Hx. by right.
Qed.

(** What is left after a flip, in terms of [alloced]. *)
Lemma flipped_alloced s s' g j b zeroed n :
  alloc_inv s -> flipped s s' g j b zeroed -> 0 <= g < num_groups sb ->
  data_start_per_group sb <= j < blocks_per_group sb ->
  alloced s' n = if decide (n = group_block sb g j) then b else alloced s n.
Proof using Hgeo.
  intros Hi Hf Hg Hj. assert (0 <= j < blocks_per_group sb) as Hj' by (destruct Hgeo; lia).
  assert (0 <= j < BIT_PER_BLOCK) as Hjb by (destruct Hgeo; lia).
  pose proof (Z.mod_pos_bound (n - bg_start sb) (blocks_per_group sb) ltac:(destruct Hgeo; lia)) as Hm.
  pose proof (Z.div_mod (n - bg_start sb) (blocks_per_group sb) ltac:(destruct Hgeo; lia)) as Hdm.
  unfold alloced. set (g' := (n - bg_start sb) / blocks_per_group sb) in *.
  set (j' := (n - bg_start sb) mod blocks_per_group sb) in *.
  assert (n = group_block sb g' j') as Hn by (unfold group_block; lia).
  case_decide as Hg'.
  - rewrite (flipped_bits s s' g j b zeroed) by done. destruct (decide (g' = g)) as [Hgg|Hgg].
    + rewrite flip_get by (done || lia). rewrite Hgg in *.
      destruct (decide (j' = j)) as [Hjj|Hjj].
      * rewrite decide_True; [done|]. by rewrite Hn, Hjj.
      * rewrite decide_False; [done|]. rewrite Hn. intros He. apply Hjj.
        by destruct (group_block_inj g j' g j Hm Hj' He).
    + rewrite decide_False; [done|]. rewrite Hn. intros He. apply Hgg.
      by destruct (group_block_inj g' j' g j Hm Hj' He).
  - rewrite decide_False; [done|]. rewrite Hn. intros He.
    by destruct (group_block_inj g' j' g j Hm Hj' He) as [-> _].
Qed.

(** A held block is allocated and not a bitmap. *)
Definition held_ok (s : cache) : Prop :=
  forall p n, held_map s !! p = Some n -> alloced s n = true /\ ~ is_bitmap sb n.

(** The result of an allocation. *)
Definition allocated (s s' : cache) (ctx : option nat) (ns : list Z) (k r : Z) : Prop :=
  0 < r < 2 ^ 32 /\ alloced s r = false /\
  (forall n, alloced s' n = if decide (n = r) then true else alloced s n) /\
  view s' r = zero_block /\
  (forall n, n <> r -> ~ is_bitmap sb n -> view s' n = view s n) /\
  room sb s' ctx (r :: ns) k.

Lemma flipped_allocated s s' g j ctx ns k :
  alloc_inv s -> flipped s s' g j true true -> 0 <= g < num_groups sb ->
  0 <= j < blocks_per_group sb -> bitmap_get (bits s g) j = false ->
  room sb s' ctx (group_block sb g j :: ns) k -> allocated s s' ctx ns k (group_block sb g j).
Proof using Hgeo.
  intros Hi Hf Hg Hj Hb Hr. pose proof (free_is_data s g j Hi Hg Hj Hb) as Hd.
  split_and!; try done.
  - by apply group_block_range.
  - by apply group_block_range.
  - by rewrite alloced_group.
  - intros n. eapply flipped_alloced; try done. lia.
  - rewrite (fl_view _ _ _ _ _ _ Hf). rewrite decide_False; [by rewrite bool_decide_true|].
    intros He. apply (free_not_bitmap s g j Hi Hg Hj Hb). exists g. by split.
  - intros n Hn Hnb. rewrite (fl_view _ _ _ _ _ _ Hf). rewrite decide_False.
    + by rewrite bool_decide_false.
    + intros ->. apply Hnb. by exists g.
Qed.

(** The search of one group's bitmap block, which is held by [p]. *)
Definition scan_bits (ctx : option nat) (p : nat) (bitmap : list Z) (base : Z) (g : Z) (n : nat)
    : M cache (option Z) :=
  forM n 0 1 (fun j =>
    if bitmap_get bitmap j then mret None
    else n ← take_bit ctx p j (base + j) g; mret (Some n)).

Lemma scan_bits_ok s ctx p g ns k (Q : option Z -> cache -> Prop) :
  alloc_inv s -> 0 <= g < num_groups sb -> held_map s !! p = Some (bitmap_block sb g) ->
  (forall q n, q <> p -> held_map s !! q = Some n -> alloced s n = true) ->
  room sb s ctx ns (2 + k) -> 0 <= k ->
  ((forall j, 0 <= j < blocks_per_group sb -> bitmap_get (bits s g) j = true) -> Q None s) ->
  (forall j s', 0 <= j < blocks_per_group sb -> bitmap_get (bits s g) j = false ->
     flipped s s' g j true true -> held_map s' = delete p (held_map s) ->
     (forall q, dirty s' q -> dirty s q) -> room sb s' ctx (group_block sb g j :: ns) k ->
     Q (Some (group_block sb g j)) s') ->
  wp (scan_bits ctx p (bits s g) (group_block sb g 0) g (Z.to_nat (blocks_per_group sb))) Q s.
Proof using Hgeo.
  intros Hi Hg Hh Hother Hroom Hk HN HS. unfold scan_bits.
  apply (wp_forM _ _ _ _ (fun i s' => s' = s /\
           forall j, 0 <= j < i -> bitmap_get (bits s g) j = true)).
  - split; [done|]. intros; lia.
  - intros i s' Hi' [-> Hall]. rewrite Z.add_0_l, Z.mul_1_l in *.
    assert (0 <= Z.of_nat i < blocks_per_group sb) as Hir by lia.
    destruct (bitmap_get (bits s g) (Z.of_nat i)) eqn:E.
    + apply wp_ret. split; [done|]. intros j Hj.
      destruct (decide (j = Z.of_nat i)) as [->|]; [done|]. apply Hall. lia.
    + replace (group_block sb g 0 + Z.of_nat i) with (group_block sb g (Z.of_nat i))
        by (unfold group_block; lia).
      apply wp_bind. eapply wp_mono.
      * apply (take_bit_ok s ctx p g (Z.of_nat i) ns k); try done.
        intros q Hq. destruct (decide (q = p)) as [->|Hqp].
        -- rewrite Hh in Hq. injection Hq as He.
           apply (free_not_bitmap s g (Z.of_nat i) Hi Hg Hir E). exists g. by split.
        -- pose proof (Hother q _ Hqp Hq) as Ha. rewrite alloced_group in Ha by done. congruence.
      * intros r s' (-> & Hf & Hh' & Hd & Hr). apply wp_ret. by apply (HS (Z.of_nat i) s').
  - intros s' [-> Hall]. apply HN. intros j Hj. apply Hall. lia.
Qed.

Lemma one_bitmap_block : bitmap_blocks (blocks_per_group sb) = 1%nat.
Proof using Hgeo.
  unfold bitmap_blocks. destruct Hgeo as [[? ?] ? ? ? ? ? ?]. change BIT_PER_BLOCK with 4096 in *.
  enough ((blocks_per_group sb + 4096 - 1) / 4096 = 1) as -> by done.
  symmetry. apply (Z.div_unique _ _ _ (blocks_per_group sb - 1)); lia.
Qed.

(** Acquiring the bitmap block of a group and searching it; the block is
    released when nothing is free.  The body of the loops of [cache_alloc] and
    [cache_allocg]. *)
Lemma search_group_ok s ctx g ns k (Q : option Z -> cache -> Prop) :
  alloc_inv s -> 0 <= g < num_groups sb -> held_ok s -> room sb s ctx ns (2 + k) -> 0 <= k ->
  (forall s', alloc_inv s' -> (forall n, view s' n = view s n) -> held_map s' = held_map s ->
     (forall q, dirty s' q -> dirty s q) -> room sb s' ctx ns (2 + k) ->
     (forall n, in_group sb g n -> alloced s n = true) -> Q None s') ->
  (forall r s', alloc_inv s' -> held_map s' = held_map s -> (forall q, dirty s' q -> dirty s q) ->
     in_group sb g r -> allocated s s' ctx ns k r -> Q (Some r) s') ->
  wp (block ← cache_acquire (bitmap_block sb g);
      b ← get_block block;
      r ← scan_bits ctx block (bitmap_of (bk_data b)) (group_block sb g 0) g
            (Z.to_nat (blocks_per_group sb));
      match r with
      | Some n => mret (Some n)
      | None => cache_release block;; mret None
      end) Q s.
Proof using Hgeo.
  intros Hi Hg Hho Hroom Hk HN HS.
  assert (is_bitmap sb (bitmap_block sb g)) as Hbm by (by exists g).
  apply wp_bind. eapply wp_mono.
  { apply (acquire_ok sb); [apply Hi|by apply bitmap_in_groups|]. intros q Hq. by destruct (Hho q _ Hq) as [_ []]. }
  intros p s1 (Hi1 & Hv1 & Hp & Hh1 & Hd1 & Hdo1 & [[Hl1 [Hu1 Hc1]] He1]).
  assert (alloc_inv s1) as Ha1 by (by apply (alloc_inv_same s)).
  assert (held_map s1 !! p = Some (bitmap_block sb g)) as Hhp by (by rewrite Hh1, lookup_insert_eq).
  pose proof Hhp as (b & Hhb & Hbn)%held_map_lookup.
  apply wp_bind. eapply wp_get_block; [apply Hhb|].
  replace (bitmap_of (bk_data b)) with (bits s1 g)
    by (unfold bits; rewrite <- Hbn; by rewrite (held_view s1 p b Hi1 Hhb)).
  pose proof (alloced_same _ _ Hv1) as Hal.
  apply wp_bind, (scan_bits_ok s1 ctx p g ns k); try done.
  - intros q n Hq. rewrite Hh1, lookup_insert_ne by done. intros Hn. rewrite Hal. by apply (Hho q).
  - by apply (room_eq sb s).
  - intros Hall. apply wp_bind. eapply wp_mono; [by apply (release_ok sb s1 p (bitmap_block sb g))|].
    intros [] s2 (Hi2 & Hv2 & Hh2 & Hdo2 & [[Hl2 [Hu2 Hc2]] He2]). apply wp_ret. apply HN.
    + by apply (alloc_inv_same s1).
    + intros n. by rewrite Hv2, Hv1.
    + rewrite Hh2, Hh1. by apply delete_insert_id.
    + intros q Hq. apply Hdo2 in Hq. destruct (decide (q = p)) as [->|]; [done|]. auto.
    + by apply (room_eq sb s1), (room_eq sb s).
    + intros n (j & Hj & ->). rewrite <- Hal, alloced_group by done. by apply Hall.
  - intros j s2 Hj Hb Hf Hh2 Hdo2 Hr2. apply wp_ret.
    assert (bits s1 g = bits s g) as Hbs by (by apply bits_same). rewrite Hbs in Hb.
    assert (flipped s s2 g j true true) as Hf'.
    { destruct Hf as [H1 H2 H3]. split; [done| |by rewrite H3, Hu1].
      intros m. rewrite H2, Hbs. by rewrite Hv1. }
    apply HS.
    + eapply (flipped_inv s s2 g j true true); try done.
      pose proof (free_is_data s g j Hi Hg Hj Hb). lia.
    + rewrite Hh2, Hh1. by apply delete_insert_id.
    + intros q Hq. apply Hdo2 in Hq. destruct (decide (q = p)) as [->|]; [done|]. auto.
    + by exists j.
    + by apply flipped_allocated.
Qed.

(** The common body, with the block numbers the code computes. *)
Lemma search_group_eq ctx g bn base n0 s :
  n0 = Z.to_nat (blocks_per_group sb) -> bn = bitmap_block sb g -> (forall j, 0 <= j < blocks_per_group sb -> base j = group_block sb g j) ->
  (block ← cache_acquire bn;
   b ← get_block block;
   r ← forM n0 0 1 (fun j =>
         if bitmap_get (bitmap_of (bk_data b)) j then mret None
         else n ← take_bit ctx block j (base j) g; mret (Some n));
   match r with
   | Some n => mret (Some n)
   | None => cache_release block;; mret None
   end) s =
  (block ← cache_acquire (bitmap_block sb g);
   b ← get_block block;
   r ← scan_bits ctx block (bitmap_of (bk_data b)) (group_block sb g 0) g
         (Z.to_nat (blocks_per_group sb));
   match r with
   | Some n => mret (Some n)
   | None => cache_release block;; mret None
   end) s.
Proof.
  intros -> -> Hb. apply bind_ext; [done|]. intros p s1. apply bind_ext; [done|]. intros b s2.
  apply bind_ext; [|done]. apply forM_ext. intros k s3 Hk.
  rewrite Hb by lia. set (j := 0 + 1 * Z.of_nat k).
  by replace (group_block sb g 0 + j) with (group_block sb g j) by (unfold group_block; lia).
Qed.

Lemma min_bpg : Z.min BIT_PER_BLOCK (blocks_per_group sb) = blocks_per_group sb.
Proof using Hgeo. destruct Hgeo. lia. Qed.

Lemma allocg_ok s ctx g ns k :
  alloc_inv s -> 0 <= g < num_groups sb -> room sb s ctx ns (2 + k) -> 0 <= k -> held_ok s ->
  wp (cache_allocg sb ctx g) (fun r s' =>
    alloc_inv s' /\ held_map s' = held_map s /\ (forall q, dirty s' q -> dirty s q) /\
    ((r = 0 /\ ((forall n, view s' n = view s n) /\ (forall n, alloced s' n = alloced s n)) /\
      (forall n, in_group sb g n -> alloced s n = true) /\ room sb s' ctx ns (2 + k)) \/
     (in_group sb g r /\ allocated s s' ctx ns k r))) s.
Proof using Hgeo.
  intros Hi Hg Hroom Hk Hho. unfold cache_allocg.
  apply wp_bind, wp_assert; [destruct Hgeo; apply Z.ltb_lt; lia|].
  rewrite one_bitmap_block. apply wp_bind. cbn [forM]. apply wp_bind.
  eapply wp_change; [apply (search_group_eq ctx g)|].
  - by rewrite min_bpg.
  - rewrite Z.div_0_l by done. rewrite Z.add_0_r.
    pose proof (group_block_range g _ Hg bitmap_in_group) as Hr. unfold bitmap_block, group_block in *.
    rewrite (u32_id (_ + _ + _)), u64_id by lia. lia.
  - intros j Hj. pose proof (group_block_range g j Hg Hj) as Hr.
    pose proof (group_block_range g 0 Hg ltac:(destruct Hgeo; lia)) as Hr0. unfold group_block in *.
    rewrite (u32_id (bg_start sb + _)), u64_id by lia. lia.
  - eapply search_group_ok; try done.
    + intros s' Ha Hv Hh Hd Hr Hall. do 2 apply wp_ret. split_and!; try done. left. split_and!; try done.
      by apply alloced_same.
    + intros r s' Ha Hh Hd Hin Hal. do 2 apply wp_ret. split_and!; try done. by right.
Qed.

(** [cache_alloc] takes the first group with a free block. *)
Lemma alloc_ok s ctx ns k :
  alloc_inv s -> room sb s ctx ns (2 + k) -> 0 <= k -> held_ok s ->
  (exists g n, 0 <= g < num_groups sb /\ in_group sb g n /\ alloced s n = false) ->
  wp (cache_alloc sb ctx) (fun r s' =>
    alloc_inv s' /\ held_map s' = held_map s /\ (forall q, dirty s' q -> dirty s q) /\
    (exists g, 0 <= g < num_groups sb /\ in_group sb g r) /\ allocated s s' ctx ns k r) s.
Proof using Hgeo.
  intros Hi Hroom Hk Hho (g0 & n0 & Hg0 & Hn0 & Hfree). unfold cache_alloc.
  apply wp_bind.
  apply (wp_forM _ _ _ _ (fun g s' => alloc_inv s' /\ (forall n, view s' n = view s n) /\
           held_map s' = held_map s /\ (forall q, dirty s' q -> dirty s q) /\ room sb s' ctx ns (2 + k) /\
           forall g' n, 0 <= g' < g -> in_group sb g' n -> alloced s n = true)).
  - split_and!; try done. intros; lia.
  - intros i s1 Hi1 (Ha & Hv & Hh & Hd & Hr & Hall). rewrite Z.add_0_l, Z.mul_1_l in *.
    set (g := Z.of_nat i) in *. assert (0 <= g < num_groups sb) as Hg by lia.
    pose proof (alloced_same _ _ Hv) as Hal.
    rewrite one_bitmap_block. cbn [forM]. apply wp_bind.
    eapply wp_change; [apply (search_group_eq ctx g)|].
    + by rewrite Z.sub_0_r, min_bpg.
    + rewrite Z.div_0_l, Z.add_0_r by done.
      pose proof (group_block_range g _ Hg bitmap_in_group) as Hr0. unfold bitmap_block, group_block in *.
      rewrite u64_id by lia. lia.
    + intros j Hj. pose proof (group_block_range g j Hg Hj) as Hr0. unfold group_block in *.
      rewrite u64_id by lia. lia.
    + eapply search_group_ok; try done.
      * intros q n Hq. rewrite Hh in Hq. rewrite Hal. by apply (Hho q).
      * intros s2 Ha2 Hv2 Hh2 Hd2 Hr2 Hall2. do 2 apply wp_ret. split_and!; try done.
        -- intros n. by rewrite Hv2, Hv.
        -- by rewrite Hh2.
        -- auto.
        -- intros g' n Hg' Hn. destruct (decide (g' = g)) as [->|]; [|apply (Hall g'); [lia|done]].
           rewrite <- Hal. by apply Hall2.
      * intros r s2 Ha2 Hh2 Hd2 Hin (H1 & H2 & H3 & H4 & H5 & H6). do 3 apply wp_ret.
        split_and!; auto; [by rewrite Hh2|by exists g|]. destruct H1.
        split; [done|]. split; [by rewrite <- Hal|]. split_and!; auto.
        -- intros n. by rewrite H3, Hal.
        -- intros n Hn Hnb. by rewrite H5, Hv.
  - intros s1 (_ & _ & _ & _ & _ & Hall). exfalso.
    rewrite (Hall g0 n0) in Hfree; [done| |done]. lia.
Qed.

(** ** [cache_free] *)
(** [upd_block] after the block has been looked at. *)
Lemma upd_block_then {A} s p b f (m : M cache A) :
  c_blocks s !! p = Some b -> (put_block p (f b);; m) s = (upd_block p f;; m) s.
Proof. intros Hp. unfold upd_block, get_block, mbind, M_bind, gets. by rewrite Hp. Qed.

(** Clearing bit [j] of group [g] in the bitmap held at [p]. *)
Lemma wp_clear_bit s ctx p g j ns k Q :
  cache_inv s -> 0 <= g < num_groups sb -> 0 <= j < blocks_per_group sb ->
  held_map s !! p = Some (bitmap_block sb g) -> room sb s ctx ns (1 + k) -> 0 <= k ->
  (forall s', flipped s s' g j false false -> held_map s' = delete p (held_map s) ->
    (forall q, q <> p -> dirty s' q -> dirty s q) -> ~ dirty s' p -> room sb s' ctx ns k -> Q tt s') ->
  wp (upd_block p (fun b => set_bk_data (of_bitmap (bitmap_clear (bitmap_of (bk_data b)) j)) b);;
      add_used g (-1);; cache_sync ctx p;; cache_release p) Q s.
Proof using Hgeo.
  intros Hi Hg Hj Hh Hroom Hk HQ. set (bm := bitmap_block sb g) in *.
  pose proof (group_block_range g _ Hg bitmap_in_group) as Hbr.
  apply wp_bind. eapply wp_mono.
  { apply (upd_data_ok s p bm (fun d => of_bitmap (bitmap_clear (bitmap_of d) j))); [done|done|].
    apply of_bitmap_length. rewrite length_bitmap_clear. apply length_bitmap_of. }
  intros [] s2 (Hi2 & Hh2 & Hv2 & Hdo2 & [[Hl2 [Hu2 Hc2]] He2]).
  apply wp_bind, wp_add_used; [done|]. set (s3 := set_c_used_block _ s2).
  assert (cache_inv s3) as Hi3 by (by destruct Hi2).
  apply wp_bind. eapply wp_mono.
  { apply (sync_ok sb s3 ctx p bm (bm :: ns) k); try done.
    - change (held_map s3) with (held_map s2). by rewrite Hh2.
    - apply (room_eq sb s2), (room_eq sb s); try done. apply room_weaken; [by apply bitmap_in_groups|done].
    - by left.
    - unfold bm, bitmap_block. lia. }
  intros [] s4 (Hi4 & Hv4 & Hh4 & Hd4 & Hdo4 & Hr4 & Hl4 & Hu4).
  eapply wp_mono; [apply (release_ok sb s4 p bm); [done| |done]|].
  { rewrite Hh4. change (held_map s3) with (held_map s2). by rewrite Hh2. }
  intros [] s5 (Hi5 & Hv5 & Hh5 & Hdo5 & [[Hl5 [Hu5 Hc5]] He5]).
  apply HQ.
  - split; [done| |by rewrite Hu5, Hu4; simpl; rewrite Hu2].
    intros m. rewrite Hv5, Hv4. change (view s3 m) with (view s2 m). by rewrite Hv2.
  - rewrite Hh5, Hh4. change (held_map s3) with (held_map s2). by rewrite Hh2.
  - intros q Hqp Hq. by apply Hdo2, (Hdo4 q Hqp), Hdo5.
  - by intros ?%Hdo5.
  - apply (room_sub _ _ (bm :: ns)); [by apply (room_eq sb s4)|]. intros x Hx. by right.
Qed.

Lemma free_ok s ctx g j ns k :
  alloc_inv s -> 0 <= g < num_groups sb -> data_start_per_group sb <= j < blocks_per_group sb ->
  alloced s (group_block sb g j) = true -> room sb s ctx ns (1 + k) -> 0 <= k ->
  (forall p m, held_map s !! p = Some m -> ~ is_bitmap sb m) ->
  wp (cache_free sb ctx (group_block sb g j)) (fun _ s' =>
    alloc_inv s' /\ held_map s' = held_map s /\ (forall q, dirty s' q -> dirty s q) /\
    flipped s s' g j false false /\ room sb s' ctx ns k) s.
Proof using Hgeo.
  intros Hi Hg Hj Hal Hroom Hk Hho. unfold cache_free.
  assert (0 <= j < blocks_per_group sb) as Hj' by (destruct Hgeo; lia).
  assert (0 <= j < BIT_PER_BLOCK) as Hjb by (destruct Hgeo; lia).
  pose proof (group_block_range g j Hg Hj') as Hr.
  pose proof (group_block_range g _ Hg bitmap_in_group) as Hbr.
  assert (0 <= group_block sb g j - bg_start sb < 2 ^ 64) as Hd by (unfold group_block in *; destruct Hgeo; nia).
  rewrite (u64_id _ Hd). destruct (group_div g j Hj') as [-> ->].
  rewrite (Z.div_small j), (Z.mod_small j) by done.
  replace (u64 _) with (bitmap_block sb g)
    by (unfold bitmap_block, group_block in *; rewrite u64_id by lia; lia).
  rewrite alloced_group in Hal by done. set (bm := bitmap_block sb g) in *.
  assert (is_bitmap sb bm) as Hbm by (by exists g).
  apply wp_bind. eapply wp_mono; [apply (acquire_ok sb); [apply Hi|by apply bitmap_in_groups|intros q Hq; by apply (Hho q _ Hq)]|].
  intros p s1 (Hi1 & Hv1 & Hp & Hh1 & Hd1 & Hdo1 & [[Hl1 [Hu1 Hc1]] He1]).
  assert (held_map s1 !! p = Some bm) as Hhp by (by rewrite Hh1, lookup_insert_eq).
  pose proof Hhp as (b & Hhb & Hbn)%held_map_lookup.
  apply wp_bind. eapply wp_get_block; [apply Hhb|].
  assert (bk_data b = view s bm) as Hbd by (by rewrite <- Hv1, <- Hbn, (held_view s1 p b Hi1 Hhb)).
  apply wp_bind, wp_assert; [by rewrite Hbd|].
  eapply wp_change.
  { apply (upd_block_then s1 p b (fun b => set_bk_data (of_bitmap (bitmap_clear (bitmap_of (bk_data b)) j)) b)), Hhb. }
  apply (wp_clear_bit s1 ctx p g j ns k); try done; [by apply (room_eq sb s)|].
  intros s5 [Hf1 Hf2 Hf3] Hh5 Hdo5 Hdp Hr5.
  assert (flipped s s5 g j false false) as Hf.
  { split; [done| |by rewrite Hf3, Hu1]. intros m. rewrite Hf2. unfold bits. by rewrite !Hv1. }
  split_and!; try done.
  - by apply (flipped_inv s s5 g j false false).
  - rewrite Hh5, Hh1. by apply delete_insert_id.
  - intros q Hq. destruct (decide (q = p)) as [->|Hqp]; [done|]. auto.
Qed.

(** ** The instance *)
(** One for each [op_invariant]. *)
Program Definition cache_laws : BlockCacheSpec sb (bcache sb) := {|
  bk_ok := alloc_inv;
  bk_view := view;
  bk_held := held_map;
  bk_dirty := dirty;
  bk_room := room sb;
  bk_alloced := alloced
|}.
Next Obligation. intros s n Hi. apply length_view, Hi. Qed.
Next Obligation. intros s n Hi. apply Hi. Qed.
Next Obligation. exact room_sub. Qed.
Next Obligation. exact room_weaken. Qed.
Next Obligation.
  intros s g j Hi Hg Hj. assert (data_start_per_group sb <= blocks_per_group sb) by apply Hgeo.
  rewrite alloced_group by lia. by apply Hi.
Qed.
Next Obligation.
  intros s n Hi Hg Hn. eapply wp_mono; [by apply (acquire_ok sb); [apply Hi|..]|].
  intros p s' (Hi' & Hv & Hp & Hh & Hd & Hdo & [[Hl [Hu Hc]] He]).
  split_and!; try done; [by apply (alloc_inv_same s)|by apply alloced_same|].
  intros. by apply (room_eq sb s).
Qed.
Next Obligation. intros s p n Hi Hh. apply data_ok; [apply Hi|done]. Qed.
Next Obligation.
  intros s p n d Hi Hh Hn Hl Hb. eapply wp_mono; [by apply (store_ok sb s p n d (ai_inv _ Hi) Hh)|].
  intros [] s' (Hi' & Hh' & Hv & Hdo & [[Hlg [Hu Hc]] He]).
  pose proof (bits_not_bitmap s s' n d Hv Hn) as Hbits.
  split_and!; try done.
  - destruct Hi. split; rewrite ?Hu; auto.
    + intros m. rewrite Hv. by case_decide.
    + intros g j Hg. rewrite Hbits by done. auto.
    + intros g Hg. rewrite Hbits by done. auto.
  - intros m. unfold alloced. case_decide; [|done]. by rewrite Hbits.
  - intros. by apply (room_eq sb s).
Qed.
Next Obligation.
  intros s ctx p n ns k Hi Hh Hr Hk Hin Hn. eapply wp_mono; [by apply (sync_ok sb s ctx p n ns k (ai_inv _ Hi))|].
  intros [] s' (Hi' & Hv & Hh' & Hd & Hdo & Hr' & Hl & Hu).
  split_and!; try done; [by apply (alloc_inv_same s)|by apply alloced_same].
Qed.
Next Obligation.
  intros s p n Hi Hh Hd. eapply wp_mono; [by apply (release_ok sb s p n (ai_inv _ Hi))|].
  intros [] s' (Hi' & Hv & Hh' & Hdo & [[Hl [Hu Hc]] He]).
  split_and!; try done; [by apply (alloc_inv_same s)|by apply alloced_same|].
  intros. by apply (room_eq sb s).
Qed.
Next Obligation. intros s ctx g ns k Hi Hg Hr Hk Hho. by apply allocg_ok. Qed.
Next Obligation. intros s ctx ns k Hi Hr Hk Hho Hex. by apply alloc_ok. Qed.
Next Obligation.
  intros s ctx g n ns k Hi Hg (j & Hj & ->) Hal Hr Hk Hho.
  eapply wp_mono; [by apply (free_ok s ctx g j ns k)|].
  intros [] s' (Hi' & Hh & Hd & Hf & Hr'). split_and!; try done.
  - intros m. by apply (flipped_alloced s s' g j false false).
  - intros m Hm. rewrite (fl_view _ _ _ _ _ _ Hf). rewrite decide_False; [done|].
    intros ->. apply Hm. by exists g.
Qed.
Next Obligation. intros s g Hi Hg. apply wp_gets. split; [done|]. by apply full_iff. Qed.

End alloc.

#[export] Instance cache_spec sb (Hgeo : geometry_ok sb) : BlockCacheSpec sb (bcache sb) :=
  cache_laws sb Hgeo (OI := any_op sb).

(** ** Property *)

(** C9: Allocation in a group.  [cache_allocg] returns 0 exactly when the
    group has no free block, and then changes nothing; otherwise it returns a
    block of the group that was free, marks it, counts it, zeroes it, and
    leaves every other block that is not a bitmap as it was.  The counters
    stay equal to the number of data blocks allocated ([alloc_inv]). *)
Theorem cache_allocg_correct sb {OI : op_invariant sb} s ctx g ns k :
  geometry_ok sb -> alloc_inv sb s -> 0 <= g < num_groups sb -> room sb s ctx ns (2 + k) -> 0 <= k ->
  held_ok sb s ->
  exists r s', cache_allocg sb ctx g s = Ok (r, s') /\ alloc_inv sb s' /\
    held_map s' = held_map s /\
    (r = 0 <-> forall n, in_group sb g n -> alloced sb s n = true) /\
    (r = 0 -> forall n, view s' n = view s n) /\
    (r <> 0 -> in_group sb g r /\ alloced sb s r = false /\
       (forall n, alloced sb s' n = if decide (n = r) then true else alloced sb s n) /\
       view s' r = zero_block /\
       (forall n, n <> r -> ~ is_bitmap sb n -> view s' n = view s n)).
Proof.
  intros Hgeo Hi Hg Hr Hk Hho.
  destruct (proj1 (wp_ok _ _ _) (allocg_ok sb Hgeo s ctx g ns k Hi Hg Hr Hk Hho))
    as (r & s' & Heq & Hi' & Hh & _ & Hcase).
  exists r, s'. split; [done|]. split; [done|]. split; [done|].
  destruct Hcase as [(-> & [Hv _] & Hall & _)|(Hin & H1 & H2 & H3 & H4 & H5 & H6)].
  - split; [done|]. split; [done|]. done.
  - split_and!; [|lia|done]. split; [lia|]. intros Hall. rewrite Hall in H2 by done. done.
Qed.

(** The bitmaps of a small fresh file system: the first four blocks of each group
    are the inode blocks and the bitmap block. *)
Definition demo_sb : SuperBlock := mkSuperBlock 113 63 3 60 16 2 65 3 1 12 3 4.
Definition demo_bitmaps : gmap Z (list Z) :=
  list_to_map ((fun g => (bitmap_block demo_sb g, 15 :: replicate 511 0)) <$> seqZ 0 3).
Definition demo_boot : cache :=
  mkCache (mkDevice demo_bitmaps []) ∅ 0 [] false (mkLogHeader 0 (replicate 63 0))
    (mkLogState 0 0 3 62 0 0) (replicate 10 0) ∅.

Lemma demo_geometry : geometry_ok demo_sb.
Proof. by split. Qed.

Lemma demo_bitmaps_ok n :
  length (disk_read demo_bitmaps n) = bsize /\ Forall byte_ok (disk_read demo_bitmaps n).
Proof.
  unfold disk_read. destruct (demo_bitmaps !! n) as [d|] eqn:E.
  - revert n d E. apply (bool_decide_unpack (map_Forall (fun _ d => length d = bsize /\ Forall byte_ok d) demo_bitmaps)).
    vm_compute. exact I.
  - split; [done|]. simpl. apply Forall_replicate. unfold byte_ok. lia.
Qed.

Lemma seqZ_forall (P : Z -> Prop) n : Forall P (seqZ 0 n) -> forall i, 0 <= i < n -> P i.
Proof. rewrite Forall_forall. intros H i Hi. apply H, elem_of_seqZ. lia. Qed.

Lemma demo_alloc_inv : alloc_inv demo_sb demo_boot.
Proof.
  split.
  - split; simpl; try done.
    + intros p. split; [by intros ?%not_elem_of_nil|]. by intros [? ?].
    + constructor.
    + by intros p [? ?].
    + intros n. apply demo_bitmaps_ok.
  - intros n. apply demo_bitmaps_ok.
  - done.
  - intros g j Hg Hj. revert g Hg. apply (seqZ_forall (fun g => bitmap_get (bits demo_sb demo_boot g) j = true)).
    revert j Hj. apply (seqZ_forall (fun j => Forall (fun g => bitmap_get (bits demo_sb demo_boot g) j = true) (seqZ 0 3))).
    apply (bool_decide_unpack _). vm_compute. exact I.
  - apply (seqZ_forall (fun g => c_used_block demo_boot !!! Z.to_nat g =
      Z.of_nat (count_set (bits demo_sb demo_boot g) (Z.to_nat 16)) - 4)).
    apply (bool_decide_unpack _). vm_compute. exact I.
Qed.

Lemma cache_allocg_correct_witness :
  exists r s', cache_allocg demo_sb None 1 demo_boot = Ok (r, s') /\ alloc_inv demo_sb s' /\
    held_map s' = held_map demo_boot /\
    (r = 0 <-> forall n, in_group demo_sb 1 n -> alloced demo_sb demo_boot n = true) /\
    (r = 0 -> forall n, view s' n = view demo_boot n) /\
    (r <> 0 -> in_group demo_sb 1 r /\ alloced demo_sb demo_boot r = false /\
       (forall n, alloced demo_sb s' n = if decide (n = r) then true else alloced demo_sb demo_boot n) /\
       view s' r = zero_block /\
       (forall n, n <> r -> ~ is_bitmap demo_sb n -> view s' n = view demo_boot n)).
Proof.
  apply (cache_allocg_correct demo_sb (OI := any_op demo_sb) demo_boot None 1 [] 0 demo_geometry demo_alloc_inv); try done.
Defined.

(** [cache_free] undoes an allocation: it clears the bit of an allocated
    data block, decrements the counter of its group and leaves the content of
    every block that is not a bitmap as it was. *)
Theorem cache_free_correct sb {OI : op_invariant sb} s ctx g j ns k :
  geometry_ok sb -> alloc_inv sb s -> 0 <= g < num_groups sb ->
  data_start_per_group sb <= j < blocks_per_group sb ->
  alloced sb s (group_block sb g j) = true -> room sb s ctx ns (1 + k) -> 0 <= k ->
  (forall p m, held_map s !! p = Some m -> ~ is_bitmap sb m) ->
  exists s', cache_free sb ctx (group_block sb g j) s = Ok (tt, s') /\ alloc_inv sb s' /\
    (forall n, alloced sb s' n = if decide (n = group_block sb g j) then false else alloced sb s n) /\
    (forall n, ~ is_bitmap sb n -> view s' n = view s n) /\
    c_used_block s' !!! Z.to_nat g = c_used_block s !!! Z.to_nat g - 1.
Proof.
  intros Hgeo Hi Hg Hj Ha Hr Hk Hho.
  destruct (proj1 (wp_ok _ _ _) (free_ok sb Hgeo s ctx g j ns k Hi Hg Hj Ha Hr Hk Hho))
    as ([] & s' & Heq & Hi' & Hh & Hd & Hf & Hr').
  exists s'. split_and!; try done.
  - intros n. by apply (flipped_alloced sb Hgeo s s' g j false false).
  - intros n Hn. rewrite (fl_view _ _ _ _ _ _ _ Hf). rewrite decide_False; [done|].
    intros ->. apply Hn. by exists g.
  - rewrite (ai_used _ _ Hi') by done. rewrite (ai_used _ _ Hi) by done.
    rewrite (flipped_bits sb Hgeo s s' g j false false g) by done. rewrite decide_True by done.
    assert (0 <= j < blocks_per_group sb) as Hj' by (destruct Hgeo; lia).
    pose proof (flipped_count sb Hgeo s g j false Hi Hj') as Hc. simpl in Hc. rewrite Hc; [lia|].
    by rewrite alloced_group in Ha.
Qed.

(** A file system where block 7 of group 2 is in use. *)
Definition demo_used : cache :=
  mkCache (mkDevice (<[bitmap_block demo_sb 2 := 143 :: replicate 511 0]> demo_bitmaps) []) ∅ 0 [] false
    (mkLogHeader 0 (replicate 63 0)) (mkLogState 0 0 3 62 0 0) (<[2%nat := 1]> (replicate 10 0)) ∅.

Lemma demo_used_ok n : length (dev_read demo_used n) = bsize /\ Forall byte_ok (dev_read demo_used n).
Proof.
  unfold dev_read, disk_read. simpl. destruct (decide (n = bitmap_block demo_sb 2)) as [->|Hn].
  - rewrite lookup_insert_eq. split; [done|]. apply (bool_decide_unpack _). vm_compute. exact I.
  - rewrite lookup_insert_ne by done. apply demo_bitmaps_ok.
Qed.

Lemma demo_used_inv : alloc_inv demo_sb demo_used.
Proof.
  split.
  - split; simpl; try done.
    + intros p. split; [by intros ?%not_elem_of_nil|]. by intros [? ?].
    + constructor.
    + by intros p [? ?].
    + intros n. apply demo_used_ok.
  - intros n. apply demo_used_ok.
  - done.
  - intros g j Hg Hj. revert g Hg. apply (seqZ_forall (fun g => bitmap_get (bits demo_sb demo_used g) j = true)).
    revert j Hj. apply (seqZ_forall (fun j => Forall (fun g => bitmap_get (bits demo_sb demo_used g) j = true) (seqZ 0 3))).
    apply (bool_decide_unpack _). vm_compute. exact I.
  - apply (seqZ_forall (fun g => c_used_block demo_used !!! Z.to_nat g =
      Z.of_nat (count_set (bits demo_sb demo_used g) (Z.to_nat 16)) - 4)).
    apply (bool_decide_unpack _). vm_compute. exact I.
Qed.

Lemma cache_free_correct_witness :
  exists s', cache_free demo_sb None (group_block demo_sb 2 7) demo_used = Ok (tt, s') /\
    alloc_inv demo_sb s' /\
    (forall n, alloced demo_sb s' n =
       if decide (n = group_block demo_sb 2 7) then false else alloced demo_sb demo_used n) /\
    (forall n, ~ is_bitmap demo_sb n -> view s' n = view demo_used n) /\
    c_used_block s' !!! 2%nat = c_used_block demo_used !!! 2%nat - 1.
Proof.
  apply (cache_free_correct demo_sb (OI := any_op demo_sb) demo_used None 2 7 [] 0 demo_geometry demo_used_inv); try done.
Defined.

End CacheAlloc.
