(* ===== verification/Inode.v ===== *)
(** * The inode layer (src/fs/inode.h, inode.c)

    In-memory inodes over the function table of the block cache: allocation,
    locking, reference counts, the mapping of file offsets to blocks spread
    over block groups, file content, directories and paths. *)
From S2P Require Import Prelude FsDefines CString Console BlockIface.

Module Inode.
Import CString Console.

Definition ROOT_INODE_NO : Z := 1.

Record Inode : Type := mkInode {
  i_lock : bool;       (** the spin lock [lock] *)
  i_rc : Z;            (** [rc.count] *)
  i_inode_no : Z;
  i_valid : bool;
  i_entry : InodeEntry
}.

Definition set_i_lock (x : bool) (s : Inode) : Inode :=
  mkInode x (i_rc s) (i_inode_no s) (i_valid s) (i_entry s).
Definition set_i_rc (x : Z) (s : Inode) : Inode :=
  mkInode (i_lock s) x (i_inode_no s) (i_valid s) (i_entry s).
Definition set_i_valid (x : bool) (s : Inode) : Inode :=
  mkInode (i_lock s) (i_rc s) (i_inode_no s) x (i_entry s).
Definition set_i_entry (x : InodeEntry) (s : Inode) : Inode :=
  mkInode (i_lock s) (i_rc s) (i_inode_no s) (i_valid s) x.

Definition set_ie_type (x : Z) (s : InodeEntry) : InodeEntry :=
  mkInodeEntry x (ie_major s) (ie_minor s) (ie_num_links s) (ie_num_bytes s) (ie_addrs s) (ie_indirect s).
Definition set_ie_num_links (x : Z) (s : InodeEntry) : InodeEntry :=
  mkInodeEntry (ie_type s) (ie_major s) (ie_minor s) x (ie_num_bytes s) (ie_addrs s) (ie_indirect s).
Definition set_ie_num_bytes (x : Z) (s : InodeEntry) : InodeEntry :=
  mkInodeEntry (ie_type s) (ie_major s) (ie_minor s) (ie_num_links s) x (ie_addrs s) (ie_indirect s).
Definition set_ie_addrs (x : list Z) (s : InodeEntry) : InodeEntry :=
  mkInodeEntry (ie_type s) (ie_major s) (ie_minor s) (ie_num_links s) (ie_num_bytes s) x (ie_indirect s).
Definition set_ie_indirect (x : Z) (s : InodeEntry) : InodeEntry :=
  mkInodeEntry (ie_type s) (ie_major s) (ie_minor s) (ie_num_links s) (ie_num_bytes s) (ie_addrs s) x.

(** The in-memory inodes, over a block cache with states [St]; the console
    that device inodes reach; and what the code asks of [thiscpu()->proc]. *)
Record istate (St : Type) : Type := mkIstate {
  is_cache : St;
  is_objs : gmap nat Inode;   (** the objects allocated from [arena] *)
  is_next : nat;
  is_head : list nat;         (** the list [head], from [head.next] *)
  is_lock : bool;             (** the spin lock [lock] *)
  is_con : console;
  is_cwd : nat;               (** [proc->cwd] *)
  is_killed : bool            (** [proc->killed] *)
}.
Arguments mkIstate {St}. Arguments is_cache {St}. Arguments is_objs {St}. Arguments is_next {St}.
Arguments is_head {St}. Arguments is_lock {St}. Arguments is_con {St}. Arguments is_cwd {St}.
Arguments is_killed {St}.

Section inode.
Context {St : Type} (sblock : SuperBlock) (cache : BlockCache St).
(** What [alloc_object] leaves in a new inode's [entry], which [init_inode] does not set. *)
Context (uninit : InodeEntry).

Definition set_is_cache (x : St) (s : (istate St)) : (istate St) :=
  mkIstate x (is_objs s) (is_next s) (is_head s) (is_lock s) (is_con s) (is_cwd s) (is_killed s).
Definition set_is_objs (x : gmap nat Inode) (s : (istate St)) : (istate St) :=
  mkIstate (is_cache s) x (is_next s) (is_head s) (is_lock s) (is_con s) (is_cwd s) (is_killed s).
Definition set_is_next (x : nat) (s : (istate St)) : (istate St) :=
  mkIstate (is_cache s) (is_objs s) x (is_head s) (is_lock s) (is_con s) (is_cwd s) (is_killed s).
Definition set_is_head (x : list nat) (s : (istate St)) : (istate St) :=
  mkIstate (is_cache s) (is_objs s) (is_next s) x (is_lock s) (is_con s) (is_cwd s) (is_killed s).
Definition set_is_lock (x : bool) (s : (istate St)) : (istate St) :=
  mkIstate (is_cache s) (is_objs s) (is_next s) (is_head s) x (is_con s) (is_cwd s) (is_killed s).
Definition set_is_con (x : console) (s : (istate St)) : (istate St) :=
  mkIstate (is_cache s) (is_objs s) (is_next s) (is_head s) (is_lock s) x (is_cwd s) (is_killed s).
Definition set_is_cwd (x : nat) (s : (istate St)) : (istate St) :=
  mkIstate (is_cache s) (is_objs s) (is_next s) (is_head s) (is_lock s) (is_con s) x (is_killed s).

(** Calling the block cache. *)
Definition bc {A} (m : M St A) : M (istate St) A := lift is_cache set_is_cache m.

(** ** Where inodes live *)
Definition GINODES : Z := num_inodes sblock / num_groups sblock.
Definition NINBLOCKS_PER_GROUP : Z := (BLOCK_SIZE / 4) / (NGROUPS - 1) * 2 + 1.

Definition to_block_no (inode_no : Z) : Z :=
  u64 (bg_start sblock + blocks_per_group sblock * (u64 (inode_no - 1) / GINODES) +
       (u64 (inode_no - 1) mod GINODES) / INODE_PER_BLOCK).

(** The byte offset of the entry of [inode_no] in its block. *)
Definition entry_off (inode_no : Z) : nat := Z.to_nat (inode_no mod INODE_PER_BLOCK * sizeof_InodeEntry).

Definition get_entry (data : list Z) (inode_no : Z) : InodeEntry :=
  decode_InodeEntry (slice (entry_off inode_no) 64 data).
Definition put_entry (data : list Z) (inode_no : Z) (e : InodeEntry) : list Z :=
  splice (entry_off inode_no) (encode_InodeEntry e) data.

(** [get_addrs(block)], read and written through the pointer. *)
Definition get_addrs (data : list Z) : list Z := decode_IndirectBlock data.
Definition put_addrs (addrs : list Z) : list Z := encode_IndirectBlock addrs.

Definition zero_entry : InodeEntry := mkInodeEntry 0 0 0 0 0 (replicate 12 0) 0.

(** ** Inode pointers *)
Definition get_inode (ip : nat) : M (istate St) Inode :=
  o ← gets (fun s => is_objs s !! ip); from_option_M o.
Definition put_inode (ip : nat) (i : Inode) : M (istate St) unit :=
  modify (fun s => set_is_objs (<[ip := i]> (is_objs s)) s).
Definition upd_inode (ip : nat) (f : Inode -> Inode) : M (istate St) unit :=
  i ← get_inode ip; put_inode ip (f i).
Definition upd_entry (ip : nat) (f : InodeEntry -> InodeEntry) : M (istate St) unit :=
  upd_inode ip (fun i => set_i_entry (f (i_entry i)) i).

Definition acquire_tree_lock : M (istate St) unit :=
  b ← gets is_lock; assert_ (negb b);; modify (set_is_lock true).
Definition release_tree_lock : M (istate St) unit :=
  b ← gets is_lock; assert_ b;; modify (set_is_lock false).

(** ** Allocation of inodes *)
Definition inode_alloc (ctx : option nat) (type : Z) : M (istate St) Z :=
  assert_ (negb (type =? INODE_INVALID));;
  r ← forM (Z.to_nat (num_inodes sblock)) 1 1 (fun ino =>
        block ← bc (bc_acquire cache (to_block_no ino));
        data ← bc (bc_data cache block);
        if ie_type (get_entry data ino) =? INODE_INVALID then
          bc (bc_store cache block (put_entry data ino (set_ie_type type zero_entry)));;
          bc (bc_sync cache ctx block);;
          bc (bc_release cache block);;
          mret (Some ino)
        else
          bc (bc_release cache block);;
          mret None);
  mret (default 0 r).

(** The loop that looks for the emptiest group, from [i] on: [used] and [gno]
    are the best so far. It gives [i] and [gno] as they are behind the loop. *)
Fixpoint emptiest_group (fuel : nat) (ub : list Z) (i used gno : Z) : Z * Z :=
  match fuel with
  | O => (i, gno)
  | S fuel' =>
      if i <? NGROUPS then
        if ub !!! Z.to_nat i <? used then emptiest_group fuel' ub (u32 (i + 1)) (ub !!! Z.to_nat i) i
        else emptiest_group fuel' ub (u32 (i + 1)) used gno
      else (i, gno)
  end.

(** The search of the groups from [gno] on. *)
Definition alloc_in_groups (ctx : option nat) (type gno : Z) : M (istate St) Z :=
  r ← forM (Z.to_nat (NGROUPS - gno)) gno 1 (fun g =>
        forM (Z.to_nat GINODES) 1 1 (fun ino =>
          let tino := u64 (ino + u32 (g * (NINODES / NGROUPS))) in
          assert_ (tino <=? NINODES);;
          block ← bc (bc_acquire cache (to_block_no tino));
          data ← bc (bc_data cache block);
          if ie_type (get_entry data tino) =? INODE_INVALID then
            bc (bc_store cache block (put_entry data tino (set_ie_type type zero_entry)));;
            bc (bc_sync cache ctx block);;
            bc (bc_release cache block);;
            mret (Some tino)
          else
            bc (bc_release cache block);;
            mret None));
  mret (default 0 r).

Definition inode_alloc_group (ctx : option nat) (type gno : Z) : M (istate St) Z :=
  assert_ (negb (type =? INODE_INVALID));;
  if type =? INODE_DIRECTORY then
    ub ← bc (bc_used_block cache);
    let '(i, gno) := emptiest_group (S (Z.to_nat NGROUPS)) ub 0 FSSIZE gno in
    if i =? NGROUPS then mret 0 else alloc_in_groups ctx type gno
  else alloc_in_groups ctx type gno.

(** ** Locks, counts, the table of inodes in memory *)
Definition inode_sync (ctx : option nat) (ip : nat) (do_write : bool) : M (istate St) unit :=
  i ← get_inode ip;
  block ← bc (bc_acquire cache (to_block_no (i_inode_no i)));
  data ← bc (bc_data cache block);
  (if i_valid i && do_write then
     bc (bc_store cache block (put_entry data (i_inode_no i) (i_entry i)));;
     bc (bc_sync cache ctx block)
   else if negb (i_valid i) then
     upd_inode ip (fun i => set_i_valid true (set_i_entry (get_entry data (i_inode_no i)) i))
   else mret tt);;
  bc (bc_release cache block).

Definition inode_lock (ip : nat) : M (istate St) unit :=
  i ← get_inode ip;
  assert_ (0 <? i_rc i);;
  assert_ (negb (i_lock i));;
  upd_inode ip (set_i_lock true);;
  whenM (negb (i_valid i)) (inode_sync None ip false);;
  i ← get_inode ip;
  assert_ (negb (ie_type (i_entry i) =? INODE_INVALID)).

Definition inode_unlock (ip : nat) : M (istate St) unit :=
  i ← get_inode ip;
  assert_ (i_lock i);;
  assert_ (0 <? i_rc i);;
  upd_inode ip (set_i_lock false).

Definition init_inode : Inode := mkInode false 0 0 false uninit.

(** The search of [head] for a live inode. *)
Fixpoint find_inode (objs : gmap nat Inode) (inode_no : Z) (l : list nat) : option nat :=
  match l with
  | [] => None
  | p :: l' =>
      match objs !! p with
      | Some inst => if (0 <? i_rc inst) && (i_inode_no inst =? inode_no) then Some p
                     else find_inode objs inode_no l'
      | None => find_inode objs inode_no l'
      end
  end.

Definition inode_get (inode_no : Z) : M (istate St) nat :=
  assert_ (0 <? inode_no);;
  assert_ (inode_no <=? num_inodes sblock);;
  acquire_tree_lock;;
  found ← gets (fun s => find_inode (is_objs s) inode_no (is_head s));
  ip ← match found with
       | Some p => upd_inode p (fun i => set_i_rc (i_rc i + 1) i);; mret p
       | None =>
           p ← gets is_next;
           modify (set_is_next (S p));;
           put_inode p (mkInode (i_lock init_inode) (i_rc init_inode + 1) inode_no (i_valid init_inode)
                          (i_entry init_inode));;
           modify (fun s => set_is_head (p :: is_head s) s);;
           mret p
       end;
  release_tree_lock;;
  mret ip.

(** [free(ctx, addr)] of the addresses that are not 0. *)
Definition free_addrs (ctx : option nat) (addrs : list Z) : M (istate St) unit :=
  eachM addrs (fun addr => whenM (negb (addr =? 0)) (bc (bc_free cache ctx addr))).

Definition inode_clear (ctx : option nat) (ip : nat) : M (istate St) unit :=
  i ← get_inode ip;
  free_addrs ctx (ie_addrs (i_entry i));;
  upd_entry ip (set_ie_addrs (replicate 12 0));;
  let iaddr := ie_indirect (i_entry i) in
  whenM (negb (iaddr =? 0))
    (block ← bc (bc_acquire cache iaddr);
     data ← bc (bc_data cache block);
     free_addrs ctx (get_addrs data);;
     bc (bc_release cache block);;
     bc (bc_free cache ctx iaddr);;
     upd_entry ip (set_ie_indirect 0));;
  upd_entry ip (set_ie_num_bytes 0);;
  inode_sync ctx ip true.

Definition inode_share (ip : nat) : M (istate St) nat :=
  acquire_tree_lock;;
  upd_inode ip (fun i => set_i_rc (i_rc i + 1) i);;
  release_tree_lock;;
  mret ip.

Definition inode_put (ctx : option nat) (ip : nat) : M (istate St) unit :=
  acquire_tree_lock;;
  i ← get_inode ip;
  let is_last := (i_rc i <=? 1) && (ie_num_links (i_entry i) =? 0) in
  whenM is_last
    (inode_lock ip;;
     release_tree_lock;;
     inode_clear ctx ip;;
     upd_entry ip (set_ie_type INODE_INVALID);;
     inode_sync ctx ip true;;
     inode_unlock ip;;
     acquire_tree_lock);;
  upd_inode ip (fun i => set_i_rc (i_rc i - 1) i);;
  i ← get_inode ip;
  whenM (i_rc i <=? 0)
    (modify (fun s => set_is_head (filter (fun q => q <> ip) (is_head s)) s);;
     modify (fun s => set_is_objs (delete ip (is_objs s)) s));;
  release_tree_lock.

(** ** The mapping of offsets to blocks *)

(** The group of an inode: [((u32)inode_no - 1) / (NINODES / NGROUPS)]. *)
Definition inode_group (inode_no : Z) : Z := u32 (inode_no - 1) / (NINODES / NGROUPS).

(** Group of block [index] of the indirect blocks, before looking for space. *)
Definition spill_start (index : Z) : Z := (index / NINBLOCKS_PER_GROUP + 1) mod NGROUPS.

(** [while (used_block[tgno] == sblock->num_datablocks_per_group)], with at
    most [fuel] iterations; [None] if they do not suffice. *)
Fixpoint spill_group (fuel : nat) (ub : list Z) (tgno step : Z) : option Z :=
  match fuel with
  | O => None
  | S fuel' =>
      if ub !!! Z.to_nat tgno =? num_datablocks_per_group sblock then
        let tgno := tgno + step in
        let '(tgno, step) := if NGROUPS <=? tgno then (0, 1) else (tgno, step) in
        if (step =? 1) && (NGROUPS <=? tgno) then Some tgno
        else spill_group fuel' ub tgno step
      else Some tgno
  end.
Definition spill_fuel : nat := 32.

(** [allocg] in the group, or else [alloc] anywhere. *)
Definition alloc_near (ctx : option nat) (gno : Z) : M (istate St) Z :=
  a ← bc (bc_allocg cache ctx gno);
  if u32 a =? 0 then a ← bc (bc_alloc cache ctx); mret (u32 a) else mret (u32 a).

(** Returns the block number and whether [*modified] was set. *)
Definition inode_map (ctx : option nat) (ip : nat) (offset : Z) : M (istate St) (Z * bool) :=
  i ← get_inode ip;
  let entry := i_entry i in
  let index := offset / BLOCK_SIZE in
  let gno := inode_group (i_inode_no i) in
  if index <? INODE_NUM_DIRECT then
    let a := ie_addrs entry !!! Z.to_nat index in
    if a =? 0 then
      a ← alloc_near ctx gno;
      upd_entry ip (fun e => set_ie_addrs (<[Z.to_nat index := a]> (ie_addrs e)) e);;
      mret (a, true)
    else mret (a, false)
  else
    let index := index - INODE_NUM_DIRECT in
    assert_ (index <? INODE_NUM_INDIRECT);;
    r ← (if ie_indirect entry =? 0 then
           a ← alloc_near ctx gno;
           upd_entry ip (set_ie_indirect a);;
           mret (a, true)
         else mret (ie_indirect entry, false));
    block ← bc (bc_acquire cache r.1);
    data ← bc (bc_data cache block);
    let addr := get_addrs data !!! Z.to_nat index in
    if addr =? 0 then
      ub ← bc (bc_used_block cache);
      tgno ← match spill_group spill_fuel ub (spill_start index) 2 with
             | Some g => mret g
             | None => nofuel
             end;
      a ← bc (bc_allocg cache ctx (u32 tgno));
      bc (bc_store cache block (put_addrs (<[Z.to_nat index := u32 a]> (get_addrs data))));;
      bc (bc_sync cache ctx block);;
      bc (bc_release cache block);;
      mret (u32 a, true)
    else
      bc (bc_release cache block);;
      mret (addr, r.2).

(** ** File content *)

(** The loop of [inode_read]; it runs at most once per byte. *)
Fixpoint inode_read_loop (fuel : nat) (ip : nat) (begin end_ : Z) : M (istate St) (list Z) :=
  match fuel with
  | O => nofuel
  | S fuel' =>
      if begin <? end_ then
        r ← inode_map None ip begin;
        assert_ (negb r.2);;
        block ← bc (bc_acquire cache r.1);
        data ← bc (bc_data cache block);
        let index := begin mod BLOCK_SIZE in
        let step := Z.min (end_ - begin) (BLOCK_SIZE - index) in
        bc (bc_release cache block);;
        rest ← inode_read_loop fuel' ip (begin + step) end_;
        mret (slice (Z.to_nat index) (Z.to_nat step) data ++ rest)
      else mret []
  end.

(** Returns the count and the bytes put in [dest]. *)
Definition inode_read (ip : nat) (offset count : Z) : M (istate St) (Z * list Z) :=
  i ← get_inode ip;
  let entry := i_entry i in
  if ie_type entry =? INODE_DEVICE then
    assert_ (ie_major entry =? 1);;
    r ← console_read is_con set_is_con (inode_unlock ip) (inode_lock ip) is_killed (i64 count);
    mret (u64 r.1, r.2)
  else
    let count := if ie_num_bytes entry <? u64 (count + offset) then u64 (ie_num_bytes entry - offset) else count in
    let end_ := u64 (offset + count) in
    assert_ (offset <=? ie_num_bytes entry);;
    assert_ (end_ <=? ie_num_bytes entry);;
    assert_ (offset <=? end_);;
    bytes ← inode_read_loop (S (Z.to_nat count)) ip offset end_;
    mret (count, bytes).

Fixpoint inode_write_loop (fuel : nat) (ctx : option nat) (ip : nat) (src : list Z) (begin end_ : Z)
    (modified : bool) : M (istate St) bool :=
  match fuel with
  | O => nofuel
  | S fuel' =>
      if begin <? end_ then
        r ← inode_map ctx ip begin;
        block ← bc (bc_acquire cache r.1);
        data ← bc (bc_data cache block);
        let index := begin mod BLOCK_SIZE in
        let step := Z.min (end_ - begin) (BLOCK_SIZE - index) in
        bc (bc_store cache block (splice (Z.to_nat index) (take (Z.to_nat step) src) data));;
        bc (bc_sync cache ctx block);;
        bc (bc_release cache block);;
        inode_write_loop fuel' ctx ip (drop (Z.to_nat step) src) (begin + step) end_ (modified || r.2)
      else mret modified
  end.

(** Writes the bytes [src]; [count] is their number. *)
Definition inode_write (ctx : option nat) (ip : nat) (src : list Z) (offset : Z) : M (istate St) Z :=
  i ← get_inode ip;
  let entry := i_entry i in
  let count := Z.of_nat (length src) in
  let end_ := u64 (offset + count) in
  if ie_type entry =? INODE_DEVICE then
    assert_ (ie_major entry =? 1);;
    console_write is_con set_is_con (inode_unlock ip) (inode_lock ip) src
  else
    assert_ (offset <=? ie_num_bytes entry);;
    assert_ (end_ <=? INODE_MAX_BYTES);;
    assert_ (offset <=? end_);;
    modified ← inode_write_loop (S (length src)) ctx ip src offset end_ false;
    i ← get_inode ip;
    let grow := ie_num_bytes (i_entry i) <? end_ in
    whenM grow (upd_entry ip (set_ie_num_bytes (u32 end_)));;
    whenM (modified || grow) (inode_sync ctx ip true);;
    mret count.

(** ** Directories *)

(** The loops over the entries of a directory: [dentry] is a buffer that
    [inode_read] fills; [k] is called with the offset and the entry, and says
    [Some r] to leave the loop. *)
Fixpoint dir_loop {R} (fuel : nat) (ip : nat) (offset : Z) (dentry : list Z)
    (k : Z -> DirEntry -> option R) : M (istate St) (option R * Z * list Z) :=
  match fuel with
  | O => nofuel
  | S fuel' =>
      i ← get_inode ip;
      if offset <? ie_num_bytes (i_entry i) then
        r ← inode_read ip offset sizeof_DirEntry;
        let dentry := splice 0 r.2 dentry in
        match k offset (decode_DirEntry dentry) with
        | Some v => mret (Some v, offset, dentry)
        | None => dir_loop fuel' ip (u64 (offset + sizeof_DirEntry)) dentry k
        end
      else mret (None, offset, dentry)
  end.

(** One iteration per entry of a directory of at most [2 ^ 32] bytes. *)
Definition dir_fuel (e : InodeEntry) : nat := S (Z.to_nat (ie_num_bytes e / sizeof_DirEntry + 1)).

(** An uninitialised [DirEntry]. *)
Definition new_dentry : list Z := replicate 16 0.

(** The inode number found, and the index when it is not 0. *)
Definition inode_lookup (ip : nat) (name : list Z) : M (istate St) (Z * Z) :=
  i ← get_inode ip;
  assert_ (ie_type (i_entry i) =? INODE_DIRECTORY);;
  r ← dir_loop (dir_fuel (i_entry i)) ip 0 new_dentry (fun offset dentry =>
        if negb (de_inode_no dentry =? 0) && (strncmp name (de_name dentry) 14 =? 0)
        then Some (de_inode_no dentry, offset / sizeof_DirEntry) else None);
  mret (default (0, 0) r.1.1).

(** Whether a directory has no entries after the first two. *)
Fixpoint empty_loop (fuel : nat) (ip : nat) (offset : Z) (dentry : list Z) : M (istate St) bool :=
  match fuel with
  | O => nofuel
  | S fuel' =>
      i ← get_inode ip;
      if offset <? ie_num_bytes (i_entry i) then
        r ← inode_read ip offset sizeof_DirEntry;
        assert_ (r.1 =? sizeof_DirEntry);;
        let dentry := splice 0 r.2 dentry in
        if negb (de_inode_no (decode_DirEntry dentry) =? 0) then mret false
        else empty_loop fuel' ip (u64 (offset + sizeof_DirEntry)) dentry
      else mret true
  end.

Definition inode_empty (ip : nat) : M (istate St) bool :=
  i ← get_inode ip;
  assert_ (ie_type (i_entry i) =? INODE_DIRECTORY);;
  empty_loop (dir_fuel (i_entry i)) ip (2 * sizeof_DirEntry) new_dentry.

Definition inode_insert (ctx : option nat) (ip : nat) (name : list Z) (inode_no : Z) : M (istate St) Z :=
  i ← get_inode ip;
  assert_ (ie_type (i_entry i) =? INODE_DIRECTORY);;
  r ← dir_loop (dir_fuel (i_entry i)) ip 0 new_dentry (fun _ dentry =>
        if de_inode_no dentry =? 0 then Some tt else None);
  let '(_, offset, dentry) := r in
  let new := le_bytes 2 (u16 inode_no) ++ strncpy (drop 2 dentry) name 14 in
  inode_write ctx ip new offset;;
  mret (offset / sizeof_DirEntry).

Definition inode_remove (ctx : option nat) (ip : nat) (index : Z) : M (istate St) unit :=
  i ← get_inode ip;
  assert_ (ie_type (i_entry i) =? INODE_DIRECTORY);;
  let offset := u64 (index * sizeof_DirEntry) in
  if ie_num_bytes (i_entry i) <=? offset then mret tt
  else inode_write ctx ip (replicate 16 0) offset;; mret tt.

End inode.

(** ** Paths *)

(** [while ( *path == '/') path++], and the scan of one element. *)
Fixpoint skip_slashes (path : list Z) : list Z :=
  match path with
  | c :: path' => if c =? 47 then skip_slashes path' else path
  | [] => []
  end.
Fixpoint scan_elem (path : list Z) : list Z * list Z :=
  match path with
  | c :: path' =>
      if (c =? 47) || (c =? 0) then ([], path)
      else let '(e, rest) := scan_elem path' in (c :: e, rest)
  | [] => ([], [])
  end.

(** [skipelem(path, name)]: [None] for the null pointer, else the new path and
    the new content of the buffer [name]. The end of the list is the NUL. *)
Definition skipelem (path name : list Z) : option (list Z * list Z) :=
  let path := skip_slashes path in
  if byte_at path 0 =? 0 then None
  else
    let '(s, path) := scan_elem path in
    let len := Z.of_nat (length s) in
    let name := if FILE_NAME_MAX_LENGTH <=? len
                then splice 0 (take 14 s) name
                else <[length s := 0]> (splice 0 s name) in
    Some (skip_slashes path, name).

Section path.
Context {St : Type} (sblock : SuperBlock) (cache : BlockCache St) (uninit : InodeEntry).

(** The loop of [namex]: at most one iteration per character of the path.
    Returns the inode (0 is [None]) and [name]. *)
Fixpoint namex_loop (fuel : nat) (path : list Z) (parent : bool) (name : list Z) (ctx : nat) (ip : nat)
    : M (istate St) (option nat * list Z) :=
  match fuel with
  | O => nofuel
  | S fuel' =>
      match skipelem path name with
      | None =>
          if parent then
            bc (bc_begin_op cache ctx);;
            inode_put sblock cache (Some ctx) ip;;
            bc (bc_end_op cache ctx);;
            mret (None, name)
          else mret (Some ip, name)
      | Some (path, name) =>
          inode_lock sblock cache ip;;
          i ← get_inode ip;
          if negb (ie_type (i_entry i) =? INODE_DIRECTORY) then
            inode_unlock ip;;
            bc (bc_begin_op cache ctx);;
            inode_put sblock cache (Some ctx) ip;;
            bc (bc_end_op cache ctx);;
            mret (None, name)
          else if parent && (byte_at path 0 =? 0) then
            inode_unlock ip;;
            mret (Some ip, name)
          else if (byte_at path 0 =? 46) && (byte_at path 1 =? 0) then
            inode_unlock ip;;
            mret (Some ip, name)
          else
            r ← inode_lookup sblock cache ip name;
            if r.1 =? 0 then
              inode_unlock ip;;
              inode_put sblock cache (Some ctx) ip;;
              mret (None, name)
            else
              r ← inode_lookup sblock cache ip name;
              next ← inode_get sblock uninit r.1;
              inode_unlock ip;;
              inode_put sblock cache (Some ctx) ip;;
              namex_loop fuel' path parent name ctx next
      end
  end.

Definition namex (path : list Z) (parent : bool) (name : list Z) (ctx : nat)
    : M (istate St) (option nat * list Z) :=
  ip ← (if byte_at path 0 =? 47 then inode_get sblock uninit 1
        else cwd ← gets is_cwd; inode_share cwd);
  namex_loop (S (length path)) path parent name ctx ip.

Definition namei (path : list Z) (ctx : nat) : M (istate St) (option nat) :=
  r ← namex path false (replicate 14 0) ctx; mret r.1.

Definition nameiparent (path name : list Z) (ctx : nat) : M (istate St) (option nat * list Z) :=
  namex path true name ctx.

(** [stati]: device, inode number, links, size, and the mode by type. *)
Record stat : Type := mkStat { st_dev : Z; st_ino : Z; st_nlink : Z; st_size : Z; st_mode : Z }.
Definition S_IFREG : Z := 32768.
Definition S_IFDIR : Z := 16384.

Definition stati (ip : nat) : M (istate St) stat :=
  i ← get_inode ip;
  let e := i_entry i in
  mode ← (if ie_type e =? INODE_REGULAR then mret S_IFREG
          else if ie_type e =? INODE_DIRECTORY then mret S_IFDIR
          else if ie_type e =? INODE_DEVICE then mret 0
          else panic);
  mret (mkStat 1 (i_inode_no i) (ie_num_links e) (ie_num_bytes e) mode).

(** [init_inodes]: the list and the lock are reset, the root inode is loaded. *)
Definition init_inodes : M (istate St) (option nat) :=
  modify (fun s => mkIstate (is_cache s) (is_objs s) (is_next s) [] false (is_con s) (is_cwd s) (is_killed s));;
  if ROOT_INODE_NO <? num_inodes sblock then
    root ← inode_get sblock uninit ROOT_INODE_NO;
    mret (Some root)
  else mret None.

End path.
End Inode.
