(* ===== verification/InodeFacts.v ===== *)
(** * Inode numbers, groups, paths, and the table of inodes in memory

    Facts about Inode.v that do not involve file content. *)
From S2P Require Import Prelude FsDefines CString Console BlockIface Inode.

Module InodeFacts.
Import CString Console Inode.

(** ** Inode slots *)

(** The inode area of a group lies within the group. *)
Record inode_geometry (sb : SuperBlock) : Prop := {
  ig_gi : 0 < GINODES sb;
  ig_area : (GINODES sb + 7) / 8 <= blocks_per_group sb;
  ig_max : bg_start sb + blocks_per_group sb * (num_inodes sb / GINODES sb + 1) < 2 ^ 64;
  ig_bg : 0 <= bg_start sb;
  ig_n : num_inodes sb < 2 ^ 64
}.

Lemma inode_block_fits sb r :
  inode_geometry sb -> 0 <= r < GINODES sb -> 0 <= r / 8 < blocks_per_group sb.
Proof.
  intros [? ? ? ? ?] Hr. split; [apply Z.div_pos; lia|].
  eapply Z.lt_le_trans; [|eassumption]. apply Z.div_lt_upper_bound; [lia|].
  pose proof (Z.mul_div_le (GINODES sb + 7) 8). pose proof (Z.mod_pos_bound (GINODES sb + 7) 8).
  pose proof (Z.div_mod (GINODES sb + 7) 8). lia.
Qed.

Lemma to_block_no_eq sb ino :
  inode_geometry sb -> 1 <= ino <= num_inodes sb ->
  to_block_no sb ino = bg_start sb + blocks_per_group sb * ((ino - 1) / GINODES sb) +
                       ((ino - 1) mod GINODES sb) / 8.
Proof.
  intros Hg Hi. pose proof Hg as [Hgi ? Hmax ? ?]. unfold to_block_no.
  change INODE_PER_BLOCK with 8.
  rewrite (u64_id (ino - 1)) by lia.
  pose proof (Z.mod_pos_bound (ino - 1) (GINODES sb) Hgi) as Hm.
  pose proof (inode_block_fits sb _ Hg Hm) as Hf.
  assert (0 <= (ino - 1) / GINODES sb <= num_inodes sb / GINODES sb).
  { split; [apply Z.div_pos; lia|]. apply Z.div_le_mono; lia. }
  apply u64_id. split; nia.
Qed.

Lemma entry_off_bound ino : (entry_off ino + 64 <= 512)%nat.
Proof. unfold entry_off. pose proof (Z.mod_pos_bound ino INODE_PER_BLOCK). unfold INODE_PER_BLOCK, sizeof_InodeEntry in *.
  change (BLOCK_SIZE / 64) with 8 in *. lia. Qed.

Lemma get_put_entry data ino e :
  InodeEntry_wf e -> length data = bsize -> get_entry (put_entry data ino e) ino = e.
Proof.
  intros He Hl. unfold get_entry, put_entry. pose proof (entry_off_bound ino). unfold bsize in Hl.
  assert (length (encode_InodeEntry e) = 64%nat) as He' by (apply length_encode_InodeEntry, He).
  rewrite <- He' at 1. rewrite slice_splice_eq by lia. by apply decode_encode_InodeEntry.
Qed.

Lemma get_put_entry_ne data a b e :
  InodeEntry_wf e -> length data = bsize -> a mod 8 <> b mod 8 ->
  get_entry (put_entry data a e) b = get_entry data b.
Proof.
  intros He Hl Hab. unfold get_entry, put_entry. pose proof (entry_off_bound a). unfold bsize in Hl.
  assert (length (encode_InodeEntry e) = 64%nat) as He' by (apply length_encode_InodeEntry, He).
  rewrite slice_splice_ne; [done|lia|]. rewrite He'. unfold entry_off, INODE_PER_BLOCK, sizeof_InodeEntry.
  change (BLOCK_SIZE / 64) with 8. pose proof (Z.mod_pos_bound a 8). pose proof (Z.mod_pos_bound b 8). lia.
Qed.

(** Inodes that share a block have different slots of it. *)
Lemma same_block_slots sb a b :
  inode_geometry sb -> 1 <= a <= num_inodes sb -> 1 <= b <= num_inodes sb -> a <> b ->
  to_block_no sb a = to_block_no sb b -> a mod 8 <> b mod 8.
Proof.
  intros Hg Ha Hb Hne. rewrite !to_block_no_eq by done.
  pose proof Hg as [Hgi ? ? ? ?].
  pose proof (Z.mod_pos_bound (a - 1) (GINODES sb) Hgi) as Hma.
  pose proof (Z.mod_pos_bound (b - 1) (GINODES sb) Hgi) as Hmb.
  pose proof (inode_block_fits sb _ Hg Hma). pose proof (inode_block_fits sb _ Hg Hmb).
  pose proof (Z.div_mod (a - 1) (GINODES sb)) as Da. pose proof (Z.div_mod (b - 1) (GINODES sb)) as Db.
  set (qa := (a - 1) / GINODES sb) in *. set (ra := (a - 1) mod GINODES sb) in *.
  set (qb := (b - 1) / GINODES sb) in *. set (rb := (b - 1) mod GINODES sb) in *.
  set (G := GINODES sb) in *. set (W := blocks_per_group sb) in *.
  intros Heq. assert (qa = qb) as Hq by nia. rewrite Hq in *.
  assert (ra / 8 = rb / 8) by lia. Z.to_euclidean_division_equations. lia.
Qed.

(** Writing the on-disk entry of one inode leaves the entries of all the
    inodes that share its block as they were, and reading it back gives what
    was written: [to_block_no] and [get_entry] give every inode a slot of its
    own, within its group. *)
Theorem inode_slots_disjoint sb data a b e :
  inode_geometry sb -> 1 <= a <= num_inodes sb -> 1 <= b <= num_inodes sb ->
  InodeEntry_wf e -> length data = bsize ->
  to_block_no sb a = to_block_no sb b ->
  get_entry (put_entry data a e) b = (if a =? b then e else get_entry data b) /\
  bg_start sb + blocks_per_group sb * ((a - 1) / GINODES sb) <= to_block_no sb a <
    bg_start sb + blocks_per_group sb * ((a - 1) / GINODES sb + 1).
Proof.
  intros Hg Ha Hb He Hl Hab. split.
  - destruct (Z.eqb_spec a b) as [->|Hne]; [by apply get_put_entry|].
    apply get_put_entry_ne; try done. by apply (same_block_slots sb).
  - rewrite to_block_no_eq by done.
    pose proof (inode_block_fits sb _ Hg (Z.mod_pos_bound (a - 1) (GINODES sb) (ig_gi _ Hg))). nia.
Qed.

(** The super block that mkfs writes for the parameters of defines.h. *)
Definition mkfs_sb : SuperBlock := mkSuperBlock 10065 63 10 200 1000 2 65 3 1 996 3 4.

Lemma inode_slots_disjoint_witness :
  get_entry (put_entry zero_block 9 (set_ie_type 2 zero_entry)) 16 = zero_entry /\
  65 <= to_block_no mkfs_sb 9 < 1065.
Proof.
  apply (inode_slots_disjoint mkfs_sb zero_block 9 16 (set_ie_type 2 zero_entry)); try done.
  apply (bool_decide_unpack (InodeEntry_wf (set_ie_type 2 zero_entry))). vm_compute. exact I.
Defined.

(** ** The spill of large files over the groups *)

(** One turn of the search, for the counters of the ten groups. *)
Lemma spill_full sb ub fuel tgno step :
  (forall g, 0 <= g < NGROUPS -> ub !!! Z.to_nat g = num_datablocks_per_group sb) ->
  0 <= tgno < NGROUPS -> 0 < step -> spill_group sb fuel ub tgno step = None.
Proof.
  intros Hall. revert tgno step. induction fuel as [|fuel IH]; intros tgno step Ht Hs; [done|].
  simpl. rewrite Hall, Z.eqb_refl by done.
  destruct (Z.leb_spec NGROUPS (tgno + step)) as [Hge|Hlt].
  - change ((1 =? 1) && (NGROUPS <=? 0)) with false. apply IH; unfold NGROUPS in *; lia.
  - rewrite (proj2 (Z.leb_gt _ _)) by done. rewrite andb_false_r. apply IH; lia.
Qed.

Lemma spill_result sb ub fuel tgno step g :
  spill_group sb fuel ub tgno step = Some g -> 0 <= tgno < NGROUPS -> 0 < step ->
  0 <= g < NGROUPS /\ ub !!! Z.to_nat g <> num_datablocks_per_group sb.
Proof.
  revert tgno step. induction fuel as [|fuel IH]; intros tgno step H Ht Hs; [done|]. simpl in H.
  destruct (Z.eqb_spec (ub !!! Z.to_nat tgno) (num_datablocks_per_group sb)) as [E|E].
  - destruct (Z.leb_spec NGROUPS (tgno + step)) as [Hge|Hlt].
    + change ((1 =? 1) && (NGROUPS <=? 0)) with false in H. apply IH in H; unfold NGROUPS in *; [done|lia|lia].
    + rewrite (proj2 (Z.leb_gt _ _)), andb_false_r in H by done. apply IH in H; [done|lia|lia].
  - by injection H as <-.
Qed.

(** With step 1 every group is reached within one round. *)
Lemma spill_step1 sb ub fuel tgno g :
  0 <= tgno < NGROUPS -> tgno <= g < NGROUPS -> ub !!! Z.to_nat g <> num_datablocks_per_group sb ->
  (Z.to_nat (g - tgno) < fuel)%nat -> spill_group sb fuel ub tgno 1 <> None.
Proof.
  revert tgno. induction fuel as [|fuel IH]; intros tgno Ht Hg Hne Hf; [lia|]. simpl.
  destruct (Z.eqb_spec (ub !!! Z.to_nat tgno) (num_datablocks_per_group sb)) as [E|E]; [|done].
  assert (tgno <> g) by (intros ->; done).
  rewrite (proj2 (Z.leb_gt NGROUPS (tgno + 1))) by lia. simpl.
  rewrite (proj2 (Z.leb_gt NGROUPS (tgno + 1))) by lia. apply IH; try done; lia.
Qed.

Lemma spill_wrap sb ub fuel tgno step g :
  0 <= tgno < NGROUPS -> 0 < step -> 0 <= g < NGROUPS ->
  ub !!! Z.to_nat g <> num_datablocks_per_group sb ->
  (Z.to_nat (NGROUPS - tgno) + Z.to_nat NGROUPS < fuel)%nat ->
  spill_group sb fuel ub tgno step <> None.
Proof.
  revert tgno. induction fuel as [|fuel IH]; intros tgno Ht Hs Hg Hne Hf; [lia|]. simpl.
  destruct (Z.eqb_spec (ub !!! Z.to_nat tgno) (num_datablocks_per_group sb)) as [E|E]; [|done].
  destruct (Z.leb_spec NGROUPS (tgno + step)) as [Hge|Hlt].
  - change ((1 =? 1) && (NGROUPS <=? 0)) with false. apply (spill_step1 _ _ _ _ g); try done; lia.
  - rewrite (proj2 (Z.leb_gt NGROUPS (tgno + step))), andb_false_r by done. apply IH; try done; lia.
Qed.

Lemma spill_start_range index : 0 <= spill_start index < NGROUPS.
Proof. unfold spill_start. by apply Z.mod_pos_bound. Qed.

(** The test of the loop on the counter of a group. *)
Definition group_full (sb : SuperBlock) (ub : list Z) (g : Z) : Prop :=
  ub !!! Z.to_nat g = num_datablocks_per_group sb.

(** C14: the loop of [inode_map] that looks for a group for a spilled block ends
    within [spill_fuel] turns exactly when some group is not full, and then in
    a group that is not full; when all groups are full it never ends. *)
Theorem spill_terminates_iff sb ub index :
  ((exists g, 0 <= g < NGROUPS /\ ~ group_full sb ub g) ->
   exists g, spill_group sb spill_fuel ub (spill_start index) 2 = Some g /\ 0 <= g < NGROUPS /\ ~ group_full sb ub g) /\
  ((forall g, 0 <= g < NGROUPS -> group_full sb ub g) ->
   forall fuel, spill_group sb fuel ub (spill_start index) 2 = None).
Proof.
  unfold group_full. pose proof (spill_start_range index) as Hr. split.
  - intros (g & Hg & Hne). destruct (spill_group sb spill_fuel ub (spill_start index) 2) as [g'|] eqn:E.
    + exists g'. apply spill_result in E; [done|done|lia].
    + exfalso. revert E. apply (spill_wrap _ _ _ _ _ g); try done.
      unfold spill_fuel, NGROUPS in *. lia.
  - intros Hall fuel. by apply spill_full.
Qed.

(** ** Paths *)
Definition is_slash (c : Z) : bool := c =? 47.
Definition elem_char (c : Z) : Prop := c <> 47 /\ c <> 0.

Lemma skip_slashes_app n p : skip_slashes (replicate n 47 ++ p) = skip_slashes p.
Proof. induction n as [|n IH]; [done|]. simpl. done. Qed.

Lemma scan_elem_app e p :
  Forall elem_char e -> match p with c :: _ => c = 47 \/ c = 0 | [] => True end ->
  scan_elem (e ++ p) = (e, p).
Proof.
  intros He Hp. induction He as [|c e [Hc1 Hc2] _ IH].
  - destruct p as [|c p]; [done|]. simpl. destruct Hp as [->| ->]; done.
  - simpl. rewrite (proj2 (Z.eqb_neq c 47)), (proj2 (Z.eqb_neq c 0)) by done. simpl. by rewrite IH.
Qed.

Lemma skip_slashes_idem p : skip_slashes (skip_slashes p) = skip_slashes p.
Proof.
  induction p as [|c p IH]; [done|]. simpl. destruct (Z.eqb_spec c 47) as [->|Hc]; [done|].
  simpl. by rewrite (proj2 (Z.eqb_neq c 47)).
Qed.

(** A path as its elements, each with the number of extra slashes before it,
    and the number of slashes at its end. *)
Fixpoint render (l : list (nat * list Z)) (n : nat) : list Z :=
  match l with
  | [] => replicate n 47
  | (k, e) :: l' => replicate (S k) 47 ++ e ++ render l' n
  end.

(** The elements that the loop of [namex] visits, as the names it compares. *)
Fixpoint walk (fuel : nat) (path name : list Z) : list (list Z) :=
  match fuel with
  | O => []
  | S fuel' =>
      match skipelem path name with
      | None => []
      | Some (path', name') => take 14 (cstr name') :: walk fuel' path' name'
      end
  end.

Lemma render_head l n :
  match render l n with c :: _ => c = 47 \/ c = 0 | [] => True end.
Proof. destruct l as [|[k e] l]; simpl; [destruct n; simpl; auto|auto]. Qed.

Lemma skip_render_cons k e l n :
  Forall elem_char e -> e <> [] -> skip_slashes (render ((k, e) :: l) n) = e ++ render l n.
Proof.
  intros He Hne. simpl render. change (47 :: replicate k 47) with (replicate (S k) 47).
  change (skip_slashes (replicate (S k) 47 ++ e ++ render l n) = e ++ render l n).
  rewrite skip_slashes_app. destruct He as [|c e [Hc _] He]; [done|].
  simpl. by rewrite (proj2 (Z.eqb_neq c 47)).
Qed.

Lemma cstr_elem e r : Forall elem_char e -> cstr (e ++ r) = e ++ cstr r.
Proof. intros He. apply cstr_app_nonzero. eapply Forall_impl; [exact He|]. by intros c [_ ?]. Qed.

(** The name buffer after an element: its first 14 characters. *)
Lemma elem_name e name :
  Forall elem_char e -> length name = 14%nat ->
  let name' := if FILE_NAME_MAX_LENGTH <=? Z.of_nat (length e)
               then splice 0 (take 14 e) name else <[length e := 0]> (splice 0 e name) in
  length name' = 14%nat /\ take 14 (cstr name') = take 14 e.
Proof.
  intros He Hl. unfold FILE_NAME_MAX_LENGTH. destruct (Z.leb_spec 14 (Z.of_nat (length e))) as [H|H]; simpl.
  - assert (splice 0 (take 14 e) name = take 14 e) as ->.
    { unfold splice. rewrite take_0, drop_ge by (rewrite length_take; lia). by rewrite app_nil_r. }
    split; [rewrite length_take; lia|]. rewrite <- (app_nil_r (take 14 e)), cstr_elem by (by apply Forall_take).
    rewrite take_app_le by (rewrite length_take; lia). by rewrite take_take, app_nil_r.
  - split; [rewrite length_insert, length_splice; lia|].
    assert (<[length e := 0]> (splice 0 e name) = e ++ 0 :: drop (S (length e)) name) as ->.
    { unfold splice. simpl. rewrite insert_app_r_alt, Nat.sub_diag by lia. f_equal.
      destruct (lookup_lt_is_Some_2 name (length e)) as [x Hx]; [lia|].
      by rewrite (drop_S name x (length e)). }
    rewrite cstr_elem by done. simpl. by rewrite app_nil_r.
Qed.

Lemma skipelem_render p name k e l n :
  Forall elem_char e -> e <> [] -> length name = 14%nat -> skip_slashes p = skip_slashes (render ((k, e) :: l) n) ->
  exists name', skipelem p name = Some (skip_slashes (render l n), name') /\
    length name' = 14%nat /\ take 14 (cstr name') = take 14 e.
Proof.
  intros He Hne Hl Hp. rewrite skip_render_cons in Hp by done. unfold skipelem. rewrite Hp.
  pose proof (scan_elem_app e (render l n) He (render_head l n)) as Hs.
  destruct (elem_name e name He Hl) as [Hl' Hn'].
  assert ((byte_at (e ++ render l n) 0 =? 0) = false) as ->.
  { destruct He as [|c e [_ Hc] He]; [done|]. apply Z.eqb_neq. exact Hc. }
  rewrite Hs. eexists. split; [reflexivity|]. by split.
Qed.

Lemma skipelem_render_nil p name n :
  skip_slashes p = skip_slashes (render [] n) -> skipelem p name = None.
Proof.
  simpl. rewrite <- (app_nil_r (replicate n 47)), skip_slashes_app. simpl. intros Hp. unfold skipelem. by rewrite Hp.
Qed.

(** Whatever the slashes between them, before them and after them,
    [skipelem] visits the elements of a path in order, each cut to its first
    14 characters, and then says that there are no more. *)
Theorem skipelem_walks l n name :
  Forall (fun ke => Forall elem_char ke.2 /\ ke.2 <> []) l -> length name = 14%nat ->
  walk (S (length l)) (render l n) name = (fun ke => take 14 ke.2) <$> l /\
  (forall p', skip_slashes p' = skip_slashes (render l n) -> walk (S (length l)) p' name = walk (S (length l)) (render l n) name).
Proof.
  intros Hl Hn.
  assert (forall p, skip_slashes p = skip_slashes (render l n) ->
            walk (S (length l)) p name = (fun ke => take 14 ke.2) <$> l) as H.
  { revert name Hn. induction Hl as [|[k e] l [He Hne] Hl IH]; intros name Hn p Hp.
    - simpl. by rewrite (skipelem_render_nil p name n).
    - destruct (skipelem_render p name k e l n He Hne Hn Hp) as (name' & Hsk & Hl' & Hc).
      cbn [length]. change (walk (S (S (length l))) p name) with
        (match skipelem p name with None => [] | Some (path', name') => take 14 (cstr name') :: walk (S (length l)) path' name' end).
      rewrite Hsk, Hc, fmap_cons. f_equal. apply (IH name' Hl'). apply skip_slashes_idem. }
  split; [by apply H|]. intros p' Hp'. rewrite (H p' Hp'). symmetry. by apply H.
Qed.

Lemma skipelem_walks_witness :
  walk 3 [47; 47; 97; 98; 47; 99; 47] (replicate 14 7) = [[97; 98]; [99]] /\
  (forall p', skip_slashes p' = [97; 98; 47; 99; 47] -> walk 3 p' (replicate 14 7) = [[97; 98]; [99]]).
Proof.
  apply (skipelem_walks [(1%nat, [97; 98]); (0%nat, [99])] 1 (replicate 14 7)); [|done].
  repeat constructor; done.
Defined.

(** ** The table of inodes in memory *)
Section table.
Context {St : Type} (sb : SuperBlock) (uninit : InodeEntry).
Implicit Types s : istate St.

(** Every object is on the list once, is referenced, and no two of them have
    the same inode number. *)
Record itable_ok s : Prop := {
  it_head : forall p, p ∈ is_head s <-> is_Some (is_objs s !! p);
  it_nodup : NoDup (is_head s);
  it_next : forall p, is_Some (is_objs s !! p) -> (p < is_next s)%nat;
  it_rc : forall p i, is_objs s !! p = Some i -> 0 < i_rc i;
  it_inj : forall p q i j, is_objs s !! p = Some i -> is_objs s !! q = Some j -> i_inode_no i = i_inode_no j -> p = q;
  it_lock : is_lock s = false
}.

Lemma find_inode_Some objs ino l p :
  find_inode objs ino l = Some p -> exists i, p ∈ l /\ objs !! p = Some i /\ i_inode_no i = ino /\ 0 < i_rc i.
Proof.
  induction l as [|q l IH]; simpl; [done|]. destruct (objs !! q) as [i|] eqn:E.
  - destruct ((0 <? i_rc i) && (i_inode_no i =? ino)) eqn:Eb.
    + intros [= <-]. apply andb_true_iff in Eb as [H1%Z.ltb_lt H2%Z.eqb_eq]. exists i. split_and!; [by left|done|done|done].
    + intros (j & ? & ?)%IH. exists j. split; [by right|done].
  - intros (j & ? & ?)%IH. exists j. split; [by right|done].
Qed.

Lemma find_inode_None objs ino l p i :
  find_inode objs ino l = None -> p ∈ l -> objs !! p = Some i -> 0 < i_rc i -> i_inode_no i <> ino.
Proof.
  induction l as [|q l IH]; simpl; [by intros _ ?%not_elem_of_nil|]. intros H Hp Hi Hrc.
  apply elem_of_cons in Hp as [->|Hp].
  - rewrite Hi in H. rewrite (proj2 (Z.ltb_lt 0 _) Hrc) in H. simpl in H.
    by destruct (Z.eqb_spec (i_inode_no i) ino).
  - apply IH; try done. by destruct (objs !! q) as [j|]; [destruct (_ && _)|].
Qed.

Lemma find_inode_ok s ino p i :
  itable_ok s -> is_objs s !! p = Some i -> i_inode_no i = ino -> find_inode (is_objs s) ino (is_head s) = Some p.
Proof.
  intros Hs Hp Hi. destruct (find_inode (is_objs s) ino (is_head s)) as [q|] eqn:E.
  - apply find_inode_Some in E as (j & _ & Hq & Hj & _). f_equal. apply (it_inj s Hs q p j i); congruence.
  - exfalso. eapply (find_inode_None _ _ _ p i E); [by apply it_head|done|by eapply it_rc|done].
Qed.

(** Changing one object, but not its number. *)
Definition upd_object (p : nat) (i : Inode) (s : istate St) : istate St := set_is_objs (<[p := i]> (is_objs s)) s.

Lemma itable_ok_upd s p i i' :
  itable_ok s -> is_objs s !! p = Some i -> i_inode_no i' = i_inode_no i -> 0 < i_rc i' -> itable_ok (upd_object p i' s).
Proof.
  intros [] Hp Hno Hn. split; simpl; try done.
  - intros q. rewrite it_head0. destruct (decide (q = p)) as [->|Hqp].
    + rewrite lookup_insert_eq, Hp. split; by eexists.
    + by rewrite lookup_insert_ne.
  - intros q Hq. destruct (decide (q = p)) as [->|Hqp]; [apply it_next0; by eexists|].
    rewrite lookup_insert_ne in Hq by done. by apply it_next0.
  - intros q j Hq. destruct (decide (q = p)) as [->|Hqp].
    + rewrite lookup_insert_eq in Hq. by injection Hq as <-.
    + rewrite lookup_insert_ne in Hq by done. by eapply it_rc0.
  - assert (forall q j, <[p := i']> (is_objs s) !! q = Some j ->
      exists j', is_objs s !! q = Some j' /\ i_inode_no j' = i_inode_no j) as Hlk.
    { intros q j Hq. destruct (decide (q = p)) as [->|Hqp].
      - rewrite lookup_insert_eq in Hq. injection Hq as <-. by exists i.
      - rewrite lookup_insert_ne in Hq by done. by exists j. }
    intros q r j k (j' & Hj' & <-)%Hlk (k' & Hk' & <-)%Hlk Heq. by apply (it_inj0 q r j' k').
Qed.

Lemma itable_ok_rc s p i n :
  itable_ok s -> is_objs s !! p = Some i -> 0 < n -> itable_ok (upd_object p (set_i_rc n i) s).
Proof. intros Hs Hp Hn. by apply (itable_ok_upd s p i). Qed.

(** Dropping one reference to the object [i] at [p]. *)
Definition drop_ref (p : nat) (i : Inode) (s : istate St) : istate St :=
  let s1 := upd_object p (set_i_rc (i_rc i - 1) i) s in
  if i_rc i =? 1 then set_is_objs (delete p (is_objs s1)) (set_is_head (filter (fun q => q <> p) (is_head s)) s1) else s1.

Lemma itable_ok_drop s p i : itable_ok s -> is_objs s !! p = Some i -> itable_ok (drop_ref p i s).
Proof.
  intros Hs Hp. pose proof (it_rc s Hs p i Hp) as Hrc. unfold drop_ref.
  destruct (Z.eqb_spec (i_rc i) 1) as [H1|H1]; [|apply itable_ok_rc; [done|done|lia]].
  assert (forall q j, delete p (<[p:=set_i_rc (i_rc i - 1) i]> (is_objs s)) !! q = Some j -> q <> p /\ is_objs s !! q = Some j) as Hlk.
  { intros q j Hq. destruct (decide (q = p)) as [->|Hqp]; [by rewrite lookup_delete_eq in Hq|].
    by rewrite lookup_delete_ne, lookup_insert_ne in Hq. }
  destruct Hs. split; simpl; try done.
  - intros q. rewrite list_elem_of_filter, it_head0. destruct (decide (q = p)) as [->|Hqp].
    + rewrite lookup_delete_eq. split; [by intros [? _]|by intros [? ?]].
    + rewrite lookup_delete_ne, lookup_insert_ne by done. tauto.
  - by apply NoDup_filter.
  - intros q [j [_ Hq]%Hlk]. apply it_next0. by exists j.
  - intros q j [_ Hq]%Hlk. eauto.
  - intros q r j k [_ Hq]%Hlk [_ Hr]%Hlk. eauto.
Qed.
End table.

(** References to an inode number held in memory. *)
Definition refs {St} (s : istate St) (ino : Z) : Z :=
  match find_inode (is_objs s) ino (is_head s) with
  | Some p => match is_objs s !! p with Some i => i_rc i | None => 0 end
  | None => 0
  end.

(** [inode_get] once it has the lock. *)
Definition get_locked {St} (uninit : InodeEntry) (ino : Z) : M (istate St) nat :=
  found ← gets (fun s => find_inode (is_objs s) ino (is_head s));
  ip ← match found with
       | Some p => upd_inode p (fun i => set_i_rc (i_rc i + 1) i);; mret p
       | None =>
           p ← gets is_next;
           modify (set_is_next (S p));;
           put_inode p (mkInode false 1 ino false uninit);;
           modify (fun s => set_is_head (p :: is_head s) s);;
           mret p
       end;
  release_tree_lock;; mret ip.

Lemma inode_get_eq {St} sb uninit ino (s : istate St) :
  is_lock s = false -> 1 <= ino <= num_inodes sb ->
  inode_get sb uninit ino s = get_locked uninit ino (set_is_lock true s).
Proof.
  intros Hl Hino. unfold inode_get, assert_, acquire_tree_lock.
  rewrite (proj2 (Z.ltb_lt 0 ino)), (proj2 (Z.leb_le ino _)) by lia.
  unfold mbind at 1 2 3, M_bind; simpl. unfold mbind at 1 2, M_bind; simpl. by rewrite Hl.
Qed.

(** The number is in the table. *)
Lemma inode_get_found {St} sb uninit ino (s : istate St) p i :
  is_lock s = false -> 1 <= ino <= num_inodes sb ->
  find_inode (is_objs s) ino (is_head s) = Some p -> is_objs s !! p = Some i ->
  inode_get sb uninit ino s = Ok (p, set_is_objs (<[p := set_i_rc (i_rc i + 1) i]> (is_objs s)) s).
Proof.
  intros Hl Hino Hf Hp. rewrite inode_get_eq by done.
  unfold get_locked, mbind, M_bind, gets, upd_inode, get_inode, put_inode, release_tree_lock, mbind, M_bind. simpl.
  rewrite Hf. simpl. rewrite Hp. simpl. by destruct s; simpl in *; subst.
Qed.

(** The number is not in the table. *)
Definition new_inode (uninit : InodeEntry) (ino : Z) : Inode := mkInode false 1 ino false uninit.
Definition add_inode {St} (uninit : InodeEntry) (ino : Z) (s : istate St) : istate St :=
  set_is_head (is_next s :: is_head s)
    (set_is_objs (<[is_next s := new_inode uninit ino]> (is_objs s)) (set_is_next (S (is_next s)) s)).

Lemma inode_get_fresh {St} sb uninit ino (s : istate St) :
  is_lock s = false -> 1 <= ino <= num_inodes sb -> find_inode (is_objs s) ino (is_head s) = None ->
  inode_get sb uninit ino s = Ok (is_next s, add_inode uninit ino s).
Proof.
  intros Hl Hino Hf. rewrite inode_get_eq by done.
  unfold get_locked, mbind, M_bind, gets, modify, put_inode, release_tree_lock, mbind, M_bind. simpl.
  rewrite Hf. simpl. by destruct s; simpl in *; subst.
Qed.

Lemma itable_ok_add {St} uninit ino (s : istate St) :
  itable_ok s -> find_inode (is_objs s) ino (is_head s) = None -> itable_ok (add_inode uninit ino s).
Proof.
  intros [] E. set (p := is_next s).
  assert (is_objs s !! p = None) as Hnone.
  { destruct (is_objs s !! p) eqn:Ep; [|done]. assert (p < is_next s)%nat by (apply it_next0; by eexists). unfold p in *. lia. }
  assert (forall q j, is_objs (add_inode uninit ino s) !! q = Some j ->
    (q = p /\ i_inode_no j = ino /\ i_rc j = 1) \/ (q <> p /\ is_objs s !! q = Some j /\ i_inode_no j <> ino)) as Hlk.
  { intros q j Hq. simpl in Hq. fold p in Hq. destruct (decide (q = p)) as [->|Hqp].
    - rewrite lookup_insert_eq in Hq. injection Hq as <-. by left.
    - rewrite lookup_insert_ne in Hq by done. right. split_and!; [done|done|].
      eapply find_inode_None; [exact E|apply it_head0; by eexists|done|by eapply it_rc0]. }
  split; simpl; fold p; try done.
  - intros q. rewrite elem_of_cons, it_head0. destruct (decide (q = p)) as [->|Hqp].
    + rewrite lookup_insert_eq. split; [by eexists|by left].
    + rewrite lookup_insert_ne by done. split; [by intros [?|?]|by right].
  - constructor; [|done]. rewrite it_head0, Hnone. by intros [? ?].
  - intros q [j [[-> _]|(_ & Hq & _)]%Hlk]; [unfold p; lia|]. assert (q < is_next s)%nat by (apply it_next0; by eexists). lia.
  - intros q j [(-> & _ & ->)|(_ & Hq & _)]%Hlk; [done|by eapply it_rc0].
  - intros q r j k [(-> & H1 & _)|(Hq & H1 & H2)]%Hlk [(-> & H3 & _)|(Hr & H3 & H4)]%Hlk Heq; try congruence.
    by apply (it_inj0 q r j k).
Qed.

(** *** How operations change [refs] *)
Lemma refs_at {St} (s : istate St) p i : itable_ok s -> is_objs s !! p = Some i -> refs s (i_inode_no i) = i_rc i.
Proof. intros Hs Hp. unfold refs. by rewrite (find_inode_ok s _ p i Hs Hp eq_refl), Hp. Qed.

Lemma refs_none {St} (s : istate St) ino :
  (forall p i, is_objs s !! p = Some i -> i_inode_no i <> ino) -> refs s ino = 0.
Proof.
  intros Hn. unfold refs. destruct (find_inode _ _ _) as [p|] eqn:E; [|done].
  apply find_inode_Some in E as (i & _ & Hp & Hi & _). by destruct (Hn p i Hp).
Qed.

Lemma refs_case {St} (s : istate St) ino :
  itable_ok s -> (exists p i, is_objs s !! p = Some i /\ i_inode_no i = ino) \/
                 (forall p i, is_objs s !! p = Some i -> i_inode_no i <> ino).
Proof.
  intros Hs. destruct (find_inode (is_objs s) ino (is_head s)) as [p|] eqn:E.
  - apply find_inode_Some in E as (i & _ & Hp & Hi & _). left. by exists p, i.
  - right. intros p i Hp. eapply find_inode_None; [exact E|by apply it_head|done|by eapply it_rc].
Qed.

Lemma refs_upd {St} (s : istate St) p i i' ino :
  itable_ok s -> is_objs s !! p = Some i -> i_inode_no i' = i_inode_no i -> 0 < i_rc i' ->
  refs (upd_object p i' s) ino = if decide (ino = i_inode_no i) then i_rc i' else refs s ino.
Proof.
  intros Hs Hp Hno Hrc. pose proof (itable_ok_upd s p i i' Hs Hp Hno Hrc) as Hs'. case_decide as Hi.
  - rewrite Hi, <- Hno. apply (refs_at _ p); [done|apply lookup_insert_eq].
  - destruct (refs_case s ino Hs) as [(q & j & Hq & <-)|Hn].
    + assert (q <> p) by (intros ->; congruence).
      rewrite (refs_at s q j Hs Hq). apply (refs_at _ q); [done|]. simpl. by rewrite lookup_insert_ne.
    + rewrite (refs_none s) by done. apply refs_none. intros q j Hq. simpl in Hq.
      apply lookup_insert_Some in Hq as [[_ <-]|[_ Hq]]; [congruence|eauto].
Qed.

Lemma refs_add {St} uninit (s : istate St) ino j :
  itable_ok s -> find_inode (is_objs s) ino (is_head s) = None ->
  refs (add_inode uninit ino s) j = if decide (j = ino) then 1 else refs s j.
Proof.
  intros Hs Hf. pose proof (itable_ok_add uninit ino s Hs Hf) as Hs'. case_decide as Hi.
  - subst j. apply (refs_at _ (is_next s) (new_inode uninit ino)); [done|apply lookup_insert_eq].
  - assert (is_objs s !! is_next s = None) as Hnone.
    { apply eq_None_not_Some. intros Hx. pose proof (it_next s Hs _ Hx). lia. }
    destruct (refs_case s j Hs) as [(q & x & Hq & <-)|Hn].
    + rewrite (refs_at s q x Hs Hq). apply (refs_at _ q); [done|]. simpl. rewrite lookup_insert_ne; [done|congruence].
    + rewrite (refs_none s) by done. apply refs_none. intros q x Hq. simpl in Hq.
      apply lookup_insert_Some in Hq as [[_ <-]|[_ Hq]]; [done|eauto].
Qed.

Lemma refs_drop {St} (s : istate St) p i j :
  itable_ok s -> is_objs s !! p = Some i ->
  refs (drop_ref p i s) j = if decide (j = i_inode_no i) then i_rc i - 1 else refs s j.
Proof.
  intros Hs Hp. pose proof (itable_ok_drop s p i Hs Hp) as Hs'. pose proof (it_rc s Hs p i Hp) as Hrc.
  unfold drop_ref in *. destruct (Z.eqb_spec (i_rc i) 1) as [H1|H1]; [|by apply refs_upd; [done|done|done|simpl; lia]].
  assert (forall q x, delete p (<[p:=set_i_rc (i_rc i - 1) i]> (is_objs s)) !! q = Some x <-> q <> p /\ is_objs s !! q = Some x) as Hlk.
  { intros q x. rewrite lookup_delete_Some. split; (intros [Hq Hx]; split; [done|]).
    - by rewrite lookup_insert_ne in Hx. - by rewrite lookup_insert_ne. }
  case_decide as Hi.
  - subst j. transitivity 0; [|lia]. apply refs_none. intros q x [Hq Hx]%Hlk Hno. apply Hq. by apply (it_inj s Hs q p x i).
  - destruct (refs_case s j Hs) as [(q & x & Hq & <-)|Hn].
    + rewrite (refs_at s q x Hs Hq). apply (refs_at _ q); [done|]. apply Hlk. split; [|done]. intros ->. congruence.
    + rewrite (refs_none s) by done. apply refs_none. intros q x [_ Hx]%Hlk. eauto.
Qed.

(** C13: [inode_get] keeps one object per inode number: it returns the object
    of the number if there is one, else a new one that is not valid yet; the
    count of the number grows by one, those of the other numbers stay, the
    table stays well formed, and a second [inode_get] returns the same
    pointer. *)
Theorem inode_get_unique {St} sb uninit (s : istate St) ino :
  itable_ok s -> 1 <= ino <= num_inodes sb ->
  exists p s' i, inode_get sb uninit ino s = Ok (p, s') /\ itable_ok s' /\
    is_objs s' !! p = Some i /\ i_inode_no i = ino /\ i_rc i = refs s ino + 1 /\ refs s' ino = refs s ino + 1 /\
    (forall q, q <> p -> is_objs s' !! q = is_objs s !! q) /\ is_cache s' = is_cache s /\
    (refs s ino = 0 -> i_valid i = false) /\
    exists s'', inode_get sb uninit ino s' = Ok (p, s'').
Proof.
  intros Hs Hino. pose proof (it_lock s Hs) as Hl.
  destruct (find_inode (is_objs s) ino (is_head s)) as [p|] eqn:E.
  - pose proof E as (i & Hin & Hp & Hi & Hrc)%find_inode_Some.
    set (s' := set_is_objs (<[p := set_i_rc (i_rc i + 1) i]> (is_objs s)) s).
    assert (itable_ok s') as Hs' by (apply itable_ok_rc; [done|done|lia]).
    assert (is_objs s' !! p = Some (set_i_rc (i_rc i + 1) i)) as Hp' by (simpl; by rewrite lookup_insert_eq).
    pose proof (find_inode_ok _ _ _ _ Hs' Hp' Hi) as Hf'.
    exists p, s', (set_i_rc (i_rc i + 1) i). split; [by apply inode_get_found|].
    unfold refs. rewrite E, Hp, Hf', Hp'. split_and!; try done.
    + intros q Hq. simpl. by rewrite lookup_insert_ne.
    + simpl. lia.
    + eexists. exact (inode_get_found sb uninit ino s' p _ Hl Hino Hf' Hp').
  - set (p := is_next s). set (s' := add_inode uninit ino s).
    pose proof (itable_ok_add uninit ino s Hs E) as Hs'. fold s' in Hs'.
    assert (is_objs s' !! p = Some (new_inode uninit ino)) as Hp' by (simpl; by rewrite lookup_insert_eq).
    pose proof (find_inode_ok _ _ _ _ Hs' Hp' eq_refl) as Hf'. simpl i_inode_no in Hf'.
    exists p, s', (new_inode uninit ino). split; [by apply inode_get_fresh|].
    unfold refs. rewrite E, Hf', Hp'. split_and!; try done.
    + intros q Hq. simpl. by rewrite lookup_insert_ne.
    + eexists. exact (inode_get_found sb uninit ino s' p _ Hl Hino Hf' Hp').
Qed.

Lemma inode_get_unique_witness :
  exists p s' i, inode_get mkfs_sb zero_entry 5 (mkIstate tt ∅ 0 [] false init_console 0 false) = Ok (p, s') /\ itable_ok s' /\
    is_objs s' !! p = Some i /\ i_inode_no i = 5 /\ i_rc i = 0 + 1 /\ refs s' 5 = 0 + 1 /\
    (forall q, q <> p -> is_objs s' !! q = (∅ : gmap nat Inode) !! q) /\ is_cache s' = tt /\
    (0 = 0 -> i_valid i = false) /\
    exists s'', inode_get mkfs_sb zero_entry 5 s' = Ok (p, s'').
Proof.
  apply (inode_get_unique mkfs_sb zero_entry (mkIstate tt ∅ 0 [] false init_console 0 false) 5); [|done].
  split; simpl; try done.
  - intros p. split; [by intros ?%not_elem_of_nil|by intros [? ?]].
  - constructor.
  - by intros p [? ?].
Defined.

Lemma inode_put_eq {St} sb (B : BlockCache St) (s : istate St) ctx p i :
  is_lock s = false -> is_objs s !! p = Some i -> 0 < i_rc i -> 1 < i_rc i \/ ie_num_links (i_entry i) <> 0 ->
  inode_put sb B ctx p s = Ok (tt, drop_ref p i s).
Proof.
  intros Hl Hp Hrc Hlast.
  assert ((i_rc i <=? 1) && (ie_num_links (i_entry i) =? 0) = false) as Hnl.
  { apply andb_false_iff. rewrite Z.leb_gt, Z.eqb_neq. done. }
  unfold inode_put, acquire_tree_lock, release_tree_lock, get_inode, upd_inode, put_inode, gets, modify, mbind, M_bind. simpl.
  rewrite Hl. simpl. unfold get_inode, gets, mbind, M_bind. simpl. rewrite Hp. simpl. rewrite Hnl. simpl.
  unfold get_inode, gets, mbind, M_bind. simpl. rewrite Hp. simpl.
  unfold get_inode, gets, mbind, M_bind. simpl. rewrite lookup_insert_eq. simpl.
  unfold whenM, drop_ref. destruct (Z.eqb_spec (i_rc i) 1) as [H1|H1].
  - rewrite H1. simpl. by destruct s; simpl in *; subst.
  - rewrite (proj2 (Z.leb_gt _ _)) by lia. simpl. by destruct s; simpl in *; subst.
Qed.

(** [inode_put] of a reference that is not the last to an inode without
    links: the count drops by one, the object leaves the table exactly when
    the count reaches 0, nothing else changes, and the table stays well
    formed; so [inode_put] undoes [inode_get] and [inode_share]. *)
Theorem inode_put_table {St} sb (B : BlockCache St) (s : istate St) ctx p i :
  itable_ok s -> is_objs s !! p = Some i -> 1 < i_rc i \/ ie_num_links (i_entry i) <> 0 ->
  exists s', inode_put sb B ctx p s = Ok (tt, s') /\ itable_ok s' /\
    is_objs s' !! p = (if i_rc i =? 1 then None else Some (set_i_rc (i_rc i - 1) i)) /\
    (forall q, q <> p -> is_objs s' !! q = is_objs s !! q) /\ is_cache s' = is_cache s /\
    (1 < i_rc i -> inode_share p s' = Ok (p, s)).
Proof.
  intros Hs Hp Hlast. pose proof (it_lock s Hs) as Hl. pose proof (it_rc s Hs p i Hp) as Hrc.
  exists (drop_ref p i s). split; [by apply inode_put_eq|]. split; [by apply itable_ok_drop|].
  unfold drop_ref. destruct (Z.eqb_spec (i_rc i) 1) as [H1|H1].
  - split_and!; simpl; [by rewrite lookup_delete_eq| |done|lia].
    intros q Hq. by rewrite lookup_delete_ne, lookup_insert_ne.
  - split_and!; simpl; [by rewrite lookup_insert_eq| |done|].
    + intros q Hq. by rewrite lookup_insert_ne.
    + intros _. unfold inode_share, acquire_tree_lock, release_tree_lock, upd_inode, get_inode, put_inode, gets, modify, mbind, M_bind.
      simpl. rewrite Hl. simpl. unfold get_inode, gets, mbind, M_bind. simpl. rewrite lookup_insert_eq. simpl.
      rewrite insert_insert_eq. replace (set_i_rc _ (set_i_rc _ i)) with i by (destruct i; unfold set_i_rc; simpl; f_equal; lia).
      rewrite insert_id by done. by destruct s; simpl in *; subst.
Qed.

Lemma inode_put_table_witness :
  let i := mkInode false 2 5 true zero_entry in
  let s := mkIstate tt {[0%nat := i]} 1 [0%nat] false init_console 0 false in
  exists s', inode_put mkfs_sb (mkBlockCache unit (fun _ => panic) (fun _ => panic) (fun _ => panic) (fun _ _ => panic) (fun _ => panic)
      (fun _ => panic) (fun _ _ => panic) (fun _ _ => panic) (fun _ => panic) (fun _ _ => panic) panic) None 0 s = Ok (tt, s') /\
    itable_ok s' /\ is_objs s' !! 0%nat = Some (mkInode false 1 5 true zero_entry) /\
    (forall q, q <> 0%nat -> is_objs s' !! q = is_objs s !! q) /\ is_cache s' = tt /\
    (1 < 2 -> inode_share 0 s' = Ok (0%nat, s)).
Proof.
  intros i s. apply (inode_put_table mkfs_sb _ s None 0 i); [|done|by left].
  split; simpl; try done.
  - intros p. rewrite list_elem_of_singleton, lookup_singleton_is_Some. split; congruence.
  - apply NoDup_singleton.
  - intros p. rewrite lookup_singleton_is_Some. intros <-. lia.
  - intros p j [<- <-]%lookup_singleton_Some. done.
  - intros p q j k [<- _]%lookup_singleton_Some [<- _]%lookup_singleton_Some. done.
Defined.

End InodeFacts.
