(* ===== verification/InodeDisk.v ===== *)
(** * Inodes on the disk: allocation and write-back (inode.c)

    [inode_alloc], [inode_alloc_group] and [inode_sync] against the interface
    of the block cache, for any implementation of it. *)
From S2P Require Import Prelude FsDefines CString Console BlockIface Inode InodeFacts.

Module InodeDisk.
Import CString Console Inode InodeFacts.

Lemma encode_InodeEntry_ok e : Forall byte_ok (encode_InodeEntry e).
Proof.
  unfold encode_InodeEntry. rewrite !Forall_app. split_and!; try apply le_bytes_ok. apply unwords_ok.
Qed.

Lemma put_entry_ok data ino e :
  length (ie_addrs e) = 12%nat -> length data = bsize -> Forall byte_ok data ->
  length (put_entry data ino e) = bsize /\ Forall byte_ok (put_entry data ino e).
Proof.
  intros He Hl Hb. pose proof (entry_off_bound ino). unfold bsize in *. split.
  - unfold put_entry. rewrite length_splice; [done|]. rewrite length_encode_InodeEntry by done. lia.
  - apply Forall_splice; [done|]. apply encode_InodeEntry_ok.
Qed.

(** How the inodes lie in the groups: the inode area comes before the bitmap. *)
Record inode_layout (sb : SuperBlock) : Prop := {
  il_geo : geometry_ok sb;
  il_inodes : inode_geometry sb;
  il_groups : num_groups sb = NGROUPS;
  il_n : num_inodes sb = NINODES;
  il_area : (GINODES sb + 7) / 8 <= bitmap_start_per_group sb
}.

(** Block 0 of the file system. *)
Lemma mkfs_layout : inode_layout mkfs_sb.
Proof. by repeat split. Qed.

Lemma div8_lt r n : 0 <= r < n -> r / 8 < (n + 7) / 8.
Proof. intros. Z.to_euclidean_division_equations. lia. Qed.

Section disk.
Context {St : Type} (sb : SuperBlock) (B : BlockCache St) {Hspec : BlockCacheSpec sb B}.
Context (Hlay : inode_layout sb).
Implicit Types (s : istate St) (c : St).

Lemma set_set_cache (x y : St) s : set_is_cache x (set_is_cache y s) = set_is_cache x s.
Proof. done. Qed.

(** ** Steps of the block cache, from a state of the inode layer *)
Lemma wp_acquire s n Q :
  bk_ok (is_cache s) -> in_groups sb n -> (forall p, bk_held (is_cache s) !! p <> Some n) ->
  (forall p c, bk_ok c -> bk_same (is_cache s) c -> bk_held (is_cache s) !! p = None ->
     bk_held c = <[p := n]> (bk_held (is_cache s)) -> ~ bk_dirty c p ->
     (forall q, q <> p -> bk_dirty c q -> bk_dirty (is_cache s) q) ->
     (forall ctx ns k, bk_room (is_cache s) ctx ns k -> bk_room c ctx ns k) ->
     Q p (set_is_cache c s)) ->
  wp (bc (bc_acquire B n)) Q s.
Proof.
  intros Hok Hg Hn HQ. apply wp_lift. eapply wp_mono; [by apply acquire_law|].
  intros p c (? & ? & ? & ? & ? & ? & ?). by apply HQ.
Qed.

Lemma wp_data s p n (Q : list Z -> istate St -> Prop) :
  bk_ok (is_cache s) -> bk_held (is_cache s) !! p = Some n -> Q (bk_view (is_cache s) n) s ->
  wp (bc (bc_data B p)) Q s.
Proof.
  intros Hok Hn HQ. apply wp_lift. eapply wp_mono; [by apply data_law|].
  intros d c (-> & ->). by destruct s.
Qed.

Lemma wp_store s p n d (Q : unit -> istate St -> Prop) :
  bk_ok (is_cache s) -> bk_held (is_cache s) !! p = Some n -> ~ is_bitmap sb n ->
  length d = bsize -> Forall byte_ok d ->
  (forall c, bk_ok c -> bk_held c = bk_held (is_cache s) ->
     (forall m, bk_view c m = if decide (m = n) then d else bk_view (is_cache s) m) ->
     (forall m, bk_alloced c m = bk_alloced (is_cache s) m) ->
     (forall q, q <> p -> bk_dirty c q -> bk_dirty (is_cache s) q) ->
     (forall ctx ns k, bk_room (is_cache s) ctx ns k -> bk_room c ctx ns k) ->
     Q tt (set_is_cache c s)) ->
  wp (bc (bc_store B p d)) Q s.
Proof.
  intros ? ? ? ? ? HQ. apply wp_lift. eapply wp_mono; [by eapply store_law|].
  intros [] c (? & ? & ? & ? & ? & ?). by apply HQ.
Qed.

Lemma wp_sync s ctx p n ns k (Q : unit -> istate St -> Prop) :
  bk_ok (is_cache s) -> bk_held (is_cache s) !! p = Some n -> bk_room (is_cache s) ctx ns k ->
  0 <= k -> n ∈ ns -> 0 <= n < 2 ^ 64 ->
  (forall c, bk_ok c -> bk_same (is_cache s) c -> bk_held c = bk_held (is_cache s) ->
     ~ bk_dirty c p -> (forall q, q <> p -> bk_dirty c q -> bk_dirty (is_cache s) q) ->
     bk_room c ctx ns k -> Q tt (set_is_cache c s)) ->
  wp (bc (bc_sync B ctx p)) Q s.
Proof.
  intros ? ? ? ? ? ? HQ. apply wp_lift. eapply wp_mono; [by eapply sync_law|].
  intros [] c (? & ? & ? & ? & ? & ?). by apply HQ.
Qed.

Lemma wp_release s p n (Q : unit -> istate St -> Prop) :
  bk_ok (is_cache s) -> bk_held (is_cache s) !! p = Some n -> ~ bk_dirty (is_cache s) p ->
  (forall c, bk_ok c -> bk_same (is_cache s) c -> bk_held c = delete p (bk_held (is_cache s)) ->
     (forall q, bk_dirty c q -> bk_dirty (is_cache s) q) ->
     (forall ctx ns k, bk_room (is_cache s) ctx ns k -> bk_room c ctx ns k) ->
     Q tt (set_is_cache c s)) ->
  wp (bc (bc_release B p)) Q s.
Proof.
  intros ? ? ? HQ. apply wp_lift. eapply wp_mono; [by eapply release_law|].
  intros [] c (? & ? & ? & ? & ?). by apply HQ.
Qed.

Lemma bk_same_trans c1 c2 c3 : bk_same c1 c2 -> bk_same c2 c3 -> bk_same c1 c3.
Proof. intros [H1 H2] [H3 H4]. split; intros n; [by rewrite H3|by rewrite H4]. Qed.

(** Nothing is held: between operations on blocks. *)
Definition quiet (c : St) : Prop := bk_ok c /\ bk_held c = ∅.

(** A state that differs in nothing a client sees. *)
Definition calm (c c' : St) : Prop :=
  quiet c' /\ bk_same c c' /\ (forall ctx ns k, bk_room c ctx ns k -> bk_room c' ctx ns k).

(** Acquire, read, release: a routine that only looks at block [n]. *)
Lemma wp_peek {A} s n (Q : A -> istate St -> Prop) (m : nat -> M (istate St) A) :
  quiet (is_cache s) -> in_groups sb n ->
  (forall p c, bk_ok c -> bk_same (is_cache s) c -> bk_held c = {[p := n]} -> ~ bk_dirty c p ->
     (forall ctx ns k, bk_room (is_cache s) ctx ns k -> bk_room c ctx ns k) ->
     wp (m p) Q (set_is_cache c s)) ->
  wp (bc (bc_acquire B n) ≫= m) Q s.
Proof.
  intros [Hok Hh] Hg Hm. apply wp_bind, wp_acquire; [done|done|by rewrite Hh|].
  intros p c ? ? ? Hc ? ? ?. apply Hm; try done. by rewrite Hc, Hh.
Qed.

(** Write the whole of block [n], sync it and release it. *)
Lemma wp_write_back {A} s c ctx p n d ns k (Q : A -> istate St -> Prop) (m : M (istate St) A) :
  bk_ok c -> bk_held c = {[p := n]} -> ~ is_bitmap sb n -> length d = bsize -> Forall byte_ok d ->
  bk_room c ctx ns k -> 0 <= k -> n ∈ ns -> 0 <= n < 2 ^ 64 ->
  (forall c', quiet c' -> (forall m, bk_view c' m = if decide (m = n) then d else bk_view c m) ->
     (forall m, bk_alloced c' m = bk_alloced c m) -> bk_room c' ctx ns k -> wp m Q (set_is_cache c' s)) ->
  wp (bc (bc_store B p d);; bc (bc_sync B ctx p);; bc (bc_release B p);; m) Q (set_is_cache c s).
Proof.
  intros Hok Hh Hn Hl Hb Hr Hk Hin Hn64 Hm.
  apply wp_bind, (wp_store _ p n); try done; [simpl; by rewrite Hh, lookup_singleton_eq|].
  intros c1 Hok1 Hh1 Hv1 Ha1 _ Hr1. simpl in *.
  apply wp_bind, (wp_sync _ ctx p n ns k); try done; simpl.
  { by rewrite Hh1, Hh, lookup_singleton_eq. } { by apply Hr1. }
  intros c2 Hok2 [Hv2 Ha2] Hh2 Hd2 _ Hr2.
  apply wp_bind, (wp_release _ p n); try done; simpl.
  { by rewrite Hh2, Hh1, Hh, lookup_singleton_eq. }
  intros c3 Hok3 [Hv3 Ha3] Hh3 _ Hr3. apply Hm.
  - split; [done|]. by rewrite Hh3, Hh2, Hh1, Hh, delete_singleton_eq.
  - intros x. by rewrite Hv3, Hv2, Hv1.
  - intros x. by rewrite Ha3, Ha2, Ha1.
  - by apply Hr3.
Qed.

(** Release the only block held, unchanged. *)
Lemma wp_let_go {A} s c p n (Q : A -> istate St -> Prop) (m : M (istate St) A) :
  bk_ok c -> bk_held c = {[p := n]} -> ~ bk_dirty c p ->
  (forall c', calm c c' -> wp m Q (set_is_cache c' s)) ->
  wp (bc (bc_release B p);; m) Q (set_is_cache c s).
Proof.
  intros Hok Hh Hd Hm. apply wp_bind, (wp_release _ p n); try done; simpl.
  { by rewrite Hh, lookup_singleton_eq. }
  intros c' Hok' Hs Hh' _ Hr. apply Hm. split_and!; try done. split; [done|].
  by rewrite Hh', Hh, delete_singleton_eq.
Qed.

(** ** The inode of number [ino] on the disk *)
Definition disk_inode (c : St) (ino : Z) : InodeEntry := get_entry (bk_view c (to_block_no sb ino)) ino.

Lemma inode_block_group ino :
  1 <= ino <= num_inodes sb ->
  exists j, 0 <= j < bitmap_start_per_group sb /\
    to_block_no sb ino = group_block sb ((ino - 1) / GINODES sb) j /\
    0 <= (ino - 1) / GINODES sb < num_groups sb.
Proof using Hlay.
  destruct Hlay as [Hg Hi Hng Hn Ha]. intros Hino. exists ((ino - 1) mod GINODES sb / 8).
  pose proof (Z.mod_pos_bound (ino - 1) (GINODES sb) (ig_gi _ Hi)) as Hm. split_and!.
  - apply Z.div_pos; lia.
  - eapply Z.lt_le_trans; [|exact Ha]. by apply div8_lt.
  - rewrite to_block_no_eq by done. unfold group_block. lia.
  - apply Z.div_pos; [lia|apply Hi].
  - apply Z.div_lt_upper_bound; [apply Hi|]. unfold GINODES. rewrite Hn, Hng in *.
    change (NINODES / NGROUPS) with 20. unfold NINODES, NGROUPS in *. lia.
Qed.

Lemma inode_in_groups ino : 1 <= ino <= num_inodes sb -> in_groups sb (to_block_no sb ino).
Proof using Hlay.
  intros Hino. destruct (inode_block_group ino Hino) as (j & Hj & -> & Hg).
  exists ((ino - 1) / GINODES sb). split; [done|]. exists j. split; [|done]. destruct Hlay as [[]]. lia.
Qed.

Lemma inode_block_not_bitmap ino : 1 <= ino <= num_inodes sb -> ~ is_bitmap sb (to_block_no sb ino).
Proof using Hlay.
  intros Hino (g & Hg & Heq). destruct (inode_block_group ino Hino) as (j & Hj & Hb & Hg').
  unfold bitmap_block in Heq. rewrite Hb in Heq. unfold group_block in Heq.
  destruct Hlay as [[Hw _ _ Hbm Hdt _ _] _ _ _ _]. clear Hlay Hb Hg Hg'.
  set (q := (ino - 1) / GINODES sb) in *. set (W := blocks_per_group sb) in *.
  assert (q = g) as -> by (clear Hw; nia). lia.
Qed.

Lemma inode_block_range ino : 1 <= ino <= num_inodes sb -> 0 <= to_block_no sb ino < 2 ^ 64.
Proof. intros _. apply u64_range. Qed.

Lemma inode_block_alloced c ino : bk_ok c -> 1 <= ino <= num_inodes sb -> bk_alloced c (to_block_no sb ino) = true.
Proof using Hlay.
  intros Hok Hino. destruct (inode_block_group ino Hino) as (j & Hj & -> & Hg).
  apply bk_meta; [done|done|]. destruct Hlay as [[]]; lia.
Qed.

(** Writing the entry of [ino] is seen in [ino] only. *)
Lemma disk_inode_put c c' ino e :
  1 <= ino <= num_inodes sb -> InodeEntry_wf e -> bk_ok c ->
  (forall m, bk_view c' m = if decide (m = to_block_no sb ino)
                            then put_entry (bk_view c (to_block_no sb ino)) ino e else bk_view c m) ->
  forall j, 1 <= j <= num_inodes sb -> disk_inode c' j = if decide (j = ino) then e else disk_inode c j.
Proof using Hlay.
  intros Hino He Hok Hv j Hj. unfold disk_inode. rewrite Hv.
  destruct (decide (j = ino)) as [->|Hne].
  - rewrite decide_True by done. apply get_put_entry; [done|by apply bk_view_len].
  - case_decide as Hb; [|done]. rewrite <- Hb.
    apply get_put_entry_ne; [done|by apply bk_view_len|].
    apply (same_block_slots sb); try done. apply Hlay.
Qed.

(** ** [inode_sync] writing *)
Lemma sync_write_ok s ctx ip i ns k :
  quiet (is_cache s) -> is_objs s !! ip = Some i -> i_valid i = true ->
  1 <= i_inode_no i <= num_inodes sb -> InodeEntry_wf (i_entry i) ->
  bk_room (is_cache s) ctx ns k -> 0 <= k -> to_block_no sb (i_inode_no i) ∈ ns ->
  wp (inode_sync sb B ctx ip true) (fun _ s' => exists c', s' = set_is_cache c' s /\ quiet c' /\
    (forall m, bk_view c' m = if decide (m = to_block_no sb (i_inode_no i))
       then put_entry (bk_view (is_cache s) (to_block_no sb (i_inode_no i))) (i_inode_no i) (i_entry i)
       else bk_view (is_cache s) m) /\
    (forall m, bk_alloced c' m = bk_alloced (is_cache s) m) /\ bk_room c' ctx ns k) s.
Proof using Hlay.
  intros Hq Hip Hv Hino He Hr Hk Hin. unfold inode_sync.
  apply wp_bind. unfold get_inode. apply wp_bind, wp_gets. rewrite Hip. apply wp_ret.
  apply (wp_peek s); [done|by apply inode_in_groups|]. intros p c Hok [Hsv Hsa] Hh Hd Hrc.
  apply wp_bind, (wp_data _ p (to_block_no sb (i_inode_no i))); [done|simpl; by rewrite Hh, lookup_singleton_eq|].
  rewrite Hv. simpl. rewrite Hsv.
  destruct (put_entry_ok (bk_view (is_cache s) (to_block_no sb (i_inode_no i))) (i_inode_no i) (i_entry i))
    as [Hl Hb]; [apply He|apply bk_view_len, Hq|apply bk_view_bytes, Hq|].
  eapply wp_change; [|apply (wp_write_back s c ctx p (to_block_no sb (i_inode_no i))
    (put_entry (bk_view (is_cache s) (to_block_no sb (i_inode_no i))) (i_inode_no i) (i_entry i)) ns k _ (mret tt))].
  - unfold mbind, M_bind. simpl. destruct (bc _ _) as [[]| | |]; try done.
    destruct (bc _ _) as [[]| | |]; try done. by destruct (bc _ _) as [[[]]| | |].
  - done.
  - done.
  - by apply inode_block_not_bitmap.
  - done.
  - done.
  - by apply Hrc.
  - done.
  - done.
  - apply u64_range.
  - intros c' Hq' Hv' Ha' Hr'. apply wp_ret. exists c'. split_and!; try done.
    + intros m. rewrite Hv'. case_decide; [done|apply Hsv].
    + intros m. rewrite Ha'. apply Hsa.
Qed.

(** ** Allocation of inodes *)

(** The body both searches share: look at inode [ino], take it if it is free. *)
Definition try_ino (ctx : option nat) (type ino : Z) : M (istate St) (option Z) :=
  block ← bc (bc_acquire B (to_block_no sb ino));
  data ← bc (bc_data B block);
  if ie_type (get_entry data ino) =? INODE_INVALID then
    bc (bc_store B block (put_entry data ino (set_ie_type type zero_entry)));;
    bc (bc_sync B ctx block);;
    bc (bc_release B block);;
    mret (Some ino)
  else
    bc (bc_release B block);;
    mret None.

(** Inode [ino] was free, is now allocated with type [type] and nothing else,
    and no other inode or block of the file system changed. *)
Definition took_inode (c c' : St) (type ino : Z) : Prop :=
  ie_type (disk_inode c ino) = INODE_INVALID /\
  (forall j, 1 <= j <= num_inodes sb ->
     disk_inode c' j = if decide (j = ino) then set_ie_type type zero_entry else disk_inode c j) /\
  (forall m, m <> to_block_no sb ino -> bk_view c' m = bk_view c m) /\
  (forall m, bk_alloced c' m = bk_alloced c m).

Lemma zero_entry_wf type : 0 <= type < 2 ^ 16 -> InodeEntry_wf (set_ie_type type zero_entry).
Proof. intros. repeat split; simpl; try lia. by repeat constructor. Qed.

Lemma calm_refl c : quiet c -> calm c c.
Proof. intros. by split. Qed.

Lemma calm_trans c1 c2 c3 : calm c1 c2 -> calm c2 c3 -> calm c1 c3.
Proof.
  intros (H1 & H2 & H3) (H4 & H5 & H6). split_and!; [done|by eapply bk_same_trans|]. auto.
Qed.

Lemma calm_disk_inode c c' j : calm c c' -> disk_inode c' j = disk_inode c j.
Proof. intros (_ & [H _] & _). unfold disk_inode. by rewrite H. Qed.

Lemma try_ino_ok s ctx type ino ns k :
  quiet (is_cache s) -> 1 <= ino <= num_inodes sb -> 0 <= type < 2 ^ 16 ->
  bk_room (is_cache s) ctx ns (1 + k) -> 0 <= k ->
  wp (try_ino ctx type ino) (fun r s' => exists c', s' = set_is_cache c' s /\
    match r with
    | Some v => v = ino /\ quiet c' /\ took_inode (is_cache s) c' type ino /\ bk_room c' ctx (to_block_no sb ino :: ns) k
    | None => calm (is_cache s) c' /\ ie_type (disk_inode (is_cache s) ino) <> INODE_INVALID
    end) s.
Proof using Hlay.
  intros Hq Hino Ht Hr Hk. unfold try_ino.
  apply (wp_peek s); [done|by apply inode_in_groups|]. intros p c Hok [Hsv Hsa] Hh Hd Hrc.
  apply wp_bind, (wp_data _ p (to_block_no sb ino)); [done|simpl; by rewrite Hh, lookup_singleton_eq|].
  simpl is_cache. rewrite Hsv. fold (disk_inode (is_cache s) ino).
  destruct (Z.eqb_spec (ie_type (disk_inode (is_cache s) ino)) INODE_INVALID) as [Hty|Hty].
  - destruct (put_entry_ok (bk_view (is_cache s) (to_block_no sb ino)) ino (set_ie_type type zero_entry))
      as [Hl Hb]; [done|apply bk_view_len, Hq|apply bk_view_bytes, Hq|].
    apply (wp_write_back s c ctx p (to_block_no sb ino) _ (to_block_no sb ino :: ns) k); try done.
    + by apply inode_block_not_bitmap.
    + apply bk_room_weaken; [by apply inode_in_groups|]. by apply Hrc.
    + by left.
    + apply u64_range.
    + intros c' Hq' Hv' Ha' Hr'. apply wp_ret. exists c'. split; [done|]. do 2 (split; [done|]). split; [|done].
      split_and!; try done.
      * apply disk_inode_put; [done|by apply zero_entry_wf|apply Hq|].
        intros m. rewrite Hv'. by case_decide.
      * intros m Hm. rewrite Hv', decide_False by done. apply Hsv.
      * intros m. by rewrite Ha'.
  - apply (wp_let_go s c p (to_block_no sb ino)); [done|done|done|].
    intros c' Hc'. apply wp_ret. exists c'. split; [done|]. split; [|done].
    destruct Hc' as (? & [? ?] & ?). split_and!; [done| |auto].
    split; intros m; [by rewrite H0|by rewrite H1].
Qed.

(** A run of [try_ino] over inodes [a, a + 1, ..]. *)
Lemma scan_inodes_ok s ctx type (n : nat) (f : Z -> Z) (body : Z -> M (istate St) (option Z)) a ns k0 :
  quiet (is_cache s) -> 0 <= type < 2 ^ 16 -> bk_room (is_cache s) ctx ns (1 + k0) -> 0 <= k0 ->
  (forall k, (k < n)%nat -> 1 <= f (a + Z.of_nat k) <= num_inodes sb) ->
  (forall k s', (k < n)%nat -> body (a + Z.of_nat k) s' = try_ino ctx type (f (a + Z.of_nat k)) s') ->
  wp (forM n a 1 body) (fun r s' => exists c', s' = set_is_cache c' s /\
    match r with
    | Some v => quiet c' /\ took_inode (is_cache s) c' type v /\ bk_room c' ctx (to_block_no sb v :: ns) k0 /\
                exists k, (k < n)%nat /\ v = f (a + Z.of_nat k) /\
                  forall k', (k' < k)%nat -> ie_type (disk_inode (is_cache s) (f (a + Z.of_nat k'))) <> INODE_INVALID
    | None => calm (is_cache s) c' /\
              forall k, (k < n)%nat -> ie_type (disk_inode (is_cache s) (f (a + Z.of_nat k))) <> INODE_INVALID
    end) s.
Proof using Hlay.
  intros Hq Ht Hr Hk0 Hf Hbody.
  apply (wp_forM n a 1 body (fun i s' => exists c', s' = set_is_cache c' s /\ calm (is_cache s) c' /\
    forall k, a + Z.of_nat k < i -> ie_type (disk_inode (is_cache s) (f (a + Z.of_nat k))) <> INODE_INVALID)).
  - exists (is_cache s). split_and!; [by destruct s|by apply calm_refl|]. intros. lia.
  - intros k s' Hk (c & -> & Hc & Hall). rewrite Z.mul_1_l in *.
    eapply wp_change; [by apply Hbody|].
    eapply wp_mono; [apply (try_ino_ok (set_is_cache c s) ctx type (f (a + Z.of_nat k)) ns k0)|].
    + apply Hc. + by apply Hf. + done. + simpl. by apply Hc. + done.
    + intros [v|] s' (c' & -> & Hpost); simpl in Hpost.
      * destruct Hpost as (-> & Hq' & (Hi & Hj & Hm & Ha) & Hr'). exists c'. split; [done|]. split; [done|].
        split; [|split; [done|]; exists k; split_and!; [done|done|]; intros k' Hk'; apply Hall; lia].
        rewrite (calm_disk_inode _ _ _ Hc) in Hi. split_and!; [done| | |].
        -- intros j Hj'. rewrite Hj by done. case_decide; [done|]. by apply calm_disk_inode.
        -- intros m Hm'. rewrite Hm by done. apply Hc.
        -- intros m. rewrite Ha. apply Hc.
      * destruct Hpost as [Hc' Hne]. exists c'. split_and!; [done|by eapply calm_trans|].
        intros k' Hk'. destruct (decide (k' = k)) as [->|].
        -- by rewrite <- (calm_disk_inode _ _ _ Hc).
        -- apply Hall. lia.
  - intros s' (c & -> & Hc & Hall). exists c. split_and!; [done|done|]. intros k Hk. apply Hall. lia.
Qed.

End disk.

(** [inode_alloc], and the search over the groups. *)
Lemma inode_alloc_ok {St} sb (B : BlockCache St) {Hspec : BlockCacheSpec sb B} s ctx type ns k :
  inode_layout sb -> quiet sb B (is_cache s) -> 0 < type < 2 ^ 16 -> bk_room (is_cache s) ctx ns (1 + k) -> 0 <= k ->
  wp (inode_alloc sb B ctx type) (fun r s' => exists c', s' = set_is_cache c' s /\ quiet sb B c' /\
    ((r = 0 /\ calm sb B (is_cache s) c' /\
      forall j, 1 <= j <= num_inodes sb -> ie_type (disk_inode sb B (is_cache s) j) <> INODE_INVALID) \/
     (1 <= r <= num_inodes sb /\ took_inode sb B (is_cache s) c' type r /\ bk_room c' ctx (to_block_no sb r :: ns) k /\
      forall j, 1 <= j < r -> ie_type (disk_inode sb B (is_cache s) j) <> INODE_INVALID))) s.
Proof.
  intros Hl Hq Ht Hr Hk.
  unfold inode_alloc. rewrite (proj2 (Z.eqb_neq type INODE_INVALID)) by (unfold INODE_INVALID; lia).
  apply wp_bind, wp_ret, wp_bind. pose proof (il_n _ Hl) as Hn.
  eapply wp_mono; [apply (scan_inodes_ok sb B Hl s ctx type (Z.to_nat (num_inodes sb)) id _ 1 ns k)|].
  - done. - lia. - done. - done. - unfold id. lia. - done.
  - intros r s' (c' & -> & Hpost). apply wp_ret. exists c'. split; [done|]. destruct r as [v|]; simpl.
    + destruct Hpost as (Hq' & Htook & Hr' & i & Hi & -> & Hall). unfold id in *. split; [done|]. right.
      split_and!; [lia|lia|done|done|]. intros j Hj. specialize (Hall (Z.to_nat (j - 1)) ltac:(lia)).
      by replace (1 + Z.of_nat (Z.to_nat (j - 1))) with j in Hall by lia.
    + destruct Hpost as [Hc Hall]. split; [apply Hc|]. left. split_and!; [done|done|].
      intros j Hj. specialize (Hall (Z.to_nat (j - 1)) ltac:(lia)).
      unfold id in Hall. by replace (1 + Z.of_nat (Z.to_nat (j - 1))) with j in Hall by lia.
Qed.

(** [inode_alloc] takes the first free inode of the file system: it is
    zeroed but for its type, every other inode and every other block stays as
    it was; it returns 0, and changes nothing, when no inode is free. *)
Theorem inode_alloc_correct {St} sb (B : BlockCache St) {Hspec : BlockCacheSpec sb B} s ctx type :
  inode_layout sb -> quiet sb B (is_cache s) -> 0 < type < 2 ^ 16 -> bk_room (is_cache s) ctx [] 1 ->
  exists r c', inode_alloc sb B ctx type s = Ok (r, set_is_cache c' s) /\ quiet sb B c' /\
    ((r = 0 /\ (forall n, bk_view c' n = bk_view (is_cache s) n) /\
      forall j, 1 <= j <= num_inodes sb -> ie_type (disk_inode sb B (is_cache s) j) <> INODE_INVALID) \/
     (1 <= r <= num_inodes sb /\ took_inode sb B (is_cache s) c' type r /\
      forall j, 1 <= j < r -> ie_type (disk_inode sb B (is_cache s) j) <> INODE_INVALID)).
Proof.
  intros Hl Hq Ht Hr.
  destruct (proj1 (wp_ok _ _ _) (inode_alloc_ok sb B s ctx type [] 0 Hl Hq Ht Hr ltac:(done))) as (r & s' & Heq & c' & -> & Hq' & H).
  exists r, c'. split; [done|]. split; [done|]. destruct H as [(-> & Hc & Hall)|(? & ? & _ & ?)]; [|by right].
  left. split_and!; [done|apply Hc|done].
Qed.

(** The search over the groups from [gno] on. *)
Lemma alloc_in_groups_ok {St} sb (B : BlockCache St) {Hspec : BlockCacheSpec sb B} s ctx type gno ns k0 :
  inode_layout sb -> quiet sb B (is_cache s) -> 0 < type < 2 ^ 16 -> 0 <= gno < NGROUPS ->
  bk_room (is_cache s) ctx ns (1 + k0) -> 0 <= k0 ->
  wp (alloc_in_groups sb B ctx type gno) (fun r s' => exists c', s' = set_is_cache c' s /\ quiet sb B c' /\
    ((r = 0 /\ calm sb B (is_cache s) c' /\
      forall j, 20 * gno < j <= num_inodes sb -> ie_type (disk_inode sb B (is_cache s) j) <> INODE_INVALID) \/
     (20 * gno < r <= num_inodes sb /\ took_inode sb B (is_cache s) c' type r /\ bk_room c' ctx (to_block_no sb r :: ns) k0 /\
      forall j, 20 * gno < j < r -> ie_type (disk_inode sb B (is_cache s) j) <> INODE_INVALID))) s.
Proof.
  intros Hl Hq Ht Hg Hr Hk0. pose proof (il_n _ Hl) as Hn. unfold NINODES in Hn.
  apply wp_bind.
  apply (wp_forM _ gno 1 _ (fun g s' => exists c', s' = set_is_cache c' s /\ calm sb B (is_cache s) c' /\
    forall j, 20 * gno < j <= 20 * g -> ie_type (disk_inode sb B (is_cache s) j) <> INODE_INVALID)).
  - exists (is_cache s). split_and!; [by destruct s|by apply calm_refl|]. intros. lia.
  - intros k s' Hk (c & -> & Hc & Hall). rewrite Z.mul_1_l in *. set (g := gno + Z.of_nat k) in *.
    assert (0 <= g < 10) as Hg' by (unfold g, NGROUPS in *; lia).
    assert (GINODES sb = 20) as HG by (unfold GINODES; by rewrite (il_n _ Hl), (il_groups _ Hl)).
    rewrite HG. change (NINODES / NGROUPS) with 20. rewrite (u32_id (g * 20)) by lia.
    eapply wp_mono; [apply (scan_inodes_ok sb B Hl (set_is_cache c s) ctx type 20 (fun i => i + g * 20) _ 1 ns k0)|].
    + apply Hc. + lia. + by apply Hc. + done. + simpl. lia.
    + intros i s' Hi. cbv beta zeta. rewrite (u64_id (1 + Z.of_nat i + g * 20)) by lia.
      rewrite (proj2 (Z.leb_le (1 + Z.of_nat i + g * 20) NINODES)) by (unfold NINODES; lia). done.
    + intros [v|] s' (c' & -> & Hpost); change (is_cache (set_is_cache c s)) with c in Hpost.
      * destruct Hpost as (Hq' & (Hi & Hj & Hm & Ha) & Hr' & i & Hi' & -> & Hall').
        exists c'. split_and!; [done|done|]. right. rewrite (calm_disk_inode sb B _ _ _ Hc) in Hi.
        simpl default. split_and!; [lia|lia| |done|].
        -- split_and!; [done| | |].
           ++ intros j Hj'. rewrite Hj by done. case_decide; [done|]. by apply calm_disk_inode.
           ++ intros m Hm'. rewrite Hm by done. apply Hc.
           ++ intros m. rewrite Ha. apply Hc.
        -- intros j Hjr. destruct (decide (j <= 20 * g)); [apply Hall; lia|].
           specialize (Hall' (Z.to_nat (j - g * 20 - 1)) ltac:(lia)).
           rewrite <- (calm_disk_inode sb B _ _ _ Hc).
           by replace (1 + Z.of_nat (Z.to_nat (j - g * 20 - 1)) + g * 20) with j in Hall' by lia.
      * destruct Hpost as [Hc' Hall']. exists c'. split_and!; [done|by eapply calm_trans|].
        intros j Hj. destruct (decide (j <= 20 * g)); [apply Hall; lia|].
        specialize (Hall' (Z.to_nat (j - g * 20 - 1)) ltac:(lia)).
        rewrite <- (calm_disk_inode sb B _ _ _ Hc).
        by replace (1 + Z.of_nat (Z.to_nat (j - g * 20 - 1)) + g * 20) with j in Hall' by lia.
  - intros s' (c & -> & Hc & Hall). exists c. split_and!; [done|apply Hc|]. left.
    split_and!; [done|done|]. intros j Hj. apply Hall. unfold NGROUPS in *. lia.
Qed.

(** There is no [break]: the loop over the groups always comes to its end. *)
Lemma emptiest_group_end fuel ub i used gno : 0 <= i <= NGROUPS -> NGROUPS - i < Z.of_nat fuel -> (emptiest_group fuel ub i used gno).1 = NGROUPS.
Proof.
  unfold NGROUPS. revert i used gno. induction fuel as [|fuel IH]; intros i used gno Hi Hf; [lia|]. cbn [emptiest_group]. unfold NGROUPS.
  destruct (Z.ltb_spec i 10); [|simpl; lia]. rewrite u32_id by lia. destruct (_ <? used); apply IH; lia.
Qed.

Lemma inode_alloc_group_ok {St} sb (B : BlockCache St) {Hspec : BlockCacheSpec sb B} s ctx type gno ns k :
  inode_layout sb -> quiet sb B (is_cache s) -> 0 < type < 2 ^ 16 -> 0 <= gno < NGROUPS ->
  bk_room (is_cache s) ctx ns (1 + k) -> 0 <= k ->
  wp (inode_alloc_group sb B ctx type gno) (fun r s' => exists c', s' = set_is_cache c' s /\ quiet sb B c' /\
    if type =? INODE_DIRECTORY then r = 0 /\ c' = is_cache s
    else
    (r = 0 /\ calm sb B (is_cache s) c' /\
      forall j, 20 * gno < j <= num_inodes sb -> ie_type (disk_inode sb B (is_cache s) j) <> INODE_INVALID) \/
    (20 * gno < r <= num_inodes sb /\ took_inode sb B (is_cache s) c' type r /\ bk_room c' ctx (to_block_no sb r :: ns) k /\
      forall j, 20 * gno < j < r -> ie_type (disk_inode sb B (is_cache s) j) <> INODE_INVALID)) s.
Proof.
  intros Hl Hq Ht Hg Hr Hk.
  unfold inode_alloc_group. rewrite (proj2 (Z.eqb_neq type INODE_INVALID)) by (unfold INODE_INVALID; lia).
  apply wp_bind, wp_ret. destruct (type =? INODE_DIRECTORY); [|by apply alloc_in_groups_ok].
  destruct (proj1 (wp_ok _ _ _) (used_block_law (is_cache s) 0 (proj1 Hq) ltac:(rewrite (il_groups _ Hl); done)))
    as (ub & c & Hub & -> & _).
  apply wp_bind. unfold wp, bc, lift. rewrite Hub.
  pose proof (emptiest_group_end (S (Z.to_nat NGROUPS)) ub 0 FSSIZE gno ltac:(done) ltac:(done)) as Hend.
  destruct (emptiest_group _ _ _ _ _) as [i g]. simpl in Hend. subst i. simpl. exists (is_cache s). split; [by destruct s|]. by destruct Hq.
Qed.

(** C15: for a type other than a directory, [inode_alloc_group] takes the first
    free inode of the groups from [gno] on, as [inode_alloc] does, and returns
    0 without a change when those groups have none. For a directory it returns
    0 without a change whatever is free: its loop over the groups, which looks
    for the emptiest one, always ends with [i == NGROUPS], which is taken for a
    failure. So a failed allocation returns 0, where inode.h says that it
    panics. *)
Theorem inode_alloc_group_correct {St} sb (B : BlockCache St) {Hspec : BlockCacheSpec sb B} s ctx type gno :
  inode_layout sb -> quiet sb B (is_cache s) -> 0 < type < 2 ^ 16 -> 0 <= gno < NGROUPS ->
  bk_room (is_cache s) ctx [] 1 ->
  exists r c', inode_alloc_group sb B ctx type gno s = Ok (r, set_is_cache c' s) /\ quiet sb B c' /\
    if type =? INODE_DIRECTORY then r = 0 /\ c' = is_cache s
    else
    (r = 0 /\ (forall n, bk_view c' n = bk_view (is_cache s) n) /\
      forall j, 20 * gno < j <= num_inodes sb -> ie_type (disk_inode sb B (is_cache s) j) <> INODE_INVALID) \/
    (20 * gno < r <= num_inodes sb /\ took_inode sb B (is_cache s) c' type r /\
      forall j, 20 * gno < j < r -> ie_type (disk_inode sb B (is_cache s) j) <> INODE_INVALID).
Proof.
  intros Hl Hq Ht Hg Hr.
  destruct (proj1 (wp_ok _ _ _) (inode_alloc_group_ok sb B s ctx type gno [] 0 Hl Hq Ht Hg Hr ltac:(done)))
    as (r & s' & Heq & c' & -> & Hq' & H).
  exists r, c'. split; [done|]. split; [done|]. destruct (type =? INODE_DIRECTORY); [done|].
  destruct H as [(-> & Hc & Hall)|(? & ? & _ & ?)]; [left|by right]. split_and!; [done|apply Hc|done].
Qed.

End InodeDisk.
