(* ===== verification/FsDemo.v ===== *)
(** * A small file system

    A disk in the layout of defines.h with 16 blocks per group, holding the
    root directory and a file [/hi] of five bytes, the cache as it is after
    boot, and the two inodes in memory: the concrete states at which the
    theorems on inodes and files are instantiated. *)
From S2P Require Import Prelude Bitmap FsDefines CString Console BlockIface Cache CacheFacts CacheTx CacheSpec CacheAlloc Inode InodeFacts InodeDisk.

Module FsDemo.
Import Bitmap CString Console Cache CacheFacts CacheTx CacheSpec CacheAlloc Inode InodeFacts InodeDisk.

Definition fs_sb : SuperBlock := mkSuperBlock 225 63 10 200 16 2 65 3 1 12 3 4.

Lemma fs_layout : inode_layout fs_sb.
Proof. by repeat split. Qed.

Definition root_entry : InodeEntry := mkInodeEntry INODE_DIRECTORY 0 0 1 48 (69 :: replicate 11 0) 0.
Definition hi_entry : InodeEntry := mkInodeEntry INODE_REGULAR 0 0 1 5 (70 :: replicate 11 0) 0.

Definition dot_name (l : list Z) : list Z := l ++ replicate (14 - length l) 0.
Definition root_data : list Z :=
  le_bytes 2 1 ++ dot_name [46] ++ le_bytes 2 1 ++ dot_name [46; 46] ++
  le_bytes 2 2 ++ dot_name [104; 105] ++ replicate 464 0.
Definition hi_data : list Z := [104; 101; 108; 108; 111] ++ replicate 507 0.

Definition fs_disk : gmap Z (list Z) :=
  <[65 := put_entry (put_entry zero_block 1 root_entry) 2 hi_entry]>
  (<[69 := root_data]> (<[70 := hi_data]>
  (<[68 := 63 :: replicate 511 0]>
   (list_to_map ((fun g => (bitmap_block fs_sb g, 15 :: replicate 511 0)) <$> seqZ 0 10))))).

Definition fs_cache : cache :=
  mkCache (mkDevice fs_disk []) ∅ 0 [] false (mkLogHeader 0 (replicate 63 0))
    (mkLogState 0 0 3 62 0 0) (<[0%nat := 2]> (replicate 10 0)) ∅.

Lemma fs_disk_ok n : length (disk_read fs_disk n) = bsize /\ Forall byte_ok (disk_read fs_disk n).
Proof.
  unfold disk_read. destruct (fs_disk !! n) as [d|] eqn:E.
  - revert n d E. apply (bool_decide_unpack (map_Forall (fun _ d => length d = bsize /\ Forall byte_ok d) fs_disk)).
    vm_compute. exact I.
  - split; [done|]. simpl. apply Forall_replicate. unfold byte_ok. lia.
Qed.

#[local] Opaque fs_disk.
Lemma fs_cache_inv : cache_inv fs_cache.
Proof.
  split; try done.
  - intros p. split; [by intros ?%not_elem_of_nil|]. by intros [? ?].
  - constructor.
  - by intros p [? ?].
  - intros n. apply fs_disk_ok.
Qed.
#[local] Transparent fs_disk.

Lemma fs_inv : alloc_inv fs_sb fs_cache.
Proof.
  split.
  - exact fs_cache_inv.
  - intros n. apply fs_disk_ok.
  - done.
  - intros g j Hg Hj. revert j Hj. apply (seqZ_forall (fun j => bitmap_get (bits fs_sb fs_cache g) j = true)).
    revert g Hg. apply (seqZ_forall (fun g => Forall (fun j => bitmap_get (bits fs_sb fs_cache g) j = true) (seqZ 0 4))).
    apply (bool_decide_unpack _). vm_compute. exact I.
  - apply (seqZ_forall (fun g => c_used_block fs_cache !!! Z.to_nat g =
      Z.of_nat (count_set (bits fs_sb fs_cache g) (Z.to_nat 16)) - 4)).
    apply (bool_decide_unpack _). vm_compute. exact I.
Qed.

Definition root_inode : Inode := mkInode true 1 1 true root_entry.
Definition hi_inode : Inode := mkInode true 1 2 true hi_entry.

(** Both inodes are in memory, and locked. *)
Definition fs_state : istate cache :=
  mkIstate fs_cache (<[0%nat := root_inode]> (<[1%nat := hi_inode]> ∅)) 2 [1%nat; 0%nat] false
    init_console 0 false.

#[export] Instance fs_cache_spec : BlockCacheSpec fs_sb (bcache fs_sb) := cache_spec fs_sb (il_geo _ fs_layout).

End FsDemo.
