(* ===== verification/InodeFile.v ===== *)
(** * Files: blocks, content, reading and writing (inode.c)

    The mapping of offsets to blocks, the content of a file as a list of bytes
    on the logical disk, and [inode_map], [inode_read], [inode_write] as
    operations on it, for any implementation of the block cache interface. *)
From S2P Require Import Prelude FsDefines CString Console BlockIface Inode InodeFacts InodeDisk.

Module InodeFile.
Import CString Console Inode InodeFacts InodeDisk.

(** The 12 direct addresses, the address of the indirect block and the 128
    addresses in it, as one list of [slots]. *)
Definition slot_of (index : Z) : nat := Z.to_nat (if index <? 12 then index else index + 1).

Lemma slot_of_inj i j : 0 <= i -> 0 <= j -> slot_of i = slot_of j -> i = j.
Proof. unfold slot_of. destruct (Z.ltb_spec i 12), (Z.ltb_spec j 12); lia. Qed.

Lemma slot_of_indirect i : 0 <= i -> slot_of i <> 12%nat.
Proof. unfold slot_of. destruct (Z.ltb_spec i 12); lia. Qed.

Lemma slot_of_lt i : 0 <= i < 140 -> (slot_of i < 141)%nat.
Proof. unfold slot_of. destruct (Z.ltb_spec i 12); lia. Qed.

Lemma decode_zero_block : decode_IndirectBlock zero_block = replicate 128 0.
Proof. vm_compute. reflexivity. Qed.

Lemma length_decode_Indirect d : length (decode_IndirectBlock d) = 128%nat.
Proof. apply length_words. Qed.

(** Setting one address through the pointer to the block. *)
Lemma decode_put_addrs d i a :
  Forall byte_ok d -> 0 <= a < 2 ^ 32 -> length d = bsize ->
  decode_IndirectBlock (put_addrs (<[i := a]> (get_addrs d))) = <[i := a]> (decode_IndirectBlock d).
Proof.
  intros Hd Ha Hl. unfold put_addrs, get_addrs, encode_IndirectBlock, decode_IndirectBlock at 1.
  replace 128%nat with (length (<[i := a]> (decode_IndirectBlock d)))
    by (rewrite length_insert; apply length_decode_Indirect).
  rewrite words_unwords. apply list_mod_id. apply Forall_insert; [|done].
  unfold decode_IndirectBlock, words. apply Forall_fmap, Forall_forall. intros j _. simpl.
  by apply (load_range 4).
Qed.

Lemma put_addrs_ok d i a :
  length (put_addrs (<[i := a]> (get_addrs d))) = bsize /\
  Forall byte_ok (put_addrs (<[i := a]> (get_addrs d))).
Proof.
  split; [|apply unwords_ok]. unfold put_addrs, encode_IndirectBlock.
  rewrite length_unwords, length_insert. unfold get_addrs. by rewrite length_decode_Indirect.
Qed.

Section file.
Context {St : Type} (sb : SuperBlock) (B : BlockCache St) {Hspec : BlockCacheSpec sb B}.
Context (Hlay : inode_layout sb).
Implicit Types (s : istate St) (c : St) (e : InodeEntry).

Definition indirect_slots c e : list Z :=
  if ie_indirect e =? 0 then replicate 128 0 else decode_IndirectBlock (bk_view c (ie_indirect e)).
Definition slots c e : list Z := ie_addrs e ++ ie_indirect e :: indirect_slots c e.

(** The block of index [index] of the file; 0 when there is none. *)
Definition block_at c e (index : Z) : Z := slots c e !!! slot_of index.

(** The data blocks of the file system. *)
Definition is_data (n : Z) : Prop :=
  exists g j, 0 <= g < num_groups sb /\ data_start_per_group sb <= j < blocks_per_group sb /\
    n = group_block sb g j.

(** The blocks of a file are data blocks in use, each used once. *)
Record map_ok c e : Prop := {
  mo_wf : InodeEntry_wf e;
  mo_data : forall a, a ∈ slots c e -> a <> 0 -> is_data a /\ bk_alloced c a = true;
  mo_inj : forall i j a, slots c e !! i = Some a -> slots c e !! j = Some a -> a <> 0 -> i = j
}.

(** At least [k] data blocks are free. *)
Definition has_free c (k : nat) : Prop :=
  exists l, NoDup l /\ (k <= length l)%nat /\ forall n, n ∈ l -> is_data n /\ bk_alloced c n = false.

(** *** Slots *)
Lemma length_indirect_slots c e : length (indirect_slots c e) = 128%nat.
Proof. unfold indirect_slots. destruct (_ =? _); [apply length_replicate|apply length_decode_Indirect]. Qed.

Lemma length_slots c e : length (ie_addrs e) = 12%nat -> length (slots c e) = 141%nat.
Proof. intros He. unfold slots. rewrite length_app, He. simpl. by rewrite length_indirect_slots. Qed.

Lemma slots_indirect c e : length (ie_addrs e) = 12%nat -> slots c e !! 12%nat = Some (ie_indirect e).
Proof. intros He. unfold slots. by rewrite lookup_app_r, He by lia. Qed.

Lemma lookup_slots c e index :
  length (ie_addrs e) = 12%nat -> 0 <= index < 140 ->
  slots c e !! slot_of index = Some (block_at c e index).
Proof.
  intros He Hi. unfold block_at. apply list_lookup_lookup_total_lt.
  rewrite length_slots by done. by apply slot_of_lt.
Qed.

Lemma block_at_direct c e index :
  length (ie_addrs e) = 12%nat -> 0 <= index < 12 -> block_at c e index = ie_addrs e !!! Z.to_nat index.
Proof.
  intros He Hi. unfold block_at, slots, slot_of. rewrite (proj2 (Z.ltb_lt _ _)) by lia.
  apply lookup_total_app_l. lia.
Qed.

Lemma block_at_indirect c e index :
  length (ie_addrs e) = 12%nat -> 12 <= index < 140 ->
  block_at c e index = indirect_slots c e !!! Z.to_nat (index - 12).
Proof.
  intros He Hi. unfold block_at, slots, slot_of. rewrite (proj2 (Z.ltb_ge _ _)) by lia.
  rewrite lookup_total_app_r, He by lia.
  by replace (Z.to_nat (index + 1) - 12)%nat with (S (Z.to_nat (index - 12))) by lia.
Qed.

Lemma block_at_elem c e index :
  length (ie_addrs e) = 12%nat -> 0 <= index < 140 -> block_at c e index ∈ slots c e.
Proof. intros. eapply list_elem_of_lookup_2. by apply lookup_slots. Qed.

Lemma indirect_elem c e : ie_indirect e ∈ slots c e.
Proof. unfold slots. rewrite elem_of_app. right. by left. Qed.

Lemma block_at_inj c e i j :
  map_ok c e -> 0 <= i < 140 -> 0 <= j < 140 -> block_at c e i = block_at c e j ->
  block_at c e i <> 0 -> i = j.
Proof.
  intros [Hwf _ Hinj] Hi Hj Heq Hne. assert (length (ie_addrs e) = 12%nat) as Hl by apply Hwf.
  apply slot_of_inj; [lia|lia|]. eapply Hinj; [by apply lookup_slots| |done].
  rewrite Heq. by apply lookup_slots.
Qed.

Lemma block_at_ne_indirect c e i :
  map_ok c e -> 0 <= i < 140 -> block_at c e i <> 0 -> block_at c e i <> ie_indirect e.
Proof.
  intros [Hwf _ Hinj] Hi Hne Heq. assert (length (ie_addrs e) = 12%nat) as Hl by apply Hwf.
  apply (slot_of_indirect i); [lia|]. eapply Hinj; [by apply lookup_slots| |done].
  rewrite Heq. by apply slots_indirect.
Qed.

(** *** Data blocks *)
Lemma data_not_bitmap n : is_data n -> ~ is_bitmap sb n.
Proof using Hlay.
  intros (g & j & Hg & Hj & ->) (g' & Hg' & Heq). unfold bitmap_block, group_block in Heq.
  destruct Hlay as [[Hw _ _ Hbm Hdt _ _] _ _ _ _]. clear Hlay Hg Hg'.
  assert (g = g') as -> by nia. lia.
Qed.

Lemma data_not_inode n ino : is_data n -> 1 <= ino <= num_inodes sb -> n <> to_block_no sb ino.
Proof using Hlay.
  intros (g & j & Hg & Hj & ->) Hino Heq.
  destruct (inode_block_group sb Hlay ino Hino) as (j' & Hj' & Hb & Hg').
  rewrite Hb in Heq. unfold group_block in Heq. clear Hb.
  destruct Hlay as [[Hw _ _ Hbm Hdt _ _] _ _ _ _]. clear Hlay Hg.
  set (q := (ino - 1) / GINODES sb) in *. clearbody q.
  assert (g = q) as -> by (clear Hg'; nia). lia.
Qed.

Lemma data_range n : is_data n -> 0 < n < 2 ^ 32.
Proof using Hlay.
  intros (g & j & Hg & Hj & ->). unfold group_block.
  destruct Hlay as [[Hw Hgs Hbg Hbm Hdt _ Hmax] _ _ _ _]. unfold NGROUPS in *. nia.
Qed.

Lemma data_in_groups n : is_data n -> in_groups sb n.
Proof using Hlay.
  intros (g & j & Hg & Hj & ->). exists g. split; [done|]. exists j. split; [|done].
  destruct Hlay as [[]]. lia.
Qed.

Lemma in_group_data c g n :
  bk_ok c -> 0 <= g < num_groups sb -> in_group sb g n -> bk_alloced c n = false -> is_data n.
Proof.
  intros Hok Hg (j & Hj & ->) Ha. exists g, j. split_and!; try (done || lia).
  destruct (decide (data_start_per_group sb <= j)); [done|]. rewrite bk_meta in Ha by (done || lia). done.
Qed.

Lemma has_free_alloc c c' r k :
  has_free c (S k) -> (forall n, bk_alloced c' n = if decide (n = r) then true else bk_alloced c n) ->
  has_free c' k.
Proof.
  intros (l & Hnd & Hlen & Hl) Ha. destruct (decide (r ∈ l)) as [Hr|Hr].
  - apply elem_of_Permutation in Hr as [l' Hp]. exists l'.
    rewrite Hp in Hnd, Hlen. apply NoDup_cons in Hnd as [Hr Hnd]. simpl in Hlen.
    split_and!; [done|lia|]. intros n Hn. rewrite Ha, decide_False by (intros ->; done).
    apply Hl. rewrite Hp. by right.
  - exists l. split_and!; [done|lia|]. intros n Hn. rewrite Ha, decide_False by (intros ->; done). auto.
Qed.

Lemma has_free_same c c' k : has_free c k -> (forall n, bk_alloced c' n = bk_alloced c n) -> has_free c' k.
Proof. intros (l & ? & ? & Hl) Ha. exists l. split; [done|]. split; [done|]. intros n Hn. rewrite Ha. auto. Qed.

Lemma has_free_ex c k : has_free c (S k) -> exists g n, 0 <= g < num_groups sb /\ in_group sb g n /\ bk_alloced c n = false.
Proof using Hlay.
  intros ([|n l] & _ & Hlen & Hl); [simpl in Hlen; lia|].
  destruct (Hl n) as [(g & j & Hg & Hj & ->) Ha]; [by left|]. exists g, (group_block sb g j).
  split; [done|]. split; [|done]. exists j. split; [|done]. destruct Hlay as [[]]; lia.
Qed.

(** *** Room in the operation *)
Lemma room_less c ctx ns k k' : bk_room c ctx ns k -> 0 <= k' <= k -> bk_room c ctx ns k'.
Proof.
  intros Hr Hk. revert k Hr Hk. enough (forall (n : nat) k, bk_room c ctx ns k -> k = k' + Z.of_nat n -> bk_room c ctx ns k') as H.
  { intros k Hr Hk. apply (H (Z.to_nat (k - k')) k); [done|lia]. }
  induction n as [|n IH]; intros k Hr ->; [by replace k' with (k' + Z.of_nat 0) by lia|].
  apply (IH (k' + Z.of_nat n)); [|done]. apply (bk_room_sub _ _ (group_block sb 0 0 :: ns)); [|intros x Hx; by right].
  apply bk_room_weaken; [exists 0; split; [|exists 0; split; [|done]]; destruct Hlay as [[]]; lia|]. by replace (1 + (k' + Z.of_nat n)) with (k' + Z.of_nat (S n)) by lia.
Qed.

(** What it still costs to have the indirect block in the operation. *)
Definition ind_cost (ns : list Z) e : Z :=
  if bool_decide (ie_indirect e <> 0 /\ ie_indirect e ∈ ns) then 0 else 2.

Lemma ind_cost_range ns e : 0 <= ind_cost ns e <= 2.
Proof. unfold ind_cost. case_bool_decide; lia. Qed.

Lemma ind_cost_sub ns ns' e :
  (forall n, n ∈ ns -> n ∈ ns') -> ind_cost ns' e <= ind_cost ns e.
Proof. intros Hs. unfold ind_cost. repeat case_bool_decide; try lia. naive_solver. Qed.

Lemma ind_cost_in ns e : ie_indirect e <> 0 -> ie_indirect e ∈ ns -> ind_cost ns e = 0.
Proof. intros. unfold ind_cost. by rewrite bool_decide_eq_true_2. Qed.

(** *** Allocating a block of the file *)
Definition new_block c c' ctx ns k (f : nat) a : Prop :=
  bk_ok c' /\ bk_held c' = bk_held c /\ (forall q, bk_dirty c' q -> bk_dirty c q) /\ is_data a /\
  bk_allocated c c' ctx ns k a /\ has_free c' f.

Lemma alloc_in_group_ok s ctx g ns k f :
  bk_ok (is_cache s) -> bk_held_ok (is_cache s) -> 0 <= g < num_groups sb ->
  bk_room (is_cache s) ctx ns (2 + k) -> 0 <= k -> has_free (is_cache s) (S f) ->
  wp (bc (bc_allocg B ctx g)) (fun a s' => exists c', s' = set_is_cache c' s /\
    ((a = 0 /\ bk_ok c' /\ bk_held c' = bk_held (is_cache s) /\
        (forall q, bk_dirty c' q -> bk_dirty (is_cache s) q) /\ bk_same (is_cache s) c' /\
        (forall n, in_group sb g n -> bk_alloced (is_cache s) n = true) /\ bk_room c' ctx ns (2 + k)) \/
     new_block (is_cache s) c' ctx ns k f a)) s.
Proof.
  intros Hok Hho Hg Hr Hk Hf. apply wp_lift. eapply wp_mono; [by apply allocg_law|].
  intros a c' (Hok' & Hh & Hd & [(-> & Hs & Hall & Hr')|(Hin & Ha)]); exists c'; (split; [done|]).
  - left. done.
  - right. assert (is_data a) as Hda by (eapply in_group_data; [exact Hok|exact Hg|done|apply Ha]).
    split_and!; try done. eapply has_free_alloc; [done|apply Ha].
Qed.

Lemma alloc_near_ok s ctx g ns k f :
  bk_ok (is_cache s) -> bk_held_ok (is_cache s) -> 0 <= g < num_groups sb ->
  bk_room (is_cache s) ctx ns (2 + k) -> 0 <= k -> has_free (is_cache s) (S f) ->
  wp (alloc_near B ctx g) (fun a s' => exists c', s' = set_is_cache c' s /\
    new_block (is_cache s) c' ctx ns k f a) s.
Proof using Hlay.
  intros Hok Hho Hg Hr Hk Hf. unfold alloc_near. apply wp_bind.
  eapply wp_mono; [by apply (alloc_in_group_ok s ctx g ns k f)|].
  intros a s' (c' & -> & [(-> & Hok' & Hh & Hd & Hs & _ & Hr')|Hn]).
  - change (u32 0 =? 0) with true. cbv iota. apply wp_bind, wp_lift. simpl is_cache.
    eapply wp_mono; [apply (alloc_law c' ctx ns k Hok' Hr' Hk)|].
    + intros p n Hp. rewrite Hh in Hp. destruct (Hho p n Hp) as [Hal Hnb]. by rewrite (proj2 Hs).
    + apply has_free_ex with (k := f). eapply has_free_same; [done|apply Hs].
    + intros a c2 (Hok2 & Hh2 & Hd2 & (g' & Hg' & Hin) & Ha2). 
      assert (is_data a) as Hda by (eapply in_group_data; [exact Hok'|exact Hg'|done|apply Ha2]).
      pose proof (data_range a Hda) as Hra.
      apply wp_ret. rewrite (u32_id a) by lia. exists c2. split; [done|].
      destruct Ha2 as (H1 & H2 & H3 & H4 & H5 & H6). destruct Hs as [Hs1 Hs2].
      rewrite Hs2 in H2. split; [done|]. split; [by rewrite Hh2|]. split; [by auto|]. split; [done|].
      split; [|eapply (has_free_alloc (is_cache s)); [done|]; intros n; by rewrite H3, Hs2].
      split; [done|]. split; [done|]. split; [intros n; by rewrite H3, Hs2|]. split; [done|].
      split; [|done]. intros n ? ?. by rewrite H5, Hs1.
  - assert (is_data a) as Hda by apply Hn. pose proof (data_range a Hda) as Hra.
    rewrite (u32_id a) by lia. rewrite (proj2 (Z.eqb_neq a 0)) by lia. apply wp_ret. by exists c'.
Qed.

(** *** The map after an allocation *)
Lemma map_ok_insert c c' e e' k a :
  map_ok c e -> (k < length (slots c e))%nat -> slots c' e' = <[k := a]> (slots c e) -> InodeEntry_wf e' ->
  (forall n, bk_alloced c n = true -> bk_alloced c' n = true) ->
  is_data a -> bk_alloced c a = false -> bk_alloced c' a = true -> map_ok c' e'.
Proof.
  intros [Hwf Hd Hinj] Hk Hsl Hwf' Hal Hda Hfr Ha.
  assert (forall i b, <[k := a]> (slots c e) !! i = Some b -> (i = k /\ b = a) \/ (i <> k /\ slots c e !! i = Some b)) as Hlk.
  { intros i b. destruct (decide (i = k)) as [->|Hik].
    - rewrite list_lookup_insert_eq by done. intros [= ->]. by left.
    - rewrite list_lookup_insert_ne by done. by right. }
  split; [done| |].
  - intros b Hb Hb0. rewrite Hsl in Hb. apply list_elem_of_lookup in Hb as [i Hi].
    apply Hlk in Hi as [[-> ->]|[_ Hi]]; [done|].
    destruct (Hd b) as [? ?]; [by eapply list_elem_of_lookup_2|done|]. auto.
  - intros i j b Hi Hj Hb0. rewrite Hsl in Hi, Hj.
    assert (forall i, slots c e !! i = Some a -> False) as Hno.
    { intros i' Hi'. destruct (decide (a = 0)) as [->|Ha0].
      - destruct (data_range 0 Hda) as [? _]. lia.
      - destruct (Hd a) as [_ Ht]; [by eapply list_elem_of_lookup_2|done|]. by rewrite Ht in Hfr. }
    apply Hlk in Hi as [[-> ->]|[_ Hi]]; apply Hlk in Hj as [[-> Hba]|[_ Hj]]; try done.
    + by apply Hno in Hj.
    + subst b. by apply Hno in Hi.
    + by eapply Hinj.
Qed.

Lemma indirect_slots_same c c' e e' :
  ie_indirect e' = ie_indirect e ->
  (ie_indirect e <> 0 -> bk_view c' (ie_indirect e) = bk_view c (ie_indirect e)) ->
  indirect_slots c' e' = indirect_slots c e.
Proof.
  intros He Hv. unfold indirect_slots. rewrite He. destruct (Z.eqb_spec (ie_indirect e) 0); [done|].
  by rewrite Hv.
Qed.

Lemma map_ok_same c c' e :
  map_ok c e -> slots c' e = slots c e -> (forall n, bk_alloced c n = true -> bk_alloced c' n = true) ->
  map_ok c' e.
Proof.
  intros [Hwf Hd Hinj] Hs Ha. split; [done| |]; rewrite Hs; [|done].
  intros a Hin Ha0. destruct (Hd a Hin Ha0). auto.
Qed.

(** The indirect block of a file is not touched by an allocation. *)
Lemma new_block_view c c' ctx ns k f a n :
  new_block c c' ctx ns k f a -> bk_alloced c n = true -> ~ is_bitmap sb n -> bk_view c' n = bk_view c n.
Proof.
  intros (_ & _ & _ & _ & (_ & Hf & _ & _ & Hv & _) & _) Hn Hb. apply Hv; [|done]. intros ->. by rewrite Hf in Hn.
Qed.

Lemma new_block_alloced c c' ctx ns k f a n :
  new_block c c' ctx ns k f a -> bk_alloced c n = true -> bk_alloced c' n = true.
Proof. intros (_ & _ & _ & _ & (_ & _ & Ha & _) & _) Hn. rewrite Ha. by case_decide. Qed.

Lemma map_ok_indirect c e :
  map_ok c e -> ie_indirect e <> 0 ->
  is_data (ie_indirect e) /\ bk_alloced c (ie_indirect e) = true /\ ~ is_bitmap sb (ie_indirect e).
Proof using Hlay.
  intros Hm H0. destruct (mo_data _ _ Hm (ie_indirect e)) as [? ?]; [apply indirect_elem|done|].
  split_and!; [done|done|by apply data_not_bitmap].
Qed.

(** ** [inode_map] *)
Lemma inode_group_range ino : 1 <= ino <= num_inodes sb -> 0 <= inode_group ino < num_groups sb.
Proof using Hlay.
  intros Hino. rewrite (il_n _ Hlay) in Hino. rewrite (il_groups _ Hlay).
  unfold inode_group, NINODES, NGROUPS in *. change (200 / 10) with 20. rewrite u32_id by lia.
  Z.to_euclidean_division_equations. lia.
Qed.

Lemma calm_slots c c' e : calm sb B c c' -> slots c' e = slots c e.
Proof. intros (_ & [Hv _] & _). unfold slots. f_equal. f_equal. by apply indirect_slots_same. Qed.

Lemma block_at_same c c' e e' idx : slots c' e' = slots c e -> block_at c' e' idx = block_at c e idx.
Proof. unfold block_at. by intros ->. Qed.

(** A block that is there: nothing changes. *)
Lemma inode_map_existing s ctx ip i offset :
  quiet sb B (is_cache s) -> is_objs s !! ip = Some i -> map_ok (is_cache s) (i_entry i) ->
  0 <= offset < INODE_MAX_BYTES -> block_at (is_cache s) (i_entry i) (offset / BLOCK_SIZE) <> 0 ->
  wp (inode_map sb B ctx ip offset) (fun r s' =>
    r = (block_at (is_cache s) (i_entry i) (offset / BLOCK_SIZE), false) /\
    exists c', s' = set_is_cache c' s /\ calm sb B (is_cache s) c') s.
Proof.
  intros Hq Hip Hm Ho Hne. assert (length (ie_addrs (i_entry i)) = 12%nat) as Hl by apply Hm. unfold inode_map, get_inode.
  apply wp_bind, wp_bind, wp_gets. rewrite Hip. apply wp_ret.
  set (e := i_entry i) in *. set (idx := offset / BLOCK_SIZE) in *.
  assert (0 <= idx < 140) as Hidx.
  { unfold idx, INODE_MAX_BYTES, INODE_MAX_BLOCKS, INODE_NUM_INDIRECT, INODE_NUM_DIRECT, BLOCK_SIZE in *.
    change (512 / 4) with 128 in *. Z.to_euclidean_division_equations. lia. }
  clearbody idx. unfold INODE_NUM_DIRECT. destruct (Z.ltb_spec idx 12) as [Hd|Hd].
  - rewrite block_at_direct in * by (done || lia).
    rewrite (proj2 (Z.eqb_neq _ 0)) by done. apply wp_ret. split; [done|]. exists (is_cache s).
    split; [by destruct s|by apply calm_refl].
  - rewrite block_at_indirect in * by (done || lia). unfold indirect_slots in *.
    rewrite (proj2 (Z.ltb_lt (idx - 12) INODE_NUM_INDIRECT)) by (change INODE_NUM_INDIRECT with 128; lia).
    apply wp_bind, wp_assert; [done|].
    destruct (Z.eqb_spec (ie_indirect e) 0) as [H0|H0].
    { exfalso. apply Hne. rewrite lookup_total_replicate_2; [done|lia]. }
    apply wp_bind, wp_ret. cbn [fst snd].
    apply (wp_peek sb B s); [done|by apply data_in_groups, (map_ok_indirect _ _ Hm)|]. intros p c Hok [Hsv Hsa] Hh Hdy Hrc.
    apply wp_bind, (wp_data sb B _ p (ie_indirect e)); [done|simpl; by rewrite Hh, lookup_singleton_eq|].
    simpl is_cache. rewrite Hsv. unfold get_addrs. rewrite (proj2 (Z.eqb_neq _ 0)) by done.
    apply (wp_let_go sb B s c p (ie_indirect e)); [done|done|done|].
    intros c' (? & [? ?] & ?). apply wp_ret. split; [done|]. exists c'. split; [done|].
    split_and!; [done| |auto]. split; intros m; [by rewrite H1|by rewrite H2].
Qed.

(** The attributes of an inode other than its addresses. *)
Definition same_attrs e e' : Prop :=
  ie_type e' = ie_type e /\ ie_major e' = ie_major e /\ ie_minor e' = ie_minor e /\
  ie_num_links e' = ie_num_links e /\ ie_num_bytes e' = ie_num_bytes e.

(** Block [idx] of the file is now [b]; other blocks in use are where they
    were with the content they had, the indirect block apart. *)
Record map_step c e c' e' (idx b : Z) : Prop := {
  ms_map : map_ok c' e';
  ms_attr : same_attrs e e';
  ms_at : block_at c' e' idx = b;
  ms_ne : b <> 0;
  ms_other : forall j, 0 <= j < 140 -> j <> idx -> block_at c' e' j = block_at c e j;
  ms_view : forall n, bk_alloced c n = true -> ~ is_bitmap sb n -> n <> ie_indirect e -> bk_view c' n = bk_view c n;
  ms_alloced : forall n, bk_alloced c n = true -> bk_alloced c' n = true;
  ms_slots : forall n, n ∈ slots c' e' -> n ∈ slots c e \/ bk_alloced c n = false
}.

(** Setting the slot of block [idx] of a file to a fresh block. *)
Lemma map_step_insert c e c' e' idx a :
  map_ok c e -> 0 <= idx < 140 -> InodeEntry_wf e' -> same_attrs e e' ->
  is_data a -> bk_alloced c a = false ->
  (forall n, bk_alloced c' n = if decide (n = a) then true else bk_alloced c n) ->
  (forall n, bk_alloced c n = true -> ~ is_bitmap sb n -> n <> ie_indirect e -> bk_view c' n = bk_view c n) ->
  slots c' e' = <[slot_of idx := a]> (slots c e) -> map_step c e c' e' idx a.
Proof using Hlay.
  intros Hm Hidx Hwf Hat Hda Hfr Hal Hv Hsl.
  assert (slot_of idx < length (slots c e))%nat as Hlt by (rewrite length_slots by apply Hm; by apply slot_of_lt).
  assert (forall n, bk_alloced c n = true -> bk_alloced c' n = true) as Hal'
    by (intros n Hn; rewrite Hal; by case_decide).
  assert (forall j, 0 <= j < 140 -> block_at c' e' j = if decide (j = idx) then a else block_at c e j) as Hat'.
  { intros j Hj. unfold block_at. rewrite Hsl. case_decide as Hji.
    - subst j. by apply list_lookup_total_insert_eq.
    - apply list_lookup_total_insert_ne. intros Heq. apply Hji. symmetry. apply slot_of_inj; [lia|lia|done]. }
  split; try done.
  - eapply (map_ok_insert c c' e e' (slot_of idx) a); try done. by rewrite Hal, decide_True.
  - by rewrite Hat', decide_True.
  - pose proof (data_range a Hda). lia.
  - intros j Hj Hne. by rewrite Hat', decide_False.
  - intros n Hin. rewrite Hsl in Hin. apply list_elem_of_lookup in Hin as [j Hj].
    destruct (decide (j = slot_of idx)) as [->|Hjs].
    + rewrite list_lookup_insert_eq in Hj by done. injection Hj as <-. by right.
    + rewrite list_lookup_insert_ne in Hj by done. left. by eapply list_elem_of_lookup_2.
Qed.

(** The state of the inode layer after the entry of [ip] became [e'] and the cache [c']. *)
Definition with_entry s ip i c' e' : istate St :=
  set_is_objs (<[ip := set_i_entry e' i]> (is_objs s)) (set_is_cache c' s).

Lemma with_entry_same s ip i c' :
  is_objs s !! ip = Some i -> set_is_cache c' s = with_entry s ip i c' (i_entry i).
Proof.
  intros Hip. unfold with_entry. destruct s, i. simpl in *.
  unfold set_is_objs, set_is_cache, set_i_entry; simpl. by rewrite insert_id.
Qed.

Lemma wp_upd_entry s ip i f (Q : unit -> istate St -> Prop) :
  is_objs s !! ip = Some i -> Q tt (with_entry s ip i (is_cache s) (f (i_entry i))) -> wp (upd_entry ip f) Q s.
Proof.
  intros Hip HQ. unfold upd_entry, upd_inode, get_inode, put_inode.
  apply wp_bind, wp_bind, wp_gets. rewrite Hip. apply wp_ret, wp_modify. by destruct s.
Qed.

Lemma held_ok_quiet c : quiet sb B c -> bk_held_ok c.
Proof. intros [_ Hh] p n Hp. by rewrite Hh, lookup_empty in Hp. Qed.

Lemma set_addrs_wf e k a :
  InodeEntry_wf e -> 0 <= a < 2 ^ 32 -> InodeEntry_wf (set_ie_addrs (<[k := a]> (ie_addrs e)) e).
Proof.
  intros (? & ? & ? & ? & ? & Hl & Hf & ?) Ha. repeat split; simpl; try tauto.
  - by rewrite length_insert. - by apply Forall_insert.
Qed.

Lemma set_indirect_wf e a : InodeEntry_wf e -> 0 <= a < 2 ^ 32 -> InodeEntry_wf (set_ie_indirect a e).
Proof. intros (? & ? & ? & ? & ? & ? & ? & ?) Ha. repeat split; simpl; tauto. Qed.

(** A direct block that is not there. *)
Lemma inode_map_new_direct s ctx ip i offset ns k f :
  quiet sb B (is_cache s) -> is_objs s !! ip = Some i -> map_ok (is_cache s) (i_entry i) ->
  1 <= i_inode_no i <= num_inodes sb -> 0 <= offset / BLOCK_SIZE < 12 ->
  block_at (is_cache s) (i_entry i) (offset / BLOCK_SIZE) = 0 ->
  bk_room (is_cache s) ctx ns (2 + k) -> 0 <= k -> has_free (is_cache s) (S f) ->
  wp (inode_map sb B ctx ip offset) (fun r s' => exists c' e',
    s' = with_entry s ip i c' e' /\ quiet sb B c' /\ r.2 = true /\
    map_step (is_cache s) (i_entry i) c' e' (offset / BLOCK_SIZE) r.1 /\
    ie_indirect e' = ie_indirect (i_entry i) /\
    bk_room c' ctx (r.1 :: ns) k /\ has_free c' f) s.
Proof using Hlay.
  intros Hq Hip Hm Hno Hidx H0 Hr Hk Hf. unfold inode_map, get_inode.
  apply wp_bind, wp_bind, wp_gets. rewrite Hip. apply wp_ret.
  set (e := i_entry i) in *. set (idx := offset / BLOCK_SIZE) in *. clearbody idx.
  assert (length (ie_addrs e) = 12%nat) as Hl by apply Hm.
  unfold INODE_NUM_DIRECT. rewrite (proj2 (Z.ltb_lt idx 12)) by lia.
  pose proof H0 as H0'. rewrite block_at_direct in H0' by (done || lia). rewrite H0'. simpl (0 =? 0). cbv iota.
  apply wp_bind. eapply wp_mono;
    [apply (alloc_near_ok s ctx _ ns k f); [apply Hq|by apply held_ok_quiet|by apply inode_group_range|done|done|done]|].
  intros a s' (c' & -> & Hn). apply wp_bind, (wp_upd_entry _ ip i); [done|]. apply wp_ret. cbn [fst snd].
  pose proof Hn as (Hok' & Hh' & _ & Hda & Ha & Hf'). pose proof (data_range a Hda).
  exists c', (set_ie_addrs (<[Z.to_nat idx := a]> (ie_addrs e)) e). split_and!; try done.
  - split; [done|]. rewrite Hh'. apply Hq.
  - eapply map_step_insert; try done; [lia|apply set_addrs_wf; [apply Hm|lia]|apply Ha|apply Ha| |].
    { intros n Hn1 Hn2 _. by apply (new_block_view _ _ _ _ _ _ _ _ Hn). }
    unfold slots. simpl ie_addrs. simpl ie_indirect.
    rewrite (indirect_slots_same (is_cache s) c' e); [|done|].
    + unfold slot_of. rewrite (proj2 (Z.ltb_lt idx 12)) by lia. rewrite insert_app_l by lia. done.
    + intros Hne. destruct (map_ok_indirect _ _ Hm Hne) as (_ & Hal & Hb).
      by apply (new_block_view _ _ _ _ _ _ _ _ Hn).
  - apply Ha.
Qed.

Lemma map_ok_wf c e : map_ok c e -> length (ie_addrs e) = 12%nat.
Proof. intros Hm. apply Hm. Qed.

Lemma block_at_alloced c e idx :
  map_ok c e -> 0 <= idx < 140 -> block_at c e idx <> 0 ->
  is_data (block_at c e idx) /\ bk_alloced c (block_at c e idx) = true /\ ~ is_bitmap sb (block_at c e idx).
Proof using Hlay.
  intros Hm Hidx Hne. destruct (mo_data _ _ Hm (block_at c e idx)) as [Hd Ha]; [|done|].
  - apply block_at_elem; [by eapply map_ok_wf|done].
  - split_and!; [done|done|by apply data_not_bitmap].
Qed.

(** The indirect block of the file, made if it is not there. *)
Definition ensure_indirect (ctx : option nat) (ip : nat) (gno : Z) e : M (istate St) (Z * bool) :=
  if ie_indirect e =? 0 then
    a ← alloc_near B ctx gno; upd_entry ip (set_ie_indirect a);; mret (a, true)
  else mret (ie_indirect e, false).

Record has_indirect c e c' e' : Prop := {
  hi_map : map_ok c' e';
  hi_attr : same_attrs e e';
  hi_ne : ie_indirect e' <> 0;
  hi_ind : ie_indirect e' = ie_indirect e \/ bk_alloced c (ie_indirect e') = false;
  hi_at : forall j, 0 <= j < 140 -> block_at c' e' j = block_at c e j;
  hi_view : forall n, bk_alloced c n = true -> ~ is_bitmap sb n -> bk_view c' n = bk_view c n;
  hi_alloced : forall n, bk_alloced c n = true -> bk_alloced c' n = true;
  hi_slots : forall n, n ∈ slots c' e' -> n ∈ slots c e \/ bk_alloced c n = false
}.

Lemma ensure_indirect_ok s ctx ip i gno ns k f :
  quiet sb B (is_cache s) -> is_objs s !! ip = Some i -> map_ok (is_cache s) (i_entry i) ->
  0 <= gno < num_groups sb ->
  bk_room (is_cache s) ctx ns (ind_cost ns (i_entry i) + k) -> 0 <= k -> has_free (is_cache s) (S f) ->
  wp (ensure_indirect ctx ip gno (i_entry i)) (fun r s' => exists c' e',
    s' = with_entry s ip i c' e' /\ quiet sb B c' /\ r.1 = ie_indirect e' /\
    has_indirect (is_cache s) (i_entry i) c' e' /\
    bk_room c' ctx (r.1 :: ns) k /\ has_free c' f) s.
Proof using Hlay.
  intros Hq Hip Hm Hg Hr Hk Hf. unfold ensure_indirect. set (e := i_entry i) in *.
  assert (length (ie_addrs e) = 12%nat) as Hl by apply Hm.
  destruct (Z.eqb_spec (ie_indirect e) 0) as [H0|H0].
  - assert (ind_cost ns e = 2) as Hic by (unfold ind_cost; rewrite bool_decide_eq_false_2; tauto).
    rewrite Hic in Hr. apply wp_bind. eapply wp_mono;
      [apply (alloc_near_ok s ctx _ ns k f); [apply Hq|by apply held_ok_quiet|done|done|done|done]|].
    intros a s' (c' & -> & Hn). apply wp_bind, (wp_upd_entry _ ip i); [done|]. apply wp_ret. cbn [fst snd].
    pose proof Hn as (Hok' & Hh' & _ & Hda & (Hra & Hfr & Hal & Hz & _ & Hr') & Hf'). pose proof (data_range a Hda).
    assert (slots c' (set_ie_indirect a e) = <[12%nat := a]> (slots (is_cache s) e)) as Hsl.
    { unfold slots. simpl. rewrite insert_app_r_alt, Hl by lia. simpl. do 2 f_equal.
      unfold indirect_slots. simpl. rewrite H0. rewrite (proj2 (Z.eqb_neq a 0)) by lia. rewrite Hz.
      apply decode_zero_block. }
    exists c', (set_ie_indirect a e). split_and!; try done; [split; [done|]; rewrite Hh'; apply Hq|].
    split; try done; simpl; [|lia|by right| | | |].
    + eapply (map_ok_insert (is_cache s) c' e _ 12%nat a); try done.
      * rewrite length_slots; [lia|done]. * apply set_indirect_wf; [apply Hm|lia].
      * intros n. by apply (new_block_alloced _ _ _ _ _ _ _ _ Hn). * by rewrite Hal, decide_True.
    + intros j Hj. unfold block_at. rewrite Hsl. apply list_lookup_total_insert_ne.
      pose proof (slot_of_indirect j). lia.
    + intros n Ha Hb. by apply (new_block_view _ _ _ _ _ _ _ _ Hn).
    + intros n. by apply (new_block_alloced _ _ _ _ _ _ _ _ Hn).
    + intros n Hin. rewrite Hsl in Hin. apply list_elem_of_lookup in Hin as [j Hj].
      destruct (decide (j = 12%nat)) as [->|Hjs].
      * rewrite list_lookup_insert_eq in Hj by (rewrite length_slots; [lia|done]). injection Hj as <-. by right.
      * rewrite list_lookup_insert_ne in Hj by done. left. by eapply list_elem_of_lookup_2.
  - apply wp_ret. exists (is_cache s), e. cbn [fst snd]. split_and!; try done.
    + unfold e. rewrite <- (with_entry_same s ip i (is_cache s)); [by destruct s|done].
    + split; try done; by left.
    + unfold ind_cost in Hr. case_bool_decide as Hin.
      * apply (bk_room_sub _ _ ns); [done|]. intros n [->|?]%elem_of_cons; [apply Hin|done].
      * apply bk_room_weaken; [by apply data_in_groups, (map_ok_indirect _ _ Hm)|]. by apply (room_less _ _ _ (2 + k)); [|lia].
    + destruct Hf as (l & ? & ? & ?). exists l. split; [done|]. split; [lia|done].
Qed.

(** The counters, and the group the spill picks. *)
Lemma wp_used_block s (Q : list Z -> istate St -> Prop) :
  bk_ok (is_cache s) ->
  (forall ub, (forall g, 0 <= g < num_groups sb ->
     (ub !!! Z.to_nat g = num_datablocks_per_group sb <->
      forall n, in_group sb g n -> bk_alloced (is_cache s) n = true)) -> Q ub s) ->
  wp (bc (bc_used_block B)) Q s.
Proof using Hlay.
  intros Hok HQ. apply wp_lift. assert (0 <= 0 < num_groups sb) as H0 by (rewrite (il_groups _ Hlay); done).
  destruct (proj1 (wp_ok _ _ _) (used_block_law (is_cache s) 0 Hok H0)) as (ub & c & Hub & -> & _).
  unfold wp. rewrite Hub. replace (set_is_cache (is_cache s) s) with s by (by destruct s). apply HQ.
  intros g Hg. pose proof (used_block_law (is_cache s) g Hok Hg) as Hw. unfold wp in Hw. rewrite Hub in Hw. apply Hw.
Qed.

Lemma spill_finds c ub idx f :
  has_free c (S f) ->
  (forall g, 0 <= g < num_groups sb ->
     (ub !!! Z.to_nat g = num_datablocks_per_group sb <-> forall n, in_group sb g n -> bk_alloced c n = true)) ->
  exists g, spill_group sb spill_fuel ub (spill_start idx) 2 = Some g /\ 0 <= g < num_groups sb /\
    ~ (forall n, in_group sb g n -> bk_alloced c n = true).
Proof using Hlay.
  intros Hf Hub. destruct (has_free_ex c f Hf) as (g0 & n0 & Hg0 & Hin0 & Hfr0).
  pose proof (spill_start_range idx) as Hr.
  assert (ub !!! Z.to_nat g0 <> num_datablocks_per_group sb) as Hne.
  { intros Heq. rewrite Hub in Heq by done. rewrite Heq in Hfr0; done. }
  rewrite (il_groups _ Hlay) in *.
  destruct (spill_group sb spill_fuel ub (spill_start idx) 2) as [g|] eqn:E.
  - apply spill_result in E as [Hg Hnf]; [|done|lia]. exists g. split_and!; try (done || lia).
    by rewrite <- Hub.
  - exfalso. revert E. apply (spill_wrap _ _ _ _ _ g0); try done. unfold spill_fuel, NGROUPS in *. lia.
Qed.

(** The rest of [inode_map] for a block of the indirect block. *)
Definition map_indirect (ctx : option nat) (index : Z) (r : Z * bool) : M (istate St) (Z * bool) :=
  block ← bc (bc_acquire B r.1);
  data ← bc (bc_data B block);
  let addr := get_addrs data !!! Z.to_nat index in
  if addr =? 0 then
    ub ← bc (bc_used_block B);
    tgno ← match spill_group sb spill_fuel ub (spill_start index) 2 with
           | Some g => mret g
           | None => nofuel
           end;
    a ← bc (bc_allocg B ctx (u32 tgno));
    bc (bc_store B block (put_addrs (<[Z.to_nat index := u32 a]> (get_addrs data))));;
    bc (bc_sync B ctx block);;
    bc (bc_release B block);;
    mret (u32 a, true)
  else
    bc (bc_release B block);;
    mret (addr, r.2).

Lemma map_indirect_new s ctx e idx m0 ns k f :
  quiet sb B (is_cache s) -> map_ok (is_cache s) e -> ie_indirect e <> 0 -> 12 <= idx < 140 ->
  block_at (is_cache s) e idx = 0 -> ie_indirect e ∈ ns ->
  bk_room (is_cache s) ctx ns (2 + k) -> 0 <= k -> has_free (is_cache s) (S f) ->
  wp (map_indirect ctx (idx - 12) (ie_indirect e, m0)) (fun r s' => exists c',
    s' = set_is_cache c' s /\ quiet sb B c' /\ r.2 = true /\
    map_step (is_cache s) e c' e idx r.1 /\ bk_room c' ctx (r.1 :: ns) k /\ has_free c' f) s.
Proof using Hlay.
  intros Hq Hm Hi0 Hidx H0 Hin Hr Hk Hf. unfold map_indirect. cbn [fst snd].
  assert (length (ie_addrs e) = 12%nat) as Hl by apply Hm.
  destruct (map_ok_indirect _ _ Hm Hi0) as (Hid & Hia & Hib). pose proof (data_range _ Hid) as Hir.
  set (d := bk_view (is_cache s) (ie_indirect e)) in *.
  apply (wp_peek sb B s); [done|by apply data_in_groups|]. intros p c Hok [Hsv Hsa] Hh Hdy Hrc.
  apply wp_bind, (wp_data sb B _ p (ie_indirect e)); [done|simpl; by rewrite Hh, lookup_singleton_eq|].
  simpl is_cache. rewrite Hsv. fold d.
  rewrite block_at_indirect in H0 by (done || lia). unfold indirect_slots in H0.
  rewrite (proj2 (Z.eqb_neq _ 0)) in H0 by done. fold d in H0. unfold get_addrs. rewrite H0. simpl (0 =? 0). cbv iota.
  apply wp_bind, wp_used_block; [done|]. simpl is_cache. intros ub Hub.
  assert (has_free c (S f)) as Hfc by (by eapply has_free_same).
  destruct (spill_finds c ub (idx - 12) f Hfc Hub) as (g & -> & Hg & Hnf).
  apply wp_bind, wp_ret, wp_bind.
  rewrite u32_id by (rewrite (il_groups _ Hlay) in Hg; unfold NGROUPS in Hg; lia).
  eapply wp_mono; [apply (alloc_in_group_ok (set_is_cache c s) ctx g ns k f); simpl; try done|].
  { intros q n Hqn. rewrite Hh in Hqn. apply lookup_singleton_Some in Hqn as [<- <-]. by rewrite Hsa. }
  { by apply Hrc. }
  intros a s' (c2 & -> & [(-> & _ & _ & _ & _ & Hall & _)|Hn]); [done|].
  pose proof Hn as (Hok2 & Hh2 & Hd2 & Hda & (Hra & Hfr & Hal & Hz & Hv2 & Hr2) & Hf2). simpl in *.
  pose proof (data_range a Hda) as Har. rewrite (u32_id a) by lia. rewrite set_set_cache.
  destruct (put_addrs_ok d (Z.to_nat (idx - 12)) a) as [Hpl Hpb].
  eapply wp_write_back with (ns := a :: ns) (k := k) (n := ie_indirect e); try done.
  { by rewrite Hh2, Hh. } { by right. } { lia. }
  intros c' Hq' Hv' Ha' Hr'. apply wp_ret. exists c'. cbn [fst snd]. split; [done|]. split_and!; try done; try by apply Hq'.
  - apply map_step_insert; try done.
    + lia.
    + apply Hm.
    + by rewrite <- Hsa.
    + intros n. rewrite Ha', Hal. case_decide; [done|apply Hsa].
    + intros n Hna Hnb Hni. rewrite Hv', decide_False by done.
      rewrite Hv2, Hsv; [done| |done]. intros ->. by rewrite Hsa, Hna in Hfr.
    + unfold slots. rewrite insert_app_r_alt by (rewrite Hl; unfold slot_of; destruct (Z.ltb_spec idx 12); lia).
      f_equal. unfold slot_of. rewrite (proj2 (Z.ltb_ge idx 12)), Hl by lia.
      replace (Z.to_nat (idx + 1) - 12)%nat with (S (Z.to_nat (idx - 12))) by lia. simpl. f_equal.
      unfold indirect_slots. rewrite (proj2 (Z.eqb_neq _ 0)) by done. rewrite Hv', decide_True by done.
      fold d. apply (decode_put_addrs d); [apply bk_view_bytes, Hq|lia|apply bk_view_len, Hq].
  - eapply has_free_same; [exact Hf2|]. done.
Qed.

(** Composition: the indirect block, then the block. *)
Lemma map_step_after c e c1 e1 c' idx b :
  has_indirect c e c1 e1 -> 0 <= idx < 140 -> map_step c1 e1 c' e1 idx b -> map_step c e c' e1 idx b.
Proof.
  intros [Hm1 Hat Hne Hi1 Hba Hv1 Ha1 Hs1] Hidx [Hm2 _ Hb Hb0 Hoth Hv2 Ha2 Hs2]. split; try done.
  - intros j Hj Hji. by rewrite Hoth, Hba.
  - intros n Hn Hnb Hn'. rewrite Hv2, Hv1; auto.
    destruct Hi1 as [->|Hfr]; [done|]. intros ->. by rewrite Hn in Hfr.
  - auto.
  - intros n [Hin|Hfr]%Hs2; [by apply Hs1|]. right.
    destruct (bk_alloced c n) eqn:E; [|done]. by rewrite (Ha1 n E) in Hfr.
Qed.

(** A block that is not there: it is allocated. *)
Lemma inode_map_new s ctx ip i offset ns k f :
  quiet sb B (is_cache s) -> is_objs s !! ip = Some i -> map_ok (is_cache s) (i_entry i) ->
  1 <= i_inode_no i <= num_inodes sb -> 0 <= offset / BLOCK_SIZE < 140 ->
  block_at (is_cache s) (i_entry i) (offset / BLOCK_SIZE) = 0 ->
  bk_room (is_cache s) ctx ns (2 + ind_cost ns (i_entry i) + k) -> 0 <= k -> has_free (is_cache s) (S (S f)) ->
  wp (inode_map sb B ctx ip offset) (fun r s' => exists c' e' ns',
    s' = with_entry s ip i c' e' /\ quiet sb B c' /\ r.2 = true /\
    map_step (is_cache s) (i_entry i) c' e' (offset / BLOCK_SIZE) r.1 /\
    (forall n, n ∈ ns -> n ∈ ns') /\ r.1 ∈ ns' /\
    bk_room c' ctx ns' (ind_cost ns' e' + k) /\ has_free c' f) s.
Proof using Hlay.
  intros Hq Hip Hm Hno Hidx H0 Hr Hk Hf. pose proof (ind_cost_range ns (i_entry i)) as Hic.
  destruct (decide (offset / BLOCK_SIZE < 12)) as [Hd|Hd].
  - eapply wp_mono; [apply (inode_map_new_direct s ctx ip i offset ns (ind_cost ns (i_entry i) + k) (S f)); try done;
      try lia; by replace (2 + (ind_cost ns (i_entry i) + k)) with (2 + ind_cost ns (i_entry i) + k) by lia|].
    intros r s' (c' & e' & -> & Hq' & Hr2 & Hms & Hie & Hroom & Hf').
    exists c', e', (r.1 :: ns). split_and!; try done.
    + intros n ?. by right. + by left.
    + apply (room_less _ _ _ (ind_cost ns (i_entry i) + k)); [done|].
      pose proof (ind_cost_range (r.1 :: ns) e').
      assert (ind_cost (r.1 :: ns) e' <= ind_cost ns (i_entry i)); [|lia].
      transitivity (ind_cost ns e'); [apply ind_cost_sub; intros n ?; by right|].
      unfold ind_cost. by rewrite Hie.
    + destruct Hf' as (l & ? & ? & ?). exists l. split; [done|]. split; [lia|done].
  - unfold inode_map, get_inode. apply wp_bind, wp_bind, wp_gets. rewrite Hip. apply wp_ret.
    unfold INODE_NUM_DIRECT. rewrite (proj2 (Z.ltb_ge _ 12)) by lia.
    rewrite (proj2 (Z.ltb_lt (offset / BLOCK_SIZE - 12) INODE_NUM_INDIRECT)) by (change INODE_NUM_INDIRECT with 128; lia).
    apply wp_bind, wp_assert; [done|]. set (idx := offset / BLOCK_SIZE) in *. clearbody idx.
    apply wp_bind. fold (ensure_indirect ctx ip (inode_group (i_inode_no i)) (i_entry i)).
    eapply wp_mono; [apply (ensure_indirect_ok s ctx ip i _ ns (2 + k) (S f)); try done; try lia;
      [by apply inode_group_range|
       by replace (ind_cost ns (i_entry i) + (2 + k)) with (2 + ind_cost ns (i_entry i) + k) by lia]|].
    intros [ind m0] s' (c1 & e1 & -> & Hq1 & Hri & Hhi & Hroom1 & Hf1). simpl in Hri. subst ind.
    change (wp (map_indirect ctx (idx - 12) (ie_indirect e1, m0)) (fun r s' => exists c' e' ns',
      s' = with_entry s ip i c' e' /\ quiet sb B c' /\ r.2 = true /\
      map_step (is_cache s) (i_entry i) c' e' idx r.1 /\
      (forall n, n ∈ ns -> n ∈ ns') /\ r.1 ∈ ns' /\
      bk_room c' ctx ns' (ind_cost ns' e' + k) /\ has_free c' f) (with_entry s ip i c1 e1)).
    eapply wp_mono; [apply (map_indirect_new (with_entry s ip i c1 e1) ctx e1 idx m0 (ie_indirect e1 :: ns) k f); try done;
      simpl; try apply Hhi; try lia|].
    + rewrite (hi_at _ _ _ _ Hhi) by lia. done. + by left.
    + intros r s' (c' & -> & Hq' & Hr2 & Hms & Hroom' & Hf'). simpl in *.
      exists c', e1, (r.1 :: ie_indirect e1 :: ns). split_and!; try done; try apply Hq'.
      * by eapply map_step_after.
      * intros n Hn. by do 2 right. * by left.
      * rewrite ind_cost_in; [by apply Hroom'|apply Hhi|]. right. by left.
Qed.

(** ** Content *)

(** The byte at offset [o] of the file, and the whole content. *)
Definition byte_of c e (o : Z) : Z := bk_view c (block_at c e (o / BLOCK_SIZE)) !!! Z.to_nat (o mod BLOCK_SIZE).
Definition content c e : list Z := byte_of c e <$> seqZ 0 (ie_num_bytes e).

(** The file of the inode in memory at [ip], which is loaded and not stale:
    its entry on the disk is the one in memory, every block below its size is
    there, and no block is held. *)
Record file_ok s ip i : Prop := {
  fo_quiet : quiet sb B (is_cache s);
  fo_obj : is_objs s !! ip = Some i;
  fo_valid : i_valid i = true;
  fo_no : 1 <= i_inode_no i <= num_inodes sb;
  fo_disk : disk_inode sb B (is_cache s) (i_inode_no i) = i_entry i;
  fo_map : map_ok (is_cache s) (i_entry i);
  fo_size : ie_num_bytes (i_entry i) <= INODE_MAX_BYTES;
  fo_full : forall o, 0 <= o < ie_num_bytes (i_entry i) ->
              block_at (is_cache s) (i_entry i) (o / BLOCK_SIZE) <> 0;
  fo_type : ie_type (i_entry i) <> INODE_DEVICE
}.

Lemma INODE_MAX_BYTES_eq : INODE_MAX_BYTES = 71680.
Proof. reflexivity. Qed.

Lemma index_range o : 0 <= o < INODE_MAX_BYTES -> 0 <= o / BLOCK_SIZE < 140.
Proof. rewrite INODE_MAX_BYTES_eq. unfold BLOCK_SIZE. intros. Z.to_euclidean_division_equations. lia. Qed.

Lemma file_block_in_groups s ip i o :
  file_ok s ip i -> 0 <= o < ie_num_bytes (i_entry i) ->
  in_groups sb (block_at (is_cache s) (i_entry i) (o / BLOCK_SIZE)).
Proof using Hlay.
  intros Hf Ho. apply data_in_groups, (block_at_alloced _ _ _ (fo_map _ _ _ Hf)).
  - apply index_range. pose proof (fo_size _ _ _ Hf). lia.
  - by apply (fo_full _ _ _ Hf).
Qed.

Lemma length_content c e : length (content c e) = Z.to_nat (ie_num_bytes e).
Proof. unfold content. by rewrite length_fmap, length_seqZ. Qed.

(** A file whose blocks kept their content. *)
Lemma frame_slots c c' e :
  (forall n, n ∈ slots c e -> n <> 0 -> bk_view c' n = bk_view c n) -> slots c' e = slots c e.
Proof.
  intros Hv. unfold slots. do 2 f_equal. apply indirect_slots_same; [done|]. intros H0. apply Hv; [apply indirect_elem|done].
Qed.

Lemma frame_content c c' e :
  map_ok c e -> ie_num_bytes e <= INODE_MAX_BYTES ->
  (forall o, 0 <= o < ie_num_bytes e -> block_at c e (o / BLOCK_SIZE) <> 0) ->
  (forall n, n ∈ slots c e -> n <> 0 -> bk_view c' n = bk_view c n) -> content c' e = content c e.
Proof.
  intros Hm Hsz Hfull Hv. unfold content. apply list_fmap_ext. intros k o Hk. apply lookup_seqZ in Hk as [-> Hk].
  unfold byte_of. rewrite (block_at_same c c' e e _ (frame_slots c c' e Hv)). rewrite Hv; [done| |by apply Hfull; lia].
  apply block_at_elem; [apply Hm|]. apply index_range. lia.
Qed.

Lemma calm_byte_of c c' e o : calm sb B c c' -> byte_of c' e o = byte_of c e o.
Proof.
  intros Hc. unfold byte_of, block_at. rewrite (calm_slots c c' e Hc). by rewrite (proj1 (proj1 (proj2 Hc))).
Qed.

Lemma calm_content c c' e : calm sb B c c' -> content c' e = content c e.
Proof. intros Hc. unfold content. apply list_fmap_ext. intros _ o _. by apply calm_byte_of. Qed.

(** A run of bytes within one block. *)
Lemma slice_bytes c e b step :
  quiet sb B c -> 0 <= b -> 0 <= step -> b mod BLOCK_SIZE + step <= BLOCK_SIZE ->
  slice (Z.to_nat (b mod BLOCK_SIZE)) (Z.to_nat step) (bk_view c (block_at c e (b / BLOCK_SIZE))) =
  byte_of c e <$> seqZ b step.
Proof.
  intros [Hok _] Hb Hs Hm. pose proof (Z.mod_pos_bound b BLOCK_SIZE) as Hmb. unfold BLOCK_SIZE in *.
  pose proof (bk_view_len c (block_at c e (b / 512)) Hok) as Hlen. unfold bsize in Hlen.
  apply list_eq. intros j. rewrite lookup_slice, list_lookup_fmap. case_decide as Hj.
  - rewrite lookup_seqZ_lt by lia. simpl. unfold byte_of, BLOCK_SIZE.
    assert ((b + Z.of_nat j) / 512 = b / 512 /\ (b + Z.of_nat j) mod 512 = b mod 512 + Z.of_nat j) as [-> ->].
    { Z.to_euclidean_division_equations. lia. }
    replace (Z.to_nat (b mod 512 + Z.of_nat j)) with (Z.to_nat (b mod 512) + j)%nat by lia.
    apply list_lookup_lookup_total_lt. lia.
  - by rewrite lookup_seqZ_ge by lia.
Qed.

Lemma seqZ_split_fmap (f : Z -> Z) a n m :
  0 <= n -> 0 <= m -> f <$> seqZ a (n + m) = (f <$> seqZ a n) ++ (f <$> seqZ (a + n) m).
Proof. intros. rewrite seqZ_app by lia. by rewrite fmap_app. Qed.

(** The amount copied in one turn of the loops. *)
Lemma step_range b en :
  0 <= b < en -> let step := Z.min (en - b) (BLOCK_SIZE - b mod BLOCK_SIZE) in
  0 < step <= en - b /\ b mod BLOCK_SIZE + step <= BLOCK_SIZE.
Proof. intros Hb. pose proof (Z.mod_pos_bound b BLOCK_SIZE). unfold BLOCK_SIZE in *. simpl. lia. Qed.

Lemma file_ok_calm s ip i c' :
  file_ok s ip i -> calm sb B (is_cache s) c' -> file_ok (set_is_cache c' s) ip i.
Proof.
  intros [] Hc. pose proof (calm_slots (is_cache s) c' (i_entry i) Hc) as Hsl.
  split; simpl; try done.
  - apply Hc.
  - by rewrite (calm_disk_inode sb B _ _ _ Hc).
  - eapply map_ok_same; [done|done|]. intros n Hn. rewrite (proj2 (proj1 (proj2 Hc))). done.
  - intros o Ho. unfold block_at. rewrite Hsl. by apply fo_full0.
Qed.

(** A file depends on the blocks of the groups only. *)
Section same_groups.
Context (s : istate St) (ip : nat) (i : Inode) (c' : St) (Hf : file_ok s ip i).
Context (Hv : forall n, in_groups sb n -> bk_view c' n = bk_view (is_cache s) n).

Lemma groups_slots : slots c' (i_entry i) = slots (is_cache s) (i_entry i).
Proof using Hlay Hf Hv.
  unfold slots. do 2 f_equal. apply indirect_slots_same; [done|]. intros H0.
  apply Hv, data_in_groups, (map_ok_indirect _ _ (fo_map _ _ _ Hf) H0).
Qed.

Lemma groups_disk_inode j : 1 <= j <= num_inodes sb -> disk_inode sb B c' j = disk_inode sb B (is_cache s) j.
Proof using Hlay Hv. intros Hj. unfold disk_inode. by rewrite Hv by (by apply (inode_in_groups sb Hlay)). Qed.

Lemma groups_content : content c' (i_entry i) = content (is_cache s) (i_entry i).
Proof using Hlay Hf Hv.
  unfold content. apply list_fmap_ext. intros _ o Ho%list_elem_of_lookup_2%elem_of_seqZ. unfold byte_of, block_at.
  rewrite groups_slots. fold (block_at (is_cache s) (i_entry i) (o / BLOCK_SIZE)).
  by rewrite Hv by (apply (file_block_in_groups _ _ _ _ Hf); lia).
Qed.

Lemma groups_file_ok :
  quiet sb B c' -> (forall n, bk_alloced c' n = bk_alloced (is_cache s) n) -> file_ok (set_is_cache c' s) ip i.
Proof using Hlay Hf Hv.
  intros Hq Ha. pose proof groups_slots as Hsl. pose proof groups_disk_inode as Hdi. destruct Hf. split; simpl; try done.
  - by rewrite Hdi.
  - eapply map_ok_same; [done|done|]. intros n Hn. by rewrite Ha.
  - intros o Ho. unfold block_at. rewrite Hsl. by apply fo_full0.
Qed.
End same_groups.

Lemma read_loop_ok s ip i (fuel : nat) b en :
  file_ok s ip i -> 0 <= b <= en -> en <= ie_num_bytes (i_entry i) -> (Z.to_nat (en - b) < fuel)%nat ->
  wp (inode_read_loop sb B fuel ip b en) (fun bytes s' =>
    bytes = byte_of (is_cache s) (i_entry i) <$> seqZ b (en - b) /\
    exists c', s' = set_is_cache c' s /\ calm sb B (is_cache s) c') s.
Proof using Hlay.
  revert s b. induction fuel as [|fuel IH]; intros s b Hf Hb He Hfu; [lia|]. simpl.
  destruct (Z.ltb_spec b en) as [Hlt|Hge].
  - assert (block_at (is_cache s) (i_entry i) (b / BLOCK_SIZE) <> 0) as Hne by (apply (fo_full _ _ _ Hf); lia).
    pose proof (fo_size _ _ _ Hf) as Hsz. rewrite INODE_MAX_BYTES_eq in Hsz.
    apply wp_bind. eapply wp_mono; [apply (inode_map_existing s None ip i b)|].
    + apply Hf. + apply Hf. + apply Hf. + rewrite INODE_MAX_BYTES_eq. lia. + done.
    + intros r s1 (-> & c1 & -> & Hc1). cbn [fst snd negb].
      apply wp_bind, wp_assert; [done|]. pose proof (file_ok_calm _ _ _ _ Hf Hc1) as Hf1.
      apply (wp_peek sb B (set_is_cache c1 s)); [apply Hf1|apply (file_block_in_groups _ _ _ _ Hf); lia|].
      intros p c Hok [Hsv Hsa] Hh Hdy Hrc. rewrite set_set_cache.
      apply wp_bind, (wp_data sb B _ p (block_at (is_cache s) (i_entry i) (b / BLOCK_SIZE)));
        [done|simpl; by rewrite Hh, lookup_singleton_eq|].
      simpl is_cache in *.
      apply (wp_let_go sb B s c p (block_at (is_cache s) (i_entry i) (b / BLOCK_SIZE))); [done|done|done|].
      intros c' (Hq' & [Hv' Ha'] & Hr').
      assert (calm sb B (is_cache s) c') as Hc'.
      { eapply calm_trans; [exact Hc1|]. split_and!; try apply Hq'; [|auto].
        split; intros m; [by rewrite Hv', Hsv|by rewrite Ha', Hsa]. }
      pose proof (step_range b en ltac:(lia)) as [Hst Hst2]. simpl in Hst, Hst2.
      set (step := Z.min (en - b) (BLOCK_SIZE - b mod BLOCK_SIZE)) in *.
      apply wp_bind. eapply wp_mono; [apply (IH (set_is_cache c' s) (b + step)); [by apply file_ok_calm|lia|done|lia]|].
      intros rest s2 (-> & c2 & -> & Hc2). apply wp_ret. simpl is_cache. split.
      * rewrite Hsv, (proj1 (proj1 (proj2 Hc1))).
        rewrite slice_bytes by (try done; try lia; apply Hf).
        replace (en - b) with (step + (en - (b + step))) by lia.
        rewrite seqZ_split_fmap by lia. f_equal. apply list_fmap_ext. intros _ o _. by apply calm_byte_of.
      * exists c2. split; [done|]. by eapply calm_trans.
  - apply wp_ret. replace (en - b) with 0 by lia. split; [done|]. exists (is_cache s).
    split; [by destruct s|]. apply calm_refl, Hf.
Qed.

Lemma read_ok s ip i offset count :
  file_ok s ip i -> 0 <= offset <= ie_num_bytes (i_entry i) -> 0 <= count -> count + offset < 2 ^ 64 ->
  wp (inode_read sb B ip offset count) (fun r s' =>
    r = (Z.min count (ie_num_bytes (i_entry i) - offset),
         slice (Z.to_nat offset) (Z.to_nat (Z.min count (ie_num_bytes (i_entry i) - offset)))
           (content (is_cache s) (i_entry i))) /\
    exists c', s' = set_is_cache c' s /\ calm sb B (is_cache s) c') s.
Proof using Hlay.
  intros Hf Ho Hc Hoc. set (nb := ie_num_bytes (i_entry i)) in *.
  pose proof (fo_size _ _ _ Hf) as Hsz. fold nb in Hsz. rewrite INODE_MAX_BYTES_eq in Hsz.
  unfold inode_read, get_inode. apply wp_bind, wp_bind, wp_gets. rewrite (fo_obj _ _ _ Hf). apply wp_ret.
  rewrite (proj2 (Z.eqb_neq _ _)) by apply Hf. fold nb.
  set (n := if nb <? u64 (count + offset) then u64 (nb - offset) else count).
  assert (n = Z.min count (nb - offset)) as Hn.
  { unfold n. rewrite u64_id by lia. rewrite (u64_id (nb - offset)) by lia.
    destruct (Z.ltb_spec nb (count + offset)); lia. }
  rewrite Hn. rewrite (u64_id (offset + _)) by lia.
  apply wp_bind, wp_assert; [apply Z.leb_le; lia|]. apply wp_bind, wp_assert; [by apply Z.leb_le; lia|].
  apply wp_bind, wp_assert; [by apply Z.leb_le; lia|]. apply wp_bind.
  eapply wp_mono; [apply (read_loop_ok s ip i); [done|lia|fold nb; lia|lia]|].
  intros bytes s' (-> & Hs'). apply wp_ret. split; [|done]. f_equal.
  replace (offset + Z.min count (nb - offset) - offset) with (Z.min count (nb - offset)) by lia.
  unfold content. fold nb. apply list_eq. intros j. rewrite lookup_slice, !list_lookup_fmap.
  case_decide.
  - rewrite !lookup_seqZ_lt by lia. simpl. do 2 f_equal. lia.
  - by rewrite lookup_seqZ_ge by lia.
Qed.

(** ** Writing *)

(** From [c, e] to [c', e'] the bytes [lo, hi) of the file became [src]; its
    other bytes, and the blocks in use that are not of the file, are unchanged. *)
Record updated c e c' e' (lo hi : Z) (src : list Z) : Prop := {
  u_map : map_ok c' e';
  u_attr : same_attrs e e';
  u_mapped : forall o, 0 <= o < INODE_MAX_BYTES -> block_at c e (o / BLOCK_SIZE) <> 0 \/ lo <= o < hi ->
               block_at c' e' (o / BLOCK_SIZE) <> 0;
  u_bytes : forall o, lo <= o < hi -> byte_of c' e' o = src !!! Z.to_nat (o - lo);
  u_keep : forall o, 0 <= o < INODE_MAX_BYTES -> ~ (lo <= o < hi) -> block_at c e (o / BLOCK_SIZE) <> 0 ->
             byte_of c' e' o = byte_of c e o;
  u_frame : forall n, bk_alloced c n = true -> ~ is_bitmap sb n -> n ∉ slots c e -> bk_view c' n = bk_view c n;
  u_alloced : forall n, bk_alloced c n = true -> bk_alloced c' n = true;
  u_slots : forall n, n ∈ slots c' e' -> n ∈ slots c e \/ bk_alloced c n = false
}.

Lemma same_attrs_trans e1 e2 e3 : same_attrs e1 e2 -> same_attrs e2 e3 -> same_attrs e1 e3.
Proof. unfold same_attrs. intuition congruence. Qed.

Lemma updated_trans c e c1 e1 c2 e2 lo mid hi src1 src2 :
  lo <= mid <= hi -> 0 <= lo -> hi <= INODE_MAX_BYTES -> length src1 = Z.to_nat (mid - lo) ->
  updated c e c1 e1 lo mid src1 -> updated c1 e1 c2 e2 mid hi src2 ->
  updated c e c2 e2 lo hi (src1 ++ src2).
Proof.
  intros Hm H0 Hhi Hl [Hm1 Ha1 Hmp1 Hb1 Hk1 Hf1 Hal1 Hs1] [Hm2 Ha2 Hmp2 Hb2 Hk2 Hf2 Hal2 Hs2]. split.
  - done.
  - by eapply same_attrs_trans.
  - intros o Ho Hor. apply Hmp2; [done|]. destruct (decide (mid <= o < hi)); [by right|]. left.
    apply Hmp1; [done|]. destruct Hor; [by left|right; lia].
  - intros o Ho. destruct (decide (o < mid)).
    + rewrite Hk2 by first [lia | apply Hmp1; [lia|right; lia]]. rewrite Hb1 by lia.
      rewrite lookup_total_app_l by lia. done.
    + rewrite Hb2 by lia. rewrite lookup_total_app_r by lia. f_equal. lia.
  - intros o Ho Hno Hne. rewrite Hk2 by first [lia | apply Hmp1; [lia|by left]]. apply Hk1; [lia|lia|done].
  - intros n Hn Hb Hin. rewrite Hf2, Hf1; auto. intros [?|Hfr]%Hs1; [done|]. by rewrite Hn in Hfr.
  - auto.
  - intros n [Hin|Hfr]%Hs2; [by apply Hs1|]. right. destruct (bk_alloced c n) eqn:E; [|done].
    by rewrite (Hal1 n E) in Hfr.
Qed.

Lemma calm_map_step c e c' idx :
  map_ok c e -> calm sb B c c' -> block_at c e idx <> 0 -> map_step c e c' e idx (block_at c e idx).
Proof.
  intros Hm Hc Hne. pose proof (calm_slots c c' e Hc) as Hsl. destruct Hc as (Hq & [Hv Ha] & Hr).
  split; try done.
  - eapply map_ok_same; [done|done|]. intros n Hn. by rewrite Ha.
  - by apply block_at_same.
  - intros j Hj _. by apply block_at_same.
  - intros n Hn. by rewrite Ha.
  - intros n Hn. left. by rewrite Hsl in Hn.
Qed.

Lemma lookup_total_splice off new l j :
  (off + length new <= length l)%nat ->
  splice off new l !!! j = if decide (off <= j < off + length new)%nat then new !!! (j - off)%nat else l !!! j.
Proof.
  intros Hl. rewrite !list_lookup_total_alt, lookup_splice by done. by case_decide.
Qed.

Lemma div_mod_run lo step o :
  0 <= lo -> lo mod BLOCK_SIZE + step <= BLOCK_SIZE -> lo <= o < lo + step ->
  o / BLOCK_SIZE = lo / BLOCK_SIZE /\ o mod BLOCK_SIZE = lo mod BLOCK_SIZE + (o - lo).
Proof. unfold BLOCK_SIZE. intros. Z.to_euclidean_division_equations. lia. Qed.

Lemma block_write_slots c1 e1 c2 b d :
  map_ok c1 e1 -> b <> ie_indirect e1 ->
  (forall m, bk_view c2 m = if decide (m = b) then d else bk_view c1 m) -> slots c2 e1 = slots c1 e1.
Proof.
  intros Hm Hb Hv. unfold slots. do 2 f_equal. apply indirect_slots_same; [done|].
  intros _. rewrite Hv, decide_False; done.
Qed.

(** Writing within one block of the file, after [inode_map]. *)
Lemma updated_block c e c1 e1 c2 lo step b src :
  map_ok c e -> map_step c e c1 e1 (lo / BLOCK_SIZE) b ->
  (block_at c e (lo / BLOCK_SIZE) <> 0 -> b = block_at c e (lo / BLOCK_SIZE)) ->
  length (bk_view c1 b) = bsize -> 0 <= lo -> 0 < step -> lo + step <= INODE_MAX_BYTES ->
  lo mod BLOCK_SIZE + step <= BLOCK_SIZE ->
  length src = Z.to_nat step ->
  (forall m, bk_view c2 m = if decide (m = b) then splice (Z.to_nat (lo mod BLOCK_SIZE)) src (bk_view c1 b)
                            else bk_view c1 m) ->
  (forall m, bk_alloced c2 m = bk_alloced c1 m) ->
  updated c e c2 e1 lo (lo + step) src.
Proof using Hlay.
  intros Hm [Hm1 Hat Hb Hb0 Hoth Hv1 Ha1 Hs1] Hold Hlen Hlo Hst Hmax Hmod Hl Hv2 Ha2.
  set (idx := lo / BLOCK_SIZE) in *.
  assert (0 <= idx < 140) as Hidx by (apply index_range; lia).
  assert (b <> ie_indirect e1) as Hbi by (rewrite <- Hb; apply block_at_ne_indirect; try done; by rewrite Hb).
  pose proof (block_write_slots c1 e1 c2 b _ Hm1 Hbi Hv2) as Hsl.
  assert (forall j, block_at c2 e1 j = block_at c1 e1 j) as Hba by (intros j; by apply block_at_same).
  pose proof (Z.mod_pos_bound lo BLOCK_SIZE ltac:(done)) as Hmb. unfold bsize in Hlen.
  assert (Z.to_nat (lo mod BLOCK_SIZE) + length src <= length (bk_view c1 b))%nat as Hfit
    by (unfold BLOCK_SIZE in *; lia).
  split.
  - eapply map_ok_same; [done|done|]. intros n Hn. by rewrite Ha2.
  - done.
  - intros o Ho Hor. rewrite Hba. destruct (decide (o / BLOCK_SIZE = idx)) as [->|Hne]; [by rewrite Hb|].
    rewrite Hoth by (try done; by apply index_range). destruct Hor as [?|Hor]; [done|].
    destruct (div_mod_run lo step o) as [He _]; done.
  - intros o Ho. destruct (div_mod_run lo step o) as [He Hmo]; try done.
    unfold byte_of. rewrite He, Hba, Hmo. fold idx. rewrite Hb, Hv2, decide_True by done.
    rewrite lookup_total_splice by done. rewrite decide_True by lia. f_equal. lia.
  - intros o Ho Hno Hne. unfold byte_of. rewrite Hba. pose proof (index_range o Ho) as Hoi.
    pose proof (Z.mod_pos_bound o BLOCK_SIZE ltac:(done)) as Hmo.
    destruct (block_at_alloced c e (o / BLOCK_SIZE) Hm Hoi Hne) as (Hd & Hal & Hnb).
    destruct (decide (o / BLOCK_SIZE = idx)) as [Heq|Hneq].
    + rewrite Heq in Hne, Hal, Hnb. rewrite Heq, Hb. pose proof (Hold Hne) as Hbe. rewrite Hv2, decide_True by done.
      rewrite lookup_total_splice by done. rewrite decide_False.
      * rewrite <- Hbe. rewrite <- Hbe in Hal, Hnb. rewrite (Hv1 b Hal Hnb); [done|].
        rewrite Hbe. by apply block_at_ne_indirect.
      * intros Hin. apply Hno. pose proof (Z.div_mod o BLOCK_SIZE ltac:(done)) as D1.
        pose proof (Z.div_mod lo BLOCK_SIZE ltac:(done)) as D2. fold idx in D2. rewrite Heq in D1.
        clear - D1 D2 Hin Hl Hst Hmb Hmo. unfold BLOCK_SIZE in *. lia.
    + rewrite Hoth by done. rewrite Hv2, decide_False.
      * rewrite Hv1; try done. by apply block_at_ne_indirect.
      * intros Heq. apply Hneq, (block_at_inj c1 e1); try done; rewrite ?Hb, Hoth; done.
  - intros n Hn Hnb Hin. assert (n <> b) as Hne.
    { intros ->. destruct (decide (block_at c e idx = 0)) as [H0|H0].
      - assert (b ∈ slots c1 e1) as Hin1 by (rewrite <- Hb; apply block_at_elem; [by eapply map_ok_wf|done]).
        apply Hs1 in Hin1 as [?|Hfr]; [done|]. by rewrite Hn in Hfr.
      - apply Hin. rewrite (Hold H0). apply block_at_elem; [by eapply map_ok_wf|done]. }
    rewrite Hv2, decide_False by done. apply Hv1; try done. intros ->. apply Hin, indirect_elem.
  - intros n Hn. rewrite Ha2. by apply Ha1.
  - intros n Hn. rewrite Hsl in Hn. by apply Hs1.
Qed.

(** [inode_map] of a context, whether the block is mapped already or not. *)
Lemma inode_map_step s ctx ip i lo ns k f :
  quiet sb B (is_cache s) -> is_objs s !! ip = Some i -> 1 <= i_inode_no i <= num_inodes sb ->
  map_ok (is_cache s) (i_entry i) -> 0 <= lo < INODE_MAX_BYTES ->
  bk_room (is_cache s) ctx ns (2 + ind_cost ns (i_entry i) + k) -> 0 <= k -> has_free (is_cache s) (S (S f)) ->
  let c := is_cache s in let e := i_entry i in
  wp (inode_map sb B ctx ip lo) (fun r s' => exists c1 e1 ns1, s' = with_entry s ip i c1 e1 /\
    quiet sb B c1 /\ map_step c e c1 e1 (lo / BLOCK_SIZE) r.1 /\ (r.2 = false -> e1 = e) /\
    (block_at c e (lo / BLOCK_SIZE) <> 0 -> r.1 = block_at c e (lo / BLOCK_SIZE)) /\
    (forall n, n ∈ ns -> n ∈ ns1) /\ r.1 ∈ ns1 /\ bk_room c1 ctx ns1 (ind_cost ns1 e1 + k) /\ has_free c1 f) s.
Proof using Hlay.
  intros Hq Hip Hno Hm Hlo Hr Hk Hf c e.
  assert (0 <= lo / BLOCK_SIZE < 140) as Hidx by (apply index_range; lia).
  destruct (decide (block_at c e (lo / BLOCK_SIZE) = 0)) as [H0|H0].
  - eapply wp_mono; [by apply (inode_map_new s ctx ip i lo ns k f)|].
    intros r s' (c1 & e1 & ns1 & -> & Hq1 & Hr2 & Hms & Hs & Hin & Hroom & Hf1).
    exists c1, e1, ns1. rewrite Hr2. by split_and!; try done; try apply Hq1.
  - eapply wp_mono; [by apply (inode_map_existing s ctx ip i lo)|].
    intros r s' (-> & c1 & -> & Hc1). cbn [fst snd]. fold c e. exists c1, e, (block_at c e (lo / BLOCK_SIZE) :: ns).
    pose proof (ind_cost_range ns e).
    pose proof (ind_cost_sub ns (block_at c e (lo / BLOCK_SIZE) :: ns) e ltac:(intros n Hn; by right)).
    pose proof (ind_cost_range (block_at c e (lo / BLOCK_SIZE) :: ns) e).
    split; [by apply with_entry_same|]. split; [apply Hc1|]. split; [by apply calm_map_step|].
    split; [done|]. split; [done|]. split; [intros n Hn; by right|]. split; [by left|]. split.
    + apply Hc1. apply bk_room_weaken; [by apply data_in_groups, (block_at_alloced c e)|]. apply (room_less _ _ _ (2 + ind_cost ns e + k)); [done|lia].
    + destruct Hf as (l & ? & ? & ?). eapply has_free_same; [|apply Hc1]. exists l.
      split; [done|]. split; [lia|done].
Qed.

(** One turn of the loop of [inode_write], before the rest [m]. *)
Lemma write_block {A} s ctx ip i lo step src ns k f (m : Z * bool -> M (istate St) A) Q :
  quiet sb B (is_cache s) -> is_objs s !! ip = Some i -> 1 <= i_inode_no i <= num_inodes sb ->
  map_ok (is_cache s) (i_entry i) -> 0 <= lo -> 0 < step -> lo + step <= INODE_MAX_BYTES ->
  lo mod BLOCK_SIZE + step <= BLOCK_SIZE ->
  length src = Z.to_nat step -> Forall byte_ok src ->
  bk_room (is_cache s) ctx ns (2 + ind_cost ns (i_entry i) + k) -> 0 <= k -> has_free (is_cache s) (S (S f)) ->
  (forall r c' e' ns', quiet sb B c' ->
     updated (is_cache s) (i_entry i) c' e' lo (lo + step) src -> (r.2 = false -> e' = i_entry i) ->
     (forall n, n ∈ ns -> n ∈ ns') -> bk_room c' ctx ns' (ind_cost ns' e' + k) -> has_free c' f ->
     wp (m r) Q (with_entry s ip i c' e')) ->
  wp (r ← inode_map sb B ctx ip lo;
      block ← bc (bc_acquire B r.1);
      data ← bc (bc_data B block);
      bc (bc_store B block (splice (Z.to_nat (lo mod BLOCK_SIZE)) src data));;
      bc (bc_sync B ctx block);;
      bc (bc_release B block);;
      m r) Q s.
Proof using Hlay.
  intros Hq Hip Hno Hm Hlo Hst Hmax Hmod Hl Hby Hr Hk Hf Hcont.
  set (c := is_cache s) in *. set (e := i_entry i) in *.
  assert (0 <= lo / BLOCK_SIZE < 140) as Hidx by (apply index_range; lia).
  apply wp_bind. eapply wp_mono; [by apply (inode_map_step s ctx ip i lo ns k f); try done; lia|].
  intros [b md] s' (c1 & e1 & ns1 & -> & Hq1 & Hms & Hmd & Hold & Hs & Hin & Hroom & Hf1). cbn [fst snd] in *.
  pose proof (ms_map _ _ _ _ _ _ Hms) as Hm1.
  assert (is_data b) as Hda by (rewrite <- (ms_at _ _ _ _ _ _ Hms); apply block_at_alloced; try done;
    rewrite (ms_at _ _ _ _ _ _ Hms); apply Hms).
  pose proof (data_range b Hda). pose proof (ind_cost_range ns1 e1).
  pose proof (Z.mod_pos_bound lo BLOCK_SIZE ltac:(done)) as Hmb.
  pose proof (bk_view_len c1 b (proj1 Hq1)) as Hlen.
  assert (Z.to_nat (lo mod BLOCK_SIZE) + length src <= length (bk_view c1 b))%nat as Hfit
    by (rewrite Hlen; unfold bsize, BLOCK_SIZE in *; lia).
  apply (wp_peek sb B (with_entry s ip i c1 e1)); [done|by apply data_in_groups|]. intros p c2 Hok [Hsv Hsa] Hh Hdy Hrc.
  apply wp_bind, (wp_data sb B _ p b); [done|simpl; by rewrite Hh, lookup_singleton_eq|].
  simpl is_cache in *. rewrite Hsv.
  eapply wp_write_back with (ns := ns1) (k := ind_cost ns1 e1 + k) (n := b); try done; try lia.
  - by apply data_not_bitmap.
  - by rewrite length_splice.
  - apply Forall_splice; [apply bk_view_bytes, Hq1|done].
  - by apply Hrc.
  - intros c' Hq' Hv' Ha' Hr'.
    assert (forall x, set_is_cache x (with_entry s ip i c1 e1) = with_entry s ip i x e1) as -> by done.
    apply (Hcont (b, md) c' e1 ns1); try done.
    + eapply updated_block; try done.
      * intros x. rewrite Hv'. case_decide; [done|apply Hsv].
      * intros x. rewrite Ha'. apply Hsa.
    + eapply has_free_same; [exact Hf1|]. intros x. rewrite Ha'. apply Hsa.
Qed.

(** The number of blocks that the bytes [b, en) touch. *)
Definition nblocks (b en : Z) : Z := if b <? en then (en - 1) / BLOCK_SIZE - b / BLOCK_SIZE + 1 else 0.

Lemma nblocks_step b en :
  0 <= b < en -> let step := Z.min (en - b) (BLOCK_SIZE - b mod BLOCK_SIZE) in
  nblocks b en = 1 + nblocks (b + step) en /\ 0 <= nblocks (b + step) en.
Proof.
  intros Hb. unfold nblocks, BLOCK_SIZE in *. simpl. rewrite (proj2 (Z.ltb_lt b en)) by lia.
  destruct (Z.ltb_spec (b + Z.min (en - b) (512 - b mod 512)) en); Z.to_euclidean_division_equations; lia.
Qed.

Lemma nblocks_nonneg b en : 0 <= b -> 0 <= nblocks b en.
Proof.
  intros Hb. unfold nblocks, BLOCK_SIZE. destruct (Z.ltb_spec b en); [|lia].
  Z.to_euclidean_division_equations; lia.
Qed.

Lemma updated_refl c e lo : map_ok c e -> updated c e c e lo lo [].
Proof.
  intros Hm. split; try done.
  - intros o Ho [?|?]; [done|lia]. - intros o Ho. lia. - by left.
Qed.

Lemma with_entry_twice s ip i c1 e1 c2 e2 :
  with_entry (with_entry s ip i c1 e1) ip (set_i_entry e1 i) c2 e2 = with_entry s ip i c2 e2.
Proof. unfold with_entry. destruct s; simpl. unfold set_is_objs; simpl. by rewrite insert_insert_eq. Qed.

Lemma with_entry_lookup s ip i c e : is_objs (with_entry s ip i c e) !! ip = Some (set_i_entry e i).
Proof. unfold with_entry. simpl. by rewrite lookup_insert_eq. Qed.

Lemma write_loop_ok (fuel : nat) s ctx ip i src b en modified ns k f :
  quiet sb B (is_cache s) -> is_objs s !! ip = Some i -> 1 <= i_inode_no i <= num_inodes sb ->
  map_ok (is_cache s) (i_entry i) -> 0 <= b <= en -> en <= INODE_MAX_BYTES ->
  length src = Z.to_nat (en - b) -> Forall byte_ok src ->
  bk_room (is_cache s) ctx ns (ind_cost ns (i_entry i) + (2 * nblocks b en + k)) -> 0 <= k ->
  has_free (is_cache s) (2 * Z.to_nat (nblocks b en) + f)%nat -> (Z.to_nat (en - b) < fuel)%nat ->
  wp (inode_write_loop sb B fuel ctx ip src b en modified) (fun r s' => exists c' e' ns',
    s' = with_entry s ip i c' e' /\ quiet sb B c' /\ updated (is_cache s) (i_entry i) c' e' b en src /\
    (r = false -> modified = false /\ e' = i_entry i) /\ (forall n, n ∈ ns -> n ∈ ns') /\
    bk_room c' ctx ns' (ind_cost ns' e' + k) /\ has_free c' f) s.
Proof using Hlay.
  revert s i src b modified ns k f. induction fuel as [|fuel IH];
    intros s i src b modified ns k f Hq Hip Hno Hm Hb Hmax Hl Hby Hr Hk Hf Hfu; [lia|].
  simpl. destruct (Z.ltb_spec b en) as [Hlt|Hge].
  - pose proof (step_range b en ltac:(lia)) as [Hst Hst2]. pose proof (nblocks_step b en ltac:(lia)) as [Hnb Hnb2].
    simpl in Hst, Hst2, Hnb, Hnb2. set (step := Z.min (en - b) (BLOCK_SIZE - b mod BLOCK_SIZE)) in *.
    assert (length (take (Z.to_nat step) src) = Z.to_nat step) as Htk by (rewrite length_take; lia).
    apply (write_block s ctx ip i b step (take (Z.to_nat step) src) ns (2 * nblocks (b + step) en + k)
             (2 * Z.to_nat (nblocks (b + step) en) + f)%nat); try done; try lia.
    + by apply Forall_take.
    + replace (2 + ind_cost ns (i_entry i) + (2 * nblocks (b + step) en + k))
        with (ind_cost ns (i_entry i) + (2 * nblocks b en + k)) by lia. done.
    + rewrite Hnb in Hf. by replace (2 * Z.to_nat (1 + nblocks (b + step) en) + f)%nat
        with (S (S (2 * Z.to_nat (nblocks (b + step) en) + f))) in Hf by lia.
    + intros [b0 md] c1 e1 ns1 Hq1 Hu1 Hmd Hs1 Hr1 Hf1. cbn [fst snd] in *.
      eapply wp_mono; [apply (IH (with_entry s ip i c1 e1) (set_i_entry e1 i) (drop (Z.to_nat step) src) (b + step)
        (modified || md) ns1 k f); try done; try lia|].
      * apply with_entry_lookup. * apply Hu1. * rewrite length_drop. lia. * by apply Forall_drop.
      * intros r s' (c2 & e2 & ns2 & -> & Hq2 & Hu2 & Hmd2 & Hs2 & Hr2 & Hf2). rewrite with_entry_twice.
        exists c2, e2, ns2. split; [done|]. split; [done|]. split.
        { rewrite <- (take_drop (Z.to_nat step) src). apply (updated_trans _ _ c1 e1 _ _ b (b + step) en); [lia|lia|lia|rewrite Htk; f_equal; lia|exact Hu1|exact Hu2]. }
        split; [|split; [auto|done]]. intros Hrf. destruct (Hmd2 Hrf) as [Hor He]. simpl in He.
        apply orb_false_iff in Hor as [-> ->]. split; [done|]. rewrite He. by apply Hmd.
  - assert (b = en) as -> by lia. rewrite Z.sub_diag in Hl. destruct src; [|done].
    apply wp_ret. exists (is_cache s), (i_entry i), ns. assert (nblocks en en = 0) as Hz by (unfold nblocks; by rewrite Z.ltb_irrefl).
    rewrite Hz in *. split; [rewrite <- (with_entry_same s ip i (is_cache s)); [by destruct s|done]|].
    split; [done|]. split; [by apply updated_refl|]. by split_and!.
Qed.

(** *** The whole of [inode_write] *)
Record written s ip i c' e' (offset : Z) (src : list Z) : Prop := {
  w_file : file_ok (with_entry s ip i c' e') ip (set_i_entry e' i);
  w_content : content c' e' = splice (Z.to_nat offset) src (content (is_cache s) (i_entry i));
  w_attr : ie_type e' = ie_type (i_entry i) /\ ie_major e' = ie_major (i_entry i) /\
           ie_minor e' = ie_minor (i_entry i) /\ ie_num_links e' = ie_num_links (i_entry i) /\
           ie_num_bytes e' = Z.max (ie_num_bytes (i_entry i)) (offset + Z.of_nat (length src));
  w_inodes : forall j, 1 <= j <= num_inodes sb -> j <> i_inode_no i ->
               disk_inode sb B c' j = disk_inode sb B (is_cache s) j;
  w_frame : forall n, bk_alloced (is_cache s) n = true -> ~ is_bitmap sb n ->
              n ∉ slots (is_cache s) (i_entry i) -> n <> to_block_no sb (i_inode_no i) ->
              bk_view c' n = bk_view (is_cache s) n;
  w_alloced : forall n, bk_alloced (is_cache s) n = true -> bk_alloced c' n = true;
  w_slots : forall n, n ∈ slots c' e' -> n ∈ slots (is_cache s) (i_entry i) \/ bk_alloced (is_cache s) n = false
}.

Lemma inode_block_not_slot c e ino :
  map_ok c e -> 1 <= ino <= num_inodes sb -> to_block_no sb ino ∉ slots c e.
Proof using Hlay.
  intros Hm Hino Hin. destruct (decide (to_block_no sb ino = 0)) as [H0|H0].
  - destruct (inode_block_group sb Hlay ino Hino) as (j & Hj & Hb & Hg). rewrite H0 in Hb.
    unfold group_block in Hb. destruct Hlay as [[? ? ? ? ? ? ?] _ _ _ _]. nia.
  - destruct (mo_data _ _ Hm _ Hin H0) as [Hd _]. by apply (data_not_inode _ ino Hd Hino).
Qed.

Lemma lookup_content c e (j : nat) :
  content c e !! j = if decide (Z.of_nat j < ie_num_bytes e) then Some (byte_of c e (Z.of_nat j)) else None.
Proof.
  unfold content. rewrite list_lookup_fmap. case_decide.
  - by rewrite lookup_seqZ_lt by lia.
  - by rewrite lookup_seqZ_ge by lia.
Qed.

(** Content that changed in a range only. *)
Lemma content_splice c e c2 e2 lo src :
  0 <= ie_num_bytes e -> ie_num_bytes e2 = Z.max (ie_num_bytes e) (lo + Z.of_nat (length src)) ->
  0 <= lo <= ie_num_bytes e ->
  (forall o, lo <= o < lo + Z.of_nat (length src) -> byte_of c2 e2 o = src !!! Z.to_nat (o - lo)) ->
  (forall o, 0 <= o < ie_num_bytes e -> ~ (lo <= o < lo + Z.of_nat (length src)) -> byte_of c2 e2 o = byte_of c e o) ->
  content c2 e2 = splice (Z.to_nat lo) src (content c e).
Proof.
  intros Hnb Hn2 Hlo Hb Hk. apply list_eq. intros j. unfold splice. rewrite lookup_content.
  pose proof (length_content c e) as Hlc.
  destruct (decide (Z.of_nat j < lo)); [|destruct (decide (Z.of_nat j < lo + Z.of_nat (length src)))].
  - rewrite lookup_app_l by (rewrite length_take; lia). rewrite lookup_take_lt by lia.
    rewrite lookup_content, !decide_True by lia. by rewrite Hk by lia.
  - rewrite lookup_app_r, length_take by (rewrite length_take; lia). rewrite lookup_app_l by lia.
    rewrite decide_True, Hb by lia.
    replace (j - Z.to_nat lo `min` length (content c e))%nat with (Z.to_nat (Z.of_nat j - lo)) by lia.
    symmetry. apply list_lookup_lookup_total_lt. lia.
  - rewrite lookup_app_r, length_take by (rewrite length_take; lia). rewrite lookup_app_r, lookup_drop by lia.
    replace (Z.to_nat lo + length src + _)%nat with j by lia.
    rewrite lookup_content. rewrite Hn2. repeat case_decide; try lia; [|done]. by rewrite Hk by lia.
Qed.

(** Writing back the inode after the blocks. *)
Lemma written_intro s ip i c1 e1 c2 e2 offset src :
  file_ok s ip i -> 0 <= offset <= ie_num_bytes (i_entry i) -> offset + Z.of_nat (length src) <= INODE_MAX_BYTES ->
  updated (is_cache s) (i_entry i) c1 e1 offset (offset + Z.of_nat (length src)) src ->
  e2 = set_ie_num_bytes (Z.max (ie_num_bytes (i_entry i)) (offset + Z.of_nat (length src))) e1 ->
  quiet sb B c2 -> (forall m, m <> to_block_no sb (i_inode_no i) -> bk_view c2 m = bk_view c1 m) ->
  (forall m, bk_alloced c2 m = bk_alloced c1 m) ->
  (forall j, 1 <= j <= num_inodes sb -> disk_inode sb B c2 j = if decide (j = i_inode_no i) then e2 else disk_inode sb B c1 j) ->
  written s ip i c2 e2 offset src.
Proof using Hlay.
  intros Hf Ho Hmax [Hm1 Hat Hmp Hb Hk Hfr Hal Hs] He2 Hq2 Hv2 Ha2 Hd2.
  set (c := is_cache s) in *. set (e := i_entry i) in *. set (ino := i_inode_no i) in *.
  set (hi := offset + Z.of_nat (length src)) in *.
  pose proof (fo_no _ _ _ Hf) as Hino. pose proof (fo_size _ _ _ Hf) as Hsz. fold e in Hsz. fold ino in Hino.
  pose proof (inode_block_not_slot _ _ ino Hm1 Hino) as Hib1.
  assert (slots c2 e2 = slots c1 e1) as Hsl.
  { subst e2. unfold slots. simpl. do 2 f_equal. apply indirect_slots_same; [done|].
    intros H0. apply Hv2. intros Heq. apply Hib1. rewrite <- Heq. apply indirect_elem. }
  assert (forall o, 0 <= o < ie_num_bytes e2 -> block_at c2 e2 (o / BLOCK_SIZE) <> 0 /\
            byte_of c2 e2 o = byte_of c1 e1 o) as Hbo.
  { intros o Ho2. rewrite He2 in Ho2. simpl in Ho2. rewrite (block_at_same c1 c2 e1 e2 _ Hsl).
    assert (block_at c1 e1 (o / BLOCK_SIZE) <> 0) as Hne.
    { apply Hmp; [lia|]. destruct (decide (o < ie_num_bytes e)); [left; apply (fo_full _ _ _ Hf); fold e; lia|right; lia]. }
    split; [done|]. unfold byte_of. rewrite (block_at_same c1 c2 e1 e2 _ Hsl), Hv2; [done|].
    intros Heq. apply Hib1. rewrite <- Heq. apply block_at_elem; [apply Hm1|]. apply index_range. lia. }
  assert (forall j, 1 <= j <= num_inodes sb -> j <> ino -> disk_inode sb B c2 j = disk_inode sb B c j) as Hdj.
  { intros j Hj Hji. rewrite Hd2, decide_False by done. unfold disk_inode. rewrite Hfr; [done| | |].
    - apply inode_block_alloced; [done|apply Hf|done]. - by apply inode_block_not_bitmap.
    - apply inode_block_not_slot; [apply Hf|done]. }
  destruct Hat as (Ht & Hmj & Hmn & Hnl & Hnb).
  assert (InodeEntry_wf e2) as Hwf2.
  { subst e2. destruct (mo_wf _ _ Hm1) as (? & ? & ? & ? & ? & ? & ? & ?). repeat split; simpl; try tauto; try lia.
    destruct Hf as [_ _ _ _ _ Hmf _ _ _]. destruct Hmf as [(_ & _ & _ & _ & Hw & _) _ _]. fold e in Hw.
    rewrite INODE_MAX_BYTES_eq in *. lia. }
  split.
  - split; simpl; fold ino; try done; [by rewrite lookup_insert_eq|apply Hf|by rewrite Hd2, decide_True| | |by apply Hbo|].
    + split; [done| |]; rewrite Hsl; [|apply Hm1]. intros a Hin Ha. rewrite Ha2. by apply Hm1.
    + subst e2; simpl; lia.
    + subst e2; simpl. rewrite Ht. apply Hf.
  - assert (0 <= ie_num_bytes e) by (pose proof (mo_wf _ _ (fo_map _ _ _ Hf)) as (_ & _ & _ & _ & Hw & _); fold e in Hw; lia).
    assert (ie_num_bytes e2 = Z.max (ie_num_bytes e) hi) as Hn2 by (by subst e2).
    apply content_splice; fold e; [lia|done|lia| |].
    + intros o Hoo. destruct (Hbo o) as [_ ->]; [lia|]. by apply Hb.
    + intros o Hoo Hno. destruct (Hbo o) as [_ ->]; [lia|]. apply Hk; [lia|lia|].
      apply (fo_full _ _ _ Hf). fold e. lia.
  - subst e2. simpl. done.
  - done.
  - intros n Hn Hnb' Hin Hni. rewrite Hv2, Hfr; done.
  - intros n Hn. rewrite Ha2. by apply Hal.
  - intros n Hn. rewrite Hsl in Hn. by apply Hs.
Qed.

(** The end of [inode_write]: the size, and the inode written back. *)
Lemma write_finish s ctx ip i c1 e1 offset src modified ns k :
  file_ok s ip i -> 0 <= offset <= ie_num_bytes (i_entry i) -> offset + Z.of_nat (length src) <= INODE_MAX_BYTES ->
  updated (is_cache s) (i_entry i) c1 e1 offset (offset + Z.of_nat (length src)) src ->
  quiet sb B c1 -> (modified = false -> e1 = i_entry i) ->
  bk_room c1 ctx ns k -> 0 <= k -> to_block_no sb (i_inode_no i) ∈ ns ->
  let e2 := set_ie_num_bytes (Z.max (ie_num_bytes (i_entry i)) (offset + Z.of_nat (length src))) e1 in
  wp (whenM (modified || (ie_num_bytes (i_entry i) <? offset + Z.of_nat (length src))) (inode_sync sb B ctx ip true))
    (fun _ s' => exists c2, s' = with_entry s ip i c2 e2 /\ written s ip i c2 e2 offset src /\
       (forall n, bk_alloced c2 n = bk_alloced c1 n) /\ bk_room c2 ctx ns k)
    (with_entry s ip i c1 e2).
Proof using Hlay.
  intros Hf Ho Hmax Hu Hq1 Hmd Hr Hk Hin e2.
  assert (InodeEntry_wf e2) as Hwf2.
  { destruct (mo_wf _ _ (u_map _ _ _ _ _ _ _ Hu)) as (? & ? & ? & ? & ? & ? & ? & ?).
    destruct (mo_wf _ _ (fo_map _ _ _ Hf)) as (_ & _ & _ & _ & Hw & _).
    pose proof (fo_size _ _ _ Hf). rewrite INODE_MAX_BYTES_eq in *.
    unfold e2. repeat split; simpl; try tauto; lia. }
  destruct (modified || _) eqn:Em; simpl whenM.
  - eapply wp_mono; [apply (sync_write_ok sb B Hlay (with_entry s ip i c1 e2) ctx ip (set_i_entry e2 i) ns k);
      try done; try apply Hf; by apply with_entry_lookup|].
    intros [] s' (c2 & -> & Hq2 & Hv2 & Ha2 & Hr2). simpl in Hv2, Ha2. exists c2. split_and!; try done.
    apply (written_intro s ip i c1 e1 c2 e2 offset src); try done.
    + intros m Hm. by rewrite Hv2, decide_False.
    + intros j Hj. apply (disk_inode_put sb B Hlay c1 c2); try done; [apply Hf|apply Hq1].
  - apply orb_false_iff in Em as [-> Hge%Z.ltb_ge]. apply wp_ret. exists c1. specialize (Hmd eq_refl). subst e1.
    split_and!; try done. apply (written_intro s ip i c1 (i_entry i) c1 e2 offset src); try done.
    intros j Hj. destruct (decide (j = i_inode_no i)) as [->|]; [|done].
    unfold e2. rewrite Z.max_l by lia.
    replace (set_ie_num_bytes (ie_num_bytes (i_entry i)) (i_entry i)) with (i_entry i) by (by destruct (i_entry i)).
    rewrite <- (fo_disk _ _ _ Hf). unfold disk_inode. rewrite (u_frame _ _ _ _ _ _ _ Hu); [done| | |].
    + apply inode_block_alloced; [done|apply Hf|done]. + by apply inode_block_not_bitmap.
    + apply inode_block_not_slot; [apply Hf|done].
Qed.

Lemma write_ok s ctx ip i src offset ns k f :
  file_ok s ip i -> 0 <= offset <= ie_num_bytes (i_entry i) -> offset + Z.of_nat (length src) <= INODE_MAX_BYTES ->
  Forall byte_ok src ->
  bk_room (is_cache s) ctx ns (3 + 2 * nblocks offset (offset + Z.of_nat (length src)) + k) -> 0 <= k ->
  has_free (is_cache s) (2 * Z.to_nat (nblocks offset (offset + Z.of_nat (length src))) + f)%nat ->
  wp (inode_write sb B ctx ip src offset) (fun r s' => r = Z.of_nat (length src) /\ exists c' e' ns',
    s' = with_entry s ip i c' e' /\ written s ip i c' e' offset src /\
    (forall n, n ∈ ns -> n ∈ ns') /\ bk_room c' ctx ns' k /\ has_free c' f) s.
Proof using Hlay.
  intros Hf Ho Hmax Hby Hr Hk Hfr. unfold inode_write, get_inode.
  pose proof (fo_size _ _ _ Hf) as Hsz. pose proof INODE_MAX_BYTES_eq as Hmx.
  set (ib := to_block_no sb (i_inode_no i)). set (nb := nblocks offset (offset + Z.of_nat (length src))) in *.
  pose proof (ind_cost_range (ib :: ns) (i_entry i)) as Hic.
  assert (0 <= nb) as Hnb by (apply nblocks_nonneg; lia).
  apply wp_bind, wp_bind, wp_gets. rewrite (fo_obj _ _ _ Hf). apply wp_ret.
  rewrite (proj2 (Z.eqb_neq _ INODE_DEVICE)) by apply Hf. rewrite (u64_id (offset + _)) by lia.
  apply wp_bind, wp_assert; [apply Z.leb_le; lia|]. apply wp_bind, wp_assert; [apply Z.leb_le; lia|].
  apply wp_bind, wp_assert; [apply Z.leb_le; lia|]. apply wp_bind.
  eapply wp_mono; [apply (write_loop_ok (S (length src)) s ctx ip i src offset (offset + Z.of_nat (length src)) false (ib :: ns) k f);
    try done; try apply Hf; try lia|].
  { apply bk_room_weaken; [by apply (inode_in_groups sb Hlay), Hf|]. apply (room_less _ _ _ (3 + 2 * nb + k)); [done|]. fold nb. lia. }
  intros md s' (c1 & e1 & ns1 & -> & Hq1 & Hu & Hmd & Hs1 & Hr1 & Hf1).
  apply wp_bind, wp_bind, wp_gets. rewrite with_entry_lookup. apply wp_ret. simpl i_entry.
  destruct (u_attr _ _ _ _ _ _ _ Hu) as (_ & _ & _ & _ & Hnb1). rewrite Hnb1.
  set (e2 := set_ie_num_bytes (Z.max (ie_num_bytes (i_entry i)) (offset + Z.of_nat (length src))) e1).
  pose proof (ind_cost_range ns1 e1) as Hic1. apply wp_bind.
  apply (wp_mono _ (fun _ s' => s' = with_entry s ip i c1 e2)).
  { destruct (Z.ltb_spec (ie_num_bytes (i_entry i)) (offset + Z.of_nat (length src))); simpl whenM.
    - apply (wp_upd_entry _ ip (set_i_entry e1 i)); [apply with_entry_lookup|]. simpl.
      rewrite with_entry_twice. unfold e2. by rewrite Z.max_r, u32_id by lia.
    - apply wp_ret. unfold e2. rewrite Z.max_l, <- Hnb1 by lia. by destruct e1. }
  intros [] s' ->. apply wp_bind.
  eapply wp_mono; [apply (write_finish s ctx ip i c1 e1 offset src md ns1 k); try done|].
  - intros Hf'. by apply Hmd. - apply (room_less _ _ _ (ind_cost ns1 e1 + k)); [done|lia]. - apply Hs1. by left.
  - intros [] s' (c2 & -> & Hw & Ha2 & Hr2). apply wp_ret. split; [done|]. exists c2, e2, ns1. split_and!; try done.
    + intros n Hn. apply Hs1. by right. + eapply has_free_same; [exact Hf1|done].
Qed.

End file.

(** C8: reading a file: [inode_read] returns the number of bytes from [offset]
    to the end of the file, at most [count], and exactly those bytes of its
    content; the file system is unchanged. *)
Theorem inode_read_correct {St} sb (B : BlockCache St) {Hspec : BlockCacheSpec sb B} s ip i offset count :
  inode_layout sb ->
  file_ok sb B s ip i -> 0 <= offset <= ie_num_bytes (i_entry i) -> 0 <= count -> count + offset < 2 ^ 64 ->
  exists c', inode_read sb B ip offset count s =
    Ok ((Z.min count (ie_num_bytes (i_entry i) - offset),
         slice (Z.to_nat offset) (Z.to_nat (Z.min count (ie_num_bytes (i_entry i) - offset)))
           (content sb B (is_cache s) (i_entry i))), set_is_cache c' s) /\
    file_ok sb B (set_is_cache c' s) ip i /\ (forall n, bk_view c' n = bk_view (is_cache s) n).
Proof.
  intros Hlay Hf Ho Hc Hoc.
  destruct (proj1 (wp_ok _ _ _) (read_ok sb B Hlay s ip i offset count Hf Ho Hc Hoc)) as (r & s' & H & -> & c' & -> & Hcalm).
  exists c'. split_and!; [done|by apply file_ok_calm|apply Hcalm].
Qed.

(** C6: writing a file: [inode_write] at an offset inside or at the end of a
    file puts the bytes [src] at that offset of its content, extends the file
    when they go past its end, keeps its type, device numbers and links, and
    leaves a well-formed file whose entry on the disk is the one in memory. Writing
    [n] blocks needs room for at most [3 + 2 * n] blocks in the operation and
    at most [2 * n] free data blocks. *)
Theorem inode_write_correct {St} sb (B : BlockCache St) {Hspec : BlockCacheSpec sb B} s ctx ip i src offset :
  inode_layout sb -> file_ok sb B s ip i -> 0 <= offset <= ie_num_bytes (i_entry i) ->
  offset + Z.of_nat (length src) <= INODE_MAX_BYTES -> Forall byte_ok src ->
  bk_room (is_cache s) ctx [] (3 + 2 * nblocks offset (offset + Z.of_nat (length src))) ->
  has_free sb B (is_cache s) (2 * Z.to_nat (nblocks offset (offset + Z.of_nat (length src)))) ->
  exists c' e', inode_write sb B ctx ip src offset s = Ok (Z.of_nat (length src), with_entry s ip i c' e') /\
    file_ok sb B (with_entry s ip i c' e') ip (set_i_entry e' i) /\
    content sb B c' e' = splice (Z.to_nat offset) src (content sb B (is_cache s) (i_entry i)) /\
    ie_type e' = ie_type (i_entry i) /\ ie_major e' = ie_major (i_entry i) /\ ie_minor e' = ie_minor (i_entry i) /\
    ie_num_links e' = ie_num_links (i_entry i) /\ ie_num_bytes e' = Z.max (ie_num_bytes (i_entry i)) (offset + Z.of_nat (length src)).
Proof.
  intros Hlay Hf Ho Hmax Hby Hr Hfr.
  destruct (proj1 (wp_ok _ _ _) (write_ok sb B Hlay s ctx ip i src offset [] 0 0 Hf Ho Hmax Hby
    ltac:(by rewrite Z.add_0_r) ltac:(lia) ltac:(by rewrite Nat.add_0_r)))
    as (r & s' & Heq & -> & c' & e' & ns' & -> & Hw & _).
  exists c', e'. split; [done|]. split; [apply Hw|]. split; [apply Hw|]. apply Hw.
Qed.

(** C7: writing a file does not disturb another one: a file with another inode
    number that shares no block with it keeps its attributes, its blocks and
    its content, on the disk and in memory, and still shares no block with it. *)
Theorem inode_write_isolated {St} sb (B : BlockCache St) {Hspec : BlockCacheSpec sb B} s ctx ip i ip2 i2 src offset :
  inode_layout sb -> file_ok sb B s ip i -> 0 <= offset <= ie_num_bytes (i_entry i) ->
  offset + Z.of_nat (length src) <= INODE_MAX_BYTES -> Forall byte_ok src ->
  bk_room (is_cache s) ctx [] (3 + 2 * nblocks offset (offset + Z.of_nat (length src))) ->
  has_free sb B (is_cache s) (2 * Z.to_nat (nblocks offset (offset + Z.of_nat (length src)))) ->
  file_ok sb B s ip2 i2 -> ip2 <> ip -> i_inode_no i2 <> i_inode_no i ->
  (forall n, n ∈ slots sb B (is_cache s) (i_entry i) -> n ∈ slots sb B (is_cache s) (i_entry i2) -> n = 0) ->
  exists r c' e', inode_write sb B ctx ip src offset s = Ok (r, with_entry s ip i c' e') /\
    file_ok sb B (with_entry s ip i c' e') ip2 i2 /\
    content sb B c' (i_entry i2) = content sb B (is_cache s) (i_entry i2) /\
    (forall n, n ∈ slots sb B c' e' -> n ∈ slots sb B c' (i_entry i2) -> n = 0).
Proof.
  intros Hlay Hf Ho Hmax Hby Hr Hfr Hf2 Hip Hno Hdis.
  destruct (proj1 (wp_ok _ _ _) (write_ok sb B Hlay s ctx ip i src offset [] 0 0 Hf Ho Hmax Hby
    ltac:(by rewrite Z.add_0_r) ltac:(lia) ltac:(by rewrite Nat.add_0_r)))
    as (r & s' & Heq & -> & c' & e' & ns' & -> & [Hw _ _ Hi Hv Ha Hs] & _).
  exists (Z.of_nat (length src)), c', e'. split; [done|].
  destruct Hf2 as [Hq Hobj Hval Hn2 Hd2 Hm2 Hsz Hfull Hty].
  set (c := is_cache s) in *. set (e2 := i_entry i2) in *.
  assert (forall n, n ∈ slots sb B c e2 -> n <> 0 -> bk_view c' n = bk_view c n) as Hv2.
  { intros n Hin Hn. destruct (mo_data _ _ _ _ Hm2 n Hin Hn) as [Hda Hal].
    apply Hv; [done|by apply (data_not_bitmap sb Hlay)| |by apply (data_not_inode sb Hlay); [|apply Hf]].
    intros Hin'. apply Hn. by apply Hdis. }
  pose proof (frame_slots sb B c c' e2 Hv2) as Hsl.
  split_and!.
  - split; simpl; fold e2; try done; [apply Hw|by rewrite lookup_insert_ne by done|by rewrite Hi| |].
    + eapply map_ok_same; done.
    + intros o Hoo. rewrite (block_at_same sb B c c' e2 e2 _ Hsl). by apply Hfull.
  - by apply frame_content.
  - intros n Hn1 Hn2'. rewrite Hsl in Hn2'. destruct (decide (n = 0)) as [|Hn0]; [done|].
    apply Hs in Hn1 as [Hn1|Hfree]; [by apply Hdis|].
    destruct (mo_data _ _ _ _ Hm2 n Hn2' Hn0) as [_ Hal]. by rewrite Hal in Hfree.
Qed.

End InodeFile.
