(* ===== verification/DirFacts.v ===== *)
(** * Directories (inode.c: [inode_lookup], [inode_insert], [inode_remove], [inode_empty])

    A directory is the list of entries its content holds; the operations on
    directories are operations on that list. *)
From S2P Require Import Prelude FsDefines CString Console BlockIface Inode InodeFacts InodeDisk InodeFile.

Module DirFacts.
Import CString Console Inode InodeFacts InodeDisk InodeFile.

#[global] Instance DirEntry_eq_dec : EqDecision DirEntry.
Proof. solve_decision. Defined.

#[global] Instance DirEntry_inhabited : Inhabited DirEntry := populate (mkDirEntry 0 []).

(** ** Content as a list of entries *)
Definition dirents (D : list Z) : list DirEntry :=
  (fun k => decode_DirEntry (slice (16 * k) 16 D)) <$> seq 0 (length D / 16).

Lemma length_dirents D : length (dirents D) = (length D / 16)%nat.
Proof. unfold dirents. by rewrite length_fmap, length_seq. Qed.

Lemma lookup_dirents D k :
  (k < length D / 16)%nat -> dirents D !! k = Some (decode_DirEntry (slice (16 * k) 16 D)).
Proof. intros Hk. unfold dirents. rewrite list_lookup_fmap, lookup_seq_lt by done. done. Qed.

Lemma lookup_dirents_Some D k d : dirents D !! k = Some d -> (16 * k + 16 <= length D)%nat.
Proof.
  intros Hk%lookup_lt_Some. rewrite length_dirents in Hk. pose proof (Nat.div_mod_eq (length D) 16). lia.
Qed.

(** Writing an entry in place, or at the end. *)
Lemma dirents_splice D k new :
  length new = 16%nat -> (16 * k < length D)%nat -> (length D mod 16 = 0)%nat ->
  dirents (splice (16 * k) new D) = <[k := decode_DirEntry new]> (dirents D).
Proof.
  intros Hn Hk Hm. pose proof (Nat.div_mod_eq (length D) 16) as Hd.
  assert (length (splice (16 * k) new D) = length D) as Hl by (rewrite length_splice; lia).
  apply list_eq. intros j. destruct (decide (j < length D / 16)%nat) as [Hj|Hj].
  - rewrite lookup_dirents by (rewrite Hl; lia). destruct (decide (j = k)) as [->|Hjk].
    + rewrite list_lookup_insert_eq by (rewrite length_dirents; lia).
      rewrite <- Hn. by rewrite slice_splice_eq by lia.
    + rewrite list_lookup_insert_ne by done. rewrite lookup_dirents by lia.
      by rewrite slice_splice_ne by lia.
  - rewrite !(proj2 (lookup_ge_None _ _)); [done| |]; rewrite ?length_insert, length_dirents, ?Hl; lia.
Qed.

Lemma dirents_append D new :
  length new = 16%nat -> (length D mod 16 = 0)%nat ->
  dirents (splice (length D) new D) = dirents D ++ [decode_DirEntry new].
Proof.
  intros Hn Hm. pose proof (Nat.div_mod_eq (length D) 16) as Hd.
  assert (splice (length D) new D = D ++ new) as ->
    by (unfold splice; rewrite take_ge, drop_ge by lia; by rewrite app_nil_r).
  unfold dirents. rewrite length_app, Hn.
  replace ((length D + 16) / 16)%nat with (length D / 16 + 1)%nat
    by (symmetry; apply (Nat.div_add (length D) 1 16); lia).
  rewrite seq_app, fmap_app. f_equal.
  - apply list_fmap_ext. intros i x Hx. apply lookup_seq in Hx as [-> Hx]. f_equal. unfold slice.
    rewrite drop_app_le by lia. rewrite take_app_le; [done|]. rewrite length_drop. lia.
  - cbn [seq fmap list_fmap]. rewrite Nat.add_0_l. do 2 f_equal.
    assert (16 * (length D / 16) = length D)%nat as -> by lia.
    unfold slice. rewrite drop_app_length. apply take_ge. lia.
Qed.

(** ** Names *)

(** The name field that [strncpy] writes, and whether an entry has a name. *)
Definition name_field (name : list Z) : list Z := take 14 (cstr name) ++ replicate (14 - length (cstr name)) 0.
Definition same_name (name name' : list Z) : Prop := take 14 (cstr name) = take 14 (cstr name').
Definition has_name (name : list Z) (d : DirEntry) : Prop := de_inode_no d <> 0 /\ same_name name (de_name d).
Definition is_free (d : DirEntry) : Prop := de_inode_no d = 0.

#[global] Instance same_name_dec name name' : Decision (same_name name name').
Proof. unfold same_name. apply _. Defined.
#[global] Instance has_name_dec name d : Decision (has_name name d).
Proof. unfold has_name. apply _. Defined.
#[global] Instance is_free_dec d : Decision (is_free d).
Proof. unfold is_free. apply _. Defined.

Lemma length_name_field name : length (name_field name) = 14%nat.
Proof. unfold name_field. rewrite length_app, length_take, length_replicate. lia. Qed.

Lemma strncpy_name_field dest name : length dest = 14%nat -> strncpy dest name 14 = name_field name.
Proof.
  intros Hl. rewrite strncpy_spec by lia. unfold name_field. rewrite drop_ge by lia. by rewrite app_nil_r.
Qed.

Lemma same_name_field name : same_name name (name_field name).
Proof.
  unfold same_name. rewrite <- (strncpy_name_field (replicate 14 0)) by done.
  symmetry. by apply take_cstr_strncpy.
Qed.

Lemma byte_ok_cstr s : Forall byte_ok s -> Forall byte_ok (cstr s).
Proof. induction 1 as [|c s Hc _ IH]; simpl; [done|]. destruct (c =? 0); by constructor. Qed.

Lemma byte_ok_name name : Forall byte_ok name -> Forall byte_ok (take 14 (cstr name)).
Proof. intros Hn. by apply Forall_take, byte_ok_cstr. Qed.

Lemma name_field_ok name : Forall byte_ok (take 14 (cstr name)) -> Forall byte_ok (name_field name).
Proof.
  intros Hn. apply Forall_app. split; [done|].
  apply Forall_replicate. unfold byte_ok. lia.
Qed.

(** The condition of the loop of [inode_lookup]. *)
Lemma lookup_test name d :
  length name = 14%nat -> length (de_name d) = 14%nat ->
  negb (de_inode_no d =? 0) && (strncmp name (de_name d) 14 =? 0) = bool_decide (has_name name d).
Proof.
  intros Hn Hd. apply eq_true_iff_eq. rewrite bool_decide_eq_true, andb_true_iff, negb_true_iff, Z.eqb_neq, Z.eqb_eq.
  rewrite strncmp_eq by lia. done.
Qed.

Section dir.
Context {St : Type} (sb : SuperBlock) (B : BlockCache St) {Hspec : BlockCacheSpec sb B}.
Context (Hlay : inode_layout sb).
Implicit Types (s : istate St) (c : St) (e : InodeEntry).

Definition entries c e : list DirEntry := dirents (content sb B c e).

(** A directory: a file of whole entries. *)
Record dir_ok s ip i : Prop := {
  do_file : file_ok sb B s ip i;
  do_type : ie_type (i_entry i) = INODE_DIRECTORY;
  do_whole : ie_num_bytes (i_entry i) mod 16 = 0
}.

Lemma length_dir_entries s ip i :
  dir_ok s ip i -> Z.of_nat (length (entries (is_cache s) (i_entry i))) * 16 = ie_num_bytes (i_entry i).
Proof.
  intros [Hf _ Hw]. unfold entries. rewrite length_dirents, length_content.
  destruct (mo_wf _ _ _ _ (fo_map _ _ _ _ _ Hf)) as (_ & _ & _ & _ & Hr & _).
  rewrite Nat2Z.inj_div, Z2Nat.id by lia. change (Z.of_nat 16) with 16.
  pose proof (Z.div_mod (ie_num_bytes (i_entry i)) 16). lia.
Qed.

Lemma dir_ok_calm s ip i c' : dir_ok s ip i -> calm sb B (is_cache s) c' -> dir_ok (set_is_cache c' s) ip i.
Proof. intros [] Hc. split; try done. by apply file_ok_calm. Qed.

Lemma calm_entries c c' e : calm sb B c c' -> entries c' e = entries c e.
Proof. intros Hc. unfold entries. by rewrite (calm_content sb B c c'). Qed.

(** Reading one entry. *)
Lemma read_entry s ip i (j : nat) d dentry :
  dir_ok s ip i -> entries (is_cache s) (i_entry i) !! j = Some d -> length dentry = 16%nat ->
  wp (inode_read sb B ip (16 * Z.of_nat j) sizeof_DirEntry) (fun r s' =>
    r.1 = sizeof_DirEntry /\ length r.2 = 16%nat /\ splice 0 r.2 dentry = r.2 /\ decode_DirEntry r.2 = d /\
    exists c', s' = set_is_cache c' s /\ calm sb B (is_cache s) c') s.
Proof using Hlay.
  intros Hd Hj Hl. pose proof (length_dir_entries _ _ _ Hd) as Hle. pose proof (lookup_lt_Some _ _ _ Hj) as Hlt.
  pose proof (fo_size _ _ _ _ _ (do_file _ _ _ Hd)) as Hsz. rewrite INODE_MAX_BYTES_eq in Hsz.
  eapply wp_mono; [apply (read_ok sb B Hlay s ip i); [apply Hd|lia|done|unfold sizeof_DirEntry; lia]|].
  intros r s' (-> & Hs'). cbn [fst snd]. unfold sizeof_DirEntry. rewrite Z.min_l by lia.
  assert (length (slice (Z.to_nat (16 * Z.of_nat j)) (Z.to_nat 16) (content sb B (is_cache s) (i_entry i))) = 16%nat) as Hls
    by (rewrite length_slice; rewrite ?length_content; lia).
  split_and!; try done.
  - unfold splice. rewrite Hls, drop_ge by lia. simpl. by rewrite app_nil_r.
  - unfold entries in Hj. rewrite lookup_dirents in Hj by (rewrite <- length_dirents; done).
    injection Hj as <-. by replace (Z.to_nat (16 * Z.of_nat j)) with (16 * j)%nat by lia.
Qed.

(** The loop over the entries finds the first that satisfies [P]. *)
Lemma dir_loop_ok {R} (P : DirEntry -> Prop) `{!forall d, Decision (P d)} (g : Z -> DirEntry -> R) k
    (fuel : nat) s ip i (j : nat) dentry :
  (forall off d, length (de_name d) = 14%nat -> k off d = if decide (P d) then Some (g off d) else None) ->
  dir_ok s ip i -> (j <= length (entries (is_cache s) (i_entry i)))%nat -> length dentry = 16%nat ->
  (length (entries (is_cache s) (i_entry i)) - j < fuel)%nat ->
  wp (dir_loop sb B fuel ip (16 * Z.of_nat j) dentry k) (fun r s' =>
    length r.2 = 16%nat /\ (exists c', s' = set_is_cache c' s /\ calm sb B (is_cache s) c') /\
    match list_find P (drop j (entries (is_cache s) (i_entry i))) with
    | Some (n, d) => r.1 = (Some (g (16 * Z.of_nat (j + n)) d), 16 * Z.of_nat (j + n))
    | None => r.1 = (None, ie_num_bytes (i_entry i))
    end) s.
Proof using Hlay.
  intros Hk. revert s j dentry. induction fuel as [|fuel IH]; intros s j dentry Hd Hj Hl Hfu; [lia|].
  simpl. unfold get_inode. apply wp_bind, wp_bind, wp_gets. rewrite (fo_obj _ _ _ _ _ (do_file _ _ _ Hd)). apply wp_ret.
  pose proof (length_dir_entries _ _ _ Hd) as Hle.
  pose proof (fo_size _ _ _ _ _ (do_file _ _ _ Hd)) as Hsz. rewrite INODE_MAX_BYTES_eq in Hsz.
  destruct (Z.ltb_spec (16 * Z.of_nat j) (ie_num_bytes (i_entry i))) as [Hlt|Hge].
  - destruct (lookup_lt_is_Some_2 (entries (is_cache s) (i_entry i)) j ltac:(lia)) as [d Hjd].
    apply wp_bind. eapply wp_mono; [by apply (read_entry s ip i j d dentry)|].
    intros [cnt b] s1 (_ & Hlb & Hsp & Hdec & c1 & -> & Hc1). cbn [fst snd] in *. rewrite Hsp, Hdec.
    rewrite (drop_S _ d _ Hjd). simpl list_find. rewrite Hk.
    + destruct (decide (P d)) as [Hp|Hp].
      * apply wp_ret. rewrite Nat.add_0_r. split_and!; try done. by exists c1.
      * replace (u64 (16 * Z.of_nat j + sizeof_DirEntry)) with (16 * Z.of_nat (S j))
          by (unfold sizeof_DirEntry; rewrite u64_id by lia; lia).
        eapply wp_mono; [apply (IH (set_is_cache c1 s) (S j)); simpl is_cache; rewrite ?(calm_entries _ _ _ Hc1);
          [by apply dir_ok_calm|lia|done|lia]|].
        intros r s2 (Hl2 & (c2 & -> & Hc2) & Hr). simpl is_cache in *. rewrite (calm_entries _ _ _ Hc1) in Hr.
        split_and!; [done|exists c2; split; [done|by eapply calm_trans]|].
        destruct (list_find P _) as [[n d']|]; simpl; [|done]. by rewrite Nat.add_succ_r.
    + rewrite <- Hdec. simpl. rewrite length_slice; lia.
  - apply wp_ret. rewrite drop_ge by lia. simpl. split_and!; [done| |f_equal; lia].
    exists (is_cache s). split; [by destruct s|]. apply calm_refl, Hd.
Qed.

Lemma dir_fuel_enough s ip i :
  dir_ok s ip i -> (length (entries (is_cache s) (i_entry i)) - 0 < dir_fuel (i_entry i))%nat.
Proof.
  intros Hd. pose proof (length_dir_entries _ _ _ Hd). unfold dir_fuel, sizeof_DirEntry.
  Z.to_euclidean_division_equations. lia.
Qed.

(** ** The operations *)
Definition found (o : option (nat * DirEntry)) : Z * Z :=
  match o with Some (k, d) => (de_inode_no d, Z.of_nat k) | None => (0, 0) end.

Lemma lookup_ok s ip i name :
  dir_ok s ip i -> length name = 14%nat ->
  wp (inode_lookup sb B ip name) (fun r s' =>
    r = found (list_find (has_name name) (entries (is_cache s) (i_entry i))) /\
    exists c', s' = set_is_cache c' s /\ calm sb B (is_cache s) c') s.
Proof using Hlay.
  intros Hd Hn. unfold inode_lookup, get_inode.
  apply wp_bind, wp_bind, wp_gets. rewrite (fo_obj _ _ _ _ _ (do_file _ _ _ Hd)). apply wp_ret.
  rewrite (do_type _ _ _ Hd). apply wp_bind, wp_assert; [done|]. apply wp_bind.
  eapply wp_mono; [apply (dir_loop_ok (has_name name) (fun off d => (de_inode_no d, off / sizeof_DirEntry)) _
    (dir_fuel (i_entry i)) s ip i 0 new_dentry); [|done|lia|done|by apply (dir_fuel_enough s ip)]|].
  - intros off d Hld. rewrite lookup_test by done. case_bool_decide; by case_decide.
  - intros [[o off] dn] s' (_ & Hs' & Hr). cbn [fst snd] in *. apply wp_ret. split; [|done].
    rewrite drop_0 in Hr. destruct (list_find _ _) as [[n d]|]; injection Hr as -> _; simpl; [|done].
    f_equal. unfold sizeof_DirEntry. rewrite Z.mul_comm. by apply Z.div_mul.
Qed.

(** Where a new entry goes, and the list after it. *)
Definition free_slot (l : list DirEntry) : nat :=
  match list_find is_free l with Some (k, _) => k | None => length l end.
Definition put_dirent (l : list DirEntry) (k : nat) (d : DirEntry) : list DirEntry :=
  if decide (k < length l)%nat then <[k := d]> l else l ++ [d].

Lemma free_slot_le l : (free_slot l <= length l)%nat.
Proof.
  unfold free_slot. destruct (list_find is_free l) as [[k d]|] eqn:E; [|lia].
  apply list_find_Some in E as [E%lookup_lt_Some _]. lia.
Qed.

Lemma nblocks_entry (k : nat) : nblocks (16 * Z.of_nat k) (16 * Z.of_nat k + 16) = 1.
Proof.
  unfold nblocks, BLOCK_SIZE. rewrite (proj2 (Z.ltb_lt _ _)) by lia. Z.to_euclidean_division_equations. lia.
Qed.

(** The directory at [ip] has the entries [l] now; other inodes, and the blocks
    in use that are not of the directory, are as before. *)
Record dir_step s ip i c' e' (l : list DirEntry) : Prop := {
  dst_dir : dir_ok (with_entry s ip i c' e') ip (set_i_entry e' i);
  dst_entries : entries c' e' = l;
  dst_links : ie_num_links e' = ie_num_links (i_entry i);
  dst_inodes : forall j, 1 <= j <= num_inodes sb -> j <> i_inode_no i ->
                 disk_inode sb B c' j = disk_inode sb B (is_cache s) j;
  dst_frame : forall n, bk_alloced (is_cache s) n = true -> ~ is_bitmap sb n ->
                n ∉ slots sb B (is_cache s) (i_entry i) -> n <> to_block_no sb (i_inode_no i) ->
                bk_view c' n = bk_view (is_cache s) n;
  dst_alloced : forall n, bk_alloced (is_cache s) n = true -> bk_alloced c' n = true;
  dst_slots : forall n, n ∈ slots sb B c' e' -> n ∈ slots sb B (is_cache s) (i_entry i) \/ bk_alloced (is_cache s) n = false
}.

Lemma dir_step_calm s ip i c1 c' e' l :
  calm sb B (is_cache s) c1 -> dir_step (set_is_cache c1 s) ip i c' e' l -> dir_step s ip i c' e' l.
Proof.
  intros Hc []. simpl in *. pose proof Hc as (_ & [Hv Ha] & _).
  split; [done..| | | |].
  - intros j Hj Hne. rewrite dst_inodes0 by done. by apply calm_disk_inode.
  - intros n Hn Hb Hs Hi. rewrite <- Hv. apply dst_frame0; [by rewrite Ha|done|by rewrite (calm_slots sb B _ _ _ Hc)|done].
  - intros n Hn. apply dst_alloced0. by rewrite Ha.
  - intros n Hn. rewrite <- Ha, <- (calm_slots sb B _ _ _ Hc). by apply dst_slots0.
Qed.

(** Writing one entry of a directory. *)
Lemma write_entry_ok s ctx ip i (k : nat) new ns k0 f :
  dir_ok s ip i -> (k <= length (entries (is_cache s) (i_entry i)))%nat ->
  16 * Z.of_nat k + 16 <= INODE_MAX_BYTES -> length new = 16%nat -> Forall byte_ok new ->
  bk_room (is_cache s) ctx ns (5 + k0) -> 0 <= k0 -> has_free sb B (is_cache s) (2 + f) ->
  wp (inode_write sb B ctx ip new (16 * Z.of_nat k)) (fun r s' => r = 16 /\ exists c' e' ns',
    s' = with_entry s ip i c' e' /\
    dir_step s ip i c' e' (put_dirent (entries (is_cache s) (i_entry i)) k (decode_DirEntry new)) /\
    (forall n, n ∈ ns -> n ∈ ns') /\ bk_room c' ctx ns' k0 /\ has_free sb B c' f) s.
Proof using Hlay.
  intros Hd Hk Hmax Hn Hby Hr Hk0 Hf. pose proof (length_dir_entries _ _ _ Hd) as Hle.
  assert (Z.of_nat (length new) = 16) as Hn16 by lia.
  pose proof (write_ok sb B Hlay s ctx ip i new (16 * Z.of_nat k) ns k0 f (do_file _ _ _ Hd)) as Hw.
  rewrite Hn16, nblocks_entry in Hw.
  eapply wp_mono; [apply Hw; [lia|lia|done|done|done|done]|].
  intros r s' (-> & c' & e' & ns' & -> & [Hfile Hc (Ht & _ & _ & Hlk & Hb) ? ? ? ?] & Hns & Hr' & Hf').
  rewrite Hn16 in Hb. split; [done|]. exists c', e', ns'. split_and!; try done. split; try done.
  - split; [done|simpl; rewrite Ht; apply Hd|]. simpl. rewrite Hb.
    pose proof (do_whole _ _ _ Hd). Z.to_euclidean_division_equations. lia.
  - unfold entries. rewrite Hc. replace (Z.to_nat (16 * Z.of_nat k)) with (16 * k)%nat by lia.
    set (D := content sb B (is_cache s) (i_entry i)) in *.
    assert (length D = 16 * length (dirents D))%nat as HD.
    { unfold D at 1. rewrite length_content. unfold entries in Hle. fold D in Hle. lia. }
    unfold entries in Hk. fold D in Hk. unfold put_dirent. case_decide as Hlt.
    + apply dirents_splice; [done|lia|]. rewrite HD, Nat.mul_comm. by apply Nat.Div0.mod_mul.
    + assert (16 * k = length D)%nat as -> by lia.
      apply dirents_append; [done|]. rewrite HD, Nat.mul_comm. by apply Nat.Div0.mod_mul.
Qed.

Definition new_dirent (name : list Z) (ino : Z) : DirEntry := mkDirEntry (u16 ino) (name_field name).

Lemma decode_new_dirent name ino :
  decode_DirEntry (le_bytes 2 (u16 ino) ++ name_field name) = new_dirent name ino.
Proof.
  change (le_bytes 2 (u16 ino) ++ name_field name) with (encode_DirEntry (mkDirEntry (u16 ino) (name_field name))).
  unfold decode_DirEntry, encode_DirEntry, new_dirent. cbn [de_inode_no de_name]. f_equal.
  - rewrite load_app_l by (rewrite length_le_bytes; lia). rewrite load_le_bytes.
    apply u16_id. unfold u16. by apply Z.mod_pos_bound.
  - unfold slice. rewrite drop_le_bytes_app. apply take_ge. by rewrite length_name_field.
Qed.

Lemma insert_ok s ctx ip i name ino ns k0 f :
  let l := entries (is_cache s) (i_entry i) in
  dir_ok s ip i -> Forall byte_ok (take 14 (cstr name)) -> 16 * Z.of_nat (free_slot l) + 16 <= INODE_MAX_BYTES ->
  bk_room (is_cache s) ctx ns (5 + k0) -> 0 <= k0 -> has_free sb B (is_cache s) (2 + f) ->
  wp (inode_insert sb B ctx ip name ino) (fun r s' => r = Z.of_nat (free_slot l) /\ exists c' e' ns',
    s' = with_entry s ip i c' e' /\
    dir_step s ip i c' e' (put_dirent l (free_slot l) (new_dirent name ino)) /\
    (forall n, n ∈ ns -> n ∈ ns') /\ bk_room c' ctx ns' k0 /\ has_free sb B c' f) s.
Proof using Hlay.
  intros l Hd Hn Hmax Hr Hk0 Hf. unfold inode_insert, get_inode.
  apply wp_bind, wp_bind, wp_gets. rewrite (fo_obj _ _ _ _ _ (do_file _ _ _ Hd)). apply wp_ret.
  rewrite (do_type _ _ _ Hd). apply wp_bind, wp_assert; [done|]. apply wp_bind.
  eapply wp_mono; [apply (dir_loop_ok is_free (fun _ _ => tt) _
    (dir_fuel (i_entry i)) s ip i 0 new_dentry); [|done|lia|done|by apply (dir_fuel_enough s ip)]|].
  - intros off d _. unfold is_free. destruct (Z.eqb_spec (de_inode_no d) 0); by case_decide.
  - intros [[o off] dn] s' (Hldn & (c1 & -> & Hc1) & Hres). cbn [fst snd] in *. rewrite drop_0 in Hres. fold l in Hres.
    assert (off = 16 * Z.of_nat (free_slot l)) as ->.
    { unfold free_slot. destruct (list_find is_free l) as [[n d]|]; injection Hres as _ ->; [done|].
      pose proof (length_dir_entries _ _ _ Hd). fold l in H. lia. }
    rewrite strncpy_name_field by (rewrite length_drop; lia). apply wp_bind.
    eapply wp_mono; [apply (write_entry_ok (set_is_cache c1 s) ctx ip i (free_slot l) _ ns k0 f); simpl is_cache;
      rewrite ?(calm_entries _ _ _ Hc1); [by apply dir_ok_calm|apply free_slot_le|done| | |by apply Hc1|done|]|].
    + rewrite length_app, length_le_bytes, length_name_field. done.
    + apply Forall_app. split; [apply le_bytes_ok|by apply name_field_ok].
    + eapply has_free_same; [done|apply Hc1].
    + intros r s' (_ & c' & e' & ns' & -> & Hst & Hrest). apply wp_ret. split.
      { unfold sizeof_DirEntry. rewrite Z.mul_comm. by apply Z.div_mul. }
      exists c', e', ns'. split; [done|]. split; [|done]. apply (dir_step_calm s ip i c1); [done|].
      rewrite decode_new_dirent in Hst. simpl is_cache in Hst. by rewrite (calm_entries _ _ _ Hc1) in Hst.
Qed.

Lemma remove_ok s ctx ip i (k : nat) :
  dir_ok s ip i -> (k < length (entries (is_cache s) (i_entry i)))%nat ->
  bk_room (is_cache s) ctx [] 5 -> has_free sb B (is_cache s) 2 ->
  wp (inode_remove sb B ctx ip (Z.of_nat k)) (fun _ s' => exists c' e',
    s' = with_entry s ip i c' e' /\
    dir_step s ip i c' e' (<[k := mkDirEntry 0 (replicate 14 0)]> (entries (is_cache s) (i_entry i)))) s.
Proof using Hlay.
  intros Hd Hk Hr Hf. unfold inode_remove, get_inode. pose proof (length_dir_entries _ _ _ Hd) as Hle.
  pose proof (fo_size _ _ _ _ _ (do_file _ _ _ Hd)) as Hsz. pose proof INODE_MAX_BYTES_eq as Hmx.
  apply wp_bind, wp_bind, wp_gets. rewrite (fo_obj _ _ _ _ _ (do_file _ _ _ Hd)). apply wp_ret.
  rewrite (do_type _ _ _ Hd). apply wp_bind, wp_assert; [done|].
  unfold sizeof_DirEntry. rewrite u64_id by lia. rewrite (proj2 (Z.leb_gt _ _)) by lia.
  replace (Z.of_nat k * 16) with (16 * Z.of_nat k) by lia. apply wp_bind.
  eapply wp_mono; [apply (write_entry_ok s ctx ip i k _ [] 0 0); try done; try lia|].
  { apply Forall_replicate. unfold byte_ok. lia. }
  intros r s' (_ & c' & e' & ns' & -> & Hst & _). apply wp_ret. exists c', e'. split; [done|].
  unfold put_dirent in Hst. by rewrite decide_True in Hst.
Qed.

(** *** Searching after an insertion *)
Lemma find_put_new l name ino :
  list_find (has_name name) l = None -> 0 < ino < 2 ^ 16 ->
  list_find (has_name name) (put_dirent l (free_slot l) (new_dirent name ino)) = Some (free_slot l, new_dirent name ino).
Proof.
  intros Hno%list_find_None Hino. pose proof (free_slot_le l) as Hle.
  assert (has_name name (new_dirent name ino)) as Hnew.
  { split; [simpl; rewrite u16_id by lia; lia|apply same_name_field]. }
  rewrite Forall_lookup in Hno. apply list_find_Some. unfold put_dirent. case_decide as Hlt.
  - split_and!; [by rewrite list_lookup_insert_eq by done|done|].
    intros j y Hj Hjl. rewrite list_lookup_insert_ne in Hj by lia. by eapply Hno.
  - assert (free_slot l = length l) as -> by lia.
    split_and!; [rewrite lookup_app_r, Nat.sub_diag by lia; done|done|].
    intros j y Hj Hjl. rewrite lookup_app_l in Hj by lia. by eapply Hno.
Qed.

Lemma find_put_other l name name' ino :
  ~ same_name name' name ->
  list_find (has_name name') (put_dirent l (free_slot l) (new_dirent name ino)) = list_find (has_name name') l.
Proof.
  intros Hne. assert (~ has_name name' (new_dirent name ino)) as Hnew.
  { intros [_ Hs]. apply Hne. unfold same_name in *. rewrite Hs. symmetry. apply same_name_field. }
  unfold put_dirent. case_decide as Hlt.
  - assert (forall d, l !! free_slot l = Some d -> ~ has_name name' d) as Hfr.
    { intros d Hd [Hnz _]. unfold free_slot in *. destruct (list_find is_free l) as [[k d']|] eqn:E; [|lia].
      apply list_find_Some in E as (E & Hfree & _). rewrite E in Hd. injection Hd as ->. done. }
    destruct (list_find (has_name name') l) as [[k d]|] eqn:E.
    + apply list_find_Some in E as (Hk & Hp & Hbefore). assert (k <> free_slot l) as Hkf by (intros ->; by apply (Hfr d)).
      apply list_find_Some. split_and!; [by rewrite list_lookup_insert_ne by done|done|].
      intros j y Hj Hjk. destruct (decide (j = free_slot l)) as [->|Hjf].
      * rewrite list_lookup_insert_eq in Hj by done. by injection Hj as <-.
      * rewrite list_lookup_insert_ne in Hj by done. by eapply Hbefore.
    + apply list_find_None in E. apply list_find_None. by apply Forall_insert.
  - destruct (list_find (has_name name') l) as [[k d]|] eqn:E.
    + apply list_find_Some in E as (Hk & Hp & Hbefore). pose proof (lookup_lt_Some _ _ _ Hk).
      apply list_find_Some. split_and!; [by rewrite lookup_app_l by lia|done|].
      intros j y Hj Hjk. rewrite lookup_app_l in Hj by lia. by eapply Hbefore.
    + apply list_find_None in E. apply list_find_None, Forall_app. by rewrite Forall_singleton.
Qed.

(** What the search finds after an insertion. *)
Lemma found_put l name name' ino :
  list_find (has_name name) l = None -> 0 < ino < 2 ^ 16 ->
  found (list_find (has_name name') (put_dirent l (free_slot l) (new_dirent name ino))) =
    if decide (same_name name' name) then (ino, Z.of_nat (free_slot l)) else found (list_find (has_name name') l).
Proof.
  intros Hno Hino. case_decide as Hs; [|by rewrite find_put_other].
  assert (forall d, has_name name' d <-> has_name name d) as Hhn by (intros d; unfold has_name, same_name in *; by rewrite Hs).
  pose proof (find_put_new l name ino Hno Hino) as Hfp.
  rewrite (list_find_ext (has_name name') (has_name name)) by (intros; apply Hhn). rewrite Hfp. simpl. by rewrite u16_id by lia.
Qed.

End dir.
(** [inode_lookup] gives the inode number and the index of the first entry
    in use that has the name (over its first 14 characters), and 0 when there
    is none; nothing changes. *)
Theorem inode_lookup_correct {St} sb (B : BlockCache St) {Hspec : BlockCacheSpec sb B} s ip i name :
  inode_layout sb -> dir_ok sb B s ip i -> length name = 14%nat ->
  exists c', inode_lookup sb B ip name s =
      Ok (found (list_find (has_name name) (entries sb B (is_cache s) (i_entry i))), set_is_cache c' s) /\
    (forall n, bk_view c' n = bk_view (is_cache s) n).
Proof.
  intros Hlay Hd Hn. destruct (proj1 (wp_ok _ _ _) (lookup_ok sb B Hlay s ip i name Hd Hn)) as (r & s' & Heq & -> & c' & -> & Hc).
  exists c'. split; [done|]. apply Hc.
Qed.

(** C10: [inode_insert] puts a new entry in the first free slot of the
    directory, or at its end, keeps all other entries, and returns the index:
    a name that was not there is then found by [inode_lookup] with its inode
    number and this index, and the search for any other name gives what it
    gave before. *)
Theorem inode_insert_lookup {St} sb (B : BlockCache St) {Hspec : BlockCacheSpec sb B} s ctx ip i name name' ino :
  let l := entries sb B (is_cache s) (i_entry i) in
  inode_layout sb -> dir_ok sb B s ip i -> length name = 14%nat -> length name' = 14%nat -> Forall byte_ok name ->
  0 < ino < 2 ^ 16 -> list_find (has_name name) l = None ->
  16 * Z.of_nat (free_slot l) + 16 <= INODE_MAX_BYTES ->
  bk_room (is_cache s) ctx [] 5 -> has_free sb B (is_cache s) 2 ->
  exists s1 s2, inode_insert sb B ctx ip name ino s = Ok (Z.of_nat (free_slot l), s1) /\
    (exists i1, dir_ok sb B s1 ip i1 /\
       entries sb B (is_cache s1) (i_entry i1) = put_dirent l (free_slot l) (new_dirent name ino)) /\
    inode_lookup sb B ip name' s1 =
      Ok (if decide (same_name name' name) then (ino, Z.of_nat (free_slot l))
          else found (list_find (has_name name') l), s2).
Proof.
  intros l Hlay Hd Hn Hn' Hby Hino Hno Hmax Hr Hf.
  destruct (proj1 (wp_ok _ _ _) (insert_ok sb B Hlay s ctx ip i name ino [] 0 0 Hd (byte_ok_name _ Hby) Hmax Hr ltac:(done) Hf))
    as (r & s1 & Heq & -> & c' & e' & _ & -> & [Hd' He' _ _ _ _ _] & _).
  destruct (proj1 (wp_ok _ _ _) (lookup_ok sb B Hlay _ ip (set_i_entry e' i) name' Hd' Hn')) as (r & s2 & Heq2 & -> & _).
  eexists _, s2. split; [exact Heq|]. split; [exists (set_i_entry e' i); by split|].
  rewrite Heq2. do 2 f_equal. simpl. rewrite He'. by apply found_put.
Qed.

(** [inode_remove] clears the entry of an index and keeps all others: the
    name it had is no longer found at that index. *)
Theorem inode_remove_correct {St} sb (B : BlockCache St) {Hspec : BlockCacheSpec sb B} s ctx ip i (k : nat) :
  inode_layout sb -> dir_ok sb B s ip i -> (k < length (entries sb B (is_cache s) (i_entry i)))%nat ->
  bk_room (is_cache s) ctx [] 5 -> has_free sb B (is_cache s) 2 ->
  exists c' e', inode_remove sb B ctx ip (Z.of_nat k) s = Ok (tt, with_entry s ip i c' e') /\
    dir_ok sb B (with_entry s ip i c' e') ip (set_i_entry e' i) /\
    entries sb B c' e' = <[k := mkDirEntry 0 (replicate 14 0)]> (entries sb B (is_cache s) (i_entry i)) /\
    forall name n d, list_find (has_name name) (entries sb B c' e') = Some (n, d) -> n <> k.
Proof.
  intros Hlay Hd Hk Hr Hf.
  destruct (proj1 (wp_ok _ _ _) (remove_ok sb B Hlay s ctx ip i k Hd Hk Hr Hf)) as ([] & s' & Heq & c' & e' & -> & [Hd' He' _ _ _ _ _]).
  exists c', e'. split_and!; try done; try apply Hd'.
  intros name n d (Hn & [Hz _] & _)%list_find_Some ->. rewrite He', list_lookup_insert_eq in Hn by done.
  by injection Hn as <-.
Qed.

End DirFacts.
