(* ===== verification/Namei.v ===== *)
(** * Resolving paths (namex, namei and nameiparent of src/fs/inode.c)

    The directories on the disk as a tree of inode numbers, the walk of a path
    through it, and [namex] as that walk: what it returns, the references it
    leaves, and that nothing on the disk changes. *)
From S2P Require Import Prelude FsDefines CString BlockIface Inode InodeFacts InodeDisk InodeFile DirFacts.

Module Namei.
Import CString Inode InodeFacts InodeDisk InodeFile DirFacts.

Section tree.
Context {St : Type} (sb : SuperBlock) (B : BlockCache St) {Hspec : BlockCacheSpec sb B}.
Context (Hlay : inode_layout sb) (uninit : InodeEntry).
Implicit Types (s : istate St) (c : St).

(** ** The tree on the disk *)
Definition dir_entries c (ino : Z) : list DirEntry := DirFacts.entries sb B c (disk_inode sb B c ino).

(** The inode number of a name in a directory; 0 when it is not there. *)
Definition lookup_in c (ino : Z) (name : list Z) : Z := (found (list_find (has_name name) (dir_entries c ino))).1.

(** An inode in use, and one that some directory names. *)
Definition used c (ino : Z) : Prop :=
  1 <= ino <= num_inodes sb /\ ie_type (disk_inode sb B c ino) <> INODE_INVALID.
Definition live c (ino : Z) : Prop :=
  1 <= ino <= num_inodes sb /\ ie_type (disk_inode sb B c ino) <> INODE_INVALID /\
  ie_num_links (disk_inode sb B c ino) <> 0.
Lemma live_used c ino : live c ino -> used c ino.
Proof. intros (? & ? & _). by split. Qed.

(** A directory on the disk, all of whose entries name such inodes. *)
Record dir_sound c (ino : Z) : Prop := {
  ds_map : map_ok sb B c (disk_inode sb B c ino);
  ds_size : ie_num_bytes (disk_inode sb B c ino) <= INODE_MAX_BYTES;
  ds_full : forall o, 0 <= o < ie_num_bytes (disk_inode sb B c ino) ->
              block_at sb B c (disk_inode sb B c ino) (o / BLOCK_SIZE) <> 0;
  ds_whole : ie_num_bytes (disk_inode sb B c ino) mod 16 = 0;
  ds_live : forall d, d ∈ dir_entries c ino -> de_inode_no d <> 0 -> live c (de_inode_no d)
}.

Definition is_dir c (ino : Z) : Prop := ie_type (disk_inode sb B c ino) = INODE_DIRECTORY.
#[export] Instance is_dir_dec c ino : Decision (is_dir c ino).
Proof. unfold is_dir. apply _. Defined.

(** What the loop of [namex] relies on; [L] are the objects that are locked. *)
Record tree_ok (L : gset nat) s : Prop := {
  to_quiet : quiet sb B (is_cache s);
  to_table : itable_ok s;
  to_lock : forall p i, is_objs s !! p = Some i -> i_lock i = bool_decide (p ∈ L);
  to_entry : forall p i, is_objs s !! p = Some i -> i_valid i = true ->
               i_entry i = disk_inode sb B (is_cache s) (i_inode_no i);
  to_dirs : forall ino, live (is_cache s) ino -> is_dir (is_cache s) ino -> dir_sound (is_cache s) ino
}.

(** *** Reading changes none of this *)
Section calm.
Context (c c' : St) (Hc : calm sb B c c').

Lemma calm_live ino : live c' ino <-> live c ino.
Proof using Hc. unfold live. by rewrite (calm_disk_inode sb B c c'). Qed.

Lemma calm_is_dir ino : is_dir c' ino <-> is_dir c ino.
Proof using Hc. unfold is_dir. by rewrite (calm_disk_inode sb B c c'). Qed.

Lemma calm_dir_entries ino : dir_entries c' ino = dir_entries c ino.
Proof using Hc. unfold dir_entries. rewrite (calm_disk_inode sb B c c') by done. by apply calm_entries. Qed.

Lemma calm_lookup_in ino name : lookup_in c' ino name = lookup_in c ino name.
Proof using Hc. unfold lookup_in. by rewrite calm_dir_entries. Qed.

Lemma calm_dir_sound ino : dir_sound c ino -> dir_sound c' ino.
Proof using Hc.
  intros []. pose proof (calm_slots sb B c c' (disk_inode sb B c ino) Hc) as Hsl.
  split; rewrite ?(calm_disk_inode sb B c c' ino Hc); [|assumption| |assumption|].
  - eapply map_ok_same; [exact ds_map0|exact Hsl|]. intros n Hn. by rewrite (proj2 (proj1 (proj2 Hc))).
  - intros o Ho. rewrite (block_at_same sb B c c' _ _ _ Hsl). auto.
  - intros d. rewrite calm_dir_entries, calm_live. auto.
Qed.
End calm.

Lemma tree_ok_calm L s c' : tree_ok L s -> calm sb B (is_cache s) c' -> tree_ok L (set_is_cache c' s).
Proof.
  intros [Hq [] Hl He Hd] Hc. split; simpl; [apply Hc|by split|done| |].
  - intros p i Hp Hv. rewrite (calm_disk_inode sb B _ c' _ Hc). by apply (He p).
  - intros ino Hli Hdi. eapply calm_dir_sound; [done|]. apply Hd; [by apply (calm_live _ _ Hc)|by apply (calm_is_dir _ _ Hc)].
Qed.

(** Changing one object: its lock, its count, or loading its entry. *)
Lemma tree_ok_upd L L' s p i i' :
  tree_ok L s -> is_objs s !! p = Some i -> i_inode_no i' = i_inode_no i -> 0 < i_rc i' ->
  (i_valid i' = true -> i_entry i' = disk_inode sb B (is_cache s) (i_inode_no i)) ->
  i_lock i' = bool_decide (p ∈ L') -> (forall q, q <> p -> q ∈ L' <-> q ∈ L) -> tree_ok L' (upd_object p i' s).
Proof.
  intros [Hq Ht Hl He Hd] Hp Hno Hrc Hv Hlk Hh. split; simpl; [done|by apply (itable_ok_upd s p i)| | |done].
  - intros q j [[<- <-]|[Hne Hj]]%lookup_insert_Some; [done|]. rewrite (bool_decide_ext _ _ (Hh q (not_eq_sym Hne))). by apply Hl.
  - intros q j [[<- <-]|[Hne Hj]]%lookup_insert_Some; [by rewrite Hno; apply Hv|]. by apply (He q).
Qed.

(** ** The steps of the loop *)

(** The object after [inode_lock]: loaded and locked. *)
Definition locked c (i : Inode) : Inode :=
  set_i_lock true (set_i_valid true (set_i_entry (disk_inode sb B c (i_inode_no i)) i)).

Lemma load_ok s ip i :
  quiet sb B (is_cache s) -> is_objs s !! ip = Some i -> i_valid i = false -> 1 <= i_inode_no i <= num_inodes sb ->
  wp (inode_sync sb B None ip false) (fun _ s' => exists c', calm sb B (is_cache s) c' /\
    s' = upd_object ip (set_i_valid true (set_i_entry (disk_inode sb B (is_cache s) (i_inode_no i)) i)) (set_is_cache c' s)) s.
Proof using Hlay.
  intros Hq Hip Hv Hno. unfold inode_sync, upd_inode, get_inode, put_inode. apply wp_bind, wp_bind, wp_gets. rewrite Hip. apply wp_ret.
  apply (wp_peek sb B s); [done|by apply (inode_in_groups sb Hlay)|]. intros p c Hok [Hsv Hsa] Hh Hdy Hrc.
  apply wp_bind, (wp_data sb B _ p (to_block_no sb (i_inode_no i))); [done|simpl; by rewrite Hh, lookup_singleton_eq|].
  rewrite Hv. simpl andb. cbv iota. apply wp_bind. unfold negb. apply wp_bind, wp_bind, wp_gets. simpl is_objs. rewrite Hip. apply wp_ret, wp_modify.
  simpl is_cache. rewrite Hsv. fold (disk_inode sb B (is_cache s) (i_inode_no i)).
  apply (wp_release sb B _ p (to_block_no sb (i_inode_no i))); [done|simpl; by rewrite Hh, lookup_singleton_eq|done|].
  simpl is_cache. intros c' Hok' [Hv' Ha'] Hh' _ Hr'. exists c'. split; [|done].
  split; [split; [done|]; by rewrite Hh', Hh, delete_singleton_eq|]. split; [split; intros n; [by rewrite Hv', Hsv|by rewrite Ha', Hsa]|auto].
Qed.

Lemma lock_ok L s ip i :
  tree_ok L s -> ip ∉ L -> is_objs s !! ip = Some i -> used (is_cache s) (i_inode_no i) ->
  wp (inode_lock sb B ip) (fun _ s' => exists c', calm sb B (is_cache s) c' /\
    s' = upd_object ip (locked (is_cache s) i) (set_is_cache c' s)) s.
Proof using Hlay.
  intros Hs Hnl Hip (Hno & Hty). pose proof (to_lock _ _ Hs _ _ Hip) as Hl. rewrite bool_decide_eq_false_2 in Hl by done. pose proof (it_rc s (to_table _ _ Hs) _ _ Hip) as Hrc.
  unfold inode_lock, upd_inode, get_inode, put_inode. apply wp_bind, wp_bind, wp_gets. rewrite Hip. apply wp_ret.
  apply wp_bind, wp_assert; [by apply Z.ltb_lt|]. apply wp_bind, wp_assert; [by rewrite Hl|].
  apply wp_bind, wp_bind, wp_bind, wp_gets. rewrite Hip. apply wp_ret, wp_modify. fold (upd_object ip (set_i_lock true i) s).
  apply wp_bind. apply (wp_mono _ (fun _ s' => exists c', calm sb B (is_cache s) c' /\
    s' = upd_object ip (locked (is_cache s) i) (set_is_cache c' s))).
  - destruct (i_valid i) eqn:Hv; simpl whenM.
    + apply wp_ret. exists (is_cache s). split; [apply calm_refl, Hs|]. unfold locked.
      rewrite <- (to_entry _ _ Hs _ _ Hip Hv). destruct s, i; simpl in *; by subst.
    + eapply wp_mono; [apply (load_ok (upd_object ip (set_i_lock true i) s) ip (set_i_lock true i)); simpl; try done; [apply Hs|apply lookup_insert_eq]|].
      intros [] s' (c' & Hc & ->). exists c'. split; [done|]. unfold upd_object. simpl. by rewrite insert_insert_eq.
  - intros [] s' (c' & Hc & ->). apply wp_bind, wp_bind, wp_gets. simpl. rewrite lookup_insert_eq. apply wp_ret, wp_assert; [|by exists c'].
    simpl. apply negb_true_iff. by apply Z.eqb_neq.
Qed.

Lemma locked_ok L s ip i c' :
  tree_ok L s -> is_objs s !! ip = Some i -> calm sb B (is_cache s) c' ->
  tree_ok ({[ip]} ∪ L) (upd_object ip (locked (is_cache s) i) (set_is_cache c' s)).
Proof.
  intros Hs Hip Hc. apply (tree_ok_upd L ({[ip]} ∪ L) _ ip i); simpl; try done.
  - by apply tree_ok_calm. - by eapply it_rc; [apply Hs|]. - intros _. by rewrite (calm_disk_inode sb B (is_cache s) c' _ Hc).
  - symmetry. apply bool_decide_eq_true_2. set_solver. - set_solver.
Qed.

(** The locked object is a directory: [inode_lookup] applies. *)
Lemma locked_dir L s ip i :
  tree_ok L s -> is_objs s !! ip = Some i -> i_valid i = true -> live (is_cache s) (i_inode_no i) ->
  is_dir (is_cache s) (i_inode_no i) -> dir_ok sb B s ip i.
Proof.
  intros Hs Hip Hv Hli Hdir. pose proof (to_entry _ _ Hs _ _ Hip Hv) as He. destruct (to_dirs _ _ Hs _ Hli Hdir).
  unfold is_dir in Hdir. split; [|by rewrite He|by rewrite He].
  split; rewrite ?He; try done; [apply Hs|apply Hli|by rewrite Hdir].
Qed.

Lemma lookup_step L s ip i name :
  tree_ok L s -> is_objs s !! ip = Some i -> i_valid i = true -> live (is_cache s) (i_inode_no i) ->
  is_dir (is_cache s) (i_inode_no i) -> length name = 14%nat ->
  wp (inode_lookup sb B ip name) (fun r s' => r.1 = lookup_in (is_cache s) (i_inode_no i) name /\
    exists c', calm sb B (is_cache s) c' /\ s' = set_is_cache c' s) s.
Proof using Hlay.
  intros Hs Hip Hv Hli Hdir Hn. pose proof (locked_dir L s ip i Hs Hip Hv Hli Hdir) as Hd.
  eapply wp_mono; [by apply (lookup_ok sb B Hlay s ip i name Hd)|]. intros r s' (-> & c' & -> & Hc).
  split; [|by exists c']. unfold lookup_in, dir_entries. by rewrite (to_entry _ _ Hs _ _ Hip Hv).
Qed.

Lemma unlock_step L s ip i (Q : unit -> istate St -> Prop) :
  tree_ok L s -> ip ∈ L -> is_objs s !! ip = Some i ->
  (tree_ok (L ∖ {[ip]}) (upd_object ip (set_i_lock false i) s) -> Q tt (upd_object ip (set_i_lock false i) s)) ->
  wp (inode_unlock (St := St) ip) Q s.
Proof.
  intros Hs HL Hip HQ. pose proof (to_lock _ _ Hs _ _ Hip) as Hl. rewrite bool_decide_eq_true_2 in Hl by done.
  pose proof (it_rc s (to_table _ _ Hs) _ _ Hip) as Hrc.
  unfold inode_unlock, upd_inode, get_inode, put_inode. apply wp_bind, wp_bind, wp_gets. rewrite Hip. apply wp_ret.
  apply wp_bind, wp_assert; [done|]. apply wp_bind, wp_assert; [by apply Z.ltb_lt|]. apply wp_bind, wp_bind, wp_gets. rewrite Hip.
  apply wp_ret, wp_modify, HQ. apply (tree_ok_upd L (L ∖ {[ip]}) s ip i); simpl; try done.
  - intros Hv. by apply (to_entry _ _ Hs ip).
  - symmetry. apply bool_decide_eq_false_2. set_solver.
  - set_solver.
Qed.

(** What [s'] keeps of [s]: the objects, by their numbers. *)
Definition keeps_objects s s' (ok : nat -> Inode -> Prop) : Prop :=
  forall q x, is_objs s !! q = Some x -> ok q x -> exists x', is_objs s' !! q = Some x' /\ i_inode_no x' = i_inode_no x /\
    i_valid x' = i_valid x /\ i_entry x' = i_entry x.

(** One for the number [ino]. *)
Definition one (ino j : Z) : Z := if decide (j = ino) then 1 else 0.

Lemma get_step L s ino :
  tree_ok L s -> (forall p, p ∈ L -> is_Some (is_objs s !! p)) -> 1 <= ino <= num_inodes sb ->
  wp (inode_get sb uninit ino) (fun p s' => tree_ok L s' /\ is_cache s' = is_cache s /\ is_cwd s' = is_cwd s /\
    (exists i, is_objs s' !! p = Some i /\ i_inode_no i = ino) /\ (forall j, refs s' j = refs s j + one ino j) /\
    keeps_objects s s' (fun _ _ => True)) s.
Proof.
  intros Hs Hh Hino. pose proof (to_table _ _ Hs) as Ht. pose proof (it_lock s Ht) as Hlk. unfold wp.
  destruct (find_inode (is_objs s) ino (is_head s)) as [p|] eqn:E.
  - pose proof E as (i & _ & Hp & <- & Hrc)%find_inode_Some. rewrite (inode_get_found sb uninit _ s p i Hlk Hino E Hp).
    fold (upd_object p (set_i_rc (i_rc i + 1) i) s). split_and!; try done.
    + apply (tree_ok_upd L L s p i); simpl; try done; [lia|by apply (to_entry _ _ Hs p)|by apply (to_lock _ _ Hs p)].
    + eexists. split; [apply lookup_insert_eq|done].
    + intros j. rewrite (refs_upd s p i) by (done || simpl; lia). unfold one. case_decide; [|lia]. subst j.
      by rewrite (refs_at s p i Ht Hp).
    + intros q x Hq _. simpl. destruct (decide (q = p)) as [->|Hne].
      * rewrite lookup_insert_eq. eexists. split; [done|]. by simplify_eq.
      * rewrite lookup_insert_ne by done. by exists x.
  - rewrite (inode_get_fresh sb uninit ino s Hlk Hino E).
    assert (is_objs s !! is_next s = None) as Hnone.
    { apply eq_None_not_Some. intros Hx. pose proof (it_next s Ht _ Hx). lia. }
    assert (is_next s ∉ L) as Hnx by (intros Hq; destruct (Hh _ Hq); congruence).
    split_and!; try done.
    + split; simpl; [apply Hs|by apply itable_ok_add| | |apply Hs].
      * intros q x [[<- <-]|[Hne Hx]]%lookup_insert_Some; [|by apply (to_lock _ _ Hs q)]. symmetry. simpl.
        by apply bool_decide_eq_false_2.
      * intros q x [[<- <-]|[Hne Hx]]%lookup_insert_Some; [done|by apply (to_entry _ _ Hs q)].
    + eexists. split; [apply lookup_insert_eq|done].
    + intros j. rewrite (refs_add uninit s ino j Ht E). unfold one. case_decide; [|lia]. subst j.
      unfold refs. by rewrite E.
    + intros q x Hq _. exists x. simpl. rewrite lookup_insert_ne; [done|congruence].
Qed.

Lemma put_step L s ctx ip i :
  tree_ok L s -> is_objs s !! ip = Some i -> 1 < i_rc i \/ ie_num_links (i_entry i) <> 0 ->
  wp (inode_put sb B ctx ip) (fun _ s' => tree_ok L s' /\ is_cache s' = is_cache s /\ is_cwd s' = is_cwd s /\
    (forall j, refs s' j = refs s j - one (i_inode_no i) j) /\ keeps_objects s s' (fun q x => q = ip -> 1 < i_rc x)) s.
Proof.
  intros Hs Hip Hn. pose proof (to_table _ _ Hs) as Ht. pose proof (it_rc s Ht _ _ Hip) as Hrc. unfold wp.
  rewrite (inode_put_eq sb B s ctx ip i (it_lock s Ht) Hip Hrc Hn).
  assert (forall q x, is_objs (drop_ref ip i s) !! q = Some x -> exists x0, is_objs s !! q = Some x0 /\
    i_inode_no x = i_inode_no x0 /\ i_valid x = i_valid x0 /\ i_entry x = i_entry x0 /\ i_lock x = i_lock x0) as Hlk.
  { intros q x. unfold drop_ref. case_match; simpl; [intros [_ Hx]%lookup_delete_Some; revert Hx|];
      (intros [[<- <-]|[_ Hx]]%lookup_insert_Some; [by exists i|by exists x]). }
  assert (is_cache (drop_ref ip i s) = is_cache s /\ is_cwd (drop_ref ip i s) = is_cwd s) as [Ec Ew] by (unfold drop_ref; by case_match).
  split_and!; [|done|done| |].
  - split; rewrite ?Ec; [apply Hs|by apply itable_ok_drop| | |apply Hs].
    + intros q x (x0 & Hx0 & _ & _ & _ & ->)%Hlk. by apply (to_lock _ _ Hs q).
    + intros q x (x0 & Hx0 & -> & -> & -> & _)%Hlk. by apply (to_entry _ _ Hs q).
  - intros j. rewrite (refs_drop s ip i j Ht Hip). unfold one. case_decide; [|lia]. subst j. by rewrite (refs_at s ip i Ht Hip).
  - intros q x Hq Hqr. unfold drop_ref. destruct (decide (q = ip)) as [->|Hne].
    + assert (x = i) as -> by congruence. specialize (Hqr eq_refl). rewrite (proj2 (Z.eqb_neq _ 1)) by lia. simpl.
      rewrite lookup_insert_eq. by eexists.
    + exists x. split; [|done]. case_match; simpl; rewrite ?lookup_delete_ne, lookup_insert_ne by done; done.
Qed.

(** ** The walk *)

(** How the walk ends: at an inode, with the name of the element visited last;
    at a name that is not there; or where [namex] begins an operation. *)
Inductive walk_result : Type :=
| Found (ino : Z) (name : list Z)
| Missing
| Nested.

(** What is left of the path is "." and nothing behind it. *)
Definition dot_end (l : list (nat * list Z)) (n : nat) : bool :=
  match l with [(_, [a])] => (a =? 46) && (n =? 0)%nat | _ => false end.

(** The elements [l] of a path, from the directory [ino]. *)
Fixpoint resolve c (parent : bool) (ino : Z) (l : list (nat * list Z)) (n : nat) : walk_result :=
  match l with
  | [] => if parent then Nested else Found ino []
  | (_, e) :: rest =>
      if negb (ie_type (disk_inode sb B c ino) =? INODE_DIRECTORY) then Nested
      else if parent && match rest with [] => true | _ => false end then Found ino (take 14 e)
      else if dot_end rest n then Found ino (take 14 e)
      else
        let j := lookup_in c ino e in
        if j =? 0 then Missing else resolve c parent j rest n
  end.

Lemma resolve_calm c c' parent ino l n : calm sb B c c' -> resolve c' parent ino l n = resolve c parent ino l n.
Proof.
  intros Hc. revert ino. induction l as [|[k e] rest IH]; intros ino; [done|]. cbn [resolve].
  rewrite (calm_disk_inode sb B c c' _ Hc), (calm_lookup_in c c' Hc).
  destruct (negb _); [done|]. destruct (parent && _); [done|]. destruct (dot_end _ _); [done|]. destruct (_ =? _); [done|apply IH].
Qed.

Definition elem_ok (ke : nat * list Z) : Prop := Forall elem_char ke.2 /\ ke.2 <> [].

Lemma path_rest_empty l n : Forall elem_ok l -> (byte_at (skip_slashes (render l n)) 0 =? 0) = match l with [] => true | _ => false end.
Proof.
  intros Hl. destruct Hl as [|[k e] rest [He Hne] _].
  - simpl. rewrite <- (app_nil_r (replicate n 47)), skip_slashes_app. done.
  - rewrite skip_render_cons by done. simpl in He, Hne. destruct He as [|c e [_ Hc] _]; [done|]. by apply Z.eqb_neq.
Qed.

Lemma rest_dot l n : Forall elem_ok l ->
  (byte_at (skip_slashes (render l n)) 0 =? 46) && (byte_at (skip_slashes (render l n)) 1 =? 0) = dot_end l n.
Proof.
  intros Hl. destruct Hl as [|[k e] rest [He Hne] _].
  - simpl. rewrite <- (app_nil_r (replicate n 47)), skip_slashes_app. done.
  - rewrite skip_render_cons by done. simpl in He, Hne. destruct He as [|a e [Ha1 Ha0] He]; [done|].
    unfold dot_end, byte_at. destruct He as [|b e [_ Hb] _]; simpl.
    + destruct rest as [|[k' e'] rest']; simpl; [by destruct n|by rewrite andb_false_r].
    + rewrite (proj2 (Z.eqb_neq b 0)), andb_false_r by done. by destruct rest.
Qed.

Lemma lookup_in_name c ino name e :
  Forall elem_char e -> take 14 (cstr name) = take 14 e -> lookup_in c ino name = lookup_in c ino e.
Proof.
  intros He Hn. unfold lookup_in. f_equal. f_equal.
  assert (same_name name e) as Hs.
  { unfold same_name. rewrite Hn. rewrite <- (app_nil_r e) at 2. rewrite cstr_elem by done. simpl. by rewrite app_nil_r. }
  apply list_find_ext. intros d. unfold has_name, same_name in *. by rewrite Hs.
Qed.

Lemma lookup_live c ino name : dir_sound c ino -> lookup_in c ino name <> 0 -> live c (lookup_in c ino name).
Proof.
  intros Hd. unfold lookup_in. destruct (list_find _ _) as [[k d]|] eqn:E; [|done]. simpl. intros Hn.
  apply list_find_Some in E as (E & _ & _). eapply ds_live; [done|by eapply list_elem_of_lookup_2|done].
Qed.

(** What [namex_loop] has done from [s], with a reference to [ino] to give up. *)
Definition walked s (ino : Z) (parent : bool) (res : walk_result) (r : option nat * list Z) s' : Prop :=
  tree_ok ∅ s' /\ calm sb B (is_cache s) (is_cache s') /\ is_cwd s' = is_cwd s /\
  match res with
  | Found j name =>
      (exists p i, r.1 = Some p /\ is_objs s' !! p = Some i /\ i_inode_no i = j) /\
      (parent = true -> length r.2 = 14%nat /\ take 14 (cstr r.2) = name) /\
      forall k, refs s' k = refs s k - one ino k + one j k
  | Missing => r.1 = None /\ forall k, refs s' k = refs s k - one ino k
  | Nested => False
  end.

Lemma walked_trans s s1 ino j parent res r s' :
  calm sb B (is_cache s) (is_cache s1) -> is_cwd s1 = is_cwd s ->
  (forall k, refs s1 k = refs s k - one ino k + one j k) -> walked s1 j parent res r s' -> walked s ino parent res r s'.
Proof.
  intros Hc Hw Hr (Ht & Hc' & Hw' & Hres). split; [done|]. split; [by eapply calm_trans|]. split; [congruence|].
  destruct res as [j' name| |]; [|destruct Hres as [? Hk]; split; [done|]; intros k; rewrite Hk, Hr; lia|done].
  destruct Hres as (? & ? & Hk). split_and!; [done|done|]. intros k. rewrite Hk, Hr. lia.
Qed.

(** Giving back the lock, with the walk at its end. *)
Lemma finish_ok s s0 ip i parent name0 (name : list Z) :
  let ino := i_inode_no i in
  tree_ok {[ip]} s -> is_objs s !! ip = Some i -> calm sb B (is_cache s0) (is_cache s) -> is_cwd s = is_cwd s0 ->
  (forall k, refs s k = refs s0 k) -> (parent = true -> length name = 14%nat /\ take 14 (cstr name) = name0) ->
  wp (inode_unlock (St := St) ip;; mret (Some ip, name)) (walked s0 ino parent (Found ino name0)) s.
Proof.
  intros ino Hs Hip Hc Hw Hr Hn. apply wp_bind, (unlock_step {[ip]} s ip i); [done|set_solver|done|]. rewrite difference_diag_L. intros Hs'. apply wp_ret.
  split; [done|]. split; [done|]. split; [done|]. split; [|split; [done|]].
  - eexists _, _. split; [done|]. split; [apply lookup_insert_eq|done].
  - intros k. rewrite (refs_upd s ip i) by first [done|exact (to_table _ _ Hs)|exact (it_rc s (to_table _ _ Hs) ip i Hip)].
    rewrite <- Hr. unfold one, ino. case_decide as Hk; [|lia]. simpl. rewrite Hk, (refs_at s ip i); [lia|apply Hs|done].
Qed.

(** Giving up the reference to the directory, which is locked. *)
Lemma leave_ok {A} L s ip i ctx (m : M (istate St) A) Q :
  let ino := i_inode_no i in
  tree_ok L s -> ip ∈ L -> is_objs s !! ip = Some i -> i_valid i = true -> live (is_cache s) ino ->
  (forall s', tree_ok (L ∖ {[ip]}) s' -> is_cache s' = is_cache s -> is_cwd s' = is_cwd s -> (forall k, refs s' k = refs s k - one ino k) ->
     keeps_objects s s' (fun q x => q = ip -> 1 < i_rc x) -> wp m Q s') ->
  wp (inode_unlock (St := St) ip;; inode_put sb B ctx ip;; m) Q s.
Proof.
  intros ino Hs HL Hip Hv Hli HQ. apply wp_bind, (unlock_step L s ip i); [done|done|done|]. intros Hs'.
  set (s1 := upd_object ip (set_i_lock false i) s) in *.
  assert (is_objs s1 !! ip = Some (set_i_lock false i)) as Hip1 by apply lookup_insert_eq.
  apply wp_bind. eapply wp_mono; [apply (put_step _ s1 ctx ip (set_i_lock false i) Hs' Hip1)|].
  - right. simpl. rewrite (to_entry _ _ Hs _ _ Hip Hv). apply Hli.
  - intros [] s2 (Hs2 & Hc & Hw & Hr & Hk). apply HQ; try done.
    + intros k. rewrite Hr. simpl. unfold s1. rewrite (refs_upd s ip i) by first [done|exact (to_table _ _ Hs)|exact (it_rc s (to_table _ _ Hs) ip i Hip)].
      case_decide as E; [|done]. rewrite E, (refs_at s ip i); [done|apply Hs|done].
    + intros q x Hq Hqr. destruct (decide (q = ip)) as [->|Hne].
      * assert (x = i) as -> by congruence. destruct (Hk _ _ Hip1) as (x' & ? & ? & ? & ?); [auto|]. by exists x'.
      * destruct (Hk q x) as (x' & ?); [simpl; by rewrite lookup_insert_ne|done|by exists x'].
Qed.

(** The rest of an iteration, with the directory locked: the name is looked
    up, and the walk goes on at what it names. *)
Lemma go_on_ok s s0 ip i ctx parent name e (k : nat -> M (istate St) (option nat * list Z)) res :
  let ino := i_inode_no i in
  tree_ok {[ip]} s -> is_objs s !! ip = Some i -> i_valid i = true -> live (is_cache s) ino -> is_dir (is_cache s) ino ->
  length name = 14%nat -> Forall elem_char e -> take 14 (cstr name) = take 14 e ->
  calm sb B (is_cache s0) (is_cache s) -> is_cwd s = is_cwd s0 -> (forall j, refs s j = refs s0 j) ->
  let j := lookup_in (is_cache s0) ino e in
  (j = 0 -> res = Missing) ->
  (j <> 0 -> forall p x s', tree_ok ∅ s' -> is_objs s' !! p = Some x -> i_inode_no x = j -> live (is_cache s') j ->
     calm sb B (is_cache s0) (is_cache s') -> wp (k p) (walked s' j parent res) s') ->
  wp (r ← inode_lookup sb B ip name;
      if r.1 =? 0 then inode_unlock ip;; inode_put sb B (Some ctx) ip;; mret (None, name)
      else r ← inode_lookup sb B ip name; next ← inode_get sb uninit r.1;
           inode_unlock ip;; inode_put sb B (Some ctx) ip;; k next) (walked s0 ino parent res) s.
Proof using Hlay.
  intros ino Hs Hip Hv Hli Hdir Hn He Hne Hc Hw Hr j Hmiss Hgo.
  pose proof (to_dirs _ _ Hs _ Hli Hdir) as Hds.
  assert (lookup_in (is_cache s) ino name = j) as Hj by (by rewrite (lookup_in_name _ _ name e He Hne), (calm_lookup_in _ _ Hc)).
  apply wp_bind. eapply wp_mono; [by apply (lookup_step {[ip]} s ip i name)|]. intros r s1 (Hr1 & c1 & Hc1 & ->).
  fold ino in Hr1. rewrite Hr1, Hj. pose proof (tree_ok_calm _ _ _ Hs Hc1) as Hs1.
  destruct (Z.eqb_spec j 0) as [H0|H0].
  - rewrite (Hmiss H0). apply (leave_ok {[ip]} (set_is_cache c1 s) ip i); [done|set_solver|done|done|by apply (calm_live _ _ Hc1)|].
    rewrite difference_diag_L. intros s2 Hs2 Hc2 Hw2 Hr2 _. apply wp_ret. split; [done|]. rewrite Hc2, Hw2. split; [by eapply calm_trans|]. split; [done|].
    split; [done|]. intros k'. rewrite Hr2. change (refs (set_is_cache c1 s) k') with (refs s k'). by rewrite Hr.
  - apply wp_bind. eapply wp_mono; [apply (lookup_step {[ip]} (set_is_cache c1 s) ip i name); try done; simpl;
      [by apply (calm_live _ _ Hc1)|by apply (calm_is_dir _ _ Hc1)]|].
    intros r' s2 (Hr2 & c2 & Hc2 & ->). simpl in Hr2, Hc2. fold ino in Hr2. rewrite (calm_lookup_in _ _ Hc1), Hj in Hr2. rewrite Hr2.
    pose proof (tree_ok_calm _ _ _ Hs1 Hc2) as Hs2. pose proof (calm_trans _ _ _ _ _ Hc1 Hc2) as Hc12.
    assert (live (is_cache s) j) as Hlj by (rewrite <- Hj; apply lookup_live; [done|by rewrite Hj]).
    apply wp_bind. eapply wp_mono; [apply (get_step {[ip]} (set_is_cache c2 s) j); [exact Hs2|intros p ->%elem_of_singleton; by exists i|apply Hlj]|].
    intros p s3 (Hs3 & Hc3 & Hw3 & (x & Hx & Hxj) & Hr3 & Hk3). destruct (Hk3 ip i Hip I) as (i3 & Hi3 & Hno3 & Hv3 & _).
    assert (live (is_cache s3) (i_inode_no i3)) as Hli3 by (rewrite Hno3, Hc3; by apply (calm_live _ _ Hc12)).
    apply (leave_ok {[ip]} s3 ip i3); [done|set_solver|done|by rewrite Hv3|done|]. rewrite difference_diag_L. intros s4 Hs4 Hc4 Hw4 Hr4 Hk4.
    assert (p = ip -> 1 < i_rc x) as Hrc.
    { intros ->. assert (x = i3) as -> by congruence. rewrite <- (refs_at s3 ip i3 (to_table _ _ Hs3) Hi3), Hxj, Hr3.
      unfold one. rewrite decide_True by done. change (refs (set_is_cache c2 s) j) with (refs s j).
      rewrite <- Hxj, Hno3, (refs_at s ip i (to_table _ _ Hs) Hip). pose proof (it_rc s (to_table _ _ Hs) ip i Hip). lia. }
    destruct (Hk4 p x Hx Hrc) as (x4 & Hx4 & Hno4 & _).
    assert (calm sb B (is_cache s0) (is_cache s4)) as Hc04 by (rewrite Hc4, Hc3; by eapply calm_trans).
    eapply wp_mono; [apply (Hgo H0 p x4 s4 Hs4 Hx4); [congruence|by rewrite Hc4, Hc3; apply (calm_live _ _ Hc12)|done]|].
    intros r2 s5 Hwalk. eapply (walked_trans s0 s4 ino j); [done|by rewrite Hw4, Hw3| |done].
    intros k'. rewrite Hr4, Hr3, Hno3. change (refs (set_is_cache c2 s) k') with (refs s k'). rewrite Hr. fold ino. lia.
Qed.

(** [namex_loop] is the walk, where this does not begin an operation. *)
Lemma loop_ok parent ctx l n : forall fuel path name ip i s,
  tree_ok ∅ s -> is_objs s !! ip = Some i -> live (is_cache s) (i_inode_no i) -> length name = 14%nat ->
  Forall elem_ok l -> skip_slashes path = skip_slashes (render l n) -> (length l < fuel)%nat ->
  let res := resolve (is_cache s) parent (i_inode_no i) l n in
  res <> Nested ->
  wp (namex_loop sb B uninit fuel path parent name ctx ip) (walked s (i_inode_no i) parent res) s.
Proof using Hlay.
  induction l as [|[k e] rest IH]; intros [|fuel] path name ip i s Hs Hip Hli Hn Hl Hp Hfu res Hres; try (simpl in Hfu; lia).
  - cbn [namex_loop]. rewrite (skipelem_render_nil path name n Hp). unfold res in *. simpl in *. destruct parent; [done|].
    apply wp_ret. split; [done|]. split; [apply calm_refl, Hs|]. split; [done|]. split; [by exists ip, i|]. split; [done|]. intros k. lia.
  - apply Forall_cons in Hl as [[He Hne] Hl]. simpl in He, Hne.
    destruct (skipelem_render path name k e rest n He Hne Hn Hp) as (name' & Hsk & Hn' & Hc').
    cbn [namex_loop]. rewrite Hsk, path_rest_empty, rest_dot by done. cbn [resolve] in res.
    apply wp_bind. eapply wp_mono; [apply (lock_ok ∅ s ip i); [exact Hs|apply not_elem_of_empty|exact Hip|by apply live_used]|]. intros [] s' (c' & Hcalm & ->).
    pose proof (locked_ok ∅ s ip i c' Hs Hip Hcalm) as Hs1. rewrite union_empty_r_L in Hs1. set (i1 := locked (is_cache s) i) in *.
    set (s1 := upd_object ip i1 (set_is_cache c' s)) in *.
    assert (is_objs s1 !! ip = Some i1) as Hip1 by apply lookup_insert_eq.
    assert (forall j, refs s1 j = refs s j) as Hr1.
    { intros j. unfold s1. rewrite (refs_upd (set_is_cache c' s) ip i) by first [done|exact (to_table _ _ (tree_ok_calm _ _ _ Hs Hcalm))|exact (it_rc s (to_table _ _ Hs) ip i Hip)].
      case_decide as E; [|done]. rewrite E. symmetry. exact (refs_at s ip i (to_table _ _ Hs) Hip). }
    unfold get_inode. apply wp_bind, wp_bind, wp_gets. rewrite Hip1. apply wp_ret.
    change (ie_type (i_entry i1)) with (ie_type (disk_inode sb B (is_cache s) (i_inode_no i))).
    destruct (Z.eqb_spec (ie_type (disk_inode sb B (is_cache s) (i_inode_no i))) INODE_DIRECTORY) as [Hd|Hd]; simpl negb in *; cbv iota in *; [|done].
    destruct (parent && _) eqn:Epar; [by apply (finish_ok s1 s ip i1)|].
    destruct (dot_end rest n) eqn:Edot; [by apply (finish_ok s1 s ip i1)|].
    apply (go_on_ok s1 s ip i1 ctx parent name' e); try done.
    + by apply (calm_live _ _ Hcalm). + by apply (calm_is_dir _ _ Hcalm).
    + intros H0. unfold res. change (i_inode_no i1) with (i_inode_no i) in H0. by rewrite H0.
    + change (i_inode_no i1) with (i_inode_no i). intros H0 p x s2 Hs2 Hx Hno Hli2 Hcalm2.
      unfold res in *. rewrite (proj2 (Z.eqb_neq _ 0) H0) in *. rewrite <- Hno in *.
      rewrite <- (resolve_calm _ _ _ _ _ _ Hcalm2). apply (IH fuel); try done; [by rewrite skip_slashes_idem|simpl in Hfu; lia|].
      by rewrite (resolve_calm _ _ _ _ _ _ Hcalm2).
Qed.

(** ** The start of the walk *)
Lemma share_step s p i :
  tree_ok ∅ s -> is_objs s !! p = Some i ->
  wp (inode_share (St := St) p) (fun p' s' => p' = p /\ tree_ok ∅ s' /\ is_cache s' = is_cache s /\ is_cwd s' = is_cwd s /\
    (exists i', is_objs s' !! p = Some i' /\ i_inode_no i' = i_inode_no i) /\ forall j, refs s' j = refs s j + one (i_inode_no i) j) s.
Proof.
  intros Hs Hp. pose proof (to_table _ _ Hs) as Ht. pose proof (it_rc s Ht p i Hp) as Hrc.
  apply (wp_change _ (fun _ => Ok (p, upd_object p (set_i_rc (i_rc i + 1) i) s))).
  { unfold inode_share, acquire_tree_lock, release_tree_lock, upd_inode, get_inode, put_inode, gets, modify, mbind, M_bind.
    simpl. rewrite (it_lock s Ht). simpl. unfold get_inode, gets, mbind, M_bind. simpl. rewrite Hp. simpl.
    unfold upd_object. pose proof (it_lock s Ht) as Hl. by destruct s; simpl in *; subst. }
  unfold wp. split; [done|]. split_and!; try done.
  - apply (tree_ok_upd ∅ ∅ s p i); simpl; try done; [lia|by apply (to_entry _ _ Hs p)|by apply (to_lock _ _ Hs p)].
  - eexists. split; [apply lookup_insert_eq|done].
  - intros j. rewrite (refs_upd s p i) by (done || simpl; lia). unfold one. case_decide; [|lia]. subst j.
    by rewrite (refs_at s p i Ht Hp).
Qed.

(** The directory that a path starts from. *)
Definition start_of s (path : list Z) : Z :=
  if byte_at path 0 =? 47 then 1 else match is_objs s !! is_cwd s with Some i => i_inode_no i | None => 0 end.

Lemma length_path l n : Forall elem_ok l -> (length l <= length (render l n))%nat.
Proof. induction 1 as [|[k e] l _ _ IH]; simpl; [lia|]. rewrite !length_app. lia. Qed.

Lemma length_skip_slashes p : (length (skip_slashes p) <= length p)%nat.
Proof. induction p as [|c p IH]; simpl; [lia|]. destruct (c =? 47); simpl; lia. Qed.

Lemma elements_le path l n : Forall elem_ok l -> skip_slashes path = skip_slashes (render l n) -> (length l <= length path)%nat.
Proof.
  intros Hl Hp. pose proof (length_skip_slashes path) as H. rewrite Hp in H. destruct Hl as [|[k e] l [He Hne] Hl]; simpl; [lia|].
  rewrite skip_render_cons, length_app in H by done. pose proof (length_path l n Hl). simpl in Hne. destruct e; [done|]. simpl in H. lia.
Qed.

Lemma namex_ok s path parent name ctx l n :
  tree_ok ∅ s -> Forall elem_ok l -> skip_slashes path = skip_slashes (render l n) -> length name = 14%nat ->
  live (is_cache s) (start_of s path) ->
  let res := resolve (is_cache s) parent (start_of s path) l n in
  res <> Nested ->
  wp (namex sb B uninit path parent name ctx) (fun r s' => tree_ok ∅ s' /\ calm sb B (is_cache s) (is_cache s') /\ is_cwd s' = is_cwd s /\
    match res with
    | Found j nm => (exists p i, r.1 = Some p /\ is_objs s' !! p = Some i /\ i_inode_no i = j) /\
        (parent = true -> length r.2 = 14%nat /\ take 14 (cstr r.2) = nm) /\ forall k, refs s' k = refs s k + one j k
    | Missing => r.1 = None /\ forall k, refs s' k = refs s k
    | Nested => False
    end) s.
Proof using Hlay.
  intros Hs Hl Hp Hn Hli res Hres. unfold namex. apply wp_bind.
  apply (wp_mono _ (fun ip s' => tree_ok ∅ s' /\ is_cache s' = is_cache s /\ is_cwd s' = is_cwd s /\
    (exists i, is_objs s' !! ip = Some i /\ i_inode_no i = start_of s path) /\ forall j, refs s' j = refs s j + one (start_of s path) j)).
  - unfold start_of in *. destruct (byte_at path 0 =? 47).
    + eapply wp_mono; [apply (get_step ∅ s 1 Hs); [set_solver|apply Hli]|]. intros p s' (? & ? & ? & ? & ? & _). by split_and!.
    + apply wp_bind, wp_gets. destruct (is_objs s !! is_cwd s) as [i|] eqn:E; [|destruct Hli; lia].
      eapply wp_mono; [by apply (share_step s (is_cwd s) i)|]. intros p s' (-> & ? & ? & ? & ? & ?). by split_and!.
  - intros ip s1 (Hs1 & Hc1 & Hw1 & (i & Hip & Hno) & Hr1). pose proof (elements_le path l n Hl Hp) as Hle.
    assert (res = resolve (is_cache s1) parent (i_inode_no i) l n) as Er by (by rewrite Hc1, Hno).
    eapply wp_mono; [apply (loop_ok parent ctx l n (S (length path)) path name ip i s1); try done; [by rewrite Hno, Hc1|lia|by rewrite <- Er]|].
    rewrite <- Er. intros r s' (Hs' & Hc' & Hw' & Hw). rewrite Hc1 in Hc'. split; [done|]. split; [done|]. split; [congruence|].
    destruct res as [j nm| |]; [destruct Hw as (? & ? & Hk); split; [done|]; split; [done|]|destruct Hw as [? Hk]; split; [done|]|done];
      intros k; rewrite Hk, Hr1, Hno; lia.
Qed.

(** *** The walk without "." at the end of a path *)

(** The inode that the elements [l] lead to from [ino], through directories. *)
Fixpoint descend c (ino : Z) (l : list (nat * list Z)) : option Z :=
  match l with
  | [] => Some ino
  | (_, e) :: rest =>
      if decide (is_dir c ino) then
        let j := lookup_in c ino e in if decide (j = 0) then None else descend c j rest
      else None
  end.

(** No element but the first is a "." that ends the path. *)
Definition no_dot_end (l : list (nat * list Z)) (n : nat) : Prop := forall k, dot_end (drop (S k) l) n = false.

(** The part of a path that is walked, and the name of its last element. *)
Definition dirs (parent : bool) (l : list (nat * list Z)) : list (nat * list Z) := if parent then removelast l else l.
Definition last_name (l : list (nat * list Z)) : list Z := take 14 (default [] (snd <$> last l)).

Lemma resolve_descend c parent l n : forall ino,
  no_dot_end l n -> resolve c parent ino l n <> Nested ->
  match resolve c parent ino l n with
  | Found j nm => descend c ino (dirs parent l) = Some j /\ (parent = true -> nm = last_name l)
  | Missing => descend c ino (dirs parent l) = None
  | Nested => False
  end.
Proof.
  induction l as [|[k e] rest IH]; intros ino Hd Hn; [by destruct parent|]. cbn [resolve] in *.
  destruct (Z.eqb_spec (ie_type (disk_inode sb B c ino)) INODE_DIRECTORY) as [Hdir|Hdir]; simpl negb in *; cbv iota in *; [|done].
  destruct parent; simpl andb in *; cbv iota in *.
  - destruct rest as [|ke rest]; [done|]. pose proof (Hd 0%nat) as H0. simpl drop in H0. rewrite H0 in *.
    change (dirs true ((k, e) :: ke :: rest)) with ((k, e) :: dirs true (ke :: rest)). cbn [descend].
    rewrite decide_True by done. change (last_name ((k, e) :: ke :: rest)) with (last_name (ke :: rest)).
    destruct (Z.eqb_spec (lookup_in c ino e) 0) as [E|E]; [by rewrite decide_True|]. rewrite decide_False by done.
    apply IH; [intros j; apply (Hd (S j))|done].
  - assert (dot_end rest n = false) as H0 by apply (Hd 0%nat). rewrite H0 in *. cbn [dirs descend]. rewrite decide_True by done.
    destruct (Z.eqb_spec (lookup_in c ino e) 0) as [E|E]; [by rewrite decide_True|]. rewrite decide_False by done.
    pose proof (IH (lookup_in c ino e) (fun j => Hd (S j)) Hn) as H. by destruct (resolve _ _ _ _ _) as [j nm| |]; [destruct H|..].
Qed.

End tree.

(** Every path has elements. *)
Lemma render_exists p :
  Forall (fun c => c <> 0) p -> match p with c :: _ => c = 47 | [] => True end ->
  exists l n, Forall elem_ok l /\ p = render l n.
Proof.
  remember (length p) as m eqn:Hm. revert p Hm. induction m as [m IH] using lt_wf_ind. intros p -> Hp Hh.
  assert (exists k q, p = replicate k 47 ++ q /\ match q with c :: _ => c <> 47 | [] => True end) as (k & q & -> & Hq).
  { clear. induction p as [|c p (k & q & -> & Hq)]; [by exists 0%nat, []|]. destruct (decide (c = 47)) as [->|Hc].
    - by exists (S k), q. - by exists 0%nat, (c :: replicate k 47 ++ q). }
  apply Forall_app in Hp as [_ Hp]. destruct q as [|c q]; [exists [], k; split; [done|]; simpl; by rewrite app_nil_r|].
  destruct k as [|k]; [done|].
  assert (exists e q', q = e ++ q' /\ Forall elem_char e /\ match q' with c :: _ => c = 47 | [] => True end) as (e & q' & -> & He & Hq').
  { apply Forall_cons in Hp as [_ Hp]. clear -Hp. induction Hp as [|b q Hb _ (e & q' & -> & He & Hq')]; [by exists [], []|].
    destruct (decide (b = 47)) as [->|Hb']; [by exists [], (47 :: e ++ q')|]. exists (b :: e), q'. split_and!; [done|by constructor|done]. }
  apply Forall_cons in Hp as [Hc Hp]. apply Forall_app in Hp as [_ Hp].
  destruct (IH (length q')) with (p := q') as (l & n & Hl & ->); [rewrite length_app, length_replicate; simpl; rewrite length_app; lia|done|done|done|].
  exists ((k, c :: e) :: l), n. split; [|done].
  constructor; [|done]. split; [by constructor|done].
Qed.

Lemma path_elements p :
  Forall (fun c => c <> 0) p -> exists l n, Forall elem_ok l /\ skip_slashes p = skip_slashes (render l n).
Proof.
  intros Hp. destruct (render_exists (47 :: p)) as (l & n & Hl & He); [by constructor|done|].
  exists l, n. split; [done|]. by rewrite <- He.
Qed.

(** C11: Resolving a path.  [namex] (which is [namei] and [nameiparent]) walks
    the elements of a path from the root, or from the current directory,
    through the directories on the disk: it returns the inode in memory that
    the elements lead to (without the last one, whose name it stores, for
    [nameiparent]), and takes one reference to it, or returns null where a name
    is not there and takes none.  All other references are as before, no inode
    stays locked, and the content of the disk does not change.  (A walk through
    a file that is no directory and a path that ends in "." are apart.) *)
Theorem namex_correct {St} sb (B : BlockCache St) {Hspec : BlockCacheSpec sb B} uninit s path parent name ctx l n :
  inode_layout sb -> tree_ok sb B ∅ s ->
  Forall elem_ok l -> skip_slashes path = skip_slashes (render l n) -> length name = 14%nat ->
  live sb B (is_cache s) (start_of s path) -> no_dot_end l n ->
  resolve sb B (is_cache s) parent (start_of s path) l n <> Nested ->
  exists r s', namex sb B uninit path parent name ctx s = Ok (r, s') /\ tree_ok sb B ∅ s' /\
    (forall m, bk_view (is_cache s') m = bk_view (is_cache s) m) /\ is_cwd s' = is_cwd s /\
    match descend sb B (is_cache s) (start_of s path) (dirs parent l) with
    | Some j => (exists p i, r.1 = Some p /\ is_objs s' !! p = Some i /\ i_inode_no i = j) /\
        (parent = true -> take 14 (cstr r.2) = last_name l) /\
        forall k, refs s' k = refs s k + if decide (k = j) then 1 else 0
    | None => r.1 = None /\ forall k, refs s' k = refs s k
    end.
Proof.
  intros Hlay Hs Hl Hp Hn Hli Hd Hres.
  destruct (proj1 (wp_ok _ _ _) (namex_ok sb B Hlay uninit s path parent name ctx l n Hs Hl Hp Hn Hli Hres)) as (r & s' & Heq & Hs' & Hc & Hw & H).
  pose proof (resolve_descend sb B (is_cache s) parent l n (start_of s path) Hd Hres) as Hr.
  exists r, s'. split; [done|]. split; [done|]. split; [apply Hc|]. split; [done|].
  destruct (resolve _ _ _ _ _ _ _) as [j nm| |]; [|by rewrite Hr|done]. destruct Hr as [-> Hnm], H as (Hex & Hna & Hk).
  split; [done|]. split; [|exact Hk]. intros Hpar. rewrite <- Hnm by done. by apply Hna.
Qed.

End Namei.
