(* ===== verification/Tree.v ===== *)
(** * The file system as a whole (the inodes of src/fs/inode.c together)

    All inodes in use at once: their blocks are apart, the directories name
    inodes in use. How a new inode and a new entry of a directory keep this, and
    what they change for the lookup of names. *)
From S2P Require Import Prelude FsDefines CString BlockIface Inode InodeFacts InodeDisk InodeFile DirFacts Namei.

Module Tree.
Import CString Inode InodeFacts InodeDisk InodeFile DirFacts Namei.

Section tree.
Context {St : Type} (sb : SuperBlock) (B : BlockCache St) {Hspec : BlockCacheSpec sb B}.
Context (Hlay : inode_layout sb).
Implicit Types (s : istate St) (c : St).

#[local] Abbreviation disk_inode := (disk_inode sb B).
#[local] Abbreviation used := (used sb B).
#[local] Abbreviation live := (live sb B).
#[local] Abbreviation is_dir := (is_dir sb B).
#[local] Abbreviation slots_of c ino := (slots sb B c (disk_inode c ino)).

(** A file on the disk: its blocks are there. *)
Record file_sound c (ino : Z) : Prop := {
  fl_map : map_ok sb B c (disk_inode c ino);
  fl_size : ie_num_bytes (disk_inode c ino) <= INODE_MAX_BYTES;
  fl_full : forall o, 0 <= o < ie_num_bytes (disk_inode c ino) -> block_at sb B c (disk_inode c ino) (o / BLOCK_SIZE) <> 0
}.

Record fs_sound c : Prop := {
  fs_files : forall ino, used c ino -> file_sound c ino;
  fs_disjoint : forall i j n, used c i -> used c j -> i <> j -> n ∈ slots_of c i -> n ∈ slots_of c j -> n = 0;
  fs_whole : forall ino, live c ino -> is_dir c ino -> ie_num_bytes (disk_inode c ino) mod 16 = 0;
  fs_live : forall ino d, live c ino -> is_dir c ino -> d ∈ dir_entries sb B c ino -> de_inode_no d <> 0 -> live c (de_inode_no d)
}.

Lemma sound_dir c ino : fs_sound c -> live c ino -> is_dir c ino -> dir_sound sb B c ino.
Proof.
  intros Hs Hl Hd. destruct (fs_files c Hs ino (live_used _ _ _ _ Hl)).
  split; [done|done|done|by apply fs_whole|]. intros d. by apply fs_live.
Qed.

(** ** Files that are left alone *)
Record undisturbed c c' (ino : Z) : Prop := {
  un_inode : disk_inode c' ino = disk_inode c ino;
  un_slots : slots_of c' ino = slots_of c ino;
  un_content : content sb B c' (disk_inode c' ino) = content sb B c (disk_inode c ino);
  un_sound : file_sound c' ino
}.

Lemma undisturbed_frame c c' ino :
  file_sound c ino -> disk_inode c' ino = disk_inode c ino ->
  (forall n, n ∈ slots_of c ino -> n <> 0 -> bk_view c' n = bk_view c n) ->
  (forall n, bk_alloced c n = true -> bk_alloced c' n = true) -> undisturbed c c' ino.
Proof using Hlay.
  intros [Hm Hsz Hf] He Hv Ha. pose proof (frame_slots sb B c c' _ Hv) as Hsl.
  split; [done|by rewrite He|rewrite He; by apply frame_content|].
  split; rewrite He; [by eapply map_ok_same|done|]. intros o Ho. rewrite (block_at_same sb B c c' _ _ _ Hsl). auto.
Qed.

Lemma undisturbed_entries c c' ino : undisturbed c c' ino -> dir_entries sb B c' ino = dir_entries sb B c ino.
Proof. intros [_ _ Hc _]. unfold dir_entries, entries. by rewrite Hc. Qed.

Lemma undisturbed_lookup c c' ino name : undisturbed c c' ino -> lookup_in sb B c' ino name = lookup_in sb B c ino name.
Proof. intros H. unfold lookup_in. by rewrite (undisturbed_entries c c' ino H). Qed.

Lemma undisturbed_live c c' ino : undisturbed c c' ino -> live c' ino <-> live c ino.
Proof. intros [He _ _ _]. unfold Namei.live. by rewrite He. Qed.

Lemma undisturbed_used c c' ino : undisturbed c c' ino -> used c' ino <-> used c ino.
Proof. intros [He _ _ _]. unfold Namei.used. by rewrite He. Qed.

Lemma undisturbed_dir c c' ino : undisturbed c c' ino -> is_dir c' ino <-> is_dir c ino.
Proof. intros [He _ _ _]. unfold Namei.is_dir. by rewrite He. Qed.

Lemma undisturbed_trans c1 c2 c3 ino : undisturbed c1 c2 ino -> undisturbed c2 c3 ino -> undisturbed c1 c3 ino.
Proof. intros [] []. split; [congruence..|done]. Qed.

(** The blocks of the groups, and which are in use, are the same. *)
Definition alike c c' : Prop :=
  (forall n, in_groups sb n -> bk_view c' n = bk_view c n) /\ (forall n, bk_alloced c' n = bk_alloced c n).

Lemma calm_alike c c' : calm sb B c c' -> alike c c'.
Proof. intros (_ & [Hv Ha] & _). by split. Qed.

Lemma alike_disk_inode c c' ino : alike c c' -> 1 <= ino <= num_inodes sb -> disk_inode c' ino = disk_inode c ino.
Proof using Hlay. intros [Hv _] Hi. unfold InodeDisk.disk_inode. rewrite Hv; [done|]. by apply (inode_in_groups sb Hlay). Qed.

Lemma alike_undisturbed c c' ino : fs_sound c -> alike c c' -> used c ino -> undisturbed c c' ino.
Proof using Hlay.
  intros Hs Hal Hu. pose proof (fs_files c Hs ino Hu) as Hf. pose proof Hal as [Hv Ha].
  apply undisturbed_frame; [done|by apply alike_disk_inode; [|apply Hu]| |intros n; by rewrite Ha].
  intros n Hn H0. apply Hv, (data_in_groups sb Hlay). by apply (mo_data _ _ _ _ (fl_map _ _ Hf) n Hn H0).
Qed.

Lemma fs_sound_alike c c' : fs_sound c -> alike c c' -> fs_sound c'.
Proof using Hlay.
  intros Hs Hal.
  assert (forall j, used c' j -> undisturbed c c' j /\ used c j) as Hu.
  { intros j [Hj Hty]. rewrite (alike_disk_inode c c' j Hal Hj) in Hty. assert (used c j) as Huj by (by split). split; [|done].
    by apply alike_undisturbed. }
  split.
  - intros j Hj. apply (Hu j Hj).
  - intros i j n Hi Hj Hne. destruct (Hu i Hi) as [Hui ?], (Hu j Hj) as [Huj ?].
    rewrite (un_slots _ _ _ Hui), (un_slots _ _ _ Huj). by apply fs_disjoint.
  - intros j Hl Hd. destruct (Hu j (live_used _ _ _ _ Hl)) as [Huj _]. rewrite (un_inode _ _ _ Huj).
    apply fs_whole; [done|by apply (undisturbed_live c c')|by apply (undisturbed_dir c c')].
  - intros j d Hl Hd. destruct (Hu j (live_used _ _ _ _ Hl)) as [Huj _]. rewrite (undisturbed_entries c c' j Huj). intros Hin H0.
    assert (live c (de_inode_no d)) as Hld by (by apply (fs_live c Hs j); [apply (undisturbed_live c c')|apply (undisturbed_dir c c')|..]).
    apply (undisturbed_live c c'); [|done]. by apply alike_undisturbed, live_used.
Qed.

(** ** A change of one inode *)

(** From [c] to [c'] the other files in use are undisturbed; [ino] is a file
    whose new blocks were free, and it still has names if it had. *)
Record one_changed c c' (ino : Z) : Prop := {
  oc_other : forall j, 1 <= j <= num_inodes sb -> j <> ino ->
    disk_inode c' j = disk_inode c j /\ (used c j -> undisturbed c c' j);
  oc_self : used c' ino -> file_sound c' ino;
  oc_new : forall n, n ∈ slots_of c' ino -> n <> 0 -> (used c ino /\ n ∈ slots_of c ino) \/ bk_alloced c n = false;
  oc_links : live c ino -> live c' ino
}.

Lemma one_changed_live c c' ino j : one_changed c c' ino -> live c j -> live c' j.
Proof.
  intros Hoc Hl. destruct (decide (j = ino)) as [->|Hne]; [by apply (oc_links _ _ _ Hoc)|].
  destruct (oc_other _ _ _ Hoc j) as [_ Hu]; [apply Hl|done|]. by apply (undisturbed_live c c' j (Hu (live_used _ _ _ _ Hl))).
Qed.

Lemma one_changed_sound c c' ino :
  fs_sound c -> one_changed c c' ino ->
  (live c' ino -> is_dir c' ino -> ie_num_bytes (disk_inode c' ino) mod 16 = 0 /\
     forall d, d ∈ dir_entries sb B c' ino -> de_inode_no d <> 0 -> live c' (de_inode_no d)) ->
  fs_sound c'.
Proof.
  intros Hs Hoc Hself.
  assert (forall j, used c' j -> j <> ino -> used c j /\ undisturbed c c' j) as Hu.
  { intros j [Hj Hty] Hne. destruct (oc_other _ _ _ Hoc j Hj Hne) as [He Hun]. rewrite He in Hty. assert (used c j) as Hj' by (by split). auto. }
  assert (forall i n, used c' i -> i <> ino -> used c' ino -> n ∈ slots_of c' ino -> n ∈ slots_of c' i -> n = 0) as Hdis.
  { intros i n Hi Hne Hino Hn1 Hn2. destruct (Hu i Hi Hne) as [Hui Hun]. rewrite (un_slots _ _ _ Hun) in Hn2.
    destruct (decide (n = 0)) as [|H0]; [done|]. destruct (oc_new _ _ _ Hoc n Hn1 H0) as [[Hsi Hn]|Hfree].
    - by apply (fs_disjoint c Hs i ino).
    - destruct (mo_data _ _ _ _ (fl_map _ _ (fs_files c Hs i Hui)) n Hn2 H0) as [_ Ha]. congruence. }
  split.
  - intros j Hj. destruct (decide (j = ino)) as [->|Hne]; [by apply (oc_self _ _ _ Hoc)|].
    destruct (Hu j Hj Hne) as [_ Hun]. apply Hun.
  - intros i j n Hi Hj Hij Hn1 Hn2. destruct (decide (i = ino)) as [->|Hin]; [by apply (Hdis j)|].
    destruct (decide (j = ino)) as [->|Hjn]; [by apply (Hdis i)|].
    destruct (Hu i Hi Hin) as [Hui Huni], (Hu j Hj Hjn) as [Huj Hunj].
    rewrite (un_slots _ _ _ Huni) in Hn1. rewrite (un_slots _ _ _ Hunj) in Hn2. by apply (fs_disjoint c Hs i j).
  - intros j Hl Hd. destruct (decide (j = ino)) as [->|Hne]; [by apply Hself|].
    destruct (Hu j (live_used _ _ _ _ Hl) Hne) as [_ Hun]. rewrite (un_inode _ _ _ Hun).
    apply (fs_whole c Hs); [by apply (undisturbed_live c c' j Hun)|by apply (undisturbed_dir c c' j Hun)].
  - intros j d Hl Hd. destruct (decide (j = ino)) as [->|Hne]; [by apply Hself|].
    destruct (Hu j (live_used _ _ _ _ Hl) Hne) as [_ Hun]. rewrite (undisturbed_entries c c' j Hun). intros Hin H0.
    apply (one_changed_live c c' ino); [done|].
    apply (fs_live c Hs j); [by apply (undisturbed_live c c' j Hun)|by apply (undisturbed_dir c c' j Hun)|done|done].
Qed.

(** An inode without a name gets the entry of a file without a block. *)
Lemma new_inode_changed c c' ino e :
  fs_sound c -> 1 <= ino <= num_inodes sb -> ~ live c ino ->
  (forall j, 1 <= j <= num_inodes sb -> disk_inode c' j = if decide (j = ino) then e else disk_inode c j) ->
  (forall m, m <> to_block_no sb ino -> bk_view c' m = bk_view c m) -> (forall m, bk_alloced c' m = bk_alloced c m) ->
  InodeEntry_wf e -> ie_addrs e = replicate 12 0 -> ie_indirect e = 0 -> ie_num_bytes e = 0 ->
  one_changed c c' ino.
Proof using Hlay.
  intros Hs Hino Hnl Hd Hv Ha Hwf Had Hin Hnb.
  assert (disk_inode c' ino = e) as He by (by rewrite Hd, decide_True).
  assert (forall n, n ∈ slots_of c' ino -> n = 0) as Hz.
  { rewrite He. unfold slots, indirect_slots. rewrite Had, Hin. simpl Z.eqb. cbv iota.
    intros n [Hn|[->|Hn]%elem_of_cons]%elem_of_app; [|done|]; by apply elem_of_replicate in Hn as [-> _]. }
  split.
  - intros j Hj Hne. assert (disk_inode c' j = disk_inode c j) as Hdj by (by rewrite Hd, decide_False). split; [done|].
    intros Hu. pose proof (fs_files c Hs j Hu) as Hf. apply undisturbed_frame; [done|done| |intros n Hn; by rewrite Ha].
    intros n Hn H0. apply Hv. intros ->. by apply (inode_block_not_slot sb B Hlay _ _ ino (fl_map _ _ Hf) Hino).
  - intros _. split; rewrite ?He.
    + split; [done| |]; rewrite <- He.
      * intros n Hn H0. by apply Hz in Hn.
      * intros i j n Hi%list_elem_of_lookup_2%Hz _ H0. done.
    + rewrite Hnb. vm_compute. discriminate. + intros o Ho. lia.
  - intros n Hn H0. by apply Hz in Hn.
  - done.
Qed.

Lemma took_changed c c' type ino :
  fs_sound c -> 1 <= ino <= num_inodes sb -> 0 < type < 2 ^ 16 -> took_inode sb B c c' type ino -> one_changed c c' ino.
Proof using Hlay.
  intros Hs Hino Hty (Hfree & Hd & Hv & Ha).
  apply (new_inode_changed _ _ ino (set_ie_type type zero_entry)); try done; [by intros (_ & Hne & _)|apply zero_entry_wf; lia].
Qed.

(** A directory gets the entries [l]. *)
Lemma dir_step_changed s ip i c' e' l :
  fs_sound (is_cache s) -> live (is_cache s) (i_inode_no i) -> disk_inode (is_cache s) (i_inode_no i) = i_entry i ->
  dir_step sb B s ip i c' e' l -> one_changed (is_cache s) c' (i_inode_no i).
Proof using Hlay.
  intros Hs Hl Hdi [[Hf Hdt _] _ Hlk Hi Hfr Hal Hsl]. pose proof (live_used _ _ _ _ Hl) as Hu.
  pose proof (fo_disk _ _ _ _ _ Hf) as He. simpl in He. split.
  - intros j Hj Hne. split; [by apply Hi|]. intros Huj. pose proof (fs_files _ Hs j Huj) as Hfj.
    apply undisturbed_frame; [done|by apply Hi| |exact Hal]. intros n Hn H0.
    destruct (mo_data _ _ _ _ (fl_map _ _ Hfj) n Hn H0) as [Hda Hna]. apply Hfr.
    + done.
    + by apply (data_not_bitmap sb Hlay).
    + intros Hn'. rewrite <- Hdi in Hn'. by apply H0, (fs_disjoint _ Hs j (i_inode_no i)).
    + apply (data_not_inode sb Hlay); [done|apply Hl].
  - intros _. destruct Hf as [_ _ _ _ _ Hm Hsz Hfull _]. simpl in *. split; rewrite He; done.
  - intros n Hn _. rewrite He in Hn. destruct (Hsl n Hn) as [H|H]; [left|by right]. rewrite Hdi. by split.
  - intros (Hn & Hty & Hlinks). split; [done|]. rewrite He, Hlk.
    rewrite Hdi in Hlinks. simpl in Hdt. by rewrite Hdt.
Qed.

(** ** Names after the change *)
Lemma descend_kept c c' l : forall ino j,
  fs_sound c ->
  (forall d name, live c d -> is_dir c d -> lookup_in sb B c d name <> 0 ->
     is_dir c' d /\ lookup_in sb B c' d name = lookup_in sb B c d name) ->
  live c ino -> descend sb B c ino l = Some j -> descend sb B c' ino l = Some j.
Proof.
  intros ino j Hs Hk. revert ino. induction l as [|[k e] l IH]; intros ino Hl; cbn [descend]; [exact id|].
  destruct (decide (is_dir c ino)) as [Hd|]; [|done]. destruct (decide (lookup_in sb B c ino e = 0)) as [|H0]; [done|].
  destruct (Hk ino e Hl Hd H0) as [Hd' El]. rewrite decide_True, El, decide_False by assumption.
  apply IH, (lookup_live sb B c ino e); [by apply sound_dir|done].
Qed.

Lemma descend_alike c c' l : fs_sound c -> alike c c' -> forall ino, live c ino -> descend sb B c' ino l = descend sb B c ino l.
Proof using Hlay.
  intros Hs Hal. induction l as [|[k e] l IH]; intros ino Hl; cbn [descend]; [reflexivity|].
  pose proof (alike_undisturbed c c' ino Hs Hal (live_used _ _ _ _ Hl)) as Hu.
  rewrite (decide_ext _ _ _ _ (undisturbed_dir c c' ino Hu)), (undisturbed_lookup c c' ino e Hu).
  destruct (decide (is_dir c ino)) as [Hd|]; [|reflexivity]. destruct (decide (lookup_in sb B c ino e = 0)) as [|H0]; [reflexivity|].
  apply IH, (lookup_live sb B c ino e); [by apply sound_dir|done].
Qed.

Lemma resolve_alike c c' parent l n : fs_sound c -> alike c c' ->
  forall ino, live c ino -> resolve sb B c' parent ino l n = resolve sb B c parent ino l n.
Proof using Hlay.
  intros Hs Hal. induction l as [|[k e] l IH]; intros ino Hl; cbn [resolve]; [reflexivity|].
  pose proof (alike_undisturbed c c' ino Hs Hal (live_used _ _ _ _ Hl)) as Hu.
  rewrite (un_inode _ _ _ Hu), (undisturbed_lookup c c' ino e Hu).
  destruct (Z.eqb_spec (ie_type (disk_inode c ino)) INODE_DIRECTORY) as [Hd|]; [|reflexivity]. simpl negb. cbv iota.
  destruct (parent && _); [reflexivity|]. destruct (dot_end _ _); [reflexivity|].
  destruct (Z.eqb_spec (lookup_in sb B c ino e) 0) as [|H0]; [reflexivity|].
  apply IH, (lookup_live sb B c ino e); [by apply sound_dir|done].
Qed.

Lemma descend_app c l1 l2 : forall ino,
  descend sb B c ino (l1 ++ l2) = j ← descend sb B c ino l1; descend sb B c j l2.
Proof.
  induction l1 as [|[k e] l1 IH]; intros ino; cbn [descend app]; [reflexivity|].
  destruct (decide (is_dir c ino)); [|reflexivity]. destruct (decide (lookup_in sb B c ino e = 0)); [reflexivity|]. apply IH.
Qed.

Lemma descend_live c l : forall ino j, fs_sound c -> live c ino -> descend sb B c ino l = Some j -> live c j.
Proof.
  induction l as [|[k e] l IH]; intros ino j Hs Hl; cbn [descend]; [by intros [= <-]|].
  destruct (decide (is_dir c ino)) as [Hd|]; [|done]. destruct (decide (lookup_in sb B c ino e = 0)) as [|H0]; [done|].
  apply IH; [done|]. apply (lookup_live sb B c ino e); [by apply sound_dir|done].
Qed.

(** The parent directory of a path is a directory. *)
Lemma resolve_parent_dir c l n : forall ino j name,
  (forall i, dot_end (drop (S i) l) n = false) -> resolve sb B c true ino l n = Found j name -> is_dir c j.
Proof.
  induction l as [|[k e] l IH]; intros ino j name Hdot; cbn [resolve]; [done|].
  destruct (Z.eqb_spec (ie_type (disk_inode c ino)) INODE_DIRECTORY) as [Hd|]; simpl negb; cbv iota; [|done].
  destruct (true && _) eqn:El; [by intros [= <- _]|]. pose proof (Hdot 0%nat) as H0. change (drop 1 ((k, e) :: l)) with l in H0.
  rewrite H0. destruct (_ =? 0); [done|]. apply IH. intros i. exact (Hdot (S i)).
Qed.

Lemma parent_is_dir c l n start d :
  no_dot_end l n -> resolve sb B c true start l n <> Nested -> descend sb B c start (removelast l) = Some d -> is_dir c d.
Proof.
  intros Hdot Hres Hd. pose proof (resolve_descend sb B c true l n start Hdot Hres) as Hr. change (dirs true l) with (removelast l) in Hr.
  destruct (resolve sb B c true start l n) as [j nm| |] eqn:E; [|congruence|done]. destruct Hr as [Hj _].
  assert (j = d) as -> by congruence. by apply (resolve_parent_dir c l n start d nm).
Qed.

Lemma took_calm c c1 c' type ino : calm sb B c c1 -> took_inode sb B c1 c' type ino -> took_inode sb B c c' type ino.
Proof.
  intros Hc (Hi & Hj & Hm & Ha). rewrite (calm_disk_inode sb B _ _ _ Hc) in Hi. pose proof Hc as (_ & [Hv1 Ha1] & _).
  split_and!; [done| |intros m Hne; by rewrite Hm, Hv1|intros m; by rewrite Ha, Ha1].
  intros j Hr. rewrite Hj by done. case_decide; [done|]. by apply calm_disk_inode.
Qed.

(** *** A new entry *)
Lemma entries_put (l : list DirEntry) i new d : d ∈ put_dirent l i new -> d ∈ l \/ d = new.
Proof.
  unfold put_dirent. case_decide.
  - intros [j Hj]%list_elem_of_lookup. apply list_lookup_insert_Some in Hj as [(_ & -> & _)|[_ Hj]]; [by right|left].
    by eapply list_elem_of_lookup_2.
  - rewrite elem_of_app, list_elem_of_singleton. tauto.
Qed.

(** ** The file system with the inodes in memory; the objects [L] are locked *)
Record fs_ok (L : gset nat) s : Prop := {
  fk_tree : tree_ok sb B L s;
  fk_sound : fs_sound (is_cache s);
  fk_used : forall j, refs s j <> 0 -> used (is_cache s) j
}.

Lemma object_used L s p i : fs_ok L s -> is_objs s !! p = Some i -> used (is_cache s) (i_inode_no i).
Proof.
  intros Hs Hp. apply (fk_used _ _ Hs). pose proof (to_table _ _ _ _ (fk_tree _ _ Hs)) as Ht.
  rewrite (refs_at s p i Ht Hp). pose proof (it_rc s Ht p i Hp). lia.
Qed.

Lemma no_object L s ino p i :
  fs_ok L s -> ie_type (disk_inode (is_cache s) ino) = INODE_INVALID -> is_objs s !! p = Some i -> i_inode_no i <> ino.
Proof. intros Hs Hty Hp <-. by destruct (object_used L s p i Hs Hp) as [_ []]. Qed.

Lemma fs_ok_calm L L' s s' :
  fs_ok L s -> calm sb B (is_cache s) (is_cache s') -> tree_ok sb B L' s' ->
  (forall j, refs s' j <> 0 -> refs s j <> 0 \/ used (is_cache s) j) -> fs_ok L' s'.
Proof using Hlay.
  intros [Ht Hs Hu] Hc Ht' Hr. split; [done|by eapply fs_sound_alike; [|apply calm_alike]|]. intros j Hj.
  assert (used (is_cache s) j) as [? ?] by (destruct (Hr j Hj); auto). split; [done|]. by rewrite (calm_disk_inode sb B _ _ _ Hc).
Qed.

(** The cache changed in nothing that files see. *)
Lemma fs_ok_alike L s c' : fs_ok L s -> alike (is_cache s) c' -> quiet sb B c' -> fs_ok L (set_is_cache c' s).
Proof using Hlay.
  intros Hs Hal Hq. pose proof (fs_sound_alike _ c' (fk_sound _ _ Hs) Hal) as Hs'. pose proof (fk_tree _ _ Hs) as [_ Ht Hl He _].
  split; [split; [exact Hq|by destruct Ht|exact Hl| |]|exact Hs'|].
  - intros p i Hp Hv. change (i_entry i = disk_inode c' (i_inode_no i)).
    rewrite (alike_disk_inode _ c') by first [exact Hal|exact (proj1 (object_used L s p i Hs Hp))]. by apply (He p).
  - intros ino Hl' Hd. by apply sound_dir.
  - intros j Hj. pose proof (fk_used _ _ Hs j Hj) as Hu. apply (undisturbed_used (is_cache s) c'); [|done].
    apply alike_undisturbed; [apply Hs|done|done].
Qed.

(** The entry of the object at [ip] and of its inode on the disk become [e']. *)
Lemma fs_ok_entry L s ip i c' e' :
  fs_ok L s -> is_objs s !! ip = Some i -> quiet sb B c' -> fs_sound c' -> ie_type e' <> INODE_INVALID ->
  (forall j, 1 <= j <= num_inodes sb -> disk_inode c' j = if decide (j = i_inode_no i) then e' else disk_inode (is_cache s) j) ->
  fs_ok L (with_entry s ip i c' e').
Proof.
  intros Hs Hip Hq Hsd Hty Hd. pose proof (fk_tree _ _ Hs) as [_ Ht Hl He _].
  assert (itable_ok (upd_object ip (set_i_entry e' i) s)) as Ht'
    by (apply (itable_ok_upd s ip i); [done|done|done|exact (it_rc s Ht ip i Hip)]).
  assert (forall j, used (is_cache s) j -> used c' j) as Hu.
  { intros j [Hj Hne]. split; [done|]. rewrite Hd by done. by case_decide. }
  split.
  - split; [exact Hq|by destruct Ht'| | |intros j Hlj Hdj; by apply sound_dir].
    + simpl. intros q x [[<- <-]|[_ Hx]]%lookup_insert_Some; [exact (Hl ip i Hip)|by apply (Hl q)].
    + simpl. intros q x [[<- <-]|[Hne Hx]]%lookup_insert_Some; simpl.
      * intros _. rewrite Hd, decide_True; [done|done|]. by apply (object_used L s ip).
      * intros Hv. assert (i_inode_no x <> i_inode_no i) as Hno by (intros Heq; apply Hne; symmetry; by eapply (it_inj s Ht)).
        rewrite Hd, decide_False by first [done|exact (proj1 (object_used L s q x Hs Hx))]. by apply (He q).
  - exact Hsd.
  - intros j Hj. apply Hu, (fk_used _ _ Hs). change (refs (upd_object ip (set_i_entry e' i) s) j <> 0) in Hj.
    rewrite (refs_upd s ip i) in Hj by first [done|exact (it_rc s Ht ip i Hip)]. case_decide as E; [|done].
    rewrite E, (refs_at s ip i Ht Hip). pose proof (it_rc s Ht ip i Hip). lia.
Qed.

Lemma refs_entry s ip i c' e' j :
  itable_ok s -> is_objs s !! ip = Some i -> refs (with_entry s ip i c' e') j = refs s j.
Proof.
  intros Ht Hip. change (refs (upd_object ip (set_i_entry e' i) s) j = refs s j).
  rewrite (refs_upd s ip i) by first [done|exact (it_rc s Ht ip i Hip)]. case_decide as E; [|done]. by rewrite E, (refs_at s ip i Ht Hip).
Qed.

(** A free inode is taken on the disk. *)
Lemma fs_ok_took L s c' type ino :
  fs_ok L s -> quiet sb B c' -> 1 <= ino <= num_inodes sb -> 0 < type < 2 ^ 16 -> type <> INODE_DIRECTORY ->
  took_inode sb B (is_cache s) c' type ino -> fs_ok L (set_is_cache c' s).
Proof using Hlay.
  intros Hs Hq Hino Hty Hnd Htook. pose proof Htook as (Hfree & Hd & Hv & Ha). pose proof (fk_tree _ _ Hs) as [_ Ht Hl He _].
  assert (disk_inode c' ino = set_ie_type type zero_entry) as Hi by (by rewrite Hd, decide_True).
  assert (fs_sound c') as Hsd.
  { apply (one_changed_sound (is_cache s) c' ino); [apply Hs| |].
    - by apply (took_changed _ _ type); [apply Hs|..].
    - intros _ Hdir. unfold Namei.is_dir in Hdir. by rewrite Hi in Hdir. }
  assert (forall j, used (is_cache s) j -> used c' j) as Hu.
  { intros j [Hj Hne]. split; [done|]. rewrite Hd by done. case_decide; [simpl; unfold INODE_INVALID; lia|done]. }
  split; [|exact Hsd|intros j Hj; by apply Hu, (fk_used _ _ Hs)].
  split; [exact Hq|by destruct Ht|exact Hl| |intros j Hlj Hdj; by apply sound_dir].
  intros p i Hp Hva. simpl. rewrite Hd, decide_False; [by apply (He p)|by eapply no_object|by apply (object_used L s p)].
Qed.
End tree.
End Tree.
