(* ===== verification/FileDemo.v ===== *)
(** * The theorems on inodes and files at the small file system of FsDemo.v *)
From S2P Require Import Prelude Bitmap FsDefines CString Console BlockIface Cache CacheFacts CacheTx CacheSpec CacheAlloc Inode InodeFacts InodeDisk FsDemo InodeFile DirFacts Namei.

Module FileDemo.
Import Bitmap CString Console Cache CacheFacts CacheTx CacheSpec CacheAlloc Inode InodeFacts InodeDisk FsDemo InodeFile DirFacts Namei.

Lemma fs_quiet : quiet fs_sb (bcache fs_sb) (is_cache fs_state).
Proof. split; [exact fs_inv|reflexivity]. Qed.

Lemma one_block_inj n k i j a :
  (n :: replicate k 0) !! i = Some a -> (n :: replicate k 0) !! j = Some a -> a <> 0 -> i = j.
Proof.
  intros Hi Hj Ha. destruct i as [|i], j as [|j]; simpl in *; try done.
  - by apply lookup_replicate in Hj as [-> _].
  - by apply lookup_replicate in Hi as [-> _].
  - by apply lookup_replicate in Hi as [-> _].
Qed.

(** A file of one direct block. *)
Lemma one_block_map (c : cache) e n :
  InodeEntry_wf e -> slots fs_sb (bcache fs_sb) c e = n :: replicate 140 0 -> is_data fs_sb n ->
  alloced fs_sb c n = true -> map_ok fs_sb (bcache fs_sb) c e.
Proof.
  intros Hwf Hs Hd Ha. split; [done| |]; rewrite Hs.
  - intros a [->|Hin]%elem_of_cons Ha0; [done|]. by apply elem_of_replicate in Hin as [-> _].
  - apply one_block_inj.
Qed.

Lemma fs_data j : 4 <= j < 16 -> is_data fs_sb (65 + j).
Proof. intros. exists 0, j. repeat split; simpl; try lia. Qed.

Lemma one_block_full e o n :
  ie_num_bytes e <= 512 -> 0 <= o < ie_num_bytes e -> ie_addrs e !!! 0%nat = n -> length (ie_addrs e) = 12%nat ->
  n <> 0 -> block_at fs_sb (bcache fs_sb) fs_cache e (o / BLOCK_SIZE) <> 0.
Proof.
  intros H1 H2 H3 Hl H4. rewrite Z.div_small by (unfold BLOCK_SIZE; lia).
  rewrite block_at_direct by (done || lia). change (Z.to_nat 0) with 0%nat. by rewrite H3.
Qed.

Ltac decided := apply (bool_decide_unpack _); vm_compute; exact I.

Lemma hi_file_ok : file_ok fs_sb (bcache fs_sb) fs_state 1 hi_inode.
Proof.
  split.
  - exact fs_quiet. - reflexivity. - reflexivity. - decided.
  - vm_compute. reflexivity.
  - apply (one_block_map _ _ 70); [|reflexivity|apply (fs_data 5); lia|vm_compute; reflexivity].
    apply (bool_decide_unpack (InodeEntry_wf hi_entry)). vm_compute. exact I.
  - decided.
  - intros o Ho. by apply (one_block_full _ _ 70).
  - done.
Qed.

Lemma root_file_ok : file_ok fs_sb (bcache fs_sb) fs_state 0 root_inode.
Proof.
  split.
  - exact fs_quiet. - reflexivity. - reflexivity. - decided.
  - vm_compute. reflexivity.
  - apply (one_block_map _ _ 69); [|reflexivity|apply (fs_data 4); lia|vm_compute; reflexivity].
    apply (bool_decide_unpack (InodeEntry_wf root_entry)). vm_compute. exact I.
  - decided.
  - intros o Ho. by apply (one_block_full _ _ 69).
  - done.
Qed.

Lemma fs_has_free : has_free fs_sb (bcache fs_sb) fs_cache 8.
Proof.
  exists [71; 72; 73; 74; 75; 76; 77; 78]. split; [decided|]. split; [done|]. intros n Hn.
  assert (is_data fs_sb n) as Hd.
  { replace n with (65 + (n - 65)) by lia. apply fs_data.
    repeat (apply elem_of_cons in Hn as [->|Hn]; [lia|]). by apply not_elem_of_nil in Hn. }
  split; [done|]. clear Hd. revert n Hn. apply Forall_forall. decided.
Qed.

Lemma has_free_le c k k' : has_free fs_sb (bcache fs_sb) c k -> (k' <= k)%nat -> has_free fs_sb (bcache fs_sb) c k'.
Proof. intros (l & ? & ? & ?) Hk. exists l. split; [done|]. split; [lia|done]. Qed.

Lemma inode_alloc_correct_witness :
  exists r c', inode_alloc fs_sb (bcache fs_sb) None 2 fs_state = Ok (r, set_is_cache c' fs_state) /\
    quiet fs_sb (bcache fs_sb) c' /\
    ((r = 0 /\ (forall n, view c' n = view fs_cache n) /\
      forall j, 1 <= j <= 200 -> ie_type (disk_inode fs_sb (bcache fs_sb) fs_cache j) <> INODE_INVALID) \/
     (1 <= r <= 200 /\ took_inode fs_sb (bcache fs_sb) fs_cache c' 2 r /\
      forall j, 1 <= j < r -> ie_type (disk_inode fs_sb (bcache fs_sb) fs_cache j) <> INODE_INVALID)).
Proof. apply (inode_alloc_correct fs_sb (bcache fs_sb) fs_state None 2 fs_layout fs_quiet); done. Defined.

(** A regular file gets the first free inode; a directory gets none. *)
Lemma inode_alloc_group_correct_witness :
  (exists r c', inode_alloc_group fs_sb (bcache fs_sb) None INODE_REGULAR 0 fs_state = Ok (r, set_is_cache c' fs_state) /\
    quiet fs_sb (bcache fs_sb) c' /\ 0 < r <= 200 /\ took_inode fs_sb (bcache fs_sb) fs_cache c' INODE_REGULAR r /\
    forall j, 0 < j < r -> ie_type (disk_inode fs_sb (bcache fs_sb) fs_cache j) <> INODE_INVALID) /\
  exists r c', inode_alloc_group fs_sb (bcache fs_sb) None INODE_DIRECTORY 0 fs_state = Ok (r, set_is_cache c' fs_state) /\
    quiet fs_sb (bcache fs_sb) c' /\ r = 0 /\ c' = fs_cache.
Proof.
  split.
  - destruct (inode_alloc_group_correct fs_sb (bcache fs_sb) fs_state None INODE_REGULAR 0 fs_layout fs_quiet) as (r & c' & H1 & H2 & H3); [done..|].
    exists r, c'. split; [done|]. split; [done|]. destruct H3 as [(_ & _ & H)|(H & H')]; [|by split].
    exfalso. apply (H 3); [done|]. by vm_compute.
  - apply (inode_alloc_group_correct fs_sb (bcache fs_sb) fs_state None INODE_DIRECTORY 0 fs_layout fs_quiet); done.
Defined.

Lemma inode_read_correct_witness :
  exists c', inode_read fs_sb (bcache fs_sb) 1 1 100 fs_state = Ok ((4, [101; 108; 108; 111]), set_is_cache c' fs_state) /\
    file_ok fs_sb (bcache fs_sb) (set_is_cache c' fs_state) 1 hi_inode /\ (forall n, view c' n = view fs_cache n).
Proof.
  replace [101; 108; 108; 111] with (slice 1 4 (content fs_sb (bcache fs_sb) fs_cache hi_entry)) by (vm_compute; reflexivity).
  apply (inode_read_correct fs_sb (bcache fs_sb) fs_state 1 hi_inode 1 100 fs_layout hi_file_ok); simpl; lia.
Defined.

Lemma inode_write_correct_witness :
  exists c' e', inode_write fs_sb (bcache fs_sb) None 1 (replicate 600 33) 5 fs_state = Ok (600, with_entry fs_state 1 hi_inode c' e') /\
    file_ok fs_sb (bcache fs_sb) (with_entry fs_state 1 hi_inode c' e') 1 (set_i_entry e' hi_inode) /\
    content fs_sb (bcache fs_sb) c' e' = [104; 101; 108; 108; 111] ++ replicate 600 33 /\
    ie_type e' = INODE_REGULAR /\ ie_major e' = 0 /\ ie_minor e' = 0 /\ ie_num_links e' = 1 /\ ie_num_bytes e' = 605.
Proof.
  replace ([104; 101; 108; 108; 111] ++ replicate 600 33)
    with (splice 5 (replicate 600 33) (content fs_sb (bcache fs_sb) fs_cache hi_entry)) by (vm_compute; reflexivity).
  apply (inode_write_correct fs_sb (bcache fs_sb) fs_state None 1 hi_inode (replicate 600 33) 5 fs_layout hi_file_ok).
  - split; vm_compute; discriminate.
  - vm_compute. discriminate.
  - apply Forall_replicate. unfold byte_ok. lia.
  - exact I.
  - apply (has_free_le _ 8); [exact fs_has_free|]. apply (bool_decide_unpack _). vm_compute. exact I.
Defined.

(** Writing [/hi] while the root directory is looked at. *)
Lemma inode_write_isolated_witness :
  exists r c' e', inode_write fs_sb (bcache fs_sb) None 1 (replicate 600 33) 5 fs_state = Ok (r, with_entry fs_state 1 hi_inode c' e') /\
    file_ok fs_sb (bcache fs_sb) (with_entry fs_state 1 hi_inode c' e') 0 root_inode /\
    content fs_sb (bcache fs_sb) c' root_entry = content fs_sb (bcache fs_sb) fs_cache root_entry /\
    (forall n, n ∈ slots fs_sb (bcache fs_sb) c' e' -> n ∈ slots fs_sb (bcache fs_sb) c' root_entry -> n = 0).
Proof.
  apply (inode_write_isolated fs_sb (bcache fs_sb) fs_state None 1 hi_inode 0 root_inode (replicate 600 33) 5 fs_layout hi_file_ok).
  - split; vm_compute; discriminate.
  - vm_compute. discriminate.
  - apply Forall_replicate. unfold byte_ok. lia.
  - exact I.
  - apply (has_free_le _ 8); [exact fs_has_free|]. apply (bool_decide_unpack _). vm_compute. exact I.
  - exact root_file_ok.
  - discriminate.
  - discriminate.
  - intros n H1 H2. assert (n ∈ 70 :: replicate 140 0) as [->|H1']%elem_of_cons by exact H1.
    + assert (70 ∈ 69 :: replicate 140 0) as [?|H2']%elem_of_cons by exact H2; [done|].
      by apply elem_of_replicate in H2' as [? _].
    + by apply elem_of_replicate in H1' as [-> _].
Defined.

(** ** The root directory *)
Lemma root_dir_ok : dir_ok fs_sb (bcache fs_sb) fs_state 0 root_inode.
Proof. split; [exact root_file_ok|done|done]. Qed.

Definition name_hi : list Z := dot_name [104; 105].
Definition name_new : list Z := dot_name [110; 101; 119].

Lemma inode_lookup_correct_witness :
  exists c', inode_lookup fs_sb (bcache fs_sb) 0 name_hi fs_state = Ok ((2, 2), set_is_cache c' fs_state) /\
    (forall n, view c' n = view fs_cache n).
Proof.
  replace (2, 2) with (found (list_find (has_name name_hi) (entries fs_sb (bcache fs_sb) fs_cache root_entry)))
    by (vm_compute; reflexivity).
  apply (inode_lookup_correct fs_sb (bcache fs_sb) fs_state 0 root_inode name_hi fs_layout root_dir_ok). reflexivity.
Defined.

Lemma root_entries : entries fs_sb (bcache fs_sb) fs_cache root_entry =
  [mkDirEntry 1 (dot_name [46]); mkDirEntry 1 (dot_name [46; 46]); mkDirEntry 2 name_hi].
Proof. vm_compute. reflexivity. Qed.

Lemma inode_insert_lookup_witness :
  let l := entries fs_sb (bcache fs_sb) fs_cache root_entry in
  exists s1 s2, inode_insert fs_sb (bcache fs_sb) None 0 name_new 7 fs_state = Ok (Z.of_nat (free_slot l), s1) /\
    (exists i1, dir_ok fs_sb (bcache fs_sb) s1 0 i1 /\
       entries fs_sb (bcache fs_sb) (is_cache s1) (i_entry i1) = put_dirent l (free_slot l) (new_dirent name_new 7)) /\
    inode_lookup fs_sb (bcache fs_sb) 0 name_hi s1 =
      Ok (if decide (same_name name_hi name_new) then (7, Z.of_nat (free_slot l))
          else found (list_find (has_name name_hi) l), s2).
Proof.
  apply (inode_insert_lookup fs_sb (bcache fs_sb) fs_state None 0 root_inode name_new name_hi 7 fs_layout root_dir_ok);
    [reflexivity|reflexivity| | |vm_compute; reflexivity|vm_compute; discriminate|exact I|].
  - apply (bool_decide_unpack _). vm_compute. exact I.
  - lia.
  - apply (has_free_le _ 8); [exact fs_has_free|]. apply (bool_decide_unpack _). vm_compute. exact I.
Defined.

Lemma inode_remove_correct_witness :
  exists c' e', inode_remove fs_sb (bcache fs_sb) None 0 2 fs_state = Ok (tt, with_entry fs_state 0 root_inode c' e') /\
    dir_ok fs_sb (bcache fs_sb) (with_entry fs_state 0 root_inode c' e') 0 (set_i_entry e' root_inode) /\
    entries fs_sb (bcache fs_sb) c' e' = <[2%nat := mkDirEntry 0 (replicate 14 0)]> (entries fs_sb (bcache fs_sb) fs_cache root_entry) /\
    forall name n d, list_find (has_name name) (entries fs_sb (bcache fs_sb) c' e') = Some (n, d) -> n <> 2%nat.
Proof.
  apply (inode_remove_correct fs_sb (bcache fs_sb) fs_state None 0 root_inode 2 fs_layout root_dir_ok); [|exact I|].
  - change (2 < length (entries fs_sb (bcache fs_sb) fs_cache root_entry))%nat. rewrite root_entries. simpl. lia.
  - apply (has_free_le _ 8); [exact fs_has_free|]. apply (bool_decide_unpack _). vm_compute. exact I.
Defined.

(** ** Paths *)

(** Only the root is in memory, not locked. *)
Definition tree_state : istate cache :=
  mkIstate fs_cache {[0%nat := set_i_lock false root_inode]} 1 [0%nat] false init_console 0 false.

Lemma fs_dir_root ino : 1 <= ino <= 200 -> is_dir fs_sb (bcache fs_sb) fs_cache ino -> ino = 1.
Proof.
  intros Hi Hd.
  assert (forallb (fun j => negb (ie_type (disk_inode fs_sb (bcache fs_sb) fs_cache j) =? INODE_DIRECTORY) || (j =? 1)) (seqZ 1 200) = true) as H
    by (vm_compute; reflexivity).
  rewrite forallb_forall in H. specialize (H ino). rewrite <- list_elem_of_In, elem_of_seqZ in H. specialize (H ltac:(lia)).
  unfold is_dir in Hd. rewrite Hd, Z.eqb_refl in H. by apply Z.eqb_eq.
Qed.

Lemma fs_live j : j = 1 \/ j = 2 -> live fs_sb (bcache fs_sb) fs_cache j.
Proof. intros [->| ->]; (split; [simpl; lia|]); vm_compute; by split. Qed.

Lemma root_sound : dir_sound fs_sb (bcache fs_sb) fs_cache 1.
Proof.
  destruct root_file_ok as [_ _ _ _ Hd Hm Hs Hf _]. simpl i_inode_no in Hd. simpl is_cache in *. simpl i_entry in *.
  split; rewrite ?Hd; [exact Hm|exact Hs|exact Hf|done|]. intros d Hd1 _. unfold dir_entries in Hd1. rewrite Hd, root_entries in Hd1.
  apply fs_live. repeat (apply elem_of_cons in Hd1 as [->|Hd1]; [simpl; auto|]). by apply not_elem_of_nil in Hd1.
Qed.

Lemma tree_state_ok : tree_ok fs_sb (bcache fs_sb) ∅ tree_state.
Proof.
  assert (forall p i, is_objs tree_state !! p = Some i -> p = 0%nat /\ i = set_i_lock false root_inode) as Ho
    by (intros p i Hp; change (({[0%nat := set_i_lock false root_inode]} : gmap nat Inode) !! p = Some i) in Hp;
        apply lookup_singleton_Some in Hp as [<- <-]; done).
  split.
  - exact fs_quiet.
  - split; try done.
    + intros p. simpl. rewrite list_elem_of_singleton, lookup_singleton_is_Some. split; congruence.
    + apply NoDup_singleton.
    + intros p [i [-> _]%Ho]. simpl. lia.
    + by intros p i [_ ->]%Ho.
    + intros p q i j [-> _]%Ho [-> _]%Ho. done.
  - by intros p i [_ ->]%Ho.
  - intros p i [_ ->]%Ho _. symmetry. apply (fo_disk _ _ _ _ _ root_file_ok).
  - intros ino [Hi _] Hd. rewrite (fs_dir_root ino Hi Hd). exact root_sound.
Qed.

Lemma namex_correct_witness :
  exists r s', namex fs_sb (bcache fs_sb) root_entry [47; 104; 105] false (replicate 14 0) 7 tree_state = Ok (r, s') /\
    tree_ok fs_sb (bcache fs_sb) ∅ s' /\ (forall m, view (is_cache s') m = view fs_cache m) /\ is_cwd s' = 0%nat /\
    (exists p i, r.1 = Some p /\ is_objs s' !! p = Some i /\ i_inode_no i = 2) /\
    (false = true -> take 14 (cstr r.2) = [104; 105]) /\
    forall k, refs s' k = refs tree_state k + if decide (k = 2) then 1 else 0.
Proof.
  assert (resolve fs_sb (bcache fs_sb) fs_cache false 1 [(0%nat, [104; 105])] 0 = Found 2 []) as Hr by (vm_compute; reflexivity).
  pose proof (namex_correct fs_sb (bcache fs_sb) root_entry tree_state [47; 104; 105] false (replicate 14 0) 7 [(0%nat, [104; 105])] 0
    fs_layout tree_state_ok) as H.
  assert (descend fs_sb (bcache fs_sb) fs_cache 1 [(0%nat, [104; 105])] = Some 2) as Hd by (vm_compute; reflexivity).
  simpl is_cache in H. change (start_of tree_state [47; 104; 105]) with 1 in H. simpl dirs in H. rewrite Hd in H. apply H.
  - repeat constructor; done.
  - done.
  - done.
  - apply fs_live. by left.
  - intros k. by destruct k.
  - by rewrite Hr.
Defined.

(** A path that ends in "." leads to the directory before the last name:
    "/hi/." is the root, though [/hi] is no directory. *)
Example namei_dot :
  match namei fs_sb (bcache fs_sb) root_entry [47; 104; 105; 47; 46] 7 tree_state with
  | Ok (Some p, s') => i_inode_no <$> is_objs s' !! p = Some 1
  | _ => False
  end.
Proof. vm_compute. reflexivity. Qed.

End FileDemo.
