(* ===== verification/Fs.v ===== *)
(** * Start of the file system (src/fs/fs.c, block_device.c)

    The super block is read, the log is replayed, the used blocks of each
    group are counted from its bitmap, and the root inode is taken. The
    theorem says that this establishes the invariant on which block
    allocation relies. *)
From S2P Require Import Prelude Bitmap FsDefines Console BlockIface Cache CacheFacts CacheLog CacheAlloc Inode InodeFacts FsDemo.

Module Fs.
Import Bitmap Cache CacheFacts CacheLog CacheAlloc Inode InodeFacts FsDemo.

(** The statics: [sblock_data] of block_device.c; the cache and the inodes. *)
Record fsys : Type := mkFsys { fs_sblock_data : list Z; fs_inodes : istate cache }.
Definition set_fs_sblock_data (x : list Z) (s : fsys) : fsys := mkFsys x (fs_inodes s).
Definition set_fs_inodes (x : istate cache) (s : fsys) : fsys := mkFsys (fs_sblock_data s) x.
Definition ondisk {A} (m : M cache A) : M fsys A :=
  lift fs_inodes set_fs_inodes (lift is_cache set_is_cache m).

(** [sizeof(struct buf) - 16]: the data of one buffer. *)
Definition sd_size : Z := 528 - 16.

(** The part of [init_block_device] after [sd_init]. *)
Definition init_block_device : M fsys unit :=
  eachM (seqZ 0 (BLOCK_SIZE / sd_size)) (fun sd_num =>
    d ← ondisk (device_read_M (SECTS_PER_BLOCK + sd_num));
    modify (fun s => set_fs_sblock_data (splice (Z.to_nat (sd_num * sd_size)) d (fs_sblock_data s)) s)).

Definition get_super_block : M fsys SuperBlock := gets (fun s => decode_SuperBlock (fs_sblock_data s)).

Section fs.
Context (sblock : SuperBlock).

(** The two inner loops of [init_filesystem], for group [h]; the block number
    is computed in 32 bits. *)
Definition count_group (h : Z) : M cache unit :=
  forM (bitmap_blocks (blocks_per_group sblock)) 0 BIT_PER_BLOCK (fun i =>
    used_block_data ← device_read_M (u32 (bg_start sblock + h * blocks_per_group sblock + bitmap_start_per_group sblock + i / BIT_PER_BLOCK));
    let bitmap := bitmap_of used_block_data in
    forM (Z.to_nat (Z.min (BIT_PER_BLOCK - i) (blocks_per_group sblock) - data_start_per_group sblock)) (data_start_per_group sblock) 1 (fun j =>
      whenM (bitmap_get bitmap j) (add_used h 1);; mret (None : option unit)));;
  mret tt.
End fs.

(** [uninit] is what [alloc_object] leaves in the entry of a new inode. *)
Definition init_filesystem (uninit : InodeEntry) : M fsys unit :=
  init_block_device;;
  sblock ← get_super_block;
  ondisk (init_bcache sblock);;
  ondisk (eachM (seqZ 0 NGROUPS) (count_group sblock));;
  lift fs_inodes set_fs_inodes (init_inodes sblock uninit);;
  mret tt.

(** Before the start: statics are zero, the card holds [d]. *)
Definition at_boot (d : Device) (con : Console.console) : fsys :=
  mkFsys (replicate bsize 0) (mkIstate (init_cache d) ∅ 0 [] false con 0 false).

(** ** The counters *)
Section count.
Context (sb : SuperBlock) (Hgeo : geometry_ok sb).

(** What group [g] has in use by its bitmap on the disk. *)
Definition used_bits (s : cache) (g : Z) : Z :=
  let bm := bitmap_of (dev_read s (bitmap_block sb g)) in
  Z.of_nat (count_set bm (Z.to_nat (blocks_per_group sb))) - Z.of_nat (count_set bm (Z.to_nat (data_start_per_group sb))).

Lemma count_set_mono bm m n : (m <= n)%nat -> (count_set bm m <= count_set bm n)%nat.
Proof. induction 1 as [|n H IH]; [done|]. rewrite count_set_S. lia. Qed.

Lemma bitmap_blocks_one : bitmap_blocks (blocks_per_group sb) = 1%nat.
Proof using Hgeo.
  destruct Hgeo as [[H0 H1] _ _ _ _ _ _]. unfold bitmap_blocks, BIT_PER_BLOCK, BLOCK_SIZE in *.
  replace ((blocks_per_group sb + 512 * 8 - 1) / (512 * 8)) with 1 by (Z.to_euclidean_division_equations; lia). done.
Qed.

Lemma count_group_ok s g :
  length (c_used_block s) = Z.to_nat NGROUPS -> 0 <= g < NGROUPS -> c_used_block s !!! Z.to_nat g = 0 ->
  wp (count_group sb g) (fun _ s' => s' = set_c_used_block (<[Z.to_nat g := used_bits s g]> (c_used_block s)) s) s.
Proof using Hgeo.
  intros Hlen Hg H0. pose proof Hgeo as [Hbpg _ Hbg Hbm Hds _ Hmax].
  assert (NGROUPS = 10) as EN by done. assert (BIT_PER_BLOCK = 4096) as EB by done.
  unfold count_group. rewrite bitmap_blocks_one. simpl forM. apply wp_bind, wp_bind, wp_bind. unfold device_read_M. apply wp_gets.
  change (0 / BIT_PER_BLOCK) with 0. rewrite Z.add_0_r, Z.sub_0_r.
  rewrite (u32_id (_ + _ + _)) by nia. change (bg_start sb + g * blocks_per_group sb + bitmap_start_per_group sb) with (bitmap_block sb g).
  change (disk_read _ _) with (dev_read s (bitmap_block sb g)). set (bm := bitmap_of _).
  set (cnt k := Z.of_nat (count_set bm (Z.to_nat k)) - Z.of_nat (count_set bm (Z.to_nat (data_start_per_group sb)))).
  apply (wp_forM _ _ _ _ (fun k s' => s' = set_c_used_block (<[Z.to_nat g := cnt k]> (c_used_block s)) s)).
  - unfold cnt. rewrite Z.sub_diag. rewrite <- H0. rewrite list_insert_id; [by destruct s|]. apply list_lookup_lookup_total_lt. lia.
  - intros k s' Hk ->. set (j := _ + 1 * Z.of_nat k). replace (data_start_per_group sb + 1 * Z.of_nat (S k)) with (j + 1) by (unfold j; lia).
    assert (data_start_per_group sb <= j < blocks_per_group sb /\ j < 4096) as Hj by (unfold j; lia). clearbody j.
    assert (cnt (j + 1) = cnt j + Z.b2z (bitmap_get bm j)) as Ec.
    { unfold cnt. replace (Z.to_nat (j + 1)) with (S (Z.to_nat j)) by lia. rewrite count_set_S, Z2Nat.id by lia. destruct (bitmap_get bm j); simpl; lia. }
    assert (0 <= cnt (j + 1) <= 4096) as Hc.
    { unfold cnt. pose proof (count_set_le bm (Z.to_nat (j + 1))).
      pose proof (count_set_mono bm (Z.to_nat (data_start_per_group sb)) (Z.to_nat (j + 1)) ltac:(lia)). lia. }
    apply wp_bind. destruct (bitmap_get bm j); simpl whenM; simpl Z.b2z in Ec.
    + unfold add_used. apply wp_bind, wp_gets, wp_bind, wp_assert; [apply andb_true_iff; split; [apply Z.leb_le|apply Z.ltb_lt]; lia|].
      apply wp_modify, wp_ret. simpl. unfold set_c_used_block. simpl. f_equal.
      rewrite list_lookup_total_insert_eq by lia. rewrite list_insert_insert_eq, u32_id by lia. f_equal. lia.
    + apply wp_ret, wp_ret. by rewrite Ec, Z.add_0_r.
  - intros s' ->. do 2 (apply wp_ret). unfold used_bits. fold bm. f_equal. f_equal. unfold cnt. do 3 f_equal. lia.
Qed.

Lemma used_bits_ext s s' g : c_dev s' = c_dev s -> used_bits s' g = used_bits s g.
Proof. unfold used_bits, dev_read. by intros ->. Qed.

(** The loop over the groups, from counters that are 0. *)
Lemma count_groups_ok s :
  c_used_block s = replicate (Z.to_nat NGROUPS) 0 ->
  wp (eachM (seqZ 0 NGROUPS) (count_group sb)) (fun _ s' => exists ub, s' = set_c_used_block ub s /\ length ub = Z.to_nat NGROUPS /\
    forall g, 0 <= g < NGROUPS -> ub !!! Z.to_nat g = used_bits s g) s.
Proof using Hgeo.
  intros H0. apply (wp_eachM_seqZ _ _ (fun k s' => exists ub, s' = set_c_used_block ub s /\ length ub = Z.to_nat NGROUPS /\
    forall g, 0 <= g < NGROUPS -> ub !!! Z.to_nat g = if decide (g < k) then used_bits s g else 0)); [done| | |].
  - exists (replicate (Z.to_nat NGROUPS) 0). rewrite <- H0 at 1. split; [by destruct s|]. split; [done|].
    intros g Hg. rewrite decide_False by lia. apply lookup_total_replicate_2. lia.
  - intros k s' Hk (ub & -> & Hlen & Hub). eapply wp_mono.
    + apply count_group_ok; [done|done|]. simpl. rewrite Hub by done. by rewrite decide_False by lia.
    + intros _ s'' ->. exists (<[Z.to_nat k := used_bits s k]> ub). split; [done|]. split; [by rewrite length_insert|].
      intros g Hg. destruct (decide (g = k)) as [->|Hne].
      * rewrite list_lookup_total_insert_eq by lia. by rewrite decide_True by lia.
      * rewrite list_lookup_total_insert_ne by lia. rewrite Hub by done. repeat case_decide; (done || lia).
  - intros s' (ub & -> & Hlen & Hub). exists ub. split; [done|]. split; [done|]. intros g Hg. rewrite Hub by done. by rewrite decide_True by lia.
Qed.

End count.
(** ** Boot *)
Lemma over_bytes v ws m :
  (forall m, Forall byte_ok (v m)) -> Forall (fun w => Forall byte_ok w.2) ws -> Forall byte_ok (over v ws m).
Proof.
  revert v. induction ws as [|w ws IH]; intros v Hv Hws; [apply Hv|]. apply Forall_cons in Hws as [Hw Hws].
  simpl. apply IH; [|done]. intros n. by case_decide.
Qed.

Lemma replay_writes_bytes sb v ls h :
  (forall m, Forall byte_ok (v m)) -> Forall (fun w => Forall byte_ok w.2) (replay_writes sb v ls h).
Proof.
  intros Hv. unfold replay_writes. destruct (_ =? _); [constructor|]. apply Forall_app. split.
  - unfold install_writes. apply Forall_lookup. intros i [n x]. rewrite list_lookup_imap. destruct (entries h !! i); simpl; [|done].
    intros E. injection E as <- <-. apply Hv.
  - apply Forall_singleton. simpl. unfold encode_LogHeader. apply Forall_app. split; [apply le_bytes_ok|apply unwords_ok].
Qed.

(** A disk from which the machine can boot. *)
Record bootable (sb : SuperBlock) (d : Device) : Prop := {
  bo_sb : decode_SuperBlock (disk_read (dv_disk d) 1) = sb;
  bo_geo : geometry_ok sb;
  bo_log : disk_ok sb (dv_disk d);
  bo_order : log_start sb < bg_start sb;
  bo_bytes : forall m, Forall byte_ok (disk_read (dv_disk d) m);
  bo_root : ROOT_INODE_NO < num_inodes sb;
  bo_reserved : forall g j, 0 <= g < num_groups sb -> 0 <= j < data_start_per_group sb ->
    bitmap_get (bitmap_of (recovered sb (dv_disk d) (bitmap_block sb g))) j = true
}.

(** The cache after the log is replayed: empty, with the recovered content. *)
Lemma init_bcache_boot sb d :
  bootable sb d ->
  wp (init_bcache sb) (fun _ s => cache_inv s /\ (forall m, Forall byte_ok (view s m)) /\ (forall m, dev_read s m = view s m) /\
    (forall m, m <> log_start sb -> view s m = recovered sb (dv_disk d) m) /\ c_used_block s = replicate (Z.to_nat NGROUPS) 0) (init_cache d).
Proof.
  intros []. apply init_bcache_spec; [done|]. intros s1 Hw. pose proof (ws_idle _ _ _ _ _ Hw) as [Hi Hul].
  set (s2 := set_c_header _ s1). assert (forall m, view s2 m = view s1 m) as Hv2 by done.
  assert (forall m, dev_read s1 m = view s1 m) as Hdv by (intros m; symmetry; apply view_clean; [done|apply Hul|apply Hw]).
  assert (forall m, view s1 m = over (disk_read (dv_disk d)) (replay_writes sb (disk_read (dv_disk d)) (first_log_block sb) (disk_header sb (dv_disk d))) m) as Hv1.
  { intros m. rewrite (ws_view _ _ _ _ _ Hw). done. }
  split; [|split; [|split; [done|split]]].
  - destruct Hi. by split.
  - intros m. rewrite Hv2, Hv1. apply over_bytes; [done|]. by apply replay_writes_bytes.
  - intros m Hm. rewrite Hv2, Hv1. unfold recovered, replay_writes.
    destruct (Z.eqb_spec (lh_num_blocks (disk_header sb (dv_disk d))) 0) as [E|E].
    + unfold entries. by rewrite E.
    + rewrite over_app. simpl. by rewrite decide_False by done.
  - destruct (ws_rest _ _ _ _ _ Hw) as [_ [Hub _]]. exact Hub.
Qed.

Lemma boot_alloc_inv sb d s ub :
  bootable sb d -> cache_inv s -> (forall m, Forall byte_ok (view s m)) -> (forall m, dev_read s m = view s m) ->
  (forall m, m <> log_start sb -> view s m = recovered sb (dv_disk d) m) ->
  length ub = Z.to_nat NGROUPS -> (forall g, 0 <= g < NGROUPS -> ub !!! Z.to_nat g = used_bits sb s g) ->
  alloc_inv sb (set_c_used_block ub s).
Proof.
  intros [] Hi Hb Hdv Hrec Hlen Hub. destruct bo_geo0 as [Hbpg Hng Hbg Hbm Hds _ _].
  assert (forall g j, 0 <= g < num_groups sb -> 0 <= j < data_start_per_group sb -> bitmap_get (bitmap_of (view s (bitmap_block sb g))) j = true) as Hres.
  { intros g j Hg Hj. rewrite Hrec; [by apply bo_reserved0|]. unfold bitmap_block, group_block. nia. }
  split.
  - destruct Hi. by split.
  - done.
  - done.
  - intros g j Hg Hj. by apply Hres.
  - intros g Hg. simpl. rewrite Hub by lia. unfold used_bits, bits. rewrite Hdv. change (view (set_c_used_block ub s)) with (view s).
    set (bm := bitmap_of _). assert (count_set bm (Z.to_nat (data_start_per_group sb)) = Z.to_nat (data_start_per_group sb)) as ->; [|lia].
    apply Nat.le_antisymm; [apply count_set_le|]. apply count_set_ge; [done|]. intros k Hk. apply Hres; [done|lia].
Qed.

(** The root inode is taken, with one reference. *)
Lemma init_inodes_boot sb uninit (s : istate cache) :
  ROOT_INODE_NO < num_inodes sb ->
  wp (init_inodes sb uninit) (fun r s' => is_cache s' = is_cache s /\ exists p i, r = Some p /\ is_head s' = [p] /\
    is_objs s' !! p = Some i /\ i_inode_no i = ROOT_INODE_NO /\ i_rc i = 1 /\ i_valid i = false /\ is_lock s' = false) s.
Proof.
  intros Hn. unfold ROOT_INODE_NO in *. unfold init_inodes. apply wp_bind, wp_modify. unfold ROOT_INODE_NO. rewrite (proj2 (Z.ltb_lt _ _) Hn).
  apply wp_bind. apply (wp_change _ (fun s0 => Ok (is_next s0, mkIstate (is_cache s0)
    (<[is_next s0 := mkInode (i_lock (init_inode uninit)) 1 1 (i_valid (init_inode uninit)) (i_entry (init_inode uninit))]> (is_objs s0))
    (S (is_next s0)) [is_next s0] false (is_con s0) (is_cwd s0) (is_killed s0)))).
  { unfold inode_get. rewrite (proj2 (Z.leb_le 1 _)) by lia. reflexivity. }
  apply wp_ret. simpl. split; [done|]. eexists _, _. split; [done|]. split; [done|]. rewrite lookup_insert_eq. by split_and!.
Qed.

Lemma init_block_device_ok d con :
  (forall m, length (disk_read (dv_disk d) m) = bsize) ->
  wp init_block_device (fun _ s => s = set_fs_sblock_data (disk_read (dv_disk d) 1) (at_boot d con)) (at_boot d con).
Proof.
  intros Hl. unfold init_block_device. change (seqZ 0 (BLOCK_SIZE / sd_size)) with [0]. simpl eachM. apply wp_bind, wp_bind.
  unfold ondisk, device_read_M. apply wp_lift, wp_lift, wp_gets, wp_modify, wp_ret. simpl.
  unfold set_fs_sblock_data. simpl. f_equal. unfold splice. change (Z.to_nat (0 * sd_size)) with 0%nat. simpl.
  change (SECTS_PER_BLOCK + 0) with 1. rewrite drop_ge by (rewrite Hl; simpl; done). by rewrite app_nil_r.
Qed.

Lemma wp_unit {St} (m : M St unit) (Q : St -> Prop) s : wp m (fun _ => Q) s -> exists s', m s = Ok (tt, s') /\ Q s'.
Proof. intros ([] & s' & H1 & H2)%wp_ok. by exists s'. Qed.

(** The cache and the inodes after the start. *)
Lemma init_filesystem_ok sb d con uninit :
  bootable sb d ->
  wp (init_filesystem uninit) (fun _ s => exists c1 ub, init_bcache sb (init_cache d) = Ok (tt, c1) /\
    let c := is_cache (fs_inodes s) in
    c = set_c_used_block ub c1 /\ alloc_inv sb c /\ (forall m, m <> log_start sb -> view c m = recovered sb (dv_disk d) m) /\
    exists p i, is_head (fs_inodes s) = [p] /\ is_objs (fs_inodes s) !! p = Some i /\ i_inode_no i = ROOT_INODE_NO /\ i_rc i = 1)
    (at_boot d con).
Proof.
  intros Hb. pose proof Hb as [Hsb Hgeo [Hlen _] _ _ Hroot _]. unfold init_filesystem.
  apply wp_bind. eapply wp_mono; [by apply init_block_device_ok|]. intros _ s0 ->.
  apply wp_bind. unfold get_super_block. apply wp_gets. simpl fs_sblock_data. rewrite Hsb.
  destruct (proj1 (wp_ok _ _ _) (init_bcache_boot sb d Hb)) as ([] & c1 & Heq & Hi & Hby & Hdv & Hrec & Hub0).
  apply wp_bind. unfold ondisk at 1. apply wp_lift, wp_lift. eapply wp_eq; [exact Heq|].
  apply wp_bind. unfold ondisk at 1. apply wp_lift, wp_lift.
  eapply wp_mono; [by apply count_groups_ok|]. intros _ c2 (ub & -> & Hlub & Hub).
  pose proof (boot_alloc_inv _ _ _ _ Hb Hi Hby Hdv Hrec Hlub Hub) as Hai.
  apply wp_bind, wp_lift. eapply wp_mono; [by apply init_inodes_boot|]. intros r s' (Hc & p & i & _ & Hh & Ho & Hn & Hrc & _).
  apply wp_ret. exists c1, ub. split; [done|]. simpl fs_inodes. rewrite Hc. simpl is_cache.
  split; [done|]. split; [exact Hai|]. split; [exact Hrec|]. exists p, i. done.
Qed.

(** C34: starting the file system establishes what block allocation relies on.
    On a disk with a super block whose geometry is sound, a well-formed log
    header, and bitmaps that reserve the blocks before the data of each group
    once the log is replayed, [init_filesystem] succeeds: the logical content of
    every block but the log header is the recovered one, the counter of each
    group is the number of its data blocks in use by the bitmap, so the
    invariant of [cache_alloc], [cache_allocg] and [cache_free] holds, and the
    only inode in memory is the root, with one reference. *)
Theorem init_filesystem_correct sb d con uninit :
  bootable sb d ->
  exists s, init_filesystem uninit (at_boot d con) = Ok (tt, s) /\
    let c := is_cache (fs_inodes s) in
    alloc_inv sb c /\ (forall m, m <> log_start sb -> view c m = recovered sb (dv_disk d) m) /\
    (forall g, 0 <= g < num_groups sb -> c_used_block c !!! Z.to_nat g =
       Z.of_nat (count_set (bits sb c g) (Z.to_nat (blocks_per_group sb))) - data_start_per_group sb) /\
    exists p i, is_head (fs_inodes s) = [p] /\ is_objs (fs_inodes s) !! p = Some i /\ i_inode_no i = ROOT_INODE_NO /\ i_rc i = 1.
Proof.
  intros Hb. apply (wp_unit (init_filesystem uninit)). eapply wp_mono; [by apply init_filesystem_ok|].
  intros [] s (c1 & ub & _ & _ & Hai & Hrec & Hroot). split_and!; [done|done| |done].
  intros g Hg. by apply (ai_used _ _ Hai).
Qed.

(** *** The file system of FsDemo, with its super block in place *)
Definition fs_boot_disk : gmap Z (list Z) := <[1 := encode_SuperBlock fs_sb ++ replicate 464 0]> fs_disk.

Lemma fs_reserved :
  forallb (fun g => forallb (fun j => bitmap_get (bitmap_of (disk_read fs_boot_disk (bitmap_block fs_sb g))) j) (seqZ 0 4)) (seqZ 0 10) = true.
Proof. vm_compute. reflexivity. Qed.

Lemma fs_boot_header : disk_header fs_sb fs_boot_disk = mkLogHeader 0 (replicate 63 0).
Proof. vm_compute. reflexivity. Qed.

Lemma fs_boot_sb : decode_SuperBlock (disk_read fs_boot_disk 1) = fs_sb.
Proof. vm_compute. reflexivity. Qed.

Lemma fs_boot_block m : length (disk_read fs_boot_disk m) = bsize /\ Forall byte_ok (disk_read fs_boot_disk m).
Proof.
  unfold fs_boot_disk. destruct (decide (m = 1)) as [->|Hne].
  - unfold disk_read. rewrite lookup_insert_eq. split; [reflexivity|]. apply (bool_decide_unpack _). vm_compute. exact I.
  - unfold disk_read. rewrite lookup_insert_ne by done. apply fs_disk_ok.
Qed.

#[local] Opaque fs_boot_disk.
Lemma fs_bootable : bootable fs_sb (mkDevice fs_boot_disk []).
Proof.
  split; simpl dv_disk.
  - exact fs_boot_sb.
  - by split.
  - split; [intros m; apply fs_boot_block|]. rewrite fs_boot_header. split; [split; [simpl; lia|split; [done|by apply Forall_replicate]]|simpl; lia|].
    split; simpl; [constructor|intros m Hm%not_elem_of_nil; done|done].
  - done.
  - intros m. apply fs_boot_block.
  - done.
  - intros g j Hg Hj. unfold recovered. rewrite fs_boot_header. change (entries _) with (@nil Z). simpl.
    apply (proj1 (forallb_forall _ (seqZ 0 4)) (proj1 (forallb_forall _ (seqZ 0 10)) fs_reserved g (proj1 (list_elem_of_In _ _) (proj2 (elem_of_seqZ 0 10 g) Hg)))).
    apply list_elem_of_In, elem_of_seqZ. exact Hj.
Qed.

Lemma init_filesystem_correct_witness :
  exists s, init_filesystem root_entry (at_boot (mkDevice fs_boot_disk []) Console.init_console) = Ok (tt, s) /\
    let c := is_cache (fs_inodes s) in
    alloc_inv fs_sb c /\ (forall m, m <> 2 -> view c m = recovered fs_sb fs_boot_disk m) /\
    (forall g, 0 <= g < 10 -> c_used_block c !!! Z.to_nat g = Z.of_nat (count_set (bits fs_sb c g) 16) - 4) /\
    exists p i, is_head (fs_inodes s) = [p] /\ is_objs (fs_inodes s) !! p = Some i /\ i_inode_no i = ROOT_INODE_NO /\ i_rc i = 1.
Proof. apply (init_filesystem_correct fs_sb (mkDevice fs_boot_disk [])). exact fs_bootable. Defined.

End Fs.
