(* ===== verification/Mkfs.v ===== *)
(** * The image builder (src/user/mkfs/main.c)

    A host program: it writes an empty image, the super block, the root
    directory and the files it is given, and then the bitmaps. The theorem
    says that the kernel counts from the bitmaps it wrote exactly the used
    blocks that mkfs counted. *)
From S2P Require Import Prelude Bitmap FsDefines CString BlockIface Cache CacheFacts CacheAlloc Inode Fs.

Module Mkfs.
Import Bitmap CString Cache CacheFacts CacheAlloc Inode Fs.

Definition LOGSIZE : Z := LOG_MAX_SIZE.
Definition IPB : Z := BLOCK_SIZE / sizeof_InodeEntry.
(** [FSSIZE] is a macro without parentheses; [FSSIZE - 2 - LOGSIZE] is the
    same sum either way. *)
Definition BPG : Z := (FSSIZE - 2 - LOGSIZE) / NGROUPS.
Definition NIPG : Z := NINODES / NGROUPS.
Definition NINBLOCKS_PER_GROUP : Z := INODE_NUM_INDIRECT / (NGROUPS - 1) * 2 + 1.

Definition ninodeblocks_per_group : Z := NINODES / NGROUPS / IPB + 1.
Definition nbitmap_per_group : Z := BPG / BIT_PER_BLOCK + 1.
Definition nmeta : Z := 2 + LOGSIZE + ninodeblocks_per_group * NGROUPS + nbitmap_per_group * NGROUPS.

(** To little-endian, on a little-endian host. *)
Definition xshort (x : Z) : Z := le_val [u8 x; u8 (Z.shiftr x 8)].
Definition xint (x : Z) : Z := le_val [u8 x; u8 (Z.shiftr x 8); u8 (Z.shiftr x 16); u8 (Z.shiftr x 24)].

(** The super block that [main] fills in. *)
Definition sb : SuperBlock :=
  mkSuperBlock (xint FSSIZE) (xint LOGSIZE) (xint NGROUPS) (xint NINODES) (xint BPG) (xint 2) (xint (2 + LOGSIZE))
    (xint ninodeblocks_per_group) (xint nbitmap_per_group) (xint (BPG - ninodeblocks_per_group - nbitmap_per_group))
    (xint ninodeblocks_per_group) (xint (ninodeblocks_per_group + nbitmap_per_group)).

Definition IBLOCK (i : Z) : Z := bg_start sb + BPG * ((i - 1) / NIPG) + ((i - 1) mod NIPG) / IPB.
Definition IGROUP (i : Z) : Z := (i - 1) / NIPG.

(** The image by sectors, and the counters. *)
Record mkfs : Type := mkMkfs { img : gmap Z (list Z); freeinode : Z; freeblock : Z; used_block : list Z }.
Definition set_img (x : gmap Z (list Z)) (s : mkfs) : mkfs := mkMkfs x (freeinode s) (freeblock s) (used_block s).
Definition set_freeinode (x : Z) (s : mkfs) : mkfs := mkMkfs (img s) x (freeblock s) (used_block s).
Definition set_freeblock (x : Z) (s : mkfs) : mkfs := mkMkfs (img s) (freeinode s) x (used_block s).
Definition set_used_block (x : list Z) (s : mkfs) : mkfs := mkMkfs (img s) (freeinode s) (freeblock s) x.

(** *** Sectors and blocks; reading behind the end of the image ends the program *)
Definition wsect (sec : Z) (buf : list Z) : M mkfs unit := modify (fun s => set_img (<[sec := buf]> (img s)) s).
Definition rsect (sec : Z) : M mkfs (list Z) := o ← gets (fun s => img s !! sec); from_option_M o.

(** One block is [SECTS_PER_BLOCK] sectors. *)
Definition rblock (bnum : Z) : M mkfs (list Z) :=
  (fix go (n : nat) (sec : Z) : M mkfs (list Z) :=
     match n with
     | O => mret []
     | S n' => d ← rsect (u32 (sec + bnum * SECTS_PER_BLOCK)); r ← go n' (sec + 1); mret (d ++ r)
     end) (Z.to_nat SECTS_PER_BLOCK) 0.
Definition wblock (bnum : Z) (buf : list Z) : M mkfs unit :=
  eachM (seqZ 0 SECTS_PER_BLOCK) (fun sec =>
    wsect (u32 (sec + bnum * SECTS_PER_BLOCK)) (slice (Z.to_nat (sec * SECT_SIZE)) (Z.to_nat SECT_SIZE) buf)).

(** *** Inodes *)
Definition winode (inum : Z) (ip : InodeEntry) : M mkfs unit :=
  let bn := u32 (IBLOCK inum) in
  buf ← rblock bn;
  wblock bn (splice (Z.to_nat (inum mod IPB * sizeof_InodeEntry)) (encode_InodeEntry ip) buf).
Definition rinode (inum : Z) : M mkfs InodeEntry :=
  buf ← rblock (u32 (IBLOCK inum));
  mret (decode_InodeEntry (slice (Z.to_nat (inum mod IPB * sizeof_InodeEntry)) 64 buf)).

Definition ialloc (type : Z) : M mkfs Z :=
  inum ← gets freeinode;
  modify (set_freeinode (u32 (inum + 1)));;
  winode inum (mkInodeEntry (xshort type) 0 0 (xshort 1) (xint 0) (replicate 12 0) 0);;
  mret inum.

(** *** Bitmaps *)
Definition set_bits (groupused data_start : Z) : list Z :=
  foldl (fun buf i => <[Z.to_nat (i / 8) := Z.lor (buf !!! Z.to_nat (i / 8)) (Z.shiftl 1 (i mod 8))]> buf) zero_block
    (seqZ 0 (groupused + data_start)).

Definition ballocg : M mkfs unit :=
  let data_start := data_start_per_group sb in
  eachM (seqZ 0 NGROUPS) (fun gno =>
    used ← gets used_block;
    groupused ← from_option_M (used !! Z.to_nat gno);
    assert_ (groupused <=? num_datablocks_per_group sb);;
    wblock (u32 (bg_start sb + bitmap_start_per_group sb + gno * BPG)) (set_bits groupused data_start)).

(** *** Files *)
Definition used_at (gno : Z) : M mkfs Z := used ← gets used_block; from_option_M (used !! Z.to_nat gno).
Definition incr_used (gno : Z) : M mkfs unit :=
  u ← used_at gno; modify (fun s => set_used_block (<[Z.to_nat gno := u32 (u + 1)]> (used_block s)) s).

(** The first group from [gno] on that is not full; it loops if all are. *)
Fixpoint find_group (fuel : nat) (gno : Z) : M mkfs Z :=
  match fuel with
  | O => nofuel
  | S fuel' => u ← used_at gno; if u =? num_datablocks_per_group sb then find_group fuel' ((gno + 1) mod NGROUPS) else mret gno
  end.

(** The search for a group of an indirect block. After [tgno] is reset the
    test of the last [if] is never true. *)
Fixpoint find_tgno (fuel : nat) (tgno step : Z) : M mkfs Z :=
  match fuel with
  | O => nofuel
  | S fuel' =>
      u ← used_at tgno;
      if u =? num_datablocks_per_group sb then
        let tgno := tgno + step in
        let '(tgno, step) := if NGROUPS <=? tgno then (0, 1) else (tgno, step) in
        if (step =? 1) && (NGROUPS <=? tgno) then mret tgno else find_tgno fuel' tgno step
      else mret tgno
  end.

Definition group_fuel : nat := 32.

(** The block of group [gno] that comes next. *)
Definition next_block (gno : Z) : M mkfs Z :=
  u ← used_at gno;
  let b := u32 (bg_start sb + gno * BPG + data_start_per_group sb + u) in
  modify (set_freeblock b);; mret b.

Definition addr_at (l : list Z) (i : Z) : Z := l !!! Z.to_nat i.

(** The block of [iappend] for the file block [fbn], with the inode as it is
    afterwards. *)
Definition block_for (din : InodeEntry) (fbn gno : Z) : M mkfs (InodeEntry * Z) :=
  freeblock ← next_block gno;
  if fbn <? INODE_NUM_DIRECT then
    if xint (addr_at (ie_addrs din) fbn) =? 0 then
      incr_used gno;;
      let din := set_ie_addrs (<[Z.to_nat fbn := xint freeblock]> (ie_addrs din)) din in
      mret (din, xint (addr_at (ie_addrs din) fbn))
    else mret (din, xint (addr_at (ie_addrs din) fbn))
  else
    din ← (if xint (ie_indirect din) =? 0 then incr_used gno;; mret (set_ie_indirect (xint freeblock) din) else mret din);
    buf ← rblock (xint (ie_indirect din));
    let indirect := decode_IndirectBlock buf in
    let indirect_no := fbn - INODE_NUM_DIRECT in
    if addr_at indirect indirect_no =? 0 then
      tgno ← find_tgno group_fuel ((indirect_no / NINBLOCKS_PER_GROUP + 1) mod NGROUPS) 2;
      freeblock ← next_block tgno;
      let indirect := <[Z.to_nat indirect_no := xint freeblock]> indirect in
      incr_used tgno;;
      wblock (xint (ie_indirect din)) (encode_IndirectBlock indirect);;
      mret (din, xint (addr_at indirect indirect_no))
    else mret (din, xint (addr_at indirect indirect_no)).

(** The loop of [iappend]: what is left of the data, the offset, the inode. *)
Fixpoint iappend_loop (fuel : nat) (p : list Z) (off gno : Z) (din : InodeEntry) : M mkfs (Z * InodeEntry) :=
  match p with
  | [] => mret (off, din)
  | _ =>
      match fuel with
      | O => nofuel
      | S fuel' =>
          let fbn := off / BLOCK_SIZE in
          assert_ (fbn <? INODE_MAX_BLOCKS);;
          gno ← find_group group_fuel gno;
          '(din, x) ← block_for din fbn gno;
          let n1 := Z.min (Z.of_nat (length p)) ((fbn + 1) * BLOCK_SIZE - off) in
          buf ← rblock x;
          wblock x (splice (Z.to_nat (off - fbn * BLOCK_SIZE)) (take (Z.to_nat n1) p) buf);;
          iappend_loop fuel' (drop (Z.to_nat n1) p) (off + n1) gno din
      end
  end.

Definition iappend (inum : Z) (xp : list Z) : M mkfs unit :=
  din ← rinode inum;
  '(off, din) ← iappend_loop (length xp) xp (xint (ie_num_bytes din)) (IGROUP inum) din;
  winode inum (set_ie_num_bytes (xint off) din).

(** *** [main] *)
(** The part of a path after its last slash. *)
Fixpoint last_component (path name : list Z) : list Z :=
  match path with
  | [] => name
  | c :: path' => if c =? 47 then last_component path' path' else last_component path' name
  end.

Definition put_dirent (inum : Z) (name : list Z) : M mkfs unit :=
  iappend ROOT_INODE_NO (encode_DirEntry (mkDirEntry (xshort inum) (strncpy (replicate 14 0) (name ++ [0]) 14))).

(** A file: its path, and what the calls of [read] return, at most 512 bytes each. *)
Definition put_file (f : list Z * list (list Z)) : M mkfs unit :=
  let '(path, chunks) := f in
  let name := last_component path path in
  let name := if byte_at name 0%nat =? 95 then drop 1 name else name in
  inum ← ialloc INODE_REGULAR;
  put_dirent inum name;;
  eachM chunks (iappend inum);;
  rinode (xint inum);;
  mret tt.

Definition main (files : list (list Z * list (list Z))) : M mkfs unit :=
  modify (set_freeblock nmeta);;
  eachM (seqZ 0 (FSSIZE * SECTS_PER_BLOCK)) (fun i => wsect i zero_block);;
  wblock 1 (splice 0 (encode_SuperBlock sb) zero_block);;
  rootino ← ialloc INODE_DIRECTORY;
  assert_ (rootino =? ROOT_INODE_NO);;
  put_dirent rootino [46];;
  put_dirent rootino [46; 46];;
  eachM files put_file;;
  din ← rinode rootino;
  let off := xint (ie_num_bytes din) in
  let off := (off / BLOCK_SIZE + 1) * BLOCK_SIZE in
  winode rootino (set_ie_num_bytes (xint off) din);;
  ballocg.

Definition start : mkfs := mkMkfs ∅ 1 0 (replicate (Z.to_nat NGROUPS) 0).

(** ** Bytes and cells *)
Lemma le_val_testbit l k o :
  Forall byte_ok l -> (k < length l)%nat -> 0 <= o < 8 -> Z.testbit (le_val l) (8 * Z.of_nat k + o) = Z.testbit (l !!! k) o.
Proof.
  revert k. induction l as [|b l IH]; intros k Hb Hk Ho; [simpl in Hk; lia|]. apply Forall_cons in Hb as [Hb Hl]. unfold byte_ok in Hb.
  cbn [le_val]. destruct k as [|k].
  - change ((b :: l) !!! 0%nat) with b. replace (8 * Z.of_nat 0 + o) with o by lia.
    rewrite <- (Z.mod_pow2_bits_low _ 8) by lia. do 2 f_equal. change (2 ^ 8) with 256. rewrite Z.mul_comm, Z.mod_add by lia. apply Z.mod_small. lia.
  - change ((b :: l) !!! S k) with (l !!! k). simpl in Hk. rewrite <- (IH k) by (done || lia).
    replace (8 * Z.of_nat (S k) + o) with ((8 * Z.of_nat k + o) + 8) by lia. rewrite <- Z.div_pow2_bits by lia. f_equal.
    change (2 ^ 8) with 256. rewrite Z.mul_comm, Z.div_add by lia. rewrite Z.div_small by lia. lia.
Qed.

(** The cells of a bitmap, bit by bit, are its bytes. *)
Lemma bitmap_get_bytes d j :
  Forall byte_ok d -> length d = bsize -> 0 <= j < BIT_PER_BLOCK -> bitmap_get (bitmap_of d) j = Z.testbit (d !!! Z.to_nat (j / 8)) (j mod 8).
Proof.
  intros Hb Hl Hj. change BIT_PER_BLOCK with 4096 in Hj. assert (bsize = 512%nat) as Eb by done.
  rewrite bitmap_get_testbit. unfold bitmap_of.
  assert (0 <= j / 64 < 64) as H64 by (Z.to_euclidean_division_equations; lia).
  assert (words 8 64 d !!! Z.to_nat (j / 64) = load 8 (8 * Z.to_nat (j / 64)) d) as -> by (apply list_lookup_total_correct, lookup_words; lia). unfold load.
  set (k := Z.to_nat (j / 8 - 8 * (j / 64))).
  assert (j mod 64 = 8 * Z.of_nat k + j mod 8 /\ (k < 8)%nat /\ Z.to_nat (j / 8) = (8 * Z.to_nat (j / 64) + k)%nat) as (-> & Hk & ->)
    by (unfold k; Z.to_euclidean_division_equations; lia).
  rewrite le_val_testbit.
  - f_equal. unfold slice. rewrite lookup_total_take_lt by lia. by rewrite lookup_total_drop.
  - by apply Forall_slice.
  - unfold slice. rewrite length_take, length_drop, Hl. lia.
  - Z.to_euclidean_division_equations. lia.
Qed.

Lemma byte_lor a b : 0 <= a < 256 -> 0 <= b < 256 -> 0 <= Z.lor a b < 256.
Proof.
  intros Ha Hb. pose proof (lor_range a b ltac:(lia) ltac:(lia)) as [H _]. split; [done|].
  destruct (decide (Z.lor a b = 0)) as [->|Hne]; [lia|]. change 256 with (2 ^ 8). apply Z.log2_lt_pow2; [lia|]. rewrite Z.log2_lor by lia.
  apply Z.max_lub_lt; [destruct (decide (a = 0)) as [->|]|destruct (decide (b = 0)) as [->|]]; try (simpl; lia); apply Z.log2_lt_pow2; lia.
Qed.

(** [set_bits] sets exactly the first bits. *)
Lemma set_bits_ok groupused data_start :
  0 <= groupused + data_start <= BIT_PER_BLOCK ->
  let buf := set_bits groupused data_start in
  length buf = bsize /\ Forall byte_ok buf /\
  forall j, 0 <= j < BIT_PER_BLOCK -> Z.testbit (buf !!! Z.to_nat (j / 8)) (j mod 8) = (j <? groupused + data_start).
Proof.
  unfold set_bits. generalize (groupused + data_start) as n. change BIT_PER_BLOCK with 4096. intros n Hn.
  assert (n = Z.of_nat (Z.to_nat n)) as -> by lia. assert (Z.to_nat n <= 4096)%nat as Hm by lia. revert Hm. generalize (Z.to_nat n) as m. clear n Hn.
  assert (bsize = 512%nat) as Eb by done. induction m as [|m IH]; intros Hm.
  - simpl. split; [done|]. split; [apply Forall_replicate; unfold byte_ok; lia|]. intros j Hj. unfold zero_block.
    rewrite lookup_total_replicate_2 by (Z.to_euclidean_division_equations; lia). rewrite Z.testbit_0_l. symmetry. apply Z.ltb_ge. lia.
  - rewrite Nat2Z.inj_succ, <- Z.add_1_r, seqZ_app by lia. rewrite foldl_app. simpl foldl at 1. destruct IH as (Hl & Hb & Hbits); [lia|].
    set (buf := foldl _ zero_block (seqZ 0 (Z.of_nat m))) in *. assert (seqZ (0 + Z.of_nat m) 1 = [Z.of_nat m]) as -> by (rewrite seqZ_cons by lia; done). simpl.
    assert (0 <= Z.of_nat m / 8 < 512) as Hi by (Z.to_euclidean_division_equations; lia).
    pose proof (Z.mod_pos_bound (Z.of_nat m) 8 ltac:(lia)) as Hmod.
    split; [by rewrite length_insert|]. split.
    + apply Forall_insert; [done|]. assert (byte_ok (buf !!! Z.to_nat (Z.of_nat m / 8))) as Hx by (eapply Forall_lookup_total_1; [exact Hb|lia]).
      unfold byte_ok in *. rewrite Z.shiftl_1_l. apply byte_lor; [done|]. split; [apply Z.pow_nonneg; lia|]. change 256 with (2 ^ 8). apply Z.pow_lt_mono_r; lia.
    + intros j Hj. destruct (decide (Z.to_nat (j / 8) = Z.to_nat (Z.of_nat m / 8))) as [E|E].
      * rewrite E, list_lookup_total_insert_eq by lia. rewrite Z.lor_spec, <- E, Hbits by lia.
        rewrite Z.shiftl_1_l, Z.pow2_bits_eqb by lia. assert (j / 8 = Z.of_nat m / 8) as E' by (Z.to_euclidean_division_equations; lia).
        apply eq_true_iff_eq. rewrite orb_true_iff, !Z.ltb_lt, Z.eqb_eq. clear - E'. Z.to_euclidean_division_equations; lia.
      * rewrite list_lookup_total_insert_ne by done. rewrite Hbits by lia. apply eq_true_iff_eq. rewrite !Z.ltb_lt.
        assert (j <> Z.of_nat m) by (intros ->; done). lia.
Qed.

Lemma count_set_prefix bm n m :
  (forall j, (j < n)%nat -> bitmap_get bm (Z.of_nat j) = (Z.of_nat j <? Z.of_nat m)) -> count_set bm n = Nat.min n m.
Proof.
  induction n as [|n IH]; intros H; [done|]. rewrite count_set_S, IH by (intros; apply H; lia). rewrite H by lia.
  destruct (Z.ltb_spec (Z.of_nat n) (Z.of_nat m)); unfold Nat.b2n; lia.
Qed.

(** ** Bitmaps of the image *)
Lemma sb_eq : sb = mkSuperBlock 10065 63 10 200 1000 2 65 3 1 996 3 4.
Proof. reflexivity. Qed.

Lemma sb_geometry : geometry_ok sb.
Proof. rewrite sb_eq. by split. Qed.

Lemma bitmap_block_sb g : bitmap_block sb g = 68 + 1000 * g.
Proof. rewrite sb_eq. unfold bitmap_block, group_block. simpl. lia. Qed.

(** The bitmap of [ballocg] for each group. *)
Lemma ballocg_ok s :
  length (used_block s) = Z.to_nat NGROUPS -> Forall (fun u => 0 <= u <= num_datablocks_per_group sb) (used_block s) ->
  wp ballocg (fun _ s' => used_block s' = used_block s /\
    (forall n, (forall g, 0 <= g < NGROUPS -> n <> bitmap_block sb g) -> img s' !! n = img s !! n) /\
    forall g, 0 <= g < NGROUPS -> img s' !! bitmap_block sb g = Some (set_bits (used_block s !!! Z.to_nat g) (data_start_per_group sb))) s.
Proof.
  intros Hlen Hused. assert (NGROUPS = 10) as EN by done. unfold ballocg.
  apply (wp_eachM_seqZ _ _ (fun k s' => used_block s' = used_block s /\
    (forall n, (forall g, 0 <= g < k -> n <> bitmap_block sb g) -> img s' !! n = img s !! n) /\
    forall g, 0 <= g < k -> img s' !! bitmap_block sb g = Some (set_bits (used_block s !!! Z.to_nat g) (data_start_per_group sb)))).
  - done.
  - split; [done|]. split; [done|]. intros g Hg. lia.
  - intros g s' Hg (Hu & Hold & Hnew). apply wp_bind, wp_gets. rewrite Hu.
    destruct (lookup_lt_is_Some_2 (used_block s) (Z.to_nat g) ltac:(lia)) as [u Hug]. rewrite Hug. apply wp_bind, wp_ret.
    assert (0 <= u <= 996) as Hr by (rewrite Forall_lookup in Hused; exact (Hused _ _ Hug)).
    apply wp_bind, wp_assert; [apply Z.leb_le; change (num_datablocks_per_group sb) with 996; lia|].
    unfold wblock. change (seqZ 0 SECTS_PER_BLOCK) with [0]. cbn [eachM]. apply wp_bind. unfold wsect. apply wp_modify, wp_ret.
    assert (u32 (0 + u32 (bg_start sb + bitmap_start_per_group sb + g * BPG) * SECTS_PER_BLOCK) = bitmap_block sb g) as ->.
    { rewrite bitmap_block_sb. change (bg_start sb) with 65. change (bitmap_start_per_group sb) with 3. change BPG with 1000. change SECTS_PER_BLOCK with 1.
      rewrite (u32_id (65 + 3 + g * 1000)) by lia. rewrite u32_id by lia. lia. }
    destruct (set_bits_ok u (data_start_per_group sb) ltac:(change (data_start_per_group sb) with 4; change BIT_PER_BLOCK with 4096; lia)) as (Hsl & _ & _).
    assert (slice (Z.to_nat (0 * SECT_SIZE)) (Z.to_nat SECT_SIZE) (set_bits u (data_start_per_group sb)) = set_bits u (data_start_per_group sb)) as ->.
    { unfold slice. rewrite take_ge; [done|]. rewrite length_drop, Hsl. done. }
    cbn [set_img img used_block]. split; [done|]. split.
    + intros n Hn. rewrite lookup_insert_ne; [apply Hold; intros; apply Hn; lia|]. intros E. apply (Hn g); [lia|done].
    + intros g' Hg'. destruct (decide (g' = g)) as [->|Hne].
      * rewrite lookup_insert_eq. by rewrite (list_lookup_total_correct _ _ _ Hug).
      * rewrite lookup_insert_ne; [apply Hnew; lia|]. rewrite !bitmap_block_sb. lia.
  - intros s' H. exact H.
Qed.

(** C36: the kernel finds in the bitmaps exactly what mkfs recorded. For any
    image and any counters of used blocks that fit the groups, [ballocg]
    succeeds and changes no block but the bitmaps; in the bitmap of each group
    exactly the blocks before its data and its first used data blocks are set;
    and when the kernel starts on the image, its loop over the bitmaps ends
    with the counters of mkfs. *)
Theorem ballocg_roundtrip s :
  length (used_block s) = Z.to_nat NGROUPS -> Forall (fun u => 0 <= u <= num_datablocks_per_group sb) (used_block s) ->
  exists s', ballocg s = Ok (tt, s') /\
    (forall n, (forall g, 0 <= g < NGROUPS -> n <> bitmap_block sb g) -> img s' !! n = img s !! n) /\
    (forall g j, 0 <= g < NGROUPS -> 0 <= j < BIT_PER_BLOCK -> bitmap_get (bitmap_of (disk_read (img s') (bitmap_block sb g))) j =
       (j <? data_start_per_group sb + used_block s !!! Z.to_nat g)) /\
    (forall c, c_used_block c = replicate (Z.to_nat NGROUPS) 0 -> dv_disk (c_dev c) = img s' ->
       exists c', eachM (seqZ 0 NGROUPS) (count_group sb) c = Ok (tt, c') /\ c_used_block c' = used_block s).
Proof.
  intros Hlen Hused. destruct (proj1 (wp_ok _ _ _) (ballocg_ok s Hlen Hused)) as ([] & s' & Heq & _ & Hold & Hnew).
  exists s'. split; [done|]. split; [done|].
  assert (forall g, 0 <= g < NGROUPS -> 0 <= used_block s !!! Z.to_nat g <= 996) as Hr.
  { intros g Hg. assert (NGROUPS = 10) as EN by done. change 996 with (num_datablocks_per_group sb).
    apply (Forall_lookup_total_1 (fun u => 0 <= u <= num_datablocks_per_group sb)); [done|lia]. }
  assert (forall g j, 0 <= g < NGROUPS -> 0 <= j < BIT_PER_BLOCK -> bitmap_get (bitmap_of (disk_read (img s') (bitmap_block sb g))) j =
       (j <? data_start_per_group sb + used_block s !!! Z.to_nat g)) as Hbits.
  { intros g j Hg Hj. unfold disk_read. rewrite Hnew by done. simpl default. specialize (Hr g Hg).
    destruct (set_bits_ok (used_block s !!! Z.to_nat g) (data_start_per_group sb)) as (Hl & Hb & Hbit);
      [change (data_start_per_group sb) with 4; change BIT_PER_BLOCK with 4096; lia|].
    rewrite bitmap_get_bytes by done. rewrite Hbit by done. f_equal. lia. }
  split; [done|]. intros c Hub Hd.
  destruct (proj1 (wp_ok _ _ _) (count_groups_ok sb sb_geometry c Hub)) as ([] & c' & Hc & ub & -> & Hlub & Hubs).
  exists (set_c_used_block ub c). split; [done|]. simpl. assert (NGROUPS = 10) as EN by done.
  apply list_eq_same_length with (Z.to_nat NGROUPS); [done|done|]. intros i x y Hi Hx Hy.
  specialize (Hubs (Z.of_nat i) ltac:(lia)). rewrite Nat2Z.id, (list_lookup_total_correct _ _ _ Hx) in Hubs.
  specialize (Hr (Z.of_nat i) ltac:(lia)). specialize (Hbits (Z.of_nat i)). rewrite Nat2Z.id, (list_lookup_total_correct _ _ _ Hy) in Hr, Hbits.
  rewrite Hubs. unfold used_bits, dev_read. rewrite Hd.
  assert (forall n, (n <= 4096)%nat -> count_set (bitmap_of (disk_read (img s') (bitmap_block sb (Z.of_nat i)))) n = Nat.min n (Z.to_nat (4 + y))) as Hcount.
  { intros n Hn. apply count_set_prefix. intros j Hj. rewrite Hbits; [|lia|change BIT_PER_BLOCK with 4096; lia]. f_equal. change (data_start_per_group sb) with 4. lia. }
  change (blocks_per_group sb) with 1000. change (data_start_per_group sb) with 4. rewrite !Hcount by lia. lia.
Qed.

Definition demo_img : mkfs := mkMkfs ∅ 1 0 [2; 996; 0; 7; 0; 0; 0; 0; 0; 995].

Lemma ballocg_roundtrip_witness :
  exists s', ballocg demo_img = Ok (tt, s') /\
    (forall n, (forall g, 0 <= g < 10 -> n <> bitmap_block sb g) -> img s' !! n = (∅ : gmap Z (list Z)) !! n) /\
    (forall g j, 0 <= g < 10 -> 0 <= j < 4096 -> bitmap_get (bitmap_of (disk_read (img s') (bitmap_block sb g))) j =
       (j <? 4 + [2; 996; 0; 7; 0; 0; 0; 0; 0; 995] !!! Z.to_nat g)) /\
    (forall c, c_used_block c = replicate (Z.to_nat NGROUPS) 0 -> dv_disk (c_dev c) = img s' ->
       exists c', eachM (seqZ 0 NGROUPS) (count_group sb) c = Ok (tt, c') /\ c_used_block c' = [2; 996; 0; 7; 0; 0; 0; 0; 0; 995]).
Proof.
  apply (ballocg_roundtrip demo_img); [reflexivity|]. apply (bool_decide_unpack _). vm_compute. exact I.
Defined.

End Mkfs.
