(* ===== verification/File.v ===== *)
(** * Open files (src/fs/file.h, file.c)

    The table of open files with their reference counts, over the inode layer
    and the function table of the block cache. *)
From S2P Require Import Prelude FsDefines Console BlockIface Inode.

Module File.
Import Inode.

Definition NFILE : Z := 100.

Inductive ftype : Type := FD_NONE | FD_PIPE | FD_INODE.
#[global] Instance ftype_eq_dec : EqDecision ftype.
Proof. solve_decision. Defined.

(** [pipe] is never set: the kernel has no pipes. *)
Record File : Type := mkFile {
  f_type : ftype;
  f_ref : Z;
  f_readable : Z;
  f_writable : Z;
  f_pipe : Z;
  f_ip : nat;
  f_off : Z
}.
Definition set_f_type (x : ftype) (s : File) : File :=
  mkFile x (f_ref s) (f_readable s) (f_writable s) (f_pipe s) (f_ip s) (f_off s).
Definition set_f_ref (x : Z) (s : File) : File :=
  mkFile (f_type s) x (f_readable s) (f_writable s) (f_pipe s) (f_ip s) (f_off s).
Definition set_f_off (x : Z) (s : File) : File :=
  mkFile (f_type s) (f_ref s) (f_readable s) (f_writable s) (f_pipe s) (f_ip s) x.

(** The state of the file layer: the inode layer and [ftable]. *)
Record fstate (St : Type) : Type := mkFstate {
  fs_is : istate St;
  ft_lock : bool;
  ft_file : list File
}.
Arguments mkFstate {St}. Arguments fs_is {St}. Arguments ft_lock {St}. Arguments ft_file {St}.

Section file.
Context {St : Type} (sblock : SuperBlock) (cache : BlockCache St).

Definition set_fs_is (x : istate St) (s : fstate St) : fstate St := mkFstate x (ft_lock s) (ft_file s).
Definition set_ft_lock (x : bool) (s : fstate St) : fstate St := mkFstate (fs_is s) x (ft_file s).
Definition set_ft_file (x : list File) (s : fstate St) : fstate St := mkFstate (fs_is s) (ft_lock s) x.

(** Calling the inode layer, and the block cache below it. *)
Definition ino {A} (m : M (istate St) A) : M (fstate St) A := lift fs_is set_fs_is m.
Definition fbc {A} (m : M St A) : M (fstate St) A := ino (bc m).

(** [struct file *] is an index of [ftable.file]. *)
Definition get_file (f : nat) : M (fstate St) File :=
  o ← gets (fun s => ft_file s !! f); from_option_M o.
Definition upd_file (f : nat) (g : File -> File) : M (fstate St) unit :=
  x ← get_file f; modify (fun s => set_ft_file (<[f := g x]> (ft_file s)) s).

Definition acquire_ftable : M (fstate St) unit :=
  b ← gets ft_lock; assert_ (negb b);; modify (set_ft_lock true).
Definition release_ftable : M (fstate St) unit :=
  b ← gets ft_lock; assert_ b;; modify (set_ft_lock false).

Definition fileinit : M (fstate St) unit := modify (set_ft_lock false).

(** [None] is the null pointer. *)
Definition filealloc : M (fstate St) (option nat) :=
  acquire_ftable;;
  r ← forM (Z.to_nat NFILE) 0 1 (fun i =>
        x ← get_file (Z.to_nat i);
        if f_ref x =? 0 then
          upd_file (Z.to_nat i) (set_f_ref 1);;
          release_ftable;;
          mret (Some (Z.to_nat i))
        else mret None);
  match r with
  | Some f => mret (Some f)
  | None => release_ftable;; mret None
  end.

Definition filedup (f : nat) : M (fstate St) nat :=
  acquire_ftable;;
  x ← get_file f;
  assert_ (negb (f_ref x <? 1));;
  upd_file f (set_f_ref (i32 (f_ref x + 1)));;
  release_ftable;;
  mret f.

(** [ctx] is the address of the [OpContext] on the stack. *)
Definition fileclose (ctx : nat) (f : nat) : M (fstate St) unit :=
  acquire_ftable;;
  x ← get_file f;
  assert_ (negb (f_ref x <? 1));;
  upd_file f (set_f_ref (f_ref x - 1));;
  if 0 <? f_ref x - 1 then release_ftable
  else
    ff ← get_file f;
    upd_file f (set_f_ref 0);;
    upd_file f (set_f_type FD_NONE);;
    release_ftable;;
    match f_type ff with
    | FD_INODE =>
        fbc (bc_begin_op cache ctx);;
        ino (inode_put sblock cache (Some ctx) (f_ip ff));;
        fbc (bc_end_op cache ctx)
    | _ => mret tt
    end.

(** The result, and the [stat] it fills in. *)
Definition filestat (f : nat) : M (fstate St) (Z * option stat) :=
  x ← get_file f;
  match f_type x with
  | FD_INODE =>
      ino (inode_lock sblock cache (f_ip x));;
      st ← ino (stati (f_ip x));
      ino (inode_unlock (f_ip x));;
      mret (0, Some st)
  | _ => mret (-1, None)
  end.

(** The result, and the bytes put at [addr]. *)
Definition fileread (f : nat) (n : Z) : M (fstate St) (Z * list Z) :=
  x ← get_file f;
  if f_readable x =? 0 then mret (-1, [])
  else
    match f_type x with
    | FD_INODE =>
        ino (inode_lock sblock cache (f_ip x));;
        r ← ino (inode_read sblock cache (f_ip x) (f_off x) (u64 n));
        let res := i64 r.1 in
        upd_file f (fun x => set_f_off (u64 (f_off x + u64 res)) x);;
        ino (inode_unlock (f_ip x));;
        mret (res, r.2)
    | _ => panic
    end.

Definition filewrite_max : Z := (INODE_MAX_BLOCKS - 1 - 1 - 2) / 2 * 512.

(** The loop of [filewrite], with [i] bytes written; it runs at most once per
    byte. *)
Fixpoint filewrite_loop (fuel : nat) (ctx : nat) (f : nat) (src : list Z) (n i : Z) : M (fstate St) Z :=
  match fuel with
  | O => nofuel
  | S fuel' =>
      if i <? n then
        let n1 := n - i in
        let n1 := if filewrite_max <? n1 then filewrite_max else n1 in
        fbc (bc_begin_op cache ctx);;
        x ← get_file f;
        ino (inode_lock sblock cache (f_ip x));;
        r ← ino (inode_write sblock cache (Some ctx) (f_ip x) (slice (Z.to_nat i) (Z.to_nat n1) src) (f_off x));
        let r := i64 r in
        upd_file f (fun x => set_f_off (u64 (f_off x + u64 r)) x);;
        ino (inode_unlock (f_ip x));;
        fbc (bc_end_op cache ctx);;
        if r <? 0 then mret i
        else
          assert_ (r =? n1);;
          filewrite_loop fuel' ctx f src n (i + r)
      else mret i
  end.

(** [src] is the memory at [addr]; [n] bytes of it are written. *)
Definition filewrite (ctx : nat) (f : nat) (src : list Z) (n : Z) : M (fstate St) Z :=
  x ← get_file f;
  if f_writable x =? 0 then mret (-1)
  else
    match f_type x with
    | FD_INODE =>
        i ← filewrite_loop (S (Z.to_nat n)) ctx f src n 0;
        mret (if i =? n then n else -1)
    | _ => panic
    end.

End file.
End File.
