(* ===== verification/FileFacts.v ===== *)
(** * Correctness of open files (src/fs/file.c)

    Reading through an open file over the promises of the inode layer, and the
    reference counts of the table of open files. *)
From S2P Require Import Prelude FsDefines BlockIface Cache CacheFacts CacheSpec CacheAlloc Inode InodeFacts InodeDisk FsDemo InodeFile FileDemo File.

Module FileFacts.
Import Cache CacheFacts CacheSpec CacheAlloc Inode InodeFacts InodeDisk FsDemo InodeFile FileDemo File.

(** ** Reading *)
Section read.
Context {St : Type} (sb : SuperBlock) (B : BlockCache St) {Hspec : BlockCacheSpec sb B}.
Implicit Types (s : fstate St).

(** [f] is open on the inode [i] at [ip], which no one has locked. *)
Record open_ok s (f : nat) (x : File) (ip : nat) (i : Inode) : Prop := {
  oo_file : ft_file s !! f = Some x;
  oo_type : f_type x = FD_INODE;
  oo_ip : f_ip x = ip;
  oo_off : 0 <= f_off x <= ie_num_bytes (i_entry i);
  oo_ok : file_ok sb B (fs_is s) ip i;
  oo_unlocked : i_lock i = false;
  oo_rc : 0 < i_rc i;
  oo_live : ie_type (i_entry i) <> INODE_INVALID
}.

(** The lock of the inode is not part of the file. *)
Lemma file_ok_lock (s : istate St) ip i b :
  file_ok sb B s ip i -> file_ok sb B (set_is_objs (<[ip := set_i_lock b i]> (is_objs s)) s) ip (set_i_lock b i).
Proof. intros []. split; simpl; try done. apply lookup_insert_eq. Qed.

Lemma wp_ino {A} (m : M (istate St) A) (Q : A -> fstate St -> Prop) s :
  wp m (fun a t => Q a (set_fs_is t s)) (fs_is s) -> wp (ino m) Q s.
Proof. apply wp_lift. Qed.

Lemma inode_lock_ok (s : istate St) ip i (Q : unit -> istate St -> Prop) :
  is_objs s !! ip = Some i -> i_lock i = false -> 0 < i_rc i -> i_valid i = true -> ie_type (i_entry i) <> INODE_INVALID ->
  Q tt (set_is_objs (<[ip := set_i_lock true i]> (is_objs s)) s) -> wp (inode_lock sb B ip) Q s.
Proof.
  intros Hi Hl Hrc Hv Ht HQ. unfold inode_lock, upd_inode, get_inode, put_inode.
  apply wp_bind, wp_bind, wp_gets. rewrite Hi. apply wp_ret. apply wp_bind, wp_assert; [by apply Z.ltb_lt|].
  apply wp_bind, wp_assert; [by rewrite Hl|]. apply wp_bind, wp_bind, wp_bind, wp_gets. rewrite Hi. apply wp_ret, wp_modify.
  rewrite Hv. simpl whenM. apply wp_bind, wp_ret, wp_bind, wp_bind, wp_gets. simpl. rewrite lookup_insert_eq. apply wp_ret, wp_assert; [|done].
  apply negb_true_iff. by apply Z.eqb_neq.
Qed.

Lemma inode_unlock_ok (s : istate St) ip i (Q : unit -> istate St -> Prop) :
  is_objs s !! ip = Some i -> i_lock i = true -> 0 < i_rc i ->
  Q tt (set_is_objs (<[ip := set_i_lock false i]> (is_objs s)) s) -> wp (inode_unlock (St := St) ip) Q s.
Proof.
  intros Hi Hl Hrc HQ. unfold inode_unlock, upd_inode, get_inode, put_inode.
  apply wp_bind, wp_bind, wp_gets. rewrite Hi. apply wp_ret. apply wp_bind, wp_assert; [done|].
  apply wp_bind, wp_assert; [by apply Z.ltb_lt|]. apply wp_bind, wp_bind, wp_gets. rewrite Hi. by apply wp_ret, wp_modify.
Qed.

Lemma set_i_lock_back i : i_lock i = false -> set_i_lock false (set_i_lock true i) = i.
Proof. intros H. destruct i. simpl in *. by subst. Qed.

(** Reading an open file. [fileread] of [n] bytes on an open, readable
    file whose offset is not behind its end returns the bytes of the content
    from the offset, [n] of them or what is left, and moves the offset behind
    them; nothing else of the table or of the content of the file changes, the
    inode is unlocked again, and the file is open as before, so that the next
    [fileread] goes on where this one stopped. *)
Theorem fileread_correct s f x ip i n :
  inode_layout sb -> open_ok s f x ip i -> f_readable x <> 0 -> 0 <= n < 2 ^ 62 ->
  let k := Z.min n (ie_num_bytes (i_entry i) - f_off x) in
  let x' := set_f_off (f_off x + k) x in
  exists s', fileread sb B f n s = Ok ((k, slice (Z.to_nat (f_off x)) (Z.to_nat k) (content sb B (is_cache (fs_is s)) (i_entry i))), s') /\
    open_ok s' f x' ip i /\ ft_file s' = <[f := x']> (ft_file s) /\
    content sb B (is_cache (fs_is s')) (i_entry i) = content sb B (is_cache (fs_is s)) (i_entry i) /\
    (forall m, bk_view (is_cache (fs_is s')) m = bk_view (is_cache (fs_is s)) m).
Proof.
  intros Hlay [Hf Hty Hip Hoff Hok Hun Hrc Hlive] Hrd Hn k x'.
  pose proof (fo_size _ _ _ _ _ Hok) as Hsz. rewrite INODE_MAX_BYTES_eq in Hsz.
  pose proof (fo_obj _ _ _ _ _ Hok) as Hobj. pose proof (fo_valid _ _ _ _ _ Hok) as Hval.
  enough (wp (fileread sb B f n) (fun r s' => r = (k, slice (Z.to_nat (f_off x)) (Z.to_nat k) (content sb B (is_cache (fs_is s)) (i_entry i))) /\
    open_ok s' f x' ip i /\ ft_file s' = <[f := x']> (ft_file s) /\ calm sb B (is_cache (fs_is s)) (is_cache (fs_is s'))) s) as Hwp.
  { apply wp_ok in Hwp as (r & s' & Heq & -> & H1 & H2 & Hc). exists s'. split; [done|]. split; [done|]. split; [done|].
    split; [by apply (calm_content sb B)|]. by destruct Hc as (_ & [Hv _] & _). }
  unfold fileread, get_file, upd_file. apply wp_bind, wp_bind, wp_gets. rewrite Hf. apply wp_ret.
  rewrite (proj2 (Z.eqb_neq _ _)) by done. rewrite Hty, Hip.
  apply wp_bind, wp_ino, (inode_lock_ok _ ip i); try done.
  pose proof (file_ok_lock _ ip i true Hok) as Hok1. set (s1 := set_is_objs _ _) in *.
  apply wp_bind, wp_ino. cbn [set_fs_is fs_is]. rewrite (u64_id n) by lia.
  eapply wp_mono; [apply (read_ok sb B Hlay s1 ip (set_i_lock true i) (f_off x) n); [exact Hok1|exact Hoff|lia|lia]|].
  intros r s2 (-> & c' & -> & Hcalm). simpl in Hcalm |- *.
  rewrite i64_id by lia. apply wp_bind, wp_bind, wp_bind, wp_gets. simpl. rewrite Hf. apply wp_ret, wp_modify.
  apply wp_bind, wp_ino. apply (inode_unlock_ok _ ip (set_i_lock true i)); [apply lookup_insert_eq|done|done|]. apply wp_ret.
  split; [done|]. fold k. cbn [set_fs_is set_ft_file fs_is ft_file set_is_objs set_is_cache is_objs is_cache].
  assert (u64 (f_off x + u64 k) = f_off x + k) as -> by (rewrite (u64_id k) by lia; apply u64_id; lia). fold x'.
  split; [|by split]. split; simpl.
  - rewrite list_lookup_insert_eq; [done|]. by eapply lookup_lt_Some.
  - done.
  - done.
  - lia.
  - pose proof (file_ok_calm sb B _ _ _ _ Hok1 Hcalm) as Hok2.
    pose proof (file_ok_lock _ ip _ false Hok2) as Hok3. rewrite set_i_lock_back in Hok3 |- * by done. exact Hok3.
  - done.
  - done.
  - done.
Qed.

End read.
(** ** The table *)
Section table.
Context {St : Type} (sb : SuperBlock) (B : BlockCache St).
Implicit Types (s : fstate St).

Definition in_use (x : File) : bool := negb (f_ref x =? 0).

(** The first free slot. *)
Fixpoint first_free (l : list File) : option nat :=
  match l with [] => None | x :: l' => if in_use x then S <$> first_free l' else Some 0%nat end.

Lemma first_free_spec l :
  match first_free l with
  | Some f => exists x, l !! f = Some x /\ in_use x = false /\ forall j y, (j < f)%nat -> l !! j = Some y -> in_use y = true
  | None => forall x, x ∈ l -> in_use x = true
  end.
Proof.
  induction l as [|x l IH]; simpl; [by intros x ?%not_elem_of_nil|]. destruct (in_use x) eqn:E.
  - destruct (first_free l) as [f|]; simpl.
    + destruct IH as (y & Hy & Hf & Hlt). exists y. split; [done|]. split; [done|]. intros [|j] z Hj Hz; simpl in Hz; [congruence|].
      apply (Hlt j); [lia|done].
    + intros y [->|Hy]%elem_of_cons; [done|by apply IH].
  - exists x. split; [done|]. split; [done|]. intros j y Hj. lia.
Qed.

(** The slot [f], the first one found free from [i] on. *)
Lemma first_free_unique l f x :
  l !! f = Some x -> in_use x = false -> (forall j y, (j < f)%nat -> l !! j = Some y -> in_use y = true) -> first_free l = Some f.
Proof.
  revert f. induction l as [|y l IH]; intros f Hf Hx Hlt; [done|]. simpl. destruct f as [|f].
  - injection Hf as ->. by rewrite Hx.
  - rewrite (Hlt 0%nat y) by (lia || done). rewrite (IH f); [done|done|done|]. intros j z Hj Hz. apply (Hlt (S j)); [lia|done].
Qed.

Lemma wp_get_file s f x (Q : File -> fstate St -> Prop) : ft_file s !! f = Some x -> Q x s -> wp (get_file f) Q s.
Proof. intros H HQ. unfold get_file. apply wp_bind, wp_gets. rewrite H. by apply wp_ret. Qed.
Lemma wp_upd_file s f x g (Q : unit -> fstate St -> Prop) :
  ft_file s !! f = Some x -> Q tt (set_ft_file (<[f := g x]> (ft_file s)) s) -> wp (upd_file f g) Q s.
Proof. intros H HQ. unfold upd_file. apply wp_bind, (wp_get_file _ _ x); [done|]. by apply wp_modify. Qed.

Lemma filealloc_ok s :
  ft_lock s = false -> length (ft_file s) = Z.to_nat NFILE ->
  wp filealloc (fun r s' => r = first_free (ft_file s) /\
    match r with Some f => exists x, ft_file s !! f = Some x /\ s' = set_ft_file (<[f := set_f_ref 1 x]> (ft_file s)) s | None => s' = s end) s.
Proof.
  intros Hl Hlen. unfold filealloc, acquire_ftable, release_ftable.
  apply wp_bind, wp_bind, wp_gets. rewrite Hl. apply wp_bind, wp_assert; [done|]. apply wp_modify.
  assert (forall s', s' = set_ft_lock true s -> set_ft_lock false s' = s) as Hback by (intros s' ->; destruct s; simpl in *; by subst).
  apply wp_bind. apply (wp_forM _ _ _ _ (fun k s' => s' = set_ft_lock true s /\ forall j y, Z.of_nat j < k -> ft_file s !! j = Some y -> in_use y = true)).
  - split; [done|]. intros j y Hj. lia.
  - intros k s' Hk [-> Hlt]. rewrite Z.mul_1_l, Z.add_0_l, Nat2Z.id in *.
    destruct (lookup_lt_is_Some_2 (ft_file s) k ltac:(lia)) as [x Hx].
    apply wp_bind, (wp_get_file _ _ x); [exact Hx|]. destruct (Z.eqb_spec (f_ref x) 0) as [E|E].
    + apply wp_bind, (wp_upd_file _ _ x); [exact Hx|]. apply wp_bind, wp_bind, wp_gets, wp_bind, wp_assert; [done|]. apply wp_modify, wp_ret, wp_ret.
      split.
      * symmetry. apply (first_free_unique _ _ x); [done|unfold in_use; by rewrite E|]. intros j y Hj. apply Hlt. lia.
      * exists x. split; [done|]. destruct s. simpl in *. by subst.
    + apply wp_ret. split; [done|]. intros j y Hj Hy. destruct (decide (j = k)) as [->|]; [|apply (Hlt j y); [lia|done]].
      assert (y = x) as -> by congruence. unfold in_use. by rewrite (proj2 (Z.eqb_neq _ _)).
  - intros s' [-> Hlt]. apply wp_bind, wp_bind, wp_gets, wp_bind, wp_assert; [done|]. apply wp_modify, wp_ret.
    assert (first_free (ft_file s) = None) as Hnone.
    { pose proof (first_free_spec (ft_file s)) as Hs. destruct (first_free (ft_file s)) as [f|]; [|done]. destruct Hs as (x & Hx & Hf & _).
      apply lookup_lt_Some in Hx as Hfl. rewrite (Hlt f x) in Hf by (lia || done). done. }
    split; [done|]. by apply Hback.
Qed.
(** The slot after the last [fileclose]. *)
Definition closed (x : File) : File := set_f_type FD_NONE (set_f_ref 0 x).

(** The reference counts of open files. With the table not locked:
    [filealloc] takes the first slot with no reference and gives it one, or
    returns the null pointer exactly when all slots are in use; [filedup] adds
    a reference; a [fileclose] that is not the last takes one away and does
    nothing else; the last one frees the slot and then drops the file's inode
    in an operation of its own, in that order; [filedup] and [fileclose] of a
    slot that is not in use panic. *)
Theorem file_table_refs s ctx f x :
  ft_lock s = false -> length (ft_file s) = Z.to_nat NFILE -> ft_file s !! f = Some x -> 0 <= f_ref x < 2 ^ 31 - 1 ->
  (exists s', filealloc s = Ok (first_free (ft_file s), s') /\
     match first_free (ft_file s) with
     | Some g => exists y, ft_file s !! g = Some y /\ f_ref y = 0 /\ s' = set_ft_file (<[g := set_f_ref 1 y]> (ft_file s)) s
     | None => s' = s /\ forall y, y ∈ ft_file s -> f_ref y <> 0
     end) /\
  filedup f s = (if f_ref x =? 0 then Panic else Ok (f, set_ft_file (<[f := set_f_ref (f_ref x + 1) x]> (ft_file s)) s)) /\
  fileclose sb B ctx f s =
    (if f_ref x =? 0 then Panic
     else if f_ref x =? 1 then
       (if decide (f_type x = FD_INODE)
        then fbc (bc_begin_op B ctx);; ino (inode_put sb B (Some ctx) (f_ip x));; fbc (bc_end_op B ctx) else mret tt)
         (set_ft_file (<[f := closed x]> (ft_file s)) s)
     else Ok (tt, set_ft_file (<[f := set_f_ref (f_ref x - 1) x]> (ft_file s)) s)).
Proof.
  intros Hl Hlen Hf Hr. split; [|split].
  - destruct (proj1 (wp_ok _ _ _) (filealloc_ok s Hl Hlen)) as (r & s' & Heq & -> & Hs'). exists s'. split; [done|].
    pose proof (first_free_spec (ft_file s)) as Hs. destruct (first_free (ft_file s)) as [g|].
    + destruct Hs' as (y & Hy & ->), Hs as (y' & Hy' & Hu & _). exists y. split; [done|]. split; [|done]. assert (y' = y) as -> by congruence.
      unfold in_use in Hu. apply negb_false_iff in Hu. by apply Z.eqb_eq.
    + split; [done|]. intros y Hy. specialize (Hs y Hy). unfold in_use in Hs. apply negb_true_iff in Hs. by apply Z.eqb_neq.
  - destruct s as [t0 lk l]. simpl in *. subst lk. unfold filedup, acquire_ftable, release_ftable, upd_file, get_file, gets, modify, mbind, M_bind, set_ft_lock, set_ft_file. simpl.
    rewrite Hf. simpl. destruct (Z.eqb_spec (f_ref x) 0) as [->|Hne]; [done|]. rewrite (proj2 (Z.ltb_ge _ _)) by lia. simpl. rewrite Hf. simpl.
    unfold i32. rewrite swrap_id by lia. done.
  - destruct s as [t0 lk l]. simpl in *. subst lk.
    unfold fileclose, acquire_ftable, release_ftable, upd_file, get_file, gets, modify, mbind, M_bind, set_ft_lock, set_ft_file. simpl.
    rewrite Hf. simpl. destruct (Z.eqb_spec (f_ref x) 0) as [->|Hne]; [done|]. rewrite (proj2 (Z.ltb_ge _ _)) by lia. simpl. rewrite Hf. simpl.
    destruct (Z.eqb_spec (f_ref x) 1) as [E|Hn1]; [|rewrite (proj2 (Z.ltb_lt _ _)) by lia; done].
    rewrite E. simpl. rewrite list_lookup_insert_eq by (by eapply lookup_lt_Some). simpl. rewrite !list_lookup_insert_eq by (rewrite ?length_insert; by eapply lookup_lt_Some). simpl.
    rewrite !list_lookup_insert_eq by (rewrite ?length_insert; by eapply lookup_lt_Some). simpl.
    rewrite !list_insert_insert_eq. unfold closed, set_f_type, set_f_ref. simpl. destruct (f_type x); simpl; try done.
Qed.

End table.

(** ** Witnesses: [/hi] of FsDemo.v open at offset 1 in slot 0 *)
Definition hi_free : Inode := set_i_lock false hi_inode.
Definition hi_open : File := mkFile FD_INODE 1 1 0 0 1 1.
Definition demo_files : fstate cache :=
  mkFstate (set_is_objs (<[1%nat := hi_free]> (is_objs fs_state)) fs_state) false (hi_open :: replicate 99 (mkFile FD_NONE 0 0 0 0 0 0)).

Lemma hi_open_ok : open_ok fs_sb (bcache fs_sb) demo_files 0 hi_open 1 hi_free.
Proof.
  split; try done.
  exact (file_ok_lock fs_sb (bcache fs_sb) fs_state 1 hi_inode false hi_file_ok).
Qed.

Lemma fileread_correct_witness :
  exists s', fileread fs_sb (bcache fs_sb) 0 3 demo_files = Ok ((3, [101; 108; 108]), s') /\
    open_ok fs_sb (bcache fs_sb) s' 0 (set_f_off 4 hi_open) 1 hi_free /\ ft_file s' = <[0%nat := set_f_off 4 hi_open]> (ft_file demo_files) /\
    content fs_sb (bcache fs_sb) (is_cache (fs_is s')) hi_entry = content fs_sb (bcache fs_sb) fs_cache hi_entry /\
    (forall m, view (is_cache (fs_is s')) m = view fs_cache m).
Proof.
  replace [101; 108; 108] with (slice 1 3 (content fs_sb (bcache fs_sb) fs_cache hi_entry)) by (vm_compute; reflexivity).
  apply (fileread_correct fs_sb (bcache fs_sb) demo_files 0 hi_open 1 hi_free 3 fs_layout hi_open_ok); [done|lia].
Defined.

Lemma file_table_refs_witness :
  (exists s', filealloc demo_files = Ok (Some 1%nat, s') /\
     exists y, ft_file demo_files !! 1%nat = Some y /\ f_ref y = 0 /\ s' = set_ft_file (<[1%nat := set_f_ref 1 y]> (ft_file demo_files)) demo_files) /\
  filedup 0 demo_files = Ok (0%nat, set_ft_file (<[0%nat := set_f_ref 2 hi_open]> (ft_file demo_files)) demo_files) /\
  fileclose fs_sb (bcache fs_sb) 7 0 demo_files =
    (fbc (bc_begin_op (bcache fs_sb) 7);; ino (inode_put fs_sb (bcache fs_sb) (Some 7%nat) 1);; fbc (bc_end_op (bcache fs_sb) 7))
      (set_ft_file (<[0%nat := closed hi_open]> (ft_file demo_files)) demo_files).
Proof. apply (file_table_refs fs_sb (bcache fs_sb) demo_files 7 0 hi_open); [reflexivity|reflexivity|reflexivity|simpl; lia]. Defined.

End FileFacts.
