(* ===== verification/FsAtomic.v ===== *)
(** * The file system across operations, crashes and restarts

    The state in which no operation runs ([at_rest]) is what a start of the
    file system leaves and what a write to a file leaves; a crash in between
    leaves a disk from which the next start leads there again, with the old or
    with the new content. The block cache is used here through an instance of
    its interface that also says what it does to the device: nothing, until the
    operation ends. *)
From S2P Require Import Prelude Bitmap FsDefines Console BlockIface Cache CacheFacts CacheLog CacheTx CacheSpec CacheAlloc Inode InodeFacts InodeDisk FsDemo InodeFile FileDemo Fs File FileFacts.

Module FsAtomic.
Import Bitmap Cache CacheFacts CacheLog CacheTx CacheSpec CacheAlloc Inode InodeFacts InodeDisk FsDemo InodeFile FileDemo Fs File FileFacts.

Section rest.
Context (sb : SuperBlock) (Hlay : inode_layout sb).

(** The log lies between the super block and the groups, and an operation
    fits in it. *)
Record log_layout : Prop := {
  ll_start : 1 < log_start sb < first_log_block sb;
  ll_end : first_log_block sb + log_block_count sb <= bg_start sb;
  ll_room : OP_MAX_NUM_BLOCKS <= log_block_count sb
}.
Context (Hlog : log_layout).

Lemma in_groups_ge n : in_groups sb n -> bg_start sb <= n < 2 ^ 32.
Proof using Hlay.
  intros (g & Hg & j & Hj & ->). unfold group_block. destruct Hlay as [[] _ ? _ _]. unfold NGROUPS in *. nia.
Qed.

Lemma in_groups_outside n : in_groups sb n -> outside sb (first_log_block sb) (log_block_count sb) n.
Proof using Hlay Hlog.
  intros Hn%in_groups_ge. destruct Hlog. unfold OP_MAX_NUM_BLOCKS in *. split; [lia|]. intros i Hi. lia.
Qed.

Lemma in_groups_ne1 n : in_groups sb n -> n <> 1 /\ n <> log_start sb.
Proof using Hlay Hlog. intros Hn%in_groups_ge. destruct Hlog. unfold OP_MAX_NUM_BLOCKS in *. lia. Qed.

(** A disk from which the file system starts, with a log that holds blocks of
    the groups only. *)
Record sound_disk (d : Device) : Prop := {
  so_boot : bootable sb d;
  so_entries : forall m, m ∈ entries (disk_header sb (dv_disk d)) -> in_groups sb m;
  so_num : lh_num_blocks (disk_header sb (dv_disk d)) <= log_block_count sb
}.

(** No operation runs, nobody holds a block, and nothing is left in the log. *)
Record at_rest (c : cache) : Prop := {
  ar_tx : tx_inv (log_block_count sb) (mkTx c ∅ None);
  ar_alloc : alloc_inv sb c;
  ar_idle : forall m, is_locked c m = false;
  ar_unpinned : forall m, is_pinned c m = false;
  ar_miss : cached c (log_start sb) = None;
  ar_first : lg_log_start (c_log c) = first_log_block sb;
  ar_disk : sound_disk (c_dev c);
  ar_quiet : lh_num_blocks (disk_header sb (dv_disk (c_dev c))) = 0
}.

Lemma rest_view c m : at_rest c -> view c m = dev_read c m.
Proof. intros []. apply view_clean; [apply ar_alloc0|auto..]. Qed.

Lemma idle_held c : cache_inv c -> (forall m, is_locked c m = false) -> held_map c = ∅.
Proof.
  intros Hi Hl. apply map_eq. intros p. rewrite lookup_empty. apply eq_None_not_Some. intros [n Hn].
  apply held_map_lookup in Hn as (b & [Hp Ha] & _). pose proof (Hl (bk_block_no b)) as Hlb. unfold is_locked in Hlb.
  rewrite (cached_lookup _ _ _ Hi Hp), (ci_held _ Hi _ _ Hp), Ha in Hlb. done.
Qed.

Lemma rest_empty c : at_rest c -> entries (c_header c) = [] /\ lh_num_blocks (c_header c) = 0 /\ log_used (c_log c) = 0.
Proof.
  intros []. destruct ar_tx0 as [Hwf _ Hu _ [_ Hu0] _]. cbn [tx_s tx_running] in *. specialize (Hu0 eq_refl).
  rewrite size_empty in Hu. destruct Hwf as [? _]. assert (lh_num_blocks (c_header c) = 0) as E by lia.
  unfold entries. rewrite E. done.
Qed.

(** *** Disks *)
(** [d] after the writes [ws]. *)
Definition crashed (d : Device) (ws : list (Z * list Z)) : Device := mkDevice (apply_writes (dv_disk d) ws) [].

Lemma sound_writes d ws f :
  sound_disk d -> 1 ∉ ws.*1 -> Forall (fun w => Forall byte_ok w.2) ws ->
  recovering sb (dv_disk (crashed d ws)) (log_block_count sb) f ->
  (forall m, m ∈ entries (disk_header sb (dv_disk (crashed d ws))) -> in_groups sb m) ->
  (forall g j, 0 <= g < num_groups sb -> 0 <= j < data_start_per_group sb ->
     bitmap_get (bitmap_of (f (bitmap_block sb g))) j = true) ->
  sound_disk (crashed d ws).
Proof using Hlay Hlog.
  intros [[] _ _] H1 Hb [Hlen Hhdr Hnum Hrd] Hent Hres. split; [|done|done]. split; simpl; try done.
  - rewrite disk_read_apply, over_notin by done. done.
  - intros m. rewrite disk_read_apply. by apply over_bytes.
  - intros g j Hg Hj. rewrite Hrd; [by apply Hres|]. apply in_groups_outside, bitmap_in_groups; [apply Hlay|done].
Qed.

Lemma rest_reserved c g j :
  at_rest c -> 0 <= g < num_groups sb -> 0 <= j < data_start_per_group sb ->
  bitmap_get (bitmap_of (dev_read c (bitmap_block sb g))) j = true.
Proof. intros Hr Hg Hj. rewrite <- rest_view by done. by apply (ai_reserved _ _ (ar_alloc _ Hr)). Qed.

(** *** Starting *)
Lemma replayed d :
  sound_disk d ->
  let ws := replay_writes sb (disk_read (dv_disk d)) (first_log_block sb) (disk_header sb (dv_disk d)) in
  sound_disk (crashed d ws) /\ lh_num_blocks (disk_header sb (dv_disk (crashed d ws))) = 0.
Proof using Hlay Hlog.
  intros Hs ws. pose proof Hs as [Hb Hent Hnum]. pose proof (bo_log _ _ Hb) as Hok.
  assert (lh_num_blocks (disk_header sb (dv_disk (crashed d ws))) = 0) as H0.
  { unfold ws, replay_writes. destruct (Z.eqb_spec (lh_num_blocks (disk_header sb (dv_disk d))) 0) as [E|E]; [done|].
    unfold disk_header at 1. cbn [crashed dv_disk]. rewrite disk_read_apply, over_app. unfold over at 1. cbn [foldl fst snd].
    rewrite decide_True by done.
    rewrite decode_encode_LogHeader; [done|]. apply (good_cleared sb (first_log_block sb)), Hok. }
  split; [|done]. apply (sound_writes d ws (recovered sb (dv_disk d))); [done| | | | |].
  - unfold ws, replay_writes. case_match; [apply not_elem_of_nil|]. rewrite fmap_app, install_writes_fst. simpl.
    rewrite not_elem_of_app, list_elem_of_singleton. split; [|destruct Hlog; lia].
    intros [Hne _]%Hent%in_groups_ne1. done.
  - apply replay_writes_bytes, Hb.
  - pose proof (fun m => recovered_prefix sb (dv_disk d) (length ws) m Hok) as Hc. cbv zeta in Hc.
    fold ws in Hc. rewrite take_ge in Hc by lia. destruct (some_outside _ _ _ (proj2 Hok)) as [m0 Hm0]. split.
    + intros m. apply length_apply_writes; [apply Hok|]. unfold ws. by apply replay_writes_len.
    + apply (Hc m0 Hm0).
    + rewrite H0. destruct Hlog. unfold OP_MAX_NUM_BLOCKS in *. lia.
    + intros m [Hm1 Hm2]. apply Hc. split; [done|]. intros i Hi. apply Hm2. lia.
  - unfold entries. rewrite H0. by intros m ?%not_elem_of_nil.
  - apply Hb.
Qed.

(** After the log is replayed, with the counters [ub] of the groups. *)
Lemma init_bcache_rest d c1 ub :
  sound_disk d -> init_bcache sb (init_cache d) = Ok (tt, c1) -> alloc_inv sb (set_c_used_block ub c1) ->
  at_rest (set_c_used_block ub c1).
Proof using Hlay Hlog.
  intros Hs Heq Hai. pose proof (bo_log _ _ (so_boot _ Hs)) as Hok.
  pose proof (tx_reachable_inv sb _ (tx_start sb d c1 Hok Heq)) as Htx.
  enough (wp (init_bcache sb) (fun _ c => forall c', c' = set_c_used_block ub c -> tx_inv (log_block_count sb) (mkTx c' ∅ None) ->
    alloc_inv sb c' -> at_rest c') (init_cache d)) as Hwp.
  { unfold wp in Hwp. rewrite Heq in Hwp. apply Hwp; [done| |done]. destruct Htx. by split. }
  apply init_bcache_spec; [done|]. intros s1 Hw c' -> Htx' Hai'. destruct (replayed d Hs) as [Hsd H0].
  destruct (ws_rest _ _ _ _ _ Hw) as [[_ Hl] _]. destruct (ws_dev _ _ _ _ _ Hw) as [Hd _].
  assert (dv_disk (c_dev s1) = dv_disk (crashed d (replay_writes sb (disk_read (dv_disk d)) (first_log_block sb) (disk_header sb (dv_disk d))))) as Hdd by done.
  split; simpl; [done|done|apply (ws_idle _ _ _ _ _ Hw)|apply (ws_pinned _ _ _ _ _ Hw)|apply (ws_miss _ _ _ _ _ Hw)|by rewrite Hl| |by rewrite Hdd].
  destruct Hsd as [[] Hse Hsn]. split; [split|..]; rewrite ?Hdd; done.
Qed.

Lemma init_filesystem_rest d con uninit :
  sound_disk d ->
  exists s, init_filesystem uninit (at_boot d con) = Ok (tt, s) /\ at_rest (is_cache (fs_inodes s)) /\
    (forall m, in_groups sb m -> view (is_cache (fs_inodes s)) m = recovered sb (dv_disk d) m).
Proof using Hlay Hlog.
  intros Hs. apply (wp_unit (init_filesystem uninit)). eapply wp_mono; [apply init_filesystem_ok, Hs|].
  intros [] s (c1 & ub & Heq & Hc & Hai & Hrec & _). split.
  - rewrite Hc in *. by eapply init_bcache_rest.
  - intros m [_ Hm]%in_groups_ne1. by apply Hrec.
Qed.

(** ** One operation *)

(** The state [begin_op] with context [k] leaves. *)
Definition op_begun (c : cache) (k : nat) : cache :=
  set_c_ctxs (<[k := fresh_ctx (u64 (last_allocated_ts (c_log c) + 1))]> (c_ctxs c)) (set_c_log (begun (c_log c)) c).

(** While operation [k] runs alone, begun in state [c1]: the device is as it
    was, and what the operation has pinned is in its context. *)
Definition in_op (c1 : cache) (k : nat) (c : cache) (k' : nat) (o : OpContext) : Prop :=
  k' = k /\ c_dev c = c_dev c1 /\ same_log c1 c /\ cached c (log_start sb) = None /\
  (forall m, is_pinned c m = true -> m ∈ ctx_blocks o) /\ (forall m, m ∈ ctx_blocks o -> in_groups sb m).

Lemma log_not_in_groups : ~ in_groups sb (log_start sb).
Proof using Hlay Hlog. by intros [_ ?]%in_groups_ne1. Qed.

Lemma same_log_trans s1 s2 s3 : same_log s1 s2 -> same_log s2 s3 -> same_log s1 s3.
Proof. unfold same_log. by intros [-> ->] [-> ->]. Qed.

Lemma in_op_evolves c1 k s s' c o : evolves sb s s' -> in_op c1 k s c o -> in_op c1 k s' c o.
Proof using Hlay Hlog.
  intros [Hd Hl _ Hp Hm] (-> & Hd0 & Hl0 & Hm0 & Hp0 & Hg). split_and!; [done|by rewrite Hd|by eapply same_log_trans| | |done].
  - by apply Hm; [apply log_not_in_groups|].
  - intros m. rewrite Hp. apply Hp0.
Qed.

Lemma in_op_sync c1 k s s' c o n :
  in_groups sb n -> 0 <= n < 2 ^ 64 -> ctx_ok o -> Z.of_nat (find_pos n (ctx_blocks o)) < OP_MAX_NUM_BLOCKS ->
  pins s s' n -> in_op c1 k s c o -> in_op c1 k s' c (synced o n).
Proof using Hlay Hlog.
  intros Hn Hr Hok Hlt [Hd Hl Hp Hm] (-> & Hd0 & Hl0 & Hm0 & Hp0 & Hg). destruct (synced_blocks o n Hok Hlt Hr) as [_ Hb].
  assert (forall m, m ∈ ctx_blocks (synced o n) <-> m ∈ ctx_blocks o \/ m = n) as Hin.
  { intros m. rewrite Hb. case_decide; [|by rewrite elem_of_app, list_elem_of_singleton]. split; [tauto|]. by intros [?| ->]. }
  split_and!; [done|by rewrite Hd|by eapply same_log_trans| | |].
  - apply Hm; [|done]. intros E. apply log_not_in_groups. by rewrite E.
  - intros m. rewrite Hp, Hin, orb_true_iff, bool_decide_eq_true. intros [->|?]; auto.
  - intros m [?| ->]%Hin; auto.
Qed.

Definition op_running (c1 : cache) (k : nat) : op_invariant sb :=
  Build_op_invariant sb (in_op c1 k) False (in_op_evolves c1 k) (in_op_sync c1 k).

Lemma begin_rest c k :
  at_rest c -> cache_begin_op k c = Ok (tt, op_begun c k) /\ alloc_inv sb (op_begun c k) /\
    held_map (op_begun c k) = ∅ /\ tx_inv (log_block_count sb) (mkTx (op_begun c k) {[k]} None) /\
    room sb (OI := op_running (op_begun c k) k) (op_begun c k) (Some k) [] OP_MAX_NUM_BLOCKS.
Proof using Hlay Hlog.
  intros Hr. pose proof Hr as [Htx Hai Hid Hup Hms Hfi _ _]. destruct (rest_empty c Hr) as (_ & _ & Hu).
  pose proof (ci_lock _ (ai_inv _ _ Hai)) as Hlk.
  assert (cache_begin_op k c = Ok (tt, op_begun c k)) as Heq.
  { rewrite cache_begin_op_eq by done. destruct (ti_phase _ _ Htx) as [Hsz _]. cbn [tx_s] in Hsz. rewrite Hu, Hsz.
    rewrite u64_id by done. by rewrite (proj2 (Z.ltb_ge _ _)) by apply Hlog. }
  split; [done|]. split; [destruct Hai as [Hci ? ? ? ?]; split; try done; destruct Hci; by split|].
  split; [by apply (idle_held c); [apply Hai|]|]. split.
  { replace {[k]} with ({[k]} ∪ ∅ : gset nat) by set_solver. eapply tx_begin_inv; [done|set_solver|done]. }
  eexists. split; [apply lookup_insert_eq|]. split_and!; try done; [apply fresh_ctx_ok|constructor|by intros m ?%not_elem_of_nil|].
  split_and!; try done; [|by intros m ?%not_elem_of_nil]. intros m Hm. change (is_pinned c m = true) in Hm. by rewrite Hup in Hm.
Qed.

(** *** The end of the operation *)
Section ending.
Context (c : cache) (k : nat) (c2 : cache) (o : OpContext).
Context (Hr : at_rest c) (Hai : alloc_inv sb c2) (Hh : held_map c2 = ∅).
Context (Ho : c_ctxs c2 !! k = Some o) (Hok : ctx_ok o) (Hlk : oc_lock o = false) (Hnd : NoDup (ctx_blocks o)).
Context (Hin : in_op (op_begun c k) k c2 k o).

Lemma ending_idle : idle c2.
Proof using Hai Hh.
  split; [apply (ai_inv _ _ Hai)|]. intros m. apply held_unlocked; [apply (ai_inv _ _ Hai)|].
  intros p. by rewrite Hh, lookup_empty.
Qed.

Lemma ending_dev : c_dev c2 = c_dev c.
Proof using Hin. destruct Hin as (_ & -> & _). done. Qed.

Lemma ending_read m : dev_read c2 m = view c m.
Proof using Hr Hin. rewrite rest_view by done. unfold dev_read. by rewrite ending_dev. Qed.

Lemma ending_entries : entries (c_header c2) = [].
Proof using Hr Hin. destruct Hin as (_ & _ & [-> _] & _). apply (proj1 (rest_empty c Hr)). Qed.

Lemma ending_last : last_op sb c2 k o.
Proof using Hlay Hlog Hr Hai Hh Ho Hok Hlk Hnd Hin.
  destruct (begin_rest c k Hr) as (_ & _ & _ & Htx & _). pose proof Hin as (_ & Hd & [Hhd Hlg] & Hms & _ & Hg).
  split; try done.
  - destruct Htx. split; cbn [tx_s tx_running tx_ckpt] in *; rewrite ?Hhd, ?Hlg; try done.
    intros k' ->%elem_of_singleton. by exists o.
  - apply ending_idle.
  - rewrite ending_entries. constructor.
  - rewrite ending_entries. intros m [?%not_elem_of_nil|Hm]; [done|]. by apply in_groups_outside, Hg.
  - rewrite Hlg. apply (ar_first c Hr).
  - apply Hlog.
  - rewrite ending_dev. split; [apply (ar_disk _ Hr)|apply (ar_quiet _ Hr)].
Qed.

Lemma ending_result m : op_result c2 o m = view c2 m.
Proof using Hai Hh Hin.
  unfold op_result. case_decide as Hm; [done|]. symmetry. destruct ending_idle as [Hi Hl]. apply view_clean; [done|done|].
  destruct (is_pinned c2 m) eqn:E; [|done]. destruct Hm. right. by apply Hin.
Qed.

Context (h' : LogHeader) (c3 : cache) (Hp : end_op_post sb c2 o h' c3).
Definition end_writes : list (Z * list Z) := checkpoint_writes sb (view c2) (first_log_block sb) h'.

Lemma ending_h' m : m ∈ entries h' -> in_groups sb m.
Proof using Hr Hin Hp.
  destruct (eo_merged _ _ _ _ _ Hp) as [_ _ ->]. rewrite merge_elem, ending_entries.
  intros [?%not_elem_of_nil|Hm]; [done|]. by apply Hin.
Qed.

Lemma end_writes_addr m x : (m, x) ∈ end_writes -> m <> 1 /\ Forall byte_ok x /\
  (m = log_start sb -> x = encode_LogHeader h' \/ x = encode_LogHeader (cleared h')).
Proof using Hlay Hlog Hr Hai Hin Hp.
  intros Hw%checkpoint_writes_elem. assert (forall h, Forall byte_ok (encode_LogHeader h)) as Henc.
  { intros h. unfold encode_LogHeader. apply Forall_app. split; [apply le_bytes_ok|apply unwords_ok]. }
  destruct Hlog. inversion Hw; subst; (split; [|split; [first [apply Henc|apply Hai]|]]); try lia; auto.
  - by apply in_groups_ne1, ending_h'.
  - intros E. exfalso. apply (in_groups_ne1 m); [|done]. by apply ending_h'.
Qed.

(** A crash among the writes. *)
Lemma ending_crash f j :
  recovering sb (dv_disk (crashed (c_dev c) (take j end_writes))) (log_block_count sb) f ->
  (forall g i, 0 <= g < num_groups sb -> 0 <= i < data_start_per_group sb ->
     bitmap_get (bitmap_of (f (bitmap_block sb g))) i = true) ->
  sound_disk (crashed (c_dev c) (take j end_writes)).
Proof using Hlay Hlog Hr Hai Hin Hp.
  intros Hrec Hres. apply (sound_writes _ _ f); [apply Hr| | |done| |done].
  - intros ([m x] & E & Hw)%list_elem_of_fmap. simpl in E. apply subseteq_take, end_writes_addr in Hw. naive_solver.
  - apply Forall_forall. intros [m x] Hw%subseteq_take. by apply end_writes_addr in Hw as (_ & ? & _).
  - intros m. unfold disk_header. cbn [crashed dv_disk]. rewrite disk_read_apply.
    destruct (over_cases (disk_read (dv_disk (c_dev c))) (take j end_writes) (log_start sb)) as [->|Hw].
    + fold (disk_header sb (dv_disk (c_dev c))). unfold entries. rewrite (ar_quiet c Hr). by intros ?%not_elem_of_nil.
    + apply subseteq_take, end_writes_addr in Hw as (_ & _ & Hw).
      destruct (eo_merged _ _ _ _ _ Hp) as [Hwf ? _]. destruct (Hw eq_refl) as [->| ->].
      * rewrite decode_encode_LogHeader by done. apply ending_h'.
      * rewrite decode_encode_LogHeader by (by apply cleared_wf). by intros ?%not_elem_of_nil.
Qed.

Lemma ending_view m : in_groups sb m -> view c3 m = view c2 m.
Proof using Hlay Hlog Hp. intros Hm. by apply (eo_view _ _ _ _ _ Hp), in_groups_outside. Qed.

Lemma ending_bits g : 0 <= g < num_groups sb -> bits sb c3 g = bits sb c2 g.
Proof using Hlay Hlog Hp. intros Hg. unfold bits. rewrite ending_view; [done|]. apply bitmap_in_groups; [apply Hlay|done]. Qed.

Lemma ending_alloc_inv : alloc_inv sb c3.
Proof using Hlay Hlog Hr Hai Hin Hp.
  pose proof Hai as [Hi Hb Hl Hres Hus]. destruct (eo_rest _ _ _ _ _ Hp) as [Hub _]. split.
  - apply (eo_idle _ _ _ _ _ Hp).
  - intros m. rewrite (eo_over _ _ _ _ _ Hp). apply over_bytes; [done|]. apply Forall_forall. intros [n x] Hw.
    by apply end_writes_addr in Hw as (_ & ? & _).
  - by rewrite Hub.
  - intros g i Hg Hi'. rewrite ending_bits by done. auto.
  - intros g Hg. rewrite ending_bits, Hub by done. auto.
Qed.

Lemma ending_tx : tx_inv (log_block_count sb) (mkTx c3 ∅ None).
Proof using Hlay Hlog Hr Hin Hp.
  destruct (begin_rest c k Hr) as (_ & _ & _ & Htx & _). destruct Hin as (_ & _ & [_ Hlg] & _).
  destruct (eo_merged _ _ _ _ _ Hp) as [Hwf _ _]. pose proof (ti_count _ _ Htx) as Hc.
  cbn [tx_s tx_running] in Hc. rewrite size_singleton in Hc.
  split; cbn [tx_s tx_running tx_ckpt]; rewrite ?(eo_hdr _ _ _ _ _ Hp), ?(eo_log _ _ _ _ _ Hp), ?size_empty; simpl; try done.
  - by apply cleared_wf.
  - rewrite Hlg, Hc. done.
  - destruct Hlog. unfold OP_MAX_NUM_BLOCKS in *. lia.
  - apply Htx.
Qed.

Lemma sound_same d d' : dv_disk d' = dv_disk d -> sound_disk d -> sound_disk d'.
Proof using. intros Hd [[] ? ?]. split; [split|..]; rewrite ?Hd; done. Qed.

Lemma ending_unpinned m : is_pinned c3 m = false.
Proof using Hr Hin Hp.
  rewrite (eo_pinned _ _ _ _ _ Hp). destruct (is_pinned c2 m) eqn:E; [|done]. apply bool_decide_eq_false. intros Hn. apply Hn.
  destruct (eo_merged _ _ _ _ _ Hp) as [_ _ ->]. apply merge_elem. right. by apply Hin.
Qed.

Lemma ending_reserved g i :
  0 <= g < num_groups sb -> 0 <= i < data_start_per_group sb ->
  bitmap_get (bitmap_of (op_result c2 o (bitmap_block sb g))) i = true.
Proof using Hai Hh Hin. intros Hg Hi. rewrite ending_result. by apply Hai. Qed.

Lemma ending_rest : at_rest c3.
Proof using Hlay Hlog Hr Hai Hh Ho Hok Hlk Hnd Hin Hp.
  destruct (eo_wrote _ _ _ _ _ Hp) as [Hd _]. rewrite ending_dev in Hd.
  pose proof (end_op_durable _ _ _ _ _ _ ending_last Hp) as Hdur. rewrite ending_dev in Hdur.
  split; [apply ending_tx|apply ending_alloc_inv|apply (eo_idle _ _ _ _ _ Hp)|apply ending_unpinned|apply (eo_miss _ _ _ _ _ Hp)| | |].
  - rewrite (eo_log _ _ _ _ _ Hp). simpl. apply (lo_start _ _ _ _ ending_last).
  - pose proof (ending_crash (op_result c2 o) (length end_writes)) as Hs. rewrite take_ge in Hs by done.
    eapply sound_same; [|apply Hs]; [done|done|apply ending_reserved].
  - rewrite Hd. apply checkpoint_header. pose proof (lr_hdr _ _ (eo_ready _ _ _ _ _ Hp)) as Hg. simpl in Hg.
    by rewrite (lo_start _ _ _ _ ending_last) in Hg.
Qed.

End ending.

(** [s] and [s'] agree on the blocks of the groups. *)
Definition same_blocks (f g : Z -> list Z) : Prop := forall m, in_groups sb m -> f m = g m.

(** What a crash leaves on the disk [d]: it starts again, from [f]. *)
Definition restarts (d : Device) (f : Z -> list Z) : Prop :=
  sound_disk d /\ same_blocks (recovered sb (dv_disk d)) f.

Lemma end_rest c k c2 ns j :
  at_rest c -> alloc_inv sb c2 -> held_map c2 = ∅ ->
  room sb (OI := op_running (op_begun c k) k) c2 (Some k) ns j ->
  wp (cache_end_op sb k) (fun _ c3 => at_rest c3 /\ same_blocks (view c3) (view c2) /\
    exists ws, wrote (c_dev c) (c_dev c3) ws /\
      forall n, restarts (crashed (c_dev c) (take n ws)) (view c) \/ restarts (crashed (c_dev c) (take n ws)) (view c2)) c2.
Proof using Hlay Hlog.
  intros Hr Hai Hh (o & Ho & Hok & Hlk & Hnd & _ & Hin & _). change (in_op (op_begun c k) k c2 k o) in Hin.
  pose proof (ending_last c k c2 o Hr Hai Hh Ho Hok Hlk Hnd Hin) as Hlo.
  eapply wp_mono; [apply (end_op_last _ _ _ _ Hlo)|]. intros [] c3 (h' & Hp).
  split; [by eapply ending_rest|]. split; [intros m Hm; by eapply ending_view|].
  exists (end_writes c2 h'). pose proof (eo_wrote _ _ _ _ _ Hp) as Hw. rewrite (ending_dev c k c2 o Hin) in Hw.
  split; [done|]. intros n. pose proof (end_op_prefix _ _ _ _ _ _ n Hlo Hp) as Hpre. rewrite (ending_dev c k c2 o Hin) in Hpre.
  fold (end_writes c2 h') in Hpre. destruct Hpre as [Hrec|Hrec]; [left|right]; (split; [eapply ending_crash; try done|]).
  - intros g i Hg Hi. rewrite (ending_read c k c2 o Hr Hin). by apply (ai_reserved _ _ (ar_alloc _ Hr)).
  - intros m Hm%in_groups_outside. rewrite (rv_read _ _ _ _ Hrec) by done. apply (ending_read c k c2 o Hr Hin).
  - by eapply ending_reserved.
  - intros m Hm%in_groups_outside. rewrite (rv_read _ _ _ _ Hrec) by done. by eapply ending_result.
Qed.

(** ** Writing to an open file *)
#[local] Instance rest_spec : BlockCacheSpec sb (bcache sb) := cache_spec sb (il_geo _ Hlay).
(** The cache's promises to operation [k] begun in [c]. *)
Definition op_spec (c : cache) (k : nat) : BlockCacheSpec sb (bcache sb) :=
  cache_laws sb (il_geo _ Hlay) (OI := op_running (op_begun c k) k).

(** Files do not depend on what is known of the operations. *)
Lemma file_ok_spec (O1 O2 : op_invariant sb) s ip i :
  file_ok sb (bcache sb) (Hspec := cache_laws sb (il_geo _ Hlay) (OI := O1)) s ip i ->
  file_ok sb (bcache sb) (Hspec := cache_laws sb (il_geo _ Hlay) (OI := O2)) s ip i.
Proof.
  intros [? ? ? ? ? Hm ? ? ?]. split; try done. destruct Hm. by split.
Qed.

Lemma alloced_same_blocks c c' n : same_blocks (view c') (view c) -> alloced sb c' n = alloced sb c n.
Proof using Hlay.
  intros Hv. unfold alloced, bits. case_decide; [|done]. rewrite Hv; [done|]. apply bitmap_in_groups; [apply Hlay|done].
Qed.

Lemma file_ok_blocks s ip i c' :
  file_ok sb (bcache sb) s ip i -> same_blocks (view c') (view (is_cache s)) -> alloc_inv sb c' -> held_map c' = ∅ ->
  file_ok sb (bcache sb) (set_is_cache c' s) ip i.
Proof using Hlay.
  intros Hf Hv Hai Hh. apply (groups_file_ok sb (bcache sb) Hlay s ip i c' Hf Hv); [by split|].
  intros n. by apply alloced_same_blocks.
Qed.

(** The file at the inode [ip], and the rest of [s], written by operation [k]
    and committed. *)
Record written_rest (s : istate cache) (ip : nat) (i : Inode) (e' : InodeEntry) (off : Z) (src : list Z) (c3 : cache) : Prop := {
  wr_rest : at_rest c3;
  wr_file : file_ok sb (bcache sb) (with_entry s ip i c3 e') ip (set_i_entry e' i);
  wr_content : content sb (bcache sb) c3 e' = splice (Z.to_nat off) src (content sb (bcache sb) (is_cache s) (i_entry i));
  wr_type : ie_type e' = ie_type (i_entry i);
  wr_size : ie_num_bytes e' = Z.max (ie_num_bytes (i_entry i)) (off + Z.of_nat (length src));
  wr_crash : exists ws, wrote (c_dev (is_cache s)) (c_dev c3) ws /\
    forall n, restarts (crashed (c_dev (is_cache s)) (take n ws)) (view (is_cache s)) \/
              restarts (crashed (c_dev (is_cache s)) (take n ws)) (view c3)
}.

Lemma nblocks_small b n : 0 <= b -> 0 <= n <= 1024 -> nblocks b (b + n) <= 3.
Proof. intros. unfold nblocks, BLOCK_SIZE. case_match; [Z.to_euclidean_division_equations; lia|lia]. Qed.

(** The same before operation [k] ends. *)
Record pending (s : istate cache) (ip : nat) (i : Inode) (k : nat) (e' : InodeEntry) (off : Z) (src : list Z) (c2 : cache) : Prop := {
  pe_quiet : alloc_inv sb c2 /\ held_map c2 = ∅;
  pe_room : exists ns, room sb (OI := op_running (op_begun (is_cache s) k) k) c2 (Some k) ns 0;
  pe_file : file_ok sb (bcache sb) (with_entry s ip i c2 e') ip (set_i_entry e' i);
  pe_content : content sb (bcache sb) c2 e' = splice (Z.to_nat off) src (content sb (bcache sb) (is_cache s) (i_entry i));
  pe_type : ie_type e' = ie_type (i_entry i);
  pe_size : ie_num_bytes e' = Z.max (ie_num_bytes (i_entry i)) (off + Z.of_nat (length src))
}.

(** [inode_write] in an operation. *)
Lemma write_pending (s : istate cache) ip i k src off :
  let c := is_cache s in
  at_rest c -> file_ok sb (bcache sb) s ip i -> 0 <= off <= ie_num_bytes (i_entry i) ->
  Z.of_nat (length src) <= 1024 -> off + Z.of_nat (length src) <= INODE_MAX_BYTES -> Forall byte_ok src ->
  has_free sb (bcache sb) c 6 ->
  wp (inode_write sb (bcache sb) (Some k) ip src off) (fun r s2 => r = Z.of_nat (length src) /\ exists c2 e',
    s2 = with_entry s ip i c2 e' /\ pending s ip i k e' off src c2) (set_is_cache (op_begun c k) s).
Proof using Hlay Hlog.
  intros c Hr Hf Ho Hn Hmax Hby Hfr. destruct (begin_rest c k Hr) as (_ & Hai & Hh & _ & Hroom).
  pose proof (file_ok_blocks s ip i (op_begun c k) Hf (fun _ _ => eq_refl) Hai Hh) as Hf1.
  pose proof (nblocks_small off (Z.of_nat (length src)) ltac:(lia) ltac:(lia)) as Hnb.
  set (s1 := set_is_cache (op_begun c k) s) in *.
  assert (bk_room (BlockCacheSpec := op_spec c k) (is_cache s1) (Some k) [] (3 + 2 * nblocks off (off + Z.of_nat (length src)) + 0)) as Hrm.
  { apply (room_less sb (bcache sb) (Hspec := op_spec c k) Hlay _ _ _ OP_MAX_NUM_BLOCKS); [exact Hroom|].
    pose proof (nblocks_nonneg off (off + Z.of_nat (length src)) ltac:(lia)). unfold OP_MAX_NUM_BLOCKS. lia. }
  assert (has_free sb (bcache sb) (Hspec := op_spec c k) (is_cache s1) (2 * Z.to_nat (nblocks off (off + Z.of_nat (length src))) + 0)) as Hfr1.
  { destruct Hfr as (l & Hnd & Hlen & Hl). exists l. split; [done|]. split; [lia|done]. }
  apply (file_ok_spec (any_op sb) (op_running (op_begun c k) k)) in Hf1.
  eapply wp_mono; [apply (write_ok sb (bcache sb) (Hspec := op_spec c k) Hlay s1 (Some k) ip i src off [] 0 0 Hf1 Ho Hmax Hby Hrm ltac:(lia) Hfr1)|].
  intros r s2 (-> & c2 & e' & ns & -> & Hw & _ & Hr2 & _). split; [done|]. exists c2, e'. split; [done|].
  destruct Hw as [Hwf Hwc (Hwt & _ & _ & _ & Hws) _ _ _ _]. 
  split; [|by exists ns|by eapply file_ok_spec|exact Hwc|done|done].
  destruct Hwf as [[? ?] _ _ _ _ _ _ _ _]. by split.
Qed.

(** The end of the operation. *)
Lemma pending_end (s : istate cache) ip i k e' off src c2 :
  at_rest (is_cache s) -> pending s ip i k e' off src c2 ->
  wp (cache_end_op sb k) (fun _ c3 => written_rest s ip i e' off src c3) c2.
Proof using Hlay Hlog.
  intros Hr [[Hai Hh] [ns Hroom] Hf Hc Ht Hs].
  eapply wp_mono; [apply (end_rest (is_cache s) k c2 ns 0 Hr Hai Hh Hroom)|].
  intros [] c3 (Hr3 & Hv & ws & Hw & Hcr).
  assert (held_map c3 = ∅) as Hh3 by (apply idle_held; [apply (ar_alloc _ Hr3)|apply Hr3]).
  pose proof (file_ok_blocks _ ip _ c3 Hf Hv (ar_alloc _ Hr3) Hh3) as Hf3. split; [done|exact Hf3| |done|done|].
  - rewrite <- Hc. exact (groups_content sb (bcache sb) Hlay _ ip _ c3 Hf Hv).
  - exists ws. split; [done|]. intros n. destruct (Hcr n) as [H|[H1 H2]]; [by left|right]. split; [done|].
    intros m Hm. rewrite H2 by done. symmetry. by apply Hv.
Qed.

Lemma set_i_lock_entry i e' : i_lock i = false -> set_i_lock false (set_i_entry e' (set_i_lock true i)) = set_i_entry e' i.
Proof. intros H. destruct i. simpl in *. by subst. Qed.

(** [filewrite] of up to 1024 bytes is one operation. *)
Lemma filewrite_rest (s : fstate cache) f x ip i k src :
  let c := is_cache (fs_is s) in let n := Z.of_nat (length src) in
  at_rest c -> open_ok sb (bcache sb) s f x ip i -> f_writable x <> 0 -> 0 < n <= 1024 ->
  f_off x + n <= INODE_MAX_BYTES -> Forall byte_ok src -> has_free sb (bcache sb) c 6 ->
  wp (filewrite sb (bcache sb) k f src n) (fun r s' => r = n /\ exists sL e',
    is_cache sL = c /\ written_rest sL ip (set_i_lock true i) e' (f_off x) src (is_cache (fs_is s')) /\
    open_ok sb (bcache sb) s' f (set_f_off (f_off x + n) x) ip (set_i_entry e' i) /\
    ft_file s' = <[f := set_f_off (f_off x + n) x]> (ft_file s)) s.
Proof using Hlay Hlog.
  intros c n Hr [Hf Hty Hip Hoff Hok Hun Hrc Hlive] Hw Hn Hmax Hby Hfr.
  pose proof (fo_size _ _ _ _ _ Hok) as Hsz. rewrite INODE_MAX_BYTES_eq in Hsz.
  pose proof (fo_obj _ _ _ _ _ Hok) as Hobj. pose proof (fo_valid _ _ _ _ _ Hok) as Hval.
  unfold filewrite, get_file, upd_file. apply wp_bind, wp_bind, wp_gets. rewrite Hf. apply wp_ret.
  rewrite (proj2 (Z.eqb_neq _ _)) by done. rewrite Hty.
  destruct (Z.to_nat n) as [|m] eqn:Em; [lia|]. apply wp_bind. remember (S m) as fuel eqn:Efu. cbn [filewrite_loop].
  rewrite (proj2 (Z.ltb_lt 0 n)), Z.sub_0_r by lia. change filewrite_max with 34816. rewrite (proj2 (Z.ltb_ge 34816 n)) by lia.
  apply wp_bind, wp_ino, wp_lift. eapply wp_eq; [apply (begin_rest c k Hr)|].
  apply wp_bind. unfold get_file. apply wp_bind, wp_gets. simpl ft_file. rewrite Hf. apply wp_ret. rewrite Hip.
  apply wp_bind, wp_ino, (inode_lock_ok _ _ _ ip i); try done.
  pose proof (file_ok_lock sb (bcache sb) _ ip i true Hok) as Hok1. set (sL := set_is_objs _ (fs_is s)) in Hok1.
  assert (slice (Z.to_nat 0) (Z.to_nat n) src = src) as -> by (unfold slice; rewrite drop_0, take_ge; [done|lia]).
  apply wp_bind, wp_ino. eapply wp_mono; [apply (write_pending sL ip (set_i_lock true i) k src (f_off x)); try done; lia|].
  intros r s2 (-> & c2 & e' & -> & Hp). fold n. rewrite (i64_id n) by lia. unfold upd_file, get_file.
  apply wp_bind, wp_bind, wp_bind, wp_gets. simpl ft_file. rewrite Hf. apply wp_ret, wp_modify.
  apply wp_bind, wp_ino, (inode_unlock_ok _ ip (set_i_entry e' (set_i_lock true i))); [apply lookup_insert_eq|done|done|].
  apply wp_bind, wp_ino, wp_lift. eapply wp_mono; [exact (pending_end sL ip _ k e' (f_off x) src c2 Hr Hp)|]. intros [] c3 Hwr.
  rewrite (proj2 (Z.ltb_ge n 0)) by lia. apply wp_bind, wp_assert; [by apply Z.eqb_refl|].
  subst fuel. cbn [filewrite_loop]. rewrite Z.ltb_irrefl. apply wp_ret, wp_ret. rewrite Z.eqb_refl. split; [done|].
  assert (u64 (f_off x + u64 n) = f_off x + n) as Hu by (rewrite (u64_id n) by lia; apply u64_id; lia).
  exists sL, e'. split; [done|]. split; [exact Hwr|]. rewrite Hu. split; [|done].
  pose proof (file_ok_lock sb (bcache sb) _ ip _ false (wr_file _ _ _ _ _ _ _ Hwr)) as Hok3.
  split; simpl; try done.
  - rewrite list_lookup_insert_eq; [done|]. by eapply lookup_lt_Some.
  - rewrite (wr_size _ _ _ _ _ _ _ Hwr). fold n. lia.
  - rewrite (set_i_lock_entry _ _ Hun) in Hok3 |- *. exact Hok3.
  - by rewrite (wr_type _ _ _ _ _ _ _ Hwr).
Qed.

(** The file after a restart from a disk that holds the blocks of [c]. *)
Lemma restart_content (s : istate cache) ip i d con uninit :
  file_ok sb (bcache sb) s ip i -> restarts d (view (is_cache s)) ->
  exists b, init_filesystem uninit (at_boot d con) = Ok (tt, b) /\ let r := is_cache (fs_inodes b) in
    at_rest r /\ same_blocks (view r) (view (is_cache s)) /\
    content sb (bcache sb) r (disk_inode sb (bcache sb) r (i_inode_no i)) = content sb (bcache sb) (is_cache s) (i_entry i).
Proof using Hlay Hlog.
  intros Hf [Hs Hv]. destruct (init_filesystem_rest d con uninit Hs) as (b & Heq & Hr & Hb). exists b. split; [done|]. split; [done|].
  assert (same_blocks (view (is_cache (fs_inodes b))) (view (is_cache s))) as Hsame by (intros m Hm; rewrite Hb; auto).
  split; [done|]. rewrite (groups_disk_inode sb (bcache sb) (Hspec := rest_spec) Hlay s (is_cache (fs_inodes b)) Hsame) by apply Hf. rewrite (fo_disk _ _ _ _ _ Hf).
  exact (groups_content sb (bcache sb) (Hspec := rest_spec) Hlay s ip i (is_cache (fs_inodes b)) Hf Hsame).
Qed.

(** C1: Writing to a file is atomic, from the system call's [filewrite] down to
    the disk.  When no operation runs, a [filewrite] of up to 1024 bytes on an
    open file succeeds, puts the bytes at the offset of the file, moves the
    offset behind them, and leaves a file system in which no operation runs. If
    the machine stops after any number of the device writes that this makes,
    the next start of the file system succeeds, again leaves a file system in
    which no operation runs, and finds all blocks of the groups, so all files,
    as they were before the call, or all as they are after it: the file has its
    old content, or the new one. *)
Theorem filewrite_crash_atomic (s : fstate cache) f x ip i k src con uninit :
  let c := is_cache (fs_is s) in let n := Z.of_nat (length src) in
  at_rest c -> open_ok sb (bcache sb) s f x ip i -> f_writable x <> 0 -> 0 < n <= 1024 ->
  f_off x + n <= INODE_MAX_BYTES -> Forall byte_ok src -> has_free sb (bcache sb) c 6 ->
  let old := content sb (bcache sb) c (i_entry i) in
  let new := splice (Z.to_nat (f_off x)) src old in
  exists s' ws, filewrite sb (bcache sb) k f src n s = Ok (n, s') /\
    let c' := is_cache (fs_is s') in
    at_rest c' /\ dv_writes (c_dev c') = dv_writes (c_dev c) ++ ws /\
    (exists e', open_ok sb (bcache sb) s' f (set_f_off (f_off x + n) x) ip (set_i_entry e' i) /\
       content sb (bcache sb) c' e' = new) /\
    forall j, exists b, init_filesystem uninit (at_boot (crashed (c_dev c) (take j ws)) con) = Ok (tt, b) /\
      let r := is_cache (fs_inodes b) in
      let data := content sb (bcache sb) r (disk_inode sb (bcache sb) r (i_inode_no i)) in
      at_rest r /\ ((same_blocks (view r) (view c) /\ data = old) \/ (same_blocks (view r) (view c') /\ data = new)).
Proof using Hlay Hlog.
  intros c n Hr Ho Hw Hn Hmax Hby Hfr old new.
  destruct (proj1 (wp_ok _ _ _) (filewrite_rest s f x ip i k src Hr Ho Hw Hn Hmax Hby Hfr)) as (r & s' & Heq & -> & sL & e' & HL & Hwr & Ho' & _).
  destruct (wr_crash _ _ _ _ _ _ _ Hwr) as (ws & [_ Hws] & Hcr). rewrite HL in Hws, Hcr. exists s', ws. split; [done|].
  split; [apply Hwr|]. split; [done|]. pose proof (wr_content _ _ _ _ _ _ _ Hwr) as Hc. rewrite HL in Hc.
  split; [by exists e'|]. intros j. destruct (Hcr j) as [H|H].
  - destruct (restart_content (fs_is s) ip i _ con uninit (oo_ok _ _ _ _ _ _ _ Ho) H) as (b & Hb & Hrb & Hv & Hd).
    exists b. split; [done|]. split; [done|]. by left.
  - destruct (restart_content _ ip _ _ con uninit (wr_file _ _ _ _ _ _ _ Hwr) H) as (b & Hb & Hrb & Hv & Hd).
    exists b. split; [done|]. split; [done|]. right. split; [done|]. simpl in Hd. by rewrite Hd.
Qed.

End rest.

(** *** [/hi] of FsDemo.v, open for writing, on a disk with its super block *)
Lemma fs_log_layout : log_layout fs_sb.
Proof. by split. Qed.

Definition boot_cache : cache := set_c_dev (mkDevice fs_boot_disk []) fs_cache.
Definition hi_write : File := mkFile FD_INODE 1 1 1 0 1 1.
Definition boot_files : fstate cache :=
  set_ft_file [hi_write] (set_fs_is (set_is_cache boot_cache (fs_is demo_files)) demo_files).

Lemma boot_view m : m <> 1 -> view boot_cache m = view fs_cache m.
Proof.
  intros Hm. change (disk_read fs_boot_disk m = disk_read fs_disk m). unfold fs_boot_disk, disk_read.
  by rewrite lookup_insert_ne.
Qed.

Lemma boot_same : same_blocks fs_sb (view boot_cache) (view fs_cache).
Proof. intros m [Hm _]%(in_groups_ne1 _ fs_layout fs_log_layout). by apply boot_view. Qed.

#[local] Opaque fs_boot_disk fs_disk.
Lemma boot_alloc_inv' : alloc_inv fs_sb boot_cache.
Proof.
  destruct fs_inv as [Hi _ Hl Hres Hus]. assert (forall g, 0 <= g < 10 -> bits fs_sb boot_cache g = bits fs_sb fs_cache g) as Hb.
  { intros g Hg. unfold bits. rewrite boot_view; [done|]. unfold bitmap_block, group_block. simpl. lia. }
  split.
  - destruct Hi. split; try done. intros m. apply fs_boot_block.
  - intros m. apply fs_boot_block.
  - done.
  - intros g j Hg Hj. rewrite Hb by done. by apply Hres.
  - intros g Hg. rewrite Hb by done. by apply Hus.
Qed.

Lemma boot_rest : at_rest fs_sb boot_cache.
Proof.
  split; try done.
  - split; simpl; try done.
    split; [simpl; lia|]. split; [done|]. apply (Forall_replicate (fun b => 0 <= b < 2 ^ 64) 63 0). lia.
  - apply boot_alloc_inv'.
  - split; [exact fs_bootable| |]; change (dv_disk (c_dev boot_cache)) with fs_boot_disk; rewrite fs_boot_header; [by intros m ?%not_elem_of_nil|done].
Qed.

Lemma boot_open_ok : open_ok fs_sb (bcache fs_sb) (Hspec := rest_spec fs_sb fs_layout) boot_files 0 hi_write 1 hi_free.
Proof.
  destruct hi_open_ok as [? ? ? ? Hok ? ? ?]. split; try done.
  apply (file_ok_blocks fs_sb fs_layout (fs_is demo_files) 1 hi_free boot_cache Hok boot_same boot_alloc_inv'). done.
Qed.

Lemma boot_has_free : has_free fs_sb (bcache fs_sb) (Hspec := rest_spec fs_sb fs_layout) boot_cache 6.
Proof.
  destruct fs_has_free as (l & Hnd & Hlen & Hl). exists l. split; [done|]. split; [lia|]. intros m Hm.
  destruct (Hl m Hm) as [Hd Ha]. split; [done|]. rewrite <- Ha.
  apply (alloced_same_blocks fs_sb fs_layout fs_cache boot_cache m boot_same).
Qed.

Lemma filewrite_crash_atomic_witness :
  exists s' ws, filewrite fs_sb (bcache fs_sb) 7 0 [88; 89] 2 boot_files = Ok (2, s') /\
    let c' := is_cache (fs_is s') in
    at_rest fs_sb c' /\ dv_writes (c_dev c') = dv_writes (c_dev boot_cache) ++ ws /\
    (exists e', open_ok fs_sb (bcache fs_sb) (Hspec := rest_spec fs_sb fs_layout) s' 0 (set_f_off 3 hi_write) 1 (set_i_entry e' hi_free) /\
       content fs_sb (bcache fs_sb) (Hspec := rest_spec fs_sb fs_layout) c' e' = [104; 88; 89; 108; 111]) /\
    forall j, exists b, init_filesystem root_entry (at_boot (crashed (c_dev boot_cache) (take j ws)) Console.init_console) = Ok (tt, b) /\
      let r := is_cache (fs_inodes b) in
      let data := content fs_sb (bcache fs_sb) (Hspec := rest_spec fs_sb fs_layout) r
                    (disk_inode fs_sb (bcache fs_sb) (Hspec := rest_spec fs_sb fs_layout) r 2) in
      at_rest fs_sb r /\
      ((same_blocks fs_sb (view r) (view boot_cache) /\ data = [104; 101; 108; 108; 111]) \/
       (same_blocks fs_sb (view r) (view c') /\ data = [104; 88; 89; 108; 111])).
Proof.
  assert (content fs_sb (bcache fs_sb) (Hspec := rest_spec fs_sb fs_layout) boot_cache hi_entry = [104; 101; 108; 108; 111]) as Hold
    by (vm_compute; reflexivity).
  replace [104; 88; 89; 108; 111] with (splice 1 [88; 89] (content fs_sb (bcache fs_sb) (Hspec := rest_spec fs_sb fs_layout) boot_cache hi_entry))
    by (rewrite Hold; reflexivity).
  rewrite <- Hold.
  apply (filewrite_crash_atomic fs_sb fs_layout fs_log_layout boot_files 0 hi_write 1 hi_free 7 [88; 89] Console.init_console root_entry
    boot_rest boot_open_ok); [done|done| | |exact boot_has_free].
  - apply Z.leb_le. reflexivity.
  - repeat constructor; unfold byte_ok; lia.
Defined.

End FsAtomic.
