(* ===== verification/Kernel.v ===== *)
(** * The state of the kernel (src/core/proc.h, sched.h, container.h, trapframe.h)

    Processes, schedulers and containers as the headers declare them, and one
    record for all the state that the process layer and the system calls work
    on, as one CPU sees it. *)
From S2P Require Import Prelude FsDefines Console BlockIface Inode File PhysMem VirtMem Arena.

Module Kernel.
Import Inode File PhysMem VirtMem Arena.

Definition NPROC : Z := 14.
Definition NOFILE : Z := 8.
Definition KSTACKSIZE : Z := 4096.
Definition NCPU : Z := 4.
Definition NPID : Z := 64.

(** [struct proc *]: the container whose table it is in, and its index. *)
Definition pptr : Type := (nat * nat).

(** What a process sleeps on: a process, another address, or nothing. *)
Inductive chan : Type := ChNone | ChProc (p : pptr) | ChAddr (a : Z).
#[global] Instance chan_eq_dec : EqDecision chan.
Proof. solve_decision. Defined.

Inductive procstate : Type := UNUSED | EMBRYO | SLEEPING | RUNNABLE | RUNNING | ZOMBIE.
#[global] Instance procstate_eq_dec : EqDecision procstate.
Proof. solve_decision. Defined.

Inductive resource_t : Type := MEMORY | PID | INODE.

Record context : Type := mkContext {
  cx_lr0 : Z;
  cx_lr : Z;
  cx_fp : Z;
  cx_x : list Z;  (** [x28 .. x19] *)
  cx_padding : Z
}.

Definition set_cx_lr0 (x : Z) (s : context) : context :=
  mkContext x (cx_lr s) (cx_fp s) (cx_x s) (cx_padding s).
Definition set_cx_lr (x : Z) (s : context) : context :=
  mkContext (cx_lr0 s) x (cx_fp s) (cx_x s) (cx_padding s).
Definition set_cx_fp (x : Z) (s : context) : context :=
  mkContext (cx_lr0 s) (cx_lr s) x (cx_x s) (cx_padding s).
Definition set_cx_x (x : list Z) (s : context) : context :=
  mkContext (cx_lr0 s) (cx_lr s) (cx_fp s) x (cx_padding s).
Definition set_cx_padding (x : Z) (s : context) : context :=
  mkContext (cx_lr0 s) (cx_lr s) (cx_fp s) (cx_x s) x.

Record Trapframe : Type := mkTrapframe {
  tf_spsr : Z;
  tf_elr : Z;
  tf_sp : Z;
  tf_tpidr : Z;
  tf_x : list Z;  (** [x[31]] *)
  tf_padding : Z;
  tf_q0 : list Z  (** [q0[2]] *)
}.

Definition set_tf_spsr (x : Z) (s : Trapframe) : Trapframe :=
  mkTrapframe x (tf_elr s) (tf_sp s) (tf_tpidr s) (tf_x s) (tf_padding s) (tf_q0 s).
Definition set_tf_elr (x : Z) (s : Trapframe) : Trapframe :=
  mkTrapframe (tf_spsr s) x (tf_sp s) (tf_tpidr s) (tf_x s) (tf_padding s) (tf_q0 s).
Definition set_tf_sp (x : Z) (s : Trapframe) : Trapframe :=
  mkTrapframe (tf_spsr s) (tf_elr s) x (tf_tpidr s) (tf_x s) (tf_padding s) (tf_q0 s).
Definition set_tf_tpidr (x : Z) (s : Trapframe) : Trapframe :=
  mkTrapframe (tf_spsr s) (tf_elr s) (tf_sp s) x (tf_x s) (tf_padding s) (tf_q0 s).
Definition set_tf_x (x : list Z) (s : Trapframe) : Trapframe :=
  mkTrapframe (tf_spsr s) (tf_elr s) (tf_sp s) (tf_tpidr s) x (tf_padding s) (tf_q0 s).
Definition set_tf_padding (x : Z) (s : Trapframe) : Trapframe :=
  mkTrapframe (tf_spsr s) (tf_elr s) (tf_sp s) (tf_tpidr s) (tf_x s) x (tf_q0 s).
Definition set_tf_q0 (x : list Z) (s : Trapframe) : Trapframe :=
  mkTrapframe (tf_spsr s) (tf_elr s) (tf_sp s) (tf_tpidr s) (tf_x s) (tf_padding s) x.

Record proc : Type := mkProc {
  p_sz : Z;
  p_pgdir : Z;
  p_kstack : Z;
  p_state : procstate;
  p_pid : Z;
  p_parent : option pptr;
  p_tf : Trapframe;  (** the trap frame on the kernel stack *)
  p_context : context;  (** the context on the kernel stack *)
  p_chan : chan;
  p_killed : bool;
  p_name : list Z;
  p_cont : option nat;
  p_is_scheduler : bool;
  p_ofile : list (option nat);  (** [ofile[NOFILE]]: files, [None] is null *)
  p_cwd : option nat;
  p_stksz : Z;
  p_base : Z
}.

Definition set_p_sz (x : Z) (s : proc) : proc :=
  mkProc x (p_pgdir s) (p_kstack s) (p_state s) (p_pid s) (p_parent s) (p_tf s) (p_context s) (p_chan s) (p_killed s) (p_name s) (p_cont s) (p_is_scheduler s) (p_ofile s) (p_cwd s) (p_stksz s) (p_base s).
Definition set_p_pgdir (x : Z) (s : proc) : proc :=
  mkProc (p_sz s) x (p_kstack s) (p_state s) (p_pid s) (p_parent s) (p_tf s) (p_context s) (p_chan s) (p_killed s) (p_name s) (p_cont s) (p_is_scheduler s) (p_ofile s) (p_cwd s) (p_stksz s) (p_base s).
Definition set_p_kstack (x : Z) (s : proc) : proc :=
  mkProc (p_sz s) (p_pgdir s) x (p_state s) (p_pid s) (p_parent s) (p_tf s) (p_context s) (p_chan s) (p_killed s) (p_name s) (p_cont s) (p_is_scheduler s) (p_ofile s) (p_cwd s) (p_stksz s) (p_base s).
Definition set_p_state (x : procstate) (s : proc) : proc :=
  mkProc (p_sz s) (p_pgdir s) (p_kstack s) x (p_pid s) (p_parent s) (p_tf s) (p_context s) (p_chan s) (p_killed s) (p_name s) (p_cont s) (p_is_scheduler s) (p_ofile s) (p_cwd s) (p_stksz s) (p_base s).
Definition set_p_pid (x : Z) (s : proc) : proc :=
  mkProc (p_sz s) (p_pgdir s) (p_kstack s) (p_state s) x (p_parent s) (p_tf s) (p_context s) (p_chan s) (p_killed s) (p_name s) (p_cont s) (p_is_scheduler s) (p_ofile s) (p_cwd s) (p_stksz s) (p_base s).
Definition set_p_parent (x : option pptr) (s : proc) : proc :=
  mkProc (p_sz s) (p_pgdir s) (p_kstack s) (p_state s) (p_pid s) x (p_tf s) (p_context s) (p_chan s) (p_killed s) (p_name s) (p_cont s) (p_is_scheduler s) (p_ofile s) (p_cwd s) (p_stksz s) (p_base s).
Definition set_p_tf (x : Trapframe) (s : proc) : proc :=
  mkProc (p_sz s) (p_pgdir s) (p_kstack s) (p_state s) (p_pid s) (p_parent s) x (p_context s) (p_chan s) (p_killed s) (p_name s) (p_cont s) (p_is_scheduler s) (p_ofile s) (p_cwd s) (p_stksz s) (p_base s).
Definition set_p_context (x : context) (s : proc) : proc :=
  mkProc (p_sz s) (p_pgdir s) (p_kstack s) (p_state s) (p_pid s) (p_parent s) (p_tf s) x (p_chan s) (p_killed s) (p_name s) (p_cont s) (p_is_scheduler s) (p_ofile s) (p_cwd s) (p_stksz s) (p_base s).
Definition set_p_chan (x : chan) (s : proc) : proc :=
  mkProc (p_sz s) (p_pgdir s) (p_kstack s) (p_state s) (p_pid s) (p_parent s) (p_tf s) (p_context s) x (p_killed s) (p_name s) (p_cont s) (p_is_scheduler s) (p_ofile s) (p_cwd s) (p_stksz s) (p_base s).
Definition set_p_killed (x : bool) (s : proc) : proc :=
  mkProc (p_sz s) (p_pgdir s) (p_kstack s) (p_state s) (p_pid s) (p_parent s) (p_tf s) (p_context s) (p_chan s) x (p_name s) (p_cont s) (p_is_scheduler s) (p_ofile s) (p_cwd s) (p_stksz s) (p_base s).
Definition set_p_name (x : list Z) (s : proc) : proc :=
  mkProc (p_sz s) (p_pgdir s) (p_kstack s) (p_state s) (p_pid s) (p_parent s) (p_tf s) (p_context s) (p_chan s) (p_killed s) x (p_cont s) (p_is_scheduler s) (p_ofile s) (p_cwd s) (p_stksz s) (p_base s).
Definition set_p_cont (x : option nat) (s : proc) : proc :=
  mkProc (p_sz s) (p_pgdir s) (p_kstack s) (p_state s) (p_pid s) (p_parent s) (p_tf s) (p_context s) (p_chan s) (p_killed s) (p_name s) x (p_is_scheduler s) (p_ofile s) (p_cwd s) (p_stksz s) (p_base s).
Definition set_p_is_scheduler (x : bool) (s : proc) : proc :=
  mkProc (p_sz s) (p_pgdir s) (p_kstack s) (p_state s) (p_pid s) (p_parent s) (p_tf s) (p_context s) (p_chan s) (p_killed s) (p_name s) (p_cont s) x (p_ofile s) (p_cwd s) (p_stksz s) (p_base s).
Definition set_p_ofile (x : list (option nat)) (s : proc) : proc :=
  mkProc (p_sz s) (p_pgdir s) (p_kstack s) (p_state s) (p_pid s) (p_parent s) (p_tf s) (p_context s) (p_chan s) (p_killed s) (p_name s) (p_cont s) (p_is_scheduler s) x (p_cwd s) (p_stksz s) (p_base s).
Definition set_p_cwd (x : option nat) (s : proc) : proc :=
  mkProc (p_sz s) (p_pgdir s) (p_kstack s) (p_state s) (p_pid s) (p_parent s) (p_tf s) (p_context s) (p_chan s) (p_killed s) (p_name s) (p_cont s) (p_is_scheduler s) (p_ofile s) x (p_stksz s) (p_base s).
Definition set_p_stksz (x : Z) (s : proc) : proc :=
  mkProc (p_sz s) (p_pgdir s) (p_kstack s) (p_state s) (p_pid s) (p_parent s) (p_tf s) (p_context s) (p_chan s) (p_killed s) (p_name s) (p_cont s) (p_is_scheduler s) (p_ofile s) (p_cwd s) x (p_base s).
Definition set_p_base (x : Z) (s : proc) : proc :=
  mkProc (p_sz s) (p_pgdir s) (p_kstack s) (p_state s) (p_pid s) (p_parent s) (p_tf s) (p_context s) (p_chan s) (p_killed s) (p_name s) (p_cont s) (p_is_scheduler s) (p_ofile s) (p_cwd s) (p_stksz s) x.

Record scheduler : Type := mkScheduler {
  s_op : bool;  (** [op] is [&simple_op] and not null *)
  s_context : list context;  (** [context[NCPU]] *)
  s_ptable : list proc;  (** [ptable.proc[NPROC]] *)
  s_lock : bool;  (** [ptable.lock], held by this CPU *)
  s_pid : Z;
  s_parent : nat;  (** the container of the parent scheduler *)
  s_cont : nat
}.

Definition set_s_op (x : bool) (s : scheduler) : scheduler :=
  mkScheduler x (s_context s) (s_ptable s) (s_lock s) (s_pid s) (s_parent s) (s_cont s).
Definition set_s_context (x : list context) (s : scheduler) : scheduler :=
  mkScheduler (s_op s) x (s_ptable s) (s_lock s) (s_pid s) (s_parent s) (s_cont s).
Definition set_s_ptable (x : list proc) (s : scheduler) : scheduler :=
  mkScheduler (s_op s) (s_context s) x (s_lock s) (s_pid s) (s_parent s) (s_cont s).
Definition set_s_lock (x : bool) (s : scheduler) : scheduler :=
  mkScheduler (s_op s) (s_context s) (s_ptable s) x (s_pid s) (s_parent s) (s_cont s).
Definition set_s_pid (x : Z) (s : scheduler) : scheduler :=
  mkScheduler (s_op s) (s_context s) (s_ptable s) (s_lock s) x (s_parent s) (s_cont s).
Definition set_s_parent (x : nat) (s : scheduler) : scheduler :=
  mkScheduler (s_op s) (s_context s) (s_ptable s) (s_lock s) (s_pid s) x (s_cont s).
Definition set_s_cont (x : nat) (s : scheduler) : scheduler :=
  mkScheduler (s_op s) (s_context s) (s_ptable s) (s_lock s) (s_pid s) (s_parent s) x.

Record pid_mapping : Type := mkPidMapping {
  pm_valid : bool;
  pm_pid_local : Z;
  pm_p : option pptr
}.

Definition set_pm_valid (x : bool) (s : pid_mapping) : pid_mapping :=
  mkPidMapping x (pm_pid_local s) (pm_p s).
Definition set_pm_pid_local (x : Z) (s : pid_mapping) : pid_mapping :=
  mkPidMapping (pm_valid s) x (pm_p s).
Definition set_pm_p (x : option pptr) (s : pid_mapping) : pid_mapping :=
  mkPidMapping (pm_valid s) (pm_pid_local s) x.

Record container : Type := mkContainer {
  c_p : option pptr;
  c_sched : scheduler;
  c_lock : bool;
  c_parent : nat;
  c_pmap : list pid_mapping  (** [pmap[NPID]] *)
}.

Definition set_c_p (x : option pptr) (s : container) : container :=
  mkContainer x (c_sched s) (c_lock s) (c_parent s) (c_pmap s).
Definition set_c_sched (x : scheduler) (s : container) : container :=
  mkContainer (c_p s) x (c_lock s) (c_parent s) (c_pmap s).
Definition set_c_lock (x : bool) (s : container) : container :=
  mkContainer (c_p s) (c_sched s) x (c_parent s) (c_pmap s).
Definition set_c_parent (x : nat) (s : container) : container :=
  mkContainer (c_p s) (c_sched s) (c_lock s) x (c_pmap s).
Definition set_c_pmap (x : list pid_mapping) (s : container) : container :=
  mkContainer (c_p s) (c_sched s) (c_lock s) (c_parent s) x.

(** The sizes of the structures, in bytes. *)
Definition sizeof_SpinLock : Z := 24.
Definition sizeof_proc : Z := 104 + 8 * NOFILE + 24.
Definition sizeof_scheduler : Z := 8 + 8 * NCPU + sizeof_proc * NPROC + sizeof_SpinLock + 24.
Definition sizeof_container : Z := 8 + sizeof_scheduler + sizeof_SpinLock + 8 + 16 * NPID.

(** No arena is set up. *)
Definition no_arena : astate unit := mkAstate ∅ ∅ ∅ tt.

Record kernel (St : Type) : Type := mkKernel {
  k_conts : gmap nat container;  (** the objects of [arena], by the order of their allocation *)
  k_next : nat;
  k_arena : astate unit;  (** [arena] and its pages, which are from [k_mem] *)
  k_root : nat;  (** [root_container] *)
  k_sched : option nat;  (** [thiscpu()->scheduler], by its container *)
  k_proc : option pptr;  (** [thiscpu()->proc] *)
  k_mem : kmem;
  k_fs : fstate St;
  k_ttbr0 : Z;
  k_flag_atom : bool;
  k_do_cont_test : bool
}.

Arguments mkKernel {St}.
Arguments k_conts {St}.
Arguments k_next {St}.
Arguments k_arena {St}.
Arguments k_root {St}.
Arguments k_sched {St}.
Arguments k_proc {St}.
Arguments k_mem {St}.
Arguments k_fs {St}.
Arguments k_ttbr0 {St}.
Arguments k_flag_atom {St}.
Arguments k_do_cont_test {St}.

Definition zero_context : context := mkContext 0 0 0 (replicate 10 0) 0.
Definition zero_trapframe : Trapframe := mkTrapframe 0 0 0 0 (replicate 31 0) 0 (replicate 2 0).
Definition zero_proc : proc :=
  mkProc 0 0 0 UNUSED 0 None zero_trapframe zero_context ChNone false (replicate 16 0) None false (replicate (Z.to_nat NOFILE) None) None 0 0.
Definition zero_scheduler : scheduler := mkScheduler false (replicate (Z.to_nat NCPU) zero_context) (replicate (Z.to_nat NPROC) zero_proc) false 0 0 0.
(** [memset(c, 0, sizeof( *c))] *)
Definition zero_container : container :=
  mkContainer None zero_scheduler false 0 (replicate (Z.to_nat NPID) (mkPidMapping false 0 None)).

Section kernel.
Context {St : Type}.

Definition set_k_conts (x : gmap nat container) (s : kernel St) : kernel St :=
  mkKernel x (k_next s) (k_arena s) (k_root s) (k_sched s) (k_proc s) (k_mem s) (k_fs s) (k_ttbr0 s) (k_flag_atom s) (k_do_cont_test s).
Definition set_k_next (x : nat) (s : kernel St) : kernel St :=
  mkKernel (k_conts s) x (k_arena s) (k_root s) (k_sched s) (k_proc s) (k_mem s) (k_fs s) (k_ttbr0 s) (k_flag_atom s) (k_do_cont_test s).
Definition set_k_arena (x : astate unit) (s : kernel St) : kernel St :=
  mkKernel (k_conts s) (k_next s) x (k_root s) (k_sched s) (k_proc s) (k_mem s) (k_fs s) (k_ttbr0 s) (k_flag_atom s) (k_do_cont_test s).
Definition set_k_root (x : nat) (s : kernel St) : kernel St :=
  mkKernel (k_conts s) (k_next s) (k_arena s) x (k_sched s) (k_proc s) (k_mem s) (k_fs s) (k_ttbr0 s) (k_flag_atom s) (k_do_cont_test s).
Definition set_k_sched (x : option nat) (s : kernel St) : kernel St :=
  mkKernel (k_conts s) (k_next s) (k_arena s) (k_root s) x (k_proc s) (k_mem s) (k_fs s) (k_ttbr0 s) (k_flag_atom s) (k_do_cont_test s).
Definition set_k_proc (x : option pptr) (s : kernel St) : kernel St :=
  mkKernel (k_conts s) (k_next s) (k_arena s) (k_root s) (k_sched s) x (k_mem s) (k_fs s) (k_ttbr0 s) (k_flag_atom s) (k_do_cont_test s).
Definition set_k_mem (x : kmem) (s : kernel St) : kernel St :=
  mkKernel (k_conts s) (k_next s) (k_arena s) (k_root s) (k_sched s) (k_proc s) x (k_fs s) (k_ttbr0 s) (k_flag_atom s) (k_do_cont_test s).
Definition set_k_fs (x : fstate St) (s : kernel St) : kernel St :=
  mkKernel (k_conts s) (k_next s) (k_arena s) (k_root s) (k_sched s) (k_proc s) (k_mem s) x (k_ttbr0 s) (k_flag_atom s) (k_do_cont_test s).
Definition set_k_ttbr0 (x : Z) (s : kernel St) : kernel St :=
  mkKernel (k_conts s) (k_next s) (k_arena s) (k_root s) (k_sched s) (k_proc s) (k_mem s) (k_fs s) x (k_flag_atom s) (k_do_cont_test s).
Definition set_k_flag_atom (x : bool) (s : kernel St) : kernel St :=
  mkKernel (k_conts s) (k_next s) (k_arena s) (k_root s) (k_sched s) (k_proc s) (k_mem s) (k_fs s) (k_ttbr0 s) x (k_do_cont_test s).
Definition set_k_do_cont_test (x : bool) (s : kernel St) : kernel St :=
  mkKernel (k_conts s) (k_next s) (k_arena s) (k_root s) (k_sched s) (k_proc s) (k_mem s) (k_fs s) (k_ttbr0 s) (k_flag_atom s) x.

(** The page allocator and the page tables; the open files; the inodes. *)
Definition onmem {A} (m : M kmem A) : M (kernel St) A := lift k_mem set_k_mem m.
(** The arena takes its pages from [kalloc]. *)
Definition arena_state (s : kernel St) : astate kmem := mkAstate (as_arenas (k_arena s)) (as_pg (k_arena s)) (as_nodes (k_arena s)) (k_mem s).
Definition set_arena_state (a : astate kmem) (s : kernel St) : kernel St :=
  set_k_mem (as_alloc a) (set_k_arena (mkAstate (as_arenas a) (as_pg a) (as_nodes a) tt) s).
Definition onarena {A} (m : M (astate kmem) A) : M (kernel St) A := lift arena_state set_arena_state m.
Definition onfs {A} (m : M (fstate St) A) : M (kernel St) A := lift k_fs set_k_fs m.

(** ** Containers and processes *)
Definition get_cont (c : nat) : M (kernel St) container :=
  o ← gets (fun s => k_conts s !! c); from_option_M o.
Definition upd_cont (c : nat) (f : container -> container) : M (kernel St) unit :=
  x ← get_cont c; modify (fun s => set_k_conts (<[c := f x]> (k_conts s)) s).
Definition upd_sched (c : nat) (f : scheduler -> scheduler) : M (kernel St) unit :=
  upd_cont c (fun x => set_c_sched (f (c_sched x)) x).

Definition get_proc (p : pptr) : M (kernel St) proc :=
  c ← get_cont p.1; from_option_M (s_ptable (c_sched c) !! p.2).
Definition upd_proc (p : pptr) (f : proc -> proc) : M (kernel St) unit :=
  x ← get_proc p;
  upd_sched p.1 (fun s => set_s_ptable (<[p.2 := f x]> (s_ptable s)) s).

(** [thiscpu()->scheduler] and [thiscpu()->proc]. *)
Definition this_scheduler : M (kernel St) nat := o ← gets k_sched; from_option_M o.
Definition this_proc : M (kernel St) pptr := o ← gets k_proc; from_option_M o.
Definition cur_proc : M (kernel St) proc := p ← this_proc; get_proc p.
Definition upd_cur (f : proc -> proc) : M (kernel St) unit := p ← this_proc; upd_proc p f.

(** The inode layer asks for [cwd] and [killed] of the current process; where
    [cwd] is null there is no inode object. *)
Definition onfiles {A} (m : M (fstate St) A) : M (kernel St) A :=
  p ← cur_proc;
  onfs (ino (modify (fun s => mkIstate (is_cache s) (is_objs s) (is_next s) (is_head s) (is_lock s) (is_con s)
                      (default (is_next s) (p_cwd p)) (p_killed p)));;
        m).
Definition oninodes {A} (m : M (istate St) A) : M (kernel St) A := onfiles (ino m).

(** The page table that the processor uses for user addresses. *)
Definition uvm_switch (pgdir : Z) : M (kernel St) unit := modify (set_k_ttbr0 (K2P pgdir)).

End kernel.
End Kernel.
