(* ===== verification/SysArg.v ===== *)
(** * Arguments of system calls (src/core/syscall.c)

    User memory as the kernel sees it through the page table that is switched
    on, the checks of user addresses, and the fetching of arguments from the
    trap frame. *)
From S2P Require Import Prelude FsDefines Console BlockIface Inode File PhysMem VirtMem Kernel.

Module SysArg.
Import PhysMem VirtMem Kernel.

Section sysarg.
Context {St : Type}.
(** The translation of the processor: table base register, memory and virtual
    address to the kernel address of the byte, [None] for a fault. *)
Context (mmu : Z -> (Z -> Z) -> Z -> option Z).

(** ** Memory through pointers *)
(** Kernel addresses are above [KSPACE_MASK]; a fault stops the kernel. *)
Definition kaddr (a : Z) : M (kernel St) Z :=
  if KSPACE_MASK <=? a then mret a
  else
    t ← gets k_ttbr0;
    m ← gets (fun s => km_mem (k_mem s));
    from_option_M (mmu t m a).
Definition urd (a : Z) : M (kernel St) Z :=
  k ← kaddr a; gets (fun s => km_mem (k_mem s) k).
Definition uwr (a b : Z) : M (kernel St) unit :=
  k ← kaddr a; onmem (mem_update (fun m => write_bytes m k [b])).
Fixpoint ureads (n : nat) (a : Z) : M (kernel St) (list Z) :=
  match n with
  | O => mret []
  | S n' => b ← urd a; l ← ureads n' (u64 (a + 1)); mret (b :: l)
  end.
Fixpoint uwrites (a : Z) (l : list Z) : M (kernel St) unit :=
  match l with
  | [] => mret tt
  | b :: l' => uwr a b;; uwrites (u64 (a + 1)) l'
  end.
Definition urd64 (a : Z) : M (kernel St) Z := l ← ureads 8 a; mret (le_val l).
Definition uwr64 (a v : Z) : M (kernel St) unit := uwrites a (le_bytes 8 v).

(** ** Checks *)
(** Whether [n] bytes from [s] on are in the user space of [p]. *)
Definition in_user (p : proc) (s n : Z) : bool :=
  ((p_base p <=? s) && (u64 (s + n) <=? p_sz p)) ||
  ((u64 (USPACE_TOP - p_stksz p) <=? s) && (u64 (s + n) <=? USPACE_TOP)).

(** The loops of [fetchstr]: the bytes before the NUL, if there is one below
    [limit]. *)
Fixpoint fetch_loop (fuel : nat) (s limit : Z) : M (kernel St) (option (list Z)) :=
  match fuel with
  | O => nofuel
  | S fuel' =>
      if s <? limit then
        b ← urd s;
        if b =? 0 then mret (Some [])
        else r ← fetch_loop fuel' (s + 1) limit; mret (cons b <$> r)
      else mret None
  end.

(** The result, and the string; [*pp] is [addr]. *)
Definition fetchstr (addr : Z) : M (kernel St) (Z * list Z) :=
  p ← cur_proc;
  let limit := if (p_base p <=? addr) && (addr <? p_sz p) then p_sz p
               else if (u64 (USPACE_TOP - p_stksz p) <=? addr) && (addr <? USPACE_TOP) then USPACE_TOP
               else addr in
  r ← fetch_loop (S (Z.to_nat (limit - addr))) addr limit;
  match r with
  | Some str => mret (i32 (Z.of_nat (length str)), str)
  | None => mret (-1, [])
  end.

(** [None] is the result -1; [*ip] otherwise. *)
Definition argint (n : Z) : M (kernel St) (option Z) :=
  p ← cur_proc;
  if 5 <? n then mret None else mret (Some (i32 (tf_x (p_tf p) !!! Z.to_nat n))).

Definition argu64 (n : Z) : M (kernel St) (option Z) :=
  p ← cur_proc;
  if 5 <? n then mret None else mret (Some (tf_x (p_tf p) !!! Z.to_nat n)).

Definition argptr (n size : Z) : M (kernel St) (option Z) :=
  i ← argu64 n;
  match i with
  | None => mret None
  | Some i => p ← cur_proc; mret (if in_user p i size then Some i else None)
  end.

(** The result, the address and the string. *)
Definition argstr (n : Z) : M (kernel St) (Z * Z * list Z) :=
  addr ← argu64 n;
  match addr with
  | None => mret (-1, 0, [])
  | Some addr => r ← fetchstr addr; mret (r.1, addr, r.2)
  end.

(** The result is not negative: the string. *)
Definition arg_path (n : Z) : M (kernel St) (option (list Z)) :=
  r ← argstr n; mret (if r.1.1 <? 0 then None else Some r.2).

End sysarg.

(** ** What the check of a block promises *)
(** The addresses of the user space of [p]. *)
Definition user_addr (p : proc) (a : Z) : Prop :=
  p_base p <= a < p_sz p \/ USPACE_TOP - p_stksz p <= a < USPACE_TOP.

(** A block between two ranges with a gap lies in one of them. *)
Lemma block_in_one s n b1 e1 b2 e2 : 0 < n -> e1 < b2 ->
  (forall a, s <= a < s + n -> b1 <= a < e1 \/ b2 <= a < e2) -> (b1 <= s /\ s + n <= e1) \/ (b2 <= s /\ s + n <= e2).
Proof.
  intros Hn Hgap H. pose proof (H s ltac:(lia)). pose proof (H (s + n - 1) ltac:(lia)).
  destruct (decide (s <= e1 < s + n)) as [He|]; [pose proof (H e1 ltac:(lia)); lia|lia].
Qed.

(** C32: [in_user] accepts a block that does not wrap around the address space
    exactly when it lies in the image or in the stack of the process, so all
    its addresses are user addresses, and a block that is not empty is accepted
    exactly when all its addresses are, if the image ends below the stack; but
    it does accept lengths that wrap: a system call with the length -1, taken as
    an unsigned number, passes the check at every address of the image but
    0. *)
Theorem in_user_bounds p s n :
  0 <= s < 2 ^ 64 -> 0 <= n -> 0 <= p_stksz p <= USPACE_TOP ->
  (s + n < 2 ^ 64 -> in_user p s n = true <->
     (p_base p <= s /\ s + n <= p_sz p) \/ (USPACE_TOP - p_stksz p <= s /\ s + n <= USPACE_TOP)) /\
  (s + n < 2 ^ 64 -> 0 < n -> p_sz p < USPACE_TOP - p_stksz p ->
     in_user p s n = true <-> forall a, s <= a < s + n -> user_addr p a) /\
  (0 < s -> p_base p <= s <= p_sz p -> in_user p s (u64 (-1)) = true).
Proof.
  intros Hs Hn Hst.
  assert (s + n < 2 ^ 64 -> in_user p s n = true <->
     (p_base p <= s /\ s + n <= p_sz p) \/ (USPACE_TOP - p_stksz p <= s /\ s + n <= USPACE_TOP)) as Hex.
  { intros Hw. unfold in_user, USPACE_TOP in *. rewrite u64_id by lia. rewrite (u64_id (281474976710656 - p_stksz p)) by lia.
    by rewrite orb_true_iff, !andb_true_iff, !Z.leb_le. }
  split; [done|split].
  - intros Hw H0 Hgap. rewrite (Hex Hw). unfold user_addr. split; [intros H a Ha; lia|apply block_in_one; lia].
  - intros H0 Hb. unfold in_user. apply orb_true_iff. left. rewrite andb_true_iff, !Z.leb_le.
    assert (u64 (s + u64 (-1)) = s - 1) as ->; [|lia].
    unfold u64. rewrite Zplus_mod_idemp_r. apply Z.mod_small. lia.
Qed.

(** A process with a page of code and a page of stack; blocks of both. *)
Definition demo_proc : proc := set_p_stksz 4096 (set_p_sz 4096 zero_proc).
Lemma in_user_bounds_witness :
  (in_user demo_proc 100 8 = true <-> forall a, 100 <= a < 100 + 8 -> user_addr demo_proc a) /\
  (in_user demo_proc (USPACE_TOP - 16) 16 = true <->
     (p_base demo_proc <= USPACE_TOP - 16 /\ USPACE_TOP - 16 + 16 <= p_sz demo_proc) \/
     (USPACE_TOP - p_stksz demo_proc <= USPACE_TOP - 16 /\ USPACE_TOP - 16 + 16 <= USPACE_TOP)) /\
  in_user demo_proc 100 (u64 (-1)) = true.
Proof.
  split_and!.
  - by apply (in_user_bounds demo_proc 100 8).
  - by apply (in_user_bounds demo_proc (USPACE_TOP - 16) 16).
  - by apply (in_user_bounds demo_proc 100 8).
Defined.

End SysArg.
