(* ===== verification/Exec.v ===== *)
(** * Program loading (src/core/exec.c)

    [execve]: the ELF header and segments of the file are read into a new page
    table, arguments and environment are copied to the new stack, and the
    process is switched to the new image. *)
From S2P Require Import Prelude FsDefines Console BlockIface Inode File PhysMem VirtMem Kernel SysArg.

Module Exec.
Import Inode File PhysMem VirtMem Kernel SysArg.

(** ** ELF structures (fields that are used, at their offsets) *)
Record Elf64_Ehdr : Type := mkEhdr { e_ident : list Z; e_entry : Z; e_phoff : Z; e_phnum : Z }.
Definition sizeof_Ehdr : Z := 64.
Definition decode_Ehdr (d : list Z) : Elf64_Ehdr := mkEhdr (slice 0 16 d) (load 8 24 d) (load 8 32 d) (load 2 56 d).

Record Elf64_Phdr : Type := mkPhdr { ph_type : Z; ph_offset : Z; ph_vaddr : Z; ph_filesz : Z; ph_memsz : Z }.
Definition sizeof_Phdr : Z := 56.
Definition decode_Phdr (d : list Z) : Elf64_Phdr := mkPhdr (load 4 0 d) (load 8 8 d) (load 8 16 d) (load 8 32 d) (load 8 40 d).

Definition PT_LOAD : Z := 1.
Definition ELFCLASS64 : Z := 2.
(** [EI_MAG0..3] and [EI_CLASS] *)
Definition elf_ident_ok (e : Elf64_Ehdr) : bool :=
  bool_decide (take 4 (e_ident e) = [127; 69; 76; 70]) && (e_ident e !!! 4%nat =? ELFCLASS64).

Section exec.
Context {St : Type} (sblock : SuperBlock) (cache : BlockCache St) (uninit : InodeEntry).
Context (mmu : Z -> (Z -> Z) -> Z -> option Z) (vmt : VirtualMemoryTable).
(** What the stack holds where [elf] and [ph] lie. *)
Context (elf0 ph0 : list Z).

(** [auxv]: [AT_PAGESZ] and the page size. *)
Definition auxv : list Z := [6; PAGE_SIZE].
Definition sizeof_auxv : Z := 16.

(** [inodes.read] into a kernel buffer. *)
Definition read_buf (ip : nat) (buf : list Z) (off n : Z) : M (kernel St) (list Z) :=
  r ← oninodes (inode_read sblock cache ip off n); mret (splice 0 r.2 buf).

(** The label [bad]. *)
Definition exec_bad (ctx : nat) (pgdir oldpgdir : Z) (ip : option nat) : M (kernel St) Z :=
  whenM (negb (pgdir =? 0)) (onmem (vm_free vmt pgdir));;
  match ip with
  | Some ip =>
      oninodes (inode_unlock ip);;
      oninodes (inode_put sblock cache (Some ctx) ip);;
      onfs (fbc (bc_end_op cache ctx))
  | None => mret tt
  end;;
  upd_cur (set_p_pgdir oldpgdir);;
  mret (-1).

(** One program header: [None] for [goto bad], otherwise [sz], [base], [first]. *)
Definition load_segment (pgdir : Z) (ip : nat) (ph : Elf64_Phdr) (sz base : Z) (first : bool)
    : M (kernel St) (option (Z * Z * bool)) :=
  if negb (ph_type ph =? PT_LOAD) then mret (Some (sz, base, first))
  else if ph_memsz ph <? ph_filesz ph then mret None
  else if u64 (ph_vaddr ph + ph_memsz ph) <? ph_vaddr ph then mret None
  else
    let '(sz, base) := if first then (ph_vaddr ph, ph_vaddr ph) else (sz, base) in
    if first && negb (base mod PAGE_SIZE =? 0) then mret None
    else
      r ← onmem (uvm_alloc vmt pgdir base 0 sz (u64 (ph_vaddr ph + ph_memsz ph)));
      let sz := u64 r in
      if sz =? 0 then mret None
      else
        uvm_switch pgdir;;
        r ← oninodes (inode_read sblock cache ip (ph_offset ph) (ph_filesz ph));
        uwrites mmu (ph_vaddr ph) r.2;;
        uwrites mmu (u64 (ph_vaddr ph + ph_filesz ph)) (replicate (Z.to_nat (ph_memsz ph - ph_filesz ph)) 0);;
        mret (Some (sz, base, false)).

(** [n] program headers from [off] on; the result is [sz] and [base]. *)
Fixpoint load_segments (n : nat) (pgdir : Z) (ip : nat) (off : Z) (ph : list Z) (sz base : Z) (first : bool)
    : M (kernel St) (option (Z * Z)) :=
  match n with
  | O => mret (Some (sz, base))
  | S n' =>
      ph ← read_buf ip ph off sizeof_Phdr;
      r ← load_segment pgdir ip (decode_Phdr ph) sz base first;
      match r with
      | None => mret None
      | Some (sz, base, first) => load_segments n' pgdir ip (u64 (off + sizeof_Phdr)) ph sz base first
      end
  end.

(** The strings of [argv] or [envp] from entry [i] on are pushed below [sp]; at
    most [fuel] of them. The number of strings and the new [sp]. *)
Fixpoint push_strings (fuel : nat) (pgdir tbl i sp : Z) : M (kernel St) (option (Z * Z)) :=
  match fuel with
  | O => nofuel
  | S fuel' =>
      p ← cur_proc;
      if in_user p (u64 (tbl + 8 * i)) 8 then
        v ← urd64 mmu (u64 (tbl + 8 * i));
        if v =? 0 then mret (Some (i, sp))
        else
          r ← fetchstr mmu v;
          let len := r.1 in
          if len <? 0 then mret None
          else
            let sp := u64 (sp - (len + 1)) in
            c ← onmem (copyout vmt pgdir sp (Some (r.2 ++ [0])) (len + 1));
            if c <? 0 then mret None else push_strings fuel' pgdir tbl (i + 1) sp
      else mret (Some (i, sp))
  end.
Definition push_table (fuel : nat) (pgdir tbl sp : Z) : M (kernel St) (option (Z * Z)) :=
  if tbl =? 0 then mret (Some (0, sp)) else push_strings fuel pgdir tbl 0 sp.

(** [for (; *sp; sp++);] then [sp++]; at most [fuel] characters. *)
Fixpoint skip_string (fuel : nat) (sp : Z) : M (kernel St) Z :=
  match fuel with
  | O => nofuel
  | S fuel' =>
      b ← urd mmu sp;
      if b =? 0 then mret (u64 (sp + 1)) else skip_string fuel' (u64 (sp + 1))
  end.

(** [for (i = n - 1; i >= 0; i--)]: the pointers to the strings at [sp]. *)
Fixpoint point_strings (n : nat) (tbl sp : Z) : M (kernel St) Z :=
  match n with
  | O => mret sp
  | S n' =>
      uwr64 mmu (u64 (tbl + 8 * Z.of_nat n')) sp;;
      sp ← skip_string (S (Z.to_nat (USPACE_TOP - sp))) sp;
      point_strings n' tbl sp
  end.

(** From the strings to the stack pointer and the stack size; [sp] is below
    the strings. [None] is [goto bad]. *)
Definition build_stack (pgdir sp argc envc : Z) : M (kernel St) (option (Z * Z)) :=
  let newsp := round_down (u64 (sp - sizeof_auxv - (envc + argc + 4) * 8)) 16 in
  c ← onmem (copyout vmt pgdir newsp None (u64 (sp - newsp)));
  if c <? 0 then mret None
  else
    uvm_switch pgdir;;
    let newargv := u64 (newsp + 8) in
    let newenvp := u64 (newargv + 8 * (argc + 1)) in
    let newauxv := u64 (newenvp + 8 * (envc + 1)) in
    uwrites mmu newauxv (unwords 8 auxv);;
    sp ← point_strings (Z.to_nat envc) newenvp sp;
    sp ← point_strings (Z.to_nat argc) newargv sp;
    uwr64 mmu newsp argc;;
    let sp := newsp in
    let stksz := round_up (u64 (USPACE_TOP - sp)) (10 * PAGE_SIZE) in
    c ← onmem (copyout vmt pgdir (u64 (USPACE_TOP - stksz)) None (u64 (stksz - (USPACE_TOP - sp))));
    if c <? 0 then mret None
    else
      assert_ (u64 (USPACE_TOP - stksz) <? sp);;
      mret (Some (sp, stksz)).

(** Index of the character after the last slash. *)
Fixpoint last_elem (path : list Z) (cur last : Z) : Z :=
  match path with
  | [] => last
  | c :: path' => last_elem path' (cur + 1) (if c =? 47 then cur + 1 else last)
  end.

(** [path], [argv] and [envp] are user addresses; [fuel] bounds the number of
    strings in each table. *)
Definition execve (fuel : nat) (ctx : nat) (path argv envp : Z) : M (kernel St) Z :=
  s ← fetchstr mmu path;
  if s.1 <? 0 then mret (-1)
  else
    p ← cur_proc;
    let oldpgdir := p_pgdir p in
    pgdir ← onmem (pgdir_init vmt);
    if pgdir =? 0 then exec_bad ctx pgdir oldpgdir None
    else
      onfs (fbc (bc_begin_op cache ctx));;
      o ← oninodes (namei sblock cache uninit s.2 ctx);
      match o with
      | None => onfs (fbc (bc_end_op cache ctx));; exec_bad ctx pgdir oldpgdir None
      | Some ip =>
          oninodes (inode_lock sblock cache ip);;
          elf ← read_buf ip elf0 0 sizeof_Ehdr;
          let elf := decode_Ehdr elf in
          if negb (elf_ident_ok elf) then exec_bad ctx pgdir oldpgdir (Some ip)
          else
            upd_cur (set_p_pgdir pgdir);;
            r ← load_segments (Z.to_nat (e_phnum elf)) pgdir ip (e_phoff elf) ph0 0 0 true;
            match r with
            | None => exec_bad ctx pgdir oldpgdir (Some ip)
            | Some (sz, base) =>
                oninodes (inode_unlock ip);;
                oninodes (inode_put sblock cache (Some ctx) ip);;
                onfs (fbc (bc_end_op cache ctx));;
                uvm_switch oldpgdir;;
                a ← push_table fuel pgdir argv USPACE_TOP;
                match a with
                | None => exec_bad ctx pgdir oldpgdir None
                | Some (argc, sp) =>
                    e ← push_table fuel pgdir envp sp;
                    match e with
                    | None => exec_bad ctx pgdir oldpgdir None
                    | Some (envc, sp) =>
                        st ← build_stack pgdir sp argc envc;
                        match st with
                        | None => exec_bad ctx pgdir oldpgdir None
                        | Some (sp, stksz) =>
                            upd_cur (set_p_pgdir pgdir);;
                            upd_cur (set_p_base base);;
                            upd_cur (set_p_sz sz);;
                            upd_cur (set_p_stksz stksz);;
                            upd_cur (fun p => set_p_tf (set_tf_elr (e_entry elf) (p_tf p)) p);;
                            upd_cur (fun p => set_p_tf (set_tf_sp sp (p_tf p)) p);;
                            uvm_switch oldpgdir;;
                            name ← ureads mmu 16 (u64 (path + last_elem s.2 0 0));
                            upd_cur (set_p_name name);;
                            uvm_switch pgdir;;
                            mret 0
                        end
                    end
                end
            end
      end.

End exec.
End Exec.
