(* ===== verification/Sysfile.v ===== *)
(** * File-system system calls (src/core/sysfile.c)

    Argument checking and the composition of the process, file, inode and
    cache layers. What the kernel prints about rejected arguments is left
    out. *)
From S2P Require Import Prelude FsDefines CString Console BlockIface Inode File PhysMem VirtMem Kernel SysArg Exec.

Module Sysfile.
Import CString Inode File PhysMem VirtMem Kernel SysArg Exec.

Definition AT_FDCWD : Z := -100.
Definition O_WRONLY : Z := 1.
Definition O_RDWR : Z := 2.
Definition O_CREAT : Z := 64.
Definition sizeof_iovec : Z := 16.
Definition sizeof_stat : Z := 128.

Section sysfile.
Context {St : Type} (sblock : SuperBlock) (cache : BlockCache St) (uninit : InodeEntry).
Context (mmu : Z -> (Z -> Z) -> Z -> option Z) (vmt : VirtualMemoryTable).
(** What the stack holds where [elf], [ph] and an uninitialised [name] lie. *)
Context (elf0 ph0 name0 : list Z).
(** The address of the [OpContext] of the running system call; a routine it
    calls has its own in its own frame. *)
Context (ctx : nat).
Definition callee_ctx : nat := S ctx.

Definition begin_op : M (kernel St) unit := onfs (fbc (bc_begin_op cache ctx)).
Definition end_op : M (kernel St) unit := onfs (fbc (bc_end_op cache ctx)).
Definition ilock (ip : nat) : M (kernel St) unit := oninodes (inode_lock sblock cache ip).
Definition iunlock (ip : nat) : M (kernel St) unit := oninodes (inode_unlock ip).
Definition iput (ip : nat) : M (kernel St) unit := oninodes (inode_put sblock cache (Some ctx) ip).
Definition isync (ip : nat) (b : bool) : M (kernel St) unit := oninodes (inode_sync sblock cache (Some ctx) ip b).
Definition ientry (ip : nat) : M (kernel St) InodeEntry := i ← oninodes (get_inode ip); mret (i_entry i).
Definition inum (ip : nat) : M (kernel St) Z := i ← oninodes (get_inode ip); mret (i_inode_no i).
Definition kupd_entry (ip : nat) (f : InodeEntry -> InodeEntry) : M (kernel St) unit := oninodes (upd_entry ip f).

(** The descriptor and the file; [None] is the result -1. *)
Definition argfd (n : Z) : M (kernel St) (option (Z * nat)) :=
  fd ← argint n;
  match fd with
  | None => mret None
  | Some fd =>
      p ← cur_proc;
      if (fd <? 0) || (NOFILE <=? fd) then mret None
      else match p_ofile p !! Z.to_nat fd with
           | Some (Some f) => mret (Some (fd, f))
           | _ => mret None
           end
  end.

Definition fdalloc (f : nat) : M (kernel St) Z :=
  r ← forM (Z.to_nat NOFILE) 0 1 (fun i =>
        p ← cur_proc;
        match p_ofile p !! Z.to_nat i with
        | Some (Some _) => mret None
        | _ =>
            upd_cur (fun p => set_p_ofile (<[Z.to_nat i := Some f]> (p_ofile p)) p);;
            mret (Some i)
        end);
  mret (default (-1) r).

Definition sys_dup : M (kernel St) Z :=
  a ← argfd 0;
  match a with
  | None => mret (-1)
  | Some (_, f) =>
      fd ← fdalloc f;
      if fd <? 0 then mret (-1) else onfs (filedup f);; mret fd
  end.

(** The first three checks of [sys_read] and [sys_write]: file, address,
    length. *)
Definition arg_rw : M (kernel St) (option (nat * Z * Z)) :=
  a ← argfd 0;
  match a with
  | None => mret None
  | Some (_, f) =>
      n ← argint 2;
      match n with
      | None => mret None
      | Some n =>
          addr ← argptr 1 (u64 n);
          match addr with
          | None => mret None
          | Some addr => mret (Some (f, addr, n))
          end
      end
  end.

Definition sys_read : M (kernel St) Z :=
  a ← arg_rw;
  match a with
  | None => mret (-1)
  | Some (f, addr, n) =>
      r ← onfiles (fileread sblock cache f n);
      uwrites mmu addr r.2;;
      mret r.1
  end.

(** [filewrite(f, addr, n)]: it reads the buffer only if the file is open for
    writing. *)
Definition filewrite_user (f : nat) (addr n : Z) : M (kernel St) Z :=
  x ← onfs (get_file f);
  src ← (if f_writable x =? 0 then mret [] else ureads mmu (Z.to_nat n) addr);
  onfiles (filewrite sblock cache ctx f src n).

Definition sys_write : M (kernel St) Z :=
  a ← arg_rw;
  match a with
  | None => mret (-1)
  | Some (f, addr, n) => filewrite_user f addr n
  end.

(** The buffers of the vector are not checked. *)
Fixpoint writev_loop (n : nat) (f : nat) (p tot : Z) : M (kernel St) Z :=
  match n with
  | O => mret tot
  | S n' =>
      base ← urd64 mmu p;
      len ← urd64 mmu (u64 (p + 8));
      r ← filewrite_user f base (i64 len);
      writev_loop n' f (u64 (p + sizeof_iovec)) (u64 (tot + u64 r))
  end.

Definition sys_writev : M (kernel St) Z :=
  a ← argfd 0;
  match a with
  | None => mret (-1)
  | Some (_, f) =>
      iovcnt ← argint 2;
      match iovcnt with
      | None => mret (-1)
      | Some iovcnt =>
          iov ← argptr 1 (u64 (u64 iovcnt * sizeof_iovec));
          match iov with
          | None => mret (-1)
          | Some iov => tot ← writev_loop (Z.to_nat iovcnt) f iov 0; mret (i64 tot)
          end
      end
  end.

(** [argfd] stores 8 bytes through the address of a 4-byte [fd]; here [fd] has
    the value stored. *)
Definition sys_close : M (kernel St) Z :=
  a ← argfd 0;
  match a with
  | None => mret (-1)
  | Some (fd, f) =>
      upd_cur (fun p => set_p_ofile (<[Z.to_nat fd := None]> (p_ofile p)) p);;
      onfiles (fileclose sblock cache callee_ctx f);;
      mret 0
  end.

(** The fields that [stati] sets, in [struct stat] at [a]. *)
Definition put_stat (a : Z) (st : stat) : M (kernel St) unit :=
  uwr64 mmu a (st_dev st);;
  uwr64 mmu (u64 (a + 8)) (st_ino st);;
  uwrites mmu (u64 (a + 16)) (le_bytes 4 (st_mode st));;
  uwrites mmu (u64 (a + 20)) (le_bytes 4 (st_nlink st));;
  uwr64 mmu (u64 (a + 48)) (st_size st).

Definition sys_fstat : M (kernel St) Z :=
  a ← argfd 0;
  match a with
  | None => mret (-1)
  | Some (_, f) =>
      st ← argptr 1 sizeof_stat;
      match st with
      | None => mret (-1)
      | Some st =>
          r ← onfiles (filestat sblock cache f);
          match r.2 with Some v => put_stat st v | None => mret tt end;;
          mret r.1
      end
  end.

Definition sys_fstatat : M (kernel St) Z :=
  dirfd ← argint 0;
  path ← arg_path mmu 1;
  st ← argptr 2 sizeof_stat;
  flags ← argint 3;
  match dirfd, path, st, flags with
  | Some dirfd, Some path, Some st, Some flags =>
      if negb (dirfd =? AT_FDCWD) then mret (-1)
      else if negb (flags =? 0) then mret (-1)
      else
        begin_op;;
        o ← oninodes (namei sblock cache uninit path ctx);
        match o with
        | None => end_op;; mret (-1)
        | Some ip =>
            ilock ip;;
            v ← oninodes (stati ip);
            put_stat st v;;
            iunlock ip;;
            iput ip;;
            end_op;;
            mret 0
        end
  | _, _, _, _ => mret (-1)
  end.

Definition namecmp (s t : list Z) : Z := strncmp s t (Z.to_nat FILE_NAME_MAX_LENGTH).

(** The label [bad] of [sys_unlink]. *)
Definition unlink_bad (dp : nat) : M (kernel St) Z := iunlock dp;; iput dp;; end_op;; mret (-1).

Definition sys_unlink : M (kernel St) Z :=
  path ← arg_path mmu 0;
  match path with
  | None => mret (-1)
  | Some path =>
      begin_op;;
      r ← oninodes (nameiparent sblock cache uninit path name0 ctx);
      match r with
      | (None, _) => end_op;; mret (-1)
      | (Some dp, name) =>
          ilock dp;;
          if (namecmp name [46; 0] =? 0) || (namecmp name [46; 46; 0] =? 0) then unlink_bad dp
          else
            l ← oninodes (inode_lookup sblock cache dp name);
            let '(no, off) := l in
            ip ← oninodes (inode_get sblock uninit no);
            ilock ip;;
            e ← ientry ip;
            assert_ (negb (ie_num_links e <? 1));;
            empty ← (if ie_type e =? INODE_DIRECTORY then oninodes (inode_empty sblock cache ip) else mret true);
            if negb empty then iunlock ip;; iput ip;; unlink_bad dp
            else
              w ← oninodes (inode_write sblock cache (Some ctx) dp (replicate 16 0) (u64 (off * sizeof_DirEntry)));
              assert_ (w =? sizeof_DirEntry);;
              whenM (ie_type e =? INODE_DIRECTORY)
                (kupd_entry dp (fun e => set_ie_num_links (u16 (ie_num_links e - 1)) e);; isync dp true);;
              iunlock dp;;
              iput dp;;
              kupd_entry ip (fun e => set_ie_num_links (u16 (ie_num_links e - 1)) e);;
              isync ip true;;
              iunlock ip;;
              iput ip;;
              end_op;;
              mret 0
      end
  end.

Definition set_ie_devnum (major minor : Z) (e : InodeEntry) : InodeEntry :=
  mkInodeEntry (ie_type e) major minor (ie_num_links e) (ie_num_bytes e) (ie_addrs e) (ie_indirect e).

(** Returns the inode, locked; [None] is the null pointer. *)
Definition create (path : list Z) (type major minor : Z) : M (kernel St) (option nat) :=
  r ← oninodes (nameiparent sblock cache uninit path (replicate 14 0) ctx);
  match r with
  | (None, _) => mret None
  | (Some dp, name) =>
      ilock dp;;
      dno ← inum dp;
      let gno := u32 (u32 dno - 1) / (NINODES / NGROUPS) in
      l ← oninodes (inode_lookup sblock cache dp name);
      if negb (l.1 =? 0) then
        ip ← oninodes (inode_get sblock uninit l.1);
        iunlock dp;;
        iput dp;;
        ilock ip;;
        e ← ientry ip;
        if (type =? INODE_REGULAR) && (ie_type e =? INODE_REGULAR) then mret (Some ip)
        else iunlock ip;; iput ip;; mret None
      else
        no ← oninodes (inode_alloc_group sblock cache (Some ctx) (u16 type) gno);
        no ← (if no =? 0 then
                no ← oninodes (inode_alloc sblock cache (Some ctx) (u16 type));
                assert_ (negb (no =? 0));;
                mret no
              else mret no);
        ip ← oninodes (inode_get sblock uninit no);
        ilock ip;;
        kupd_entry ip (set_ie_devnum (u16 major) (u16 minor));;
        kupd_entry ip (set_ie_num_links 1);;
        isync ip true;;
        no ← inum ip;
        whenM (type =? INODE_DIRECTORY)
          (kupd_entry dp (fun e => set_ie_num_links (u16 (ie_num_links e + 1)) e);;
           isync dp false;;
           oninodes (inode_insert sblock cache (Some ctx) ip [46; 0] no);;
           oninodes (inode_insert sblock cache (Some ctx) ip [46; 46; 0] dno);;
           mret tt);;
        oninodes (inode_insert sblock cache (Some ctx) dp name no);;
        iunlock dp;;
        iput dp;;
        mret (Some ip)
  end.

(** The file of a new descriptor. *)
Definition open_file (ip : nat) (omode : Z) (x : File) : File :=
  mkFile FD_INODE (f_ref x)
    (if Z.land omode O_WRONLY =? 0 then 1 else 0)
    (if (Z.land omode O_WRONLY =? 0) && (Z.land omode O_RDWR =? 0) then 0 else 1)
    (f_pipe x) ip 0.

Definition sys_openat : M (kernel St) Z :=
  dirfd ← argint 0;
  path ← arg_path mmu 1;
  omode ← argint 2;
  match dirfd, path, omode with
  | Some dirfd, Some path, Some omode =>
      if negb (dirfd =? AT_FDCWD) then mret (-1)
      else
        begin_op;;
        o ← (if negb (Z.land omode O_CREAT =? 0) then create path INODE_REGULAR 0 0
             else
               o ← oninodes (namei sblock cache uninit path ctx);
               match o with
               | None => mret None
               | Some ip => ilock ip;; mret (Some ip)
               end);
        match o with
        | None => end_op;; mret (-1)
        | Some ip =>
            f ← onfs filealloc;
            fd ← match f with None => mret (-1) | Some f => fdalloc f end;
            match f with
            | Some f' =>
                if fd <? 0 then
                  onfiles (fileclose sblock cache callee_ctx f');;
                  iunlock ip;; iput ip;; end_op;; mret (-1)
                else
                  iunlock ip;;
                  end_op;;
                  onfs (upd_file f' (open_file ip omode));;
                  mret fd
            | None => iunlock ip;; iput ip;; end_op;; mret (-1)
            end
        end
  | _, _, _ => mret (-1)
  end.

(** [create], then the inode is given back. *)
Definition create_and_put (path : list Z) (type major minor : Z) : M (kernel St) Z :=
  begin_op;;
  o ← create path type major minor;
  match o with
  | None => end_op;; mret (-1)
  | Some ip => iunlock ip;; iput ip;; end_op;; mret 0
  end.

Definition sys_mkdirat : M (kernel St) Z :=
  dirfd ← argint 0;
  path ← arg_path mmu 1;
  mode ← argint 2;
  match dirfd, path, mode with
  | Some dirfd, Some path, Some mode =>
      if negb (dirfd =? AT_FDCWD) then mret (-1)
      else if negb (mode =? 0) then mret (-1)
      else create_and_put path INODE_DIRECTORY 0 0
  | _, _, _ => mret (-1)
  end.

Definition sys_mknodat : M (kernel St) Z :=
  dirfd ← argint 0;
  path ← arg_path mmu 1;
  major ← argint 2;
  minor ← argint 3;
  match dirfd, path, major, minor with
  | Some dirfd, Some path, Some major, Some minor =>
      if negb (dirfd =? AT_FDCWD) then mret (-1)
      else create_and_put path INODE_DEVICE (i16 major) (i16 minor)
  | _, _, _, _ => mret (-1)
  end.

Definition sys_chdir : M (kernel St) Z :=
  begin_op;;
  path ← arg_path mmu 0;
  o ← match path with
      | None => mret None
      | Some path => oninodes (namei sblock cache uninit path ctx)
      end;
  match o with
  | None => end_op;; mret (-1)
  | Some ip =>
      ilock ip;;
      e ← ientry ip;
      if negb (ie_type e =? INODE_DIRECTORY) then iunlock ip;; iput ip;; end_op;; mret (-1)
      else
        iunlock ip;;
        p ← cur_proc;
        cwd ← from_option_M (p_cwd p);
        iput cwd;;
        end_op;;
        upd_cur (set_p_cwd (Some ip));;
        mret 0
  end.

Definition sys_exec (fuel : nat) : M (kernel St) Z :=
  r ← argstr mmu 0;
  if r.1.1 <? 0 then mret (-1)
  else
    argv ← argu64 1;
    envp ← argu64 2;
    match argv, envp with
    | Some argv, Some envp => execve sblock cache uninit mmu vmt elf0 ph0 fuel callee_ctx r.1.2 argv envp
    | _, _ => mret (-1)
    end.

End sysfile.
End Sysfile.
