(* ===== verification/Create.v ===== *)
(** * Creating a file ([create] of src/core/sysfile.c)

    [create] on the whole file system: the path of the parent directory, the
    name in it, a free inode, and its entry in the directory. *)
From S2P Require Import Prelude FsDefines CString BlockIface Inode InodeFacts InodeDisk InodeFile DirFacts Namei Tree File Kernel Sysfile.

Module Create.
Import CString Inode InodeFacts InodeDisk InodeFile DirFacts Namei Tree File Kernel Sysfile.

(** ** The inodes of the kernel *)
Section lift.
Context {St : Type}.

Definition k_inodes (k : kernel St) : istate St := fs_is (k_fs k).
Definition with_inodes (s : istate St) (k : kernel St) : kernel St := set_k_fs (set_fs_is s (k_fs k)) k.

(** The inode layer as the process [p] uses it. *)
Definition at_proc (p : proc) (s : istate St) : istate St :=
  mkIstate (is_cache s) (is_objs s) (is_next s) (is_head s) (is_lock s) (is_con s) (default (is_next s) (p_cwd p)) (p_killed p).

Lemma with_inodes_id k : with_inodes (k_inodes k) k = k.
Proof. by destruct k as [? ? ? ? ? ? ? [[]] ? ? ?]. Qed.

Lemma cur_proc_with p s k : cur_proc k = Ok (p, k) -> cur_proc (with_inodes s k) = Ok (p, with_inodes s k).
Proof.
  unfold cur_proc, this_proc, get_proc, get_cont, mbind, M_bind, gets. simpl.
  destruct (k_proc k) as [q|]; simpl; [|done]. destruct (k_conts k !! q.1) as [x|]; simpl; [|done].
  destruct (s_ptable (c_sched x) !! q.2); simpl; [|done]. by intros [= ->].
Qed.

Lemma wp_inodes {A C} (m : M (istate St) A) (f : A -> M (kernel St) C) Q p s k :
  cur_proc k = Ok (p, k) -> wp m (fun a s' => wp (f a) Q (with_inodes s' k)) (at_proc p s) ->
  wp (oninodes m ≫= f) Q (with_inodes s k).
Proof.
  intros Hp Hm. apply wp_bind. unfold oninodes, onfiles. apply wp_bind. unfold wp at 1. rewrite (cur_proc_with p s k Hp).
  apply wp_lift. apply wp_bind, wp_lift. unfold ino. apply wp_modify, wp_lift. exact Hm.
Qed.
End lift.

Section steps.
Context {St : Type} (sb : SuperBlock) (B : BlockCache St) {Hspec : BlockCacheSpec sb B}.
Context (Hlay : inode_layout sb) (uninit : InodeEntry) (ctx : nat).
Context (p : proc) (k : kernel St) (Hp : cur_proc k = Ok (p, k)).
Implicit Types (s : istate St) (c : St).

#[local] Abbreviation disk_inode := (disk_inode sb B).
#[local] Abbreviation fs_ok := (fs_ok sb B).

Lemma fs_ok_at L s : fs_ok L s -> fs_ok L (at_proc p s).
Proof.
  intros [[Hq [] Hl He Hd] Hs Hu]. split; [split; [exact Hq|by split|exact Hl|exact He|exact Hd]|exact Hs|exact Hu].
Qed.

(** [s'] is [s] but for locks, what is loaded, and the objects in [ps]. *)
Record same_tree s s' : Prop := {
  sm_calm : calm sb B (is_cache s) (is_cache s');
  sm_refs : forall j, refs s' j = refs s j
}.

(** The object at [ip] is inode [ino]; it is loaded. *)
Definition object s (ip : nat) (ino : Z) (valid : bool) : Prop :=
  exists i, is_objs s !! ip = Some i /\ i_inode_no i = ino /\ i_valid i = valid.
Definition holds s (ip : nat) (ino : Z) : Prop := object s ip ino true.

Lemma object_refs L s q j b : fs_ok L s -> object s q j b -> 0 < refs s j.
Proof.
  intros Hs (x & Hx & <- & _). pose proof (to_table _ _ _ _ (fk_tree _ _ _ _ Hs)) as Ht.
  rewrite (refs_at s q x Ht Hx). exact (it_rc s Ht q x Hx).
Qed.

Lemma lock_k {C} L s ip i (f : unit -> M (kernel St) C) Q :
  fs_ok L s -> ip ∉ L -> is_objs s !! ip = Some i ->
  (forall s', fs_ok ({[ip]} ∪ L) s' -> same_tree s s' -> holds s' ip (i_inode_no i) ->
     (forall q j b, q <> ip -> object s q j b -> object s' q j b) -> wp (f tt) Q (with_inodes s' k)) ->
  wp (ilock sb B ip ≫= f) Q (with_inodes s k).
Proof using Hlay Hp.
  intros Hs HL Hip HQ. apply (wp_inodes _ _ _ p); [done|]. pose proof (fs_ok_at L s Hs) as Hs'.
  eapply wp_mono; [apply (lock_ok sb B Hlay L (at_proc p s) ip i (fk_tree _ _ _ _ Hs') HL Hip (object_used _ _ L _ ip i Hs' Hip))|].
  intros [] s' (c' & Hc & ->). pose proof (to_table _ _ _ _ (fk_tree _ _ _ _ Hs)) as Ht.
  assert (forall j, refs (upd_object ip (locked sb B (is_cache s) i) (set_is_cache c' (at_proc p s))) j = refs s j) as Hr.
  { intros j. rewrite (refs_upd (set_is_cache c' (at_proc p s)) ip i); [|by destruct Ht|done|done|exact (it_rc s Ht ip i Hip)].
    case_decide as E; [|done]. rewrite E. symmetry. apply (refs_at s ip i Ht Hip). }
  apply HQ.
  - apply (fs_ok_calm sb B Hlay L _ (at_proc p s)); [done|exact Hc| |]; [|intros j Hj; left; intros E; apply Hj; by rewrite Hr].
    by apply (locked_ok sb B Hlay L (at_proc p s)); [apply Hs'|..].
  - split; [exact Hc|exact Hr].
  - eexists. split; [apply lookup_insert_eq|done].
  - intros q j b Hq (x & Hx & ? & ?). exists x. split; [|done]. simpl. by rewrite lookup_insert_ne.
Qed.

Lemma unlock_put_k {C} L s ip ino (f : unit -> M (kernel St) C) Q :
  fs_ok L s -> ip ∈ L -> holds s ip ino -> live sb B (is_cache s) ino ->
  (forall s', fs_ok (L ∖ {[ip]}) s' -> is_cache s' = is_cache s -> (forall j, refs s' j = refs s j - one ino j) ->
     (forall q j b, q <> ip \/ 1 < refs s ino -> object s q j b -> object s' q j b) -> wp (f tt) Q (with_inodes s' k)) ->
  wp (iunlock ip ≫= fun _ => iput sb B ctx ip ≫= f) Q (with_inodes s k).
Proof using Hp Hlay.
  intros Hs HL (i & Hip & Hno & Hv) Hli HQ. subst ino. pose proof (fs_ok_at L s Hs) as Hs'. pose proof (to_table _ _ _ _ (fk_tree _ _ _ _ Hs)) as Ht.
  apply (wp_inodes _ _ _ p); [done|]. apply (unlock_step sb B Hlay L (at_proc p s) ip i); [apply Hs'|done|done|]. intros Ht1.
  set (s1 := upd_object ip (set_i_lock false i) (at_proc p s)) in *. change (tree_ok sb B (L ∖ {[ip]}) s1) in Ht1.
  assert (forall j, refs s1 j = refs s j) as Hr1.
  { intros j. unfold s1. rewrite (refs_upd (at_proc p s) ip i); [|by destruct Ht|done|done|exact (it_rc s Ht ip i Hip)].
    case_decide as E; [|done]. rewrite E. symmetry. apply (refs_at s ip i Ht Hip). }
  assert (fs_ok (L ∖ {[ip]}) s1) as Hs1.
  { apply (fs_ok_calm sb B Hlay L _ s); [done|apply calm_refl, (fk_tree _ _ _ _ Hs)|done|]. intros j Hj. left. by rewrite <- Hr1. }
  pose proof (fs_ok_at _ s1 Hs1) as Hs1'. apply (wp_inodes _ _ _ p); [done|].
  assert (is_objs (at_proc p s1) !! ip = Some (set_i_lock false i)) as Hip1 by apply lookup_insert_eq.
  eapply wp_mono; [apply (put_step sb B _ (at_proc p s1) (Some ctx) ip (set_i_lock false i) (fk_tree _ _ _ _ Hs1') Hip1)|].
  - right. simpl. rewrite (to_entry _ _ _ _ (fk_tree _ _ _ _ Hs) ip i Hip Hv). apply Hli.
  - intros [] s2 (Ht2 & Hc2 & _ & Hr2 & Hk2). change (is_cache (at_proc p s1)) with (is_cache s) in Hc2.
    assert (forall j, refs s2 j = refs s j - one (i_inode_no i) j) as Hr by (intros j; rewrite Hr2; exact (f_equal (fun x => x - _) (Hr1 j))).
    apply HQ; [|done|exact Hr|].
    + apply (fs_ok_calm sb B Hlay (L ∖ {[ip]}) _ s1); [done|rewrite Hc2; apply calm_refl, (fk_tree _ _ _ _ Hs1)|done|].
      intros j Hj. destruct (decide (refs s1 j = 0)) as [E|E]; [right|by left]. exfalso. apply Hj. rewrite Hr, <- Hr1, E. unfold one.
      case_decide as Ej; [|done]. subst j. rewrite Hr1, (refs_at s ip i Ht Hip) in E. pose proof (it_rc s Ht ip i Hip). lia.
    + intros q j b Hq (x & Hx & Hxn & Hxv).
      assert (exists x1, is_objs (at_proc p s1) !! q = Some x1 /\ i_inode_no x1 = j /\ i_valid x1 = b /\ (q = ip -> 1 < i_rc x1)) as (x1 & Hx1 & Hn1 & Hv1 & Hrc1).
      { destruct (decide (q = ip)) as [->|Hne].
        - assert (x = i) as -> by congruence. exists (set_i_lock false i). split_and!; [done|done|done|]. intros _.
          destruct Hq as [|Hq]; [done|]. by rewrite (refs_at s ip i Ht Hip) in Hq.
        - exists x. split_and!; [simpl; by rewrite lookup_insert_ne|done|done|done]. }
      destruct (Hk2 q x1 Hx1 Hrc1) as (x2 & Hx2 & Hn2 & Hv2 & _). exists x2. split_and!; [done|congruence|congruence].
Qed.

Lemma get_k {C} L s ino (f : nat -> M (kernel St) C) Q :
  fs_ok L s -> (forall q, q ∈ L -> exists j, holds s q j) -> used sb B (is_cache s) ino ->
  (forall q s', fs_ok L s' -> is_cache s' = is_cache s -> (forall j, refs s' j = refs s j + one ino j) ->
     (exists b, object s' q ino b) -> (forall r j, holds s r j -> holds s' r j) ->
     wp (f q) Q (with_inodes s' k)) ->
  wp (oninodes (inode_get sb uninit ino) ≫= f) Q (with_inodes s k).
Proof using Hp Hlay.
  intros Hs HL Hu HQ. pose proof (fs_ok_at L s Hs) as Hs'. apply (wp_inodes _ _ _ p); [done|].
  eapply wp_mono; [apply (get_step sb B uninit L (at_proc p s) ino (fk_tree _ _ _ _ Hs')); [|apply Hu]|].
  - intros q Hq. destruct (HL q Hq) as (j & i & Hi & _). by exists i.
  - intros q s' (Ht & Hc & _ & Hex & Hr & Hk). apply (HQ q s'); [|done|exact Hr| |].
    + apply (fs_ok_calm sb B Hlay L _ s); [done|rewrite Hc; apply calm_refl, (fk_tree _ _ _ _ Hs)|done|].
      intros j Hj. change (is_cache (at_proc p s)) with (is_cache s) in Hc. rewrite Hr in Hj. change (refs (at_proc p s) j) with (refs s j) in Hj.
      unfold one in Hj. case_decide as E; [right; by subst|left; lia].
    + destruct Hex as (i & Hi & Hno). by exists (i_valid i), i.
    + intros r j (x & Hx & Hxn & Hxv). destruct (Hk r x Hx I) as (x' & Hx' & Hn' & Hv' & _). exists x'. split_and!; [done|congruence|congruence].
Qed.

Lemma lookup_k {C} L s ip ino name (f : Z * Z -> M (kernel St) C) Q :
  fs_ok L s -> holds s ip ino -> live sb B (is_cache s) ino -> is_dir sb B (is_cache s) ino -> length name = 14%nat ->
  (forall r s', r.1 = lookup_in sb B (is_cache s) ino name -> fs_ok L s' -> same_tree s s' -> is_objs s' = is_objs s ->
     wp (f r) Q (with_inodes s' k)) ->
  wp (oninodes (inode_lookup sb B ip name) ≫= f) Q (with_inodes s k).
Proof using Hp Hlay.
  intros Hs (i & Hip & <- & Hv) Hli Hd Hn HQ. pose proof (fs_ok_at L s Hs) as Hs'. apply (wp_inodes _ _ _ p); [done|].
  eapply wp_mono; [by apply (lookup_step sb B Hlay L (at_proc p s) ip i name (fk_tree _ _ _ _ Hs') Hip Hv)|].
  intros r s' (Hr & c' & Hc & ->). apply HQ; [done| |by split|done].
  apply (fs_ok_calm sb B Hlay L _ (at_proc p s)); [done|done|apply tree_ok_calm; [apply Hs'|done]|by left].
Qed.

Lemma entry_k {C} L s ip ino (f : InodeEntry -> M (kernel St) C) Q :
  fs_ok L s -> holds s ip ino -> wp (f (disk_inode (is_cache s) ino)) Q (with_inodes (at_proc p s) k) ->
  wp (ientry ip ≫= f) Q (with_inodes s k).
Proof using Hp.
  intros Hs (i & Hip & <- & Hv) HQ. unfold ientry. apply wp_bind. apply (wp_inodes _ _ _ p); [done|].
  unfold get_inode. apply wp_bind, wp_gets. simpl. rewrite Hip. apply wp_ret, wp_ret.
  by rewrite (to_entry _ _ _ _ (fk_tree _ _ _ _ Hs) ip i Hip Hv).
Qed.

Lemma inum_k {C} s ip ino (f : Z -> M (kernel St) C) Q :
  holds s ip ino -> wp (f ino) Q (with_inodes (at_proc p s) k) -> wp (inum ip ≫= f) Q (with_inodes s k).
Proof using Hp.
  intros (i & Hip & <- & Hv) HQ. unfold inum. apply wp_bind. apply (wp_inodes _ _ _ p); [done|].
  unfold get_inode. apply wp_bind, wp_gets. simpl. rewrite Hip. by apply wp_ret, wp_ret.
Qed.

(** *** Taking a free inode *)
Lemma alloc_k {C} L s type gno ns j (f : Z -> M (kernel St) C) Q :
  fs_ok L s -> 0 < type < 2 ^ 16 -> type <> INODE_DIRECTORY -> 0 <= gno < NGROUPS ->
  bk_room (is_cache s) (Some ctx) ns (1 + j) -> 0 <= j ->
  (exists ino, 1 <= ino <= num_inodes sb /\ ie_type (disk_inode (is_cache s) ino) = INODE_INVALID) ->
  (forall no s', fs_ok L s' -> 1 <= no <= num_inodes sb -> took_inode sb B (is_cache s) (is_cache s') type no ->
     bk_room (is_cache s') (Some ctx) (to_block_no sb no :: ns) j -> is_objs s' = is_objs s -> (forall i, refs s' i = refs s i) ->
     wp (f no) Q (with_inodes s' k)) ->
  wp (no ← oninodes (inode_alloc_group sb B (Some ctx) type gno);
      no ← (if no =? 0 then no ← oninodes (inode_alloc sb B (Some ctx) type); assert_ (negb (no =? 0));; mret no else mret no);
      f no) Q (with_inodes s k).
Proof using Hp Hlay.
  intros Hs Hty Hnd Hg Hr Hj Hfree HQ. pose proof (fs_ok_at L s Hs) as Hs'.
  assert (forall c' no, quiet sb B c' -> 1 <= no <= num_inodes sb -> took_inode sb B (is_cache s) c' type no ->
    bk_room c' (Some ctx) (to_block_no sb no :: ns) j -> forall s1, is_objs s1 = is_objs s -> is_cache s1 = is_cache s -> fs_ok L s1 -> (forall i, refs s1 i = refs s i) ->
    wp (f no) Q (with_inodes (set_is_cache c' s1) k)) as Hgo.
  { intros c' no Hq Hno Ht Hr' s1 Ho1 Hc1 Hs1 Hr1. apply (HQ no (set_is_cache c' s1)); try done.
    apply (fs_ok_took sb B Hlay L s1 c' type no); try done. by rewrite Hc1. }
  apply (wp_inodes _ _ _ p); [done|].
  eapply wp_mono; [apply (inode_alloc_group_ok sb B (at_proc p s) (Some ctx) type gno ns j Hlay); try done; apply (fk_tree _ _ _ _ Hs')|].
  intros no s' (c' & -> & Hq & H). rewrite (proj2 (Z.eqb_neq _ _) Hnd) in H. destruct H as [(-> & Hc & _)|(Hno & Ht & Hr' & _)].
  - simpl Z.eqb. cbv iota. apply wp_bind. apply (wp_inodes _ _ _ p); [done|]. change (is_cache (at_proc p s)) with (is_cache s) in Hc.
    eapply wp_mono; [apply (inode_alloc_ok sb B (at_proc p (set_is_cache c' (at_proc p s))) (Some ctx) type ns j Hlay); try done; apply Hc; done|].
    intros no s' (c2 & -> & Hq2 & [(-> & _ & Hall)|(Hno & Ht & Hr2 & _)]).
    + destruct Hfree as (ino & Hi & Hty0). simpl in Hall. destruct (Hall ino Hi). rewrite <- Hty0.
      exact (f_equal ie_type (calm_disk_inode sb B _ _ ino Hc)).
    + apply wp_bind, wp_assert; [apply negb_true_iff, Z.eqb_neq; lia|]. apply wp_ret.
      apply (Hgo c2 no Hq2 Hno (took_calm sb B _ _ _ _ _ Hc Ht) Hr2 (at_proc p (at_proc p s))); [done|done|by do 2 apply fs_ok_at|done].
  - rewrite (proj2 (Z.eqb_neq no 0)) by lia. apply wp_bind, wp_ret.
    apply (Hgo c' no Hq ltac:(lia) Ht Hr' (at_proc p s)); [done|done|by apply fs_ok_at|done].
Qed.

(** *** Filling in the new inode *)
Lemma new_entry_k {C} L s ip ino f1 f2 e2 ns j (f : unit -> M (kernel St) C) Q :
  fs_ok L s -> holds s ip ino -> 1 <= ino <= num_inodes sb -> ~ live sb B (is_cache s) ino ->
  e2 = f2 (f1 (disk_inode (is_cache s) ino)) ->
  InodeEntry_wf e2 -> ie_type e2 <> INODE_INVALID -> ie_type e2 <> INODE_DIRECTORY ->
  ie_addrs e2 = replicate 12 0 -> ie_indirect e2 = 0 -> ie_num_bytes e2 = 0 ->
  bk_room (is_cache s) (Some ctx) ns j -> 0 <= j -> to_block_no sb ino ∈ ns ->
  (forall s', fs_ok L s' -> (forall q i, holds s q i -> holds s' q i) -> (forall i, refs s' i = refs s i) ->
     one_changed sb B (is_cache s) (is_cache s') ino -> disk_inode (is_cache s') ino = e2 ->
     (forall n, bk_alloced (is_cache s') n = bk_alloced (is_cache s) n) -> bk_room (is_cache s') (Some ctx) ns j ->
     wp (f tt) Q (with_inodes s' k)) ->
  wp (kupd_entry ip f1;; kupd_entry ip f2;; isync sb B ctx ip true ≫= f) Q (with_inodes s k).
Proof using Hp Hlay.
  intros Hs (i & Hip & Hno & Hv) Hino Hnl He2 Hwf Ht1 Ht2 Had Hin Hnb Hr Hj Hns HQ. pose proof (fs_ok_at L s Hs) as Hs'.
  pose proof (to_entry _ _ _ _ (fk_tree _ _ _ _ Hs) ip i Hip Hv) as Hei. rewrite Hno in Hei.
  apply (wp_inodes _ _ _ p); [done|]. apply (wp_upd_entry (at_proc p s) ip i); [done|].
  apply (wp_inodes _ _ _ p); [done|]. apply (wp_upd_entry _ ip (set_i_entry (f1 (i_entry i)) i)); [apply lookup_insert_eq|].
  simpl i_entry. rewrite Hei, <- He2. set (s1 := at_proc p (with_entry _ _ _ _ _)).
  assert (with_entry s1 ip (set_i_entry (f1 (disk_inode (is_cache s) ino)) i) (is_cache s1) e2 = with_entry s1 ip i (is_cache s) e2) as Hw.
  { unfold with_entry. simpl. by rewrite !insert_insert_eq. }
  rewrite Hw. clear Hw. apply (wp_inodes _ _ _ p); [done|].
  assert (at_proc p (with_entry s1 ip i (is_cache s) e2) = with_entry (at_proc p s1) ip i (is_cache s) e2) as -> by done.
  eapply wp_mono; [apply (sync_write_ok sb B Hlay (with_entry (at_proc p s1) ip i (is_cache s) e2) (Some ctx) ip (set_i_entry e2 i) ns j);
    simpl; rewrite ?Hno; try done; [apply (fk_tree _ _ _ _ Hs)|apply lookup_insert_eq]|].
  intros [] s' (c' & -> & Hq & Hvw & Ha & Hr'). simpl in Hvw, Ha. rewrite Hno in Hvw.
  assert (forall j, 1 <= j <= num_inodes sb -> disk_inode c' j = if decide (j = ino) then e2 else disk_inode (is_cache s) j) as Hd
    by (apply (disk_inode_put sb B Hlay (is_cache s) c' ino e2 Hino Hwf (proj1 (to_quiet _ _ _ _ (fk_tree _ _ _ _ Hs))) Hvw)).
  assert (one_changed sb B (is_cache s) c' ino) as Hoc.
  { apply (new_inode_changed sb B Hlay _ _ ino e2); try done; [apply Hs|]. intros m Hm. by rewrite Hvw, decide_False. }
  assert (disk_inode c' ino = e2) as Hde by (by rewrite Hd, decide_True).
  assert (fs_sound sb B c') as Hsd.
  { apply (one_changed_sound sb B _ c' ino (fk_sound _ _ _ _ Hs) Hoc). intros _ Hdir. unfold is_dir in Hdir. by rewrite Hde in Hdir. }
  assert (fs_ok L (with_entry (at_proc p s) ip i c' e2)) as Hok by (apply fs_ok_entry; try done; by rewrite Hno).
  assert (set_is_cache c' (with_entry (at_proc p s1) ip i (is_cache s) e2) = with_entry (at_proc p s) ip i c' e2) as ->.
  { unfold s1, with_entry, at_proc. simpl. by rewrite !insert_insert_eq. }
  apply HQ; try done.
  - intros q n (x & Hx & Hxn & Hxv). destruct (decide (q = ip)) as [->|Hne].
    + assert (x = i) as -> by congruence. exists (set_i_entry e2 i). split_and!; [apply lookup_insert_eq|done|done].
    + exists x. split_and!; [simpl; by rewrite lookup_insert_ne|done|done].
  - intros n. apply (refs_entry (at_proc p s)); [|done]. apply (fk_tree _ _ _ _ Hs').
Qed.

(** *** A new name in a directory *)
Lemma insert_k {C} L s dp d name ino (f : Z -> M (kernel St) C) Q :
  let l := dir_entries sb B (is_cache s) d in
  fs_ok L s -> holds s dp d -> live sb B (is_cache s) d -> is_dir sb B (is_cache s) d -> live sb B (is_cache s) ino ->
  length name = 14%nat -> Forall byte_ok (take 14 (cstr name)) -> lookup_in sb B (is_cache s) d name = 0 ->
  16 * Z.of_nat (free_slot l) + 16 <= INODE_MAX_BYTES ->
  bk_room (is_cache s) (Some ctx) [] 5 -> has_free sb B (is_cache s) 2 ->
  (forall r s', fs_ok L s' -> (forall q i, holds s q i -> holds s' q i) -> (forall i, refs s' i = refs s i) ->
     one_changed sb B (is_cache s) (is_cache s') d -> is_dir sb B (is_cache s') d ->
     (forall name', lookup_in sb B (is_cache s') d name' = if decide (same_name name' name) then ino else lookup_in sb B (is_cache s) d name') ->
     (exists ns, bk_room (is_cache s') (Some ctx) ns 0) -> wp (f r) Q (with_inodes s' k)) ->
  wp (oninodes (inode_insert sb B (Some ctx) dp name ino) ≫= f) Q (with_inodes s k).
Proof using Hp Hlay.
  intros l Hs (i & Hip & Hno & Hv) Hld Hdir Hli Hn Hby Hno0 Hsp Hr Hf HQ. pose proof (fs_ok_at L s Hs) as Hs'.
  pose proof (to_entry _ _ _ _ (fk_tree _ _ _ _ Hs) dp i Hip Hv) as Hei. subst d.
  pose proof (locked_dir sb B L (at_proc p s) dp i (fk_tree _ _ _ _ Hs') Hip Hv Hld Hdir) as Hdo.
  apply (wp_inodes _ _ _ p); [done|].
  assert (l = entries sb B (is_cache (at_proc p s)) (i_entry i)) as El by (unfold l, dir_entries; by rewrite <- Hei).
  eapply wp_mono; [apply (insert_ok sb B Hlay (at_proc p s) (Some ctx) dp i name ino [] 0 0 Hdo Hby); [by rewrite <- El|done|done|done]|].
  intros r s' (_ & c' & e' & ns' & -> & Hst & _ & Hroom & _). rewrite <- El in Hst.
  pose proof (dir_step_changed sb B Hlay (at_proc p s) dp i c' e' _ (fk_sound _ _ _ _ Hs) Hld (eq_sym Hei) Hst) as Hoc.
  pose proof (fo_disk _ _ _ _ _ (do_file _ _ _ _ _ (dst_dir _ _ _ _ _ _ _ _ Hst))) as He. simpl in He.
  assert (dir_entries sb B c' (i_inode_no i) = put_dirent l (free_slot l) (new_dirent name ino)) as Hde.
  { unfold dir_entries. rewrite He. apply (dst_entries _ _ _ _ _ _ _ _ Hst). }
  assert (fs_sound sb B c') as Hsd.
  { apply (one_changed_sound sb B _ c' _ (fk_sound _ _ _ _ Hs) Hoc). intros _ _. split.
    - rewrite He. apply (do_whole _ _ _ _ _ (dst_dir _ _ _ _ _ _ _ _ Hst)).
    - rewrite Hde. intros e [Hin| ->]%entries_put H0; apply (one_changed_live sb B _ _ _ _ Hoc).
      + by apply (fs_live _ _ _ (fk_sound _ _ _ _ Hs) (i_inode_no i)).
      + simpl. destruct Hli as [Hr0 ?]. pose proof (il_n _ Hlay) as Hni. unfold NINODES in Hni. by rewrite u16_id by lia. }
  assert (fs_ok L (with_entry (at_proc p s) dp i c' e')) as Hok.
  { apply fs_ok_entry; try done.
    - apply (fo_quiet _ _ _ _ _ (do_file _ _ _ _ _ (dst_dir _ _ _ _ _ _ _ _ Hst))).
    - pose proof (do_type _ _ _ _ _ (dst_dir _ _ _ _ _ _ _ _ Hst)) as Ht. simpl in Ht. by rewrite Ht.
    - intros j Hj. case_decide as E; [by subst|]. by apply (dst_inodes _ _ _ _ _ _ _ _ Hst). }
  apply HQ; try done.
  - intros q n (x & Hx & Hxn & Hxv). destruct (decide (q = dp)) as [->|Hne].
    + assert (x = i) as -> by congruence. exists (set_i_entry e' i). split_and!; [apply lookup_insert_eq|done|done].
    + exists x. split_and!; [simpl; by rewrite lookup_insert_ne|done|done].
  - intros n. apply (refs_entry (at_proc p s)); [|done]. apply (fk_tree _ _ _ _ Hs').
  - change (ie_type (disk_inode c' (i_inode_no i)) = INODE_DIRECTORY). rewrite He. apply (do_type _ _ _ _ _ (dst_dir _ _ _ _ _ _ _ _ Hst)).
  - intros name'. unfold lookup_in in *. simpl is_cache. rewrite Hde. fold l in Hno0 |- *.
    rewrite found_put; [by case_decide| |].
    + destruct (list_find (has_name name) l) as [[n e]|] eqn:E; [|done]. by apply list_find_Some in E as (_ & [? _] & _).
    + destruct Hli as [Hr0 ?]. pose proof (il_n _ Hlay) as Hni. unfold NINODES in Hni. lia.
  - by exists ns'.
Qed.

(** *** The parent directory of a path *)
Lemma parent_k {C} s path l n (f : option nat * list Z -> M (kernel St) C) Q :
  let start := start_of (at_proc p s) path in
  fs_ok ∅ s -> Forall elem_ok l -> skip_slashes path = skip_slashes (render l n) ->
  live sb B (is_cache s) start -> no_dot_end l n -> resolve sb B (is_cache s) true start l n <> Nested ->
  (forall r s', fs_ok ∅ s' -> calm sb B (is_cache s) (is_cache s') ->
     match descend sb B (is_cache s) start (removelast l) with
     | None => r.1 = None /\ (forall i, refs s' i = refs s i)
     | Some d => is_dir sb B (is_cache s) d /\ length r.2 = 14%nat /\ take 14 (cstr r.2) = last_name l /\
         (forall i, refs s' i = refs s i + one d i) /\
         exists dp i, r.1 = Some dp /\ is_objs s' !! dp = Some i /\ i_inode_no i = d
     end -> wp (f r) Q (with_inodes s' k)) ->
  wp (oninodes (nameiparent sb B uninit path (replicate 14 0) ctx) ≫= f) Q (with_inodes s k).
Proof using Hp Hlay.
  intros start Hs Hl Hpath Hli Hdot Hres HQ. pose proof (fs_ok_at ∅ s Hs) as Hs'. apply (wp_inodes _ _ _ p); [done|].
  eapply wp_mono; [apply (namex_ok sb B Hlay uninit (at_proc p s) path true (replicate 14 0) ctx l n (fk_tree _ _ _ _ Hs') Hl Hpath);
    [done|exact Hli|exact Hres]|].
  intros r s' (Ht & Hc & _ & H). pose proof (resolve_descend sb B (is_cache s) true l n start Hdot Hres) as Hrd. change (dirs true l) with (removelast l) in Hrd.
  change (start_of (at_proc p s) path) with start in H. change (is_cache (at_proc p s)) with (is_cache s) in *.
  apply HQ; [|done|].
  - apply (fs_ok_calm sb B Hlay ∅ _ s); [done|done|done|]. intros j Hj.
    destruct (resolve sb B (is_cache s) true start l n) as [d nm| |] eqn:E; [|left; by rewrite (proj2 H) in Hj|done].
    destruct H as (_ & _ & Hk). rewrite Hk in Hj. unfold one in Hj. case_decide as Ej; [right|left; change (refs s j + 0 <> 0) in Hj; lia].
    subst j. apply live_used. eapply (descend_live sb B); [apply (fk_sound _ _ _ _ Hs)|exact Hli|exact (proj1 Hrd)].
  - destruct (resolve sb B (is_cache s) true start l n) as [d nm| |] eqn:E; [|by rewrite Hrd; destruct H|done].
    destruct Hrd as [Hd Hnm], H as ((dp & i & Hr1 & Hi & Hno) & Hn & Hk). rewrite Hd.
    destruct (Hn eq_refl) as [Hn1 Hn2]. split_and!; [by apply (resolve_parent_dir sb B _ l n start d nm)|done|by rewrite Hn2, Hnm|exact Hk|by exists dp, i].
Qed.

(** ** [create] *)

(** The name is there already: [ip] or the null pointer. *)
Lemma create_existing s dp d ino type :
  fs_ok {[dp]} s -> holds s dp d -> live sb B (is_cache s) d -> live sb B (is_cache s) ino ->
  wp (ip ← oninodes (inode_get sb uninit ino);
      iunlock dp;; iput sb B ctx dp;; ilock sb B ip;;
      e ← ientry ip;
      if (type =? INODE_REGULAR) && (ie_type e =? INODE_REGULAR) then mret (Some ip)
      else iunlock ip;; iput sb B ctx ip;; mret None)
    (fun r k' => exists s', k' = with_inodes s' k /\ calm sb B (is_cache s) (is_cache s') /\
       if (type =? INODE_REGULAR) && (ie_type (disk_inode (is_cache s) ino) =? INODE_REGULAR) then
         exists ip, r = Some ip /\ fs_ok {[ip]} s' /\ holds s' ip ino /\ forall i, refs s' i = refs s i - one d i + one ino i
       else r = None /\ fs_ok ∅ s' /\ forall i, refs s' i = refs s i - one d i)
    (with_inodes s k).
Proof using Hp Hlay.
  intros Hs Hdp Hli Hu. apply (get_k {[dp]} s ino); [done|by intros q ->%elem_of_singleton; exists d|by apply live_used|].
  intros ip s1 Hs1 Hc1 Hr1 (b & Hip) Hk1. pose proof (Hk1 _ _ Hdp) as Hdp1.
  apply (unlock_put_k {[dp]} s1 dp d); [done|set_solver|done|by rewrite Hc1|]. rewrite difference_diag_L.
  intros s2 Hs2 Hc2 Hr2 Hk2.
  assert (object s2 ip ino b) as Hip2.
  { apply Hk2; [|done]. destruct (decide (ip = dp)) as [->|]; [right|by left]. rewrite Hr1.
    assert (ino = d) as -> by (destruct Hip as (? & ? & ? & _), Hdp1 as (? & ? & ? & _); congruence).
    pose proof (object_refs _ s dp d true Hs Hdp). unfold one. rewrite decide_True by done. lia. }
  destruct Hip2 as (i & Hi & Hno & _). apply (lock_k ∅ s2 ip i); [done|set_solver|done|].
  intros s3 Hs3 [Hc3 Hr3] Hip3 _. rewrite Hno in Hip3. rewrite union_empty_r_L in Hs3.
  assert (calm sb B (is_cache s) (is_cache s3)) as Hc by (by rewrite <- Hc1, <- Hc2).
  apply (entry_k {[ip]} s3 ip ino); [done|done|].
  assert (disk_inode (is_cache s3) ino = disk_inode (is_cache s) ino) as -> by (by apply calm_disk_inode).
  assert (forall i, refs (at_proc p s3) i = refs s i - one d i + one ino i) as Hr.
  { intros n. change (refs s3 n = refs s n - one d n + one ino n). rewrite Hr3, Hr2, Hr1. lia. }
  destruct (_ && _).
  - apply wp_ret. exists (at_proc p s3). split; [done|]. split; [done|]. exists ip. split_and!; [done|by apply fs_ok_at|done|done].
  - apply (unlock_put_k {[ip]} (at_proc p s3) ip ino); [by apply fs_ok_at|set_solver|done|by apply (calm_live sb B _ _ Hc)|].
    rewrite difference_diag_L. intros s4 Hs4 Hc4 Hr4 _. apply wp_ret. exists s4. split; [done|].
    split; [by rewrite Hc4|]. split_and!; [done|done|]. intros n. rewrite Hr4, Hr. lia.
Qed.

(** A file without content. *)
Definition new_entry (type major minor : Z) : InodeEntry := mkInodeEntry type (u16 major) (u16 minor) 1 0 (replicate 12 0) 0.

Lemma new_entry_wf type major minor : 0 <= type < 2 ^ 16 -> InodeEntry_wf (new_entry type major minor).
Proof.
  intros Ht. pose proof (Z.mod_pos_bound major (2 ^ 16) eq_refl). pose proof (Z.mod_pos_bound minor (2 ^ 16) eq_refl).
  unfold new_entry, u16. repeat split; simpl; try lia. by repeat constructor.
Qed.

(** From [c] to [c'], inode [ino], which was free, got the name [name] in the
    directory [d]; nothing else changed. *)
Record created c c' (d : Z) (name : list Z) (ino : Z) (e : InodeEntry) : Prop := {
  cr_range : 1 <= ino <= num_inodes sb;
  cr_free : ie_type (disk_inode c ino) = INODE_INVALID;
  cr_inode : disk_inode c' ino = e;
  cr_dir : live sb B c' d /\ is_dir sb B c' d;
  cr_lookup : forall name', lookup_in sb B c' d name' = if decide (same_name name' name) then ino else lookup_in sb B c d name';
  cr_other : forall j, used sb B c j -> j <> d -> undisturbed sb B c c' j
}.

(** It is not there: a new inode. *)
Lemma create_new s dp d name type major minor gno :
  fs_ok {[dp]} s -> holds s dp d -> live sb B (is_cache s) d -> is_dir sb B (is_cache s) d ->
  length name = 14%nat -> Forall byte_ok (take 14 (cstr name)) -> lookup_in sb B (is_cache s) d name = 0 ->
  type = INODE_REGULAR \/ type = INODE_DEVICE -> 0 <= gno < NGROUPS ->
  16 * Z.of_nat (free_slot (dir_entries sb B (is_cache s) d)) + 16 <= INODE_MAX_BYTES ->
  bk_room (is_cache s) (Some ctx) [] 6 -> has_free sb B (is_cache s) 2 ->
  (exists ino, 1 <= ino <= num_inodes sb /\ ie_type (disk_inode (is_cache s) ino) = INODE_INVALID) ->
  wp (no ← oninodes (inode_alloc_group sb B (Some ctx) (u16 type) gno);
      no ← (if no =? 0 then
              no ← oninodes (inode_alloc sb B (Some ctx) (u16 type));
              assert_ (negb (no =? 0));;
              mret no
            else mret no);
      ip ← oninodes (inode_get sb uninit no);
      ilock sb B ip;;
      kupd_entry ip (set_ie_devnum (u16 major) (u16 minor));;
      kupd_entry ip (set_ie_num_links 1);;
      isync sb B ctx ip true;;
      no ← inum ip;
      whenM (type =? INODE_DIRECTORY)
        (kupd_entry dp (fun e => set_ie_num_links (u16 (ie_num_links e + 1)) e);;
         isync sb B ctx dp false;;
         oninodes (inode_insert sb B (Some ctx) ip [46; 0] no);;
         oninodes (inode_insert sb B (Some ctx) ip [46; 46; 0] d);;
         mret tt);;
      oninodes (inode_insert sb B (Some ctx) dp name no);;
      iunlock dp;;
      iput sb B ctx dp;;
      mret (Some ip))
    (fun r k' => exists s' ip ino, k' = with_inodes s' k /\ r = Some ip /\ fs_ok {[ip]} s' /\ holds s' ip ino /\
       created (is_cache s) (is_cache s') d name ino (new_entry type major minor) /\
       (forall i, refs s' i = refs s i - one d i + one ino i) /\ exists ns, bk_room (is_cache s') (Some ctx) ns 0)
    (with_inodes s k).
Proof using Hp Hlay.
  intros Hs Hdp Hld Hdir Hn Hby H0 Hty Hg Hsp Hr Hf Hfree.
  assert (u16 type = type /\ 0 < type < 2 ^ 16 /\ type <> INODE_DIRECTORY) as (Ht16 & Htr & Htd) by (destruct Hty as [->| ->]; done).
  rewrite Ht16. apply (alloc_k {[dp]} s type gno [] 5); [done|done|done|done|done|done|done|].
  intros no s1 Hs1 Hno Htook Hr1 Ho1 Href1.
  pose proof Htook as (Hinv & Hd1 & _ & Ha1).
  assert (d <> no) as Hdn by (intros ->; by destruct Hld as (_ & ? & _)).
  assert (disk_inode (is_cache s1) no = set_ie_type type zero_entry) as He1 by (by rewrite Hd1, decide_True).
  assert (one_changed sb B (is_cache s) (is_cache s1) no) as Hoc1 by (apply (took_changed sb B Hlay _ _ type); try done; apply Hs).
  assert (holds s1 dp d) as Hdp1 by (destruct Hdp as (i & ? & ? & ?); exists i; by rewrite Ho1).
  apply (get_k {[dp]} s1 no); [done|by intros q ->%elem_of_singleton; exists d|split; [done|]; rewrite He1; simpl; unfold INODE_INVALID; lia|].
  intros ip s2 Hs2 Hc2 Hr2 (b & i2 & Hi2 & Hno2 & _) Hk2. pose proof (Hk2 _ _ Hdp1) as Hdp2.
  assert (dp <> ip) as Hne by (intros ->; destruct Hdp2 as (? & ? & ? & _); congruence).
  apply (lock_k {[dp]} s2 ip i2); [done|set_solver|done|]. rewrite Hno2. intros s3 Hs3 [Hc3 Hr3] Hip3 Hk3.
  pose proof (Hk3 dp d true Hne Hdp2) as Hdp3. set (L := {[ip]} ∪ {[dp]}) in *. rewrite Hc2 in Hc3.
  assert (disk_inode (is_cache s3) no = set_ie_type type zero_entry) as He3 by (by rewrite (calm_disk_inode sb B _ _ _ Hc3)).
  apply (new_entry_k L s3 ip no _ _ (new_entry type major minor) [to_block_no sb no] 5); try done.
  { intros (_ & _ & Hl). by rewrite He3 in Hl. } { by rewrite He3. }
  { apply new_entry_wf. lia. } { simpl. unfold INODE_INVALID. lia. }
  { by apply Hc3. } { by left. }
  intros s4 Hs4 Hk4 Hr4 Hoc4 He4 Ha4 Hroom4.
  assert (forall j, used sb B (is_cache s) j -> j <> no -> undisturbed sb B (is_cache s) (is_cache s4) j) as Hun.
  { intros j Hj Hjn. destruct (oc_other _ _ _ _ _ Hoc1 j (proj1 Hj) Hjn) as [_ Hu1]. specialize (Hu1 Hj).
    assert (used sb B (is_cache s1) j) as Hj1 by (by apply (undisturbed_used sb B _ _ _ Hu1)).
    pose proof (alike_undisturbed sb B Hlay _ _ j (fk_sound _ _ _ _ Hs1) (calm_alike sb B _ _ Hc3) Hj1) as Hu3.
    assert (used sb B (is_cache s3) j) as Hj3 by (by apply (undisturbed_used sb B _ _ _ Hu3)).
    destruct (oc_other _ _ _ _ _ Hoc4 j (proj1 Hj) Hjn) as [_ Hu4].
    eapply undisturbed_trans; [exact Hu1|]. eapply undisturbed_trans; [exact Hu3|auto]. }
  pose proof (Hun d (live_used _ _ _ _ Hld) Hdn) as Hud.
  apply (inum_k s4 ip no); [by apply Hk4|]. rewrite (proj2 (Z.eqb_neq type INODE_DIRECTORY)) by done.
  apply wp_bind, wp_ret.
  apply (insert_k L (at_proc p s4) dp d name no); [by apply fs_ok_at|exact (Hk4 _ _ Hdp3)|by apply (undisturbed_live sb B _ _ _ Hud)|
    by apply (undisturbed_dir sb B _ _ _ Hud)| |done|done| | | | |].
  { split; [done|]. change (is_cache (at_proc p s4)) with (is_cache s4). rewrite He4. simpl. unfold INODE_INVALID. lia. }
  { change (is_cache (at_proc p s4)) with (is_cache s4). by rewrite (undisturbed_lookup sb B _ _ _ _ Hud). }
  { change (is_cache (at_proc p s4)) with (is_cache s4). by rewrite (undisturbed_entries sb B _ _ _ Hud). }
  { simpl. eapply bk_room_sub; [exact Hroom4|]. by intros n ?%not_elem_of_nil. }
  { simpl. eapply has_free_same; [exact Hf|]. intros n. rewrite Ha4, (proj2 (proj1 (proj2 Hc3))). apply Ha1. }
  intros r s5 Hs5 Hk5 Hr5 Hoc5 Hd5 Hl5 Hroom5.
  change (is_cache (at_proc p s4)) with (is_cache s4) in Hoc5, Hl5.
  apply (unlock_put_k L s5 dp d); [done|set_solver|exact (Hk5 _ _ (Hk4 _ _ Hdp3))| |].
  { apply (one_changed_live sb B _ _ _ _ Hoc5). by apply (undisturbed_live sb B _ _ _ Hud). }
  intros s6 Hs6 Hc6 Hr6 Hk6. apply wp_ret. exists s6, ip, no. split; [done|]. split; [done|].
  replace (L ∖ {[dp]}) with ({[ip]} : gset nat) in Hs6 by set_solver. split; [done|].
  split; [apply Hk6; [by left|]; exact (Hk5 _ _ (Hk4 _ _ Hip3))|]. split; [|split].
  - rewrite Hc6. split; [done|done| | | |].
    + by rewrite (proj1 (oc_other _ _ _ _ _ Hoc5 no Hno (not_eq_sym Hdn))).
    + split; [|done]. apply (one_changed_live sb B _ _ _ _ Hoc5). by apply (undisturbed_live sb B _ _ _ Hud).
    + intros name'. rewrite Hl5. case_decide; [done|]. apply (undisturbed_lookup sb B _ _ _ _ Hud).
    + intros j Hj Hjd. assert (j <> no) as Hjn by (intros ->; by destruct Hj). pose proof (Hun j Hj Hjn) as Hu.
      eapply undisturbed_trans; [exact Hu|]. apply (oc_other _ _ _ _ _ Hoc5 j (proj1 Hj) Hjd). by apply (undisturbed_used sb B _ _ _ Hu).
  - intros i. rewrite Hr6, Hr5. change (refs (at_proc p s4) i) with (refs s4 i). rewrite Hr4, Hr3, Hr2, Href1. lia.
  - by rewrite Hc6.
Qed.

(** What [create] returns and leaves, from [s], for the parent directory [d]. *)
Definition create_post s (start : Z) (l : list (nat * list Z)) (type major minor : Z) (r : option nat) s' : Prop :=
  let c := is_cache s in let name := last_name l in
  match descend sb B c start (removelast l) with
  | None => r = None /\ fs_ok ∅ s' /\ calm sb B c (is_cache s') /\ forall i, refs s' i = refs s i
  | Some d =>
      let ino := lookup_in sb B c d name in
      if decide (ino = 0) then
        exists ip ino, r = Some ip /\ fs_ok {[ip]} s' /\ holds s' ip ino /\ (forall i, refs s' i = refs s i + one ino i) /\
          created c (is_cache s') d name ino (new_entry type major minor) /\ descend sb B (is_cache s') start l = Some ino
      else calm sb B c (is_cache s') /\
        if (type =? INODE_REGULAR) && (ie_type (disk_inode c ino) =? INODE_REGULAR)
        then exists ip, r = Some ip /\ fs_ok {[ip]} s' /\ holds s' ip ino /\ forall i, refs s' i = refs s i + one ino i
        else r = None /\ fs_ok ∅ s' /\ forall i, refs s' i = refs s i
  end.

Lemma lookup_in_same c d name name' : same_name name name' -> lookup_in sb B c d name = lookup_in sb B c d name'.
Proof. intros Hn. unfold lookup_in. do 2 f_equal. apply list_find_ext. intros e. unfold has_name, same_name in *. by rewrite Hn. Qed.

Lemma cstr_plain e : Forall elem_char e -> cstr e = e.
Proof. intros He. rewrite <- (app_nil_r e) at 1. rewrite cstr_elem by done. apply app_nil_r. Qed.

Lemma same_name_elem e : Forall elem_char e -> same_name e (take 14 e).
Proof.
  intros He. unfold same_name. rewrite (cstr_plain e He), (cstr_plain (take 14 e)) by (by apply Forall_take). by rewrite take_take.
Qed.

(** The last element of a path, from its directory. *)
Lemma descend_last c start l d :
  l <> [] -> Forall elem_ok l -> descend sb B c start (removelast l) = Some d -> is_dir sb B c d ->
  descend sb B c start l = if decide (lookup_in sb B c d (last_name l) = 0) then None else Some (lookup_in sb B c d (last_name l)).
Proof.
  intros Hne Hl Hd Hdir. destruct l as [|[m e0] l0 _] using rev_ind; [done|]. rewrite removelast_last in Hd.
  apply Forall_app in Hl as [_ [[He0 _] _]%Forall_cons]. simpl in He0.
  assert (last_name (l0 ++ [(m, e0)]) = take 14 e0) as -> by (unfold last_name; by rewrite last_snoc).
  rewrite descend_app, Hd. cbn [mbind option_bind descend]. rewrite decide_True by done. cbv zeta.
  by rewrite (lookup_in_same c d _ _ (same_name_elem e0 He0)).
Qed.

(** The whole path leads to the new inode. *)
Lemma created_path c c' start l d name ino e :
  fs_sound sb B c -> live sb B c start -> l <> [] -> Forall elem_ok l ->
  descend sb B c start (removelast l) = Some d -> lookup_in sb B c d name = 0 -> same_name name (last_name l) ->
  created c c' d name ino e -> descend sb B c' start l = Some ino.
Proof.
  intros Hs Hli Hne Hl Hd H0 Hname [Hino _ _ [_ Hdir'] Hlk Hoth].
  assert (descend sb B c' start (removelast l) = Some d) as Hd'.
  { apply (descend_kept sb B c c' _ start d Hs); [clear Hd|done|done].
    intros d' nm Hld Hdir Hnz. destruct (decide (d' = d)) as [->|Hnd].
    - split; [done|]. rewrite Hlk, decide_False; [done|]. intros Hnm. apply Hnz. by rewrite (lookup_in_same c d nm name Hnm).
    - pose proof (Hoth d' (live_used _ _ _ _ Hld) Hnd) as Hu. split; [by apply (undisturbed_dir sb B _ _ _ Hu)|].
      by apply (undisturbed_lookup sb B). }
  rewrite (descend_last c' start l d Hne Hl Hd' Hdir').
  assert (lookup_in sb B c' d (last_name l) = ino) as -> by (rewrite Hlk; by apply decide_True). by rewrite decide_False by lia.
Qed.

Lemma created_live c c' d name ino e j : created c c' d name ino e -> live sb B c j -> live sb B c' j.
Proof.
  intros [_ _ _ [Hld _] _ Ho] Hl. destruct (decide (j = d)) as [->|Hne]; [done|].
  by apply (undisturbed_live sb B _ _ _ (Ho j (live_used _ _ _ _ Hl) Hne)).
Qed.

Lemma created_alike c c1 c' d name ino e :
  fs_sound sb B c1 -> alike sb B c1 c' -> created c c1 d name ino e -> created c c' d name ino e.
Proof using Hlay.
  intros Hs Hal [Hr Hf Hi [Hld Hdir] Hlk Ho].
  pose proof (alike_undisturbed sb B Hlay c1 c' d Hs Hal (live_used _ _ _ _ Hld)) as Hud. split.
  - exact Hr. - exact Hf. - by rewrite (alike_disk_inode sb B Hlay c1 c').
  - split; [by apply (undisturbed_live sb B _ _ _ Hud)|by apply (undisturbed_dir sb B _ _ _ Hud)].
  - intros nm. rewrite (undisturbed_lookup sb B _ _ _ _ Hud). apply Hlk.
  - intros j Hj Hne. pose proof (Ho j Hj Hne) as Hu. eapply undisturbed_trans; [exact Hu|].
    apply (alike_undisturbed sb B Hlay); [done|done|]. by apply (undisturbed_used sb B _ _ _ Hu).
Qed.

(** [created] does not depend on the characters behind the name. *)
Lemma created_name c c' d name name' ino e : same_name name name' -> created c c' d name ino e -> created c c' d name' ino e.
Proof.
  intros Hn []. split; try assumption. intros nm. rewrite cr_lookup0.
  apply decide_ext. unfold same_name in *. by rewrite Hn.
Qed.

Lemma created_before c c1 c' d name ino e :
  fs_sound sb B c -> alike sb B c c1 -> live sb B c d -> created c1 c' d name ino e -> created c c' d name ino e.
Proof using Hlay.
  intros Hs Hal Hld [Hr Hf Hi Hd Hlk Ho]. split; [exact Hr| |exact Hi|exact Hd| |].
  - by rewrite (alike_disk_inode sb B Hlay c c1) in Hf.
  - intros nm. rewrite Hlk. by rewrite (undisturbed_lookup sb B c c1 d nm (alike_undisturbed sb B Hlay c c1 d Hs Hal (live_used _ _ _ _ Hld))).
  - intros j Hj Hne. pose proof (alike_undisturbed sb B Hlay c c1 j Hs Hal Hj) as Hu.
    eapply undisturbed_trans; [exact Hu|]. apply Ho; [|done]. by apply (undisturbed_used sb B _ _ _ Hu).
Qed.

Lemma create_post_new s start l type major minor r s' d :
  create_post s start l type major minor r s' ->
  descend sb B (is_cache s) start (removelast l) = Some d -> lookup_in sb B (is_cache s) d (last_name l) = 0 ->
  exists ip ino, r = Some ip /\ fs_ok {[ip]} s' /\ holds s' ip ino /\ (forall i, refs s' i = refs s i + one ino i) /\
    created (is_cache s) (is_cache s') d (last_name l) ino (new_entry type major minor) /\
    descend sb B (is_cache s') start l = Some ino.
Proof. unfold create_post. intros H Hd H0. rewrite Hd in H. cbv zeta in H. by rewrite decide_True in H. Qed.

Lemma create_ok s path l n type major minor :
  let c := is_cache s in let start := start_of (at_proc p s) path in
  fs_ok ∅ s -> Forall elem_ok l -> skip_slashes path = skip_slashes (render l n) ->
  live sb B c start -> no_dot_end l n -> resolve sb B c true start l n <> Nested -> Forall byte_ok (last_name l) ->
  type = INODE_REGULAR \/ type = INODE_DEVICE ->
  bk_room c (Some ctx) [] 6 -> has_free sb B c 2 ->
  (exists ino, 1 <= ino <= num_inodes sb /\ ie_type (disk_inode c ino) = INODE_INVALID) ->
  (forall d, descend sb B c start (removelast l) = Some d ->
     16 * Z.of_nat (free_slot (dir_entries sb B c d)) + 16 <= INODE_MAX_BYTES) ->
  wp (create sb B uninit ctx path type major minor)
    (fun r k' => exists s', k' = with_inodes s' k /\ create_post s start l type major minor r s' /\
       exists ns, bk_room (is_cache s') (Some ctx) ns 0) (with_inodes s k).
Proof using Hp Hlay.
  intros c start Hs Hl Hpath Hli Hdot Hres Hby Hty Hr Hf Hfree Hsp.
  unfold create. apply (parent_k s path l n); [done..|]. intros [o name] s1 Hs1 Hc1 H. fold start c in H, Hc1. cbn [fst snd] in H.
  unfold create_post. fold c. destruct (descend sb B c start (removelast l)) as [d|] eqn:Hd.
  2:{ destruct H as [-> Hr1]. apply wp_ret. exists s1. split; [done|]. split; [by split_and!|]. exists []. by apply (room_less sb B Hlay _ _ _ 6); [apply Hc1|]. }
  destruct H as (Hdir & Hn & Hname & Hr1 & dp & i & -> & Hi & Hno).
  assert (live sb B c d) as Hld by (eapply (descend_live sb B); [apply Hs|exact Hli|exact Hd]).
  apply (lock_k ∅ s1 dp i); [done|set_solver|done|]. rewrite Hno, union_empty_r_L. intros s2 Hs2 [Hc2 Hr2] Hdp2 _.
  apply (inum_k s2 dp d); [done|]. pose proof (calm_trans sb B _ _ _ Hc1 Hc2) as Hc02. cbv zeta.
  apply (lookup_k {[dp]} (at_proc p s2) dp d name); [by apply fs_ok_at|done|by apply (calm_live sb B _ _ Hc02)|by apply (calm_is_dir sb B _ _ Hc02)|done|].
  intros r s3 Hlk Hs3 [Hc3 Hr3] Ho3. change (is_cache (at_proc p s2)) with (is_cache s2) in Hc3, Hlk.
  pose proof (calm_trans sb B _ _ _ Hc02 Hc3) as Hc03.
  assert (same_name name (last_name l)) as Hsn.
  { assert (Forall elem_char (default [] (snd <$> last l))) as He.
    { destruct (last l) as [[m e0]|] eqn:El; [|constructor]. apply last_Some in El as [l0 ->]. by apply Forall_app in Hl as [_ [[He0 _] _]%Forall_cons]. }
    unfold same_name. rewrite Hname. unfold last_name. rewrite cstr_plain by (by apply Forall_take). by rewrite take_take. }
  rewrite (calm_lookup_in sb B _ _ Hc02), (lookup_in_same c d _ _ Hsn) in Hlk. fold c in Hlk. rewrite Hlk.
  assert (holds s3 dp d) as Hdp3 by (destruct Hdp2 as (x & ? & ? & ?); exists x; by rewrite Ho3).
  assert (forall j, refs s3 j = refs s j + one d j) as Hr03.
  { intros j. rewrite Hr3. change (refs (at_proc p s2) j) with (refs s2 j). by rewrite Hr2, Hr1. }
  assert (live sb B (is_cache s3) d) as Hld3 by (by apply (calm_live sb B _ _ Hc03)).
  destruct (decide (lookup_in sb B c d (last_name l) = 0)) as [H0|H0].
  - rewrite H0. simpl negb. cbv iota.
    eapply wp_mono; [apply (create_new s3 dp d name type major minor); try done|].
    + by apply (calm_is_dir sb B _ _ Hc03). + by rewrite Hname.
    + by rewrite (calm_lookup_in sb B _ _ Hc03), (lookup_in_same c d _ _ Hsn).
    + destruct Hld as [Hdr _]. pose proof (il_n _ Hlay) as Hni. unfold NINODES in Hni. change (NINODES / NGROUPS) with 20. unfold NGROUPS.
      rewrite !u32_id by (rewrite ?u32_id; lia). Z.to_euclidean_division_equations. lia.
    + rewrite (calm_dir_entries sb B _ _ Hc03). by apply Hsp.
    + by apply Hc03. + eapply has_free_same; [exact Hf|apply Hc03].
    + destruct Hfree as (ino & ? & ?). exists ino. split; [done|]. by rewrite (calm_disk_inode sb B _ _ _ Hc03).
    + intros r' k' (s' & ip & ino & -> & -> & Hok & Hip & Hcr & Hrf & Hroom). exists s'. split; [done|]. split; [|done]. exists ip, ino.
      split; [done|]. split; [done|]. split; [done|]. split; [intros i'; rewrite Hrf, Hr03; lia|].
      assert (created c (is_cache s') d (last_name l) ino (new_entry type major minor)) as Hcr'.
      { apply (created_name _ _ _ name); [done|]. by apply (created_before _ (is_cache s3)); [apply Hs|apply calm_alike|..]. }
      split; [done|]. eapply (created_path c); try done; [apply Hs|]. intros ->. by apply Hres.
  - rewrite (proj2 (Z.eqb_neq _ _) H0). simpl negb. cbv iota.
    eapply wp_mono; [apply (create_existing s3 dp d (lookup_in sb B c d (last_name l)) type); try done|].
    + apply (calm_live sb B _ _ Hc03), lookup_live; [|done]. by apply sound_dir; [apply Hs|..].
    + intros r' k' (s' & -> & Hc' & H). exists s'. split; [done|]. pose proof (calm_trans sb B _ _ _ Hc03 Hc') as Hc0'. split; [split; [done|]|].
      2:{ exists []. by apply (room_less sb B Hlay _ _ _ 6); [apply Hc0'|]. }
      rewrite (calm_disk_inode sb B _ _ _ Hc03) in H. destruct (_ && _).
      * destruct H as (ip & ? & ? & ? & Hrf). exists ip. split_and!; try done. intros i'. rewrite Hrf, Hr03. lia.
      * destruct H as (? & ? & Hrf). split_and!; try done. intros i'. rewrite Hrf, Hr03. lia.
Qed.

(** C12: [create] for a regular file or a device, on any block cache with the
    laws of the interface.  It walks the path to its parent directory; without
    one it returns null. If the name is there already, the file system stays as
    it is, and the result is the inode of the name, locked and with one more
    reference, if a regular file is asked for and it is one, and null otherwise.
    If the name is new, a free inode becomes the empty file asked for, the
    directory names it, the whole path leads to it, all other names and files
    are as before, and the result is the new inode, locked and with its one
    reference. The file system and the inodes in memory stay consistent. *)
Theorem create_correct path l n type major minor :
  let s := k_inodes k in let c := is_cache s in let start := start_of (at_proc p s) path in
  fs_ok ∅ s -> Forall elem_ok l -> skip_slashes path = skip_slashes (render l n) ->
  live sb B c start -> no_dot_end l n -> resolve sb B c true start l n <> Nested -> Forall byte_ok (last_name l) ->
  type = INODE_REGULAR \/ type = INODE_DEVICE ->
  bk_room c (Some ctx) [] 6 -> has_free sb B c 2 ->
  (exists ino, 1 <= ino <= num_inodes sb /\ ie_type (disk_inode c ino) = INODE_INVALID) ->
  (forall d, descend sb B c start (removelast l) = Some d ->
     16 * Z.of_nat (free_slot (dir_entries sb B c d)) + 16 <= INODE_MAX_BYTES) ->
  exists r s', create sb B uninit ctx path type major minor k = Ok (r, with_inodes s' k) /\
    create_post s start l type major minor r s'.
Proof using Hp Hlay.
  intros s c start Hs Hl Hpath Hli Hdot Hres Hby Hty Hr Hf Hfree Hsp.
  destruct (proj1 (wp_ok _ _ _) (create_ok s path l n type major minor Hs Hl Hpath Hli Hdot Hres Hby Hty Hr Hf Hfree Hsp))
    as (r & k' & Heq & s' & -> & Hpost & _).
  exists r, s'. split; [|done]. by rewrite <- (with_inodes_id k) at 1.
Qed.
End steps.
End Create.
