(* ===== verification/CreateAtomic.v ===== *)
(** * Creating a file is atomic (sys_mknodat and the log)

    [create] in an operation of its own, on the block cache and its log: after a
    crash the new file is there with its name, or nothing of it is. *)
From S2P Require Import Prelude Bitmap FsDefines CString BlockIface Cache CacheFacts CacheLog CacheTx CacheSpec CacheAlloc Inode InodeFacts InodeDisk InodeFile DirFacts Namei Tree Fs File FsAtomic Kernel Sysfile Create.

Module CreateAtomic.
Import Bitmap Cache CacheFacts CacheLog CacheTx CacheSpec CacheAlloc Inode InodeFacts InodeDisk InodeFile DirFacts Namei Tree Fs File FsAtomic Kernel Sysfile Create.

(** ** The tree does not depend on what is known of the operations *)
Section spec.
Context (sb : SuperBlock) (Hlay : inode_layout sb) (O1 O2 : op_invariant sb).
#[local] Abbreviation spec1 := (cache_laws sb (il_geo _ Hlay) (OI := O1)).
#[local] Abbreviation spec2 := (cache_laws sb (il_geo _ Hlay) (OI := O2)).

Lemma map_ok_spec c e : map_ok sb (bcache sb) (Hspec := spec1) c e -> map_ok sb (bcache sb) (Hspec := spec2) c e.
Proof. intros []. by split. Qed.

Lemma file_sound_spec c ino : file_sound sb (bcache sb) (Hspec := spec1) c ino -> file_sound sb (bcache sb) (Hspec := spec2) c ino.
Proof. intros []. split; [by apply map_ok_spec|done..]. Qed.

Lemma dir_sound_spec c ino : dir_sound sb (bcache sb) (Hspec := spec1) c ino -> dir_sound sb (bcache sb) (Hspec := spec2) c ino.
Proof. intros []. split; [by apply map_ok_spec|done..]. Qed.

Lemma fs_sound_spec c : fs_sound sb (bcache sb) (Hspec := spec1) c -> fs_sound sb (bcache sb) (Hspec := spec2) c.
Proof. intros [Hf ? ? ?]. split; [|done..]. intros ino Hu. by apply file_sound_spec, Hf. Qed.

Lemma fs_ok_spec L s : fs_ok sb (bcache sb) (Hspec := spec1) L s -> fs_ok sb (bcache sb) (Hspec := spec2) L s.
Proof.
  intros [[? ? ? ? Hd] Hs Hu]. split; [|by apply fs_sound_spec|exact Hu]. split; [done..|].
  intros ino Hl Hdi. by apply dir_sound_spec, Hd.
Qed.

Lemma created_spec c c' d name ino e :
  created sb (bcache sb) (Hspec := spec1) c c' d name ino e -> created sb (bcache sb) (Hspec := spec2) c c' d name ino e.
Proof.
  intros [? ? ? ? ? Ho]. split; [done..|]. intros j Hj Hne. destruct (Ho j Hj Hne).
  split; [done..|]. by apply file_sound_spec.
Qed.
End spec.

Section atomic.
Context (sb : SuperBlock) (Hlay : inode_layout sb) (Hlog : log_layout sb) (uninit : InodeEntry) (ctx : nat).
Context (p : proc) (k : kernel cache) (Hp : cur_proc k = Ok (p, k)).
#[local] Instance rest : BlockCacheSpec sb (bcache sb) := rest_spec sb Hlay.

Lemma wp_cache {A C} (m : M cache A) (f : A -> M (kernel cache) C) Q s :
  wp m (fun a c => wp (f a) Q (with_inodes (set_is_cache c s) k)) (is_cache s) ->
  wp (onfs (fbc m) ≫= f) Q (with_inodes s k).
Proof. intros Hm. apply wp_bind, wp_lift, wp_lift, wp_lift. exact Hm. Qed.

Lemma alike_same_blocks c c' : same_blocks sb (view c') (view c) -> alike sb (bcache sb) c c'.
Proof. intros Hv. split; [exact Hv|]. intros n. by apply (alloced_same_blocks sb Hlay). Qed.

(** No operation runs, the path [path] of the elements [l] ends in a name that
    is not in its directory [d], and there is room for a new file. *)
Record creatable s (path : list Z) (l : list (nat * list Z)) (n : nat) (d : Z) : Prop := {
  cb_rest : at_rest sb (is_cache s);
  cb_ok : fs_ok sb (bcache sb) ∅ s;
  cb_elems : Forall elem_ok l;
  cb_path : skip_slashes path = skip_slashes (render l n);
  cb_dot : no_dot_end l n;
  cb_bytes : Forall byte_ok (last_name l);
  cb_start : live sb (bcache sb) (is_cache s) (start_of (at_proc p s) path);
  cb_walk : resolve sb (bcache sb) (is_cache s) true (start_of (at_proc p s) path) l n <> Nested;
  cb_dir : descend sb (bcache sb) (is_cache s) (start_of (at_proc p s) path) (removelast l) = Some d;
  cb_new : lookup_in sb (bcache sb) (is_cache s) d (last_name l) = 0;
  cb_slot : 16 * Z.of_nat (free_slot (dir_entries sb (bcache sb) (is_cache s) d)) + 16 <= INODE_MAX_BYTES;
  cb_blocks : has_free sb (bcache sb) (is_cache s) 2;
  cb_inode : exists ino, 1 <= ino <= num_inodes sb /\ ie_type (disk_inode sb (bcache sb) (is_cache s) ino) = INODE_INVALID
}.

(** What the operation leaves before it ends. *)
Lemma create_pending s path l n d type major minor :
  let c := is_cache s in let start := start_of (at_proc p s) path in
  creatable s path l n d -> type = INODE_REGULAR \/ type = INODE_DEVICE ->
  wp (create sb (bcache sb) uninit ctx path type major minor) (fun r k' => exists s2 ip ino,
    k' = with_inodes s2 k /\ r = Some ip /\ fs_ok sb (bcache sb) {[ip]} s2 /\ holds s2 ip ino /\
    (forall i, refs s2 i = refs s i + one ino i) /\
    created sb (bcache sb) c (is_cache s2) d (last_name l) ino (new_entry type major minor) /\
    descend sb (bcache sb) (is_cache s2) start l = Some ino /\
    exists ns, room sb (OI := op_running sb Hlay Hlog (op_begun c ctx) ctx) (is_cache s2) (Some ctx) ns 0)
    (with_inodes (set_is_cache (op_begun c ctx) s) k).
Proof using Hp.
  intros c start [Hr Hs Hl Hpath Hdot Hby Hli Hres Hd H0 Hsp Hf Hfree] Hty.
  fold start in Hli, Hres, Hd. fold c in Hr, Hli, Hres, Hd, H0, Hsp, Hf, Hfree.
  destruct (begin_rest sb Hlay Hlog c ctx Hr) as (_ & Hai & Hh & _ & Hroom).
  assert (alike sb (bcache sb) c (op_begun c ctx)) as Hal by (by apply alike_same_blocks).
  assert (fs_ok sb (bcache sb) ∅ (set_is_cache (op_begun c ctx) s)) as Hs1 by (by apply (fs_ok_alike sb (bcache sb) Hlay)).
  pose proof (fk_sound _ _ _ _ Hs) as Hsd. change (is_cache s) with c in Hsd.
  apply (fs_ok_spec sb Hlay _ (op_running sb Hlay Hlog (op_begun c ctx) ctx)) in Hs1.
  assert (live sb (bcache sb) c d) as Hld by (by apply (descend_live sb (bcache sb) c (removelast l) start d)).
  pose proof (alike_undisturbed sb (bcache sb) Hlay c _ d Hsd Hal (live_used _ _ _ _ Hld)) as Hud.
  pose proof (alike_undisturbed sb (bcache sb) Hlay c _ start Hsd Hal (live_used _ _ _ _ Hli)) as Hus.
  pose proof (descend_alike sb (bcache sb) Hlay c _ (removelast l) Hsd Hal start Hli) as Hde. rewrite Hd in Hde.
  eapply wp_mono; [apply (create_ok sb (bcache sb) (Hspec := op_spec sb Hlay Hlog c ctx) Hlay uninit ctx p k Hp
    (set_is_cache (op_begun c ctx) s) path l n type major minor Hs1 Hl Hpath)|].
  - by apply (undisturbed_live sb (bcache sb) _ _ _ Hus).
  - done.
  - by rewrite <- (resolve_alike sb (bcache sb) Hlay c _ true l n Hsd Hal start Hli) in Hres.
  - done.
  - done.
  - apply (room_less sb (bcache sb) (Hspec := op_spec sb Hlay Hlog c ctx) Hlay _ _ _ OP_MAX_NUM_BLOCKS); [exact Hroom|by unfold OP_MAX_NUM_BLOCKS].
  - destruct Hf as (fr & Hnd & Hlen & Hfr). by exists fr.
  - destruct Hfree as (ino & Hi & Hty'). exists ino. split; [done|]. by rewrite <- (alike_disk_inode sb (bcache sb) Hlay c _ ino Hal Hi) in Hty'.
  - intros d' Hd'. pose proof (eq_trans (eq_sym Hde) Hd') as Ed. injection Ed as <-.
    by rewrite <- (undisturbed_entries sb (bcache sb) c _ d Hud) in Hsp.
  - intros r k' (s2 & -> & Hpost & ns & Hns). 
    assert (lookup_in sb (bcache sb) (op_begun c ctx) d (last_name l) = 0) as H0' by (by rewrite (undisturbed_lookup sb (bcache sb) _ _ _ _ Hud)).
    destruct (create_post_new sb (bcache sb) (Hspec := op_spec sb Hlay Hlog c ctx) (set_is_cache (op_begun c ctx) s) start l type major minor r s2 d Hpost Hde H0')
      as (ip & ino & -> & Hok & Hip & Hrf & Hcr & Hpt).
    exists s2, ip, ino. split; [done|]. split; [done|].
    apply (fs_ok_spec sb Hlay _ (any_op sb)) in Hok. apply (created_spec sb Hlay _ (any_op sb)) in Hcr. split; [exact Hok|].
    split; [done|]. split; [exact Hrf|]. split; [|split; [exact Hpt|by exists ns]].
    by apply (created_before sb (bcache sb) Hlay c (op_begun c ctx)).
Qed.


(** [create] in an operation of its own. *)
Lemma mknod_rest s path l n d type major minor :
  let c := is_cache s in let start := start_of (at_proc p s) path in
  creatable s path l n d -> type = INODE_REGULAR \/ type = INODE_DEVICE ->
  wp (create_and_put sb (bcache sb) uninit ctx path type major minor) (fun r k' => exists s' ino,
    k' = with_inodes s' k /\ r = 0 /\ at_rest sb (is_cache s') /\ fs_ok sb (bcache sb) ∅ s' /\ (forall i, refs s' i = refs s i) /\
    created sb (bcache sb) c (is_cache s') d (last_name l) ino (new_entry type major minor) /\
    descend sb (bcache sb) (is_cache s') start l = Some ino /\
    exists ws, wrote (c_dev c) (c_dev (is_cache s')) ws /\
      forall j, restarts sb (crashed (c_dev c) (take j ws)) (view c) \/ restarts sb (crashed (c_dev c) (take j ws)) (view (is_cache s')))
    (with_inodes s k).
Proof using Hp Hlog.
  intros c start Hc Hty. pose proof (cb_rest _ _ _ _ _ Hc) as Hr. fold c in Hr.
  apply wp_cache. destruct (begin_rest sb Hlay Hlog c ctx Hr) as (Hbeg & _). eapply wp_eq; [exact Hbeg|].
  apply wp_bind. eapply wp_mono; [by apply (create_pending s path l n d)|].
  intros r k' (s2 & ip & ino & -> & -> & Hs2 & Hip & Hrf & Hcr & Hpt & ns & Hroom).
  assert (live sb (bcache sb) (is_cache s2) ino) as Hli.
  { destruct Hcr as [Hi _ He _ _ _]. split; [done|]. rewrite He. destruct Hty as [->| ->]; done. }
  apply (unlock_put_k sb (bcache sb) Hlay ctx p k Hp {[ip]} s2 ip ino); [done|set_solver|done|done|]. rewrite difference_diag_L.
  intros s3 Hs3 Hc3 Hr3 _. apply wp_cache. rewrite Hc3.
  destruct (to_quiet _ _ _ _ (fk_tree _ _ _ _ Hs2)) as [Hai Hh].
  eapply wp_mono; [exact (end_rest sb Hlay Hlog c ctx (is_cache s2) ns 0 Hr Hai Hh Hroom)|].
  intros [] c4 (Hr4 & Hv4 & ws & Hw & Hcrash). apply wp_ret. exists (set_is_cache c4 s3), ino.
  assert (alike sb (bcache sb) (is_cache s2) c4) as Hal by (by apply alike_same_blocks).
  split; [done|]. split; [done|]. split; [exact Hr4|]. split.
  { apply (fs_ok_alike sb (bcache sb) Hlay); [done|by rewrite Hc3|]. split; [apply Hr4|]. apply (idle_held c4); apply Hr4. }
  split; [intros i; change (refs s3 i = refs s i); rewrite Hr3, Hrf; lia|].
  split; [by apply (created_alike sb (bcache sb) Hlay c (is_cache s2)); [apply Hs2|..]|].
  split.
  { change (descend sb (bcache sb) c4 start l = Some ino). rewrite <- Hpt.
    apply (descend_alike sb (bcache sb) Hlay (is_cache s2)); [apply Hs2|done|]. by apply (created_live sb (bcache sb) _ _ _ _ _ _ _ Hcr), (cb_start _ _ _ _ _ Hc). }
  exists ws. split; [done|]. intros j. destruct (Hcrash j) as [H|[H1 H2]]; [by left|right]. split; [done|].
  intros m Hm. rewrite H2 by done. symmetry. by apply Hv4.
Qed.

(** A restart from a disk that holds the blocks of [c]. *)
Lemma restart_tree c d con :
  fs_sound sb (bcache sb) c -> restarts sb d (view c) ->
  exists b, init_filesystem uninit (at_boot d con) = Ok (tt, b) /\ let r := is_cache (fs_inodes b) in
    at_rest sb r /\ alike sb (bcache sb) c r /\ fs_sound sb (bcache sb) r.
Proof.
  intros Hs [Hd Hv]. destruct (init_filesystem_rest sb Hlay Hlog d con uninit Hd) as (b & Heq & Hr & Hb). exists b. split; [done|]. split; [done|].
  assert (alike sb (bcache sb) c (is_cache (fs_inodes b))) as Hal.
  { apply alike_same_blocks. intros m Hm. rewrite Hb by done. by apply Hv. }
  split; [done|]. by apply (fs_sound_alike sb (bcache sb) Hlay c).
Qed.

(** C2: Creating a file is atomic.  When no operation runs, and a path ends in
    a name that is not in its directory, [create] in an operation of its own
    (as [sys_mknodat] calls it, and [sys_openat] with [O_CREAT]) succeeds: an
    inode that was free becomes an empty file of the type asked for, the whole
    path leads to it, every other name and every other file is as before, no
    reference is left, and no operation runs. If the machine stops after any
    number of the device writes that this makes, the next start of the file
    system finds a sound file system again in which either the path does not
    exist, as before, or leads to the new file. *)
Theorem create_crash_atomic path l n d type major minor con :
  let c := is_cache (k_inodes k) in let start := start_of (at_proc p (k_inodes k)) path in
  creatable (k_inodes k) path l n d ->
  type = INODE_REGULAR \/ type = INODE_DEVICE ->
  exists s' ino ws, create_and_put sb (bcache sb) uninit ctx path type major minor k = Ok (0, with_inodes s' k) /\
    let c' := is_cache s' in
    at_rest sb c' /\ fs_ok sb (bcache sb) ∅ s' /\ (forall i, refs s' i = refs (k_inodes k) i) /\
    created sb (bcache sb) c c' d (last_name l) ino (new_entry type major minor) /\
    dv_writes (c_dev c') = dv_writes (c_dev c) ++ ws /\
    forall j, exists b, init_filesystem uninit (at_boot (crashed (c_dev c) (take j ws)) con) = Ok (tt, b) /\
      let r := is_cache (fs_inodes b) in
      at_rest sb r /\ fs_sound sb (bcache sb) r /\
      ((same_blocks sb (view r) (view c) /\ descend sb (bcache sb) r start l = None) \/
       (same_blocks sb (view r) (view c') /\ descend sb (bcache sb) r start l = Some ino /\
        disk_inode sb (bcache sb) r ino = new_entry type major minor)).
Proof using Hp Hlog.
  intros c start Hc Hty.
  destruct (proj1 (wp_ok _ _ _) (mknod_rest (k_inodes k) path l n d type major minor Hc Hty))
    as (r & k' & Heq & s' & ino & -> & -> & Hr & Hok & Hrf & Hcr & Hpt & ws & [_ Hws] & Hcrash).
  rewrite with_inodes_id in Heq. exists s', ino, ws. split; [done|]. do 5 (split; [done|]). intros j.
  pose proof (fk_sound _ _ _ _ (cb_ok _ _ _ _ _ Hc)) as Hs.
  destruct (Hcrash j) as [H|H].
  - destruct (restart_tree c _ con Hs H) as (b & Hb & Hrb & Hal & Hsb). exists b. split; [done|].
    split; [done|]. split; [done|]. left. split; [intros m Hm; by apply Hal|].
    rewrite (descend_alike sb (bcache sb) Hlay c _ l Hs Hal start (cb_start _ _ _ _ _ Hc)).
    rewrite (descend_last sb (bcache sb) c start l d); [|by intros ->; destruct (cb_walk _ _ _ _ _ Hc)|apply Hc|apply Hc|].
    + by rewrite decide_True by exact (cb_new _ _ _ _ _ Hc).
    + apply (parent_is_dir sb (bcache sb) c l n start d); apply Hc.
  - destruct (restart_tree (is_cache s') _ con (fk_sound _ _ _ _ Hok) H) as (b & Hb & Hrb & Hal & Hsb). exists b. split; [done|].
    split; [done|]. split; [done|]. right. split; [intros m Hm; by apply Hal|].
    assert (live sb (bcache sb) (is_cache s') start) as Hls by (by apply (created_live sb (bcache sb) _ _ _ _ _ _ _ Hcr), (cb_start _ _ _ _ _ Hc)).
    split; [by rewrite (descend_alike sb (bcache sb) Hlay _ _ l (fk_sound _ _ _ _ Hok) Hal start Hls)|].
    rewrite (alike_disk_inode sb (bcache sb) Hlay _ _ ino Hal) by apply Hcr. apply Hcr.
Qed.
End atomic.

End CreateAtomic.
