(* ===== verification/CreateDemo.v ===== *)
(** * Creating [/new] on the small file system of FsDemo.v *)
From S2P Require Import Prelude Bitmap FsDefines CString Console BlockIface Cache CacheFacts CacheTx CacheSpec CacheAlloc Inode InodeFacts InodeDisk FsDemo InodeFile DirFacts Namei FileDemo Tree Fs File FileFacts FsAtomic PhysMem VirtMem Kernel Sysfile Create CreateAtomic.

Module CreateDemo.
Import Bitmap CString Console Cache CacheFacts CacheTx CacheSpec CacheAlloc Inode InodeFacts InodeDisk FsDemo InodeFile DirFacts Namei FileDemo Tree Fs File FileFacts FsAtomic PhysMem VirtMem Kernel Sysfile Create CreateAtomic.

#[local] Abbreviation fsb := (bcache fs_sb).

(** ** The file system is sound *)
Lemma fs_used j : used fs_sb fsb fs_cache j -> j = 1 \/ j = 2.
Proof.
  intros [Hi Hty].
  assert (forallb (fun j => (ie_type (disk_inode fs_sb fsb fs_cache j) =? INODE_INVALID) || (j =? 1) || (j =? 2)) (seqZ 1 200) = true) as H
    by (vm_compute; reflexivity).
  rewrite forallb_forall in H. specialize (H j). rewrite <- list_elem_of_In, elem_of_seqZ in H. simpl in Hi. specialize (H ltac:(lia)).
  apply Z.eqb_neq in Hty. rewrite Hty in H. apply orb_true_iff in H as [H|H]; apply Z.eqb_eq in H; auto.
Qed.

Lemma fs_file ino ip i : file_ok fs_sb fsb fs_state ip i -> i_inode_no i = ino -> file_sound fs_sb fsb fs_cache ino.
Proof. intros [_ _ _ _ Hd Hm Hs Hf _] <-. change (is_cache fs_state) with fs_cache in *. split; by rewrite Hd. Qed.

Lemma fs_slots n : n ∈ slots fs_sb fsb fs_cache (disk_inode fs_sb fsb fs_cache 1) -> n ∈ slots fs_sb fsb fs_cache (disk_inode fs_sb fsb fs_cache 2) -> n = 0.
Proof.
  assert (slots fs_sb fsb fs_cache (disk_inode fs_sb fsb fs_cache 1) = 69 :: replicate 140 0) as -> by (vm_compute; reflexivity).
  assert (slots fs_sb fsb fs_cache (disk_inode fs_sb fsb fs_cache 2) = 70 :: replicate 140 0) as -> by (vm_compute; reflexivity).
  intros [->|H1]%elem_of_cons H2; [|by apply elem_of_replicate in H1 as [-> _]].
  apply elem_of_cons in H2 as [?|H2]; [done|]. by apply elem_of_replicate in H2 as [? _].
Qed.

Lemma fs_state_sound : fs_sound fs_sb fsb fs_cache.
Proof.
  split.
  - intros ino [->| ->]%fs_used; [exact (fs_file 1 0 root_inode root_file_ok eq_refl)|exact (fs_file 2 1 hi_inode hi_file_ok eq_refl)].
  - intros i j n [->| ->]%fs_used [->| ->]%fs_used Hij H1 H2; [done|by apply fs_slots|by apply fs_slots|done].
  - intros ino [Hi _] Hd. rewrite (fs_dir_root ino Hi Hd). apply (ds_whole _ _ _ _ root_sound).
  - intros ino d [Hi _] Hd. rewrite (fs_dir_root ino Hi Hd). apply (ds_live _ _ _ _ root_sound).
Qed.

Lemma tree_state_fs_ok : fs_ok fs_sb fsb ∅ tree_state.
Proof.
  split; [exact tree_state_ok|exact fs_state_sound|]. intros j Hj. destruct (decide (j = 1)) as [->|Hne]; [split; [done|vm_compute; discriminate]|].
  exfalso. apply Hj. apply refs_none. intros p i Hp Hi.
  change (({[0%nat := set_i_lock false root_inode]} : gmap nat Inode) !! p = Some i) in Hp.
  apply lookup_singleton_Some in Hp as [_ <-]. by apply Hne.
Qed.

(** ** The state after a start, with the process at the root *)
Definition boot_tree : istate cache := set_is_cache boot_cache tree_state.

Lemma boot_alike : alike fs_sb fsb fs_cache boot_cache.
Proof. apply (alike_same_blocks fs_sb fs_layout). exact boot_same. Qed.

Lemma boot_tree_ok : fs_ok fs_sb fsb ∅ boot_tree.
Proof.
  apply (fs_ok_alike fs_sb fsb fs_layout ∅ tree_state boot_cache tree_state_fs_ok boot_alike).
  split; [exact boot_alloc_inv'|]. apply idle_held; apply boot_rest.
Qed.

Definition root_proc : proc := set_p_cwd (Some 0%nat) zero_proc.
Definition boot_kernel : kernel cache :=
  mkKernel {[ 0%nat := set_c_sched (set_s_ptable [root_proc] zero_scheduler) zero_container ]} 1 no_arena 0 (Some 0%nat) (Some (0%nat, 0%nat))
    (mkKmem (fun _ => 0) 0 false) (mkFstate boot_tree false []) 0 false false.

Definition path_new : list Z := [47; 110; 101; 119].
Definition elems_new : list (nat * list Z) := [(0%nat, [110; 101; 119])].

Lemma boot_has_free2 : has_free fs_sb fsb boot_cache 2.
Proof. destruct boot_has_free as (l & Hnd & Hlen & Hl). exists l. split; [done|]. split; [lia|exact Hl]. Qed.

Lemma boot_creatable : creatable fs_sb fs_layout root_proc boot_tree path_new elems_new 0 1.
Proof.
  split.
  - exact boot_rest.
  - exact boot_tree_ok.
  - repeat constructor; done.
  - done.
  - intros i. by destruct i.
  - repeat constructor; unfold byte_ok; lia.
  - change (live fs_sb fsb boot_cache 1). split; [simpl; lia|]. split; vm_compute; discriminate.
  - vm_compute. discriminate.
  - vm_compute. reflexivity.
  - vm_compute. reflexivity.
  - vm_compute. discriminate.
  - exact boot_has_free2.
  - exists 3. split; [simpl; lia|]. vm_compute. reflexivity.
Qed.

Lemma create_crash_atomic_witness :
  exists s' ino ws, create_and_put fs_sb fsb root_entry 7 path_new INODE_REGULAR 0 0 boot_kernel = Ok (0, with_inodes s' boot_kernel) /\
    let c' := is_cache s' in
    at_rest fs_sb c' /\ fs_ok fs_sb fsb ∅ s' /\ (forall i, refs s' i = refs boot_tree i) /\
    created fs_sb fsb boot_cache c' 1 [110; 101; 119] ino (new_entry INODE_REGULAR 0 0) /\
    dv_writes (c_dev c') = dv_writes (c_dev boot_cache) ++ ws /\
    forall j, exists b, init_filesystem root_entry (at_boot (crashed (c_dev boot_cache) (take j ws)) init_console) = Ok (tt, b) /\
      let r := is_cache (fs_inodes b) in
      at_rest fs_sb r /\ fs_sound fs_sb fsb r /\
      ((same_blocks fs_sb (view r) (view boot_cache) /\ descend fs_sb fsb r 1 elems_new = None) \/
       (same_blocks fs_sb (view r) (view c') /\ descend fs_sb fsb r 1 elems_new = Some ino /\
        disk_inode fs_sb fsb r ino = new_entry INODE_REGULAR 0 0)).
Proof.
  exact (create_crash_atomic fs_sb fs_layout fs_log_layout root_entry 7 root_proc boot_kernel eq_refl path_new elems_new 0 1
    INODE_REGULAR 0 0 init_console boot_creatable (or_introl eq_refl)).
Defined.

(** ** A name that is there, and one that is not *)
Definition begun_kernel : kernel cache := with_inodes (set_is_cache (op_begun boot_cache 7) boot_tree) boot_kernel.

Lemma begun_ok : fs_ok fs_sb fsb ∅ (k_inodes begun_kernel).
Proof.
  destruct (begin_rest fs_sb fs_layout fs_log_layout boot_cache 7 boot_rest) as (_ & Hai & Hh & _).
  apply (fs_ok_alike fs_sb fsb fs_layout ∅ boot_tree (op_begun boot_cache 7) boot_tree_ok); [|by split].
  apply (alike_same_blocks fs_sb fs_layout). intros m _. reflexivity.
Qed.

Lemma begun_room : room fs_sb (OI := any_op fs_sb) (op_begun boot_cache 7) (Some 7%nat) [] 6.
Proof.
  destruct (begin_rest fs_sb fs_layout fs_log_layout boot_cache 7 boot_rest) as (_ & _ & _ & _ & o & Ho & Hok & Hlk & Hnd & Hg & _ & Hle).
  exists o. split_and!; try done. unfold OP_MAX_NUM_BLOCKS in *. lia.
Qed.

(** [/hi] is there and a regular file; [/new] is not. *)
Lemma create_correct_witness :
  (exists r s', create fs_sb fsb root_entry 7 [47; 104; 105] INODE_REGULAR 0 0 begun_kernel = Ok (r, with_inodes s' begun_kernel) /\
    exists ip, r = Some ip /\ fs_ok fs_sb fsb {[ip]} s' /\ holds s' ip 2 /\ forall i, refs s' i = refs boot_tree i + one 2 i) /\
  exists r s', create fs_sb fsb root_entry 7 path_new INODE_DEVICE 1 1 begun_kernel = Ok (r, with_inodes s' begun_kernel) /\
    exists ip ino, r = Some ip /\ holds s' ip ino /\ descend fs_sb fsb (is_cache s') 1 elems_new = Some ino.
Proof.
  assert (forall path l type major minor,
    start_of (at_proc root_proc boot_tree) path = 1 -> Forall elem_ok l -> skip_slashes path = skip_slashes (render l 0) ->
    no_dot_end l 0 -> resolve fs_sb fsb (op_begun boot_cache 7) true 1 l 0 <> Nested -> Forall byte_ok (last_name l) -> removelast l = [] ->
    type = INODE_REGULAR \/ type = INODE_DEVICE ->
    exists r s', create fs_sb fsb root_entry 7 path type major minor begun_kernel = Ok (r, with_inodes s' begun_kernel) /\
      create_post fs_sb fsb (k_inodes begun_kernel) 1 l type major minor r s') as Hgo.
  { intros path l type major minor Hst Hl Hp Hdot Hres Hby Hrem Hty.
    pose proof (create_correct fs_sb fsb fs_layout root_entry 7 root_proc begun_kernel eq_refl path l 0 type major minor begun_ok Hl Hp) as H.
    change (start_of (at_proc root_proc (k_inodes begun_kernel)) path) with (start_of (at_proc root_proc boot_tree) path) in H.
    rewrite Hst, Hrem in H. apply H; try done.
    - exact begun_room.
    - exact boot_has_free2.
    - exact (cb_inode _ _ _ _ _ _ _ _ boot_creatable).
    - intros d [= <-]. exact (cb_slot _ _ _ _ _ _ _ _ boot_creatable). }
  split.
  - destruct (Hgo [47; 104; 105] [(0%nat, [104; 105])] INODE_REGULAR 0 0) as (r & s' & Heq & Hpost);
      [vm_compute; reflexivity| |vm_compute; reflexivity| | | |reflexivity|by left|].
    + repeat constructor; done.
    + intros i. by destruct i.
    + vm_compute. discriminate.
    + repeat constructor; unfold byte_ok; lia.
    + exists r, s'. split; [exact Heq|].
      assert (lookup_in fs_sb fsb (op_begun boot_cache 7) 1 [104; 105] = 2) as Hlk by (vm_compute; reflexivity).
      unfold create_post in Hpost. cbn [removelast descend] in Hpost. change (is_cache (k_inodes begun_kernel)) with (op_begun boot_cache 7) in Hpost.
      change (last_name [(0%nat, [104; 105])]) with [104; 105] in Hpost. cbv zeta in Hpost. rewrite Hlk in Hpost.
      destruct Hpost as [_ Hpost].
      assert (ie_type (disk_inode fs_sb fsb (op_begun boot_cache 7) 2) = INODE_REGULAR) as Hty by (vm_compute; reflexivity).
      rewrite Hty in Hpost. exact Hpost.
  - destruct (Hgo path_new elems_new INODE_DEVICE 1 1) as (r & s' & Heq & Hpost);
      [vm_compute; reflexivity|apply boot_creatable|apply boot_creatable|apply boot_creatable|vm_compute; discriminate|apply boot_creatable|reflexivity|by right|].
    exists r, s'. split; [exact Heq|].
    destruct (create_post_new fs_sb fsb _ _ _ _ _ _ _ _ 1 Hpost) as (ip & ino & -> & _ & Hip & _ & _ & Hpt); [reflexivity|vm_compute; reflexivity|].
    exists ip, ino. split; [reflexivity|]. split; [exact Hip|exact Hpt].
Defined.

End CreateDemo.
