(* ===== verification/Proc.v ===== *)
(** * Processes, schedulers and containers (src/core/proc.c, sched.c, container.c)

    The process table of each container, the allocation of processes and of
    process numbers, the scheduler, and [fork], [exit], [wait], [sleep],
    [wakeup]. A context switch is a parameter: what the other threads do until
    this one runs again. *)
From S2P Require Import Prelude FsDefines BlockIface Inode File PhysMem VirtMem Arena Kernel.

Module Proc.
Import Inode File PhysMem VirtMem Kernel.

Section proc.
Context {St : Type} (sblock : SuperBlock) (cache : BlockCache St) (uninit : InodeEntry).
(** [swtch] (swtch.S): the rest of the system runs until this context is
    switched to. *)
Context (swtch : M (kernel St) unit).
(** [init_filesystem] of fs.c, and the table of page table operations. *)
Context (init_filesystem : M (fstate St) unit) (vmt : VirtualMemoryTable).
(** Code addresses, the offset of [trap_return] and [forkret]. *)
Context (forkret_addr trap_return_addr container_entry_addr : Z).
(** The user code linked into the kernel: from [icode], from [ispin] and from
    [loop_start], and the CPU's number. *)
Context (icode ispin_code loop_code : list Z) (cpuid : nat).
(** The address of the static [arena] of container.c. *)
Context (arena : Z).

(** ** sched.c *)
Definition init_sched_simple (this : nat) : M (kernel St) unit := upd_sched this (set_s_lock false).
Definition acquire_ptable_lock (this : nat) : M (kernel St) unit :=
  c ← get_cont this; assert_ (negb (s_lock (c_sched c)));; upd_sched this (set_s_lock true).
Definition release_ptable_lock (this : nat) : M (kernel St) unit :=
  c ← get_cont this; assert_ (s_lock (c_sched c));; upd_sched this (set_s_lock false).

(** The functions of sched.h call through [thiscpu()->scheduler->op]. *)
Definition with_op {A} (f : nat -> M (kernel St) A) : M (kernel St) A :=
  this ← this_scheduler; c ← get_cont this; assert_ (s_op (c_sched c));; f this.
Definition acquire_sched_lock : M (kernel St) unit := with_op acquire_ptable_lock.
Definition release_sched_lock : M (kernel St) unit := with_op release_ptable_lock.

Definition sched_simple (this : nat) : M (kernel St) unit :=
  c ← get_cont this;
  assert_ (s_lock (c_sched c));;
  p ← cur_proc;
  assert_ (negb (bool_decide (p_state p = RUNNING)));;
  swtch.
Definition sched : M (kernel St) unit := with_op sched_simple.

(** [this->cont->p]: the process that stands for the container. *)
Definition cont_proc (this : nat) : M (kernel St) (option pptr) :=
  c ← get_cont this; c ← get_cont (s_cont (c_sched c)); mret (c_p c).

(** [thiscpu()->scheduler == this && (thiscpu()->proc == this->cont->p || ..)] *)
Definition check_scheduler (this : nat) : M (kernel St) unit :=
  s ← gets k_sched;
  assert_ (bool_decide (s = Some this));;
  p ← gets k_proc;
  me ← cont_proc this;
  root ← gets k_root;
  assert_ (bool_decide (p = me) || bool_decide (this = root)).

Definition yield_scheduler (this : nat) : M (kernel St) unit :=
  root ← gets k_root;
  if bool_decide (this = root) then mret tt
  else
    c ← get_cont this;
    let parent := s_parent (c_sched c) in
    acquire_ptable_lock parent;;
    upd_cur (set_p_state RUNNABLE);;
    modify (set_k_sched (Some parent));;
    c ← get_cont this;
    assert_ (s_lock (c_sched c));;
    release_ptable_lock this;;
    sched_simple parent;;
    acquire_ptable_lock this;;
    release_ptable_lock parent;;
    modify (set_k_sched (Some this)).

(** The CPU turns to the process [p] in entry [i]. *)
Definition run_proc (this : nat) (i : nat) (p : proc) : M (kernel St) unit :=
  uvm_switch (p_pgdir p);;
  modify (set_k_proc (Some (this, i)));;
  upd_proc (this, i) (set_p_state RUNNING).

(** One entry of the process table in the loop of [scheduler_simple]. *)
Definition scheduler_run (this : nat) (i : nat) : M (kernel St) unit :=
  p ← get_proc (this, i);
  whenM (bool_decide (p_state p = RUNNABLE))
    (run_proc this i p;;
     s ← gets k_sched;
     assert_ (bool_decide (s = Some this));;
     swtch;;
     me ← cont_proc this;
     modify (set_k_proc me);;
     modify (set_k_sched (Some this));;
     check_scheduler this;;
     c ← get_cont this;
     assert_ (s_lock (c_sched c));;
     yield_scheduler this;;
     check_scheduler this;;
     c ← get_cont this;
     assert_ (s_lock (c_sched c))).

(** One turn of [for (;;)]. *)
Definition scheduler_turn (this : nat) : M (kernel St) unit :=
  acquire_ptable_lock this;;
  eachM (seq 0 (Z.to_nat NPROC)) (scheduler_run this);;
  check_scheduler this;;
  c ← get_cont this;
  assert_ (s_lock (c_sched c));;
  yield_scheduler this;;
  release_ptable_lock this.

(** It never returns: [turns] is how long it is followed. *)
Fixpoint scheduler_turns (turns : nat) (this : nat) : M (kernel St) unit :=
  match turns with
  | O => nofuel
  | S n => scheduler_turn this;; scheduler_turns n this
  end.
Definition scheduler_simple (turns : nat) (this : nat) : M (kernel St) unit :=
  check_scheduler this;; scheduler_turns turns this.

(** ** Resources of containers *)
(** [return (void * )-1] leaves [this->lock] taken. Entry [pid] of [pmap] must
    exist. One step per container on the way to the root. *)
Fixpoint alloc_resource (fuel : nat) (this : nat) (p : pptr) (resource : resource_t) : M (kernel St) Z :=
  match fuel with
  | O => nofuel
  | S fuel' =>
      c ← get_cont this;
      assert_ (negb (c_lock c));;
      upd_cont this (set_c_lock true);;
      r ← match resource with
          | PID =>
              if s_pid (c_sched c) =? NPID then mret (Some (-1))
              else
                let pid := i32 (s_pid (c_sched c) + 1) in
                upd_sched this (set_s_pid pid);;
                assert_ ((0 <=? pid) && (pid <? NPID));;
                upd_cont this (fun c => set_c_pmap (<[Z.to_nat pid := mkPidMapping true pid (Some p)]> (c_pmap c)) c);;
                mret None
          | MEMORY | INODE => mret None
          end;
      match r with
      | Some v => mret v
      | None =>
          upd_cont this (set_c_lock false);;
          root ← gets k_root;
          (if bool_decide (this = root) then mret tt
           else c ← get_cont this; alloc_resource fuel' (c_parent c) p resource;; mret tt);;
          mret 0
      end
  end.

(** More than the containers there are. *)
Definition cont_fuel (s : kernel St) : nat := S (size (k_conts s)).

Definition alloc_pcb_simple (this : nat) : M (kernel St) (option pptr) :=
  acquire_ptable_lock this;;
  found ← forM (Z.to_nat NPROC) 0 1 (fun i =>
            p ← get_proc (this, Z.to_nat i);
            mret (if bool_decide (p_state p = UNUSED) then Some (this, Z.to_nat i) else None));
  match found with
  | None => release_ptable_lock this;; mret None
  | Some p =>
      c ← get_cont this;
      fuel ← gets cont_fuel;
      alloc_resource fuel (s_cont (c_sched c)) p PID;;
      c ← get_cont this;
      upd_proc p (set_p_pid (s_pid (c_sched c)));;
      upd_proc p (set_p_state EMBRYO);;
      release_ptable_lock this;;
      mret (Some p)
  end.
Definition alloc_pcb : M (kernel St) (option pptr) := with_op alloc_pcb_simple.

(** ** proc.c *)
Definition alloc_proc : M (kernel St) pptr :=
  o ← alloc_pcb;
  p ← from_option_M o;
  pgdir ← onmem (pgdir_init vmt);
  upd_proc p (set_p_pgdir pgdir);;
  sp ← onmem kalloc;
  assert_ (negb (sp =? 0));;
  upd_proc p (set_p_kstack sp);;
  upd_proc p (set_p_tf zero_trapframe);;
  upd_proc p (set_p_context zero_context);;
  upd_proc p (fun x => set_p_context (set_cx_lr0 forkret_addr (p_context x)) x);;
  upd_proc p (fun x => set_p_context (set_cx_lr trap_return_addr (p_context x)) x);;
  mret p.

(** A page with the code, mapped at 0, and the trap frame to start there. *)
Definition load_code (p : pptr) (code : list Z) : M (kernel St) unit :=
  r ← onmem kalloc;
  assert_ (negb (r =? 0));;
  onmem (memset_page r);;
  x ← get_proc p;
  onmem (uvm_map vmt (p_pgdir x) 0 PAGE_SIZE (K2P r));;
  onmem (mem_update (fun m => write_bytes m r code));;
  upd_proc p (set_p_tf zero_trapframe);;
  upd_proc p (fun x => set_p_tf (set_tf_spsr 0 (p_tf x)) x);;
  upd_proc p (fun x => set_p_tf (set_tf_sp PAGE_SIZE (p_tf x)) x);;
  upd_proc p (fun x => set_p_tf (set_tf_x (<[30%nat := 0]> (tf_x (p_tf x))) (p_tf x)) x);;
  upd_proc p (fun x => set_p_tf (set_tf_elr 0 (p_tf x)) x).

Definition spawn_init_process : M (kernel St) unit :=
  p ← alloc_proc;
  load_code p icode;;
  upd_proc p (set_p_sz PAGE_SIZE);;
  upd_proc p (set_p_state RUNNABLE).

Definition add_loop_test (times : Z) : M (kernel St) unit :=
  eachM (seqZ 0 times) (fun _ =>
    p ← alloc_proc;
    load_code p loop_code;;
    upd_proc p (set_p_state RUNNABLE)).

Definition idle_init : M (kernel St) unit :=
  p ← alloc_proc;
  load_code p ispin_code;;
  upd_proc p (set_p_sz PAGE_SIZE);;
  upd_proc p (set_p_state RUNNABLE).

(** [ctx] is the address of the [OpContext]; "/" is the path. *)
Definition forkret (ctx : nat) : M (kernel St) unit :=
  release_sched_lock;;
  b ← gets k_flag_atom;
  modify (set_k_flag_atom true);;
  whenM (negb b)
    (onfs init_filesystem;;
     onfs (fbc (bc_begin_op cache ctx));;
     ip ← oninodes (namei sblock cache uninit [47] ctx);
     upd_cur (set_p_cwd ip);;
     onfs (fbc (bc_end_op cache ctx))).

Definition chan_of (p : option pptr) : chan := match p with Some p => ChProc p | None => ChNone end.

Definition wakeup_withlock (ch : chan) : M (kernel St) unit :=
  this ← this_scheduler;
  eachM (seq 0 (Z.to_nat NPROC)) (fun i =>
    p ← get_proc (this, i);
    whenM (bool_decide (p_state p = SLEEPING) && bool_decide (p_chan p = ch))
      (upd_proc (this, i) (set_p_state RUNNABLE))).

Definition wakeup (ch : chan) : M (kernel St) unit :=
  acquire_sched_lock;; wakeup_withlock ch;; release_sched_lock.

(** The open files of the exiting process. *)
Definition exit_files (ctx : nat) : M (kernel St) unit :=
  eachM (seq 0 (Z.to_nat NOFILE)) (fun fd =>
    p ← cur_proc;
    match p_ofile p !! fd with
    | Some (Some f) =>
        onfiles (fileclose sblock cache ctx f);;
        upd_cur (fun p => set_p_ofile (<[fd := None]> (p_ofile p)) p)
    | _ => mret tt
    end).

(** The part of [exit] under the lock of the process table. *)
Definition exit_mark (me : pptr) : M (kernel St) unit :=
  p ← get_proc me;
  wakeup_withlock (chan_of (p_parent p));;
  this ← this_scheduler;
  eachM (seq 0 (Z.to_nat NPROC)) (fun i =>
    q ← get_proc (this, i);
    whenM (bool_decide (p_parent q = Some me))
      (whenM (bool_decide (p_state q = ZOMBIE)) (wakeup_withlock (chan_of (p_parent q)))));;
  upd_proc me (set_p_state ZOMBIE).

(** It does not return: after [sched] there is a [PANIC]. *)
Definition exit (ctx : nat) : M (kernel St) unit :=
  me ← this_proc;
  exit_files ctx;;
  onfs (fbc (bc_begin_op cache ctx));;
  p ← cur_proc;
  cwd ← from_option_M (p_cwd p);
  oninodes (inode_put sblock cache (Some ctx) cwd);;
  onfs (fbc (bc_end_op cache ctx));;
  upd_cur (set_p_cwd None);;
  acquire_sched_lock;;
  exit_mark me;;
  sched;;
  panic.

Definition yield : M (kernel St) unit :=
  acquire_sched_lock;;
  upd_cur (set_p_state RUNNABLE);;
  sched;;
  release_sched_lock.

(** A spin lock: the lock of a process table, or another one. *)
Record lockref : Type := mkLockref {
  lr_ptable : option nat;
  lr_get : kernel St -> bool;
  lr_set : bool -> kernel St -> kernel St
}.
Definition ptable_lockref (c : nat) : lockref :=
  mkLockref (Some c)
    (fun s => match k_conts s !! c with Some x => s_lock (c_sched x) | None => false end)
    (fun b s => match k_conts s !! c with
                | Some x => set_k_conts (<[c := set_c_sched (set_s_lock b (c_sched x)) x]> (k_conts s)) s
                | None => s
                end).

Definition sleep_mark (ch : chan) : M (kernel St) unit :=
  upd_cur (set_p_chan ch);;
  upd_cur (set_p_state SLEEPING).

(** After [sched] has come back. *)
Definition sleep_return (lock : lockref) : M (kernel St) unit :=
  upd_cur (set_p_chan ChNone);;
  this ← this_scheduler;
  whenM (negb (bool_decide (lr_ptable lock = Some this)))
    (release_sched_lock;;
     b ← gets (lr_get lock);
     assert_ (negb b);;
     modify (lr_set lock true)).

Definition sleep (ch : chan) (lock : lockref) : M (kernel St) unit :=
  h ← gets (lr_get lock);
  assert_ h;;
  this ← this_scheduler;
  whenM (negb (bool_decide (lr_ptable lock = Some this)))
    (acquire_sched_lock;; modify (lr_set lock false));;
  sleep_mark ch;;
  sched;;
  sleep_return lock.

(** The argument and the results of [uvm_alloc] and [uvm_dealloc] cross
    between 64-bit, signed 32-bit and unsigned 32-bit integers. *)
Definition growproc (n : Z) : M (kernel St) Z :=
  p ← cur_proc;
  let sz := u32 (p_sz p) in
  r ← (if 0 <? n then
         r ← onmem (uvm_alloc vmt (p_pgdir p) 0 0 sz (u32 (sz + u32 n)));
         mret (u32 r, u32 r =? 0)
       else if n <? 0 then
         r ← onmem (uvm_dealloc vmt (p_pgdir p) 0 sz (u32 (sz + u32 n)));
         mret (u32 r, u32 r =? 0)
       else mret (sz, false));
  let '(sz, failed) := r in
  if failed : bool then mret (-1)
  else
    upd_cur (set_p_sz sz);;
    uvm_switch (p_pgdir p);;
    mret 0.

Definition fork : M (kernel St) Z :=
  p ← alloc_proc;
  me ← this_proc;
  x ← cur_proc;
  pgdir ← onmem (uvm_copy vmt (p_pgdir x));
  upd_proc p (set_p_pgdir pgdir);;
  if pgdir =? 0 then
    y ← get_proc p;
    onmem (kfree (p_kstack y));;
    upd_proc p (set_p_kstack 0);;
    upd_proc p (set_p_state UNUSED);;
    mret (-1)
  else
    upd_proc p (set_p_sz (p_sz x));;
    upd_proc p (set_p_tf (p_tf x));;
    upd_proc p (fun y => set_p_tf (set_tf_x (<[0%nat := 0]> (tf_x (p_tf y))) (p_tf y)) y);;
    upd_proc p (set_p_parent (Some me));;
    eachM (seq 0 (Z.to_nat NOFILE)) (fun i =>
      x ← cur_proc;
      match p_ofile x !! i with
      | Some (Some f) =>
          f ← onfs (filedup f);
          upd_proc p (fun y => set_p_ofile (<[i := Some f]> (p_ofile y)) y)
      | _ => mret tt
      end);;
    x ← cur_proc;
    cwd ← from_option_M (p_cwd x);
    ip ← oninodes (inode_share cwd);
    upd_proc p (set_p_cwd (Some ip));;
    upd_proc p (set_p_state RUNNABLE);;
    y ← get_proc p;
    mret (p_pid y).

(** The zombie [p] in entry [q] gives its resources back. *)
Definition reap_child (q : pptr) (p : proc) : M (kernel St) Z :=
  upd_proc q (set_p_killed false);;
  upd_proc q (set_p_state UNUSED);;
  upd_proc q (set_p_pid 0);;
  upd_proc q (set_p_parent None);;
  onmem (vm_free vmt (p_pgdir p));;
  onmem (kfree (p_kstack p));;
  release_sched_lock;;
  mret (p_pid p).

(** The loop over the process table: [Some pid] when a child was a zombie. The
    second result is [havekids]. *)
Definition reap (me : pptr) (this : nat) : M (kernel St) (option Z * bool) :=
  kids ← gets (fun s => match k_conts s !! this with
                        | Some c => existsb (fun p => bool_decide (p_parent p = Some me)) (s_ptable (c_sched c))
                        | None => false
                        end);
  r ← forM (Z.to_nat NPROC) 0 1 (fun i =>
        let q := (this, Z.to_nat i) in
        p ← get_proc q;
        if bool_decide (p_parent p = Some me) && bool_decide (p_state p = ZOMBIE) then
          pid ← reap_child q p; mret (Some pid)
        else mret None);
  mret (r, kids).

(** One turn of the loop of [wait]: what it returns, or [None] to sleep. *)
Definition wait_scan : M (kernel St) (option Z) :=
  me ← this_proc;
  this ← this_scheduler;
  r ← reap me this;
  match r.1 with
  | Some pid => mret (Some pid)
  | None =>
      p ← cur_proc;
      if negb r.2 || p_killed p then release_sched_lock;; mret (Some (-1)) else mret None
  end.

(** [rounds] bounds how often the process is woken up. *)
Fixpoint wait_loop (rounds : nat) : M (kernel St) Z :=
  match rounds with
  | O => nofuel
  | S n =>
      r ← wait_scan;
      match r with
      | Some v => mret v
      | None =>
          me ← this_proc;
          this ← this_scheduler;
          sleep (ChProc me) (ptable_lockref this);;
          wait_loop n
      end
  end.
Definition wait (rounds : nat) : M (kernel St) Z := acquire_sched_lock;; wait_loop rounds.

(** ** container.c *)
Definition container_entry (turns : nat) : M (kernel St) unit :=
  release_sched_lock;;
  p ← cur_proc;
  c ← from_option_M (p_cont p);
  modify (set_k_sched (Some c));;
  b ← gets k_do_cont_test;
  whenM b (modify (set_k_do_cont_test false);; add_loop_test 8);;
  with_op (scheduler_simple turns);;
  panic.

(** [alloc_object] gives an object that no one else has: it is known by its
    number from here on. *)
Definition alloc_container (root : bool) : M (kernel St) (option nat) :=
  object ← onarena (Arena.alloc_object kalloc arena);
  if object =? 0 then mret None
  else
    c ← gets k_next;
    modify (set_k_next (S c));;
    modify (fun s => set_k_conts (<[c := zero_container]> (k_conts s)) s);;
    upd_sched c (set_s_pid 0);;
    if root then mret (Some c)
    else
      o ← alloc_pcb;
      match o with
      | None => mret (Some c)
      | Some p =>
          pgdir ← onmem (pgdir_init vmt);
          upd_proc p (set_p_pgdir pgdir);;
          eachM (seq 0 (Z.to_nat NCPU)) (fun i =>
            sp ← onmem kalloc;
            assert_ (negb (sp =? 0));;
            upd_sched c (fun s => set_s_context (<[i := set_cx_lr0 container_entry_addr zero_context]> (s_context s)) s));;
          upd_cont c (set_c_p (Some p));;
          upd_proc p (set_p_cont (Some c));;
          upd_proc p (set_p_is_scheduler true);;
          upd_proc p (set_p_state RUNNABLE);;
          mret (Some c)
      end.

Definition init_container : M (kernel St) unit :=
  onarena (Arena.init_arena arena sizeof_container);;
  o ← alloc_container true;
  c ← from_option_M o;
  modify (set_k_root c);;
  upd_cont c (set_c_parent c);;
  upd_cont c (set_c_lock false);;
  init_sched_simple c;;
  upd_cont c (set_c_p None);;
  upd_sched c (set_s_op true);;
  upd_sched c (set_s_cont c).

(** The operations are always [simple_op]; [None] is the null pointer. *)
Definition spawn_container (this : option nat) (op : bool) : M (kernel St) (option nat) :=
  match this with
  | None => mret None
  | Some this =>
      o ← alloc_container false;
      match o with
      | None => mret None
      | Some c =>
          upd_sched c (set_s_op op);;
          upd_sched c (set_s_cont c);;
          upd_sched c (set_s_parent this);;
          upd_cont c (set_c_parent this);;
          upd_cont c (set_c_lock false);;
          init_sched_simple c;;
          mret (Some c)
      end
  end.

Definition container_test_init : M (kernel St) unit :=
  modify (set_k_do_cont_test true);;
  add_loop_test 1;;
  root ← gets k_root;
  c ← spawn_container (Some root) true;
  assert_ (bool_decide (is_Some c)).

End proc.
End Proc.
