(* ===== verification/ProcFacts.v ===== *)
(** * Facts about processes and containers (src/core/proc.c, sched.c, container.c)

    A process gets a number in its container and in every container above it;
    the numbers in use in a table are distinct. *)
From S2P Require Import Prelude FsDefines Console BlockIface Inode File PhysMem VirtMem Kernel Proc.

Module ProcFacts.
Import Console Inode File PhysMem VirtMem Kernel Proc.

Section facts.
Context {St : Type}.
Implicit Types (s : kernel St).

(** ** Containers *)
Lemma wp_get_cont s c x (Q : container -> kernel St -> Prop) : k_conts s !! c = Some x -> Q x s -> wp (get_cont c) Q s.
Proof. intros Hc HQ. unfold get_cont. apply wp_bind, wp_gets. rewrite Hc. by apply wp_ret. Qed.

Lemma wp_upd_cont s c x f (Q : unit -> kernel St -> Prop) :
  k_conts s !! c = Some x -> Q tt (set_k_conts (<[c := f x]> (k_conts s)) s) -> wp (upd_cont c f) Q s.
Proof. intros Hc HQ. unfold upd_cont. apply wp_bind, (wp_get_cont _ _ x); [done|]. by apply wp_modify. Qed.

Lemma wp_get_proc s p c x (Q : proc -> kernel St -> Prop) :
  k_conts s !! p.1 = Some c -> s_ptable (c_sched c) !! p.2 = Some x -> Q x s -> wp (get_proc p) Q s.
Proof. intros Hc Hx HQ. unfold get_proc. apply wp_bind, (wp_get_cont _ _ c); [done|]. rewrite Hx. by apply wp_ret. Qed.

(** The table of [c] with the process [i] replaced. *)
Definition put_proc (i : nat) (x : proc) (c : container) : container :=
  set_c_sched (set_s_ptable (<[i := x]> (s_ptable (c_sched c))) (c_sched c)) c.

Lemma wp_upd_proc s p c x f (Q : unit -> kernel St -> Prop) :
  k_conts s !! p.1 = Some c -> s_ptable (c_sched c) !! p.2 = Some x ->
  Q tt (set_k_conts (<[p.1 := put_proc p.2 (f x) c]> (k_conts s)) s) -> wp (upd_proc p f) Q s.
Proof.
  intros Hc Hx HQ. unfold upd_proc. apply wp_bind, (wp_get_proc _ _ c x); [done|done|].
  unfold upd_sched. by apply (wp_upd_cont _ _ c).
Qed.

(** ** Numbers along the containers *)
(** The containers from [c] up to the root. *)
Fixpoint ancestry (s : kernel St) (c : nat) (l : list nat) : Prop :=
  match l with
  | [] => False
  | d :: l' =>
      c = d /\ exists x, k_conts s !! c = Some x /\ c_lock x = false /\
      0 <= s_pid (c_sched x) < NPID - 1 /\ length (c_pmap x) = 64%nat /\
      if bool_decide (c = k_root s) then l' = [] else ancestry s (c_parent x) l'
  end.

Definition take_pid (p : pptr) (c : container) : container :=
  let pid := s_pid (c_sched c) + 1 in
  set_c_pmap (<[Z.to_nat pid := mkPidMapping true pid (Some p)]> (c_pmap c)) (set_c_sched (set_s_pid pid (c_sched c)) c).

Lemma ancestry_frame s s' c l :
  k_root s' = k_root s -> (forall d, d ∈ l -> k_conts s' !! d = k_conts s !! d) -> ancestry s c l -> ancestry s' c l.
Proof.
  intros Hr. revert c. induction l as [|d l IH]; intros c H; [done|]. simpl. intros (-> & x & Hx & Hl & Hp & Hm & Hrest).
  split; [done|]. exists x. rewrite H by (by left). split_and!; [done|done|lia|lia|done|]. rewrite Hr.
  case_bool_decide; [done|]. apply IH; [|done]. intros e He. apply H. by right.
Qed.

Lemma set_conts_twice s m m' : set_k_conts m (set_k_conts m' s) = set_k_conts m s.
Proof. done. Qed.

Lemma alloc_resource_ok fuel s c l p :
  ancestry s c l -> NoDup l -> (length l <= fuel)%nat ->
  wp (alloc_resource fuel c p PID) (fun r s' => r = 0 /\ exists m, s' = set_k_conts m s /\
    forall d, m !! d = if decide (d ∈ l) then take_pid p <$> (k_conts s !! d) else k_conts s !! d) s.
Proof.
  revert s c l. induction fuel as [|fuel IH]; intros s c l Ha Hnd Hf; [destruct l; simpl in *; [done|lia]|].
  destruct l as [|d l]; [done|]. simpl in Ha. destruct Ha as (<- & x & Hx & Hlk & Hp & Hm & Hrest).
  apply NoDup_cons in Hnd as [Hni Hnd]. simpl. unfold NPID in *.
  apply wp_bind, (wp_get_cont _ _ x); [done|]. apply wp_bind, wp_assert; [by rewrite Hlk|].
  apply wp_bind, (wp_upd_cont _ _ x); [done|].
  rewrite (proj2 (Z.eqb_neq (s_pid (c_sched x)) 64)) by lia. rewrite i32_id by lia.
  apply wp_bind, wp_bind. unfold upd_sched. eapply wp_upd_cont; [apply lookup_insert_eq|].
  rewrite set_conts_twice. simpl k_conts. rewrite insert_insert_eq.
  apply wp_bind, wp_assert; [apply andb_true_iff; rewrite Z.leb_le, Z.ltb_lt; lia|].
  apply wp_bind. eapply wp_upd_cont; [apply lookup_insert_eq|]. rewrite set_conts_twice. simpl k_conts. rewrite insert_insert_eq.
  apply wp_ret, wp_bind. eapply wp_upd_cont; [apply lookup_insert_eq|]. rewrite set_conts_twice. simpl k_conts. rewrite insert_insert_eq.
  match goal with |- context [<[c := ?t]> (k_conts s)] => replace t with (take_pid p x) end.
  2: { unfold take_pid. destruct x; simpl in *. by subst. }
  apply wp_bind, wp_gets. simpl k_root. case_bool_decide as Hroot.
  - subst l. apply wp_bind, wp_ret, wp_ret. split; [done|]. eexists. split; [done|]. intros d.
    destruct (decide (d ∈ [c])) as [H|H]; rewrite list_elem_of_singleton in H.
    + subst d. by rewrite lookup_insert_eq, Hx.
    + by rewrite lookup_insert_ne.
  - apply wp_bind, wp_bind. eapply wp_get_cont; [apply lookup_insert_eq|].
    apply wp_bind. eapply wp_mono; [apply (IH _ _ l); [|done|simpl in Hf; lia]|].
    { eapply (ancestry_frame s); [done| |exact Hrest]. intros e He. simpl. rewrite lookup_insert_ne; [done|]. by intros ->. }
    intros r s' (-> & m & -> & Hmm). apply wp_ret, wp_ret. split; [done|]. exists m. split; [done|].
    intros d. rewrite Hmm. simpl k_conts. destruct (decide (d = c)) as [->|Hd].
    + rewrite decide_False by done. rewrite decide_True by (by left). by rewrite lookup_insert_eq, Hx.
    + rewrite lookup_insert_ne by done. destruct (decide (d ∈ l)).
      * by rewrite decide_True by (by right).
      * rewrite decide_False; [done|]. by intros [?|?]%elem_of_cons.
Qed.

(** ** Process tables *)
Definition used (p : proc) : Prop := p_state p <> UNUSED.

(** The numbers of the processes of a table: given out by its container, and
    distinct. *)
Record pids_ok (x : container) : Prop := {
  po_len : length (s_ptable (c_sched x)) = 14%nat;
  po_range : forall i p, s_ptable (c_sched x) !! i = Some p -> used p -> 0 < p_pid p <= s_pid (c_sched x);
  po_inj : forall i j p q, s_ptable (c_sched x) !! i = Some p -> s_ptable (c_sched x) !! j = Some q ->
    used p -> used q -> p_pid p = p_pid q -> i = j
}.

Definition embryo (pid : Z) (p : proc) : proc := set_p_state EMBRYO (set_p_pid pid p).

Lemma pids_ok_embryo x i p q :
  pids_ok x -> s_ptable (c_sched x) !! i = Some p -> ~ used p -> 0 <= s_pid (c_sched x) ->
  pids_ok (put_proc i (embryo (s_pid (c_sched x) + 1) p) (take_pid q x)).
Proof.
  intros [Hl Hr Hi] Hp Hu Hpid. pose proof (lookup_lt_Some _ _ _ Hp) as Hlt. split; simpl.
  - by rewrite length_insert.
  - intros j y Hy Huy. destruct (decide (i = j)) as [<-|Hn].
    + rewrite list_lookup_insert_eq in Hy by done. injection Hy as <-. simpl. lia.
    + rewrite list_lookup_insert_ne in Hy by done. specialize (Hr _ _ Hy Huy). lia.
  - intros j k y z Hy Hz Huy Huz E. destruct (decide (i = j)) as [<-|Hj], (decide (i = k)) as [<-|Hk]; [done| | |].
    + rewrite list_lookup_insert_eq in Hy by done. injection Hy as <-. rewrite list_lookup_insert_ne in Hz by done.
      specialize (Hr _ _ Hz Huz). simpl in E. lia.
    + rewrite list_lookup_insert_eq in Hz by done. injection Hz as <-. rewrite list_lookup_insert_ne in Hy by done.
      specialize (Hr _ _ Hy Huy). simpl in E. lia.
    + rewrite list_lookup_insert_ne in Hy, Hz by done. by eapply Hi.
Qed.

Lemma put_proc_twice i p q x : put_proc i q (put_proc i p x) = put_proc i q x.
Proof. unfold put_proc, set_c_sched, set_s_ptable. simpl. by rewrite list_insert_insert_eq. Qed.
Lemma put_proc_lookup i p x : (i < length (s_ptable (c_sched x)))%nat -> s_ptable (c_sched (put_proc i p x)) !! i = Some p.
Proof. intros Hi. simpl. by apply list_lookup_insert_eq. Qed.

Lemma pids_ok_replace i p q x : pids_ok (put_proc i p x) -> used p -> p_pid q = p_pid p -> pids_ok (put_proc i q x).
Proof.
  intros [Hl Hr Hinj] Hp Hpid. simpl in *. rewrite length_insert in Hl.
  assert (forall j y, <[i := q]> (s_ptable (c_sched x)) !! j = Some y -> used y ->
    exists y', <[i := p]> (s_ptable (c_sched x)) !! j = Some y' /\ used y' /\ p_pid y' = p_pid y) as Hsame.
  { intros j y Hy Hu. destruct (decide (i = j)) as [<-|Hne].
    - assert (i < length (s_ptable (c_sched x)))%nat as Hi by (apply lookup_lt_Some in Hy; by rewrite length_insert in Hy).
      rewrite list_lookup_insert_eq in Hy by done. injection Hy as <-. exists p. by rewrite list_lookup_insert_eq.
    - rewrite list_lookup_insert_ne in Hy by done. exists y. by rewrite list_lookup_insert_ne. }
  split; simpl.
  - by rewrite length_insert.
  - intros j y Hy Hu. destruct (Hsame j y Hy Hu) as (y' & Hy' & Hu' & <-). by apply (Hr j y').
  - intros j k y z Hy Hz Huy Huz Heq. destruct (Hsame j y Hy Huy) as (y' & Hy' & Hu' & Ey). destruct (Hsame k z Hz Huz) as (z' & Hz' & Hv' & Ez).
    apply (Hinj j k y' z'); try done. by rewrite Ey, Ez.
Qed.

(** The search for an unused entry. *)
Lemma find_unused s this x (Q : option pptr -> kernel St -> Prop) :
  k_conts s !! this = Some x -> length (s_ptable (c_sched x)) = 14%nat ->
  (forall i p, s_ptable (c_sched x) !! i = Some p -> ~ used p ->
     (forall j q, (j < i)%nat -> s_ptable (c_sched x) !! j = Some q -> used q) -> Q (Some (this, i)) s) ->
  ((forall j q, s_ptable (c_sched x) !! j = Some q -> used q) -> Q None s) ->
  wp (forM (Z.to_nat NPROC) 0 1 (fun i =>
        p ← get_proc (this, Z.to_nat i);
        mret (if bool_decide (p_state p = UNUSED) then Some (this, Z.to_nat i) else None))) Q s.
Proof.
  intros Hx Hlen HS HN.
  apply (wp_forM _ _ _ _ (fun k s' => s' = s /\ forall j q, (j < Z.to_nat k)%nat -> s_ptable (c_sched x) !! j = Some q -> used q)).
  - split; [done|]. intros j q Hj. simpl in Hj. lia.
  - intros k s' Hk [-> Hused]. rewrite Z.mul_1_l, Z.add_0_l in *. rewrite !Nat2Z.id in *.
    destruct (lookup_lt_is_Some_2 (s_ptable (c_sched x)) k) as [p Hp]; [rewrite Hlen; exact Hk|].
    apply wp_bind, (wp_get_proc _ _ x p); [done|done|]. apply wp_ret. case_bool_decide as Hu.
    + apply (HS k p); [done|intros H; by apply H|]. intros j q Hj Hq. by apply (Hused j).
    + split; [done|]. intros j q Hj Hq. destruct (decide (j = k)) as [->|Hn]; [congruence|]. apply (Hused j q); [lia|done].
  - intros s' [-> Hused]. apply HN. intros j q Hq. apply (Hused j q); [|done].
    pose proof (lookup_lt_Some _ _ _ Hq) as Hlt. rewrite Hlen in Hlt. exact Hlt.
Qed.

End facts.

Section alloc.
Context {St : Type}.
Implicit Types (s : kernel St).

(** What [alloc_pcb_simple] on the container [x] at [this] returns and leaves. *)
Definition pcb_allocated (s : kernel St) (this : nat) (x : container) (l : list nat) (r : option pptr) (m : gmap nat container) : Prop :=
  match r with
  | None => (forall j q, s_ptable (c_sched x) !! j = Some q -> used q) /\ forall d, m !! d = k_conts s !! d
  | Some q => exists i p, q = (this, i) /\ s_ptable (c_sched x) !! i = Some p /\ ~ used p /\
      (forall j y, (j < i)%nat -> s_ptable (c_sched x) !! j = Some y -> used y) /\
      m !! this = Some (put_proc i (embryo (s_pid (c_sched x) + 1) p) (take_pid q x)) /\
      pids_ok (put_proc i (embryo (s_pid (c_sched x) + 1) p) (take_pid q x)) /\
      (forall d, d <> this -> m !! d = if decide (d ∈ l) then take_pid q <$> (k_conts s !! d) else k_conts s !! d)
  end.

Lemma ancestry_locked (s : kernel St) this x l :
  k_conts s !! this = Some x -> ancestry s this l -> NoDup l ->
  ancestry (set_k_conts (<[this := set_c_sched (set_s_lock true (c_sched x)) x]> (k_conts s)) s) this l.
Proof.
  intros Hx Ha Hnd. destruct l as [|d l']; [done|]. simpl in Ha |- *. destruct Ha as (-> & y & Hy & Hl' & Hpid & Hpm & Hrest). split; [done|].
  eexists. split; [apply lookup_insert_eq|]. assert (y = x) as -> by congruence. split_and!; [done|exact (proj1 Hpid)|exact (proj2 Hpid)|done|].
  change (k_root (set_k_conts _ s)) with (k_root s). case_bool_decide; [done|]. simpl c_parent.
  apply (ancestry_frame s); [done| |exact Hrest]. intros e He. apply NoDup_cons in Hnd as [Hni _].
  simpl. rewrite lookup_insert_ne; [done|]. by intros ->.
Qed.

Lemma alloc_pcb_ok s this x l :
  k_conts s !! this = Some x -> s_lock (c_sched x) = false -> s_cont (c_sched x) = this ->
  pids_ok x -> ancestry s this l -> NoDup l -> (length l <= S (size (k_conts s)))%nat ->
  wp (alloc_pcb_simple this) (fun r s' => exists m, s' = set_k_conts m s /\ pcb_allocated s this x l r m) s.
Proof.
  intros Hx Hlk Hcont Hp Ha Hnd Hfuel.
  assert (exists l', l = this :: l') as [l' El] by (destruct l as [|d l']; [done|]; destruct Ha as [-> _]; by eexists).
  set (x1 := set_c_sched (set_s_lock true (c_sched x)) x).
  set (s1 := set_k_conts (<[this := x1]> (k_conts s)) s).
  assert (k_conts s1 !! this = Some x1) as Hx1 by apply lookup_insert_eq.
  unfold alloc_pcb_simple. apply wp_bind. unfold acquire_ptable_lock. apply wp_bind, (wp_get_cont _ _ x); [done|].
  apply wp_bind, wp_assert; [by rewrite Hlk|]. unfold upd_sched at 1. apply (wp_upd_cont _ _ x); [done|]. fold x1 s1.
  apply wp_bind. apply (find_unused s1 this x1); [done|apply Hp| |].
  - intros i p Hpi Hu Hfirst. apply wp_bind, (wp_get_cont _ _ x1); [done|]. apply wp_bind, wp_gets.
    simpl s_cont. rewrite Hcont.
    assert (ancestry s1 this l) as Ha1 by (by apply ancestry_locked).
    apply wp_bind. eapply wp_mono; [apply (alloc_resource_ok _ s1 this l); [done|done|]|].
    { unfold cont_fuel. simpl k_conts. rewrite map_size_insert_Some by done. done. }
    intros r s2 (-> & m & -> & Hm).
    assert (m !! this = Some (take_pid (this, i) x1)) as Hmt.
    { rewrite Hm, decide_True by (rewrite El; by left). by rewrite Hx1. }
    apply wp_bind, (wp_get_cont _ _ (take_pid (this, i) x1)); [done|].
    apply wp_bind, (wp_upd_proc _ _ (take_pid (this, i) x1) p); [done|done|]. rewrite set_conts_twice. simpl k_conts.
    apply wp_bind. eapply wp_upd_proc; [apply lookup_insert_eq|simpl; apply list_lookup_insert_eq; by eapply lookup_lt_Some|].
    rewrite set_conts_twice. simpl k_conts. rewrite insert_insert_eq.
    apply wp_bind. unfold release_ptable_lock. apply wp_bind. eapply wp_get_cont; [apply lookup_insert_eq|].
    apply wp_bind, wp_assert; [done|]. unfold upd_sched. eapply wp_upd_cont; [apply lookup_insert_eq|].
    rewrite set_conts_twice. simpl k_conts. rewrite insert_insert_eq. apply wp_ret. eexists. split; [done|].
    exists i, p. split_and!; try done.
    + rewrite lookup_insert_eq. f_equal. clear -Hlk. unfold put_proc, take_pid, x1, embryo.
      destruct x as [cp [op ct pt lk pid par sc] cl cpar pm]. simpl in *. subst lk. unfold set_c_sched, set_s_ptable. simpl.
      by rewrite list_insert_insert_eq.
    + apply pids_ok_embryo; try done. rewrite El in Ha. destruct Ha as (_ & y & Hy & _ & ? & _). assert (y = x) as -> by congruence. lia.
    + intros d Hd. rewrite lookup_insert_ne by done. rewrite Hm. simpl. by rewrite lookup_insert_ne.
  - intros Hall. apply wp_bind. unfold release_ptable_lock. apply wp_bind, (wp_get_cont _ _ x1); [done|].
    apply wp_bind, wp_assert; [done|]. unfold upd_sched. apply (wp_upd_cont _ _ x1); [done|].
    apply wp_ret. eexists. split; [done|]. split; [done|]. intros d. simpl. rewrite insert_insert_eq.
    destruct (decide (d = this)) as [->|Hd]; [|by rewrite lookup_insert_ne].
    rewrite lookup_insert_eq, Hx. f_equal. unfold x1. destruct x as [cp sc cl cpar pm]. simpl in *. f_equal. destruct sc. simpl in *. by subst.
Qed.

(** [alloc_pcb_simple] takes the first unused entry of the process table,
    gives it the next number of its container and makes it an embryo; the
    container and every container above it record the process under their own
    next number; no other process or container changes and the numbers in use
    stay distinct. It returns null exactly when the table is full. *)
Theorem alloc_pcb_fresh s this x l :
  k_conts s !! this = Some x -> s_lock (c_sched x) = false -> s_cont (c_sched x) = this ->
  pids_ok x -> ancestry s this l -> NoDup l -> (length l <= S (size (k_conts s)))%nat ->
  exists r m, alloc_pcb_simple this s = Ok (r, set_k_conts m s) /\
    match r with
    | None => (forall j q, s_ptable (c_sched x) !! j = Some q -> used q) /\ forall d, m !! d = k_conts s !! d
    | Some q => exists i p, q = (this, i) /\ s_ptable (c_sched x) !! i = Some p /\ ~ used p /\
        (forall j y, (j < i)%nat -> s_ptable (c_sched x) !! j = Some y -> used y) /\
        m !! this = Some (put_proc i (embryo (s_pid (c_sched x) + 1) p) (take_pid q x)) /\
        pids_ok (put_proc i (embryo (s_pid (c_sched x) + 1) p) (take_pid q x)) /\
        (forall d, d <> this -> m !! d = if decide (d ∈ l) then take_pid q <$> (k_conts s !! d) else k_conts s !! d)
    end.
Proof.
  intros Hx Hlk Hcont Hp Ha Hnd Hfuel.
  destruct (proj1 (wp_ok _ _ _) (alloc_pcb_ok s this x l Hx Hlk Hcont Hp Ha Hnd Hfuel)) as (r & s' & Heq & m & -> & Hm). by exists r, m.
Qed.

(** The limits of a container: once 63 numbers are given out the next one
    would be written past the end of [pmap], which has entries 0 to 63 (the
    model stops there); a container that has reached [NPID] reports an error
    to its caller and keeps its lock. *)
Theorem alloc_resource_limits fuel s c x p :
  k_conts s !! c = Some x -> c_lock x = false -> (0 < fuel)%nat ->
  (s_pid (c_sched x) = NPID - 1 -> alloc_resource fuel c p PID s = Panic) /\
  (s_pid (c_sched x) = NPID -> exists s', alloc_resource fuel c p PID s = Ok (-1, s') /\
     k_conts s' !! c = Some (set_c_lock true x)).
Proof.
  intros Hx Hl Hf. destruct fuel as [|fuel]; [lia|]. simpl. unfold get_cont, upd_cont, mbind, M_bind, gets, modify. rewrite Hx. simpl.
  rewrite Hl. simpl. unfold get_cont, mbind, M_bind, gets. rewrite Hx. simpl. split; intros E; rewrite E; simpl.
  - unfold upd_sched, upd_cont, get_cont, mbind, M_bind, gets, modify. simpl. by rewrite lookup_insert_eq.
  - eexists. split; [done|]. simpl. apply lookup_insert_eq.
Qed.

End alloc.

(** ** A kernel with one container *)
Definition demo_istate : istate unit := mkIstate tt ∅ 0 [] false init_console 0 false.
Definition demo_container (pid : Z) : container :=
  set_c_sched (set_s_pid pid (set_s_op true (c_sched zero_container))) zero_container.
Definition demo_kernel (pid : Z) : kernel unit :=
  mkKernel {[ 0%nat := demo_container pid ]} 1 no_arena 0 (Some 0%nat) (Some (0%nat, 3%nat)) (mkKmem (fun _ => 0) 0 false)
    (mkFstate demo_istate false []) 0 false false.

Lemma alloc_pcb_fresh_witness :
  exists r m, alloc_pcb_simple 0 (demo_kernel 7) = Ok (r, set_k_conts m (demo_kernel 7)) /\
    match r with
    | None => (forall j q, s_ptable (c_sched (demo_container 7)) !! j = Some q -> used q) /\ forall d, m !! d = k_conts (demo_kernel 7) !! d
    | Some q => exists i p, q = (0%nat, i) /\ s_ptable (c_sched (demo_container 7)) !! i = Some p /\ ~ used p /\
        (forall j y, (j < i)%nat -> s_ptable (c_sched (demo_container 7)) !! j = Some y -> used y) /\
        m !! 0%nat = Some (put_proc i (embryo (s_pid (c_sched (demo_container 7)) + 1) p) (take_pid q (demo_container 7))) /\
        pids_ok (put_proc i (embryo (s_pid (c_sched (demo_container 7)) + 1) p) (take_pid q (demo_container 7))) /\
        (forall d, d <> 0%nat -> m !! d = if decide (d ∈ [0%nat]) then take_pid q <$> (k_conts (demo_kernel 7) !! d) else k_conts (demo_kernel 7) !! d)
    end.
Proof.
  apply (alloc_pcb_fresh (demo_kernel 7) 0 (demo_container 7) [0%nat]).
  - done.
  - done.
  - done.
  - split; simpl; [done| |]; intros; exfalso;
      repeat match goal with H : ?l !! _ = Some ?p, U : used ?p |- _ =>
        apply U; apply (list_elem_of_lookup_2 l) in H; simpl in H; rewrite ?elem_of_cons, ?elem_of_nil in H; naive_solver end.
  - split; [done|]. exists (demo_container 7). split_and!; done.
  - apply NoDup_singleton.
  - vm_compute. lia.
Defined.

Lemma alloc_resource_limits_witness :
  alloc_resource 1 0 (0%nat, 0%nat) PID (demo_kernel 63) = Panic /\
  exists s', alloc_resource 1 0 (0%nat, 0%nat) PID (demo_kernel 64) = Ok (-1, s') /\
     k_conts s' !! 0%nat = Some (set_c_lock true (demo_container 64)).
Proof.
  split.
  - apply (alloc_resource_limits 1 (demo_kernel 63) 0 (demo_container 63) (0%nat, 0%nat)); [done|done|lia|done].
  - apply (alloc_resource_limits 1 (demo_kernel 64) 0 (demo_container 64) (0%nat, 0%nat)); [done|done|lia|done].
Defined.

End ProcFacts.
