(* ===== verification/ProcTable.v ===== *)
(** * The process table between processes (src/core/proc.c, sched.c)

    The critical sections of [exit], [wait], [sleep], [wakeup], of the
    scheduler and of the allocation of processes as the steps of one process
    table, in any order and by any CPU: every step runs the function of Proc.v
    that the code runs under the lock of the table. *)
From S2P Require Import Prelude FsDefines Console BlockIface Inode File PhysMem VirtMem Kernel Proc ProcFacts.

Module ProcTable.
Import Inode File PhysMem VirtMem Kernel Proc ProcFacts.

Section table.
Context {St : Type}.
Implicit Types (s : kernel St).

(** ** Tables *)
Definition table (c : nat) s : option (list proc) := (fun x => s_ptable (c_sched x)) <$> k_conts s !! c.

Definition with_table (c : nat) (t : list proc) s : kernel St :=
  set_k_conts (alter (fun x => set_c_sched (set_s_ptable t (c_sched x)) x) c (k_conts s)) s.

Lemma table_with_table c t t0 s : table c s = Some t0 -> table c (with_table c t s) = Some t.
Proof.
  unfold table, with_table. simpl. rewrite lookup_alter_eq. by destruct (k_conts s !! c).
Qed.

Lemma table_with_table_ne c d t s : c <> d -> table d (with_table c t s) = table d s.
Proof. intros Hn. unfold table, with_table. simpl. by rewrite lookup_alter_ne. Qed.

Lemma with_table_twice c t1 t2 s : with_table c t2 (with_table c t1 s) = with_table c t2 s.
Proof.
  unfold with_table. simpl. unfold set_k_conts. simpl. f_equal. apply map_eq. intros d.
  destruct (decide (c = d)) as [<-|Hn]; [|by rewrite !lookup_alter_ne].
  rewrite !lookup_alter_eq. by destruct (k_conts s !! c).
Qed.

Lemma with_table_same c t s : table c s = Some t -> with_table c t s = s.
Proof.
  unfold table, with_table. destruct (k_conts s !! c) as [x|] eqn:E; [|done]. intros [= <-].
  unfold set_k_conts. destruct s; simpl in *. f_equal. apply alter_id. intros y Hy.
  rewrite E in Hy. injection Hy as <-. by destruct x as [? [] ? ? ?].
Qed.

Lemma get_proc_eq p t x s : table p.1 s = Some t -> t !! p.2 = Some x -> get_proc p s = Ok (x, s).
Proof.
  unfold table, get_proc, get_cont, mbind, M_bind, gets. destruct (k_conts s !! p.1) as [c|]; [|done].
  intros [= <-] Hx. simpl. by rewrite Hx.
Qed.

Lemma upd_proc_eq p f t x s :
  table p.1 s = Some t -> t !! p.2 = Some x -> upd_proc p f s = Ok (tt, with_table p.1 (<[p.2 := f x]> t) s).
Proof.
  intros Ht Hx. unfold upd_proc. unfold mbind at 1, M_bind at 1. rewrite (get_proc_eq p t x) by done.
  unfold table in Ht. unfold upd_sched, upd_cont, get_cont, mbind, M_bind, gets, modify.
  destruct (k_conts s !! p.1) as [c|] eqn:Ec; [|done]. injection Ht as <-. simpl. unfold with_table. do 4 f_equal.
  apply map_eq. intros d. destruct (decide (d = p.1)) as [->|Hn].
  - by rewrite lookup_insert_eq, lookup_alter_eq, Ec.
  - by rewrite lookup_insert_ne, lookup_alter_ne.
Qed.

(** An update that finds its entry. *)
Lemma upd_proc_inv p f s s' :
  upd_proc p f s = Ok (tt, s') -> exists t x, table p.1 s = Some t /\ t !! p.2 = Some x /\
    s' = with_table p.1 (<[p.2 := f x]> t) s.
Proof.
  intros H. destruct (table p.1 s) as [t|] eqn:Ht.
  - destruct (t !! p.2) as [x|] eqn:Hx.
    + exists t, x. rewrite (upd_proc_eq _ _ _ _ _ Ht Hx) in H. by injection H as <-.
    + unfold table in Ht. unfold upd_proc, get_proc, get_cont, mbind, M_bind, gets in H.
      destruct (k_conts s !! p.1) as [c|]; [|done]. injection Ht as <-. simpl in H. by rewrite Hx in H.
  - unfold table in Ht. unfold upd_proc, get_proc, get_cont, mbind, M_bind, gets in H.
    by destruct (k_conts s !! p.1).
Qed.

Lemma wp_get_table p t x s (Q : proc -> kernel St -> Prop) :
  table p.1 s = Some t -> t !! p.2 = Some x -> Q x s -> wp (get_proc p) Q s.
Proof. intros Ht Hx HQ. unfold wp. by rewrite (get_proc_eq p t x). Qed.

Lemma wp_upd_table p t x f s (Q : unit -> kernel St -> Prop) :
  table p.1 s = Some t -> t !! p.2 = Some x -> Q tt (with_table p.1 (<[p.2 := f x]> t) s) -> wp (upd_proc p f) Q s.
Proof. intros Ht Hx HQ. unfold wp. by rewrite (upd_proc_eq p f t x). Qed.

(** ** Wake-ups *)
Definition wake (ch : chan) (p : proc) : proc :=
  if bool_decide (p_state p = SLEEPING) && bool_decide (p_chan p = ch) then set_p_state RUNNABLE p else p.

Lemma insert_take_fmap {A} (f : A -> A) (l : list A) i x :
  l !! i = Some x -> <[i := f x]> ((f <$> take i l) ++ drop i l) = (f <$> take (S i) l) ++ drop (S i) l.
Proof.
  intros Hx. pose proof (lookup_lt_Some _ _ _ Hx).
  rewrite (take_S_r l i x), (drop_S l x i) by done. rewrite fmap_app, <- app_assoc.
  replace i with (length (f <$> take i l) + 0)%nat at 1 by (rewrite length_fmap, length_take; lia).
  by rewrite insert_app_r.
Qed.

Lemma lookup_take_fmap {A} (f : A -> A) (l : list A) i : ((f <$> take i l) ++ drop i l) !! i = l !! i.
Proof.
  destruct (decide (i < length l)%nat) as [Hi|Hi].
  - rewrite lookup_app_r by (rewrite length_fmap, length_take; lia).
    rewrite length_fmap, length_take, lookup_drop. f_equal. lia.
  - rewrite !lookup_ge_None_2; [done|lia|]. rewrite length_app, length_fmap, length_take, length_drop. lia.
Qed.

(** [wakeup_withlock] makes every sleeper of the table runnable that sleeps on
    the channel, and looks at no other table. *)
Lemma wakeup_withlock_eq c t ch s :
  k_sched s = Some c -> table c s = Some t -> length t = 14%nat ->
  wakeup_withlock ch s = Ok (tt, with_table c (wake ch <$> t) s).
Proof.
  intros Hc Ht Hl. unfold wakeup_withlock, this_scheduler, mbind, M_bind, gets. rewrite Hc. simpl from_option_M.
  cbn [mret M_ret]. change (Z.to_nat NPROC) with 14%nat. rewrite <- Hl.
  enough (forall k, (k <= length t)%nat ->
    eachM (seq k (length t - k)) (fun i => p ← get_proc (c, i);
      whenM (bool_decide (p_state p = SLEEPING) && bool_decide (p_chan p = ch)) (upd_proc (c, i) (set_p_state RUNNABLE)))
      (with_table c ((wake ch <$> take k t) ++ drop k t) s) = Ok (tt, with_table c (wake ch <$> t) s)) as H.
  { specialize (H 0%nat ltac:(lia)). rewrite Nat.sub_0_r in H.
    change ((wake ch <$> take 0 t) ++ drop 0 t) with t in H. by rewrite (with_table_same c t s Ht) in H. }
  intros k. remember (length t - k)%nat as n eqn:Hn. revert k Hn. induction n as [|n IH]; intros k Hn Hk; cbn [seq eachM].
  - assert (k = length t) as -> by lia. by rewrite firstn_all, drop_all, app_nil_r.
  - destruct (lookup_lt_is_Some_2 t k) as [x Hx]; [lia|].
    unfold mbind at 1 2, M_bind at 1 2. unfold mbind at 1, M_bind at 1.
    rewrite (get_proc_eq (c, k) ((wake ch <$> take k t) ++ drop k t) x);
      [|by eapply table_with_table|by rewrite lookup_take_fmap].
    specialize (IH (S k) ltac:(lia) ltac:(lia)). rewrite <- (insert_take_fmap _ _ _ _ Hx) in IH.
    unfold wake at 1 in IH. unfold whenM. destruct (bool_decide _ && bool_decide _).
    + erewrite (upd_proc_eq (c, k)); [|by eapply table_with_table|by rewrite lookup_take_fmap].
      simpl fst. simpl snd. by rewrite with_table_twice.
    + cbn [mret M_ret]. rewrite list_insert_id in IH by (by rewrite lookup_take_fmap). exact IH.
Qed.

(** [t2] is [t1] with some sleepers woken up. *)
Definition waked (t1 t2 : list proc) : Prop :=
  Forall2 (fun p q => q = p \/ p_state p = SLEEPING /\ q = set_p_state RUNNABLE p) t1 t2.

Lemma waked_refl t : waked t t.
Proof. induction t; constructor; auto. Qed.
Lemma waked_wake ch t1 t2 : waked t1 t2 -> waked t1 (wake ch <$> t2).
Proof.
  induction 1 as [|p q t1 t2 Hpq _ IH]; simpl; constructor; [|done]. unfold wake.
  destruct Hpq as [->|[Hs ->]]; [|by right]. case_bool_decide; [|by left]. simpl. case_bool_decide; auto.
Qed.
Lemma waked_lookup t1 t2 i q :
  waked t1 t2 -> t2 !! i = Some q -> exists p, t1 !! i = Some p /\ p_parent q = p_parent p /\ p_chan q = p_chan p /\
    (p_state q = p_state p \/ p_state p = SLEEPING /\ p_state q = RUNNABLE).
Proof.
  intros Hw Hq. destruct (Forall2_lookup_r _ _ _ _ _ Hw Hq) as (p & Hp & [->|[? ->]]); exists p; split_and!; auto.
Qed.

Lemma wp_wakeup_withlock c t ch s (Q : unit -> kernel St -> Prop) :
  k_sched s = Some c -> table c s = Some t -> length t = 14%nat ->
  Q tt (with_table c (wake ch <$> t) s) -> wp (wakeup_withlock ch) Q s.
Proof. intros Hc Ht Hl HQ. unfold wp. by rewrite (wakeup_withlock_eq c t). Qed.

Lemma wp_this_scheduler c s (Q : nat -> kernel St -> Prop) :
  k_sched s = Some c -> Q c s -> wp this_scheduler Q s.
Proof. intros Hc HQ. unfold this_scheduler, wp, mbind, M_bind, gets. by rewrite Hc. Qed.
Lemma wp_this_proc p s (Q : pptr -> kernel St -> Prop) :
  k_proc s = Some p -> Q p s -> wp this_proc Q s.
Proof. intros Hp HQ. unfold this_proc, wp, mbind, M_bind, gets. by rewrite Hp. Qed.

(** [exit] under the lock: the parent is woken up and the process is a zombie. *)
Lemma wp_exit_mark c i t x s (Q : unit -> kernel St -> Prop) :
  k_sched s = Some c -> table c s = Some t -> length t = 14%nat -> t !! i = Some x ->
  (forall t2 x2, waked (wake (chan_of (p_parent x)) <$> t) t2 -> t2 !! i = Some x2 ->
     Q tt (with_table c (<[i := set_p_state ZOMBIE x2]> t2) s)) ->
  wp (exit_mark (c, i)) Q s.
Proof.
  intros Hc Ht Hl Hx HQ. unfold exit_mark. set (t1 := wake (chan_of (p_parent x)) <$> t) in *.
  assert (length t1 = 14%nat) as Hl1 by (unfold t1; by rewrite length_fmap).
  apply wp_bind, (wp_get_table (c, i) t x); [done|done|].
  apply wp_bind, (wp_wakeup_withlock c t); [done|done|done|]. fold t1.
  apply wp_bind, (wp_this_scheduler c); [done|]. apply wp_bind. eapply wp_mono.
  { apply (wp_eachM_inv _ _ (fun s' => exists t2, waked t1 t2 /\ s' = with_table c t2 s)).
    - exists t1. split; [apply waked_refl|done].
    - intros j s' Hj (t2 & Hw & ->). apply elem_of_seq in Hj. change (Z.to_nat NPROC) with 14%nat in Hj.
      pose proof (Forall2_length _ _ _ Hw) as Hl2.
      destruct (lookup_lt_is_Some_2 t2 j) as [y Hy]; [lia|].
      apply wp_bind, (wp_get_table (c, j) t2 y); [by eapply table_with_table|done|].
      unfold whenM. case_bool_decide; [|apply wp_ret; by exists t2].
      case_bool_decide; [|apply wp_ret; by exists t2].
      apply (wp_wakeup_withlock c t2); [done|by eapply table_with_table|lia|].
      rewrite with_table_twice. eexists. split; [by apply waked_wake|done]. }
  intros [] s' (t2 & Hw & ->). pose proof (Forall2_length _ _ _ Hw) as Hl2.
  destruct (lookup_lt_is_Some_2 t2 i) as [x2 Hx2]; [rewrite <- Hl2, Hl1, <- Hl; by eapply lookup_lt_Some|].
  apply (wp_upd_table (c, i) t2 x2); [by eapply table_with_table|done|].
  rewrite with_table_twice. by apply HQ.
Qed.

(** ** [wait] *)
Section wait.
Context (vmt : VirtualMemoryTable).

Definition zombie_child (me : pptr) (p : proc) : Prop := p_parent p = Some me /\ p_state p = ZOMBIE.
#[local] Instance zombie_child_dec me p : Decision (zombie_child me p).
Proof. apply _. Defined.

(** What [wait] leaves in the entry of a zombie. *)
Definition reaped (p : proc) : proc := set_p_parent None (set_p_pid 0 (set_p_state UNUSED (set_p_killed false p))).

(** The loop of [wait] takes the first child that is a zombie. *)
Lemma reap_eq me c t s :
  table c s = Some t -> length t = 14%nat ->
  reap vmt me c s =
    (r ← match list_find (zombie_child me) t with
         | Some (i, p) => pid ← reap_child vmt (c, i) p; mret (Some pid)
         | None => mret None
         end;
     mret (r, existsb (fun p => bool_decide (p_parent p = Some me)) t)) s.
Proof.
  intros Ht Hl. unfold reap. unfold mbind at 1, M_bind at 1. unfold gets at 1.
  replace (match k_conts s !! c with Some c0 => _ | None => false end)
    with (existsb (fun p => bool_decide (p_parent p = Some me)) t).
  2: { unfold table in Ht. destruct (k_conts s !! c); [|done]. by injection Ht as <-. }
  unfold mbind at 1 2, M_bind at 1 2. change (Z.to_nat NPROC) with 14%nat. rewrite <- Hl.
  rewrite (forM_find (zombie_child me) t _ (fun i p => reap_child vmt (c, i) p) s 0).
  - by destruct (list_find (zombie_child me) t) as [[i p]|].
  - intros i p Hp. rewrite Nat2Z.id. simpl. unfold mbind at 1, M_bind at 1.
    rewrite (get_proc_eq (c, i) t p) by done.
    destruct (decide (zombie_child me p)) as [[H1 H2]|Hn].
    + by rewrite !bool_decide_true.
    + replace (bool_decide _ && bool_decide _) with false; [done|]. symmetry. apply not_true_iff_false.
      rewrite andb_true_iff, !bool_decide_eq_true. exact Hn.
Qed.

End wait.

(** ** What leaves the tables alone *)
Record frame s s' : Prop := {
  fr_sched : k_sched s' = k_sched s;
  fr_proc : k_proc s' = k_proc s;
  fr_table : forall c, table c s' = table c s
}.
#[local] Instance frame_preorder : PreOrder frame.
Proof.
  split; [by split|]. intros s1 s2 s3 [A1 A2 A3] [B1 B2 B3]. split; [congruence|congruence|].
  intros c. by rewrite B3.
Qed.

Definition kept {A} (m : M (kernel St) A) : Prop := forall s a s', m s = Ok (a, s') -> frame s s'.

Lemma kept_ret {A} (a : A) : kept (mret a).
Proof. intros s b s' [= _ <-]. done. Qed.
Lemma kept_bind {A B} (m : M (kernel St) A) (f : A -> M (kernel St) B) :
  kept m -> (forall a, kept (f a)) -> kept (m ≫= f).
Proof.
  intros Hm Hf s b s'. unfold mbind, M_bind. destruct (m s) as [[a s1]| | |] eqn:E; try done.
  intros H. transitivity s1; [by eapply Hm|by eapply Hf].
Qed.
Lemma kept_gets {A} (f : kernel St -> A) : kept (gets f).
Proof. intros s b s' [= _ <-]. done. Qed.
Lemma kept_panic {A} : kept (@panic (kernel St) A).
Proof. by intros s b s' H. Qed.
Lemma kept_nofuel {A} : kept (@nofuel (kernel St) A).
Proof. by intros s b s' H. Qed.
Lemma kept_assert b : kept (assert_ b).
Proof. destruct b; [apply kept_ret|apply kept_panic]. Qed.
Lemma kept_from_option {A} (o : option A) : kept (from_option_M o).
Proof. destruct o; [apply kept_ret|apply kept_panic]. Qed.
Lemma kept_get_cont c : kept (get_cont c).
Proof. apply kept_bind; [apply kept_gets|intros; apply kept_from_option]. Qed.
Lemma kept_upd_cont c f : (forall x, s_ptable (c_sched (f x)) = s_ptable (c_sched x)) -> kept (upd_cont c f).
Proof.
  intros Hf s a s'. unfold upd_cont, get_cont, mbind, M_bind, gets, modify.
  destruct (k_conts s !! c) as [x|] eqn:E; [|done]. simpl. intros [= _ <-]. split; [done|done|].
  intros d. unfold table. simpl. destruct (decide (d = c)) as [->|Hn]; [|by rewrite lookup_insert_ne].
  rewrite lookup_insert_eq, E. simpl. by rewrite Hf.
Qed.
Lemma kept_upd_sched c f : (forall x, s_ptable (f x) = s_ptable x) -> kept (upd_sched c f).
Proof. intros Hf. apply kept_upd_cont. intros x. apply Hf. Qed.
Lemma kept_onmem {A} (m : M kmem A) : kept (onmem m).
Proof. intros s a s'. unfold onmem, lift. destruct (m (k_mem s)) as [[]| | |]; try done. by intros [= _ <-]. Qed.

Create HintDb kept.
#[local] Hint Resolve kept_ret kept_gets kept_panic kept_nofuel kept_assert kept_from_option
  kept_get_cont kept_onmem : kept.
#[local] Hint Extern 1 (kept (_ ≫= _)) => apply kept_bind; [|intros ?] : kept.
#[local] Hint Extern 1 (kept (upd_cont _ _)) => apply kept_upd_cont; done : kept.
#[local] Hint Extern 1 (kept (upd_sched _ _)) => apply kept_upd_sched; done : kept.
#[local] Hint Extern 2 (kept (match ?x with _ => _ end)) => destruct x : kept.
#[local] Hint Extern 2 (kept (if ?x then _ else _)) => destruct x : kept.

Lemma kept_acquire c : kept (acquire_ptable_lock (St := St) c).
Proof. unfold acquire_ptable_lock. auto 10 with kept. Qed.
Lemma kept_release c : kept (release_ptable_lock (St := St) c).
Proof. unfold release_ptable_lock. auto 10 with kept. Qed.
Lemma kept_release_sched_lock : kept (release_sched_lock (St := St)).
Proof.
  unfold release_sched_lock, with_op, this_scheduler. pose proof kept_release. auto 10 with kept.
Qed.
Lemma kept_alloc_resource fuel c p r : kept (alloc_resource (St := St) fuel c p r).
Proof.
  revert c. induction fuel as [|fuel IH]; intros c; cbn [alloc_resource]; auto 20 with kept.
Qed.

(** ** The steps that change the table *)
Lemma this_proc_eq p s : k_proc s = Some p -> this_proc s = Ok (p, s).
Proof. intros Hp. unfold this_proc, mbind, M_bind, gets. by rewrite Hp. Qed.
Lemma this_scheduler_eq c s : k_sched s = Some c -> this_scheduler s = Ok (c, s).
Proof. intros Hc. unfold this_scheduler, mbind, M_bind, gets. by rewrite Hc. Qed.
Lemma cur_proc_eq p t x s :
  k_proc s = Some p -> table p.1 s = Some t -> t !! p.2 = Some x -> cur_proc s = Ok (x, s).
Proof.
  intros Hp Ht Hx. unfold cur_proc, mbind, M_bind. rewrite (this_proc_eq p s Hp). by apply (get_proc_eq p t x).
Qed.
Lemma upd_cur_eq p f t x s :
  k_proc s = Some p -> table p.1 s = Some t -> t !! p.2 = Some x ->
  upd_cur f s = Ok (tt, with_table p.1 (<[p.2 := f x]> t) s).
Proof.
  intros Hp Ht Hx. unfold upd_cur, this_proc. unfold mbind, M_bind at 1 2, gets. rewrite Hp. simpl.
  by apply upd_proc_eq.
Qed.

Lemma sleep_mark_eq p ch t x s :
  k_proc s = Some p -> table p.1 s = Some t -> t !! p.2 = Some x ->
  sleep_mark ch s = Ok (tt, with_table p.1 (<[p.2 := set_p_state SLEEPING (set_p_chan ch x)]> t) s).
Proof.
  intros Hp Ht Hx. pose proof (lookup_lt_Some _ _ _ Hx). unfold sleep_mark. unfold mbind at 1, M_bind at 1.
  rewrite (upd_cur_eq p _ t x) by done.
  erewrite (upd_cur_eq p); [|done|by eapply table_with_table|by apply list_lookup_insert_eq].
  by rewrite with_table_twice, list_insert_insert_eq.
Qed.

(** [wait] empties the entry of a zombie before it frees its memory. *)
Lemma reap_child_eq vmt q p t s :
  table q.1 s = Some t -> t !! q.2 = Some p ->
  reap_child vmt q p s =
    (onmem (vm_free vmt (p_pgdir p));; onmem (kfree (p_kstack p));; release_sched_lock;; mret (p_pid p))
      (with_table q.1 (<[q.2 := reaped p]> t) s).
Proof.
  intros Ht Hp. pose proof (lookup_lt_Some _ _ _ Hp). unfold reap_child.
  unfold mbind at 1, M_bind at 1. rewrite (upd_proc_eq q _ t p) by done.
  do 3 (unfold mbind at 1, M_bind at 1;
    erewrite (upd_proc_eq q); [|by eapply table_with_table|by apply list_lookup_insert_eq];
    rewrite with_table_twice, list_insert_insert_eq).
  done.
Qed.

(** [s'] is [s] with one table replaced, as far as tables go. *)
Record one_table c t' s s' : Prop := {
  ot_sched : k_sched s' = k_sched s;
  ot_proc : k_proc s' = k_proc s;
  ot_table : table c s' = Some t';
  ot_other : forall d, d <> c -> table d s' = table d s
}.
Lemma one_table_with c t t' s : table c s = Some t -> one_table c t' s (with_table c t' s).
Proof.
  intros Ht. split; [done|done|by eapply table_with_table|]. intros d Hd. by apply table_with_table_ne.
Qed.
Lemma one_table_frame c t' s1 s2 s3 : one_table c t' s1 s2 -> frame s2 s3 -> one_table c t' s1 s3.
Proof.
  intros [A1 A2 A3 A4] [B1 B2 B3]. split; [congruence|congruence|by rewrite B3|].
  intros d Hd. by rewrite B3, A4.
Qed.
Lemma frame_one_table c t s s' : table c s = Some t -> frame s s' -> one_table c t s s'.
Proof. intros Ht [B1 B2 B3]. split; [done|done|by rewrite B3|]. intros d _. apply B3. Qed.

Lemma reap_child_step vmt q p t s v s' :
  table q.1 s = Some t -> t !! q.2 = Some p -> reap_child vmt q p s = Ok (v, s') ->
  v = p_pid p /\ one_table q.1 (<[q.2 := reaped p]> t) s s'.
Proof.
  intros Ht Hp. rewrite (reap_child_eq vmt q p t) by done.
  set (s1 := with_table _ _ s). intros H. split.
  - revert H. unfold mbind, M_bind. destruct (onmem _ s1) as [[[] s2]| | |]; try done.
    destruct (onmem _ s2) as [[[] s3]| | |]; try done.
    destruct (release_sched_lock s3) as [[[] s4]| | |]; try done. by intros [= <- _].
  - eapply one_table_frame; [by eapply one_table_with|]. revert H.
    match goal with |- ?m s1 = _ -> _ => enough (kept m) as Hk by (intros H; by eapply Hk) end.
    pose proof kept_release_sched_lock. auto 10 with kept.
Qed.

(** [alloc_pcb_simple] turns one unused entry into an embryo, or none. *)
Lemma alloc_pcb_step c t s r s' :
  table c s = Some t -> length t = 14%nat -> alloc_pcb_simple c s = Ok (r, s') ->
  exists t', one_table c t' s s' /\
    (t' = t \/ exists i p pid, t !! i = Some p /\ p_state p = UNUSED /\ t' = <[i := embryo pid p]> t).
Proof.
  intros Ht Hl. unfold alloc_pcb_simple. unfold mbind at 1, M_bind at 1.
  destruct (acquire_ptable_lock c s) as [[[] s1]| | |] eqn:E1; try done. apply kept_acquire in E1.
  assert (table c s1 = Some t) as Ht1 by (by rewrite (fr_table _ _ E1)).
  unfold mbind at 1, M_bind at 1. change (Z.to_nat NPROC) with 14%nat. rewrite <- Hl.
  rewrite (forM_find (fun p => p_state p = UNUSED) t _ (fun i _ => mret (c, i)) s1 0).
  2: { intros i x Hx. rewrite Nat2Z.id. simpl. unfold mbind, M_bind at 1. rewrite (get_proc_eq (c, i) t x) by done.
       by destruct (decide (p_state x = UNUSED)); [rewrite bool_decide_true|rewrite bool_decide_false]. }
  destruct (list_find _ t) as [[i p]|] eqn:Ef; simpl.
  - apply list_find_Some in Ef as (Hp & Hu & _). pose proof (lookup_lt_Some _ _ _ Hp).
    unfold mbind at 1, M_bind at 1. destruct (get_cont c s1) as [[x s2]| | |] eqn:E2; try done. apply kept_get_cont in E2.
    unfold mbind at 1, M_bind at 1. unfold gets at 1.
    unfold mbind at 1, M_bind at 1. destruct (alloc_resource _ _ _ _ s2) as [[v s3]| | |] eqn:E3; try done.
    apply kept_alloc_resource in E3.
    unfold mbind at 1, M_bind at 1. destruct (get_cont c s3) as [[y s4]| | |] eqn:E4; try done. apply kept_get_cont in E4.
    assert (frame s s4) as Hf by (by rewrite E1, E2, E3).
    assert (table c s4 = Some t) as Ht4 by (by rewrite (fr_table _ _ Hf)).
    unfold mbind at 1, M_bind at 1. rewrite (upd_proc_eq (c, i) _ t p) by done.
    unfold mbind at 1, M_bind at 1.
    erewrite (upd_proc_eq (c, i)); [|by eapply table_with_table|by apply list_lookup_insert_eq].
    rewrite with_table_twice. simpl fst. simpl snd. rewrite list_insert_insert_eq.
    unfold mbind, M_bind. destruct (release_ptable_lock c _) as [[[] s5]| | |] eqn:E5; try done. apply kept_release in E5.
    intros [= _ <-]. exists (<[i := embryo (s_pid (c_sched y)) p]> t). split.
    + eapply one_table_frame; [|done]. destruct Hf as [F1 F2 F3].
      destruct (one_table_with c t (<[i := embryo (s_pid (c_sched y)) p]> t) s4 Ht4) as [G1 G2 G3 G4].
      split; [by rewrite <- F1|by rewrite <- F2|done|]. intros d Hd. by rewrite G4.
    + right. by exists i, p, (s_pid (c_sched y)).
  - unfold mbind, M_bind. destruct (release_ptable_lock c s1) as [[[] s2]| | |] eqn:E2; try done. apply kept_release in E2.
    intros [= _ <-]. exists t. split; [|by left]. apply frame_one_table; [done|by rewrite E1].
Qed.

(** ** No zombie is overlooked *)
Section steps.
Context (vmt : VirtualMemoryTable) (c : nat).

(** The process in entry [j] sleeps in [wait]. *)
Definition in_wait (j : nat) (p : proc) : Prop := p_state p = SLEEPING /\ p_chan p = ChProc (c, j).

Record no_lost (t : list proc) : Prop := {
  nl_len : length t = 14%nat;
  nl_wait : forall i j q p, t !! i = Some q -> zombie_child (c, j) q -> t !! j = Some p -> ~ in_wait j p
}.

Lemma no_lost_waked t1 t2 : no_lost t1 -> waked t1 t2 -> no_lost t2.
Proof.
  intros [Hl Hz] Hw. split; [by rewrite <- (Forall2_length _ _ _ Hw)|].
  intros i j q p Hq [Hpar Hs] Hp [Hs2 Hc].
  destruct (waked_lookup _ _ _ _ Hw Hq) as (q1 & Hq1 & Hpar1 & _ & Hst); destruct (waked_lookup _ _ _ _ Hw Hp) as (p1 & Hp1 & _ & Hc1 & Hst1).
  apply (Hz i j q1 p1); [done| |done|].
  - split; [congruence|]. destruct Hst as [?|[? ?]]; congruence.
  - split; [|congruence]. destruct Hst1 as [?|[? ?]]; congruence.
Qed.

(** An entry that is not left a zombie ... *)
Lemma no_lost_insert t i y :
  no_lost t -> p_state y <> ZOMBIE ->
  (in_wait i y -> forall k q, t !! k = Some q -> ~ zombie_child (c, i) q) -> no_lost (<[i := y]> t).
Proof.
  intros [Hl Hz] Hy Hw. split; [by rewrite length_insert|]. intros k j q p Hq Hc Hp Hin.
  apply list_lookup_insert_Some in Hq as [(<- & -> & _)|[Hk Hq]]; [by destruct Hc|].
  apply list_lookup_insert_Some in Hp as [(<- & -> & _)|[Hj Hp]]; [by apply (Hw Hin k q)|by apply (Hz k j q p)].
Qed.

(** ... and one that becomes a zombie. *)
Lemma no_lost_zombie t i y :
  no_lost t -> p_state y = ZOMBIE ->
  (forall j p, p_parent y = Some (c, j) -> t !! j = Some p -> ~ in_wait j p) -> no_lost (<[i := y]> t).
Proof.
  intros [Hl Hz] Hy Hw. split; [by rewrite length_insert|]. intros k j q p Hq Hc Hp Hin.
  apply list_lookup_insert_Some in Hp as [(<- & -> & _)|[Hj Hp]]; [destruct Hin; congruence|].
  apply list_lookup_insert_Some in Hq as [(<- & -> & _)|[Hk Hq]]; [destruct Hc; by apply (Hw j p)|by apply (Hz k j q p)].
Qed.

(** One turn of the loop of [wait], up to the switch of [sleep]. *)
Definition wait_round : M (kernel St) (option Z) :=
  r ← wait_scan vmt;
  match r with
  | Some v => mret (Some v)
  | None => me ← this_proc; sleep_mark (ChProc me);; mret None
  end.

(** The CPU runs the process in entry [i] of the table. *)
Definition runs s (i : nat) : Prop :=
  k_sched s = Some c /\ k_proc s = Some (c, i) /\
  exists t x, table c s = Some t /\ t !! i = Some x /\ p_state x = RUNNING.

(** The critical sections of the processes of the table of container [c], of
    its scheduler, and of the CPUs that run them. *)
Inductive ptstep s : kernel St -> Prop :=
| pt_cpu i : runs (set_k_proc (Some (c, i)) (set_k_sched (Some c) s)) i ->
    ptstep s (set_k_proc (Some (c, i)) (set_k_sched (Some c) s))
| pt_scheduler p : ptstep s (set_k_proc p (set_k_sched (Some c) s))
| pt_acquire s' : acquire_ptable_lock c s = Ok (tt, s') -> ptstep s s'
| pt_release s' : release_ptable_lock c s = Ok (tt, s') -> ptstep s s'
| pt_alloc r s' : alloc_pcb_simple c s = Ok (r, s') -> ptstep s s'
| pt_embryo i f t x s' : table c s = Some t -> t !! i = Some x -> p_state x = EMBRYO ->
    p_state (f x) = EMBRYO \/ p_state (f x) = RUNNABLE \/ p_state (f x) = UNUSED ->
    upd_proc (c, i) f s = Ok (tt, s') -> ptstep s s'
| pt_run i t x s' : table c s = Some t -> t !! i = Some x -> p_state x = RUNNABLE ->
    run_proc c i x s = Ok (tt, s') -> ptstep s s'
| pt_yield i s' : runs s i -> upd_cur (set_p_state RUNNABLE) s = Ok (tt, s') -> ptstep s s'
| pt_sleep i ch s' : runs s i -> (forall p, ch <> ChProc p) -> sleep_mark ch s = Ok (tt, s') -> ptstep s s'
| pt_resume i s' : runs s i -> upd_cur (set_p_chan ChNone) s = Ok (tt, s') -> ptstep s s'
| pt_wakeup ch s' : k_sched s = Some c -> wakeup_withlock ch s = Ok (tt, s') -> ptstep s s'
| pt_wait i r s' : runs s i -> wait_round s = Ok (r, s') -> ptstep s s'
| pt_exit i s' : runs s i -> exit_mark (c, i) s = Ok (tt, s') -> ptstep s s'
| pt_own i f s' : runs s i ->
    (forall x, p_state (f x) = p_state x /\ p_parent (f x) = p_parent x /\ p_chan (f x) = p_chan x) ->
    upd_cur f s = Ok (tt, s') -> ptstep s s'
| pt_mem A (m : M kmem A) a s' : onmem m s = Ok (a, s') -> ptstep s s'.

Definition pt_inv s : Prop := exists t, table c s = Some t /\ no_lost t.

Lemma pt_inv_one s s' t : one_table c t s s' -> no_lost t -> pt_inv s'.
Proof. intros H Hn. exists t. split; [by apply (ot_table _ _ _ _ H)|done]. Qed.

Lemma pt_inv_insert s i y t :
  table c s = Some t -> no_lost t -> p_state y <> ZOMBIE ->
  (in_wait i y -> forall k q, t !! k = Some q -> ~ zombie_child (c, i) q) ->
  pt_inv (with_table c (<[i := y]> t) s).
Proof. intros Ht Hn Hy Hw. eapply pt_inv_one; [by eapply one_table_with|by apply no_lost_insert]. Qed.

Lemma exit_mark_inv s i s' : runs s i -> pt_inv s -> exit_mark (c, i) s = Ok (tt, s') -> pt_inv s'.
Proof.
  intros (Hc & Hp & t & x & Ht & Hx & Hr) (t' & Ht' & Hn) E. assert (t' = t) as -> by congruence.
  enough (wp (exit_mark (c, i)) (fun _ s' => pt_inv s') s) as Hw by (unfold wp in Hw; by rewrite E in Hw).
  apply (wp_exit_mark c i t x); [done|done|apply Hn|done|]. intros t2 x2 Hw Hx2.
  assert (waked t (wake (chan_of (p_parent x)) <$> t)) as Hw0 by apply waked_wake, waked_refl.
  eapply pt_inv_one; [by eapply one_table_with|]. apply no_lost_zombie; [|done|].
  - eapply no_lost_waked; [|done]. by eapply no_lost_waked.
  - intros j p Hpar Hj [Hs Hch]. simpl in Hpar.
    destruct (waked_lookup _ _ _ _ Hw Hx2) as (y & Hy & Hpy & _). rewrite list_lookup_fmap, Hx in Hy.
    assert (p_parent y = p_parent x) as Hpx by (injection Hy as <-; unfold wake; by destruct (_ && _)).
    destruct (waked_lookup _ _ _ _ Hw Hj) as (q & Hq & _ & Hcq & Hsq). rewrite list_lookup_fmap in Hq.
    destruct (t !! j) as [q0|]; [|done]. injection Hq as <-.
    rewrite <- Hpx, <- Hpy, Hpar in *. simpl chan_of in *. unfold wake in Hcq, Hsq.
    destruct (bool_decide (p_state q0 = SLEEPING) && bool_decide (p_chan q0 = ChProc (c, j))) eqn:Eb; simpl in *.
    + destruct Hsq as [?|[? ?]]; congruence.
    + apply andb_false_iff in Eb as [Eb|Eb]; apply bool_decide_eq_false in Eb; apply Eb; destruct Hsq as [?|[? ?]]; congruence.
Qed.

Lemma wait_round_inv s i r s' : runs s i -> pt_inv s -> wait_round s = Ok (r, s') -> pt_inv s'.
Proof.
  intros (Hc & Hp & t & x & Ht & Hx & Hr) (t' & Ht' & Hn). assert (t' = t) as -> by congruence.
  unfold wait_round, wait_scan, mbind, M_bind.
  rewrite (this_proc_eq (c, i) s Hp), (this_scheduler_eq c s Hc), (reap_eq vmt (c, i) c t s Ht (nl_len _ Hn)).
  unfold mbind, M_bind. destruct (list_find _ t) as [[k q]|] eqn:Ef; cbn [mret M_ret].
  - apply list_find_Some in Ef as (Hq & _). destruct (reap_child vmt (c, k) q s) as [[v s1]| | |] eqn:E; try done.
    simpl. intros [= _ <-]. apply (reap_child_step vmt (c, k) q t) in E as [_ Ho]; [|done|done].
    eapply pt_inv_one; [done|]. apply no_lost_insert; [done|done|]. by intros [? _].
  - cbn [fst snd]. rewrite (cur_proc_eq (c, i) t x) by done.
    destruct (negb _ || p_killed x).
    + destruct (release_sched_lock s) as [[[] s1]| | |] eqn:E; try done. apply kept_release_sched_lock in E.
      intros [= _ <-]. eapply pt_inv_one; [by eapply frame_one_table|done].
    + cbn [mret M_ret]. rewrite (this_proc_eq (c, i) s Hp), (sleep_mark_eq (c, i) _ t x) by done. intros [= _ <-].
      apply pt_inv_insert; [done|done|done|]. intros _ k q Hq Hz. apply list_find_None in Ef.
      by apply (Forall_lookup_1 _ _ _ _ Ef Hq).
Qed.

Lemma upd_cur_inv s i f s' t :
  runs s i -> table c s = Some t -> upd_cur f s = Ok (tt, s') ->
  exists x, t !! i = Some x /\ p_state x = RUNNING /\ s' = with_table c (<[i := f x]> t) s.
Proof.
  intros (Hc & Hp & t0 & x & Ht & Hx & Hr) Ht' E. assert (t0 = t) as -> by congruence.
  exists x. rewrite (upd_cur_eq (c, i) f t x) in E by done. by injection E as <-.
Qed.

Lemma ptstep_inv s s' : pt_inv s -> ptstep s s' -> pt_inv s'.
Proof.
  intros Hi Hs. pose proof Hi as (t & Ht & Hn). destruct Hs as
    [i Hr|p|s' E|s' E|r s' E|i f t' x s' Ht' Hx Hst Hf E|i t' x s' Ht' Hx Hst E|i s' Hr E|i ch s' Hr Hch E|
     i s' Hr E|ch s' Hk E|i r s' Hr E|i s' Hr E|i f s' Hr Hf E|A m a s' E].
  - exact Hi.
  - exact Hi.
  - apply kept_acquire in E. eapply pt_inv_one; [by eapply frame_one_table|done].
  - apply kept_release in E. eapply pt_inv_one; [by eapply frame_one_table|done].
  - destruct (alloc_pcb_step c t s r s' Ht (nl_len _ Hn) E) as (t' & Ho & Ht'). eapply pt_inv_one; [done|].
    destruct Ht' as [->|(i & p & pid & Hp & _ & ->)]; [done|]. apply no_lost_insert; [done|done|]. by intros [? _].
  - assert (t' = t) as -> by congruence. rewrite (upd_proc_eq (c, i) f t x) in E by done. injection E as <-.
    apply pt_inv_insert; [done|done| |intros [Hs _]]; destruct Hf as [Hf|[Hf|Hf]]; congruence.
  - assert (t' = t) as -> by congruence. unfold run_proc, uvm_switch, mbind, M_bind, modify in E.
    erewrite (upd_proc_eq (c, i)) in E; [|exact Ht|exact Hx]. injection E as <-.
    apply (pt_inv_insert _ i (set_p_state RUNNING x) t); [exact Ht|done|done|]. by intros [? _].
  - destruct (upd_cur_inv _ _ _ _ _ Hr Ht E) as (x & Hx & Hs & ->).
    apply pt_inv_insert; [done|done|done|]. by intros [? _].
  - destruct Hr as (Hc & Hp & t0 & x & Ht0 & Hx & Hs). assert (t0 = t) as -> by congruence.
    rewrite (sleep_mark_eq (c, i) ch t x) in E by done. injection E as <-.
    apply pt_inv_insert; [done|done|done|]. intros [_ Hc']. by destruct (Hch (c, i)).
  - destruct (upd_cur_inv _ _ _ _ _ Hr Ht E) as (x & Hx & Hs & ->).
    apply pt_inv_insert; [done|done|simpl; congruence|]. by intros [_ ?].
  - rewrite (wakeup_withlock_eq c t) in E by (done || apply Hn). injection E as <-.
    eapply pt_inv_one; [by eapply one_table_with|]. eapply no_lost_waked; [done|]. apply waked_wake, waked_refl.
  - by eapply wait_round_inv.
  - by eapply exit_mark_inv.
  - destruct (upd_cur_inv _ _ _ _ _ Hr Ht E) as (x & Hx & Hs & ->). destruct (Hf x) as (Hf1 & _ & _).
    apply pt_inv_insert; [done|done|congruence|]. intros [? _]. congruence.
  - apply kept_onmem in E. eapply pt_inv_one; [by eapply frame_one_table|done].
Qed.

(** A table in which no entry is in use. *)
Definition pt_start s : Prop :=
  exists t, table c s = Some t /\ length t = 14%nat /\ Forall (fun p => p_state p = UNUSED) t.

Lemma pt_start_inv s : pt_start s -> pt_inv s.
Proof.
  intros (t & Ht & Hl & Hu). exists t. split; [done|]. split; [done|].
  intros i j q p Hq [_ Hz] _ _. pose proof (Forall_lookup_1 _ _ _ _ Hu Hq). simpl in *. congruence.
Qed.

Lemma pt_reach_inv s0 s : pt_start s0 -> rtc ptstep s0 s -> pt_inv s.
Proof.
  intros H0%pt_start_inv Hr. induction Hr as [|x y z Hxy _ IH]; [done|]. apply IH. by eapply ptstep_inv.
Qed.

(** C29: whatever the order in which the processes of a table allocate, fork,
    sleep, wake up, exit and wait, on whatever CPUs: no exit is overlooked. A
    process whose child is a zombie does not sleep in [wait]; and when it runs
    [wait], it does not go to sleep but takes a child that is a zombie (or the
    release of its memory panics). *)
Theorem exit_wait_no_lost_wakeup s0 s t i j q p :
  pt_start s0 -> rtc ptstep s0 s -> table c s = Some t ->
  t !! i = Some q -> zombie_child (c, j) q -> t !! j = Some p ->
  ~ (p_state p = SLEEPING /\ p_chan p = ChProc (c, j)) /\
  (forall r s', k_sched s = Some c -> k_proc s = Some (c, j) -> wait_round s = Ok (r, s') ->
     exists k z, t !! k = Some z /\ zombie_child (c, j) z /\ r = Some (p_pid z) /\
       table c s' = Some (<[k := reaped z]> t)).
Proof.
  intros H0 Hr Ht Hq Hz Hp. destruct (pt_reach_inv s0 s H0 Hr) as (t' & Ht' & Hn).
  assert (t' = t) as -> by congruence. split; [by apply (nl_wait _ Hn i j q p)|].
  intros r s' Hc Hk. unfold wait_round, wait_scan, mbind, M_bind.
  rewrite (this_proc_eq (c, j) s Hk), (this_scheduler_eq c s Hc), (reap_eq vmt (c, j) c t s Ht (nl_len _ Hn)).
  unfold mbind, M_bind. destruct (list_find _ t) as [[k z]|] eqn:Ef; cbn [mret M_ret].
  - apply list_find_Some in Ef as (Hzk & Hzc & _). destruct (reap_child vmt (c, k) z s) as [[v s1]| | |] eqn:E; try done.
    intros [= <- <-]. apply (reap_child_step vmt (c, k) z t) in E as [-> Ho]; [|done|done].
    exists k, z. split_and!; try done; try apply Hzc. by apply (ot_table _ _ _ _ Ho).
  - apply list_find_None in Ef. by destruct (Forall_lookup_1 _ _ _ _ Ef Hq).
Qed.
End steps.

(** ** The branches of [wait] *)
Definition unlocked (c : nat) s : kernel St :=
  set_k_conts (alter (fun x => set_c_sched (set_s_lock false (c_sched x)) x) c (k_conts s)) s.

(** The lock of the table of [c] is held. *)
Definition locked (c : nat) s : Prop :=
  exists x, k_conts s !! c = Some x /\ s_op (c_sched x) = true /\ s_lock (c_sched x) = true.

Lemma release_sched_lock_eq c s :
  k_sched s = Some c -> locked c s -> release_sched_lock s = Ok (tt, unlocked c s).
Proof.
  intros Hc (x & Hx & Ho & Hl). unfold release_sched_lock, with_op, release_ptable_lock, upd_sched, upd_cont, mbind, M_bind.
  assert (get_cont c s = Ok (x, s)) as Hg by (unfold get_cont, mbind, M_bind, gets; by rewrite Hx).
  rewrite (this_scheduler_eq c s Hc), !Hg, Ho. cbn [assert_ mret M_ret]. rewrite !Hg, Hl. cbn [assert_ mret M_ret].
  rewrite Hg. unfold modify, unlocked. do 4 f_equal. apply map_eq. intros d.
  destruct (decide (d = c)) as [->|Hn]; [by rewrite lookup_insert_eq, lookup_alter_eq, Hx|].
  by rewrite lookup_insert_ne, lookup_alter_ne.
Qed.

Lemma locked_with_table c t s : locked c s -> locked c (with_table c t s).
Proof.
  intros (x & Hx & Ho & Hl). exists (set_c_sched (set_s_ptable t (c_sched x)) x). unfold with_table. simpl.
  by rewrite lookup_alter_eq, Hx.
Qed.

(** C30: [wait] under the lock of its table takes the first child that is a
    zombie: the entry is emptied, its page table and its stack are freed, the
    lock is given back and the number of the child returned. Without a zombie
    it returns -1 when there is no child at all or the process is killed, and
    otherwise it sleeps on itself and looks again. *)
Theorem wait_correct (swtch : M (kernel St) unit) vmt n c j t x s :
  k_sched s = Some c -> k_proc s = Some (c, j) -> locked c s ->
  table c s = Some t -> length t = 14%nat -> t !! j = Some x ->
  match list_find (zombie_child (c, j)) t with
  | Some (k, z) => forall m, (vm_free vmt (p_pgdir z);; kfree (p_kstack z)) (k_mem s) = Ok (tt, m) ->
      wait_loop swtch vmt (S n) s =
        Ok (p_pid z, unlocked c (set_k_mem m (with_table c (<[k := reaped z]> t) s)))
  | None =>
      if negb (existsb (fun p => bool_decide (p_parent p = Some (c, j))) t) || p_killed x
      then wait_loop swtch vmt (S n) s = Ok (-1, unlocked c s)
      else wait_loop swtch vmt (S n) s =
             (sched swtch;; sleep_return (ptable_lockref c);; wait_loop swtch vmt n)
               (with_table c (<[j := set_p_state SLEEPING (set_p_chan (ChProc (c, j)) x)]> t) s)
  end.
Proof.
  intros Hc Hp Hlk Ht Hl Hx. cbn [wait_loop]. unfold wait_scan, mbind, M_bind.
  rewrite (this_proc_eq (c, j) s Hp), (this_scheduler_eq c s Hc), (reap_eq vmt (c, j) c t s Ht Hl).
  unfold mbind, M_bind. destruct (list_find _ t) as [[k z]|] eqn:Ef; cbn [mret M_ret].
  - apply list_find_Some in Ef as (Hz & _). intros m. rewrite (reap_child_eq vmt (c, k) z t) by done.
    unfold mbind, M_bind, onmem, lift. change (k_mem (with_table _ _ s)) with (k_mem s).
    destruct (vm_free vmt (p_pgdir z) (k_mem s)) as [[[] m1]| | |]; try done.
    change (k_mem (set_k_mem m1 _)) with m1. destruct (kfree (p_kstack z) m1) as [[[] m2]| | |]; try done.
    intros [= <-]. by rewrite (release_sched_lock_eq c) by (done || by apply locked_with_table).
  - cbn [fst snd]. rewrite (cur_proc_eq (c, j) t x) by done. destruct (negb _ || p_killed x).
    + by rewrite (release_sched_lock_eq c).
    + cbn [mret M_ret]. rewrite (this_proc_eq (c, j) s Hp), (this_scheduler_eq c s Hc). unfold sleep, mbind, M_bind, gets.
      destruct Hlk as (y & Hy & Ho & Hly). cbn [lr_get lr_ptable ptable_lockref]. rewrite Hy, Hly.
      cbn [assert_ mret M_ret]. rewrite (this_scheduler_eq c s Hc), bool_decide_true by done. cbn [negb whenM mret M_ret].
      rewrite (sleep_mark_eq (c, j) _ t x) by done. simpl fst. simpl snd.
      destruct (sched swtch _) as [[[] s1]| | |]; try done.
Qed.

End table.

(** ** A parent and its child *)
Definition demo_ran {A} (m : M (kernel unit) A) (s : kernel unit) : kernel unit :=
  match m s with Ok (_, s') => s' | _ => s end.

(** Entries 0 and 1 are taken; entry 1 becomes a child of entry 0, runs and
    exits while entry 0 runs too. *)
Definition demo0 : kernel unit := demo_kernel 7.
Definition demo1 : kernel unit := demo_ran (alloc_pcb_simple 0) demo0.
Definition demo2 : kernel unit := demo_ran (alloc_pcb_simple 0) demo1.
Definition demo3 : kernel unit := demo_ran (upd_proc (0%nat, 0%nat) (set_p_state RUNNABLE)) demo2.
Definition demo_child (p : proc) : proc :=
  set_p_state RUNNABLE (set_p_parent (Some (0%nat, 0%nat)) (set_p_kstack (P2K 4096) (set_p_pgdir (P2K 8192) p))).
Definition demo4 : kernel unit := demo_ran (upd_proc (0%nat, 1%nat) demo_child) demo3.
Definition demo_entry (i : nat) (s : kernel unit) : proc :=
  match get_proc (0%nat, i) s with Ok (x, _) => x | _ => zero_proc end.
Definition demo5 : kernel unit := demo_ran (run_proc 0 0 (demo_entry 0 demo4)) demo4.
Definition demo6 : kernel unit := demo_ran (run_proc 0 1 (demo_entry 1 demo5)) demo5.
Definition demo7 : kernel unit := demo_ran (exit_mark (0%nat, 1%nat)) demo6.
Definition demo8 : kernel unit := set_k_proc (Some (0%nat, 0%nat)) (set_k_sched (Some 0%nat) demo7).
Definition demo_table (s : kernel unit) : list proc := default [] (table 0 s).

Lemma demo_reach : rtc (ptstep virtual_memory_init 0) demo0 demo8.
Proof.
  apply (rtc_l _ _ demo1); [apply (pt_alloc _ _ _ (Some (0%nat, 0%nat))); by vm_compute|].
  apply (rtc_l _ _ demo2); [apply (pt_alloc _ _ _ (Some (0%nat, 1%nat))); by vm_compute|].
  apply (rtc_l _ _ demo3).
  { apply (pt_embryo _ _ _ 0 (set_p_state RUNNABLE) (demo_table demo2) (demo_entry 0 demo2)); try by vm_compute.
    right. left. by vm_compute. }
  apply (rtc_l _ _ demo4).
  { apply (pt_embryo _ _ _ 1 demo_child (demo_table demo3) (demo_entry 1 demo3)); try by vm_compute.
    right. left. by vm_compute. }
  apply (rtc_l _ _ demo5); [apply (pt_run _ _ _ 0 (demo_table demo4) (demo_entry 0 demo4)); by vm_compute|].
  apply (rtc_l _ _ demo6); [apply (pt_run _ _ _ 1 (demo_table demo5) (demo_entry 1 demo5)); by vm_compute|].
  apply (rtc_l _ _ demo7).
  { apply (pt_exit _ _ _ 1); [|by vm_compute]. split; [by vm_compute|]. split; [by vm_compute|].
    exists (demo_table demo6), (demo_entry 1 demo6). by vm_compute. }
  apply rtc_once. apply pt_cpu. split; [done|]. split; [done|].
  exists (demo_table demo7), (demo_entry 0 demo7). by vm_compute.
Qed.

Lemma exit_wait_no_lost_wakeup_witness :
  ~ (p_state (demo_entry 0 demo8) = SLEEPING /\ p_chan (demo_entry 0 demo8) = ChProc (0%nat, 0%nat)) /\
  (forall r s', k_sched demo8 = Some 0%nat -> k_proc demo8 = Some (0%nat, 0%nat) ->
     wait_round virtual_memory_init demo8 = Ok (r, s') ->
     exists k z, demo_table demo8 !! k = Some z /\ zombie_child (0%nat, 0%nat) z /\ r = Some (p_pid z) /\
       table 0 s' = Some (<[k := reaped z]> (demo_table demo8))).
Proof.
  apply (exit_wait_no_lost_wakeup virtual_memory_init 0 demo0 demo8 (demo_table demo8) 1 0
           (demo_entry 1 demo8) (demo_entry 0 demo8)).
  - exists (demo_table demo0). split; [by vm_compute|]. split; [by vm_compute|]. vm_compute. by repeat constructor.
  - apply demo_reach.
  - by vm_compute.
  - by vm_compute.
  - split; by vm_compute.
  - by vm_compute.
Defined.

(** The lock is taken and entry 0 waits. *)
Definition demo9 : kernel unit := demo_ran (acquire_ptable_lock 0) demo8.

#[local] Abbreviation demo_freed :=
  ((vm_free virtual_memory_init (p_pgdir (demo_entry 1 demo9));; kfree (p_kstack (demo_entry 1 demo9))) (k_mem demo9)).

Lemma wait_correct_witness :
  exists m, demo_freed = Ok (tt, m) /\
  wait_loop panic virtual_memory_init 1 demo9 =
    Ok (9, unlocked 0 (set_k_mem m (with_table 0 (<[1%nat := reaped (demo_entry 1 demo9)]> (demo_table demo9)) demo9))).
Proof.
  assert (match demo_freed with Ok _ => true | _ => false end = true) as Hok by by vm_compute.
  destruct demo_freed as [[[] m]| | |] eqn:E; [|discriminate Hok..]. exists m. split; [reflexivity|].
  pose proof (wait_correct panic virtual_memory_init 0 0 0 (demo_table demo9) (demo_entry 0 demo9) demo9
    ltac:(by vm_compute) ltac:(by vm_compute)) as H.
  replace (list_find (zombie_child (0%nat, 0%nat)) (demo_table demo9)) with (Some (1%nat, demo_entry 1 demo9)) in H by by vm_compute.
  replace 9 with (p_pid (demo_entry 1 demo9)) by by vm_compute.
  refine (H _ _ _ _ m E); [|vm_compute; reflexivity..].
  exists (default zero_container (k_conts demo9 !! 0%nat)). split; [|split]; vm_compute; reflexivity.
Defined.
End ProcTable.
