(* ===== verification/Fork.v ===== *)
(** * [fork] (src/core/proc.c)

    The whole of [fork], from the allocation of the process and of its address
    space to the files and the directory that it shares with its parent. *)
From S2P Require Import Prelude FsDefines Console BlockIface Inode InodeFacts File FileFacts PhysMem VirtMem VmFacts VmTree Kernel SysArg Proc ProcFacts ProcTable.

Module Fork.
Import Console Inode InodeFacts File FileFacts PhysMem VirtMem VmFacts VmTree Kernel Proc ProcFacts.

(** ** References of open files *)
(** How many of the descriptors [fds] refer to the file [f]. *)
Definition refs_in (f : nat) (fds : list (option nat)) : Z := Z.of_nat (length (filter (fun o => o = Some f) fds)).
(** The files with one reference more for each of the descriptors. *)
Definition shared (fds : list (option nat)) (files : list File) : list File :=
  imap (fun f x => set_f_ref (f_ref x + refs_in f fds) x) files.

Lemma refs_in_snoc f fds o : refs_in f (fds ++ [o]) = refs_in f fds + if decide (o = Some f) then 1 else 0.
Proof. unfold refs_in. rewrite filter_app, length_app, filter_cons, filter_nil. case_decide; simpl; lia. Qed.
Lemma refs_in_le f fds : 0 <= refs_in f fds <= Z.of_nat (length fds).
Proof. unfold refs_in. pose proof (length_filter (fun o => o = Some f) fds). lia. Qed.

Lemma set_f_ref_id x : set_f_ref (f_ref x + 0) x = x.
Proof. destruct x. unfold set_f_ref. simpl. by rewrite Z.add_0_r. Qed.
Lemma shared_nil files : shared [] files = files.
Proof.
  apply list_eq. intros f. unfold shared. rewrite list_lookup_imap. destruct (files !! f) as [x|]; [|done]. simpl. f_equal. apply set_f_ref_id.
Qed.
Lemma shared_lookup fds files f x : files !! f = Some x -> shared fds files !! f = Some (set_f_ref (f_ref x + refs_in f fds) x).
Proof. intros H. unfold shared. by rewrite list_lookup_imap, H. Qed.
Lemma shared_none fds files : shared (fds ++ [None]) files = shared fds files.
Proof.
  apply list_eq. intros f. unfold shared. rewrite !list_lookup_imap. destruct (files !! f) as [x|]; [|done]. simpl.
  by rewrite refs_in_snoc, decide_False, Z.add_0_r by done.
Qed.
Lemma shared_some fds files f x : files !! f = Some x ->
  shared (fds ++ [Some f]) files = <[f := set_f_ref (f_ref x + refs_in f fds + 1) x]> (shared fds files).
Proof.
  intros Hx. apply list_eq. intros g. unfold shared. destruct (decide (f = g)) as [<-|Hn].
  - rewrite list_lookup_insert_eq by (rewrite length_imap; by eapply lookup_lt_Some).
    rewrite list_lookup_imap, Hx. simpl. rewrite refs_in_snoc, decide_True by done. do 2 f_equal. lia.
  - rewrite list_lookup_insert_ne by done. rewrite !list_lookup_imap. destruct (files !! g) as [y|]; [|done]. simpl.
    by rewrite refs_in_snoc, decide_False, Z.add_0_r by congruence.
Qed.

Lemma filedup_ok {St} (s : fstate St) f x : ft_lock s = false -> ft_file s !! f = Some x -> 1 <= f_ref x < 2 ^ 31 - 1 ->
  wp (filedup f) (fun r s' => r = f /\ s' = set_ft_file (<[f := set_f_ref (f_ref x + 1) x]> (ft_file s)) s) s.
Proof.
  intros Hl Hx Hr. unfold filedup, acquire_ftable, release_ftable. apply wp_bind, wp_bind, wp_gets. rewrite Hl.
  apply wp_bind, wp_assert; [done|]. apply wp_modify, wp_bind, (wp_get_file _ _ x); [done|].
  apply wp_bind, wp_assert; [apply negb_true_iff, Z.ltb_ge; lia|]. apply wp_bind, (wp_upd_file _ _ x); [done|].
  apply wp_bind, wp_bind, wp_gets, wp_bind, wp_assert; [done|]. apply wp_modify, wp_ret. split; [done|].
  rewrite i32_id by lia. destruct s. simpl in *. by subst.
Qed.

Lemma inode_share_ok {St} (s : istate St) p i : is_lock s = false -> is_objs s !! p = Some i ->
  wp (inode_share p) (fun r s' => r = p /\ s' = upd_object p (set_i_rc (i_rc i + 1) i) s) s.
Proof.
  intros Hl Hp. apply (wp_change _ (fun _ => Ok (p, upd_object p (set_i_rc (i_rc i + 1) i) s))); [|by unfold wp].
  unfold inode_share, acquire_tree_lock, release_tree_lock, upd_inode, get_inode, put_inode, gets, modify, mbind, M_bind.
  simpl. rewrite Hl. simpl. unfold get_inode, gets, mbind, M_bind. simpl. rewrite Hp. simpl.
  unfold upd_object. by destruct s; simpl in *; subst.
Qed.

(** The first [k] of the parent's descriptors. *)
Definition inherited (k : nat) (fds : list (option nat)) : list (option nat) := take k fds ++ replicate (length fds - k) None.
Lemma inherited_0 fds : inherited 0 fds = replicate (length fds) None.
Proof. unfold inherited. by rewrite Nat.sub_0_r. Qed.
Lemma inherited_all fds : inherited (length fds) fds = fds.
Proof. unfold inherited. rewrite Nat.sub_diag, firstn_all. apply app_nil_r. Qed.
Lemma inherited_S k fds o : fds !! k = Some o -> inherited (S k) fds = <[k := o]> (inherited k fds).
Proof.
  intros Hk. pose proof (lookup_lt_Some _ _ _ Hk) as Hlt. unfold inherited. rewrite (take_S_r _ _ _ Hk), <- app_assoc.
  replace k with (length (take k fds) + 0)%nat at 3 by (rewrite length_take; lia). rewrite insert_app_r.
  by replace (length fds - k)%nat with (S (length fds - S k)) by lia.
Qed.
Lemma inherited_none k fds : fds !! k = Some None -> inherited (S k) fds = inherited k fds.
Proof.
  intros Hk. pose proof (lookup_lt_Some _ _ _ Hk) as Hlt. rewrite (inherited_S _ _ _ Hk). apply list_insert_id. unfold inherited.
  rewrite lookup_app_r by (rewrite length_take; lia). rewrite length_take. apply lookup_replicate_2. lia.
Qed.

Section fork.
Context {St : Type} (forkret_addr trap_return_addr : Z).
#[local] Abbreviation vmt := virtual_memory_init.
Implicit Types (s : kernel St).

(** ** While the child is set up

    The kernel with the child [p] in entry [i] of container [c]; the process
    that runs is [P], in entry [j]. *)
Section at_child.
Context (s : kernel St) (m : gmap nat container) (c i j : nat) (X : container) (P : proc).
Context (Hi : (i < length (s_ptable (c_sched X)))%nat) (Hj : s_ptable (c_sched X) !! j = Some P) (Hij : i <> j).
Context (Hcur : k_proc s = Some (c, j)).

Definition child_at (p : proc) (km : kmem) (fs : fstate St) : kernel St :=
  set_k_fs fs (set_k_mem km (set_k_conts (<[c := put_proc i p X]> m) s)).

Lemma wp_get_child p km fs (Q : proc -> kernel St -> Prop) : Q p (child_at p km fs) -> wp (get_proc (c, i)) Q (child_at p km fs).
Proof using Hi. intros HQ. by apply (wp_get_proc _ (c, i) (put_proc i p X) p); [apply lookup_insert_eq|apply put_proc_lookup|]. Qed.
Lemma wp_upd_child f p km fs (Q : unit -> kernel St -> Prop) :
  Q tt (child_at (f p) km fs) -> wp (upd_proc (c, i) f) Q (child_at p km fs).
Proof using Hi.
  intros HQ. apply (wp_upd_proc _ (c, i) (put_proc i p X) p); [apply lookup_insert_eq|by apply put_proc_lookup|].
  unfold child_at. simpl. rewrite put_proc_twice. unfold set_k_conts, set_k_mem, set_k_fs. simpl. rewrite insert_insert_eq. exact HQ.
Qed.
Lemma wp_cur_parent p km fs (Q : proc -> kernel St -> Prop) : Q P (child_at p km fs) -> wp cur_proc Q (child_at p km fs).
Proof using Hj Hij Hcur.
  intros HQ. unfold cur_proc. apply wp_bind, (ProcTable.wp_this_proc (c, j)); [done|].
  apply (wp_get_proc _ (c, j) (put_proc i p X) P); [apply lookup_insert_eq| |done]. simpl. by rewrite list_lookup_insert_ne.
Qed.
Lemma wp_mem_child {A} (f : M kmem A) p km fs (Q : A -> kernel St -> Prop) :
  wp f (fun a km' => Q a (child_at p km' fs)) km -> wp (onmem f) Q (child_at p km fs).
Proof using Type. intros H. apply wp_lift. exact H. Qed.
Lemma wp_fs_child {A} (f : M (fstate St) A) p km fs (Q : A -> kernel St -> Prop) :
  wp f (fun a fs' => Q a (child_at p km fs')) fs -> wp (onfs f) Q (child_at p km fs).
Proof using Type. intros H. apply wp_lift. exact H. Qed.

(** The inode layer, told which process runs. *)
Definition asked_by (q : proc) (t : istate St) : istate St :=
  mkIstate (is_cache t) (is_objs t) (is_next t) (is_head t) (is_lock t) (is_con t) (default (is_next t) (p_cwd q)) (p_killed q).
Lemma wp_inodes_child {A} (f : M (istate St) A) p km fs (Q : A -> kernel St -> Prop) :
  wp f (fun a t => Q a (child_at p km (set_fs_is t fs))) (asked_by P (fs_is fs)) -> wp (oninodes f) Q (child_at p km fs).
Proof using Hj Hij Hcur.
  intros H. unfold oninodes, onfiles. apply wp_bind, wp_cur_parent, wp_fs_child. apply wp_bind, wp_lift, wp_modify.
  apply wp_lift. exact H.
Qed.

(** The loop over the descriptors. *)
Definition dup_fd (fd : nat) : M (kernel St) unit :=
  x ← cur_proc;
  match p_ofile x !! fd with
  | Some (Some f) => f ← onfs (filedup f); upd_proc (c, i) (fun y => set_p_ofile (<[fd := Some f]> (p_ofile y)) y)
  | _ => mret tt
  end.

Lemma dup_fds_ok C km fs (Q : unit -> kernel St -> Prop) :
  p_ofile C = replicate 8 None -> length (p_ofile P) = 8%nat -> ft_lock fs = false ->
  (forall f, Some f ∈ p_ofile P -> exists x, ft_file fs !! f = Some x /\ 1 <= f_ref x < 2 ^ 31 - 8) ->
  Q tt (child_at (set_p_ofile (p_ofile P) C) km (set_ft_file (shared (p_ofile P) (ft_file fs)) fs)) ->
  wp (eachM (seq 0 (Z.to_nat NOFILE)) dup_fd) Q (child_at C km fs).
Proof using All.
  intros HC Hlen Hlk Hfiles HQ. change (Z.to_nat NOFILE) with 8%nat.
  apply (wp_eachM_seq 8 _ (fun k s' => s' = child_at (set_p_ofile (inherited k (p_ofile P)) C) km (set_ft_file (shared (take k (p_ofile P)) (ft_file fs)) fs))).
  - rewrite inherited_0, Hlen, <- HC. change (take 0 (p_ofile P)) with (@nil (option nat)). rewrite shared_nil. f_equal; [by destruct C|by destruct fs].
  - intros k s' Hk ->. destruct (lookup_lt_is_Some_2 (p_ofile P) k) as [o Ho]; [lia|].
    unfold dup_fd. apply wp_bind, wp_cur_parent. rewrite Ho. destruct o as [f|].
    + destruct (Hfiles f) as (x & Hx & Hr); [by eapply list_elem_of_lookup_2|].
      pose proof (refs_in_le f (take k (p_ofile P))) as Hle. rewrite length_take in Hle.
      apply wp_bind, wp_fs_child. eapply wp_mono; [apply (filedup_ok _ f (set_f_ref (f_ref x + refs_in f (take k (p_ofile P))) x)); [done|by apply shared_lookup|]|].
      { simpl. change (2 ^ 31) with 2147483648 in *. lia. }
      intros f' fs' [-> ->]. apply wp_upd_child. rewrite (inherited_S _ _ _ Ho), (take_S_r _ _ _ Ho), (shared_some _ _ _ x) by done. done.
    + apply wp_ret. by rewrite (inherited_none _ _ Ho), (take_S_r _ _ _ Ho), shared_none.
  - intros s' ->. rewrite <- Hlen, inherited_all, firstn_all. exact HQ.
Qed.
End at_child.

(** ** The allocation of the process *)
Lemma ancestry_size s c l : ancestry s c l -> NoDup l -> (length l <= size (k_conts s))%nat.
Proof.
  intros Ha Hnd. assert (forall d, d ∈ l -> is_Some (k_conts s !! d)) as Hd.
  { clear Hnd. revert c Ha. induction l as [|e l IH]; [done|]. intros c (-> & x & Hx & _ & _ & _ & Hr) d [->|Hd]%elem_of_cons; [by exists x|].
    case_bool_decide; [subst; by apply not_elem_of_nil in Hd|by eapply IH]. }
  rewrite <- size_dom, <- (size_list_to_set (C := gset nat) l) by done. apply subseteq_size. intros d Hd'%elem_of_list_to_set. apply elem_of_dom. by apply Hd.
Qed.

(** The process [P], in entry [j] of the table of [x], runs in the container
    [c]; no lock is taken; there is an unused entry, and unused entries have
    no open files. *)
Record can_fork s (c j : nat) (x : container) (anc : list nat) (P : proc) : Prop := {
  cf_sched : k_sched s = Some c;
  cf_proc : k_proc s = Some (c, j);
  cf_cont : k_conts s !! c = Some x;
  cf_op : s_op (c_sched x) = true;
  cf_lock : s_lock (c_sched x) = false;
  cf_self : s_cont (c_sched x) = c;
  cf_pids : pids_ok x;
  cf_anc : ancestry s c anc;
  cf_anc_nodup : NoDup anc;
  cf_me : s_ptable (c_sched x) !! j = Some P;
  cf_used : used P;
  cf_room : exists k p, s_ptable (c_sched x) !! k = Some p /\ ~ used p;
  cf_clean : forall k p, s_ptable (c_sched x) !! k = Some p -> ~ used p -> p_ofile p = replicate 8 None;
  cf_fds : length (p_ofile P) = 8%nat;
  cf_ftable : ft_lock (k_fs s) = false;
  cf_files : forall f, Some f ∈ p_ofile P -> exists y, ft_file (k_fs s) !! f = Some y /\ 1 <= f_ref y < 2 ^ 31 - 8;
  cf_inodes : is_lock (fs_is (k_fs s)) = false
}.

(** What the allocation does to the containers: the entry [i], before it
    [p0], and a number in every container of [anc]. *)
Definition allocated s (c i : nat) (x : container) (anc : list nat) (p0 : proc) (m : gmap nat container) : Prop :=
  s_ptable (c_sched x) !! i = Some p0 /\ ~ used p0 /\ pids_ok (put_proc i (embryo (s_pid (c_sched x) + 1) p0) (take_pid (c, i) x)) /\
  forall d, d <> c -> m !! d = if decide (d ∈ anc) then take_pid (c, i) <$> (k_conts s !! d) else k_conts s !! d.

Definition start_context : context := set_cx_lr trap_return_addr (set_cx_lr0 forkret_addr zero_context).
Definition fresh_proc (p0 : proc) (pid pg ks : Z) : proc :=
  set_p_context start_context (set_p_tf zero_trapframe (set_p_kstack ks (set_p_pgdir pg (embryo pid p0)))).

Lemma alloc_pcb_child s c j x anc P (Q : option pptr -> kernel St -> Prop) :
  can_fork s c j x anc P ->
  (forall i p0 m, allocated s c i x anc p0 m ->
    Q (Some (c, i)) (child_at s m c i (take_pid (c, i) x) (embryo (s_pid (c_sched x) + 1) p0) (k_mem s) (k_fs s))) ->
  wp alloc_pcb Q s.
Proof.
  intros [] HQ. unfold alloc_pcb, with_op. apply wp_bind, (ProcTable.wp_this_scheduler c); [done|].
  apply wp_bind, (wp_get_cont _ _ x); [done|]. apply wp_bind, wp_assert; [done|].
  pose proof (ancestry_size _ _ _ cf_anc0 cf_anc_nodup0).
  eapply wp_mono; [apply (alloc_pcb_ok s c x anc); (done || lia)|]. intros r s' (m & -> & Hm). destruct r as [q|].
  - destruct Hm as (i & p0 & -> & Hi & Hu & _ & Hmc & Hpids & Hm). specialize (HQ i p0 m ltac:(done)).
    unfold child_at in HQ. rewrite (insert_id m c) in HQ by done. exact HQ.
  - exfalso. destruct Hm as [Hall _], cf_room0 as (k & p & Hk & Hu). by apply Hu, (Hall k).
Qed.

(** Two pages: the first becomes an empty table, the second the kernel stack. *)
Lemma alloc_proc_child s c j x anc P pg ks l :
  can_fork s c j x anc P -> km_inv (k_mem s) (pg :: ks :: l) -> page_ok pg -> page_ok ks ->
  wp (alloc_proc vmt forkret_addr trap_return_addr) (fun q s' => exists i p0 m km, q = (c, i) /\ allocated s c i x anc p0 m /\
    s' = child_at s m c i (take_pid (c, i) x) (fresh_proc p0 (s_pid (c_sched x) + 1) pg ks) km (k_fs s) /\
    km_inv km l /\ only_in [pg] (km_mem (k_mem s)) (km_mem km)) s.
Proof.
  intros Hc Hk Hpg Hks. unfold alloc_proc. apply wp_bind, (alloc_pcb_child s c j x anc P); [done|]. intros i p0 m Hm.
  assert (i < length (s_ptable (c_sched (take_pid (c, i) x))))%nat as Hi by (destruct Hm as [H _]; by apply lookup_lt_Some in H).
  apply wp_bind, wp_ret. apply wp_bind, wp_mem_child. eapply wp_mono; [by apply (pgdir_init_ok _ pg (ks :: l))|].
  intros pg' km1 (-> & Hk1 & Ho1 & _). apply wp_bind, wp_upd_child; [done|].
  apply wp_bind, wp_mem_child. eapply wp_mono; [by apply (kalloc_ok _ (ks :: l))|]. intros ks' km2 (Hm2 & -> & Hk2).
  apply wp_bind, wp_assert; [apply negb_true_iff, Z.eqb_neq; destruct Hks as (_ & ? & _); lia|].
  do 5 (apply wp_bind, wp_upd_child; [done|]). apply wp_ret. exists i, p0, m, km2. split_and!; try done. by rewrite Hm2.
Qed.

(** ** The whole of [fork] *)
(** The child: the entry [p0] with its number, address space and kernel stack,
    and what it takes from its parent [P]; the rest is as [p0] had it. *)
Definition forked (P p0 : proc) (me : pptr) (pid pg ks : Z) : proc :=
  mkProc (p_sz P) pg ks RUNNABLE pid (Some me) (set_tf_x (<[0%nat := 0]> (tf_x (p_tf P))) (p_tf P)) start_context
    (p_chan p0) (p_killed p0) (p_name p0) (p_cont p0) (p_is_scheduler p0) (p_ofile P) (p_cwd P) (p_stksz p0) (p_base p0).

(** The open files and the inodes after it: a reference more for every
    descriptor and for the working directory [ip]. *)
Definition fork_fs (P : proc) (ip : nat) (inode : Inode) (fs : fstate St) : fstate St :=
  set_fs_is (upd_object ip (set_i_rc (i_rc inode + 1) inode) (asked_by P (fs_is fs))) (set_ft_file (shared (p_ofile P) (ft_file fs)) fs).

(** The memory: of the free pages [l], the first is left in no table, the
    second is the kernel stack, and the next ones are the copy [T'] of the
    address space [T]. *)
Record fork_mem (km0 : kmem) (l : list Z) (T : tree 4) (lost ks : Z) (T' : tree 4) (l' : list Z) (km : kmem) : Prop := {
  fm_pages : l = lost :: ks :: tpages T' ++ l';
  fm_inv : km_inv km l';
  fm_new : trep (km_mem km) T';
  fm_old : trep (km_mem km) T;
  fm_same : same_content (km_mem km0) (km_mem km) T T';
  fm_only : only_in (lost :: tpages T') (km_mem km0) (km_mem km)
}.

Lemma copy_mem km0 km1 km2 lost ks l T T' l2 :
  Forall page_ok (lost :: tpages T') -> Forall page_ok (tpages T) -> (forall q, q ∈ tpages T -> q ∉ lost :: ks :: l) ->
  trep (km_mem km1) T -> only_in [lost] (km_mem km0) (km_mem km1) ->
  l = tpages T' ++ l2 -> km_inv km2 l2 -> trep (km_mem km2) T' -> same_content (km_mem km1) (km_mem km2) T T' ->
  only_in (tpages T') (km_mem km1) (km_mem km2) -> fork_mem km0 (lost :: ks :: l) T lost ks T' l2 km2.
Proof.
  intros [Hlo Hp']%Forall_cons Hp Hd Ht Ho1 -> Hk2 Ht2 Hs Ho2. split; [done|done|done| | |].
  - apply (trep_agree (km_mem km1)); [|done]. apply (only_in_agree (tpages T')); try done. intros q Hq Hq'. apply (Hd q Hq).
    rewrite !elem_of_cons, elem_of_app. tauto.
  - apply (same_content_agree (km_mem km1) (km_mem km2)); [|done|done]. apply agree_sym, (only_in_agree [lost]); [done|by apply Forall_singleton|done|].
    intros q Hq ->%list_elem_of_singleton. apply (Hd lost Hq). by left.
  - apply (only_in_trans _ _ (km_mem km1)); [apply (only_in_more [lost])|apply (only_in_more (tpages T'))]; try done;
      intros q; rewrite ?list_elem_of_singleton, !elem_of_cons; tauto.
Qed.

Lemma fork_ok s c j x anc P T l ip inode :
  can_fork s c j x anc P -> p_cwd P = Some ip -> is_objs (fs_is (k_fs s)) !! ip = Some inode ->
  km_inv (k_mem s) l -> Forall frame_ok l -> p_pgdir P = troot T -> trep (km_mem (k_mem s)) T -> (forall q, q ∈ tpages T -> q ∉ l) ->
  (2 + length (tpages T) <= length l)%nat ->
  wp (fork vmt forkret_addr trap_return_addr) (fun pid s' => exists i p0 m lost ks T' l' km,
    pid = s_pid (c_sched x) + 1 /\ allocated s c i x anc p0 m /\ fork_mem (k_mem s) l T lost ks T' l' km /\
    s' = child_at s m c i (take_pid (c, i) x) (forked P p0 (c, j) pid (troot T') ks) km (fork_fs P ip inode (k_fs s))) s.
Proof.
  intros Hc Hcwd Hip Hk Hfr Hpg HT Hd Hlen. destruct l as [|lost [|ks l]]; [cbn [length] in Hlen; lia..|].
  apply Forall_cons in Hfr as [Hlo [Hks Hfr]%Forall_cons].
  unfold fork. apply wp_bind. eapply wp_mono; [by apply (alloc_proc_child s c j x anc P lost ks l); try apply frame_page|].
  intros q s1 (i & p0 & m & km1 & -> & Hm & -> & Hk1 & Ho1). pose proof Hm as (Hi0 & Hu0 & _).
  set (X := take_pid (c, i) x).
  assert (i < length (s_ptable (c_sched X)))%nat as Hi by (by apply lookup_lt_Some in Hi0).
  assert (s_ptable (c_sched X) !! j = Some P) as Hj by apply Hc.
  assert (i <> j) as Hij. { intros <-. pose proof (cf_me _ _ _ _ _ _ Hc). assert (p0 = P) as -> by congruence. by apply Hu0, Hc. }
  pose proof (cf_proc _ _ _ _ _ _ Hc) as Hcur.
  apply wp_bind, (ProcTable.wp_this_proc (c, j)); [done|]. apply wp_bind, (wp_cur_parent s m c i j X P); [done..|]. rewrite Hpg.
  assert (Forall page_ok (tpages T)) as HpT by (by apply frames_pages, (trep_pages (km_mem (k_mem s)))).
  assert (trep (km_mem km1) T) as HT1.
  { apply (trep_agree (km_mem (k_mem s))); [|done]. apply (only_in_agree [lost]); [done|by apply Forall_singleton, frame_page|done|].
    intros q Hq ->%list_elem_of_singleton. apply (Hd lost Hq). by left. }
  change (uvm_copy vmt (troot T)) with (copy_node 4 (troot T)).
  apply wp_bind, wp_mem_child. eapply wp_mono; [apply (copy_node_ok 4 T km1 l Hk1 Hfr HT1); [|cbn [length] in Hlen; lia]|].
  { intros q Hq Hq'. apply (Hd q Hq). by right; right. }
  intros pg km2 (T' & l2 & -> & Hl & Hk2 & Ht2 & Hsc & Ho2).
  pose proof (frames_pages _ (trep_pages _ _ Ht2)) as HpT'.
  apply wp_bind, wp_upd_child; [done|]. rewrite (proj2 (Z.eqb_neq (troot T') 0)).
  2: { rewrite Forall_forall in HpT'. destruct (HpT' _ (troot_in T')) as (_ & ? & _). lia. }
  do 4 (apply wp_bind, wp_upd_child; [done|]).
  apply wp_bind, (dup_fds_ok s m c i j X P); [done|done|done|done|exact (cf_clean _ _ _ _ _ _ Hc i p0 Hi0 Hu0)|apply Hc|apply Hc|apply Hc|].
  apply wp_bind, (wp_cur_parent s m c i j X P); [done..|]. rewrite Hcwd. apply wp_bind, wp_ret.
  apply wp_bind, (wp_inodes_child s m c i j X P); [done..|].
  eapply wp_mono; [apply inode_share_ok; [apply Hc|exact Hip]|]. intros r t [-> ->].
  do 2 (apply wp_bind, wp_upd_child; [done|]). apply wp_bind, wp_get_child; [done|]. apply wp_ret.
  exists i, p0, m, lost, ks, T', l2, km2. split; [done|]. split; [done|]. split.
  - apply (copy_mem _ km1 _ lost ks l T T'); try done. apply Forall_cons. split; [by apply frame_page|done].
  - unfold forked. rewrite Hcwd. done.
Qed.

(** C31: with a free entry and enough free pages [fork] returns the number of a
    new process: runnable, with a copy of the address space in pages of its
    own, the trap frame of its parent but for the result 0, its open files and
    working directory, each with a reference more; the parent, its address
    space, every other process and all other memory are as before. The page
    [lost], the table that [alloc_proc] made and that is then overwritten, is
    neither free nor used by a process, and the child keeps [stksz] and [base]
    of the process that had its entry before. *)
Theorem fork_correct s c j x anc P T l ip inode :
  can_fork s c j x anc P -> p_cwd P = Some ip -> is_objs (fs_is (k_fs s)) !! ip = Some inode ->
  km_inv (k_mem s) l -> Forall frame_ok l -> p_pgdir P = troot T -> trep (km_mem (k_mem s)) T -> (forall q, q ∈ tpages T -> q ∉ l) ->
  (2 + length (tpages T) <= length l)%nat ->
  exists i p0 m lost ks T' l' km,
    fork vmt forkret_addr trap_return_addr s = Ok (s_pid (c_sched x) + 1,
      child_at s m c i (take_pid (c, i) x) (forked P p0 (c, j) (s_pid (c_sched x) + 1) (troot T') ks) km (fork_fs P ip inode (k_fs s))) /\
    allocated s c i x anc p0 m /\ fork_mem (k_mem s) l T lost ks T' l' km.
Proof.
  intros Hc Hcwd Hip Hk Hfr Hpg HT Hd Hlen.
  destruct (proj1 (wp_ok _ _ _) (fork_ok s c j x anc P T l ip inode Hc Hcwd Hip Hk Hfr Hpg HT Hd Hlen))
    as (r & s' & E & i & p0 & m & lost & ks & T' & l' & km & -> & Hm & Hmem & ->).
  by exists i, p0, m, lost, ks, T', l', km.
Qed.

(** When [wait] has given the address space and the kernel stack of the child
    back, every page is free again but the one that [fork] lost. *)
Theorem fork_wait_leaks km0 l T lost ks T' l' km :
  fork_mem km0 l T lost ks T' l' km -> NoDup l -> Forall page_ok l ->
  exists km' l2, (vm_free vmt (troot T');; kfree ks) km = Ok (tt, km') /\ km_inv km' l2 /\ l ≡ₚ lost :: l2.
Proof.
  intros [El Hk HT' _ _ _] Hnd Hp. rewrite El in Hnd, Hp. apply NoDup_cons in Hnd as [_ [Hks Hnd]%NoDup_cons].
  apply Forall_cons in Hp as [_ [Hksp _]%Forall_cons]. apply NoDup_app in Hnd as (Hn & Hd & _). rewrite elem_of_app in Hks.
  change (vm_free vmt (troot T')) with (free_node 4 (troot T')).
  enough (wp (free_node 4 (troot T');; kfree ks) (fun _ km' => exists l2, km_inv km' l2 /\ l ≡ₚ lost :: l2) km) as Hwp.
  { destruct (proj1 (wp_ok _ _ _) Hwp) as ([] & km' & E & l2 & H1 & H2). by exists km', l2. }
  apply wp_bind. eapply wp_mono; [by apply (free_node_ok 4 T' km l')|]. intros [] km1 (l1 & Hp1 & Hk1 & _).
  eapply wp_mono; [apply (kfree_page km1 l1 ks Hk1 Hksp)|].
  { rewrite Hp1, elem_of_app. tauto. }
  intros [] km2 (l2 & Hp2 & Hk2 & _). exists l2. split; [done|]. by rewrite El, Hp2, Hp1.
Qed.
(** A child in an entry that no process had before refuses, until it calls
    [execve], system calls with a block on the user stack, which its parent
    may have used: its [stksz] is 0. *)
Theorem fork_child_stack P p0 me pid pg ks a n :
  p_stksz p0 = 0 -> 0 <= a -> p_sz P <= a -> 0 < n -> a + n <= USPACE_TOP -> SysArg.in_user (forked P p0 me pid pg ks) a n = false.
Proof.
  intros Hs Ha Hsz Hn Htop. unfold SysArg.in_user, forked. cbn [p_base p_sz p_stksz]. rewrite Hs, Z.sub_0_r. unfold USPACE_TOP in *.
  rewrite !u64_id by lia. apply orb_false_iff. rewrite !andb_false_iff, !Z.leb_gt. lia.
Qed.
End fork.

(** ** A process with one page, two descriptors of one file, and a directory *)
Definition demo_parent : proc :=
  set_p_cwd (Some 0%nat) (set_p_ofile (Some 0%nat :: Some 0%nat :: replicate 6 None) (set_p_sz PAGE_SIZE
    (set_p_pgdir (demo_page 5) (set_p_pid 1 (set_p_state RUNNING zero_proc))))).
Definition demo_parent_container : container :=
  set_c_sched (set_s_ptable (demo_parent :: replicate 13 zero_proc) (c_sched (demo_container 1))) (demo_container 1).
Definition demo_directory : Inode := mkInode false 1 1 true zero_entry.
Definition demo_fork_kernel : kernel unit :=
  mkKernel {[ 0%nat := demo_parent_container ]} 1 no_arena 0 (Some 0%nat) (Some (0%nat, 0%nat)) demo_space_kmem
    (mkFstate (mkIstate tt {[ 0%nat := demo_directory ]} 1 [0%nat] false init_console 0 false) false [mkFile FD_INODE 2 1 0 0 1 0]) 0 false false.

Lemma demo_table_entry k p : s_ptable (c_sched demo_parent_container) !! k = Some p -> k = 0%nat /\ p = demo_parent \/ p = zero_proc.
Proof.
  destruct k as [|k]; simpl; [intros [= <-]; by left|]. intros H. right.
  change (replicate 13 zero_proc !! k = Some p) in H. by apply lookup_replicate in H as [-> _].
Qed.

Lemma demo_can_fork : can_fork demo_fork_kernel 0 0 demo_parent_container [0%nat] demo_parent.
Proof.
  assert (~ used zero_proc) as Hz by (intros H; by apply H).
  split; try done.
  - split; [done| |].
    + intros k p [[-> ->]| ->]%demo_table_entry Hu; [|by destruct Hz]. vm_compute. split; congruence.
    + intros k1 k2 p q [[-> ->]| ->]%demo_table_entry [[-> ->]| ->]%demo_table_entry Hp Hq _; by (done || destruct Hz).
  - split; [done|]. exists demo_parent_container. by split_and!.
  - apply NoDup_singleton.
  - by exists 1%nat, zero_proc.
  - intros k p [[-> ->]| ->]%demo_table_entry Hu; [by destruct Hu|done].
  - intros f Hf. exists (mkFile FD_INODE 2 1 0 0 1 0). assert (f = 0%nat) as ->; [|by split].
    change (Some f ∈ Some 0%nat :: Some 0%nat :: replicate 6 None) in Hf.
    apply elem_of_cons in Hf as [[= ->]|[[= ->]|Hf]%elem_of_cons]; [done|done|]. by apply elem_of_replicate in Hf as [? _].
Qed.

Lemma fork_correct_witness :
  exists i p0 m lost ks (T' : tree 4) l' km,
    fork virtual_memory_init 0 0 demo_fork_kernel = Ok (2,
      child_at demo_fork_kernel m 0 i (take_pid (0%nat, i) demo_parent_container) (forked 0 0 demo_parent p0 (0%nat, 0%nat) 2 (troot T') ks) km
        (fork_fs demo_parent 0 demo_directory (k_fs demo_fork_kernel))) /\
    allocated demo_fork_kernel 0 i demo_parent_container [0%nat] p0 m /\ fork_mem demo_space_kmem demo_free demo_space lost ks T' l' km.
Proof.
  apply (fork_correct 0 0 demo_fork_kernel 0 0 demo_parent_container [0%nat] demo_parent demo_space demo_free 0 demo_directory).
  - apply demo_can_fork.
  - reflexivity.
  - reflexivity.
  - apply demo_space_inv.
  - repeat constructor; vm_compute; congruence.
  - reflexivity.
  - apply demo_space_rep.
  - apply demo_space_sep.
  - rewrite demo_space_pages. simpl. lia.
Defined.

Lemma fork_wait_leaks_witness : exists lost ks (T' : tree 4) l' km km' l2,
  fork_mem demo_space_kmem demo_free demo_space lost ks T' l' km /\
  (vm_free virtual_memory_init (troot T');; kfree ks) km = Ok (tt, km') /\ km_inv km' l2 /\ demo_free ≡ₚ lost :: l2.
Proof.
  destruct (proj1 (wp_ok _ _ _) (fork_ok 0 0 demo_fork_kernel 0 0 demo_parent_container [0%nat] demo_parent demo_space demo_free 0 demo_directory
    demo_can_fork eq_refl eq_refl demo_space_inv ltac:(repeat constructor; vm_compute; congruence) eq_refl demo_space_rep demo_space_sep
    ltac:(rewrite demo_space_pages; simpl; lia))) as (r & s' & _ & i & p0 & m & lost & ks & T' & l' & km & _ & _ & Hm & _).
  destruct (fork_wait_leaks demo_space_kmem demo_free demo_space lost ks T' l' km Hm) as (km' & l2 & H); [apply demo_space_inv..|].
  by exists lost, ks, T', l', km, km', l2.
Defined.

Lemma fork_child_stack_witness : SysArg.in_user (forked 0 0 demo_parent zero_proc (0%nat, 0%nat) 2 0 0) (USPACE_TOP - 4096) 8 = false.
Proof. apply fork_child_stack; by vm_compute. Defined.
End Fork.
