(* ===== verification/Syscall.v ===== *)
(** * Dispatch of system calls, traps and interrupts (src/core/syscall.c,
    sysproc.c, sysproc_my.c, trap.c, src/driver/interrupt.c, clock.c) *)
From S2P Require Import Prelude FsDefines Console BlockIface Inode File PhysMem VirtMem Kernel Proc SysArg Exec Sysfile.

Module Interrupt.

Definition NUM_IRQ_TYPES : Z := 64.
Definition IRQ_SRC_GPU : Z := Z.shiftl 1 8.
Definition IRQ_SRC_CNTPNSIRQ : Z := Z.shiftl 1 1.

Section interrupt.
Context {St : Type}.

(** [ctx.handler] of interrupt.c and of clock.c. *)
Record handlers : Type := mkHandlers {
  h_handler : list (option (M St unit));
  h_clock : option (M St unit)
}.

(** [1u << (type % 32)] is written to the enabling register
    [ENABLE_IRQS_1 + 4 * (type / 32)]: its number and the value. *)
Definition set_interrupt_handler (type : Z) (handler : M St unit) (h : handlers) : handlers * (Z * Z) :=
  (mkHandlers (<[Z.to_nat type := Some handler]> (h_handler h)) (h_clock h), (4 * (type / 32), Z.shiftl 1 (type mod 32))).

Definition init_interrupt (h : handlers) : handlers := mkHandlers (replicate 64 None) (h_clock h).

Definition set_clock_handler (handler : M St unit) (h : handlers) : handlers := mkHandlers (h_handler h) (Some handler).

Definition invoke_clock_handler (h : handlers) : M St unit :=
  match h_clock h with None => panic | Some f => f end.

(** [source], [pending1] and [pending2] are what the device registers hold. *)
Definition interrupt_global_handler (h : handlers) (source pending1 pending2 : Z) : M St unit :=
  let clock := negb (Z.land source IRQ_SRC_CNTPNSIRQ =? 0) in
  let source := if clock then Z.lxor source IRQ_SRC_CNTPNSIRQ else source in
  whenM clock (invoke_clock_handler h);;
  let gpu := negb (Z.land source IRQ_SRC_GPU =? 0) in
  let source := if gpu then Z.lxor source IRQ_SRC_GPU else source in
  whenM gpu
    (let map := Z.lor pending1 (Z.shiftl pending2 32) in
     eachM (seqZ 0 NUM_IRQ_TYPES) (fun i =>
       whenM (negb (Z.land (Z.shiftr map i) 1 =? 0))
         (match h_handler h !! Z.to_nat i with
          | Some (Some f) => f
          | _ => panic
          end)));;
  assert_ (source =? 0).

End interrupt.
Arguments handlers : clear implicits.
End Interrupt.

Module Syscall.
Import Inode File PhysMem VirtMem Kernel Proc SysArg Exec Sysfile Interrupt.

Definition NR_SYSCALL : Z := 512.
Definition ESR_EC_SHIFT : Z := 26.
Definition ESR_IR_MASK : Z := Z.shiftl 1 25.
Definition ESR_EC_UNKNOWN : Z := 0.
Definition ESR_EC_SVC64 : Z := 21.

Section syscall.
Context {St : Type} (sblock : SuperBlock) (cache : BlockCache St) (uninit : InodeEntry).
Context (mmu : Z -> (Z -> Z) -> Z -> option Z) (vmt : VirtualMemoryTable) (elf0 ph0 name0 : list Z).
Context (swtch : M (kernel St) unit) (forkret_addr trap_return_addr : Z).
(** The counter and frequency registers, and bounds on loops over user tables
    and on wake-ups. *)
Context (pct frq : Z) (fuel : nat) (ctx : nat).

(** ** sysproc.c *)
Definition sys_gettid : M (kernel St) Z := p ← cur_proc; mret (p_pid p).
Definition sys_ioctl : M (kernel St) Z :=
  p ← cur_proc;
  if tf_x (p_tf p) !!! 1%nat =? 21523 then mret 0 else panic.
Definition sys_sigprocmask : M (kernel St) Z := mret 0.
Definition sys_default : M (kernel St) Z := mret 0.

Definition sys_yield : M (kernel St) Z := yield swtch;; mret 0.

(** [usize]: the old size, or -1. *)
Definition sys_brk : M (kernel St) Z :=
  n ← argint 0;
  match n with
  | None => mret (u64 (-1))
  | Some n =>
      p ← cur_proc;
      let sz := p_sz p in
      r ← growproc vmt n;
      if r <? 0 then mret (u64 (-1)) else mret sz
  end.

Definition sys_clone : M (kernel St) Z :=
  flag ← argint 0;
  childstk ← argint 1;
  match flag, childstk with
  | Some flag, Some _ => if negb (flag =? 17) then mret (-1) else fork vmt forkret_addr trap_return_addr
  | _, _ => mret (-1)
  end.

Definition sys_wait4 : M (kernel St) Z :=
  pid ← argint 0;
  wstatus ← argint 1;
  opt ← argint 2;
  rusage ← argint 3;
  match pid, wstatus, opt, rusage with
  | Some _, Some _, Some _, Some _ => wait swtch vmt fuel
  | _, _, _, _ => mret (-1)
  end.

Definition sys_exit : M (kernel St) Z := exit sblock cache swtch (callee_ctx ctx);; panic.

(** A frequency below 1000 Hz divides by zero. *)
Definition sys_ctime : M (kernel St) Z :=
  assert_ (negb (frq / 1000 =? 0));;
  mret (i32 (pct / (frq / 1000))).

(** ** sysproc_my.c *)
(** The number of the process in the root container; the loop keeps the last
    match. *)
Definition sys_myprint (x : Z) : M (kernel St) unit :=
  root ← gets k_root;
  c ← get_cont root;
  me ← this_proc;
  let rootpid := foldl (fun r m => if pm_valid m && bool_decide (pm_p m = Some me) then pm_pid_local m else r) (-1) (c_pmap c) in
  assert_ (0 <? rootpid);;
  yield swtch.

(** ** syscall.c *)
Definition syscall_table (sysno : Z) : M (kernel St) Z :=
  if sysno =? 96 then sys_gettid
  else if sysno =? 29 then sys_ioctl
  else if sysno =? 178 then sys_gettid
  else if sysno =? 135 then sys_sigprocmask
  else if sysno =? 214 then sys_brk
  else if sysno =? 221 then sys_exec sblock cache uninit mmu vmt elf0 ph0 ctx fuel
  else if sysno =? 124 then sys_yield
  else if sysno =? 220 then sys_clone
  else if sysno =? 260 then sys_wait4
  else if sysno =? 94 then sys_exit
  else if sysno =? 93 then sys_exit
  else if sysno =? 23 then sys_dup
  else if sysno =? 49 then sys_chdir sblock cache uninit mmu ctx
  else if sysno =? 80 then sys_fstat sblock cache mmu
  else if sysno =? 79 then sys_fstatat sblock cache uninit mmu ctx
  else if sysno =? 34 then sys_mkdirat sblock cache uninit mmu ctx
  else if sysno =? 33 then sys_mknodat sblock cache uninit mmu ctx
  else if sysno =? 87 then sys_unlink sblock cache uninit mmu name0 ctx
  else if sysno =? 56 then sys_openat sblock cache uninit mmu ctx
  else if sysno =? 66 then sys_writev sblock cache mmu ctx
  else if sysno =? 63 then sys_read sblock cache mmu
  else if sysno =? 64 then sys_write sblock cache mmu ctx
  else if sysno =? 57 then sys_close sblock cache ctx
  else if sysno =? 459 then sys_yield
  else if sysno =? 228 then sys_ctime
  else sys_default.

(** [frame] is the trap frame of the process. The handlers are called as
    functions that return an [int]; a number outside of the table is not
    rejected by the code, and reads past the table. *)
Definition syscall_dispatch : M (kernel St) Z :=
  p ← cur_proc;
  let sysno := i32 (tf_x (p_tf p) !!! 8%nat) in
  assert_ ((0 <=? sysno) && (sysno <? NR_SYSCALL));;
  r ← syscall_table sysno;
  upd_cur (fun p => set_p_tf (set_tf_x (<[0%nat := u64 (i32 r)]> (tf_x (p_tf p))) (p_tf p)) p);;
  p ← cur_proc;
  mret (tf_x (p_tf p) !!! 0%nat).

(** ** trap.c *)
(** [esr] is the syndrome register; the rest is for interrupts. *)
Definition trap_global_handler (h : handlers (kernel St)) (esr source pending1 pending2 : Z) : M (kernel St) unit :=
  let ec := Z.shiftr esr ESR_EC_SHIFT in
  let ir := Z.land esr ESR_IR_MASK in
  if ec =? ESR_EC_UNKNOWN then
    if negb (ir =? 0) then panic else interrupt_global_handler h source pending1 pending2
  else if ec =? ESR_EC_SVC64 then
    r ← syscall_dispatch;
    upd_cur (fun p => set_p_tf (set_tf_x (<[0%nat := r]> (tf_x (p_tf p))) (p_tf p)) p)
  else mret tt.

End syscall.
End Syscall.
