(* ===== verification/StartLock.v ===== *)
(** * The lock of the start (src/main.c)

    [main] as every CPU runs it, up to [init_system_per_cpu]: [init_lock] makes
    the CPUs wait for the one that initialises the system. The calls on
    the lock are the steps, in any order of the CPUs; Locks.v shows that the
    instructions of these calls behave as one step each. *)
From stdpp Require Import strings relations functions.
From S2P Require Import Prelude Locks.

Module StartLock.
Import Spinlock.

(** Where a CPU is in [main]. *)
Inductive mpc : Type :=
| Entry         (** before [try_acquire_spinlock] *)
| Initialising  (** in the body of [init_system_once] *)
| Waiting       (** before the [acquire_spinlock] of [wait_spinlock] *)
| InWait        (** before its [release_spinlock] *)
| Started.      (** after [wait_spinlock] *)
#[global] Instance mpc_eq_dec : EqDecision mpc.
Proof. solve_decision. Defined.

(** [inits] counts how often [init_system_once] got to its end. *)
Record mstate : Type := mkMstate { init_lock : SpinLock; cpus : nat -> mpc; inits : nat }.

(** The next call of a CPU; a panic of the lock is [Panic], and a CPU that
    would spin does not step. *)
Definition main_call (me : nat) (pc : mpc) (n : nat) : M SpinLock (mpc * nat) :=
  match pc with
  | Entry => b ← try_acquire_spinlock me; mret (if b : bool then Initialising else Waiting, n)
  | Initialising => release_spinlock me;; mret (Waiting, S n)
  | Waiting => acquire_spinlock me;; mret (InWait, n)
  | InWait => release_spinlock me;; mret (Started, n)
  | Started => asleep
  end.

Inductive main_step : mstate -> mstate -> Prop :=
| main_steps me s pc n l :
    main_call me (cpus s me) (inits s) (init_lock s) = Ok ((pc, n), l) ->
    main_step s (mkMstate l (<[me := pc]> (cpus s)) n).

(** [static SpinLock init_lock = {.locked = 0}] *)
Definition no_name : string := EmptyString.
Definition main_start : mstate := mkMstate (mkSpinLock false None no_name) (fun _ => Entry) 0.

(** ** The invariant *)
Definition holds (pc : mpc) : bool := match pc with Initialising | InWait => true | _ => false end.

Record main_inv (s : mstate) : Prop := {
  mi_locked : sl_locked (init_lock s) = true -> exists c, sl_cpu (init_lock s) = Some c /\ holds (cpus s c) = true;
  mi_holds : forall c, holds (cpus s c) = true -> sl_locked (init_lock s) = true /\ sl_cpu (init_lock s) = Some c;
  mi_before : inits s = 0%nat -> forall c, cpus s c <> InWait /\ cpus s c <> Started;
  mi_first : inits s = 0%nat -> sl_locked (init_lock s) = false -> forall c, cpus s c = Entry
}.

Lemma try_acquire_eq me l : try_acquire_spinlock me l = Ok (negb (sl_locked l), if sl_locked l then l else mkSpinLock true (Some me) (sl_name l)).
Proof. destruct l as [[] ? ?]; reflexivity. Qed.
Lemma acquire_effect me l r l' : acquire_spinlock me l = Ok (r, l') -> sl_locked l = false /\ l' = mkSpinLock true (Some me) (sl_name l).
Proof.
  destruct l as [[] o n]; [|by intros [= _ <-]]. unfold acquire_spinlock, mbind, M_bind, gets, assert_, holding_spinlock. simpl.
  by case_bool_decide.
Qed.
Lemma release_eq me l : sl_locked l = true -> sl_cpu l = Some me -> release_spinlock me l = Ok (tt, mkSpinLock false None (sl_name l)).
Proof.
  destruct l as [b o n]. simpl. intros -> ->. unfold release_spinlock, mbind, M_bind, gets, assert_, holding_spinlock. simpl.
  by rewrite bool_decide_true.
Qed.

(** What a call does to the lock and to the CPU, when the invariant holds. *)
Definition call_effect (me : nat) (s : mstate) (pc : mpc) (n : nat) (l : SpinLock) : Prop :=
  match cpus s me with
  | Entry => n = inits s /\ ((sl_locked (init_lock s) = true /\ pc = Waiting /\ l = init_lock s) \/
      (sl_locked (init_lock s) = false /\ pc = Initialising /\ l = mkSpinLock true (Some me) (sl_name (init_lock s))))
  | Initialising => n = S (inits s) /\ pc = Waiting /\ l = mkSpinLock false None (sl_name (init_lock s))
  | Waiting => n = inits s /\ sl_locked (init_lock s) = false /\ pc = InWait /\ l = mkSpinLock true (Some me) (sl_name (init_lock s))
  | InWait => n = inits s /\ pc = Started /\ l = mkSpinLock false None (sl_name (init_lock s))
  | Started => False
  end.

Lemma main_call_effect me s pc n l :
  main_inv s -> main_call me (cpus s me) (inits s) (init_lock s) = Ok ((pc, n), l) -> call_effect me s pc n l.
Proof.
  intros Hi. unfold main_call, call_effect. destruct (cpus s me) eqn:E; unfold mbind, M_bind.
  - rewrite try_acquire_eq. destruct (sl_locked (init_lock s)) eqn:El; intros [= <- <- <-]; split; try done; [by left|by right].
  - destruct (mi_holds s Hi me) as [H1 H2]; [by rewrite E|]. rewrite release_eq by done. by intros [= <- <- <-].
  - destruct (acquire_spinlock me (init_lock s)) as [[r l']| | |] eqn:Ea; try done. apply acquire_effect in Ea as [H1 ->]. by intros [= <- <- <-].
  - destruct (mi_holds s Hi me) as [H1 H2]; [by rewrite E|]. rewrite release_eq by done. by intros [= <- <- <-].
  - done.
Qed.

(** The two kinds of steps: [me] takes the lock, or gives it up or leaves it. *)
Lemma inv_takes me s pc : main_inv s -> sl_locked (init_lock s) = false -> holds pc = true ->
  (inits s = 0%nat -> pc = Initialising) ->
  main_inv (mkMstate (mkSpinLock true (Some me) (sl_name (init_lock s))) (<[me := pc]> (cpus s)) (inits s)).
Proof.
  intros [H1 H2 H3 H4] Hl Hpc H0. split; simpl.
  - intros _. exists me. by rewrite fn_lookup_insert.
  - intros c. destruct (decide (me = c)) as [<-|Hne]; [by rewrite fn_lookup_insert|]. rewrite fn_lookup_insert_ne by done.
    intros Hc. destruct (H2 c Hc) as [? _]. congruence.
  - intros Hn c. destruct (decide (me = c)) as [<-|Hne]; [rewrite fn_lookup_insert, H0 by done; by split|]. rewrite fn_lookup_insert_ne by done. by apply H3.
  - done.
Qed.

Lemma inv_gives me s pc n : main_inv s -> holds (cpus s me) = true -> holds pc = false -> n <> 0%nat ->
  main_inv (mkMstate (mkSpinLock false None (sl_name (init_lock s))) (<[me := pc]> (cpus s)) n).
Proof.
  intros [H1 H2 H3 H4] Hh Hpc Hn. destruct (H2 me Hh) as [_ Hcpu]. split; simpl; try done.
  intros c. destruct (decide (me = c)) as [<-|Hne]; [rewrite fn_lookup_insert; congruence|]. rewrite fn_lookup_insert_ne by done.
  intros Hc. destruct (H2 c Hc) as [_ ?]. congruence.
Qed.

Lemma main_inv_step s s' : main_inv s -> main_step s s' -> main_inv s'.
Proof.
  intros Hi Hs. revert Hi. destruct Hs as [me s pc n l Hc]. intros Hi.
  apply main_call_effect in Hc; [|done]. unfold call_effect in Hc. destruct (cpus s me) eqn:E.
  - destruct Hc as [-> [(Hl & -> & ->)|(Hl & -> & ->)]]; [|by apply inv_takes].
    destruct Hi as [H1 H2 H3 H4]. split; simpl.
    + intros _. destruct (H1 Hl) as (c & Hc & Hh). exists c. split; [done|]. rewrite fn_lookup_insert_ne; [done|]. intros <-. by rewrite E in Hh.
    + intros c. destruct (decide (me = c)) as [<-|Hne]; [by rewrite fn_lookup_insert|]. rewrite fn_lookup_insert_ne by done. apply H2.
    + intros Hn c. destruct (decide (me = c)) as [<-|Hne]; [by rewrite fn_lookup_insert|]. rewrite fn_lookup_insert_ne by done. by apply H3.
    + congruence.
  - destruct Hc as (-> & -> & ->). apply inv_gives; [done|by rewrite E|done|done].
  - destruct Hc as (-> & Hl & -> & ->). apply inv_takes; [done..|]. intros H0. pose proof (mi_first _ Hi H0 Hl me). congruence.
  - destruct Hc as (-> & -> & ->). apply inv_gives; [done|by rewrite E|done|].
    intros H0. by destruct (mi_before _ Hi H0 me) as [? _].
  - done.
Qed.

Lemma main_inv_reach s : rtc main_step main_start s -> main_inv s.
Proof.
  assert (main_inv main_start) as H0 by (by split). intros H. revert H0. induction H as [|s1 s2 s3 Hs _ IH]; [done|]. intros Hi.
  by apply IH, (main_inv_step s1).
Qed.

(** C40: [init_lock] orders the start of the CPUs. In every interleaving two CPUs
    are never in the body of [init_system_once] at the same time, no CPU gets
    past [wait_spinlock] before the system was initialised, and no call on the
    lock panics, each CPU spinning only while another one holds the lock. It
    does not make the initialisation happen once: a CPU that comes when the
    lock is free initialises the system, also when that was done before. *)
Theorem init_lock_orders s : rtc main_step main_start s ->
  (forall c d, cpus s c = Initialising -> cpus s d = Initialising -> c = d) /\
  (forall c, cpus s c = Started -> inits s <> 0%nat) /\
  (forall c, cpus s c <> Started -> (exists s', main_step s s' /\ cpus s' c <> cpus s c) \/
     (cpus s c = Waiting /\ exists d, d <> c /\ sl_cpu (init_lock s) = Some d /\ holds (cpus s d) = true)) /\
  (forall c, cpus s c = Entry -> sl_locked (init_lock s) = false -> exists s', main_step s s' /\ cpus s' c = Initialising).
Proof.
  intros H%main_inv_reach. pose proof H as [H1 H2 H3 H4]. split_and!.
  - intros c d Hc Hd. destruct (H2 c) as [_ E1]; [by rewrite Hc|]. destruct (H2 d) as [_ E2]; [by rewrite Hd|]. congruence.
  - intros c Hc H0. by destruct (H3 H0 c) as [_ ?].
  - intros c Hc.
    assert (forall pc n l, main_call c (cpus s c) (inits s) (init_lock s) = Ok ((pc, n), l) -> pc <> cpus s c ->
      exists s', main_step s s' /\ cpus s' c <> cpus s c) as Hstep.
    { intros pc n l Hcall Hpc. eexists. split; [by econstructor|]. simpl. by rewrite fn_lookup_insert. }
    destruct (cpus s c) eqn:E; [left; eapply Hstep|left; eapply Hstep| |left; eapply Hstep|done].
    + unfold main_call, mbind, M_bind. rewrite try_acquire_eq. done.
    + by destruct (sl_locked (init_lock s)).
    + unfold main_call, mbind, M_bind. destruct (H2 c); [by rewrite E|]. by rewrite release_eq.
    + done.
    + destruct (sl_locked (init_lock s)) eqn:El.
      * right. split; [done|]. destruct (H1 eq_refl) as (d & Hd & Hh). exists d. split; [intros ->; by rewrite E in Hh|done].
      * left. destruct (init_lock s) as [b o nm]. simpl in El. subst b. eapply Hstep; [reflexivity|done].
    + unfold main_call, mbind, M_bind. destruct (H2 c); [by rewrite E|]. by rewrite release_eq.
    + done.
  - intros c Hc Hl. eexists. split.
    + apply (main_steps c). rewrite Hc. unfold main_call, mbind, M_bind. rewrite try_acquire_eq, Hl. reflexivity.
    + simpl. by rewrite fn_lookup_insert.
Qed.

(** But a CPU that comes after the lock was released initialises the system
    again, while the first one runs processes. *)
Lemma init_system_twice : exists s, rtc main_step main_start s /\ cpus s 0%nat = Started /\ cpus s 1%nat = Initialising /\ inits s = 1%nat.
Proof.
  eexists. split_and!.
  - eapply rtc_l; [apply (main_steps 0); reflexivity|]. eapply rtc_l; [apply (main_steps 0); reflexivity|].
    eapply rtc_l; [apply (main_steps 0); reflexivity|]. eapply rtc_l; [apply (main_steps 0); reflexivity|].
    eapply rtc_l; [apply (main_steps 1); reflexivity|]. apply rtc_refl.
  - reflexivity.
  - reflexivity.
  - reflexivity.
Qed.

(** CPU 0 initialises, and CPU 1 waits for it. *)
Definition demo_state : mstate :=
  mkMstate (mkSpinLock true (Some 0%nat) no_name) (<[1%nat := Waiting]> (<[0%nat := Initialising]> (fun _ => Entry))) 0.

Lemma init_lock_orders_witness :
  (forall c d, cpus demo_state c = Initialising -> cpus demo_state d = Initialising -> c = d) /\
  (forall c, cpus demo_state c = Started -> inits demo_state <> 0%nat) /\
  (forall c, cpus demo_state c <> Started -> (exists s', main_step demo_state s' /\ cpus s' c <> cpus demo_state c) \/
     (cpus demo_state c = Waiting /\ exists d, d <> c /\ sl_cpu (init_lock demo_state) = Some d /\ holds (cpus demo_state d) = true)) /\
  (forall c, cpus demo_state c = Entry -> sl_locked (init_lock demo_state) = false -> exists s', main_step demo_state s' /\ cpus s' c = Initialising).
Proof.
  apply (init_lock_orders demo_state). eapply rtc_l; [apply (main_steps 0); reflexivity|]. eapply rtc_l; [apply (main_steps 1); reflexivity|].
  apply rtc_refl.
Defined.
End StartLock.
