(* ===== verification/Boot.v ===== *)
(** * The start of the kernel (src/main.c)

    [main] as the first CPU runs it: the state of the kernel with the timer, the
    devices behind their registers, the tables of interrupt handlers and the
    registers of the CPU that the start writes. StartLock.v has the CPUs
    interleaved. *)
From S2P Require Import Prelude Locks FsDefines Console BlockIface Inode File PhysMem VirtMem VmFacts Mmio Drivers Arena ArenaFacts ArenaTest Kernel Proc ProcFacts StartLock Syscall.

Module Boot.
Import Spinlock Inode File PhysMem VirtMem VmFacts Mmio Drivers Arena ArenaFacts ArenaTest Kernel Proc ProcFacts Interrupt.

(** What the handlers of interrupts work on. *)
Record core (St D : Type) : Type := mkCore {
  m_kernel : kernel St;
  m_clock : ClockContext;
  m_dev : D
}.
Arguments mkCore {St D}. Arguments m_kernel {St D}. Arguments m_clock {St D}. Arguments m_dev {St D}.

Record machine (St D : Type) : Type := mkMachine {
  m_core : core St D;
  m_handlers : handlers (core St D);
  m_init_lock : SpinLock;
  m_vbar : Z;
  m_esr : Z
}.
Arguments mkMachine {St D}. Arguments m_core {St D}. Arguments m_handlers {St D}. Arguments m_init_lock {St D}.
Arguments m_vbar {St D}. Arguments m_esr {St D}.

Section boot.
Context {St D : Type} `{Mmio D} (swtch : M (kernel St) unit).
Context (forkret_addr trap_return_addr container_entry_addr : Z) (icode ispin_code : list Z).
(** [edata] and [end] of the linker script, [exception_vector] of the
    assembly, the addresses of a local variable and of [arena] of container.c,
    the frequency of the timer, the variables of the block cache as zero. *)
Context (edata kernel_end exception_vector stack arena frequency : Z) (zero_cache : St).
(** [uart_intr]: the console's handler, over [uart_get_char]. *)
Context (uart_intr : M (core St D) unit).
#[local] Abbreviation vmt := virtual_memory_init.

Definition set_m_kernel (x : kernel St) (c : core St D) : core St D := mkCore x (m_clock c) (m_dev c).
Definition set_m_clock (x : ClockContext) (c : core St D) : core St D := mkCore (m_kernel c) x (m_dev c).
Definition set_m_dev (x : D) (c : core St D) : core St D := mkCore (m_kernel c) (m_clock c) x.
Definition set_m_core (x : core St D) (s : machine St D) : machine St D := mkMachine x (m_handlers s) (m_init_lock s) (m_vbar s) (m_esr s).
Definition set_m_handlers (x : handlers (core St D)) (s : machine St D) : machine St D := mkMachine (m_core s) x (m_init_lock s) (m_vbar s) (m_esr s).
Definition set_m_init_lock (x : SpinLock) (s : machine St D) : machine St D := mkMachine (m_core s) (m_handlers s) x (m_vbar s) (m_esr s).
Definition oncore {A} (m : M (core St D) A) : M (machine St D) A := lift m_core set_m_core m.
Definition onkernel {A} (m : M (kernel St) A) : M (core St D) A := lift m_kernel set_m_kernel m.
Definition onclock {A} (m : M ClockContext A) : M (core St D) A := lift m_clock set_m_clock m.
Definition ondev {A} (m : M D A) : M (core St D) A := lift m_dev set_m_dev m.
Definition onlock {A} (m : M SpinLock A) : M (machine St D) A := lift m_init_lock set_m_init_lock m.
Definition upd_handlers (f : handlers (core St D) -> handlers (core St D)) : M (machine St D) unit :=
  modify (fun s => set_m_handlers (f (m_handlers s)) s).

(** [vm_test] of virtual_memory.c: a page is mapped, and stays so. What it
    reads back it only prints. *)
Definition vm_test : M (kernel St) unit :=
  onmem (mem_update (fun m => store64 m (P2K 0) 172));;
  p ← onmem kalloc;
  onmem (memset_page p);;
  onmem (uvm_map vmt p 4096 PAGE_SIZE 0);;
  modify (set_k_ttbr0 (K2P p)).

(** [init_interrupt] of interrupt.c, [init_char_device] of char_device.c, and
    the locks of [init_console]. *)
Definition init_interrupt : M (machine St D) unit :=
  upd_handlers Interrupt.init_interrupt;;
  oncore (ondev init_interrupt_regs).
Definition init_char_device : M (machine St D) unit :=
  oncore (ondev init_uart);;
  upd_handlers (fun h => (set_interrupt_handler IRQ_AUX uart_intr h).1).
Definition unlock_console (k : kernel St) : kernel St :=
  let fs := k_fs k in
  let s := fs_is fs in
  set_k_fs (set_fs_is (set_is_con (Console.set_conslock false (is_con s)) s) fs) k.

(** *** The BSS section

    The variables that have no initial value are in it, those of the model that
    are not bytes of [km_mem] too. The kernel is compiled with
    [-fno-zero-initialized-in-bss]: variables that are set to zero, as
    [init_lock], [root_container] and [do_cont_test], are not. *)
Definition zero_File : File := mkFile FD_NONE 0 0 0 0 0 0.
Definition clear_files (fs : fstate St) : fstate St :=
  let s := fs_is fs in
  mkFstate (mkIstate zero_cache ∅ (is_next s) [] false (Console.mkConsole (replicate 128 0) 0 0 0 false (Console.uart_out (is_con s))) (is_cwd s) (is_killed s))
    false (replicate (Z.to_nat NFILE) zero_File).
Definition clear_kernel (k : kernel St) : kernel St :=
  mkKernel ∅ (k_next k) no_arena (k_root k) None None (mkKmem (fill (km_mem (k_mem k)) edata (kernel_end - edata) 0) 0 false)
    (clear_files (k_fs k)) (k_ttbr0 k) (k_flag_atom k) (k_do_cont_test k).
Definition clear_bss (s : machine St D) : machine St D :=
  let c := m_core s in
  mkMachine (mkCore (clear_kernel (m_kernel c)) (mkClock 0 (cntp_ctl (m_clock c)) (cntp_tval (m_clock c))) (m_dev c))
    (mkHandlers (replicate 64 None) None) (m_init_lock s) (m_vbar s) (m_esr s).

(** [init_sched] does nothing, and [init_virtual_memory] sets the table [vmt]. *)
Definition init_system_once : M (machine St D) unit :=
  ok ← onlock (try_acquire_spinlock 0);
  if negb ok then mret tt
  else
    modify clear_bss;;
    init_interrupt;;
    init_char_device;;
    oncore (onkernel (modify unlock_console));;
    oncore (onkernel (onmem (init_memory_manager kernel_end)));;
    oncore (onkernel vm_test);;
    oncore (onkernel (onmem (run_arena_test stack)));;
    oncore (onkernel (init_container vmt container_entry_addr arena));;
    onlock (release_spinlock 0).

(** The handler of the timer. *)
Definition hello : M (core St D) unit :=
  onclock (modify (reset_clock 1000));;
  onkernel (yield swtch).

Definition init_clock : M (core St D) unit :=
  c ← gets m_clock;
  let r := Drivers.init_clock frequency 0 c in
  onclock (modify (fun _ => r.1));;
  ondev (device_put_u32 r.2.1 r.2.2).
(** [init_trap] of trap.c. *)
Definition init_trap : M (machine St D) unit :=
  modify (fun s => mkMachine (m_core s) (m_handlers s) (m_init_lock s) exception_vector 0).
(** [init_cpu(&root_container->scheduler)] of sched.h. *)
Definition init_cpu : M (kernel St) unit :=
  root ← gets k_root;
  modify (set_k_sched (Some root)).

Definition init_system_per_cpu : M (machine St D) unit :=
  oncore init_clock;;
  upd_handlers (set_clock_handler hello);;
  init_trap;;
  oncore (onkernel init_cpu).

(** What CPU 0 does before [enter_scheduler]. *)
Definition start_processes : M (kernel St) unit :=
  spawn_init_process vmt forkret_addr trap_return_addr icode;;
  eachM (seqZ 0 5) (fun _ => idle_init vmt forkret_addr trap_return_addr ispin_code).
Definition enter_scheduler (turns : nat) : M (kernel St) unit := with_op (scheduler_simple swtch turns).
Definition boot : M (machine St D) unit :=
  init_system_once;;
  onlock (wait_spinlock 0);;
  init_system_per_cpu;;
  oncore (onkernel start_processes).
(** It never returns: [turns] is how long the scheduler is followed. *)
Definition main (turns : nat) : M (machine St D) unit := boot;; oncore (onkernel (enter_scheduler turns));; panic.
End boot.

(** ** The memory of a new process *)

(** [code] is mapped at address 0 of the process with the root table [pgdir],
    in pages that are not free. *)
Definition image (m : Z -> Z) (free : list Z) (pgdir : Z) (code : list Z) : Prop := exists T f,
  pt_inv m pgdir T /\ frame_ok f /\ pt_get m T 0 = mapped_pte 0 (K2P f) 0 /\
  bytes_at m f (Z.of_nat (length code)) = code /\ (f ∉ free) /\ forall pth p, T !! pth = Some p -> p ∉ free.

(** The pages that are not in [l] are as before. *)
Definition kept_pages (l : list Z) (m m' : Z -> Z) : Prop :=
  forall f, frame_ok f -> f ∉ l -> forall x, f <= x < f + PAGE_SIZE -> m' x = m x.

Lemma kept_trans l m1 m2 m3 : kept_pages l m1 m2 -> kept_pages l m2 m3 -> kept_pages l m1 m3.
Proof. intros H1 H2 f Hf Hl x Hx. by rewrite (H2 f), (H1 f). Qed.
Lemma kept_more l l' m m' : (forall f, f ∈ l -> f ∈ l') -> kept_pages l m m' -> kept_pages l' m m'.
Proof. intros Hl H f Hf Hfl. apply H; [done|]. intros ?. by apply Hfl, Hl. Qed.
Lemma kept_page f l (m m' : Z -> Z) : f ∈ l -> frame_ok f -> (forall x, ~ (f <= x < f + PAGE_SIZE) -> m' x = m x) -> kept_pages l m m'.
Proof.
  intros Hfl Hf H g Hg Hgl x Hx. apply H. intros Hx'. pose proof (pages_disjoint f g (frame_page f Hf) (frame_page g Hg)) as Hd.
  destruct (decide (f = g)) as [->|Hne]; [done|]. specialize (Hd Hne). lia.
Qed.

Lemma pt_inv_ext m m' pgdir T :
  (forall pth p x, T !! pth = Some p -> p <= x < p + PAGE_SIZE -> m' x = m x) -> pt_inv m pgdir T -> pt_inv m' pgdir T.
Proof.
  intros Hm [Hr Hc Hf Hi He]. split; try done. intros pth p i Hp Hlen Hidx. specialize (He pth p i Hp Hlen Hidx).
  rewrite (load64_ext m' m) by (intros x Hx; apply (Hm pth p); [done|unfold idx_ok, PAGE_SIZE in *; lia]). exact He.
Qed.
Lemma pt_get_ext m m' T vpn :
  (forall pth p x, T !! pth = Some p -> p <= x < p + PAGE_SIZE -> m' x = m x) -> pt_get m' T vpn = pt_get m T vpn.
Proof.
  intros Hm. unfold pt_get. destruct (T !! vpath vpn) as [t|] eqn:E; [|done]. apply load64_ext. intros x Hx.
  apply (Hm (vpath vpn) t); [done|]. pose proof (last_index_ok vpn). unfold idx_ok, PAGE_SIZE in *. lia.
Qed.

Lemma image_kept m m' l l' pgdir code :
  Z.of_nat (length code) <= PAGE_SIZE -> kept_pages l m m' -> (forall f, f ∈ l' -> f ∈ l) -> image m l pgdir code -> image m' l' pgdir code.
Proof.
  intros Hlen Hk Hl (T & f & Hpt & Hf & Hmap & Hcode & Hfl & Htl).
  assert (forall pth p x, T !! pth = Some p -> p <= x < p + PAGE_SIZE -> m' x = m x) as Hm.
  { intros pth p x Hp. apply Hk; [by apply (pt_frames _ _ _ Hpt pth)|by apply (Htl pth)]. }
  exists T, f. split_and!; try done.
  - by apply (pt_inv_ext m).
  - by rewrite (pt_get_ext m).
  - rewrite <- Hcode at 2. apply bytes_at_ext. intros x Hx. apply (Hk f); [done..|lia].
  - intros H. by apply Hfl, Hl.
  - intros pth p Hp H. by apply (Htl pth p Hp), Hl.
Qed.

Lemma memset_page_ok s l p : km_inv s l -> frame_ok p -> p ∉ l -> Forall frame_ok l ->
  wp (memset_page p) (fun _ s' => km_inv s' l /\ s' = set_km_mem (fill (km_mem s) p PAGE_SIZE 0) s) s.
Proof.
  intros Hs Hp Hpl Hl. unfold memset_page, mem_update. apply wp_bind, wp_assert.
  { apply negb_true_iff, Z.eqb_neq. destruct Hp. unfold KSPACE_MASK in *. lia. }
  apply wp_modify. split; [|done]. apply km_inv_mem; [done| |apply mem_ok_fill, Hs].
  intros x Hx. apply load64_fill. rewrite Forall_forall in Hl. assert (p <> x) by (by intros ->).
  pose proof (pages_disjoint p x (frame_page p Hp) (frame_page x (Hl x Hx)) ltac:(done)). unfold PAGE_SIZE in *. lia.
Qed.
Lemma fill_kept m p l : p ∈ l -> frame_ok p -> kept_pages l m (fill m p PAGE_SIZE 0).
Proof.
  intros Hpl Hp. apply (kept_page p); [done..|]. intros x Hx. unfold fill.
  destruct (Z.leb_spec p x), (Z.ltb_spec x (p + PAGE_SIZE)); simpl; try done. lia.
Qed.

(** The tables of an empty address space, and with one page mapped at 0. *)
Lemma vm_start km pg l :
  km_inv km l -> Forall frame_ok l -> frame_ok pg -> pg ∉ l -> (forall x, pg <= x < pg + PAGE_SIZE -> km_mem km x = 0) ->
  vm_inv pg km {[ [] := pg ]} l.
Proof.
  intros Hk Hl Hpg Hn H0. split; [done| |done|].
  - split.
    + apply lookup_singleton_eq.
    + intros pth i [y [H _]%lookup_singleton_Some]. by destruct pth.
    + by intros pth p [_ <-]%lookup_singleton_Some.
    + by intros pth pth' p [<- _]%lookup_singleton_Some [<- _]%lookup_singleton_Some.
    + intros pth p i [<- <-]%lookup_singleton_Some _ Hi. rewrite lookup_singleton_ne by (by destruct (decide ([] ++ [i] = []))).
      assert (load64 (km_mem km) (pg + 8 * i) = 0) as ->; [|done].
      rewrite (load64_ext _ (fun _ => 0)); [done|]. intros y Hy. apply H0. unfold idx_ok, PAGE_SIZE in *. lia.
  - by intros pth p [_ <-]%lookup_singleton_Some.
Qed.

Lemma map_first_page km pg r l :
  vm_inv pg km {[ [] := pg ]} l -> (3 <= length l)%nat -> frame_ok r -> r <> pg -> r ∉ l ->
  wp (my_uvm_map pg 0 PAGE_SIZE (K2P r)) (fun _ km' => exists T used l', l = used ++ l' /\ (length used <= 3)%nat /\
    vm_inv pg km' T l' /\ pt_get (km_mem km') T 0 = mapped_pte 0 (K2P r) 0 /\ (forall pth, T !! pth <> Some r) /\
    kept_pages (pg :: l) (km_mem km) (km_mem km')) km.
Proof.
  intros Hv Hlen Hr Hne Hrl. destruct (frame_K2P r Hr) as (_ & _ & Hk).
  eapply wp_mono; [apply (uvm_map_ok pg km {[ [] := pg ]} l 0 PAGE_SIZE (K2P r)); try done; [lia|]|].
  { change (npages 0 PAGE_SIZE) with 1. lia. }
  intros _ km' (_ & T & l' & [Hv' (used & -> & Hused) _ Hnew Huser] & Hmap). exists T, used, l'. split_and!; try done.
  - rewrite (Hmap 0) by lia. by rewrite decide_True by done.
  - intros pth Hp. destruct (Hnew pth r Hp) as [[_ H]%lookup_singleton_Some|H]; [by apply Hne|by apply Hrl].
  - intros f Hf Hfl x Hx. apply (Huser f); [done|set_solver| |done]. intros pth [_ <-]%lookup_singleton_Some. set_solver.
Qed.

Lemma write_code km pg r l T code :
  vm_inv pg km T l -> frame_ok r -> r ∉ l -> (forall pth, T !! pth <> Some r) -> pt_get (km_mem km) T 0 = mapped_pte 0 (K2P r) 0 ->
  Z.of_nat (length code) <= PAGE_SIZE -> Forall byte_ok code ->
  let m' := write_bytes (km_mem km) r code in
  km_inv (set_km_mem m' km) l /\ image m' l pg code /\ kept_pages [r] (km_mem km) m'.
Proof.
  intros [Hk Hpt Hl Hsep] Hr Hrl Hrt Hmap Hlen Hby m'.
  assert (kept_pages [r] (km_mem km) m') as Hkept.
  { apply (kept_page r); [by left|done|]. intros x Hx. apply write_bytes_out. lia. }
  assert (forall pth p x, T !! pth = Some p -> p <= x < p + PAGE_SIZE -> m' x = km_mem km x) as Hm.
  { intros pth p x Hp. apply (Hkept p); [by apply (pt_frames _ _ _ Hpt pth)|]. intros ->%list_elem_of_singleton. by apply (Hrt pth). }
  split; [|split; [|done]].
  - apply km_inv_mem; [done| |].
    + intros x Hx. apply load64_ext. intros y Hy. rewrite Forall_forall in Hl. apply (Hkept x); [by apply Hl| |unfold PAGE_SIZE; lia].
      intros ->%list_elem_of_singleton. by apply Hrl.
    + intros x. unfold m', write_bytes. destruct (_ && _) eqn:E; [|apply Hk]. apply andb_true_iff in E as [E1%Z.leb_le E2%Z.ltb_lt].
      rewrite Forall_forall in Hby. apply Hby, list_elem_of_lookup_total_2. lia.
  - exists T, r. split_and!; try done.
    + by apply (pt_inv_ext (km_mem km)).
    + by rewrite (pt_get_ext (km_mem km)).
    + apply bytes_at_write.
Qed.

(** ** A new process *)
Section spawn.
Context {St : Type} (forkret_addr trap_return_addr arena : Z).
#[local] Abbreviation vmt := virtual_memory_init.
Implicit Types (s : kernel St).

(** The root container alone, with [p] in the entry [i], and the memory. *)
Definition with_entry s (c : nat) (x : container) (i : nat) (p : proc) (km : kmem) : kernel St :=
  set_k_mem km (set_k_conts {[ c := put_proc i p x ]} s).

Section entry.
Context (s : kernel St) (c : nat) (x : container) (i : nat) (Hi : (i < length (s_ptable (c_sched x)))%nat).

Lemma wp_upd_proc_entry f p km (Q : unit -> kernel St -> Prop) :
  Q tt (with_entry s c x i (f p) km) -> wp (upd_proc (c, i) f) Q (with_entry s c x i p km).
Proof using Hi.
  intros HQ. apply (wp_upd_proc _ (c, i) (put_proc i p x) p); [apply lookup_singleton_eq|by apply put_proc_lookup|].
  unfold with_entry. simpl. rewrite put_proc_twice. unfold set_k_conts, set_k_mem. simpl. rewrite insert_singleton_eq. exact HQ.
Qed.
Lemma wp_get_proc_entry p km (Q : proc -> kernel St -> Prop) :
  Q p (with_entry s c x i p km) -> wp (get_proc (c, i)) Q (with_entry s c x i p km).
Proof using Hi. intros HQ. by apply (wp_get_proc _ (c, i) (put_proc i p x) p); [apply lookup_singleton_eq|apply put_proc_lookup|]. Qed.
Lemma wp_onmem_entry {A} (m : M kmem A) p km (Q : A -> kernel St -> Prop) :
  wp m (fun a km' => Q a (with_entry s c x i p km')) km -> wp (onmem m) Q (with_entry s c x i p km).
Proof using Type. intros H. apply wp_lift. exact H. Qed.
End entry.

(** The arena of the containers has one page, which is not free, with one
    object. *)
Definition one_container (a : astate unit) (l : list Z) : Prop := exists x p,
  arena_ok arena a x [p] /\ ar_object_size x = sizeof_container /\ ar_num_objects x = 1 /\ p ∉ l.

(** The root container is the only one, and this CPU is in its scheduler; the
    free pages are [l]. *)
Record booting s (c : nat) (x : container) (l : list Z) : Prop := {
  bt_root : k_root s = c;
  bt_sched : k_sched s = Some c;
  bt_cont : k_conts s = {[ c := x ]};
  bt_arena : one_container (k_arena s) l;
  bt_op : s_op (c_sched x) = true;
  bt_self : s_cont (c_sched x) = c;
  bt_unlocked : s_lock (c_sched x) = false /\ c_lock x = false;
  bt_pmap : length (c_pmap x) = 64%nat;
  bt_pid : 0 <= s_pid (c_sched x) < NPID - 1;
  bt_pids : pids_ok x;
  bt_mem : km_inv (k_mem s) l;
  bt_frames : Forall frame_ok l
}.

(** The trap frame and the process that starts at address 0. *)
Definition user_tf : Trapframe := set_tf_elr 0 (set_tf_x (<[30%nat := 0]> (tf_x zero_trapframe)) (set_tf_sp PAGE_SIZE (set_tf_spsr 0 zero_trapframe))).
Definition new_proc (pid pgdir kstack : Z) (p : proc) : proc :=
  set_p_state RUNNABLE (set_p_sz PAGE_SIZE (set_p_tf user_tf
    (set_p_context (set_cx_lr trap_return_addr (set_cx_lr0 forkret_addr zero_context))
      (set_p_kstack kstack (set_p_pgdir pgdir (embryo pid p)))))).

(** [spawn_init_process] and [idle_init]. *)
Definition spawn (code : list Z) : M (kernel St) unit :=
  p ← alloc_proc vmt forkret_addr trap_return_addr;
  load_code vmt p code;;
  upd_proc p (set_p_sz PAGE_SIZE);;
  upd_proc p (set_p_state RUNNABLE).

Lemma booting_ancestry s c x l : booting s c x l -> ancestry s c [c].
Proof.
  intros []. simpl. split; [done|]. exists x. rewrite bt_cont0, lookup_singleton_eq. destruct bt_unlocked0. split_and!; try done; try lia.
  by rewrite bool_decide_true.
Qed.

Lemma alloc_pcb_boot s c x l n p0 (Q : option pptr -> kernel St -> Prop) :
  booting s c x l -> (forall j y, (j < n)%nat -> s_ptable (c_sched x) !! j = Some y -> used y) ->
  s_ptable (c_sched x) !! n = Some p0 -> ~ used p0 ->
  Q (Some (c, n)) (with_entry s c (take_pid (c, n) x) n (embryo (s_pid (c_sched x) + 1) p0) (k_mem s)) -> wp alloc_pcb Q s.
Proof.
  intros Hb Hused Hn Hp0 HQ. pose proof (booting_ancestry _ _ _ _ Hb) as Ha. destruct Hb.
  assert (k_conts s !! c = Some x) as Hx by (rewrite bt_cont0; apply lookup_singleton_eq).
  unfold alloc_pcb, with_op, this_scheduler. apply wp_bind, wp_bind, wp_gets. rewrite bt_sched0. apply wp_ret.
  apply wp_bind, (wp_get_cont _ _ x); [done|]. apply wp_bind, wp_assert; [done|].
  eapply wp_mono; [apply (alloc_pcb_ok s c x [c]); try done; [apply bt_unlocked0|apply NoDup_singleton|simpl; lia]|].
  intros r s' (m & -> & Hm). destruct r as [q|]; simpl in Hm.
  - destruct Hm as (i & p & -> & Hi & Hpu & Hfirst & Hmc & _ & Hother).
    assert (i = n) as ->.
    { destruct (Nat.lt_trichotomy i n) as [H|[H|H]]; [|done|]; [by destruct Hpu; apply (Hused i)|by destruct Hp0; apply (Hfirst n)]. }
    assert (p = p0) as -> by congruence.
    replace m with ({[ c := put_proc n (embryo (s_pid (c_sched x) + 1) p0) (take_pid (c, n) x) ]} : gmap nat container); [exact HQ|].
    apply map_eq. intros d. destruct (decide (d = c)) as [->|Hd]; [by rewrite lookup_singleton_eq, Hmc|].
    rewrite lookup_singleton_ne, Hother by done. rewrite decide_False by (by intros ->%list_elem_of_singleton).
    by rewrite bt_cont0, lookup_singleton_ne.
  - destruct Hm as [Hall _]. by destruct Hp0; apply (Hall n).
Qed.

(** What [spawn] leaves: the process, six pages less, and nothing else of the
    other pages changed. *)
Lemma spawn_ok code s c x l n p0 :
  booting s c x l -> (forall j y, (j < n)%nat -> s_ptable (c_sched x) !! j = Some y -> used y) ->
  s_ptable (c_sched x) !! n = Some p0 -> ~ used p0 -> (6 <= length l)%nat ->
  Z.of_nat (length code) <= PAGE_SIZE -> Forall byte_ok code ->
  wp (spawn code) (fun _ s' => exists pg sp taken l' km,
    s' = with_entry s c (take_pid (c, n) x) n (new_proc (s_pid (c_sched x) + 1) pg sp p0) km /\
    l = taken ++ l' /\ (length taken <= 6)%nat /\ km_inv km l' /\ image (km_mem km) l' pg code /\
    kept_pages l (km_mem (k_mem s)) (km_mem km)) s.
Proof.
  intros Hb Hused Hn Hp0 Hlen Hcode Hby. pose proof Hb as Hb'. destruct Hb'. set (x1 := take_pid (c, n) x).
  assert (n < length (s_ptable (c_sched x1)))%nat as Hlt by (apply lookup_lt_Some in Hn; exact Hn).
  destruct l as [|pg [|sp [|r l]]]; try (simpl in Hlen; lia).
  apply Forall_cons in bt_frames0 as [Hpg Hfr0]. pose proof Hfr0 as Hfr. apply Forall_cons in Hfr as [Hsp Hfr]. apply Forall_cons in Hfr as [Hr Hfr].
  pose proof (ki_nodup _ _ bt_mem0) as Hnd. apply NoDup_cons in Hnd as [Hpgn Hnd]. apply NoDup_cons in Hnd as [Hspn Hnd]. apply NoDup_cons in Hnd as [Hrn Hnd].
  unfold spawn. apply wp_bind. unfold alloc_proc. apply wp_bind. apply (alloc_pcb_boot s c x (pg :: sp :: r :: l) n p0); [done..|]. fold x1. cbn [from_option_M].
  apply wp_bind, wp_ret. apply wp_bind, wp_onmem_entry. unfold pgdir_init, vmt_pgdir_init, virtual_memory_init, my_pgdir_init.
  apply wp_bind. eapply wp_mono; [apply (kalloc_ok (k_mem s) (pg :: sp :: r :: l)); done|]. intros pg' km1 (Hm1 & -> & Hk1).
  assert (negb (pg =? 0) = true) as Hpg0 by (apply negb_true_iff, Z.eqb_neq; destruct Hpg; unfold KSPACE_MASK in *; lia).
  rewrite Hpg0. apply wp_bind. cbn [whenM]. eapply wp_mono; [by apply (memset_page_ok km1 (sp :: r :: l))|].
  intros [] km2 [Hk2 ->]. apply wp_ret.
  apply wp_bind, wp_upd_proc_entry; [done|]. apply wp_bind, wp_onmem_entry. eapply wp_mono; [apply kalloc_ok; exact Hk2|]. intros sp' km3 (Hm3 & -> & Hk3).
  apply wp_bind, wp_assert; [apply negb_true_iff, Z.eqb_neq; destruct Hsp; unfold KSPACE_MASK in *; lia|].
  do 5 (apply wp_bind, wp_upd_proc_entry; [done|]). apply wp_ret.
  match goal with |- wp _ _ (with_entry _ _ _ _ ?p _) => set (p1 := p) end.
  apply wp_bind. unfold load_code. apply wp_bind, wp_onmem_entry. eapply wp_mono; [apply kalloc_ok; exact Hk3|]. intros r' km4 (Hm4 & -> & Hk4).
  apply wp_bind, wp_assert; [apply negb_true_iff, Z.eqb_neq; destruct Hr; unfold KSPACE_MASK in *; lia|].
  apply wp_bind, wp_onmem_entry. eapply wp_mono; [by apply (memset_page_ok km4 l)|]. intros [] km5 [Hk5 ->].
  apply wp_bind, wp_get_proc_entry; [done|]. change (p_pgdir p1) with pg.
  assert (pg <> r /\ pg ∉ l) as [Hpr Hpl] by set_solver.
  assert (vm_inv pg (set_km_mem (fill (km_mem km4) r PAGE_SIZE 0) km4) {[ [] := pg ]} l) as Hv.
  { apply vm_start; try done. intros y Hy. simpl. rewrite (fill_kept (km_mem km4) r [r] ltac:(set_solver) Hr pg Hpg ltac:(set_solver) y Hy).
    rewrite Hm4, Hm3. simpl. unfold fill. by rewrite (proj2 (Z.leb_le pg y)), (proj2 (Z.ltb_lt y (pg + PAGE_SIZE))) by lia. }
  apply wp_bind, wp_onmem_entry. unfold uvm_map, vmt_uvm_map, virtual_memory_init.
  eapply wp_mono; [apply (map_first_page _ pg r l Hv); [simpl in Hlen; lia|done|by apply not_eq_sym|done]|].
  intros r1 km6 (T & taken & l' & -> & Htaken & Hv6 & Hmap & Hrt & Hkept6).
  apply wp_bind, wp_onmem_entry. unfold mem_update. apply wp_modify.
  destruct (write_code km6 pg r l' T code Hv6 Hr ltac:(set_solver) Hrt Hmap Hcode Hby) as (Hk7 & Him & Hkept7).
  do 4 (apply wp_bind, wp_upd_proc_entry; [done|]). apply wp_upd_proc_entry; [done|].
  apply wp_bind, wp_upd_proc_entry; [done|]. apply wp_upd_proc_entry; [done|].
  exists pg, sp, (pg :: sp :: r :: taken), l', (set_km_mem (write_bytes (km_mem km6) r code) km6). split_and!; try done.
  - simpl. lia.
  - simpl km_mem. apply (kept_trans _ _ (km_mem km6)); [|apply (kept_more [r]); [set_solver|done]].
    apply (kept_trans _ _ (fill (km_mem km4) r PAGE_SIZE 0)); [|apply (kept_more (pg :: taken ++ l')); [set_solver|exact Hkept6]].
    apply (kept_trans _ _ (km_mem km4)); [|apply fill_kept; [set_solver|done]].
    rewrite Hm4, Hm3. simpl. rewrite Hm1. apply fill_kept; [set_solver|done].
Qed.

(** The first [k] processes run, each with its code, and the other entries of
    the table are unused. *)
Record running (code : nat -> list Z) (k : nat) s (c : nat) (x : container) (l : list Z) : Prop := {
  rn_booting : booting s c x l;
  rn_pid : s_pid (c_sched x) = Z.of_nat k;
  rn_procs : forall j, (j < k)%nat -> exists pg sp,
    s_ptable (c_sched x) !! j = Some (new_proc (Z.of_nat j + 1) pg sp zero_proc) /\ image (km_mem (k_mem s)) l pg (code j);
  rn_unused : forall j, (k <= j < 14)%nat -> s_ptable (c_sched x) !! j = Some zero_proc
}.

Lemma spawn_running code k s c x l :
  running code k s c x l -> (k < 14)%nat -> (6 <= length l)%nat ->
  (forall j, Z.of_nat (length (code j)) <= PAGE_SIZE /\ Forall byte_ok (code j)) ->
  wp (spawn (code k)) (fun _ s' => exists x' taken l', l = taken ++ l' /\ (length taken <= 6)%nat /\
    running code (S k) s' c x' l' /\ kept_pages l (km_mem (k_mem s)) (km_mem (k_mem s'))) s.
Proof.
  intros [Hb Hpid Hprocs Hun] Hk Hlen Hcode.
  assert (~ used zero_proc) as Hz by (intros H; by apply H).
  eapply wp_mono; [apply (spawn_ok (code k) s c x l k zero_proc Hb); try done|].
  - intros j y Hj Hy. destruct (Hprocs j Hj) as (pg & sp & Hp & _). by rewrite Hp in Hy; injection Hy as <-.
  - apply Hun. lia.
  - apply Hcode.
  - apply Hcode.
  - intros _ s' (pg & sp & taken & l' & km & -> & -> & Htaken & Hkm & Him & Hkept). pose proof Hb as [].
    assert (s_ptable (c_sched x) !! k = Some zero_proc) as Hentry by (apply Hun; lia).
    assert (k < length (s_ptable (c_sched x)))%nat as Hlt by (by eapply lookup_lt_Some).
    eexists _, taken, l'. split; [done|]. split; [done|]. split; [|exact Hkept]. split.
    + split; try done.
      * destruct bt_arena0 as (xa & q & ? & ? & ? & ?). exists xa, q. split_and!; try done. set_solver.
      * simpl. by rewrite length_insert.
      * simpl. unfold NPID in *. lia.
      * eapply pids_ok_replace; [by apply (pids_ok_embryo x k zero_proc (c, k)); [..|lia]|done|done].
      * by apply Forall_app in bt_frames0 as [_ ?].
    + simpl. lia.
    + intros j Hj. simpl s_ptable. destruct (decide (j = k)) as [->|Hne].
      * exists pg, sp. rewrite list_lookup_insert_eq by done. by rewrite Hpid.
      * destruct (Hprocs j ltac:(lia)) as (pg' & sp' & Hp & Himg). exists pg', sp'. rewrite list_lookup_insert_ne by done. split; [done|].
        apply (image_kept (km_mem (k_mem s)) _ (taken ++ l')); [apply Hcode|done|set_solver|done].
    + intros j Hj. simpl s_ptable. rewrite list_lookup_insert_ne by lia. apply Hun. lia.
Qed.
End spawn.

(** ** The whole start *)
Section start.
Context {St : Type} (forkret_addr trap_return_addr container_entry_addr : Z) (icode ispin_code : list Z).
Context (kernel_end stack arena : Z).
Implicit Types (s : kernel St).

(** [init] first, and the idle processes. *)
Definition codes (j : nat) : list Z := match j with O => icode | _ => ispin_code end.

Lemma vm_test_ok s l : km_inv (k_mem s) l -> Forall frame_ok l -> (4 <= length l)%nat ->
  wp vm_test (fun _ s' => exists km ttbr taken l', s' = set_k_ttbr0 ttbr (set_k_mem km s) /\ l = taken ++ l' /\ (length taken <= 4)%nat /\ km_inv km l') s.
Proof.
  intros Hk Hfr Hlen. unfold vm_test. destruct l as [|p l]; [simpl in Hlen; lia|]. pose proof Hfr as [Hp Hfr']%Forall_cons.
  apply wp_bind, wp_lift. unfold mem_update. apply wp_modify.
  set (km1 := set_km_mem (store64 (km_mem (k_mem s)) (P2K 0) 172) (k_mem s)).
  assert (km_inv km1 (p :: l)) as Hk1.
  { apply km_inv_mem; [done| |apply mem_ok_store64, Hk]. intros x Hx. rewrite Forall_forall in Hfr. destruct (Hfr x Hx) as [Hm Hr].
    apply load64_store64_ne. change (P2K 0) with KSPACE_MASK. unfold KSPACE_MASK, PAGE_SIZE in *. Z.to_euclidean_division_equations. lia. }
  apply wp_bind, wp_lift. eapply wp_mono; [apply kalloc_ok; exact Hk1|]. intros p' km2 (Hm2 & -> & Hk2).
  pose proof (ki_nodup _ _ Hk1) as [Hpn _]%NoDup_cons.
  apply wp_bind, wp_lift. eapply wp_mono; [by apply (memset_page_ok km2 l)|]. intros [] km3 [Hk3 ->].
  assert (vm_inv p (set_km_mem (fill (km_mem km2) p PAGE_SIZE 0) km2) {[ [] := p ]} l) as Hv.
  { apply vm_start; try done. intros y Hy. simpl. unfold fill. by rewrite (proj2 (Z.leb_le p y)), (proj2 (Z.ltb_lt y (p + PAGE_SIZE))) by lia. }
  apply wp_bind, wp_lift. unfold uvm_map, vmt_uvm_map, virtual_memory_init. simpl k_mem.
  eapply wp_mono; [apply (uvm_map_ok p _ _ l 4096 PAGE_SIZE 0 Hv); try done; simpl in Hlen; change (npages 4096 PAGE_SIZE) with 1; lia|].
  intros r km4 (_ & T & l' & [Hv' (taken & -> & Htaken) _ _ _] & _). apply wp_modify.
  exists km4, (K2P p), (p :: taken), l'. split_and!; [done|done| |apply Hv']. change (npages 4096 PAGE_SIZE) with 1 in Htaken. simpl. lia.
Qed.

(** The steps of a sequence, one by one. *)
Lemma wp_seq {T A B} (m : M T A) (f : A -> M T B) t (Q : B -> T -> Prop) :
  wp (m ≫= f) Q t -> wp m (fun a t' => wp (f a) Q t') t.
Proof. unfold wp, mbind, M_bind. by destruct (m t) as [[]| | |]. Qed.

(** The page that the arena takes for the container. *)
Lemma container_object_ok s l p : as_pg (k_arena s) = ∅ -> km_inv (k_mem s) (p :: l) ->
  wp (onarena (init_arena arena sizeof_container);; onarena (Arena.alloc_object kalloc arena)) (fun o s' => o <> 0 /\ exists a km,
    s' = set_k_mem km (set_k_arena a s) /\ one_container arena a l /\ km_inv km l) s.
Proof.
  intros Hpg Hk. unfold init_arena. apply wp_bind, wp_lift, wp_bind, wp_assert; [done|]. apply wp_bind, wp_assert; [done|]. apply wp_modify.
  apply wp_lift. match goal with |- wp _ _ ?a => set (a0 := a) end. set (x0 := mkArena false sizeof_container (ARENA_PAGE_CAPACITY / sizeof_container) 0 0 0).
  assert (arena_ok arena a0 x0 []) as Hok.
  { split; [split|]; try done; [apply lookup_insert_eq|split; [apply NoDup_nil_2|split; [apply not_elem_of_nil|done]]|by intros q ?%not_elem_of_nil|].
    exists [], []. split; [done|]. by split; intros q ?%not_elem_of_nil. }
  destruct (proj1 (wp_ok _ _ _) (kalloc_ok (k_mem s) (p :: l) Hk)) as (p' & km & Hal & _ & -> & Hk').
  pose proof (ki_nodup _ _ Hk) as [Hpl _]%NoDup_cons. pose proof (ki_pages _ _ Hk) as [Hp _]%Forall_cons.
  eapply wp_mono; [apply (alloc_object_run kalloc arena a0 x0 [] Hok)|].
  { intros _. exists p, km. split; [exact Hal|]. split; [done|]. simpl. by rewrite Hpg. }
  intros o a1 (x1 & ps & q & i & -> & Hi & Hok1 & [[Hsz _] Hnum] & _ & _ & [(?%not_elem_of_nil & _)|(_ & _ & Hps & Hq)]); [done|].
  change (as_alloc a0) with (k_mem s) in Hq. rewrite Hal in Hq. injection Hq as <- ->. apply Permutation_singleton_r in Hps as ->. split.
  { unfold object_at, data_of, sizeof_ArenaPage. destruct Hp as (_ & ? & _). unfold x0. simpl. change sizeof_container with 3840. lia. }
  exists (mkAstate (as_arenas a1) (as_pg a1) (as_nodes a1) tt), (as_alloc a1). split; [reflexivity|]. split; [|done].
  exists x1, p. split_and!; [by destruct Hok1 as [[] ?]|done|done|done].
Qed.

Lemma init_container_ok s l p : k_conts s = ∅ -> as_pg (k_arena s) = ∅ -> km_inv (k_mem s) (p :: l) -> Forall frame_ok l ->
  wp (init_container virtual_memory_init container_entry_addr arena) (fun _ s' => exists x,
    forall s'', s'' = set_k_sched (Some (k_root s')) s' -> running forkret_addr trap_return_addr arena codes 0 s'' (k_next s) x l) s.
Proof.
  intros Hc Hpg Hk Hl. pose proof (container_object_ok s l p Hpg Hk) as Hw. unfold init_container, alloc_container.
  apply wp_bind. apply wp_seq in Hw. eapply wp_mono; [exact Hw|]. clear Hw. intros [] s0 Hw. apply wp_bind, wp_bind. eapply wp_mono; [exact Hw|]. clear Hw s0.
  intros o s0 (Ho & a & km & -> & Ha & Hk'). rewrite (proj2 (Z.eqb_neq o 0)) by done.
  apply wp_bind, wp_gets, wp_bind, wp_modify, wp_bind, wp_modify.
  unfold init_sched_simple, upd_sched.
  apply wp_bind. eapply wp_upd_cont; [apply lookup_insert_eq|]. apply wp_ret, wp_bind, wp_ret, wp_bind, wp_modify.
  do 5 (apply wp_bind; eapply wp_upd_cont; [apply lookup_insert_eq|]). eapply wp_upd_cont; [apply lookup_insert_eq|].
  simpl. rewrite !insert_insert_eq, Hc.
  exists (mkContainer None (mkScheduler true (replicate 4 zero_context) (replicate 14 zero_proc) false 0 0 (k_next s)) false (k_next s)
    (replicate 64 (mkPidMapping false 0 None))).
  assert (forall j p, replicate 14 zero_proc !! j = Some p -> ~ used p) as Hun by (intros j q [-> _]%lookup_replicate H; by apply H).
  intros s'' ->. split; [split|..]; try done.
  - simpl. split; [done|..].
    + intros j q Hj Hq. by destruct (Hun j q).
    + intros i j q r Hi _ Hq. by destruct (Hun i q).
  - intros j Hj. lia.
  - intros j Hj. change (replicate 14 zero_proc !! j = Some zero_proc). apply lookup_replicate_2. lia.
Qed.

Lemma start_running s c x l k m :
  running forkret_addr trap_return_addr arena codes k s c x l -> (k + m <= 14)%nat -> (0 < k)%nat -> (6 * m <= length l)%nat ->
  (forall j, Z.of_nat (length (codes j)) <= PAGE_SIZE /\ Forall byte_ok (codes j)) ->
  wp (eachM (seqZ (Z.of_nat k - 1) (Z.of_nat m)) (fun _ => idle_init virtual_memory_init forkret_addr trap_return_addr ispin_code)) (fun _ s' =>
    exists x' l', running forkret_addr trap_return_addr arena codes (k + m) s' c x' l') s.
Proof.
  revert s x l k. induction m as [|m IH]; intros s x l k Hr Hkm Hk Hlen Hcode.
  - rewrite seqZ_nil by done. apply wp_ret. exists x, l. by rewrite Nat.add_0_r.
  - rewrite seqZ_cons by lia. apply wp_bind. destruct k as [|k]; [lia|].
    eapply wp_mono; [apply (spawn_running forkret_addr trap_return_addr arena codes (S k) s c x l Hr); [lia|lia|done]|].
    intros [] s' (x' & taken & l' & -> & Htaken & Hr' & _). rewrite length_app in Hlen.
    replace (Z.succ (Z.of_nat (S k) - 1)) with (Z.of_nat (S (S k)) - 1) by lia. replace (Z.pred (Z.of_nat (S m))) with (Z.of_nat m) by lia.
    replace (S k + S m)%nat with (S (S k) + m)%nat by lia. apply (IH s' x' l'); [done|lia..|done].
Qed.

Lemma start_processes_ok s c x l :
  running forkret_addr trap_return_addr arena codes 0 s c x l -> (36 <= length l)%nat ->
  Z.of_nat (length icode) <= PAGE_SIZE -> Forall byte_ok icode -> Z.of_nat (length ispin_code) <= PAGE_SIZE -> Forall byte_ok ispin_code ->
  wp (start_processes forkret_addr trap_return_addr icode ispin_code) (fun _ s' => exists x' l', running forkret_addr trap_return_addr arena codes 6 s' c x' l') s.
Proof.
  intros Hr Hlen H1 H2 H3 H4. assert (forall j, Z.of_nat (length (codes j)) <= PAGE_SIZE /\ Forall byte_ok (codes j)) as Hcode by (by intros []).
  apply wp_bind. eapply wp_mono; [apply (spawn_running forkret_addr trap_return_addr arena codes 0 s c x l Hr); [lia|lia|done]|].
  intros [] s' (x' & taken & l' & -> & Htaken & Hr' & _). rewrite length_app in Hlen. apply (start_running s' c x' l' 1 5 Hr'); [lia|lia|lia|exact Hcode].
Qed.

(** The pages up to the top of memory: forty-seven at least. *)
Lemma enough_pages l : NoDup l -> KSPACE_MASK < kernel_end <= P2K 1056964608 - 48 * PAGE_SIZE ->
  (forall p, p ∈ l <-> p mod PAGE_SIZE = 0 /\ kernel_end <= p /\ p + PAGE_SIZE <= P2K 1056964608) ->
  (47 <= length l)%nat /\ Forall frame_ok l.
Proof.
  rewrite P2K_top. intros Hnd Hend Hl. split.
  - set (tops := (fun i => 18446462599789805568 - PAGE_SIZE * i) <$> seqZ 1 47).
    assert (length tops = 47%nat) as <- by (unfold tops; by rewrite length_fmap, length_seqZ).
    apply submseteq_length, NoDup_submseteq.
    + unfold tops. apply NoDup_fmap_2; [|apply NoDup_seqZ]. intros i j. unfold PAGE_SIZE. lia.
    + intros p (i & -> & Hi%elem_of_seqZ)%list_elem_of_fmap. apply Hl. unfold PAGE_SIZE in *. Z.to_euclidean_division_equations. lia.
  - apply Forall_forall. intros p (Hp & H1 & H2)%Hl. split; [done|]. unfold KSPACE_MASK, PAGE_SIZE in *. lia.
Qed.

End start.

(** ** The start of CPU 0 *)
Section boot_cpu0.
Context {St D : Type} `{Mmio D} (swtch : M (kernel St) unit).
Context (forkret_addr trap_return_addr container_entry_addr : Z) (icode ispin_code : list Z).
Context (edata kernel_end exception_vector stack arena frequency : Z) (zero_cache : St) (uart_intr : M (core St D) unit).
Implicit Types (s : machine St D).
#[local] Abbreviation running := (Boot.running (St := St) forkret_addr trap_return_addr arena (codes icode ispin_code)).

(** From the memory manager on. *)
Lemma init_kernel_ok k :
  k_conts k = ∅ -> as_pg (k_arena k) = ∅ -> km_next (k_mem k) = 0 -> mem_ok (km_mem (k_mem k)) -> KSPACE_MASK < kernel_end <= P2K 1056964608 - 48 * PAGE_SIZE ->
  wp (onmem (init_memory_manager kernel_end);; vm_test;; onmem (run_arena_test stack);; init_container virtual_memory_init container_entry_addr arena)
    (fun _ k' => exists x l, (36 <= length l)%nat /\ running 0 (set_k_sched (Some (k_root k')) k') (k_next k) x l) k.
Proof.
  intros Hc Hpg Hn Hm Hend.
  destruct (init_memory_manager_pages (k_mem k) kernel_end) as (km & l & Hinit & Hk & Hl); [unfold PAGE_SIZE in *; lia|done|done|].
  destruct (enough_pages kernel_end l (ki_nodup _ _ Hk) Hend Hl) as [Hlen Hfr].
  apply wp_bind, wp_lift. eapply wp_eq; [exact Hinit|].
  apply wp_bind. eapply wp_mono; [apply (vm_test_ok _ l); [done|done|lia]|]. intros [] s1 (km1 & ttbr & taken & l1 & -> & -> & Htaken & Hk1).
  rewrite length_app in Hlen. apply Forall_app in Hfr as [_ Hfr].
  apply wp_bind, wp_lift. eapply wp_mono; [apply (run_arena_test_ok stack km1 l1 Hk1); lia|]. intros [] km2 (l2 & Hperm & Hk2).
  rewrite <- Hperm in Hfr. pose proof (Permutation_length Hperm) as Hlen2. destruct l2 as [|p l2]; [simpl in Hlen2; lia|]. apply Forall_cons in Hfr as [_ Hfr].
  eapply wp_mono; [by apply (init_container_ok forkret_addr trap_return_addr container_entry_addr icode ispin_code arena _ l2 p)|].
  intros [] s2 (x & Hx). exists x, l2. split; [simpl in Hlen2; lia|]. by apply Hx.
Qed.

Lemma wp_kernel {A} (m : M (kernel St) A) s (Q : A -> machine St D -> Prop) :
  wp m (fun a k => Q a (set_m_core (set_m_kernel k (m_core s)) s)) (m_kernel (m_core s)) -> wp (oncore (onkernel m)) Q s.
Proof. intros Hw. apply wp_lift, wp_lift. exact Hw. Qed.

Lemma wp_ondev (f : D -> D) s (Q : unit -> machine St D -> Prop) :
  (forall d, Q tt (set_m_core (set_m_dev d (m_core s)) s)) -> wp (oncore (ondev (modify f))) Q s.
Proof. intros HQ. apply HQ. Qed.

(** Only the device changes. *)
Definition dev_only (m : M D unit) : Prop := forall d, exists d', m d = Ok (tt, d').
Lemma dev_only_seq m1 m2 : dev_only m1 -> dev_only m2 -> dev_only (m1;; m2).
Proof. intros E1 E2 d. destruct (E1 d) as [d1 Hd1]. destruct (E2 d1) as [d2 Hd2]. exists d2. unfold mbind, M_bind. by rewrite Hd1. Qed.
Lemma dev_only_modify f : dev_only (modify f).
Proof. intros d. by exists (f d). Qed.
Lemma wp_dev m s (Q : unit -> machine St D -> Prop) :
  dev_only m -> (forall d, Q tt (set_m_core (set_m_dev d (m_core s)) s)) -> wp (oncore (ondev m)) Q s.
Proof. intros Hm HQ. destruct (Hm (m_dev (m_core s))) as [d Hd]. apply wp_lift, wp_lift. eapply wp_eq; [exact Hd|]. apply HQ. Qed.

Lemma wait_eq me l : sl_locked l = false -> wait_spinlock me l = Ok (tt, mkSpinLock false None (sl_name l)).
Proof.
  destruct l as [b o n]. simpl. intros ->. unfold wait_spinlock, mbind, M_bind.
  change (acquire_spinlock me (mkSpinLock false o n)) with (Ok (tt, mkSpinLock true (Some me) n)). cbn iota beta. by apply StartLock.release_eq.
Qed.

(** The handlers after the start: the serial line and the timer. *)
Definition started_handlers : handlers (core St D) :=
  mkHandlers (<[Z.to_nat IRQ_AUX := Some uart_intr]> (replicate 64 None)) (Some (hello swtch)).

Lemma init_system_once_ok s :
  sl_locked (m_init_lock s) = false ->
  mem_ok (km_mem (k_mem (m_kernel (m_core s)))) ->
  KSPACE_MASK < kernel_end <= P2K 1056964608 - 48 * PAGE_SIZE ->
  wp (init_system_once container_entry_addr edata kernel_end stack arena zero_cache uart_intr) (fun _ s' => exists c x l, (36 <= length l)%nat /\
    running 0 (set_k_sched (Some (k_root (m_kernel (m_core s')))) (m_kernel (m_core s'))) c x l /\
    h_handler (m_handlers s') = h_handler started_handlers /\ sl_locked (m_init_lock s') = false) s.
Proof.
  intros Hlock Hm Hend. unfold init_system_once.
  apply wp_bind, wp_lift. eapply wp_eq; [apply StartLock.try_acquire_eq|]. rewrite Hlock. simpl negb. cbn iota.
  apply wp_bind, wp_modify.
  apply wp_bind, wp_bind, wp_modify. apply wp_dev; [repeat apply dev_only_seq; apply dev_only_modify|]. intros d1.
  apply wp_bind, wp_bind, wp_dev; [repeat apply dev_only_seq; apply dev_only_modify|]. intros d2. apply wp_modify.
  apply wp_bind, wp_kernel, wp_modify.
  set (k0 := unlock_console _).
  assert (wp (onmem (init_memory_manager kernel_end);; vm_test;; onmem (run_arena_test stack);; init_container virtual_memory_init container_entry_addr arena)
    (fun _ k' => exists x l, (36 <= length l)%nat /\ running 0 (set_k_sched (Some (k_root k')) k') (k_next k0) x l) k0) as Hk
    by (apply init_kernel_ok; [done|done|done|by apply mem_ok_fill|done]).
  do 3 (apply wp_bind, wp_kernel; apply wp_seq in Hk; eapply wp_mono; [exact Hk|]; clear Hk; intros [] ? Hk).
  apply wp_bind, wp_kernel. eapply wp_mono; [exact Hk|]. clear Hk. intros [] k4 (x & l & Hlen & Hr).
  apply wp_lift. eapply wp_eq; [by apply StartLock.release_eq|]. exists (k_next k0), x, l. split; [done|]. split; [exact Hr|done].
Qed.

(** C37: The start of CPU 0 ends, whatever is in memory and in the variables of
    the BSS section, and leaves a kernel that is ready to schedule: there is one
    container, which fits in a page of its arena and is the only object there,
    and its table is well formed; its first process is [init] and the next five are the idle ones, with
    the numbers 1 to 6, all runnable from address 0, where each finds its own
    code in a page of its own; no page of an address space is free, the free
    list is well formed, the CPU is in the scheduler of the container with no
    lock taken, the handlers of the serial line and of the timer are set and
    no others, and [init_lock] is free for the other CPUs. *)
Theorem boot_correct s :
  sl_locked (m_init_lock s) = false ->
  mem_ok (km_mem (k_mem (m_kernel (m_core s)))) ->
  KSPACE_MASK < kernel_end <= P2K 1056964608 - 48 * PAGE_SIZE ->
  Z.of_nat (length icode) <= PAGE_SIZE -> Forall byte_ok icode -> Z.of_nat (length ispin_code) <= PAGE_SIZE -> Forall byte_ok ispin_code ->
  exists s' c x l, boot swtch forkret_addr trap_return_addr container_entry_addr icode ispin_code edata kernel_end exception_vector stack
      arena frequency zero_cache uart_intr s = Ok (tt, s') /\
    running 6 (m_kernel (m_core s')) c x l /\ m_handlers s' = started_handlers /\ sl_locked (m_init_lock s') = false /\ m_vbar s' = exception_vector.
Proof.
  intros Hlock Hm Hend H1 H2 H3 H4.
  assert (wp (boot swtch forkret_addr trap_return_addr container_entry_addr icode ispin_code edata kernel_end exception_vector stack
      arena frequency zero_cache uart_intr) (fun _ s' => exists c x l, running 6 (m_kernel (m_core s')) c x l /\ m_handlers s' = started_handlers /\
        sl_locked (m_init_lock s') = false /\ m_vbar s' = exception_vector) s) as Hw.
  2: { apply wp_ok in Hw as ([] & s' & Heq & c & x & l & Hr). by exists s', c, x, l. }
  apply wp_bind. eapply wp_mono; [by apply init_system_once_ok|]. intros [] s1 (c & x & l & Hlen & Hr & Hh & Hl1).
  apply wp_bind, wp_lift. eapply wp_eq; [by apply wait_eq|].
  apply wp_bind. unfold init_system_per_cpu. apply wp_bind, wp_lift. unfold init_clock.
  apply wp_bind, wp_gets, wp_bind, wp_lift, wp_modify, wp_lift, wp_modify.
  apply wp_bind, wp_modify, wp_bind, wp_modify, wp_kernel. unfold init_cpu. apply wp_bind, wp_gets, wp_modify, wp_kernel.
  eapply wp_mono; [eapply start_processes_ok; [exact Hr|done..]|]. intros [] k (x' & l' & Hr').
  exists c, x', l'. split; [exact Hr'|]. split; [|done]. simpl. unfold set_clock_handler. by rewrite Hh.
Qed.
End boot_cpu0.

(** The kernel as it is loaded, its memory zero, but some variables of the BSS
    section not, with registers that read zero;
    [init] and the idle process are one instruction each, a branch to itself. *)
Definition no_device : Mmio unit := {| reg_read _ d := (0, d); reg_write _ _ d := d; dev_wait _ d := d |}.
Definition loaded_kernel : kernel unit :=
  mkKernel {[ 5%nat := zero_container ]} 0 no_arena 0 (Some 5%nat) None (mkKmem (fun _ => 0) 4096 true) (mkFstate demo_istate false []) 0 false false.
Definition loaded_machine : machine unit unit :=
  mkMachine (mkCore loaded_kernel (mkClock 0 0 0) tt) (mkHandlers [] None) (mkSpinLock false None StartLock.no_name) 0 0.
Definition spin_code : list Z := [0; 0; 0; 20].

Lemma boot_correct_witness :
  exists s' c x l, boot (H := no_device) (mret tt) 4096 8192 12288 spin_code spin_code (KSPACE_MASK + 590000) (KSPACE_MASK + 600000) 16384 100
      (KSPACE_MASK + 595000) 62500000 tt (mret tt) loaded_machine = Ok (tt, s') /\
    running 4096 8192 (KSPACE_MASK + 595000) (codes spin_code spin_code) 6 (m_kernel (m_core s')) c x l /\ m_handlers s' = started_handlers (mret tt) (mret tt) /\
    sl_locked (m_init_lock s') = false /\ m_vbar s' = 16384.
Proof.
  assert (Z.of_nat (length spin_code) <= PAGE_SIZE /\ Forall byte_ok spin_code) as [Hl Hb].
  { split; [done|]. repeat constructor; unfold byte_ok; lia. }
  apply (boot_correct (H := no_device) (mret tt) 4096 8192 12288 spin_code spin_code (KSPACE_MASK + 590000) (KSPACE_MASK + 600000) 16384 100
    (KSPACE_MASK + 595000) 62500000 tt (mret tt) loaded_machine); [done| | |exact Hl|exact Hb|exact Hl|exact Hb].
  - intros y. unfold byte_ok. simpl. lia.
  - rewrite P2K_top. unfold KSPACE_MASK, PAGE_SIZE. lia.
Defined.
End Boot.
