(* ===== verification/SyscallFacts.v ===== *)
(** * System calls that the kernel does not have (src/core/syscall.c)

    A number without an entry of its own in the table of system calls. *)
From S2P Require Import Prelude FsDefines BlockIface Inode Cache CacheSpec PhysMem VirtMem Kernel Proc ProcTable SysArg Syscall FsDemo FsAtomic CreateDemo.

Module SyscallFacts.
Import FsDefines BlockIface Inode Cache CacheSpec PhysMem VirtMem Kernel Proc ProcTable SysArg Syscall FsDemo FsAtomic CreateDemo.

(** The numbers that the table has functions for. *)
Definition served : list Z :=
  [96; 29; 178; 135; 214; 221; 124; 220; 260; 94; 93; 23; 49; 80; 79; 34; 33; 87; 56; 66; 63; 64; 57; 459; 228].

Section syscall.
Context {St : Type} (sblock : SuperBlock) (cache : BlockCache St) (uninit : InodeEntry).
Context (mmu : Z -> (Z -> Z) -> Z -> option Z) (vmt : VirtualMemoryTable) (elf0 ph0 name0 : list Z).
Context (swtch : M (kernel St) unit) (forkret_addr trap_return_addr pct frq : Z) (fuel ctx : nat).

Lemma table_default sysno : sysno ∉ served ->
  syscall_table sblock cache uninit mmu vmt elf0 ph0 name0 swtch forkret_addr trap_return_addr pct frq fuel ctx sysno = sys_default.
Proof.
  intros Hno. unfold syscall_table. unfold served in Hno. rewrite !not_elem_of_cons in Hno. destruct_and! Hno.
  by rewrite !(proj2 (Z.eqb_neq sysno _)) by done.
Qed.

(** A system call without an entry in the table succeeds: it returns 0 to
    the program and does nothing else, whatever its arguments. So [pipe] (59) of
    the C library, for one, reports two descriptors that it has not set, and
    [fsync], [kill] and [unlinkat] report that they are done. *)
Theorem unknown_syscall_succeeds s p t x sysno :
  k_proc s = Some p -> table p.1 s = Some t -> t !! p.2 = Some x -> length (tf_x (p_tf x)) = 31%nat ->
  i32 (tf_x (p_tf x) !!! 8%nat) = sysno -> 0 <= sysno < NR_SYSCALL -> sysno ∉ served ->
  syscall_dispatch sblock cache uninit mmu vmt elf0 ph0 name0 swtch forkret_addr trap_return_addr pct frq fuel ctx s =
  Ok (0, with_table p.1 (<[p.2 := set_p_tf (set_tf_x (<[0%nat := 0]> (tf_x (p_tf x))) (p_tf x)) x]> t) s).
Proof.
  intros Hp Ht Hx Hlen Hno Hrange Hserved. unfold syscall_dispatch. unfold mbind at 1, M_bind at 1. rewrite (cur_proc_eq p t x) by done.
  rewrite Hno. unfold assert_. rewrite (proj2 (Z.leb_le 0 sysno)), (proj2 (Z.ltb_lt sysno NR_SYSCALL)) by lia. simpl andb.
  unfold mbind at 1, M_bind at 1. simpl. rewrite table_default by done. unfold sys_default.
  set (x' := set_p_tf (set_tf_x (<[0%nat := 0]> (tf_x (p_tf x))) (p_tf x)) x).
  assert (upd_cur (fun p0 : proc => set_p_tf (set_tf_x (<[0%nat := u64 (i32 0)]> (tf_x (p_tf p0))) (p_tf p0)) p0) s =
    Ok (tt, with_table p.1 (<[p.2 := x']> t) s)) as Hupd by 
    (by rewrite (upd_cur_eq p _ t x)).
  assert (cur_proc (with_table p.1 (<[p.2 := x']> t) s) = Ok (x', with_table p.1 (<[p.2 := x']> t) s)) as Hcur.
  { apply (cur_proc_eq p (<[p.2 := x']> t)); [done|by eapply table_with_table|]. apply list_lookup_insert_eq. by eapply lookup_lt_Some. }
  unfold mbind, M_bind, mret, M_ret. rewrite Hupd, Hcur. do 2 f_equal. simpl. apply list_lookup_total_insert_eq. lia.
Qed.
End syscall.

(** [pipe], of a process with 59 in [x8]. *)
Definition pipe_proc : proc := set_p_tf (set_tf_x (<[8%nat := 59]> (replicate 31 5)) (p_tf zero_proc)) zero_proc.
Definition pipe_kernel : kernel cache :=
  set_k_conts {[ 0%nat := set_c_sched (set_s_ptable [pipe_proc] zero_scheduler) zero_container ]} boot_kernel.

Lemma unknown_syscall_succeeds_witness :
  exists s, syscall_dispatch fs_sb (bcache fs_sb) root_entry (fun _ _ _ => None) virtual_memory_init [] [] [] (mret tt) 0 0 0 0 0 0 pipe_kernel = Ok (0, s) /\
    table 0%nat s = Some [set_p_tf (set_tf_x (<[0%nat := 0]> (<[8%nat := 59]> (replicate 31 5))) (p_tf zero_proc)) zero_proc].
Proof.
  eexists. split.
  - apply (unknown_syscall_succeeds fs_sb (bcache fs_sb) root_entry _ virtual_memory_init [] [] [] (mret tt) 0 0 0 0 0 0 pipe_kernel (0%nat, 0%nat) [pipe_proc] pipe_proc 59);
      try reflexivity; [split; [lia|reflexivity]|]. unfold served. rewrite !not_elem_of_cons. repeat split; try discriminate. by intros ?%elem_of_nil.
  - reflexivity.
Defined.
End SyscallFacts.
