(* ===== verification/User.v ===== *)
(** * User programs (src/user/cat, echo, init, ls, mkdir and rm, main.c)

    A program is an interaction tree: it makes calls to the system and goes on
    with the answers, for ever if it wants to. The calls of the C library that
    print are events too, with their formats and arguments; what they buffer is
    left to the library. *)
From Stdlib Require Import Ascii String.
From ITree Require Import ITree.
From S2P Require Import Prelude CString FsDefines Inode.

Module User.
Import CString FsDefines Inode.

(** The text of a string literal. *)
Definition text (s : string) : list Z := (fun a => Z.of_N (N_of_ascii a)) <$> list_ascii_of_string s.

(** An argument of [printf]: a string or an integer. *)
Inductive parg : Type := PStr (s : list Z) | PInt (z : Z).

(** ** The calls and their answers

    [Read] also answers the bytes that it puts in the buffer, [Pipe] its two
    descriptors, [Fgets] the characters it puts in the buffer. *)
Variant sysE : Type -> Type :=
| Open (path : list Z) (flags : Z) : sysE Z
| Read (fd n : Z) : sysE (Z * list Z)
| Write (fd : Z) (src : list Z) : sysE Z
| Close (fd : Z) : sysE Z
| Dup (fd : Z) : sysE Z
| Pipe : sysE (Z * (Z * Z))
| Fstat (fd : Z) : sysE (Z * stat)
| Stat (path : list Z) : sysE (Z * stat)
| Mkdir (path : list Z) (mode : Z) : sysE Z
| Mknod (path : list Z) (mode dev : Z) : sysE Z
| Syscall (no : Z) (path : list Z) : sysE Z
| Chdir (path : list Z) : sysE Z
| Fork : sysE Z
| Execve (path : list Z) (argv envp : list (list Z)) : sysE Z
| Execv (path : list Z) (argv : list (list Z)) : sysE Z
| Wait : sysE Z
| Exit (status : Z) : sysE void
| Printf (fd : Z) (fmt : list Z) (args : list parg) : sysE unit
| Fgets (n : Z) : sysE (list Z)
| Getenv (name : list Z) : sysE (option (list Z)).

#[global] Instance itree_ret E : MRet (itree E) := fun A a => Ret a.
#[global] Instance itree_bind E : MBind (itree E) := fun A B f t => ITree.bind t f.
Definition call {A} (e : sysE A) : itree sysE A := ITree.trigger e.
(** A call whose answer is not used. *)
Definition call_ {A} (e : sysE A) : itree sysE unit := call e;; mret tt.
Definition exit {R} (status : Z) : itree sysE R := v ← call (Exit status); match v : void with end.
Definition printf (fmt : list Z) (args : list parg) : itree sysE unit := call (Printf 1 fmt args).

(** The loop [while (body)]: again on [true]. *)
Definition while (body : itree sysE bool) : itree sysE unit :=
  ITree.iter (fun _ : unit => b ← body; mret (if b : bool then inl tt else inr tt)) tt.

Definition O_RDWR : Z := 2.
Definition nl : list Z := [10].

(** ** cat *)

(** [while ((n = read(fd, buf, sizeof(buf))) > 0) write(1, buf, n);] is the
    loop with [n] at its end. *)
Definition cat_loop (fd : Z) : itree sysE Z :=
  ITree.iter (fun _ : unit =>
    r ← call (Read fd 512);
    if 0 <? r.1 then call_ (Write 1 (take (Z.to_nat r.1) r.2));; mret (inl tt) else mret (inr r.1)) tt.

Definition cat (fd : Z) : itree sysE unit :=
  n ← cat_loop fd;
  if n <? 0 then printf (text "cat: read error" ++ nl) [] else mret tt.

Fixpoint cat_files (files : list (list Z)) : itree sysE Z :=
  match files with
  | [] => mret 0
  | f :: files =>
      fd ← call (Open f 0);
      if fd <? 0 then printf (text "cat: cannot open %s" ++ nl) [PStr f];; mret 0
      else
        cat fd;;
        call_ (Close fd);;
        cat_files files
  end.

(** [argv] without its first string. *)
Definition cat_main (args : list (list Z)) : itree sysE Z :=
  match args with
  | [] => printf (text "Usage: cat files..." ++ nl) [];; mret 0
  | _ => cat_files args
  end.

(** ** echo *)
Fixpoint echo_args (args : list (list Z)) : itree sysE unit :=
  match args with
  | [] => mret tt
  | a :: args =>
      printf (text "%s%s") [PStr a; PStr (match args with [] => nl | _ => [32] end)];;
      echo_args args
  end.
Definition echo_main (args : list (list Z)) : itree sysE Z := echo_args args;; mret 0.

(** ** mkdir *)
Fixpoint mkdir_args (args : list (list Z)) : itree sysE unit :=
  match args with
  | [] => mret tt
  | a :: args =>
      r ← call (Mkdir a 0);
      if r <? 0 then printf (text "mkdir: %s failed to create" ++ nl) [PStr a]
      else mkdir_args args
  end.
Definition mkdir_main (args : list (list Z)) : itree sysE Z :=
  match args with
  | [] => printf (text "Usage: mkdir files..." ++ nl) [];; mret 0
  | _ => mkdir_args args;; mret 0
  end.

(** ** rm *)
Definition myunlink (filename : list Z) : itree sysE Z := call (Syscall 87 filename).
Definition rm_main (args : list (list Z)) : itree sysE Z :=
  match args with
  | [path] =>
      r ← call (Stat path);
      ok ← (if r.1 =? 0 then u ← myunlink path; mret (u =? 0) else mret false);
      (if negb ok then printf (text "rm %s failed" ++ nl) [PStr path] else mret tt);;
      mret 0
  | _ => printf (text "Usage: rm <path>" ++ nl) [];; mret 0
  end.

(** ** ls *)

(** [for (p = path + strlen(path); p >= path && *p != '/'; p--) ; p++;] with
    [n] one more than the offset of [p]. *)
Fixpoint after_slash (path : list Z) (n : nat) : nat :=
  match n with
  | O => O
  | S n' => if byte_at path n' =? 47 then n else after_slash path n'
  end.

(** The string at the pointer returned; [path] without its NUL. *)
Definition fmtname (path : list Z) : list Z :=
  let p := drop (after_slash path (S (length path))) path in
  if FILE_NAME_MAX_LENGTH <=? Z.of_nat (length p) then p
  else p ++ replicate (Z.to_nat FILE_NAME_MAX_LENGTH - length p) 32.

Definition print_stat (path : list Z) (st : stat) : itree sysE unit :=
  printf (text "%s %d %d %d" ++ nl) [PStr (fmtname path); PInt (st_mode st); PInt (st_ino st); PInt (st_size st)].

(** What [buf] holds for an entry of the directory [path]. *)
Definition entry_path (path name : list Z) : list Z := path ++ 47 :: cstr name.

Definition ls_entry (path : list Z) (de : DirEntry) : itree sysE unit :=
  if de_inode_no de =? 0 then mret tt
  else
    let buf := entry_path path (de_name de) in
    r ← call (Stat buf);
    if r.1 <? 0 then printf (text "ls: cannot stat %s" ++ nl) [PStr buf] else print_stat buf r.2.

Definition ls_entries (path : list Z) (fd : Z) : itree sysE unit :=
  while (r ← call (Read fd sizeof_DirEntry);
         if r.1 =? sizeof_DirEntry then ls_entry path (decode_DirEntry r.2);; mret true else mret false).

Definition ls (path : list Z) : itree sysE unit :=
  fd ← call (Open path 0);
  if fd <? 0 then printf (text "ls: cannot open %s" ++ nl) [PStr path]
  else
    r ← call (Fstat fd);
    if r.1 <? 0 then printf (text "ls: cannot stat %s" ++ nl) [PStr path];; call_ (Close fd)
    else
      (if st_mode r.2 =? S_IFREG then print_stat path r.2
       else if st_mode r.2 =? S_IFDIR then
         if 512 <? Z.of_nat (length path) + 1 + FILE_NAME_MAX_LENGTH + 1 then printf (text "ls: path too long" ++ nl) []
         else ls_entries path fd
       else mret tt);;
      call_ (Close fd).

Fixpoint ls_args (args : list (list Z)) : itree sysE unit :=
  match args with [] => mret tt | a :: args => ls a;; ls_args args end.
Definition ls_main (args : list (list Z)) : itree sysE Z :=
  match args with [] => ls [46];; mret 0 | _ => ls_args args;; mret 0 end.

(** ** init *)
Definition console : list Z := text "console".
Definition init_argv : list (list Z) := [text "sh"].
Definition init_envp : list (list Z) := [text "TEST_ENV=FROM_INIT"].

(** [while ((wpid = wait(NULL)) >= 0 && wpid != pid) printf("zombie!\n");] *)
Definition init_wait (pid : Z) : itree sysE unit :=
  while (wpid ← call Wait;
         if (0 <=? wpid) && negb (wpid =? pid) then printf (text "zombie!" ++ nl) [];; mret true else mret false).

Definition init_round : itree sysE unit :=
  printf (text "init: starting sh" ++ nl) [];;
  pid ← call Fork;
  (if pid <? 0 then printf (text "init: fork failed" ++ nl) [];; exit 1 else mret tt);;
  (if pid =? 0 then
     call_ (Execve (text "sh") init_argv init_envp);;
     printf (text "init: exec sh failed" ++ nl) [];;
     exit 1
   else mret tt);;
  init_wait pid.

Definition init_main : itree sysE Z :=
  fd ← call (Open console O_RDWR);
  (if fd <? 0 then call_ (Mknod console 1 1);; call_ (Open console O_RDWR) else mret tt);;
  call_ (Dup 0);;
  call_ (Dup 0);;
  while (init_round;; mret true);;
  mret 0.
End User.
