(* ===== verification/UserFacts.v ===== *)
(** * Correctness of the user programs

    What a program relies on of the system is the class [FileCalls] with its
    laws; [cat] and [ls] are proved against it. [init] keeps one shell running
    for ever. *)
From ITree Require Import ITree ITreeFacts.
From Paco Require Import paco.
From Stdlib Require Import String.
From S2P Require Import Prelude CString FsDefines Inode User.

Module UserFacts.
Import CString FsDefines Inode User.

(** ** The rest of a program

    [K] is what is behind a part of a program: it makes the calls of the part,
    and goes on with its result. *)
Lemma observe_mbind {E : Type -> Type} {A B} (t : itree E A) (k : A -> itree E B) :
  observe (t ≫= k) =
  match observe t with RetF r => observe (k r) | TauF t => TauF (t ≫= k) | VisF e h => VisF e (fun x => h x ≫= k) end.
Proof. unfold mbind, itree_bind. rewrite Shallow.observe_bind. by destruct (observe t). Qed.

Definition ctx {A R} (K : itree sysE A -> itree sysE R) : Prop := forall t,
  observe (K t) = match observe t with RetF a => observe (K (Ret a)) | TauF t => TauF (K t) | VisF e h => VisF e (fun x => K (h x)) end.

Lemma ctx_id {R} : ctx (fun t : itree sysE R => t).
Proof. intros t. by destruct (observe t). Qed.
Lemma ctx_bind {A B R} (K : itree sysE B -> itree sysE R) (f : A -> itree sysE B) : ctx K -> ctx (fun t => K (t ≫= f)).
Proof.
  intros HK t. rewrite HK, observe_mbind. destruct (observe t) as [a|t'|X e h] eqn:E; [|done|done].
  rewrite (HK (Ret a ≫= f)), observe_mbind. cbn [observe]. by rewrite <- HK.
Qed.
#[export] Hint Resolve ctx_id ctx_bind : core.

(** One turn of [while]. *)
Definition turn {R} (K : itree sysE unit -> itree sysE R) (body t : itree sysE bool) : itree sysE R :=
  K ((t ≫= fun b => mret (if b : bool then inl tt else inr tt)) ≫=
     fun x : unit + unit => match x with inl u => Tau (ITree.iter (fun _ : unit => b ← body; mret (if b : bool then inl tt else inr tt)) u) | inr r => Ret r end).
Lemma ctx_turn {R} (K : itree sysE unit -> itree sysE R) body : ctx K -> ctx (turn K body).
Proof. intros HK. unfold turn. by apply (ctx_bind (fun t => K (t ≫= _))), (ctx_bind K). Qed.
#[export] Hint Resolve ctx_turn : core.

Lemma ctx_observe {A R} (K : itree sysE A -> itree sysE R) t t' : ctx K -> observe t = observe t' -> observe (K t) = observe (K t').
Proof. intros HK Ht. by rewrite (HK t), (HK t'), Ht. Qed.
Lemma turn_while {R} (K : itree sysE unit -> itree sysE R) body : ctx K -> observe (turn K body body) = observe (K (while body)).
Proof. intros HK. unfold turn. by apply ctx_observe. Qed.
Lemma turn_again {R} (K : itree sysE unit -> itree sysE R) body : ctx K -> observe (turn K body (Ret true)) = TauF (K (while body)).
Proof. intros HK. unfold turn. by rewrite (HK (_ ≫= _)). Qed.
Lemma turn_done {R} (K : itree sysE unit -> itree sysE R) body : ctx K -> observe (turn K body (Ret false)) = observe (K (Ret tt)).
Proof. intros HK. unfold turn. by apply ctx_observe. Qed.

(** ** Programs on a system

    [uwp Q t w]: whatever the system answers, [t] ends from [w] with [Q], and
    the system answers every call; [call] relates a call and the state before
    it to the answers and states it may have. *)
Section uwp.
Context {W : Type} (answers : forall A, sysE A -> W -> A -> W -> Prop).

Inductive uwp {R} (Q : R -> W -> Prop) : itree sysE R -> W -> Prop :=
| uwp_Ret t r w : observe t = RetF r -> Q r w -> uwp Q t w
| uwp_Tau t t' w : observe t = TauF t' -> uwp Q t' w -> uwp Q t w
| uwp_Vis t A (e : sysE A) k w :
    observe t = VisF e k -> (exists a w', answers A e w a w') -> (forall a w', answers A e w a w' -> uwp Q (k a) w') -> uwp Q t w.

Lemma uwp_observe {R} (Q : R -> W -> Prop) t t' w : observe t = observe t' -> uwp Q t w -> uwp Q t' w.
Proof.
  intros Ht H. destruct H as [t r w E|t t1 w E|t A e k w E].
  - by apply (uwp_Ret _ _ r); [rewrite <- Ht|].
  - by apply (uwp_Tau _ _ t1); [rewrite <- Ht|].
  - by apply (uwp_Vis _ _ A e k); [rewrite <- Ht|..].
Qed.

Lemma uwp_ret {R} (Q : R -> W -> Prop) r w : Q r w -> uwp Q (mret r) w.
Proof. intros H. by apply (uwp_Ret _ _ r). Qed.

Lemma uwp_mono {R} (P Q : R -> W -> Prop) t w : uwp P t w -> (forall r w', P r w' -> Q r w') -> uwp Q t w.
Proof.
  intros H HQ. induction H as [t r w E|t t1 w E _ IH|t A e k w E He _ IH].
  - apply (uwp_Ret _ _ r); auto.
  - apply (uwp_Tau _ _ t1); auto.
  - apply (uwp_Vis _ _ A e k); auto.
Qed.

Lemma uwp_bind {A B} (Q : B -> W -> Prop) (t : itree sysE A) (k : A -> itree sysE B) w :
  uwp (fun a w' => uwp Q (k a) w') t w -> uwp Q (t ≫= k) w.
Proof.
  intros H. induction H as [t r w E H|t t1 w E _ IH|t C e h w E He _ IH].
  - apply (uwp_observe _ (k r)); [|done]. by rewrite observe_mbind, E.
  - apply (uwp_Tau _ _ (t1 ≫= k)); [|done]. by rewrite observe_mbind, E.
  - apply (uwp_Vis _ _ C e (fun x => h x ≫= k)); [|done|done]. by rewrite observe_mbind, E.
Qed.

Lemma uwp_call {A} (Q : A -> W -> Prop) (e : sysE A) w :
  (exists a w', answers A e w a w') -> (forall a w', answers A e w a w' -> Q a w') -> uwp Q (call e) w.
Proof. intros He H. apply (uwp_Vis _ _ A e (fun a => Ret a)); [done..|]. intros a w' Ha. apply uwp_ret. auto. Qed.

Lemma uwp_call_ {A} (Q : unit -> W -> Prop) (e : sysE A) w :
  (exists a w', answers A e w a w') -> (forall a w', answers A e w a w' -> Q tt w') -> uwp Q (call_ e) w.
Proof. intros He H. apply uwp_bind, uwp_call; [done|]. intros a w' Ha. apply uwp_ret. eauto. Qed.

(** One turn of a loop. *)
Lemma uwp_iter {I R} (Q : R -> W -> Prop) (body : I -> itree sysE (I + R)) i w :
  uwp (fun x w' => match x with inl i => uwp Q (ITree.iter body i) w' | inr r => Q r w' end) (body i) w -> uwp Q (ITree.iter body i) w.
Proof.
  intros H. apply (uwp_observe _ (body i ≫= fun x => match x with inl i => Tau (ITree.iter body i) | inr r => Ret r end)); [done|].
  apply uwp_bind. apply (uwp_mono _ _ _ _ H). intros [j|r] w' Hx; [by apply (uwp_Tau _ _ (ITree.iter body j))|by apply uwp_ret].
Qed.

Lemma uwp_while (Q : unit -> W -> Prop) body w :
  uwp (fun b w' => if b : bool then uwp Q (while body) w' else Q tt w') body w -> uwp Q (while body) w.
Proof.
  intros H. apply uwp_iter, uwp_bind. apply (uwp_mono _ _ _ _ H). intros [] w' Hx; by apply uwp_ret.
Qed.
End uwp.
(** ** What the programs rely on

    Paths lead to files; a file has bytes and a [stat]; a descriptor has a file
    and an offset; what is printed is a sequence of bytes and formats. *)
Definition output : Type := list (Z + list Z * list parg).

Class FileCalls (W : Type) : Type := {
  fc_answers : forall A, sysE A -> W -> A -> W -> Prop;
  fc_file : W -> list Z -> option Z;
  fc_bytes : W -> Z -> list Z;
  fc_stat : W -> Z -> stat;
  fc_fds : W -> gmap Z (Z * nat);
  fc_out : W -> output
}.

(** The files are as before; the descriptors and the output are given. *)
Record moved {W} `{FileCalls W} (w w' : W) (fds : gmap Z (Z * nat)) (out : output) : Prop := {
  mv_file : forall p, fc_file w' p = fc_file w p;
  mv_bytes : forall f, fc_bytes w' f = fc_bytes w f;
  mv_stat : forall f, fc_stat w' f = fc_stat w f;
  mv_fds : fc_fds w' = fds;
  mv_out : fc_out w' = out
}.

Definition reply {W} `{FileCalls W} {A} (e : sysE A) (w : W) (Q : A -> W -> Prop) : Prop :=
  (exists a w', fc_answers A e w a w') /\ forall a w', fc_answers A e w a w' -> Q a w'.

Class FileCallsSpec (W : Type) `{FileCalls W} : Prop := {
  fc_open : forall (w : W) p, reply (Open p 0) w (fun fd w' =>
    (fd < 0 /\ moved w w' (fc_fds w) (fc_out w)) \/
    (exists f, fc_file w p = Some f /\ 0 <= fd /\ fc_fds w !! fd = None /\ moved w w' (<[fd := (f, 0%nat)]> (fc_fds w)) (fc_out w)));
  fc_read : forall (w : W) fd f off n, fc_fds w !! fd = Some (f, off) -> 0 <= n -> reply (Read fd n) w (fun r w' =>
    r = (Z.of_nat (length r.2), slice off (Z.to_nat n) (fc_bytes w f)) /\
    moved w w' (<[fd := (f, (off + length r.2)%nat)]> (fc_fds w)) (fc_out w));
  fc_close : forall (w : W) fd, is_Some (fc_fds w !! fd) -> reply (Close fd) w (fun _ w' => moved w w' (delete fd (fc_fds w)) (fc_out w));
  fc_fstat : forall (w : W) fd f off, fc_fds w !! fd = Some (f, off) -> reply (Fstat fd) w (fun r w' =>
    r = (0, fc_stat w f) /\ moved w w' (fc_fds w) (fc_out w));
  fc_statp : forall (w : W) p, reply (Stat p) w (fun r w' =>
    (if fc_file w p is Some f then r = (0, fc_stat w f) else r.1 < 0) /\ moved w w' (fc_fds w) (fc_out w));
  fc_write : forall (w : W) src, reply (Write 1 src) w (fun _ w' => moved w w' (fc_fds w) (fc_out w ++ (inl <$> src)));
  fc_printf : forall (w : W) fmt args, reply (Printf 1 fmt args) w (fun _ w' => moved w w' (fc_fds w) (fc_out w ++ [inr (fmt, args)]))
}.

Section programs.
Context {W : Type} `{FileCallsSpec W}.
#[local] Abbreviation runs := (uwp fc_answers).

Lemma moved_refl (w : W) : moved w w (fc_fds w) (fc_out w).
Proof. done. Qed.
Lemma moved_trans (w1 w2 w3 : W) fds2 out2 fds3 out3 : moved w1 w2 fds2 out2 -> moved w2 w3 fds3 out3 -> moved w1 w3 fds3 out3.
Proof. intros [] []. split; congruence. Qed.

Lemma call_ok {A} (e : sysE A) (P Q : A -> W -> Prop) w : reply e w P -> (forall a w', P a w' -> Q a w') -> runs Q (call e) w.
Proof. intros [He Hr] HQ. apply uwp_call; auto. Qed.
Lemma call__ok {A} (e : sysE A) (P : A -> W -> Prop) (Q : unit -> W -> Prop) w :
  reply e w P -> (forall a w', P a w' -> Q tt w') -> runs Q (call_ e) w.
Proof. intros [He Hr] HQ. apply uwp_call_; eauto. Qed.

(** *** cat *)
Lemma cat_loop_ok fd f : forall n off (w : W), fc_fds w !! fd = Some (f, off) -> (length (fc_bytes w f) - off <= n)%nat ->
  runs (fun r w' => r = 0 /\ exists off', moved w w' (<[fd := (f, off')]> (fc_fds w)) (fc_out w ++ (inl <$> drop off (fc_bytes w f)))) (cat_loop fd) w.
Proof.
  induction n as [n IH] using lt_wf_ind. intros off w Hfd Hn. apply uwp_iter, uwp_bind.
  eapply call_ok; [by apply (fc_read w fd f off 512)|]. intros [r data] w1 [[= -> Hd] Hm].
  cbn [fst snd] in *. assert (data = take 512 (drop off (fc_bytes w f))) as Hdata by done. clear Hd.
  destruct data as [|b data'].
  - apply uwp_ret. split; [done|]. exists off. cbn [length] in Hm. rewrite Nat.add_0_r in Hm.
    assert (drop off (fc_bytes w f) = []) as -> by (destruct (drop off _); [done|discriminate Hdata]). simpl. by rewrite app_nil_r.
  - set (m := length (b :: data')). assert (0 < m)%nat as Hpos by (unfold m; simpl; lia).
    assert (m <= length (fc_bytes w f) - off)%nat as Hle by (unfold m; rewrite Hdata, length_take, length_drop; lia).
    fold m in Hm. rewrite (proj2 (Z.ltb_lt 0 (Z.of_nat m))), Nat2Z.id by lia. rewrite take_ge by done.
    apply uwp_bind. eapply call__ok; [apply fc_write|]. intros ? w2 Hm2. apply uwp_ret.
    pose proof (moved_trans _ _ _ _ _ _ _ Hm Hm2) as Hm12. pose proof Hm12 as [_ Hby _ Hfds Hout].
    eapply uwp_mono; [apply (IH (n - m)%nat ltac:(lia) (off + m)%nat w2)|].
    + rewrite Hfds, (mv_fds _ _ _ _ Hm). apply lookup_insert_eq.
    + rewrite Hby. lia.
    + intros r w3 (-> & off' & Hm3). split; [done|]. exists off'. rewrite Hfds, Hout, Hby in Hm3.
      rewrite (mv_fds _ _ _ _ Hm), (mv_out _ _ _ _ Hm) in Hm3. rewrite insert_insert_eq, <- app_assoc, <- fmap_app in Hm3.
      rewrite <- (take_drop 512 (drop off (fc_bytes w f))), <- Hdata. eapply moved_trans; [exact Hm12|].
      replace (drop 512 (drop off (fc_bytes w f))) with (drop (off + m) (fc_bytes w f)); [exact Hm3|].
      rewrite drop_drop. destruct (decide (m = 512)%nat) as [->|Hm512]; [done|].
      assert (length (drop off (fc_bytes w f)) < 512)%nat as Hlt by (unfold m in Hm512; rewrite Hdata, length_take in Hm512; lia).
      rewrite length_drop in Hlt. rewrite !drop_ge; [done|lia|]. unfold m. rewrite Hdata, length_take, length_drop. lia.
Qed.

(** What is in the file at a path. *)
Definition contents (w : W) (p : list Z) : list Z := match fc_file w p with Some f => fc_bytes w f | None => [] end.

(** What [cat] prints if it opens the first [k] files. *)
Definition cat_output (w : W) (k : nat) (args : list (list Z)) : output :=
  (inl <$> concat (contents w <$> take k args)) ++
  match drop k args with [] => [] | p :: _ => [inr (text "cat: cannot open %s" ++ nl, [PStr p])] end.

Lemma contents_moved (w w' : W) fds out : moved w w' fds out -> forall p, contents w' p = contents w p.
Proof. intros [Hf Hb _ _ _] p. unfold contents. rewrite Hf. destruct (fc_file w p); [apply Hb|done]. Qed.

Lemma cat_files_ok args : forall w : W,
  runs (fun r w' => r = 0 /\ exists k, (k <= length args)%nat /\ Forall (fun p => is_Some (fc_file w p)) (take k args) /\
    moved w w' (fc_fds w) (fc_out w ++ cat_output w k args)) (cat_files args) w.
Proof.
  induction args as [|p args IH]; intros w.
  - apply uwp_ret. split; [done|]. exists 0%nat. split; [done|]. split; [constructor|]. unfold cat_output. simpl. by rewrite app_nil_r.
  - apply uwp_bind. eapply call_ok; [apply fc_open|]. intros fd w1 [[Hneg Hm]|(f & Hf & Hfd & Hnone & Hm)].
    + rewrite (proj2 (Z.ltb_lt fd 0)) by done. apply uwp_bind. eapply call_ok; [apply fc_printf|]. intros ? w2 Hm2. apply uwp_ret.
      split; [done|]. exists 0%nat. split; [simpl; lia|]. split; [constructor|]. unfold cat_output. simpl.
      rewrite (mv_fds _ _ _ _ Hm), (mv_out _ _ _ _ Hm) in Hm2. exact (moved_trans _ _ _ _ _ _ _ Hm Hm2).
    + rewrite (proj2 (Z.ltb_ge fd 0)) by done. apply uwp_bind, uwp_bind. eapply uwp_mono; [apply (cat_loop_ok fd f (length (fc_bytes w1 f)) 0 w1)|].
      * rewrite (mv_fds _ _ _ _ Hm). apply lookup_insert_eq.
      * lia.
      * intros r w2 (-> & off & Hm2). apply uwp_ret. pose proof (moved_trans _ _ _ _ _ _ _ Hm Hm2) as Hm12.
        apply uwp_bind. eapply call__ok; [apply fc_close; rewrite (mv_fds _ _ _ _ Hm2), lookup_insert_eq; done|]. intros ? w3 Hm3.
        eapply uwp_mono; [apply IH|]. intros r w4 (-> & k & Hk & Hall & Hm4). split; [done|]. exists (S k). simpl length.
        pose proof (moved_trans _ _ _ _ _ _ _ Hm12 Hm3) as Hm13. pose proof Hm13 as [Hfile _ _ Hfds Hout].
        rewrite (mv_fds _ _ _ _ Hm2), (mv_fds _ _ _ _ Hm), insert_insert_eq, delete_insert_id in Hfds by done.
        rewrite (mv_out _ _ _ _ Hm2), (mv_out _ _ _ _ Hm), (mv_bytes _ _ _ _ Hm) in Hout. split; [lia|].
        split; [simpl; constructor; [by rewrite Hf|]; eapply Forall_impl; [exact Hall|]; intros q; cbn beta; by rewrite Hfile|].
        pose proof (moved_trans _ _ _ _ _ _ _ Hm13 Hm4) as Hm14. rewrite Hfds, Hout in Hm14.
        unfold cat_output in *. simpl. rewrite fmap_app, <- !app_assoc in *.
        assert (contents w p = fc_bytes w f) as -> by (unfold contents; by rewrite Hf).
        by rewrite (map_ext _ _ (contents_moved _ _ _ _ Hm13)) in Hm14.
Qed.

(** C23: [cat] prints the bytes of the files it is given, one after the other
    and nothing else, up to the first one that it cannot open, for which it prints a message and stops; every file
    before it is there. It always ends, leaves the files as they are and no
    descriptor open; without arguments it prints how it is used. *)
Theorem cat_correct args (w : W) :
  runs (fun r w' => r = 0 /\ exists out, moved w w' (fc_fds w) (fc_out w ++ out) /\
    if args is [] then out = [inr (text "Usage: cat files..." ++ nl, [])]
    else exists k, (k <= length args)%nat /\ Forall (fun p => is_Some (fc_file w p)) (take k args) /\ out = cat_output w k args) (cat_main args) w.
Proof using All.
  destruct args as [|p args].
  - apply uwp_bind. eapply call_ok; [apply fc_printf|]. intros ? w' Hm. apply uwp_ret. split; [done|]. eexists. split; [exact Hm|done].
  - eapply uwp_mono; [apply cat_files_ok|]. intros r w' (-> & k & Hk & Hall & Hm). split; [done|]. eexists. split; [exact Hm|]. exists k. done.
Qed.

(** *** ls *)

(** The last element of a path, padded with spaces to fourteen characters. *)
Lemma after_slash_le path n : (after_slash path n <= n)%nat.
Proof. induction n as [|n IH]; simpl; [lia|]. destruct (_ =? _); lia. Qed.
Lemma after_slash_slash path n : (0 < after_slash path n)%nat -> byte_at path (after_slash path n - 1) = 47.
Proof.
  induction n as [|n IH]; cbn [after_slash]; [lia|]. destruct (Z.eqb_spec (byte_at path n) 47) as [E|E]; [|auto].
  intros _. by rewrite Nat.sub_succ, Nat.sub_0_r.
Qed.
Lemma after_slash_none path n i : (after_slash path n <= i < n)%nat -> byte_at path i <> 47.
Proof.
  induction n as [|n IH]; cbn [after_slash]; [lia|]. destruct (Z.eqb_spec (byte_at path n) 47) as [E|E]; [lia|].
  intros Hi. destruct (decide (i = n)) as [->|]; [done|]. apply IH. lia.
Qed.

Lemma fmtname_spec dir elem :
  (dir = [] \/ last dir = Some 47) -> 47 ∉ elem ->
  fmtname (dir ++ elem) = elem ++ replicate (14 - length elem) 32.
Proof.
  intros Hdir Helem. unfold fmtname. set (n := after_slash _ _).
  assert (n = length dir) as ->.
  { destruct (Nat.lt_trichotomy n (length dir)) as [Hlt|[Heq|Hgt]]; [exfalso|done|exfalso].
    - destruct Hdir as [->|Hl]; [simpl in Hlt; lia|]. apply (after_slash_none (dir ++ elem) (S (length (dir ++ elem))) (length dir - 1)).
      + fold n. rewrite length_app. lia.
      + unfold byte_at. rewrite last_lookup in Hl. rewrite lookup_app_l by (destruct dir; [done|simpl; lia]).
        replace (length dir - 1)%nat with (pred (length dir)) by lia. by rewrite Hl.
    - pose proof (after_slash_slash (dir ++ elem) (S (length (dir ++ elem))) ltac:(fold n; lia)) as H47. fold n in H47.
      unfold byte_at in H47. rewrite lookup_app_r in H47 by lia. destruct (elem !! (n - 1 - length dir)%nat) as [b|] eqn:Eb; [|done].
      simpl in H47. subst b. by apply Helem, (list_elem_of_lookup_2 _ (n - 1 - length dir)). }
  rewrite drop_app_length. change FILE_NAME_MAX_LENGTH with 14. destruct (Z.leb_spec 14 (Z.of_nat (length elem))) as [Hle|Hle].
  - replace (14 - length elem)%nat with 0%nat by lia. by rewrite app_nil_r.
  - done.
Qed.

(** The entries of a directory: its whole records. *)
Fixpoint dirents (n : nat) (bytes : list Z) : list DirEntry :=
  match n with O => [] | S n => decode_DirEntry (take 16 bytes) :: dirents n (drop 16 bytes) end.

Definition stat_line (p : list Z) (st : stat) : Z + list Z * list parg :=
  inr (text "%s %d %d %d" ++ nl, [PStr (fmtname p); PInt (st_mode st); PInt (st_ino st); PInt (st_size st)]).
Definition entry_output (w : W) (path : list Z) (de : DirEntry) : output :=
  if de_inode_no de =? 0 then []
  else
    let p := entry_path path (de_name de) in
    match fc_file w p with
    | Some f => [stat_line p (fc_stat w f)]
    | None => [inr (text "ls: cannot stat %s" ++ nl, [PStr p])]
    end.
(** What [ls] prints for a file that it can open. *)
Definition ls_output (w : W) (path : list Z) (f : Z) : output :=
  let st := fc_stat w f in
  if st_mode st =? S_IFREG then [stat_line path st]
  else if st_mode st =? S_IFDIR then
    if 512 <? Z.of_nat (length path) + 16 then [inr (text "ls: path too long" ++ nl, [])]
    else concat (entry_output w path <$> dirents (length (fc_bytes w f) / 16) (fc_bytes w f))
  else [].

Lemma entry_output_moved (w w' : W) fds out : moved w w' fds out -> forall path de, entry_output w' path de = entry_output w path de.
Proof.
  intros [Hf _ Hs _ _] path de. unfold entry_output. destruct (_ =? _); [done|]. rewrite Hf.
  destruct (fc_file w _) as [f|]; [by rewrite Hs|done].
Qed.

Lemma ls_entry_ok path de (w : W) :
  runs (fun _ w' => moved w w' (fc_fds w) (fc_out w ++ entry_output w path de)) (ls_entry path de) w.
Proof.
  unfold ls_entry, entry_output. destruct (_ =? _); [apply uwp_ret; by rewrite app_nil_r|].
  apply uwp_bind. eapply call_ok; [apply fc_statp|]. intros r w1 [Hr Hm]. pose proof Hm as [_ _ _ Hfds Hout].
  destruct (fc_file w _) as [f|].
  - subst r. cbn [fst snd]. change (0 <? 0) with false. cbv iota. eapply call_ok; [apply fc_printf|]. intros ? w2 Hm2.
    rewrite Hfds, Hout in Hm2. exact (moved_trans _ _ _ _ _ _ _ Hm Hm2).
  - rewrite (proj2 (Z.ltb_lt _ _)) by done. eapply call_ok; [apply fc_printf|]. intros ? w2 Hm2.
    rewrite Hfds, Hout in Hm2. exact (moved_trans _ _ _ _ _ _ _ Hm Hm2).
Qed.

Lemma ls_entries_ok path fd f : forall n off (w : W), fc_fds w !! fd = Some (f, off) -> ((length (fc_bytes w f) - off) / 16 = n)%nat ->
  runs (fun _ w' => exists off', moved w w' (<[fd := (f, off')]> (fc_fds w))
    (fc_out w ++ concat (entry_output w path <$> dirents n (drop off (fc_bytes w f))))) (ls_entries path fd) w.
Proof.
  induction n as [|n IH]; intros off w Hfd Hn; apply uwp_while, uwp_bind;
    (eapply call_ok; [by apply (fc_read w fd f off sizeof_DirEntry)|]); intros [r data] w1 [[= -> Hd] Hm]; cbn [fst snd] in *;
    assert (length data = Nat.min 16 (length (fc_bytes w f) - off)) as Hlen by (rewrite Hd; unfold slice; by rewrite length_take, length_drop).
  - rewrite (proj2 (Z.eqb_neq _ _)) by (unfold sizeof_DirEntry; pose proof (Nat.div_small_iff (length (fc_bytes w f) - off) 16); lia).
    apply uwp_ret. eexists. simpl. by rewrite app_nil_r.
  - assert (16 <= length (fc_bytes w f) - off)%nat as Hge by (pose proof (Nat.div_small (length (fc_bytes w f) - off) 16); lia).
    rewrite (proj2 (Z.eqb_eq _ _)) by (unfold sizeof_DirEntry; lia). apply uwp_bind. eapply uwp_mono; [apply ls_entry_ok|]. intros ? w2 Hm2.
    apply uwp_ret. pose proof (moved_trans _ _ _ _ _ _ _ Hm Hm2) as Hm12. pose proof Hm12 as [_ Hby _ Hfds Hout].
    rewrite (mv_fds _ _ _ _ Hm) in Hfds. rewrite (mv_out _ _ _ _ Hm), (entry_output_moved _ _ _ _ Hm) in Hout.
    assert (off + length data = 16 + off)%nat as Eoff by lia.
    eapply uwp_mono; [apply (IH (16 + off)%nat w2)|].
    + rewrite Hfds, Eoff. apply lookup_insert_eq.
    + rewrite Hby. replace (length (fc_bytes w f) - off)%nat with (1 * 16 + (length (fc_bytes w f) - (16 + off)))%nat in Hn by lia.
      rewrite Nat.div_add_l in Hn by lia. lia.
    + intros ? w3 [off' Hm3]. exists off'. rewrite Hfds, Hout, Hby, insert_insert_eq in Hm3.
      rewrite (map_ext _ _ (entry_output_moved _ _ _ _ Hm12 path)) in Hm3. cbn [dirents].
      rewrite fmap_cons, concat_cons, app_assoc, drop_drop, (Nat.add_comm off 16).
      assert (take 16 (drop off (fc_bytes w f)) = data) as -> by done.
      exact (moved_trans _ _ _ _ _ _ _ Hm12 Hm3).
Qed.

(** What [ls] may print for an argument: the system may have no descriptor
    left for a file that is there. *)
Definition ls_prints (w : W) (path : list Z) (out : output) : Prop :=
  out = [inr (text "ls: cannot open %s" ++ nl, [PStr path])] \/
  exists f, fc_file w path = Some f /\ out = ls_output w path f.

Lemma ls_prints_moved (w w' : W) fds o : moved w w' fds o -> forall path out, ls_prints w' path out -> ls_prints w path out.
Proof.
  intros Hm path out [->|(f & Hf & ->)]; [by left|]. right. exists f. pose proof Hm as [Hfile Hb Hs _ _]. split; [by rewrite <- Hfile|].
  unfold ls_output. by rewrite Hs, Hb, (map_ext _ _ (entry_output_moved _ _ _ _ Hm path)).
Qed.

(** The part of [ls] between [fstat] and [close]. *)
Lemma ls_body_ok path fd f (w : W) : fc_fds w !! fd = Some (f, 0%nat) ->
  runs (fun _ w' => exists off, moved w w' (<[fd := (f, off)]> (fc_fds w)) (fc_out w ++ ls_output w path f))
    (if st_mode (fc_stat w f) =? S_IFREG then print_stat path (fc_stat w f)
     else if st_mode (fc_stat w f) =? S_IFDIR then
       if 512 <? Z.of_nat (length path) + 1 + FILE_NAME_MAX_LENGTH + 1 then printf (text "ls: path too long" ++ nl) []
       else ls_entries path fd
     else mret tt) w.
Proof.
  intros Hfd. unfold ls_output. destruct (_ =? S_IFREG).
  { eapply call_ok; [apply fc_printf|]. intros ? w' Hm. exists 0%nat. by rewrite insert_id. }
  destruct (_ =? S_IFDIR); [|apply uwp_ret; exists 0%nat; rewrite insert_id, app_nil_r by done; apply moved_refl].
  replace (Z.of_nat (length path) + 1 + FILE_NAME_MAX_LENGTH + 1) with (Z.of_nat (length path) + 16) by (unfold FILE_NAME_MAX_LENGTH; lia).
  destruct (512 <? _).
  - eapply call_ok; [apply fc_printf|]. intros ? w' Hm. exists 0%nat. by rewrite insert_id.
  - rewrite <- (Nat.sub_0_r (length (fc_bytes w f))). by apply (ls_entries_ok path fd f _ 0 w).
Qed.

Lemma ls_ok path (w : W) : runs (fun _ w' => exists out, ls_prints w path out /\ moved w w' (fc_fds w) (fc_out w ++ out)) (ls path) w.
Proof.
  apply uwp_bind. eapply call_ok; [apply fc_open|]. intros fd w1 [[Hneg Hm]|(f & Hf & Hfd & Hnone & Hm)].
  - rewrite (proj2 (Z.ltb_lt fd 0)) by done. eapply call_ok; [apply fc_printf|]. intros ? w2 Hm2. eexists. split; [by left|].
    rewrite (mv_fds _ _ _ _ Hm), (mv_out _ _ _ _ Hm) in Hm2. exact (moved_trans _ _ _ _ _ _ _ Hm Hm2).
  - rewrite (proj2 (Z.ltb_ge fd 0)) by done.
    assert (fc_fds w1 !! fd = Some (f, 0%nat)) as Hfd1 by (rewrite (mv_fds _ _ _ _ Hm); apply lookup_insert_eq).
    apply uwp_bind. eapply call_ok; [apply (fc_fstat w1 fd f 0 Hfd1)|]. intros r w2 [-> Hm2]. cbn [fst snd]. change (0 <? 0) with false. cbv iota.
    pose proof (moved_trans _ _ _ _ _ _ _ Hm Hm2) as Hm12. rewrite (mv_fds _ _ _ _ Hm), (mv_out _ _ _ _ Hm) in Hm12.
    rewrite <- (mv_stat _ _ _ _ Hm2). apply uwp_bind. eapply uwp_mono; [apply (ls_body_ok path fd f w2)|].
    { rewrite (mv_fds _ _ _ _ Hm12). apply lookup_insert_eq. }
    intros ? w3 [off Hm3]. eapply call__ok; [apply fc_close; rewrite (mv_fds _ _ _ _ Hm3), lookup_insert_eq; done|]. intros ? w4 Hm4.
    pose proof (moved_trans _ _ _ _ _ _ _ Hm12 (moved_trans _ _ _ _ _ _ _ Hm3 Hm4)) as Hm14.
    exists (ls_output w2 path f). split; [apply (ls_prints_moved _ _ _ _ Hm12); right; exists f; by rewrite (mv_file _ _ _ _ Hm12)|].
    rewrite (mv_fds _ _ _ _ Hm3), (mv_fds _ _ _ _ Hm12), (mv_out _ _ _ _ Hm3), (mv_out _ _ _ _ Hm12), insert_insert_eq, delete_insert_id in Hm14; done.
Qed.

Lemma ls_args_ok args : forall w : W,
  runs (fun _ w' => exists outs, Forall2 (ls_prints w) args outs /\ moved w w' (fc_fds w) (fc_out w ++ concat outs)) (ls_args args) w.
Proof.
  induction args as [|p args IH]; intros w.
  - apply uwp_ret. exists []. split; [constructor|]. simpl. rewrite app_nil_r. apply moved_refl.
  - apply uwp_bind. eapply uwp_mono; [apply ls_ok|]. intros ? w1 (out & Hp & Hm). eapply uwp_mono; [apply IH|]. intros ? w2 (outs & Hall & Hm2).
    exists (out :: outs). split.
    + constructor; [done|]. eapply Forall2_impl; [exact Hall|]. apply (ls_prints_moved _ _ _ _ Hm).
    + rewrite (mv_fds _ _ _ _ Hm), (mv_out _ _ _ _ Hm) in Hm2. simpl. rewrite app_assoc. exact (moved_trans _ _ _ _ _ _ _ Hm Hm2).
Qed.

(** [ls] prints, for each argument in order and for the current directory
    without one: for a regular file a line with its padded last name, mode,
    number and size; for a directory such a line for every record in use, in
    the order of the directory, with the [stat] of the path through it, or a
    message where that leads nowhere; for a device nothing; and a message for
    what it cannot open and for a path that leaves no room for names. It always
    ends, and leaves the files as they are and no descriptor open. *)
Theorem ls_correct args (w : W) :
  runs (fun r w' => r = 0 /\ exists outs, Forall2 (ls_prints w) (if args is [] then [[46]] else args) outs /\
    moved w w' (fc_fds w) (fc_out w ++ concat outs)) (ls_main args) w.
Proof using All.
  destruct args as [|p args].
  - apply uwp_bind. eapply uwp_mono; [apply ls_ok|]. intros ? w' (out & Hp & Hm). apply uwp_ret. split; [done|]. exists [out].
    split; [constructor; [exact Hp|constructor]|]. simpl. by rewrite app_nil_r.
  - apply uwp_bind. eapply uwp_mono; [apply ls_args_ok|]. intros ? w' (outs & Hall & Hm). apply uwp_ret. split; [done|]. by exists outs.
Qed.
End programs.

(** ** init

    [one_shell t child]: whatever the calls answer, as long as [fork] returns
    the number of a new child to its parent, [t] goes on for ever, does not
    exit or become another program, and forks only when the last child that it
    forked, [child], has been waited for or there is no child left. *)
Definition may {A} (e : sysE A) (child : option Z) : bool :=
  match e with
  | Fork => bool_decide (child = None)
  | Exit _ | Execve _ _ _ | Execv _ _ => false
  | _ => true
  end.
Definition answer_ok {A} (e : sysE A) : A -> Prop :=
  match e in sysE A return A -> Prop with Fork => fun pid => 0 < pid | _ => fun _ => True end.
Definition after {A} (e : sysE A) (child : option Z) : A -> option Z :=
  match e in sysE A return A -> option Z with
  | Fork => fun pid => Some pid
  | Wait => fun pid => if (pid <? 0) || bool_decide (child = Some pid) then None else child
  | _ => fun _ => child
  end.

Inductive one_shell_step (r : itree sysE Z -> option Z -> Prop) : itree' sysE Z -> option Z -> Prop :=
| os_tau t child : r t child -> one_shell_step r (TauF t) child
| os_vis A (e : sysE A) k child :
    may e child = true -> (forall a, answer_ok e a -> r (k a) (after e child a)) -> one_shell_step r (VisF e k) child.
Definition one_shell_gen (r : itree sysE Z -> option Z -> Prop) (t : itree sysE Z) (child : option Z) : Prop :=
  one_shell_step r (observe t) child.
Lemma one_shell_mon : monotone2 one_shell_gen.
Proof. intros t child r r' H Hr. unfold one_shell_gen in *. destruct H; constructor; auto. Qed.
#[local] Hint Resolve one_shell_mon : paco.
Definition one_shell (t : itree sysE Z) (child : option Z) : Prop := paco2 one_shell_gen bot2 t child.

#[local] Abbreviation shell r := (paco2 one_shell_gen r).

Lemma shell_observe r t t' child : observe t = observe t' -> shell r t child -> shell r t' child.
Proof. intros Ht H. apply paco2_unfold in H; [|apply one_shell_mon]. pfold. unfold one_shell_gen in *. by rewrite <- Ht. Qed.

Section shell.
Context (r : itree sysE Z -> option Z -> Prop) {B : Type} (K : itree sysE B -> itree sysE Z) (HK : ctx K).

Lemma shell_ret {A} (f : A -> itree sysE B) a child : shell r (K (f a)) child -> shell r (K (mret a ≫= f)) child.
Proof using HK. apply shell_observe. by rewrite (HK (_ ≫= f)), observe_mbind, (HK (f a)). Qed.

Lemma shell_call {A} (e : sysE A) (f : A -> itree sysE B) child :
  may e child = true -> (forall a, answer_ok e a -> shell r (K (f a)) (after e child a)) -> shell r (K (call e ≫= f)) child.
Proof using HK.
  intros He H. pfold. unfold one_shell_gen. rewrite (HK (_ ≫= f)), observe_mbind. apply os_vis; [done|].
  intros a Ha. left. by apply shell_ret, H.
Qed.
Lemma shell_call_ {A} (e : sysE A) (f : unit -> itree sysE B) child :
  may e child = true -> (forall a, answer_ok e a -> shell r (K (f tt)) (after e child a)) -> shell r (K (call_ e ≫= f)) child.
Proof using HK.
  intros He H. pfold. unfold one_shell_gen. rewrite (HK (_ ≫= f)), observe_mbind. apply os_vis; [done|].
  intros a Ha. left. eapply shell_observe; [|by apply (H a)]. by rewrite (HK (_ ≫= f)), observe_mbind, (HK (f tt)).
Qed.
End shell.

(** The wait for the shell, and one round. *)
Lemma init_wait_ok r K pid : ctx K -> 0 < pid -> shell r (K (Ret tt)) None -> shell r (K (init_wait pid)) (Some pid).
Proof.
  intros HK Hpid H. pcofix CIH. eapply shell_observe; [by apply turn_while|].
  apply (shell_call _ (turn K _)); [auto|done|]. intros wpid _. cbn [after].
  destruct (Z.leb_spec 0 wpid) as [H0|H0]; [destruct (Z.eqb_spec wpid pid) as [->|Hne]|]; cbn [andb negb].
  - rewrite bool_decide_true, orb_true_r by done. eapply shell_observe; [symmetry; by apply turn_done|]. by eapply paco2_mon.
  - rewrite (proj2 (Z.ltb_ge wpid 0)), bool_decide_false by congruence || lia. cbn [orb].
    apply (shell_call _ (turn K _)); [auto|done|]. intros ? _. pfold. unfold one_shell_gen.
    rewrite (ctx_observe (turn K _) _ (Ret true)) by auto. rewrite turn_again by done. apply os_tau. by right.
  - rewrite (proj2 (Z.ltb_lt wpid 0)) by done. cbn [orb]. eapply shell_observe; [symmetry; by apply turn_done|]. by eapply paco2_mon.
Qed.

Lemma init_round_ok r K : ctx K -> shell r (K (Ret tt)) None -> shell r (K init_round) None.
Proof.
  intros HK H. apply (shell_call _ K); [done..|]. intros ? _. apply (shell_call _ K); [done|done|].
  intros pid Hpid. cbn [after answer_ok] in *. rewrite (proj2 (Z.ltb_ge pid 0)), (proj2 (Z.eqb_neq pid 0)) by lia.
  apply (shell_ret _ K); [done|]. apply (shell_ret _ K); [done|]. by apply init_wait_ok.
Qed.

(** C24: As long as [fork] succeeds, [init] never ends: it opens its three
    descriptors, making the console if it is not there, and then, for ever,
    starts a shell and waits until that shell has ended (or no child is left),
    whatever other children end before it. It never has two shells, and never
    becomes another program itself. *)
Theorem init_one_shell : one_shell init_main None.
Proof.
  set (body := init_round;; mret true). set (K := fun t : itree sysE unit => t ≫= fun _ => mret 0 : itree sysE Z).
  assert (ctx K) as HK by (apply (ctx_bind (fun t => t)), ctx_id).
  assert (one_shell (K (while body)) None) as Hloop.
  { pcofix CIH. eapply shell_observe; [by apply turn_while|]. unfold body at 2.
    apply (init_round_ok r (fun t => turn K body (t ≫= fun _ => mret true))); [by apply (ctx_bind (turn K body)), ctx_turn|].
    pfold. unfold one_shell_gen. rewrite (ctx_observe (turn K body) _ (Ret true)) by auto. rewrite turn_again by done. apply os_tau. by right. }
  assert (one_shell (call_ (Dup 0);; call_ (Dup 0);; while body;; mret 0) None) as Hrest.
  { apply (shell_call_ _ (fun t => t)); [apply ctx_id|done|]. intros ? _. apply (shell_call_ _ (fun t => t)); [apply ctx_id|done|]. by intros ? _. }
  apply (shell_call _ (fun t => t)); [apply ctx_id|done|]. intros fd _. cbn [after]. destruct (fd <? 0).
  - apply (shell_call_ _ (fun t => t ≫= _)); [apply (ctx_bind (fun t => t)), ctx_id|done|]. intros ? _.
    apply (shell_observe _ (call_ (Open console O_RDWR) ≫= fun _ : unit => call_ (Dup 0);; call_ (Dup 0);; while body;; mret 0)); [done|].
    apply (shell_call_ _ (fun t => t)); [apply ctx_id|done|]. by intros ? _.
  - by apply (shell_ret _ (fun t => t)); [apply ctx_id|].
Qed.
End UserFacts.
