(* ===== verification/UserDemo.v ===== *)
(** * A small system for the user programs

    Two files and a directory that names them: the laws of [FileCalls] can
    hold, and the theorems about [cat] and [ls] apply. *)
From ITree Require Import ITree.
From Stdlib Require Import String.
From S2P Require Import Prelude CString FsDefines Inode User UserFacts.

Module UserDemo.
Import FsDefines Inode User UserFacts.

Record demo : Type := mkDemo { dm_fds : gmap Z (Z * nat); dm_out : output }.

Definition demo_file (p : list Z) : option Z :=
  if bool_decide (p = [46]) then Some 1
  else if bool_decide (p = [46; 47; 104; 105] \/ p = [104; 105]) then Some 2
  else None.
(** A free record, [hi], and a name that leads nowhere. *)
Definition demo_bytes (f : Z) : list Z :=
  if f =? 1 then concat (encode_DirEntry <$>
    [mkDirEntry 0 (replicate 14 0); mkDirEntry 2 ([104; 105] ++ replicate 12 0); mkDirEntry 3 ([110; 111] ++ replicate 12 0)])
  else if f =? 2 then [104; 101; 108; 108; 111; 10] else [].
Definition demo_stat (f : Z) : stat :=
  mkStat 1 f 1 (Z.of_nat (length (demo_bytes f))) (if f =? 1 then S_IFDIR else S_IFREG).

Definition demo_open (w : demo) (f : Z) : Z * demo :=
  match List.find (fun fd => bool_decide (dm_fds w !! fd = None)) (seqZ 3 13) with
  | Some fd => (fd, mkDemo (<[fd := (f, 0%nat)]> (dm_fds w)) (dm_out w))
  | None => (-1, w)
  end.
Definition demo_answer {A} (e : sysE A) (w : demo) : option (A * demo) :=
  match e in sysE A return option (A * demo) with
  | Open p _ => Some (match demo_file p with Some f => demo_open w f | None => (-1, w) end)
  | Read fd n =>
      '(f, off) ← dm_fds w !! fd;
      let data := slice off (Z.to_nat n) (demo_bytes f) in
      Some ((Z.of_nat (length data), data), mkDemo (<[fd := (f, (off + length data)%nat)]> (dm_fds w)) (dm_out w))
  | Close fd => Some (0, mkDemo (delete fd (dm_fds w)) (dm_out w))
  | Fstat fd => '(f, _) ← dm_fds w !! fd; Some ((0, demo_stat f), w)
  | Stat p => Some (match demo_file p with Some f => (0, demo_stat f) | None => (-1, demo_stat 0) end, w)
  | Write fd src => if fd =? 1 then Some (Z.of_nat (length src), mkDemo (dm_fds w) (dm_out w ++ (inl <$> src))) else None
  | Printf fd fmt args => if fd =? 1 then Some (tt, mkDemo (dm_fds w) (dm_out w ++ [inr (fmt, args)])) else None
  | _ => None
  end.

#[export] Instance demo_calls : FileCalls demo := {
  fc_answers A e w a w' := demo_answer e w = Some (a, w');
  fc_file w := demo_file;
  fc_bytes w := demo_bytes;
  fc_stat w := demo_stat;
  fc_fds := dm_fds;
  fc_out := dm_out
}.

Lemma demo_reply {A} (e : sysE A) w a w' (Q : A -> demo -> Prop) : demo_answer e w = Some (a, w') -> Q a w' -> reply e w Q.
Proof. intros He HQ. split; [by exists a, w'|]. intros a1 w1 H. simpl in H. by rewrite He in H; injection H as <- <-. Qed.

#[export] Instance demo_spec : FileCallsSpec demo.
Proof.
  split.
  - intros w p. destruct (demo_file p) as [f|] eqn:E.
    + unfold demo_open. destruct (List.find (fun fd => bool_decide (dm_fds w !! fd = None)) (seqZ 3 13)) as [fd|] eqn:Ef.
      * eapply demo_reply; [cbn; rewrite E; unfold demo_open; by rewrite Ef|]. right. apply List.find_some in Ef as [Hin Hn%bool_decide_eq_true].
        apply list_elem_of_In, elem_of_seqZ in Hin. exists f. split_and!; [done|lia|done|done].
      * eapply demo_reply; [cbn; rewrite E; unfold demo_open; by rewrite Ef|]. by left.
    + eapply demo_reply; [cbn; by rewrite E|]. by left.
  - intros w fd f off n Hfd Hn. simpl in Hfd. eapply demo_reply; [cbn; by rewrite Hfd|]. done.
  - intros w fd _. by eapply demo_reply.
  - intros w fd f off Hfd. simpl in Hfd. eapply demo_reply; [cbn; by rewrite Hfd|]. done.
  - intros w p. eapply demo_reply; [done|]. simpl. by destruct (demo_file p).
  - intros w src. by eapply demo_reply.
  - intros w fmt args. by eapply demo_reply.
Qed.

Definition demo_start : demo := mkDemo ∅ [].

(** [cat hi no] *)
Lemma cat_correct_witness :
  uwp fc_answers (fun r w' => r = 0 /\ exists out, moved demo_start w' ∅ out /\
    exists k, (k <= 2)%nat /\ Forall (fun p => is_Some (demo_file p)) (take k [[104; 105]; [110; 111]]) /\
      out = cat_output demo_start k [[104; 105]; [110; 111]]) (cat_main [[104; 105]; [110; 111]]) demo_start /\
  cat_output demo_start 1 [[104; 105]; [110; 111]] =
    (inl <$> [104; 101; 108; 108; 111; 10]) ++ [inr (text "cat: cannot open %s" ++ nl, [PStr [110; 111]])].
Proof. split; [exact (cat_correct [[104; 105]; [110; 111]] demo_start)|reflexivity]. Defined.

(** [ls] *)
Lemma ls_correct_witness :
  uwp fc_answers (fun r w' => r = 0 /\ exists outs, Forall2 (ls_prints demo_start) [[46]] outs /\ moved demo_start w' ∅ (concat outs))
    (ls_main []) demo_start /\
  ls_output demo_start [46] 1 =
    [stat_line [46; 47; 104; 105] (demo_stat 2); inr (text "ls: cannot stat %s" ++ nl, [PStr [46; 47; 110; 111]])] /\
  stat_line [46; 47; 104; 105] (demo_stat 2) =
    inr (text "%s %d %d %d" ++ nl, [PStr ([104; 105] ++ replicate 12 32); PInt S_IFREG; PInt 2; PInt 6]).
Proof. split; [exact (ls_correct [] demo_start)|split; reflexivity]. Defined.
End UserDemo.
