(* ===== verification/Sh.v ===== *)
(** * The shell (src/user/sh/main.c)

    The parser of command lines over a buffer of characters, with pointers as
    offsets in the buffer, the system calls that a parsed command makes, and
    the loop over the lines of the input. *)
From ITree Require Import ITree.
From Stdlib Require Import String.
From S2P Require Import Prelude CString User.

Module Sh.
Import CString User.

Definition MAXARGS : Z := 10.
Definition MAXN : Z := 10000.
Definition O_RDONLY : Z := 0.
Definition O_WRONLY : Z := 1.
Definition O_CREAT : Z := 64.

(** [struct cmd] and what it is the head of, by [type]. A string is an [A]:
    while parsing, a pointer to its start and one behind its end. The [argv]
    of an [EXEC] ends with its list. *)
Inductive cmd (A : Type) : Type :=
| EXEC (argv : list A)
| REDIR (c : cmd A) (file : A) (mode fd : Z)
| PIPE (left right : cmd A)
| LIST (left right : cmd A)
| BACK (c : cmd A).
Arguments EXEC {A}. Arguments REDIR {A}. Arguments PIPE {A}. Arguments LIST {A}. Arguments BACK {A}.

Fixpoint cmd_map {A B} (f : A -> B) (c : cmd A) : cmd B :=
  match c with
  | EXEC argv => EXEC (f <$> argv)
  | REDIR c file mode fd => REDIR (cmd_map f c) (f file) mode fd
  | PIPE l r => PIPE (cmd_map f l) (cmd_map f r)
  | LIST l r => LIST (cmd_map f l) (cmd_map f r)
  | BACK c => BACK (cmd_map f c)
  end.

Definition span : Type := nat * nat.

(** The sizes of the structures. *)
Definition sizeof_execcmd : Z := 168.
Definition sizeof_redircmd : Z := 40.
Definition sizeof_pipecmd : Z := 24.
Definition sizeof_listcmd : Z := 24.
Definition sizeof_backcmd : Z := 16.

(** ** Tokens *)
Definition whitespace : list Z := [32; 9; 13; 10; 11].
(** ["<|>&;()"] *)
Definition symbols : list Z := [60; 124; 62; 38; 59; 40; 41].

(** [strchr(l, c) != NULL]; the NUL at the end of [l] counts. *)
Definition strchr (l : list Z) (c : Z) : bool := (c =? 0) || existsb (Z.eqb c) l.

(** [while (s < es && p( *s)) s++;] *)
Fixpoint skip_from (fuel : nat) (p : Z -> bool) (buf : list Z) (es s : nat) : nat :=
  match fuel with
  | O => s
  | S fuel' => if (s <? es)%nat && p (byte_at buf s) then skip_from fuel' p buf es (S s) else s
  end.
Definition skip (p : Z -> bool) (buf : list Z) (es s : nat) : nat := skip_from (es - s) p buf es s.

(** The parser's state: [*ps], and the bytes that [malloc1] has given out. *)
Record pst : Type := mkPst { ps : nat; mem_used : Z }.
Definition set_ps (x : nat) (s : pst) : pst := mkPst x (mem_used s).
Definition set_mem_used (x : Z) (s : pst) : pst := mkPst (ps s) x.

Section parse.
Context (buf : list Z) (es : nat).

(** The token at [s]: its code, its start and end, and what follows it. *)
Definition gettoken_at (s : nat) : Z * span * nat :=
  let q := skip (strchr whitespace) buf es s in
  let c := byte_at buf q in
  let '(ret, eq) :=
    if c =? 0 then (c, q)
    else if existsb (Z.eqb c) [124; 40; 41; 59; 38; 60] then (c, S q)
    else if c =? 62 then if byte_at buf (S q) =? 62 then (43, S (S q)) else (c, S q)
    else (97, skip (fun c => negb (strchr whitespace c) && negb (strchr symbols c)) buf es q) in
  (ret, (q, eq), skip (strchr whitespace) buf es eq).

Definition gettoken : M pst (Z * span) :=
  s ← gets ps;
  let '(ret, q, s') := gettoken_at s in
  modify (set_ps s');; mret (ret, q).

Definition peek (toks : list Z) : M pst bool :=
  s ← gets ps;
  let s := skip (strchr whitespace) buf es s in
  modify (set_ps s);;
  mret (negb (byte_at buf s =? 0) && strchr toks (byte_at buf s)).

(** *** Constructors *)
Definition malloc1 (sz : Z) : M pst unit :=
  i ← gets mem_used;
  modify (set_mem_used (i + sz));;
  assert_ (i + sz <=? MAXN).

Definition execcmd : M pst (cmd span) := malloc1 sizeof_execcmd;; mret (EXEC []).
Definition redircmd (subcmd : cmd span) (file : span) (mode fd : Z) : M pst (cmd span) :=
  malloc1 sizeof_redircmd;; mret (REDIR subcmd file mode fd).
Definition pipecmd (left right : cmd span) : M pst (cmd span) := malloc1 sizeof_pipecmd;; mret (PIPE left right).
Definition listcmd (left right : cmd span) : M pst (cmd span) := malloc1 sizeof_listcmd;; mret (LIST left right).
Definition backcmd (subcmd : cmd span) : M pst (cmd span) := malloc1 sizeof_backcmd;; mret (BACK subcmd).

(** *** The parser *)
Fixpoint parseredirs (fuel : nat) (cmd : cmd span) : M pst (Sh.cmd span) :=
  match fuel with
  | O => nofuel
  | S fuel' =>
      b ← peek [60; 62];
      if (b : bool) then
        '(tok, _) ← gettoken;
        '(tok2, q) ← gettoken;
        assert_ (tok2 =? 97);;
        cmd ← (if tok =? 60 then redircmd cmd q O_RDONLY 0
               else if tok =? 62 then redircmd cmd q (Z.lor O_WRONLY O_CREAT) 1
               else if tok =? 43 then redircmd cmd q (Z.lor O_WRONLY O_CREAT) 1
               else mret cmd);
        parseredirs fuel' cmd
      else mret cmd
  end.

(** The [EXEC] that [parseexec] fills in is inside the redirections that were
    put around it. *)
Fixpoint fill_argv (argv : list span) (c : cmd span) : cmd span :=
  match c with
  | EXEC _ => EXEC argv
  | REDIR c file mode fd => REDIR (fill_argv argv c) file mode fd
  | c => c
  end.

(** The loop of [parseexec], with the arguments so far. *)
Fixpoint parseargs (fuel : nat) (argv : list span) (ret : cmd span) : M pst (cmd span) :=
  match fuel with
  | O => nofuel
  | S fuel' =>
      b ← peek [124; 41; 38; 59];
      if (b : bool) then mret (fill_argv argv ret)
      else
        '(tok, q) ← gettoken;
        if tok =? 0 then mret (fill_argv argv ret)
        else
          assert_ (tok =? 97);;
          let argv := argv ++ [q] in
          assert_ (negb (MAXARGS <=? Z.of_nat (length argv)));;
          ret ← parseredirs (S es) ret;
          parseargs fuel' argv ret
  end.

(** The loop of [parseline]. *)
Fixpoint parsebacks (fuel : nat) (cmd : cmd span) : M pst (Sh.cmd span) :=
  match fuel with
  | O => nofuel
  | S fuel' =>
      b ← peek [38];
      if (b : bool) then gettoken;; cmd ← backcmd cmd; parsebacks fuel' cmd else mret cmd
  end.

(** The four routines that call each other. Each takes the routines it calls as
    [parse]. *)
Inductive nonterminal : Type := ParseLine | ParsePipe | ParseExec | ParseBlock.

Definition parseline (parse : nonterminal -> M pst (Sh.cmd span)) : M pst (cmd span) :=
  cmd ← parse ParsePipe;
  cmd ← parsebacks (S es) cmd;
  b ← peek [59];
  if (b : bool) then gettoken;; right ← parse ParseLine; listcmd cmd right else mret cmd.

Definition parsepipe (parse : nonterminal -> M pst (Sh.cmd span)) : M pst (cmd span) :=
  cmd ← parse ParseExec;
  b ← peek [124];
  if (b : bool) then gettoken;; right ← parse ParsePipe; pipecmd cmd right else mret cmd.

Definition parseexec (parse : nonterminal -> M pst (Sh.cmd span)) : M pst (cmd span) :=
  b ← peek [40];
  if (b : bool) then parse ParseBlock
  else
    ret ← execcmd;
    ret ← parseredirs (S es) ret;
    parseargs (S es) [] ret.

Definition parseblock (parse : nonterminal -> M pst (Sh.cmd span)) : M pst (cmd span) :=
  b ← peek [40];
  assert_ b;;
  gettoken;;
  cmd ← parse ParseLine;
  b ← peek [41];
  assert_ b;;
  gettoken;;
  parseredirs (S es) cmd.

(** The calls, [fuel] deep. *)
Fixpoint parse (fuel : nat) (n : nonterminal) : M pst (cmd span) :=
  match fuel with
  | O => nofuel
  | S fuel' =>
      match n with
      | ParseLine => parseline (parse fuel')
      | ParsePipe => parsepipe (parse fuel')
      | ParseExec => parseexec (parse fuel')
      | ParseBlock => parseblock (parse fuel')
      end
  end.
End parse.

(** NUL-terminate all the counted strings. *)
Fixpoint nulterminate (c : cmd span) (buf : list Z) : list Z :=
  match c with
  | EXEC argv => foldl (fun buf a => <[a.2 := 0]> buf) buf argv
  | REDIR c file _ _ => <[file.2 := 0]> (nulterminate c buf)
  | PIPE l r => nulterminate r (nulterminate l buf)
  | LIST l r => nulterminate r (nulterminate l buf)
  | BACK c => nulterminate c buf
  end.

(** Calls nest four deep per character at most. *)
Definition parse_fuel (es : nat) : nat := 4 * S es + 4.

(** The command and the buffer with its strings terminated; [None] stands for a
    buffer without a NUL. *)
Definition parsecmd (s : list Z) : M pst (cmd span * list Z) :=
  es ← from_option_M (strlen s);
  modify (set_ps 0%nat);;
  cmd ← parse s es (parse_fuel es) ParseLine;
  peek s es [];;
  p ← gets ps;
  assert_ (p =? es)%nat;;
  mret (cmd, nulterminate cmd s).

(** The strings of a command in a terminated buffer. *)
Definition strings (buf : list Z) (c : cmd span) : cmd (list Z) := cmd_map (fun a : span => cstr (drop a.1 buf)) c.

(** ** Running a command *)
Definition stderr : Z := 2.
Definition fprintf (fd : Z) (fmt : list Z) (args : list parg) : itree sysE unit := call (Printf fd fmt args).

Definition PANIC {R} (s : list Z) : itree sysE R := fprintf stderr (text "%s" ++ nl) [PStr s];; exit 1.

(** Fork, but a failure panics. *)
Definition fork1 : itree sysE Z := pid ← call Fork; if pid =? -1 then PANIC (text "fork") else mret pid.

(** It never returns. *)
Fixpoint runcmd (c : cmd (list Z)) : itree sysE void :=
  match c with
  | EXEC [] => exit 0
  | EXEC (path :: args) =>
      call_ (Execv path (path :: args));;
      fprintf stderr (text "exec %s failed" ++ nl) [PStr path];;
      exit 0
  | REDIR c file mode fd =>
      call_ (Close fd);;
      r ← call (Open file mode);
      if r <? 0 then fprintf stderr (text "open %s failed" ++ nl) [PStr file];; exit 1 else runcmd c
  | LIST l r =>
      pid ← fork1;
      if pid =? 0 then runcmd l else call_ Wait;; runcmd r
  | PIPE l r =>
      x ← call Pipe;
      if x.1 <? 0 then PANIC (text "pipe")
      else
        let '(p0, p1) := x.2 in
        pid ← fork1;
        if pid =? 0 then call_ (Close 1);; call_ (Dup p1);; call_ (Close p0);; call_ (Close p1);; runcmd l
        else
          pid ← fork1;
          if pid =? 0 then call_ (Close 0);; call_ (Dup p0);; call_ (Close p0);; call_ (Close p1);; runcmd r
          else call_ (Close p0);; call_ (Close p1);; call_ Wait;; call_ Wait;; exit 0
  | BACK c =>
      pid ← fork1;
      if pid =? 0 then runcmd c else exit 0
  end.

(** ** The main loop *)

(** The result and the buffer, which [fgets] fills up to a NUL. *)
Definition getcmd (nbuf : nat) : itree sysE (Z * list Z) :=
  fprintf stderr (text "$ ") [];;
  line ← call (Fgets (Z.of_nat nbuf));
  let buf := line ++ replicate (nbuf - length line) 0 in
  mret (if byte_at buf 0 =? 0 then -1 else 0, buf).

(** What the child does with the line. The parser stops with a message and
    [exit(1)] where it does not accept the line; the message is left out. *)
Definition run_line (buf : list Z) : itree sysE void :=
  match parsecmd buf (mkPst 0 0) with
  | Ok (r, _) => runcmd (strings r.2 r.1)
  | _ => exit 1
  end.

(** [buf[strlen(buf) - 1] = 0;] and the name behind ["cd "]. *)
Definition cd_name (buf : list Z) : list Z := cstr (drop 3 (<[(length (cstr buf) - 1)%nat := 0]> buf)).

Definition main_body : itree sysE bool :=
  x ← getcmd 100;
  let '(r, buf) := x in
  if r <? 0 then mret false
  else if (byte_at buf 0 =? 99) && (byte_at buf 1 =? 100) && (byte_at buf 2 =? 32) then
    r ← call (Chdir (cd_name buf));
    (if r <? 0 then fprintf stderr (text "cannot cd %s" ++ nl) [PStr (cd_name buf)] else mret tt);;
    mret true
  else
    pid ← fork1;
    (if pid =? 0 then v ← run_line buf; match v : void with end else mret tt);;
    call_ Wait;;
    mret true.

Definition open_console : itree sysE unit :=
  while (fd ← call (Open console O_RDWR);
         if fd <? 0 then mret false
         else if 3 <=? fd then call_ (Close fd);; mret false
         else mret true).

Fixpoint print_args (i : Z) (argv : list (list Z)) : itree sysE unit :=
  match argv with
  | [] => mret tt
  | a :: argv => printf (text "sh: argv[%d] = '%s'" ++ nl) [PInt i; PStr a];; print_args (i + 1) argv
  end.

Definition main (argv : list (list Z)) : itree sysE Z :=
  print_args 0 argv;;
  env ← call (Getenv (text "TEST_ENV"));
  (match env with
   | Some env => printf (text "sh: testenv = '%s'" ++ nl) [PStr env]
   | None => printf (text "sh: testenv not found!" ++ nl) []
   end);;
  open_console;;
  while main_body;;
  mret 0.
End Sh.
