(* ===== verification/ShFacts.v ===== *)
(** * Correctness of the shell's parser (src/user/sh/main.c)

    A grammar of command lines with the text of each, that [parsecmd] reads
    back from the text the command that was written, and that the parser ends
    on every input. *)
From S2P Require Import Prelude CString Sh.

Module ShFacts.
Import CString Sh.

(** ** The grammar *)
Inductive rkind : Type := RIn | ROut | RApp.
Definition redir : Type := rkind * list Z.

Inductive sline : Type := LEnd (p : spipe) (backs : nat) | LSeq (p : spipe) (backs : nat) (l : sline)
with spipe : Type := PEnd (e : sexec) | PPipe (e : sexec) (p : spipe)
with sexec : Type := Simple (rs : list redir) (args : list (list Z * list redir)) | Block (l : sline) (rs : list redir).

Scheme sline_mut := Induction for sline Sort Prop
with spipe_mut := Induction for spipe Sort Prop
with sexec_mut := Induction for sexec Sort Prop.
Combined Scheme grammar_ind from sline_mut, spipe_mut, sexec_mut.

(** Words and symbols; [43] stands for [>>]. *)
Inductive tok : Type := TW (w : list Z) | TS (c : Z).

Definition rcode (k : rkind) : Z := match k with RIn => 60 | ROut => 62 | RApp => 43 end.
Definition toks_redirs (rs : list redir) : list tok := concat ((fun r : redir => [TS (rcode r.1); TW r.2]) <$> rs).
Definition toks_args (args : list (list Z * list redir)) : list tok :=
  concat ((fun a : list Z * list redir => TW a.1 :: toks_redirs a.2) <$> args).

Fixpoint toks_line (l : sline) : list tok :=
  match l with
  | LEnd p n => toks_pipe p ++ replicate n (TS 38)
  | LSeq p n l => toks_pipe p ++ replicate n (TS 38) ++ TS 59 :: toks_line l
  end
with toks_pipe (p : spipe) : list tok :=
  match p with
  | PEnd e => toks_exec e
  | PPipe e p => toks_exec e ++ TS 124 :: toks_pipe p
  end
with toks_exec (e : sexec) : list tok :=
  match e with
  | Simple rs args => toks_redirs rs ++ toks_args args
  | Block l rs => TS 40 :: toks_line l ++ TS 41 :: toks_redirs rs
  end.

(** The text: each token with white space before it, and some at the end. *)
Definition tok_text (t : tok) : list Z := match t with TW w => w | TS c => if c =? 43 then [62; 62] else [c] end.
Fixpoint render (ts : list (list Z * tok)) (trail : list Z) : list Z :=
  match ts with [] => trail | (ws, t) :: ts => ws ++ tok_text t ++ render ts trail end.

(** The command that is meant. *)
Definition rmode (k : rkind) : Z := match k with RIn => O_RDONLY | _ => Z.lor O_WRONLY O_CREAT end.
Definition rfd (k : rkind) : Z := match k with RIn => 0 | _ => 1 end.
Definition rd (r : redir) : list Z * Z * Z := (r.2, rmode r.1, rfd r.1).
Definition wrap {A} (rs : list (A * Z * Z)) (c : cmd A) : cmd A := foldl (fun c r => REDIR c r.1.1 r.1.2 r.2) c rs.
Definition arg_redirs (args : list (list Z * list redir)) : list redir := concat (args.*2).

Fixpoint tree_line (l : sline) : cmd (list Z) :=
  match l with
  | LEnd p n => Nat.iter n BACK (tree_pipe p)
  | LSeq p n l => LIST (Nat.iter n BACK (tree_pipe p)) (tree_line l)
  end
with tree_pipe (p : spipe) : cmd (list Z) :=
  match p with
  | PEnd e => tree_exec e
  | PPipe e p => PIPE (tree_exec e) (tree_pipe p)
  end
with tree_exec (e : sexec) : cmd (list Z) :=
  match e with
  | Simple rs args => wrap (rd <$> (rs ++ arg_redirs args)) (EXEC (args.*1))
  | Block l rs => wrap (rd <$> rs) (tree_line l)
  end.

(** The memory that its structures take, and the depth of the calls. *)
Definition mem_redirs (rs : list redir) : Z := sizeof_redircmd * Z.of_nat (length rs).
Fixpoint mem_line (l : sline) : Z :=
  match l with
  | LEnd p n => mem_pipe p + sizeof_backcmd * Z.of_nat n
  | LSeq p n l => mem_pipe p + sizeof_backcmd * Z.of_nat n + mem_line l + sizeof_listcmd
  end
with mem_pipe (p : spipe) : Z :=
  match p with
  | PEnd e => mem_exec e
  | PPipe e p => mem_exec e + mem_pipe p + sizeof_pipecmd
  end
with mem_exec (e : sexec) : Z :=
  match e with
  | Simple rs args => sizeof_execcmd + mem_redirs rs + mem_redirs (arg_redirs args)
  | Block l rs => mem_line l + mem_redirs rs
  end.

Fixpoint depth_line (l : sline) : nat :=
  match l with LEnd p _ => S (depth_pipe p) | LSeq p _ l => S (Nat.max (depth_pipe p) (depth_line l)) end
with depth_pipe (p : spipe) : nat :=
  match p with PEnd e => S (depth_exec e) | PPipe e p => S (Nat.max (depth_exec e) (depth_pipe p)) end
with depth_exec (e : sexec) : nat :=
  match e with Simple _ _ => 1%nat | Block l _ => S (S (depth_line l)) end.

(** Words are not empty and hold neither white space nor symbols; a command
    has at most nine words. *)
Definition wordchar (c : Z) : bool := negb (strchr whitespace c) && negb (strchr symbols c).
Definition word_ok (w : list Z) : Prop := w <> [] /\ Forall (fun c => wordchar c = true) w.
Definition redirs_ok (rs : list redir) : Prop := Forall (fun r : redir => word_ok r.2) rs.

(** White space is needed only where two tokens would become one. *)
Definition white (c : Z) : bool := existsb (Z.eqb c) whitespace.
Definition apart (t : tok) (txt : list Z) : bool :=
  match t, txt with
  | TW _, c :: _ => negb (wordchar c)
  | TS c, c' :: _ => negb ((c =? 62) && (c' =? 62))
  | _, [] => true
  end.
Fixpoint render_ok (ts : list (list Z * tok)) (trail : list Z) : bool :=
  match ts with
  | [] => forallb white trail
  | (ws, t) :: ts => forallb white ws && apart t (render ts trail) && render_ok ts trail
  end.

Fixpoint line_ok (l : sline) : Prop :=
  match l with LEnd p _ => pipe_ok p | LSeq p _ l => pipe_ok p /\ line_ok l end
with pipe_ok (p : spipe) : Prop :=
  match p with PEnd e => exec_ok e | PPipe e p => exec_ok e /\ pipe_ok p end
with exec_ok (e : sexec) : Prop :=
  match e with
  | Simple rs args => redirs_ok rs /\ Forall (fun a : list Z * list redir => word_ok a.1 /\ redirs_ok a.2) args /\ Z.of_nat (length args) < MAXARGS
  | Block l rs => line_ok l /\ redirs_ok rs
  end.

Lemma mem_redirs_app rs rs' : mem_redirs (rs ++ rs') = mem_redirs rs + mem_redirs rs'.
Proof. unfold mem_redirs. rewrite length_app. lia. Qed.

Lemma mem_nonneg : (forall l, 0 <= mem_line l) /\ (forall p, 0 <= mem_pipe p) /\ (forall e, 0 <= mem_exec e).
Proof.
  unfold mem_line, mem_pipe, mem_exec, mem_redirs, sizeof_redircmd, sizeof_backcmd, sizeof_listcmd, sizeof_pipecmd, sizeof_execcmd.
  apply grammar_ind; intros; lia.
Qed.

Lemma depth_le : (forall l, (depth_line l <= 3 + 4 * length (toks_line l))%nat) /\
  (forall p, (depth_pipe p <= 2 + 4 * length (toks_pipe p))%nat) /\ (forall e, (depth_exec e <= 1 + 4 * length (toks_exec e))%nat).
Proof. apply grammar_ind; intros; simpl in *; rewrite ?length_app in *; simpl in *; rewrite ?length_app in *; simpl in *; lia. Qed.

Lemma cmd_map_wrap {A B} (f : A -> B) rs c :
  cmd_map f (wrap rs c) = wrap ((fun r => (f r.1.1, r.1.2, r.2)) <$> rs) (cmd_map f c).
Proof. revert c. induction rs as [|r rs IH]; intros c; [done|]. simpl. by rewrite IH. Qed.

Lemma fill_argv_wrap argv rs a : fill_argv argv (wrap rs (EXEC a)) = wrap rs (EXEC argv).
Proof.
  enough (forall c c', fill_argv argv c = c' -> fill_argv argv (wrap rs c) = wrap rs c') as H by (by apply H).
  induction rs as [|r rs IH]; intros c c' E; [done|]. simpl. apply IH. simpl. by rewrite E.
Qed.

Lemma wrap_app {A} (rs rs' : list (A * Z * Z)) c : wrap (rs ++ rs') c = wrap rs' (wrap rs c).
Proof. apply foldl_app. Qed.

(** ** The lexer *)
Section lex.
Context (buf : list Z) (es : nat).

Lemma skip_from_eq p n fuel s :
  (n <= fuel)%nat -> (s + n <= es)%nat -> (forall i, (i < n)%nat -> p (byte_at buf (s + i)%nat) = true) ->
  ((s + n)%nat = es \/ p (byte_at buf (s + n)%nat) = false) -> skip_from fuel p buf es s = (s + n)%nat.
Proof.
  revert n s. induction fuel as [|fuel IH]; intros n s Hn Hes Hp Hend; [simpl; lia|]. simpl. destruct n as [|n].
  - destruct Hend as [H|H]; rewrite Nat.add_0_r in H.
    + rewrite (proj2 (Nat.ltb_ge _ _)) by lia. simpl. lia.
    + rewrite H, andb_false_r. lia.
  - rewrite (proj2 (Nat.ltb_lt _ _)) by lia. pose proof (Hp 0%nat ltac:(lia)) as H0. rewrite Nat.add_0_r in H0. rewrite H0. simpl.
    rewrite (IH n (S s)); [lia|lia|lia| |].
    + intros i Hi. specialize (Hp (S i) ltac:(lia)). by rewrite Nat.add_succ_r in Hp.
    + destruct Hend as [H|H]; [left; lia|right]. by rewrite Nat.add_succ_r in H.
Qed.

Lemma skip_eq p n s :
  (s + n <= es)%nat -> (forall i, (i < n)%nat -> p (byte_at buf (s + i)%nat) = true) ->
  ((s + n)%nat = es \/ p (byte_at buf (s + n)%nat) = false) -> skip p buf es s = (s + n)%nat.
Proof. intros. apply skip_from_eq; [lia|done..]. Qed.

(** Where [skip] stops. *)
Lemma skip_spec p s :
  (s <= es)%nat -> exists n, skip p buf es s = (s + n)%nat /\ (s + n <= es)%nat /\
    (forall i, (i < n)%nat -> p (byte_at buf (s + i)%nat) = true) /\ ((s + n)%nat = es \/ p (byte_at buf (s + n)%nat) = false).
Proof.
  intros Hs. unfold skip. remember (es - s)%nat as k eqn:Ek. revert s Hs Ek. induction k as [|k IH]; intros s Hs Ek.
  - exists 0%nat. rewrite Nat.add_0_r. split; [done|]. split; [done|]. split; [lia|]. left. lia.
  - simpl. rewrite (proj2 (Nat.ltb_lt _ _)) by lia. destruct (p (byte_at buf s)) eqn:E; simpl.
    + destruct (IH (S s) ltac:(lia) ltac:(lia)) as (n & H1 & H2 & H3 & H4). exists (S n). rewrite H1, Nat.add_succ_r.
      split; [done|]. split; [lia|]. split; [|done]. intros [|i] Hi; [by rewrite Nat.add_0_r|]. rewrite Nat.add_succ_r. apply (H3 i). lia.
    + exists 0%nat. rewrite Nat.add_0_r. split; [done|]. split; [done|]. split; [lia|]. by right.
Qed.

Definition skipws (s : nat) : nat := skip (strchr whitespace) buf es s.

Lemma skipws_idem s : (s <= es)%nat -> skipws (skipws s) = skipws s.
Proof.
  intros Hs. destruct (skip_spec (strchr whitespace) s Hs) as (n & Hn & Hle & _ & Hend). unfold skipws at 2 3. rewrite Hn.
  unfold skipws. rewrite (skip_eq _ 0); rewrite ?Nat.add_0_r; [done|done|lia|done].
Qed.

Lemma skipws_le s : (s <= es)%nat -> (s <= skipws s <= es)%nat.
Proof. intros Hs. destruct (skip_spec (strchr whitespace) s Hs) as (n & Hn & Hle & _). unfold skipws. rewrite Hn. lia. Qed.

(** The text of a span, and spans that hold exactly a word. *)
Definition text (a : span) : list Z := slice a.1 (a.2 - a.1) buf.
Definition span_ok (a : span) : Prop :=
  (a.1 <= a.2 <= es)%nat /\ (forall i, (a.1 <= i < a.2)%nat -> wordchar (byte_at buf i) = true) /\
  (a.2 = es \/ wordchar (byte_at buf a.2) = false).

(** From [s] on the buffer holds the tokens [ts]. *)
Fixpoint lexes (s : nat) (ts : list tok) : Prop :=
  (s <= es)%nat /\
  match ts with
  | [] => skipws s = es
  | TW w :: ts' => exists q s', gettoken_at buf es s = (97, q, s') /\ text q = w /\ span_ok q /\
      wordchar (byte_at buf (skipws s)) = true /\ lexes s' ts'
  | TS c :: ts' => exists q s', gettoken_at buf es s = (c, q, s') /\ byte_at buf (skipws s) = (if c =? 43 then 62 else c) /\
      c ∈ [60; 124; 62; 38; 59; 40; 41; 43] /\ lexes s' ts'
  end.

Lemma lexes_le s ts : lexes s ts -> (s <= es)%nat.
Proof. destruct ts as [|[w|c] ts]; by intros [? _]. Qed.

Lemma gettoken_skipws s : (s <= es)%nat -> gettoken_at buf es (skipws s) = gettoken_at buf es s.
Proof. intros Hs. unfold gettoken_at. fold (skipws (skipws s)). by rewrite skipws_idem. Qed.

Lemma lexes_skipws s ts : lexes s ts -> lexes (skipws s) ts.
Proof.
  intros H. pose proof (lexes_le _ _ H) as Hs. pose proof (skipws_le s Hs) as Hle. destruct ts as [|[w|c] ts]; simpl in *; destruct H as [_ H].
  - split; [lia|]. by rewrite skipws_idem.
  - destruct H as (q & s' & H1 & H2 & H3 & H4 & H5). split; [lia|]. exists q, s'. rewrite gettoken_skipws, skipws_idem by done. done.
  - destruct H as (q & s' & H1 & H2 & H3 & H4). split; [lia|]. exists q, s'. rewrite gettoken_skipws, skipws_idem by done. done.
Qed.

(** The symbols that [peek] looks for. *)
Definition head_in (ts : list tok) (toks : list Z) : bool :=
  match ts with TS c :: _ => existsb (Z.eqb (if c =? 43 then 62 else c)) toks | _ => false end.

Context (Hes : byte_at buf es = 0).

Lemma peek_value s ts toks :
  lexes s ts -> Forall (fun c => c ∈ symbols) toks ->
  negb (byte_at buf (skipws s) =? 0) && strchr toks (byte_at buf (skipws s)) = head_in ts toks.
Proof using Hes.
  intros H Htoks. destruct ts as [|[w|c] ts]; simpl in *; destruct H as [_ H].
  - rewrite H, Hes. done.
  - destruct H as (q & s' & _ & _ & _ & Hw & _). unfold strchr. set (x := byte_at buf (skipws s)) in *. unfold wordchar, strchr in Hw.
    destruct (x =? 0) eqn:E0; [done|]. simpl in *. apply andb_prop in Hw as [_ Hw]. apply negb_true_iff in Hw.
    apply not_true_iff_false. intros He. apply existsb_exists in He as (c & Hc & Ec). apply Z.eqb_eq in Ec. subst c.
    rewrite Forall_forall in Htoks. specialize (Htoks x (proj2 (list_elem_of_In _ _) Hc)).
    assert (existsb (Z.eqb x) symbols = true) as Hx; [|simpl in Hx; congruence].
    apply existsb_exists. exists x. split; [by apply list_elem_of_In|apply Z.eqb_refl].
  - destruct H as (q & s' & _ & Hb & Hc & _). rewrite Hb. unfold strchr.
    assert (((if c =? 43 then 62 else c) =? 0) = false) as ->; [|done]. apply Z.eqb_neq. destruct (c =? 43); [done|].
    intros ->. revert Hc. apply (bool_decide_unpack _). vm_compute. exact I.
Qed.

(** *** The state before tokens [ts], with [m] bytes given out *)
Definition at_toks (ts : list tok) (m : Z) (st : pst) : Prop := lexes (ps st) ts /\ (length ts <= es)%nat /\ mem_used st = m.

Lemma peek_ok ts m toks st (Q : bool -> pst -> Prop) :
  at_toks ts m st -> Forall (fun c => c ∈ symbols) toks -> (forall st', at_toks ts m st' -> Q (head_in ts toks) st') -> wp (peek buf es toks) Q st.
Proof using Hes.
  intros (Hl & Hlen & Hm) Htoks HQ. unfold peek. apply wp_bind, wp_gets, wp_bind, wp_modify, wp_ret.
  fold (skipws (ps st)). rewrite (peek_value _ ts) by done. apply HQ. split; [by apply lexes_skipws|]. done.
Qed.

Lemma gettoken_sym c ts m st (Q : Z * span -> pst -> Prop) :
  at_toks (TS c :: ts) m st -> (forall q st', at_toks ts m st' -> Q (c, q) st') -> wp (gettoken buf es) Q st.
Proof using Hes.
  intros ((_ & q & s' & Hg & _ & _ & Hl) & Hlen & Hm) HQ. unfold gettoken. apply wp_bind, wp_gets. rewrite Hg.
  apply wp_bind, wp_modify, wp_ret, HQ. split; [done|]. split; [simpl in Hlen; lia|done].
Qed.

Lemma gettoken_word w ts m st (Q : Z * span -> pst -> Prop) :
  at_toks (TW w :: ts) m st -> (forall q st', text q = w -> span_ok q -> at_toks ts m st' -> Q (97, q) st') -> wp (gettoken buf es) Q st.
Proof using Hes.
  intros ((_ & q & s' & Hg & Hq & Hok & _ & Hl) & Hlen & Hm) HQ. unfold gettoken. apply wp_bind, wp_gets. rewrite Hg.
  apply wp_bind, wp_modify, wp_ret, HQ; [done|done|]. split; [done|]. split; [simpl in Hlen; lia|done].
Qed.

Lemma gettoken_end m st (Q : Z * span -> pst -> Prop) :
  at_toks [] m st -> (forall q st', at_toks [] m st' -> Q (0, q) st') -> wp (gettoken buf es) Q st.
Proof using Hes.
  intros ((Hle & Hl) & Hlen & Hm) HQ. unfold gettoken. apply wp_bind, wp_gets. unfold gettoken_at. fold (skipws (ps st)). rewrite Hl, Hes. simpl.
  apply wp_bind, wp_modify, wp_ret, HQ. split; [|done].
  assert (skip (strchr whitespace) buf es es = es) as E by (rewrite (skip_eq _ 0); lia).
  simpl. rewrite E. split; [done|]. exact E.
Qed.

Lemma malloc1_ok ts m sz st (Q : unit -> pst -> Prop) :
  at_toks ts m st -> m + sz <= MAXN -> (forall st', at_toks ts (m + sz) st' -> Q tt st') -> wp (malloc1 sz) Q st.
Proof.
  intros (Hl & Hlen & Hm) Hsz HQ. unfold malloc1. apply wp_bind, wp_gets, wp_bind, wp_modify. rewrite Hm.
  apply wp_assert; [by apply Z.leb_le|]. apply HQ. by split.
Qed.
End lex.

(** ** The parser *)
Section parser.
Context (buf : list Z) (es : nat) (Hes : byte_at buf es = 0).

(** All spans of a command. *)
Fixpoint spans (c : cmd span) : list span :=
  match c with
  | EXEC argv => argv
  | REDIR c file _ _ => spans c ++ [file]
  | PIPE l r => spans l ++ spans r
  | LIST l r => spans l ++ spans r
  | BACK c => spans c
  end.
Definition cmd_ok (c : cmd span) : Prop := Forall (span_ok buf es) (spans c).

Lemma spans_wrap rs c : spans (wrap rs c) ≡ₚ rs.*1.*1 ++ spans c.
Proof.
  revert c. induction rs as [|r rs IH]; intros c; [done|]. simpl. rewrite IH. simpl. rewrite (Permutation_app_comm (spans c)). by rewrite Permutation_middle.
Qed.

Definition text_redir (r : span * Z * Z) : list Z * Z * Z := (text buf r.1.1, r.1.2, r.2).

Ltac toks_in := repeat (apply Forall_cons_2; [apply (bool_decide_unpack _); vm_compute; exact I|]); apply Forall_nil_2.

Lemma parseredirs_ok rs fuel c ts m st (Q : cmd span -> pst -> Prop) :
  (length rs < fuel)%nat -> head_in ts [60; 62] = false -> redirs_ok rs -> at_toks buf es (toks_redirs rs ++ ts) m st -> m + mem_redirs rs <= MAXN ->
  (forall rsp st', text_redir <$> rsp = rd <$> rs -> Forall (span_ok buf es) (rsp.*1.*1) -> at_toks buf es ts (m + mem_redirs rs) st' -> Q (wrap rsp c) st') ->
  wp (parseredirs buf es fuel c) Q st.
Proof using Hes.
  intros Hf Hts. revert fuel c m st Q Hf. induction rs as [|[k w] rs IH]; intros fuel c m st Q Hf Hok Hat Hm HQ; (destruct fuel as [|fuel]; [simpl in Hf; lia|]); cbn [parseredirs].
  - apply wp_bind. apply (peek_ok buf es Hes ts m); [done|toks_in|]. intros st' Hat'. rewrite Hts. apply wp_ret.
    apply (HQ [] st'); [done|done|]. unfold mem_redirs in *. simpl in *. by rewrite Z.add_0_r in *.
  - apply Forall_cons in Hok as [Hw Hok]. unfold mem_redirs in *. simpl length in *. unfold sizeof_redircmd in *.
    apply wp_bind. apply (peek_ok buf es Hes (TS (rcode k) :: TW w :: toks_redirs rs ++ ts) m); [done|toks_in|]. intros st1 Hat1.
    assert (head_in (TS (rcode k) :: TW w :: toks_redirs rs ++ ts) [60; 62] = true) as -> by (by destruct k).
    apply wp_bind. apply (gettoken_sym buf es Hes _ _ _ _ _ Hat1). intros q1 st2 Hat2.
    apply wp_bind. apply (gettoken_word buf es Hes _ _ _ _ _ Hat2). intros q2 st3 Hq2 Hok2 Hat3.
    apply wp_bind, wp_assert; [done|]. apply wp_bind.
    assert (wp (redircmd c q2 (rmode k) (rfd k)) (fun c' => wp (parseredirs buf es fuel c') Q) st3) as Hgoal.
    { unfold redircmd. apply wp_bind. apply (malloc1_ok buf es _ _ _ _ _ Hat3); [unfold sizeof_redircmd; lia|]. intros st4 Hat4. apply wp_ret.
      apply (IH fuel _ _ _ _ ltac:(lia) Hok Hat4); [unfold sizeof_redircmd; lia|].
      intros rsp st5 Htext Hsp Hat5. apply (HQ ((q2, rmode k, rfd k) :: rsp) st5).
      - rewrite !fmap_cons, Htext. unfold text_redir, rd. simpl. by rewrite Hq2.
      - simpl. by constructor.
      - unfold sizeof_redircmd in *. replace (m + 40 * Z.of_nat (S (length rs))) with (m + 40 + 40 * Z.of_nat (length rs)) by lia. done. }
    by destruct k.
Qed.

(** What may follow. *)
Definition follows (l : list Z) (ts : list tok) : Prop := ts = [] \/ head_in ts l = true.
(** Commands end before these. *)
Definition stops : list tok -> Prop := follows [124; 41; 38; 59].

Lemma follows_mono l l' ts : l ⊆ l' -> follows l ts -> follows l' ts.
Proof.
  intros Hl [->|H]; [by left|right]. destruct ts as [|[w|c] ts]; [done..|]. simpl in *. apply existsb_exists in H as (x & Hx & E).
  apply existsb_exists. exists x. split; [|done]. apply list_elem_of_In, Hl. by apply list_elem_of_In.
Qed.

Lemma follows_not l l' ts : follows l ts -> Forall (fun c => c ∉ l') l -> head_in ts l' = false.
Proof.
  intros [->|H] Hl; [done|]. destruct ts as [|[w|c] ts]; [done..|]. simpl in *. apply existsb_exists in H as (x & Hx & E). apply Z.eqb_eq in E as ->.
  apply not_true_iff_false. intros H'. apply existsb_exists in H' as (y & Hy & E). apply Z.eqb_eq in E as ->.
  rewrite Forall_forall in Hl. eapply Hl; by apply list_elem_of_In.
Qed.

(** What does not follow. *)
Ltac follow_out H := apply (follows_not _ _ _ H); toks_in.

Lemma follows_head l c ts : existsb (Z.eqb (if c =? 43 then 62 else c)) l = true -> follows l (TS c :: ts).
Proof. by right. Qed.

Lemma head_args args ts toks : head_in ts toks = false -> head_in (toks_args args ++ ts) toks = false.
Proof. by destruct args. Qed.

Lemma length_toks_redirs rs : length (toks_redirs rs) = (2 * length rs)%nat.
Proof. unfold toks_redirs. induction rs as [|r rs IH]; [done|]. rewrite fmap_cons. cbn [concat length app]. rewrite IH. lia. Qed.

Lemma length_toks_args args : (length args + 2 * length (arg_redirs args) <= length (toks_args args))%nat.
Proof.
  induction args as [|[w rs] args IH]; [simpl; lia|]. unfold toks_args, arg_redirs in *. rewrite !fmap_cons. cbn [concat length app fst snd].
  rewrite !length_app, length_toks_redirs. lia.
Qed.

Lemma parseargs_ok args fuel argv rsp ts m st (Q : cmd span -> pst -> Prop) :
  (length args < fuel)%nat -> stops ts -> Forall (fun a : list Z * list redir => word_ok a.1 /\ redirs_ok a.2) args ->
  Z.of_nat (length argv + length args) < MAXARGS -> at_toks buf es (toks_args args ++ ts) m st -> m + mem_redirs (arg_redirs args) <= MAXN ->
  (forall argv' rsp' st', text buf <$> argv' = args.*1 -> text_redir <$> rsp' = rd <$> arg_redirs args ->
     Forall (span_ok buf es) argv' -> Forall (span_ok buf es) (rsp'.*1.*1) -> at_toks buf es ts (m + mem_redirs (arg_redirs args)) st' ->
     Q (wrap (rsp ++ rsp') (EXEC (argv ++ argv'))) st') ->
  wp (parseargs buf es fuel argv (wrap rsp (EXEC []))) Q st.
Proof using Hes.
  intros Hf Hts. assert (head_in ts [60; 62] = false) as Hts1 by follow_out Hts. revert fuel argv rsp m st Q Hf.
  induction args as [|[w rs] args IH]; intros fuel argv rsp m st Q Hf Hok Hn Hat Hm HQ; (destruct fuel as [|fuel]; [simpl in Hf; lia|]); cbn [parseargs].
  - assert (forall st', at_toks buf es ts m st' -> wp (mret (fill_argv argv (wrap rsp (EXEC [])))) Q st') as Hret.
    { intros st' Hat'. apply wp_ret. rewrite fill_argv_wrap. specialize (HQ [] [] st'). rewrite !app_nil_r in HQ. apply HQ; try done.
      unfold mem_redirs. simpl. by rewrite Z.add_0_r. }
    apply wp_bind. apply (peek_ok buf es Hes ts m); [done|toks_in|]. intros st1 Hat1. destruct Hts as [->|Hts]; [|rewrite Hts; by apply Hret].
    simpl. apply wp_bind. apply (gettoken_end buf es Hes _ _ _ Hat1). intros q st2 Hat2. simpl. by apply Hret.
  - apply Forall_cons in Hok as [[Hw Hrs] Hok]. simpl in Hw, Hrs. change (arg_redirs ((w, rs) :: args)) with (rs ++ arg_redirs args) in *.
    rewrite mem_redirs_app in Hm. unfold toks_args in Hat. rewrite fmap_cons in Hat. cbn [concat] in Hat. cbn [fst snd app] in Hat. rewrite <- app_assoc in Hat.
    fold (toks_args args) in Hat. assert (0 <= mem_redirs (arg_redirs args)) by (unfold mem_redirs, sizeof_redircmd; lia).
    apply wp_bind. eapply (peek_ok buf es Hes _ m); [exact Hat|toks_in|]. intros st1 Hat1. cbn [head_in].
    apply wp_bind. apply (gettoken_word buf es Hes _ _ _ _ _ Hat1). intros q st2 Hq Hqok Hat2. simpl (97 =? 0). cbn iota.
    apply wp_bind, wp_assert; [done|]. apply wp_bind, wp_assert.
    { apply negb_true_iff, Z.leb_gt. rewrite length_app. simpl in *. lia. }
    apply wp_bind. pose proof Hat2 as (_ & Hlen & _). rewrite !length_app, length_toks_redirs in Hlen.
    apply (parseredirs_ok rs _ _ (toks_args args ++ ts) m); [lia|by apply head_args|done|exact Hat2|lia|].
    intros rsp1 st3 Ht1 Hok1 Hat3. rewrite <- wrap_app. apply (IH _ _ _ (m + mem_redirs rs)); [simpl in Hf; lia|done| |done|lia|].
    { rewrite length_app. simpl in *. lia. }
    intros argv' rsp' st4 Ha Hr Haok Hrok Hat4. rewrite <- !app_assoc. apply HQ.
    + rewrite fmap_app, Ha. simpl. by rewrite Hq.
    + by rewrite !fmap_app, Ht1, Hr.
    + by constructor.
    + rewrite !fmap_app. by apply Forall_app.
    + by rewrite mem_redirs_app, Z.add_assoc.
Qed.

Lemma parsebacks_ok n fuel c ts m st (Q : cmd span -> pst -> Prop) :
  (n < fuel)%nat -> head_in ts [38] = false -> at_toks buf es (replicate n (TS 38) ++ ts) m st -> m + sizeof_backcmd * Z.of_nat n <= MAXN ->
  (forall st', at_toks buf es ts (m + sizeof_backcmd * Z.of_nat n) st' -> Q (Nat.iter n BACK c) st') -> wp (parsebacks buf es fuel c) Q st.
Proof using Hes.
  intros Hf Hts. revert fuel c m st Q Hf. unfold sizeof_backcmd. induction n as [|n IH]; intros fuel c m st Q Hf Hat Hm HQ; (destruct fuel as [|fuel]; [lia|]); cbn [parsebacks].
  - apply wp_bind. apply (peek_ok buf es Hes ts m); [done|toks_in|]. intros st' Hat'. rewrite Hts. apply wp_ret, HQ.
    replace (m + 16 * Z.of_nat 0) with m by lia. done.
  - apply wp_bind. eapply (peek_ok buf es Hes _ m); [exact Hat|toks_in|]. intros st1 Hat1. simpl head_in. cbn iota.
    apply wp_bind. apply (gettoken_sym buf es Hes _ _ _ _ _ Hat1). intros q st2 Hat2.
    apply wp_bind. unfold backcmd. apply wp_bind. apply (malloc1_ok buf es _ _ _ _ _ Hat2); [unfold sizeof_backcmd; lia|]. intros st3 Hat3. apply wp_ret.
    apply (IH fuel _ _ _ _ ltac:(lia) Hat3); [unfold sizeof_backcmd; lia|]. intros st4 Hat4.
    rewrite <- Nat.iter_succ_r. apply HQ. unfold sizeof_backcmd in *. by replace (m + 16 * Z.of_nat (S n)) with (m + 16 + 16 * Z.of_nat n) by lia.
Qed.

Lemma cmd_iter_back n c : cmd_map (text buf) (Nat.iter n BACK c) = Nat.iter n BACK (cmd_map (text buf) c) /\ spans (Nat.iter n BACK c) = spans c.
Proof. induction n as [|n [IH1 IH2]]; [done|]. simpl. by rewrite IH1, IH2. Qed.

(** What a parsing function does before the tokens of [ts]. *)
Definition parses (p : M pst (cmd span)) (toks : list tok) (mem : Z) (t : cmd (list Z)) (ts : list tok) : Prop :=
  forall m st (Q : cmd span -> pst -> Prop), at_toks buf es (toks ++ ts) m st -> m + mem <= MAXN ->
    (forall c st', cmd_map (text buf) c = t -> cmd_ok c -> at_toks buf es ts (m + mem) st' -> Q c st') -> wp p Q st.

Lemma parses_simple rs args fuel ts :
  stops ts -> exec_ok (Simple rs args) -> (1 <= fuel)%nat ->
  parses (parse buf es fuel ParseExec) (toks_exec (Simple rs args)) (mem_exec (Simple rs args)) (tree_exec (Simple rs args)) ts.
Proof using Hes.
  intros Hts (Hrs & Hargs & Hn) Hf m st Q Hat Hm HQ. destruct fuel as [|fuel]; [lia|]. cbn [parse]. unfold parseexec. cbn [toks_exec] in Hat. rewrite <- app_assoc in Hat.
  simpl mem_exec in *. assert (0 <= mem_redirs rs /\ 0 <= mem_redirs (arg_redirs args)) as [??] by (unfold mem_redirs, sizeof_redircmd; lia).
  apply wp_bind. apply (peek_ok buf es Hes _ m _ _ _ Hat); [toks_in|]. intros st1 Hat1.
  assert (head_in (toks_redirs rs ++ toks_args args ++ ts) [40] = false) as ->.
  { destruct rs as [|[[] w] rs]; [|done..]. destruct args as [|[w l] args]; [|done]. by follow_out Hts. }
  apply wp_bind. unfold execcmd. apply wp_bind. apply (malloc1_ok buf es _ _ _ _ _ Hat1); [lia|]. intros st2 Hat2. apply wp_ret.
  pose proof Hat2 as (_ & Hlen & _). rewrite !length_app, length_toks_redirs in Hlen. pose proof (length_toks_args args).
  apply wp_bind. apply (parseredirs_ok rs _ _ (toks_args args ++ ts) (m + sizeof_execcmd)); [lia|apply head_args; follow_out Hts|done|exact Hat2|lia|].
  intros rsp st3 Ht1 Hok1 Hat3. apply (parseargs_ok args _ _ _ ts (m + sizeof_execcmd + mem_redirs rs)); [lia|done|done|done|exact Hat3|lia|].
  intros argv rsp' st4 Ha Hr Haok Hrok Hat4. simpl. apply HQ.
  - rewrite cmd_map_wrap, fmap_app. change (fun r => (text buf r.1.1, r.1.2, r.2)) with text_redir. rewrite Ht1, Hr, <- fmap_app. simpl. by rewrite Ha.
  - unfold cmd_ok. rewrite spans_wrap, !fmap_app. apply Forall_app; split; [by apply Forall_app|done].
  - by rewrite !Z.add_assoc.
Qed.

Lemma parses_block l rs fuel ts :
  stops ts -> redirs_ok rs -> parses (parse buf es fuel ParseLine) (toks_line l) (mem_line l) (tree_line l) (TS 41 :: toks_redirs rs ++ ts) ->
  parses (parse buf es (S (S fuel)) ParseExec) (toks_exec (Block l rs)) (mem_exec (Block l rs)) (tree_exec (Block l rs)) ts.
Proof using Hes.
  intros Hts Hrs Hl m st Q Hat Hm HQ. cbn [parse]. unfold parseexec, parseblock. cbn [toks_exec app] in Hat. rewrite <- app_assoc in Hat. cbn [app] in Hat.
  simpl mem_exec in *. assert (0 <= mem_redirs rs) by (unfold mem_redirs, sizeof_redircmd; lia).
  apply wp_bind. apply (peek_ok buf es Hes _ m _ _ _ Hat); [toks_in|]. intros st1 Hat1. simpl head_in. cbn iota.
  apply wp_bind. apply (peek_ok buf es Hes _ m _ _ _ Hat1); [toks_in|]. intros st2 Hat2. simpl head_in. apply wp_bind, wp_assert; [done|].
  apply wp_bind. apply (gettoken_sym buf es Hes _ _ _ _ _ Hat2). intros q3 st3 Hat3.
  apply wp_bind. apply (Hl m _ _ Hat3); [lia|]. intros c st4 Hc Hok Hat4.
  apply wp_bind. apply (peek_ok buf es Hes _ _ _ _ _ Hat4); [toks_in|]. intros st5 Hat5. simpl head_in. apply wp_bind, wp_assert; [done|].
  apply wp_bind. apply (gettoken_sym buf es Hes _ _ _ _ _ Hat5). intros q6 st6 Hat6.
  pose proof Hat6 as (_ & Hlen & _). rewrite length_app, length_toks_redirs in Hlen.
  apply (parseredirs_ok rs _ _ ts (m + mem_line l)); [lia|by follow_out Hts|done|exact Hat6|lia|].
  intros rsp st7 Ht1 Hok1 Hat7. apply HQ.
  - rewrite cmd_map_wrap. change (fun r => (text buf r.1.1, r.1.2, r.2)) with text_redir. by rewrite Ht1, Hc.
  - unfold cmd_ok. rewrite spans_wrap. by apply Forall_app.
  - by rewrite Z.add_assoc.
Qed.

Lemma parses_pipe e p fuel ts :
  parses (parse buf es fuel ParseExec) (toks_exec e) (mem_exec e) (tree_exec e) (TS 124 :: toks_pipe p ++ ts) ->
  parses (parse buf es fuel ParsePipe) (toks_pipe p) (mem_pipe p) (tree_pipe p) ts ->
  parses (parse buf es (S fuel) ParsePipe) (toks_pipe (PPipe e p)) (mem_pipe (PPipe e p)) (tree_pipe (PPipe e p)) ts.
Proof using Hes.
  intros He Hp m st Q Hat Hm HQ. cbn [parse]. unfold parsepipe. simpl toks_pipe in Hat. rewrite <- app_assoc in Hat. cbn [app] in Hat. simpl mem_pipe in *.
  destruct mem_nonneg as (_ & Hmp & Hme). specialize (Hmp p). specialize (Hme e). unfold sizeof_pipecmd in *.
  apply wp_bind. apply (He m _ _ Hat); [lia|]. intros c1 st1 Hc1 Hok1 Hat1.
  apply wp_bind. apply (peek_ok buf es Hes _ _ _ _ _ Hat1); [toks_in|]. intros st2 Hat2. simpl head_in. cbn iota.
  apply wp_bind. apply (gettoken_sym buf es Hes _ _ _ _ _ Hat2). intros q3 st3 Hat3.
  apply wp_bind. apply (Hp _ _ _ Hat3); [lia|]. intros c4 st4 Hc4 Hok4 Hat4.
  unfold pipecmd. apply wp_bind. apply (malloc1_ok buf es _ _ _ _ _ Hat4); [unfold sizeof_pipecmd; lia|]. intros st5 Hat5. apply wp_ret.
  apply HQ; [simpl; by rewrite Hc1, Hc4|by apply Forall_app|]. unfold sizeof_pipecmd in *. by rewrite <- !Z.add_assoc in *.
Qed.

Lemma parses_pend e fuel ts :
  head_in ts [124] = false -> parses (parse buf es fuel ParseExec) (toks_exec e) (mem_exec e) (tree_exec e) ts ->
  parses (parse buf es (S fuel) ParsePipe) (toks_pipe (PEnd e)) (mem_pipe (PEnd e)) (tree_pipe (PEnd e)) ts.
Proof using Hes.
  intros Hts He m st Q Hat Hm HQ. cbn [parse]. unfold parsepipe. apply wp_bind. apply (He m _ _ Hat); [done|]. intros c1 st1 Hc1 Hok1 Hat1.
  apply wp_bind. apply (peek_ok buf es Hes _ _ _ _ _ Hat1); [toks_in|]. intros st2 Hat2. rewrite Hts. by apply wp_ret, HQ.
Qed.

(** A pipeline and the [&]s behind it. *)
Lemma parses_backs p n fuel k ts :
  head_in ts [38] = false -> parses (parse buf es fuel ParsePipe) (toks_pipe p) (mem_pipe p) (tree_pipe p) (replicate n (TS 38) ++ ts) ->
  forall m st (Q : cmd span -> pst -> Prop), at_toks buf es (toks_pipe p ++ replicate n (TS 38) ++ ts) m st -> m + (mem_pipe p + sizeof_backcmd * Z.of_nat n) <= MAXN ->
    (forall c st', cmd_map (text buf) c = Nat.iter n BACK (tree_pipe p) -> cmd_ok c ->
       at_toks buf es ts (m + (mem_pipe p + sizeof_backcmd * Z.of_nat n)) st' -> wp (k c) Q st') ->
    wp (cmd ← parse buf es fuel ParsePipe; cmd ← parsebacks buf es (S es) cmd; k cmd) Q st.
Proof using Hes.
  intros Hts Hp m st Q Hat Hm HQ. unfold sizeof_backcmd in *. apply wp_bind. apply (Hp m _ _ Hat); [lia|]. intros c1 st1 Hc1 Hok1 Hat1.
  pose proof Hat1 as (_ & Hlen & _). rewrite length_app, length_replicate in Hlen. rewrite Z.add_assoc in *.
  apply wp_bind. apply (parsebacks_ok n _ _ ts (m + mem_pipe p)); [lia|done|done|unfold sizeof_backcmd; lia|]. intros st2 Hat2.
  destruct (cmd_iter_back n c1) as [H1 H2]. apply HQ; [by rewrite H1, Hc1|unfold cmd_ok; by rewrite H2|done].
Qed.

Lemma parses_lend p n fuel ts :
  follows [41] ts -> parses (parse buf es fuel ParsePipe) (toks_pipe p) (mem_pipe p) (tree_pipe p) (replicate n (TS 38) ++ ts) ->
  parses (parse buf es (S fuel) ParseLine) (toks_line (LEnd p n)) (mem_line (LEnd p n)) (tree_line (LEnd p n)) ts.
Proof using Hes.
  intros Hts Hp m st Q Hat Hm HQ. cbn [parse]. unfold parseline. simpl toks_line in Hat. rewrite <- app_assoc in Hat.
  assert (head_in ts [38] = false /\ head_in ts [59] = false) as [H38 H59] by (split; follow_out Hts).
  apply (parses_backs p n fuel _ ts H38 Hp m _ _ Hat Hm). intros c1 st1 Hc1 Hok1 Hat1.
  apply wp_bind. apply (peek_ok buf es Hes _ _ _ _ _ Hat1); [toks_in|]. intros st2 Hat2.
  rewrite H59. by apply wp_ret, HQ.
Qed.

Lemma parses_lseq p n l fuel ts :
  parses (parse buf es fuel ParsePipe) (toks_pipe p) (mem_pipe p) (tree_pipe p) (replicate n (TS 38) ++ TS 59 :: toks_line l ++ ts) ->
  parses (parse buf es fuel ParseLine) (toks_line l) (mem_line l) (tree_line l) ts ->
  parses (parse buf es (S fuel) ParseLine) (toks_line (LSeq p n l)) (mem_line (LSeq p n l)) (tree_line (LSeq p n l)) ts.
Proof using Hes.
  intros Hp Hl m st Q Hat Hm HQ. cbn [parse]. unfold parseline. simpl toks_line in Hat. rewrite <- !app_assoc in Hat. cbn [app] in Hat. simpl mem_line in *.
  destruct mem_nonneg as (Hml & _). specialize (Hml l). unfold sizeof_listcmd in *.
  apply (parses_backs p n fuel _ (TS 59 :: toks_line l ++ ts) eq_refl Hp m _ _ Hat ltac:(lia)). intros c1 st1 Hc1 Hok1 Hat1.
  apply wp_bind. apply (peek_ok buf es Hes _ _ _ _ _ Hat1); [toks_in|]. intros st2 Hat2. simpl head_in. cbn iota.
  apply wp_bind. apply (gettoken_sym buf es Hes _ _ _ _ _ Hat2). intros q3 st3 Hat3.
  apply wp_bind. apply (Hl _ _ _ Hat3); [lia|]. intros c4 st4 Hc4 Hok4 Hat4.
  unfold listcmd. apply wp_bind. apply (malloc1_ok buf es _ _ _ _ _ Hat4); [unfold sizeof_listcmd; lia|]. intros st5 Hat5. apply wp_ret.
  apply HQ; [simpl; by rewrite Hc1, Hc4|by apply Forall_app|]. unfold sizeof_listcmd in *. by rewrite <- !Z.add_assoc in *.
Qed.

Lemma follows_backs n l ts : 38 ∈ l -> follows l ts -> follows l (replicate n (TS 38) ++ ts).
Proof. intros Hl Hts. destruct n as [|n]; [done|]. right. simpl. apply existsb_exists. exists 38. split; [by apply list_elem_of_In|done]. Qed.

Lemma parses_all :
  (forall l, line_ok l -> forall fuel ts, (depth_line l <= fuel)%nat -> follows [41] ts ->
     parses (parse buf es fuel ParseLine) (toks_line l) (mem_line l) (tree_line l) ts) /\
  (forall p, pipe_ok p -> forall fuel ts, (depth_pipe p <= fuel)%nat -> follows [41; 38; 59] ts ->
     parses (parse buf es fuel ParsePipe) (toks_pipe p) (mem_pipe p) (tree_pipe p) ts) /\
  (forall e, exec_ok e -> forall fuel ts, (depth_exec e <= fuel)%nat -> stops ts ->
     parses (parse buf es fuel ParseExec) (toks_exec e) (mem_exec e) (tree_exec e) ts).
Proof using Hes.
  apply grammar_ind.
  - intros p IH n Hok [|fuel] ts Hf Hts; simpl in Hf; [lia|]. apply parses_lend; [done|]. apply IH; [done|lia|].
    apply follows_backs; [set_solver|]. by apply (follows_mono [41]); [set_solver|].
  - intros p IH n l IHl [Hok Hokl] [|fuel] ts Hf Hts; simpl in Hf; [lia|]. apply parses_lseq; [|by apply IHl; [|lia|]].
    apply IH; [done|lia|]. apply follows_backs; [set_solver|]. by apply follows_head.
  - intros e IH Hok [|fuel] ts Hf Hts; simpl in Hf; [lia|]. apply parses_pend; [by follow_out Hts|].
    apply IH; [done|lia|]. by apply (follows_mono [41; 38; 59]); [set_solver|].
  - intros e IH p IHp [Hok Hokp] [|fuel] ts Hf Hts; simpl in Hf; [lia|]. apply parses_pipe; [|by apply IHp; [|lia|]].
    apply IH; [done|lia|]. by apply follows_head.
  - intros rs args Hok fuel ts Hf Hts. simpl in Hf. by apply parses_simple.
  - intros l IH rs [Hok Hrs] fuel ts Hf Hts. simpl in Hf. destruct fuel as [|[|fuel]]; [lia..|]. apply parses_block; [done|done|].
    apply IH; [done|lia|]. by apply follows_head.
Qed.
End parser.

(** ** From the text to the tokens *)
Lemma byte_at_app s l i : byte_at (s ++ l) (length s + i) = byte_at l i.
Proof. unfold byte_at. by rewrite lookup_app_r, Nat.add_sub' by lia. Qed.

Lemma byte_at_in s l i : (i < length s)%nat -> byte_at (s ++ l) i = byte_at s i.
Proof. intros Hi. unfold byte_at. by rewrite lookup_app_l. Qed.

Lemma forall_byte_at (p : Z -> bool) l i : Forall (fun c => p c = true) l -> (i < length l)%nat -> p (byte_at l i) = true.
Proof. intros Hl Hi. rewrite Forall_lookup in Hl. apply (Hl i). by apply lookup_byte_at. Qed.

(** [skip] over a part of the buffer. *)
Lemma skip_app p pre w rest :
  Forall (fun c => p c = true) w -> (rest = [] \/ p (byte_at rest 0) = false) -> forall junk,
  skip p (pre ++ w ++ rest ++ 0 :: junk) (length pre + length w + length rest) (length pre) = (length pre + length w)%nat.
Proof.
  intros Hw Hrest junk. apply skip_eq; [lia| |].
  - intros i Hi. rewrite byte_at_app, byte_at_in by done. by apply forall_byte_at.
  - rewrite byte_at_app. destruct rest as [|c rest]; [left; simpl; lia|right]. destruct Hrest as [?|Hc]; [done|].
    rewrite <- (Nat.add_0_r (length w)), byte_at_app. done.
Qed.

Definition tok_ok (t : tok) : Prop := match t with TW w => word_ok w | TS c => c ∈ [60; 124; 62; 38; 59; 40; 41; 43] end.

Lemma white_strchr l : forallb white l = true -> Forall (fun c => strchr whitespace c = true) l.
Proof.
  intros H. rewrite forallb_forall in H. apply Forall_forall. intros c Hc. apply orb_true_iff. right.
  apply H. by apply list_elem_of_In.
Qed.

Lemma wordchar_not c : wordchar c = true -> strchr whitespace c = false /\ strchr symbols c = false.
Proof. unfold wordchar. intros [H1%negb_true_iff H2%negb_true_iff]%andb_prop. done. Qed.

Lemma tok_first t : tok_ok t -> exists c l, tok_text t = c :: l /\ strchr whitespace c = false.
Proof.
  destruct t as [[|c w]|c]; simpl.
  - intros [? _]. done.
  - intros [_ H]. apply Forall_cons in H as [H _]. exists c, w. by apply wordchar_not in H as [??].
  - intros H. repeat (apply elem_of_cons in H as [->|H]; [by eexists _, _|]). by apply elem_of_nil in H.
Qed.

Definition tok_code (t : tok) : Z := match t with TW _ => 97 | TS c => c end.

Lemma gettoken_app pre t rest junk buf es :
  tok_ok t -> apart t rest = true -> buf = pre ++ tok_text t ++ rest ++ 0 :: junk -> es = (length pre + length (tok_text t) + length rest)%nat ->
  gettoken_at buf es (length pre) =
    (tok_code t, (length pre, length pre + length (tok_text t))%nat, skipws buf es (length pre + length (tok_text t))).
Proof.
  intros Ht Ha Hb He. destruct (tok_first t Ht) as (c & l & Htx & Hc). unfold gettoken_at.
  assert (skip (strchr whitespace) buf es (length pre) = length pre) as ->.
  { rewrite (skip_eq _ _ _ 0), Nat.add_0_r; [done|lia|lia|right]. rewrite Nat.add_0_r, Hb, Htx, <- (Nat.add_0_r (length pre)), byte_at_app. done. }
  assert (byte_at buf (length pre) = c) as Hb0 by (rewrite Hb, Htx, <- (Nat.add_0_r (length pre)), byte_at_app; done).
  rewrite Hb0. destruct t as [w|c'].
  - simpl in *. subst w. destruct Ht as [_ Hw]. pose proof Hw as Hw'. apply Forall_cons in Hw' as [Hcw _]. apply wordchar_not in Hcw as [_ Hs].
    unfold strchr in Hs. simpl in Hs. rewrite !orb_false_iff in Hs. destruct Hs as (E0 & E1 & E2 & E3 & E4 & E5 & E6 & E7 & _).
    rewrite E0. simpl. rewrite E1, E2, E3, E4, E5, E6, E7. simpl.
    assert (skip wordchar buf es (length pre) = (length pre + length (c :: l))%nat) as Hk; [|unfold wordchar in Hk; by rewrite Hk].
    rewrite Hb, He. apply skip_app; [done|]. destruct rest as [|x rest]; [by left|right]. simpl in Ha. by apply negb_true_iff in Ha.
  - simpl in Ht. unfold tok_text in *. simpl tok_code.
    assert (c' = 62 -> (byte_at buf (S (length pre)) =? 62) = false) as Hgt.
    { intros ->. simpl in *. injection Htx as <- <-. rewrite Hb, <- Nat.add_1_r, byte_at_app. destruct rest as [|x rest]; [done|].
      unfold byte_at. simpl in *. destruct (x =? 62); done. }
    assert (c' = 43 -> (byte_at buf (S (length pre)) =? 62) = true) as Hgg.
    { intros ->. simpl in *. by rewrite Hb, <- Nat.add_1_r, byte_at_app. }
    repeat (apply elem_of_cons in Ht as [->|Ht]; [simpl in *; injection Htx as <- <-; rewrite ?Hgt, ?Hgg by done; simpl; rewrite ?Nat.add_succ_r, ?Nat.add_0_r; done|]).
    by apply elem_of_nil in Ht.
Qed.

Lemma text_app pre w rest : text (pre ++ w ++ rest) (length pre, (length pre + length w)%nat) = w.
Proof. unfold text, slice. simpl. by rewrite drop_app_length, Nat.add_sub', take_app_length. Qed.

Lemma span_ok_app pre w rest junk buf es :
  word_ok w -> apart (TW w) rest = true -> buf = pre ++ w ++ rest ++ 0 :: junk -> es = (length pre + length w + length rest)%nat ->
  span_ok buf es (length pre, (length pre + length w)%nat).
Proof.
  intros [_ Hw] Ha -> ->. split; [simpl; lia|]. split.
  - simpl. intros i Hi. replace i with (length pre + (i - length pre))%nat by lia. rewrite byte_at_app, byte_at_in by lia. apply forall_byte_at; [done|lia].
  - simpl. destruct rest as [|c rest]; [left; simpl; lia|right]. rewrite byte_at_app, <- (Nat.add_0_r (length w)), byte_at_app. simpl in *.
    by apply negb_true_iff in Ha.
Qed.

Lemma render_lexes ts trail pre junk buf es :
  Forall tok_ok (ts.*2) -> render_ok ts trail = true -> buf = pre ++ render ts trail ++ 0 :: junk -> es = (length pre + length (render ts trail))%nat ->
  lexes buf es (length pre) (ts.*2).
Proof.
  revert pre. induction ts as [|[ws t] ts IH]; intros pre Hok Hr Hb He.
  - simpl in *. split; [lia|]. unfold skipws. pose proof (skip_app (strchr whitespace) pre trail [] (white_strchr _ Hr) (or_introl eq_refl) junk) as H.
    simpl in H. rewrite Nat.add_0_r in H. by rewrite Hb, He.
  - simpl in Hok, Hr, Hb, He. apply Forall_cons in Hok as [Ht Hok]. apply andb_prop in Hr as [[Hws Ha]%andb_prop Hr].
    destruct (tok_first t Ht) as (c & l & Htx & Hc). rewrite !length_app in He.
    assert (Hb' : buf = (pre ++ ws) ++ tok_text t ++ render ts trail ++ 0 :: junk) by (rewrite Hb, <- !app_assoc; done).
    assert (Hsk : skipws buf es (length pre) = length (pre ++ ws)).
    { unfold skipws. rewrite length_app. pose proof (skip_app (strchr whitespace) pre ws (tok_text t ++ render ts trail) (white_strchr _ Hws)) as H.
      specialize (H ltac:(right; rewrite Htx; exact Hc) junk).
      rewrite <- H, Hb, He, <- !app_assoc. f_equal. rewrite length_app. lia. }
    assert (He' : es = (length (pre ++ ws) + length (tok_text t) + length (render ts trail))%nat) by (rewrite length_app; lia).
    pose proof (gettoken_app (pre ++ ws) t _ junk buf es Ht Ha Hb' He') as Hg. rewrite <- Hsk, gettoken_skipws, Hsk in Hg by lia.
    assert (Hl : lexes buf es (skipws buf es (length (pre ++ ws) + length (tok_text t))) (ts.*2)).
    { apply lexes_skipws. rewrite <- length_app. apply IH; [done..| |].
      - by rewrite Hb', <- !app_assoc.
      - rewrite length_app. lia. }
    assert (Hb0 : byte_at buf (length (pre ++ ws)) = c) by (rewrite Hb', Htx, <- (Nat.add_0_r (length (pre ++ ws))), byte_at_app; done).
    destruct t as [w|c']; simpl; (split; [lia|]); eexists _, _; (split; [exact Hg|]); rewrite Hsk, Hb0.
    + simpl in *. subst w. rewrite Hb' at 1. split; [apply text_app|]. split; [by eapply span_ok_app|]. split; [|done].
      destruct Ht as [_ Hw]. by apply Forall_cons in Hw as [Hw _].
    + split; [|by split]. simpl in Htx. destruct (c' =? 43); by injection Htx as <- <-.
Qed.

Lemma length_render ts trail : Forall tok_ok (ts.*2) -> (length ts <= length (render ts trail))%nat.
Proof.
  induction ts as [|[ws t] ts IH]; intros H; [simpl; lia|]. simpl in *. apply Forall_cons in H as [Ht H]. specialize (IH H).
  destruct (tok_first t Ht) as (c & l & Htx & _). rewrite !length_app, Htx. simpl. lia.
Qed.

(** The tokens of a line are well formed. *)
Lemma toks_ok_redirs rs : redirs_ok rs -> Forall tok_ok (toks_redirs rs).
Proof.
  unfold toks_redirs. induction rs as [|[k w] rs IH]; intros H; [done|]. apply Forall_cons in H as [Hw H].
  rewrite fmap_cons. cbn [concat app]. constructor; [|constructor; [done|by apply IH]]. destruct k; simpl; set_solver.
Qed.

Lemma toks_ok_all : (forall l, line_ok l -> Forall tok_ok (toks_line l)) /\ (forall p, pipe_ok p -> Forall tok_ok (toks_pipe p)) /\
  (forall e, exec_ok e -> Forall tok_ok (toks_exec e)).
Proof.
  assert (forall c, c ∈ [60; 124; 62; 38; 59; 40; 41; 43] -> tok_ok (TS c)) as Hs by done.
  apply grammar_ind; simpl; intros; repeat (rewrite Forall_app || rewrite Forall_cons); destruct_and?; repeat split; auto using toks_ok_redirs;
    try (apply Hs; set_solver).
  - apply Forall_replicate, Hs. set_solver.
  - apply Forall_replicate, Hs. set_solver.
  - unfold toks_args. induction args as [|[w l] args IH]; [done|]. rewrite fmap_cons. cbn [concat]. decompose_Forall_hyps. destruct_and?.
    constructor; [done|]. apply Forall_app; split; [by apply toks_ok_redirs|]. apply IH; [done|]. lia.
Qed.

(** ** The strings of the command *)
Lemma cmd_map_ext {B} (f g : span -> B) c : Forall (fun a => f a = g a) (spans c) -> cmd_map f c = cmd_map g c.
Proof.
  induction c as [argv|c IH a mode fd|l IHl r IHr|l IHl r IHr|c IH]; simpl; rewrite ?Forall_app; intros H.
  - f_equal. by apply Forall_fmap_ext_1.
  - destruct H as [H1 H2]. rewrite IH by done. apply Forall_cons in H2 as [H2 _]. by rewrite H2.
  - destruct H as [H1 H2]. by rewrite IHl, IHr.
  - destruct H as [H1 H2]. by rewrite IHl, IHr.
  - by rewrite IH.
Qed.

Definition zero_ends (sp : list span) (buf : list Z) : list Z := foldl (fun buf a => <[a.2 := 0]> buf) buf sp.

Lemma nulterminate_spans c buf : nulterminate c buf = zero_ends (spans c) buf.
Proof.
  unfold zero_ends. revert buf. induction c as [argv|c IH f mode fd|l IHl r IHr|l IHl r IHr|c IH]; intros buf; simpl; [done| | | |done].
  - by rewrite foldl_app, <- IH.
  - by rewrite foldl_app, <- IHl.
  - by rewrite foldl_app, <- IHl.
Qed.

Lemma byte_at_insert buf j i : byte_at (<[j := 0]> buf) i = if decide (i = j) then 0 else byte_at buf i.
Proof.
  unfold byte_at. case_decide as H; [subst j|by rewrite list_lookup_insert_ne].
  destruct (decide (i < length buf)%nat); [by rewrite list_lookup_insert_eq|]. by rewrite lookup_ge_None_2 by (rewrite length_insert; lia).
Qed.

Lemma byte_at_zero_ends sp buf i : byte_at (zero_ends sp buf) i = if decide (i ∈ sp.*2) then 0 else byte_at buf i.
Proof.
  unfold zero_ends. revert buf. induction sp as [|a sp IH]; intros buf; [by rewrite decide_False by set_solver|]. simpl. rewrite IH, byte_at_insert.
  repeat case_decide; set_solver.
Qed.

Lemma cstr_take s n : (forall i, (i < n)%nat -> byte_at s i <> 0) -> byte_at s n = 0 -> cstr s = take n s.
Proof.
  revert n. induction s as [|c s IH]; intros n Hn H0; [by rewrite take_nil|]. destruct n as [|n].
  - unfold byte_at in H0. simpl in *. by rewrite H0.
  - simpl. assert ((c =? 0) = false) as -> by (apply Z.eqb_neq, (Hn 0%nat); lia). f_equal. apply IH; [|done]. intros i Hi. apply (Hn (S i)). lia.
Qed.

Lemma byte_at_lookup l i : byte_at l i <> 0 -> l !! i = Some (byte_at l i).
Proof. unfold byte_at. by destruct (l !! i). Qed.

(** Terminating all strings leaves every string what it was. *)
Lemma terminated_text buf es sp a :
  Forall (span_ok buf es) sp -> a ∈ sp -> cstr (drop a.1 (zero_ends sp buf)) = text buf a.
Proof.
  intros Hsp Ha. rewrite Forall_forall in Hsp. pose proof (Hsp a Ha) as (Hle & Hw & Hend).
  assert (Hin : forall i, (a.1 <= i < a.2)%nat -> byte_at (zero_ends sp buf) i = byte_at buf i).
  { intros i Hi. rewrite byte_at_zero_ends, decide_False; [done|]. intros (b & -> & Hb)%list_elem_of_fmap.
    destruct (Hsp b Hb) as (_ & _ & [He|He]); [lia|]. rewrite Hw in He by done. done. }
  assert (Hdrop : forall i l, byte_at (drop a.1 l) i = byte_at l (a.1 + i)) by (intros; unfold byte_at; by rewrite lookup_drop).
  rewrite (cstr_take _ (a.2 - a.1)).
  - unfold text, slice. apply list_eq. intros i.
    destruct (decide (i < a.2 - a.1)%nat) as [Hi|Hi]; [|by rewrite !lookup_take_ge by lia].
    rewrite !lookup_take_lt, !lookup_drop by done. specialize (Hw (a.1 + i)%nat ltac:(lia)).
    rewrite !byte_at_lookup; rewrite ?Hin by lia; [done|by intros E; rewrite E in Hw..].
  - intros i Hi. rewrite Hdrop, Hin by lia. specialize (Hw (a.1 + i)%nat ltac:(lia)). intros E. by rewrite E in Hw.
  - rewrite Hdrop, byte_at_zero_ends, decide_True; [done|]. apply list_elem_of_fmap. exists a. split; [|done]. simpl. lia.
Qed.

Lemma white_nonzero l : forallb white l = true -> Forall (fun c => c <> 0) l.
Proof. intros H. rewrite forallb_forall in H. apply Forall_forall. intros c Hc%list_elem_of_In ->. by specialize (H 0 Hc). Qed.

Lemma tok_nonzero t : tok_ok t -> Forall (fun c => c <> 0) (tok_text t).
Proof.
  destruct t as [w|c]; simpl.
  - intros [_ Hw]. eapply Forall_impl; [exact Hw|]. intros c Hc ->. done.
  - intros H. repeat (apply elem_of_cons in H as [->|H]; [simpl; by repeat constructor|]). by apply elem_of_nil in H.
Qed.

Lemma render_nonzero ts trail : Forall tok_ok (ts.*2) -> render_ok ts trail = true -> Forall (fun c => c <> 0) (render ts trail).
Proof.
  induction ts as [|[ws t] ts IH]; intros Hok Hr; simpl in *; [by apply white_nonzero|].
  apply Forall_cons in Hok as [Ht Hok]. apply andb_prop in Hr as [[Hws _]%andb_prop Hr].
  apply Forall_app; split; [by apply white_nonzero|]. apply Forall_app; split; [by apply tok_nonzero|by apply IH].
Qed.

Lemma strlen_line l junk : Forall (fun c => c <> 0) l -> strlen (l ++ 0 :: junk) = Some (length l).
Proof. intros Hl. unfold strlen. rewrite strlen_from_spec by set_solver. rewrite cstr_app_nonzero by done. simpl. by rewrite app_nil_r. Qed.

Lemma parsecmd_ok l ts trail junk st :
  line_ok l -> mem_line l <= MAXN -> ts.*2 = toks_line l -> render_ok ts trail = true -> mem_used st = 0 ->
  wp (parsecmd (render ts trail ++ 0 :: junk)) (fun r st' => strings r.2 r.1 = tree_line l /\ mem_used st' = mem_line l) st.
Proof.
  intros Hl Hm Hts Hr Hst. set (txt := render ts trail). set (buf := txt ++ 0 :: junk). set (es := length txt).
  assert (Hok : Forall tok_ok (ts.*2)) by (rewrite Hts; by apply toks_ok_all).
  assert (Hes : byte_at buf es = 0) by (unfold es; rewrite <- (Nat.add_0_r (length txt)); apply byte_at_app).
  assert (Hstr : strlen buf = Some es) by (by apply strlen_line, render_nonzero).
  unfold parsecmd. rewrite Hstr. apply wp_bind, wp_ret, wp_bind, wp_modify.
  assert (Hat : at_toks buf es (toks_line l ++ []) 0 (set_ps 0 st)).
  { rewrite app_nil_r, <- Hts. split; [by apply (render_lexes _ trail [] junk)|]. split; [|done]. rewrite length_fmap. by apply length_render. }
  apply wp_bind. pose proof Hat as (_ & Hlen & _). rewrite app_nil_r in Hlen. destruct depth_le as [Hd _]. specialize (Hd l).
  apply (proj1 (parses_all buf es Hes) l Hl (parse_fuel es) [] ltac:(unfold parse_fuel; lia) (or_introl eq_refl) 0 _ _ Hat Hm).
  intros c st1 Hc Hcok ((_ & Hend) & _ & Hm1). unfold peek. apply wp_bind, wp_bind, wp_gets, wp_bind, wp_modify, wp_ret, wp_bind, wp_gets.
  fold (skipws buf es (ps st1)). rewrite Hend. simpl ps. apply wp_bind, wp_assert; [apply Nat.eqb_refl|]. apply wp_ret.
  simpl. split; [|done]. unfold strings. rewrite nulterminate_spans, <- Hc. apply cmd_map_ext, Forall_forall. intros a Ha.
  by apply (terminated_text buf es).
Qed.

(** C21: [parsecmd] reads back a command line. For every line of the grammar
    (lists, pipelines, background jobs, blocks and redirections, words before
    and after them) and every text of it, with white space of any kind and
    amount around the tokens and none where two tokens do not need it, the
    parser ends without a [PANIC], however deep the line nests, as long as its
    structures fit in the buffer of [malloc1]; the command has the shape that
    the grammar means, and after [nulterminate] each of its strings is the word
    that was written, whatever the buffer holds behind the text. *)
Theorem parsecmd_print l ts trail junk st :
  line_ok l -> mem_line l <= MAXN -> ts.*2 = toks_line l -> render_ok ts trail = true -> mem_used st = 0 ->
  wp (parsecmd (render ts trail ++ 0 :: junk)) (fun r st' => strings r.2 r.1 = tree_line l /\ mem_used st' = mem_line l) st.
Proof. apply parsecmd_ok. Qed.

(** [(ls>f; ps -l)|wc&]. *)
Definition demo_line : sline :=
  LEnd (PPipe (Block (LSeq (PEnd (Simple [] [([108; 115], [(ROut, [102])])])) 0 (LEnd (PEnd (Simple [] [([112; 115], []); ([45; 108], [])])) 0)) [])
          (PEnd (Simple [] [([119; 99], [])]))) 1.
Definition demo_text : list (list Z * tok) :=
  zip [[]; []; []; []; []; [32]; [32]; []; []; []; []] (toks_line demo_line).

Lemma parsecmd_print_witness :
  render demo_text [10] = [40; 108; 115; 62; 102; 59; 32; 112; 115; 32; 45; 108; 41; 124; 119; 99; 38; 10] /\
  wp (parsecmd (render demo_text [10] ++ 0 :: [7])) (fun r st' => strings r.2 r.1 = tree_line demo_line /\ mem_used st' = mem_line demo_line) (mkPst 0 0).
Proof.
  split; [reflexivity|]. apply (parsecmd_print demo_line demo_text [10] [7]); [|vm_compute; discriminate|reflexivity|reflexivity|reflexivity].
  simpl. unfold word_ok, redirs_ok. repeat split; try (repeat constructor; discriminate). 
Defined.

(** ** Termination on every input

    [ends]: the routine does not run out of fuel, and [Q] holds if it returns. *)
Definition ends {St A} (m : M St A) (Q : A -> St -> Prop) (s : St) : Prop :=
  match m s with Ok (a, s') => Q a s' | Fuel => False | _ => True end.

Lemma ends_bind {St A B} (m : M St A) (f : A -> M St B) Q s : ends m (fun a s' => ends (f a) Q s') s -> ends (m ≫= f) Q s.
Proof. unfold ends, mbind, M_bind. by destruct (m s) as [[]| | |]. Qed.
Lemma ends_ret {St A} (a : A) (Q : A -> St -> Prop) s : Q a s -> ends (mret a) Q s.
Proof. done. Qed.
Lemma ends_gets {St A} (f : St -> A) (Q : A -> St -> Prop) s : Q (f s) s -> ends (gets f) Q s.
Proof. done. Qed.
Lemma ends_modify {St} (f : St -> St) (Q : unit -> St -> Prop) s : Q tt (f s) -> ends (modify f) Q s.
Proof. done. Qed.
Lemma ends_assert {St} b (Q : unit -> St -> Prop) s : (b = true -> Q tt s) -> ends (assert_ b) Q s.
Proof. destruct b; unfold ends; simpl; [by intros H; apply H|done]. Qed.
Lemma ends_mono {St A} (m : M St A) (P Q : A -> St -> Prop) s : ends m P s -> (forall a s', P a s' -> Q a s') -> ends m Q s.
Proof. unfold ends. destruct (m s) as [[]| | |]; auto. Qed.

Section termination.
Context (buf : list Z) (es : nat) (Hes : byte_at buf es = 0).

(** The parser is at [n] or behind it. *)
Definition from (n : nat) (st : pst) : Prop := (n <= ps st <= es)%nat.
Definition after {A} (n : nat) (_ : A) (st : pst) : Prop := from n st.

Lemma ends_malloc1 sz n st : from n st -> ends (malloc1 sz) (after n) st.
Proof. intros H. unfold malloc1. apply ends_bind, ends_gets, ends_bind, ends_modify, ends_assert. by intros _. Qed.

Lemma ends_peek toks n st (Q : bool -> pst -> Prop) :
  from n st -> (forall b st', from n st' -> (b = true -> byte_at buf (skipws buf es (ps st')) <> 0) -> Q b st') -> ends (peek buf es toks) Q st.
Proof.
  intros H HQ. unfold peek. apply ends_bind, ends_gets, ends_bind, ends_modify, ends_ret. fold (skipws buf es (ps st)).
  unfold from in *. pose proof (skipws_le buf es (ps st) ltac:(lia)). apply HQ; simpl; [unfold from; simpl; lia|].
  rewrite skipws_idem by lia. intros [Hb _]%andb_prop E. by rewrite E in Hb.
Qed.

Lemma skip_le p s : (s <= es)%nat -> (s <= skip p buf es s <= es)%nat.
Proof. intros Hs. destruct (skip_spec buf es p s Hs) as (n & -> & Hle & _). lia. Qed.

(** A token is not empty, unless the text ends. *)
Lemma gettoken_at_progress s :
  (s <= es)%nat -> let '(ret, _, s') := gettoken_at buf es s in (s <= s' <= es)%nat /\ (byte_at buf (skipws buf es s) <> 0 -> (s < s')%nat) /\
    (ret <> 0 -> byte_at buf (skipws buf es s) <> 0).
Proof using Hes.
  intros Hs. unfold gettoken_at. fold (skipws buf es s). pose proof (skipws_le buf es s Hs) as Hq.
  destruct (skip_spec buf es (strchr whitespace) s Hs) as (n & Hn & _ & _ & Hend). rewrite <- Hn in Hend. fold (skipws buf es s) in Hend.
  set (q := skipws buf es s) in *. clearbody q. clear Hn n.
  assert (Hlt : byte_at buf q <> 0 -> (q < es)%nat).
  { intros Hb. destruct (decide (q = es)) as [->|]; [done|lia]. }
  destruct (Z.eqb_spec (byte_at buf q) 0) as [E0|E0].
  { pose proof (skip_le (strchr whitespace) q ltac:(lia)). split; [lia|]. split; done. }
  specialize (Hlt E0).
  assert (Hstep : forall e, (q < e <= es)%nat -> (s <= skip (strchr whitespace) buf es e <= es)%nat /\
    (byte_at buf q <> 0 -> (s < skip (strchr whitespace) buf es e)%nat)).
  { intros e He. pose proof (skip_le (strchr whitespace) e ltac:(lia)). split; [lia|]. intros _. lia. }
  destruct (existsb (Z.eqb (byte_at buf q)) [124; 40; 41; 59; 38; 60]) eqn:E1.
  { destruct (Hstep (S q) ltac:(lia)) as [??]. split; [done|]. by split. }
  destruct (Z.eqb_spec (byte_at buf q) 62) as [E2|E2].
  { destruct (Z.eqb_spec (byte_at buf (S q)) 62) as [E3|E3].
    - assert (S q <> es) by (intros E; rewrite E, Hes in E3; done). destruct (Hstep (S (S q)) ltac:(lia)) as [??]. split; [done|]. by split.
    - destruct (Hstep (S q) ltac:(lia)) as [??]. split; [done|]. by split. }
  set (w := fun c => negb (strchr whitespace c) && negb (strchr symbols c)).
  destruct (skip_spec buf es w q ltac:(lia)) as (n & -> & Hle & _ & Hw).
  assert (n <> 0)%nat as Hn.
  { intros ->. rewrite Nat.add_0_r in Hw. destruct Hw as [Hw|Hw]; [lia|]. destruct Hend as [Hend|Hend]; [lia|].
    unfold w in Hw. rewrite Hend in Hw. simpl in Hw. unfold strchr in Hw. apply negb_false_iff, orb_prop in Hw as [Hw|Hw]; [lia|].
    simpl in E1, Hw. destruct (Z.eqb_spec (byte_at buf q) 62); [done|]. destruct (byte_at buf q =? 124), (byte_at buf q =? 40), (byte_at buf q =? 41), (byte_at buf q =? 59), (byte_at buf q =? 38), (byte_at buf q =? 60); done. }
  destruct (Hstep (q + n)%nat ltac:(lia)) as [??]. split; [done|]. by split.
Qed.

Lemma ends_gettoken n st (Q : Z * span -> pst -> Prop) :
  from n st -> (forall tok q st', from (ps st) st' -> (byte_at buf (skipws buf es (ps st)) <> 0 -> from (S (ps st)) st') -> (tok <> 0 -> from (S (ps st)) st') -> Q (tok, q) st') ->
  ends (gettoken buf es) Q st.
Proof using Hes.
  intros H HQ. unfold from in *. pose proof (gettoken_at_progress (ps st) ltac:(lia)) as Hp. unfold gettoken. apply ends_bind, ends_gets.
  destruct (gettoken_at buf es (ps st)) as [[ret q] s']. destruct Hp as (H1 & H2 & H3). apply ends_bind, ends_modify, ends_ret, HQ; unfold from; simpl; [lia| |].
  - intros Hb. specialize (H2 Hb). lia.
  - intros Ht. specialize (H2 (H3 Ht)). lia.
Qed.

Ltac from_t := unfold after, from in *; naive_solver lia.

Lemma ends_parseredirs fuel c n st :
  from n st -> (es - ps st < fuel)%nat -> ends (parseredirs buf es fuel c) (after n) st.
Proof using Hes.
  revert c st. induction fuel as [|fuel IH]; intros c st H Hf; [lia|]. cbn [parseredirs].
  apply ends_bind, (ends_peek _ (ps st)); [from_t|]. intros b st1 H1 Hb. destruct b; [|apply ends_ret; from_t]. specialize (Hb eq_refl).
  apply ends_bind, (ends_gettoken (ps st)); [done|]. intros tok q st2 H2 H2' _. specialize (H2' Hb).
  apply ends_bind, (ends_gettoken (S (ps st1))); [done|]. intros tok2 q2 st3 H3 _ _.
  apply ends_bind, ends_assert. intros _. apply ends_bind.
  apply (ends_mono _ (after (S (ps st)))); [|intros c' st4 H4; apply IH; from_t].
  assert (forall mode fd, ends (redircmd c q2 mode fd) (after (S (ps st))) st3) as Hr.
  { intros mode fd. unfold redircmd. apply ends_bind. eapply ends_mono; [apply (ends_malloc1 _ (S (ps st))); from_t|]. intros [] st4 H4. by apply ends_ret. }
  repeat case_match; [apply Hr..|]. apply ends_ret. from_t.
Qed.

Lemma ends_parseargs fuel argv ret n st :
  from n st -> (es - ps st < fuel)%nat -> ends (parseargs buf es fuel argv ret) (after n) st.
Proof using Hes.
  revert argv ret st. induction fuel as [|fuel IH]; intros argv ret st H Hf; [lia|]. cbn [parseargs].
  apply ends_bind, (ends_peek _ (ps st)); [from_t|]. intros b st1 H1 Hb. destruct b; [apply ends_ret; from_t|].
  apply ends_bind, (ends_gettoken (ps st)); [done|]. intros tok q st2 H2 _ H2'.
  destruct (Z.eqb_spec tok 0) as [_|Ht]; [apply ends_ret; from_t|]. specialize (H2' Ht).
  apply ends_bind, ends_assert. intros _. apply ends_bind, ends_assert. intros _. apply ends_bind.
  eapply ends_mono; [apply (ends_parseredirs _ _ (ps st2)); from_t|]. intros ret' st3 H3. apply IH; from_t.
Qed.

(** A token that [peek] saw. *)
Lemma ends_gettoken_seen {A} (k : M pst A) n st (Q : A -> pst -> Prop) :
  from n st -> byte_at buf (skipws buf es (ps st)) <> 0 -> (forall st', from (S (ps st)) st' -> ends k Q st') -> ends (gettoken buf es;; k) Q st.
Proof using Hes. intros H Hb Hk. apply ends_bind, (ends_gettoken (ps st)); [from_t|]. intros tok q st' _ H' _. by apply Hk, H'. Qed.

Lemma ends_cons (mk : M pst unit) (c : cmd span) n st : ends mk (after n) st -> ends (mk;; mret c) (after n) st.
Proof. intros H. apply ends_bind. eapply ends_mono; [exact H|]. intros [] st' H'. by apply ends_ret. Qed.

Lemma ends_parsebacks fuel c n st :
  from n st -> (es - ps st < fuel)%nat -> ends (parsebacks buf es fuel c) (after n) st.
Proof using Hes.
  revert c st. induction fuel as [|fuel IH]; intros c st H Hf; [lia|]. cbn [parsebacks].
  apply ends_bind, (ends_peek _ (ps st)); [from_t|]. intros b st1 H1 Hb. destruct b; [|apply ends_ret; from_t].
  apply (ends_gettoken_seen _ (ps st)); [done|by apply Hb|]. intros st2 H2. apply ends_bind.
  apply (ends_mono _ (after (S (ps st)))); [|intros c' st3 H3; apply IH; from_t]. apply ends_cons, ends_malloc1. from_t.
Qed.

Lemma ends_parse fuel : forall st, (ps st <= es)%nat ->
  ((4 * (es - ps st) + 4 <= fuel)%nat -> ends (parse buf es fuel ParseLine) (after (ps st)) st) /\
  ((4 * (es - ps st) + 3 <= fuel)%nat -> ends (parse buf es fuel ParsePipe) (after (ps st)) st) /\
  ((4 * (es - ps st) + 2 <= fuel)%nat -> ends (parse buf es fuel ParseExec) (after (ps st)) st) /\
  ((4 * (es - ps st) + 1 <= fuel)%nat -> ends (parse buf es fuel ParseBlock) (after (ps st)) st).
Proof using Hes.
  induction fuel as [|fuel IH]; intros st Hs; [split_and!; lia|]. destruct (IH st Hs) as (_ & IHp & IHe & _). split_and!; intros Hf.
  - cbn [parse]. unfold parseline. apply ends_bind. eapply ends_mono; [apply IHp; lia|]. intros c1 st1 H1.
    apply ends_bind. eapply ends_mono; [apply (ends_parsebacks _ _ (ps st)); from_t|]. intros c2 st2 H2.
    apply ends_bind, (ends_peek _ (ps st)); [from_t|]. intros b st3 H3 Hb. destruct b; [|by apply ends_ret].
    apply (ends_gettoken_seen _ (ps st)); [done|by apply Hb|]. intros st4 H4. apply ends_bind.
    destruct (IH st4 ltac:(from_t)) as (IHl & _). eapply ends_mono; [apply IHl; from_t|]. intros c5 st5 H5. apply ends_cons, ends_malloc1. from_t.
  - cbn [parse]. unfold parsepipe. apply ends_bind. eapply ends_mono; [apply IHe; lia|]. intros c1 st1 H1.
    apply ends_bind, (ends_peek _ (ps st)); [from_t|]. intros b st3 H3 Hb. destruct b; [|by apply ends_ret].
    apply (ends_gettoken_seen _ (ps st)); [done|by apply Hb|]. intros st4 H4. apply ends_bind.
    destruct (IH st4 ltac:(from_t)) as (_ & IHp' & _). eapply ends_mono; [apply IHp'; from_t|]. intros c5 st5 H5. apply ends_cons, ends_malloc1. from_t.
  - cbn [parse]. unfold parseexec. apply ends_bind, (ends_peek _ (ps st)); [from_t|]. intros b st1 H1 Hb. destruct b.
    + destruct (IH st1 ltac:(from_t)) as (_ & _ & _ & IHb). eapply ends_mono; [apply IHb; from_t|]. intros c st2 H2. from_t.
    + apply ends_bind. eapply ends_mono; [apply ends_cons, (ends_malloc1 _ (ps st)); from_t|]. intros c2 st2 H2.
      apply ends_bind. eapply ends_mono; [apply (ends_parseredirs _ _ (ps st)); from_t|]. intros c3 st3 H3. apply ends_parseargs; from_t.
  - cbn [parse]. unfold parseblock. apply ends_bind, (ends_peek _ (ps st)); [from_t|]. intros b st1 H1 Hb. apply ends_bind, ends_assert. intros ->.
    apply (ends_gettoken_seen _ (ps st)); [done|by apply Hb|]. intros st2 H2. apply ends_bind.
    destruct (IH st2 ltac:(from_t)) as (IHl & _). eapply ends_mono; [apply IHl; from_t|]. intros c3 st3 H3.
    apply ends_bind, (ends_peek _ (ps st)); [from_t|]. intros b st4 H4 Hb'. apply ends_bind, ends_assert. intros ->.
    apply (ends_gettoken_seen _ (ps st)); [done|by apply Hb'|]. intros st5 H5. apply ends_parseredirs; from_t.
Qed.
End termination.

(** The fuel is enough for every buffer: the parser returns or stops. *)
Lemma parsecmd_ends buf st : ends (parsecmd buf) (fun _ _ => True) st.
Proof.
  unfold parsecmd. destruct (strlen buf) as [es|] eqn:E; [|done]. apply ends_bind, ends_ret, ends_bind, ends_modify.
  assert (Hes : byte_at buf es = 0).
  { destruct (decide (0 ∈ buf)) as [H0|H0]; [|unfold strlen in E; by rewrite strlen_from_none in E].
    unfold strlen in E. rewrite strlen_from_spec in E by done. injection E as <-. clear -H0. simpl. induction buf as [|c buf IH]; [set_solver|].
    simpl. destruct (Z.eqb_spec c 0) as [->|Hc]; [done|]. apply IH. set_solver. }
  apply ends_bind. eapply ends_mono; [apply (proj1 (ends_parse buf es Hes (parse_fuel es) (set_ps 0 st) ltac:(simpl; lia)))|].
  - unfold parse_fuel. simpl. lia.
  - intros c st1 H1. apply ends_bind, (ends_peek buf es [] 0); [exact H1|]. intros b st2 H2 _.
    apply ends_bind, ends_gets, ends_bind, ends_assert. intros _. by apply ends_ret.
Qed.

End ShFacts.
