(* ===== verification/ShRun.v ===== *)
(** * What the shell does with a command (src/user/sh/main.c)

    The descriptors of the processes that a command line becomes. [run]
    executes a shell on a table of descriptors, with the answers of this kernel,
    which has no pipes; [plumbing] says for a command which programs run with
    which descriptors, and [sh_script] that the shell does just that for every
    line of its input. *)
From ITree Require Import ITree.
From Stdlib Require Import String.
From S2P Require Import Prelude CString Kernel User UserFacts Sh ShFacts.

Module ShRun.
Import CString Sh ShFacts User UserFacts.

(** What a descriptor stands for. *)
Inductive object : Type := Console | OFile (path : list Z) (flags : Z).
Abbreviation fdtable := (gmap Z object).

(** The least free descriptor (core/sysfile.c). *)
Definition NOFILE : Z := Kernel.NOFILE.
Definition fdalloc (fds : fdtable) : option Z := List.find (fun fd => bool_decide (fds !! fd = None)) (seqZ 0 NOFILE).

(** A process and what became of it: the processes that it made, and at last
    its status, or the program that it turned into. *)
Inductive process : Type :=
| Ended (status : Z)
| Runs (path : list Z) (argv : list (list Z)) (fds : fdtable)
| Forked (child rest : process)
| Waited (rest : process)
| Printed (fd : Z) (fmt : list Z) (args : list parg) (rest : process)
| ChangedDir (path : list Z) (rest : process).

(** What the answers depend on: which files can be opened, which programs are
    there and which directories, the number of a child, and the environment; and
    what the [n]th [int p[2]] that is passed to [pipe] holds before the call. *)
Record system : Type := mkSystem {
  can_open : list Z -> Z -> bool;
  can_run : list Z -> bool;
  can_enter : list Z -> bool;
  child_pid : Z;
  stack_junk : nat -> Z * Z;
  environ : list Z -> option (list Z)
}.

(** A process's own state: its descriptors and its input; and how many pipes
    have been asked for. *)
Record local : Type := mkLocal { l_fds : fdtable; l_stdin : list Z; l_pipe : nat }.
Definition set_l_fds (f : fdtable -> fdtable) (l : local) : local := mkLocal (f (l_fds l)) (l_stdin l) (l_pipe l).

(** What [fgets] reads: up to [n] characters of a line, its end included. *)
Fixpoint read_line (n : nat) (stdin : list Z) : list Z * list Z :=
  match n, stdin with
  | O, _ | _, [] => ([], stdin)
  | S n', c :: rest =>
      if c =? 10 then ([c], rest) else let '(line, rest) := read_line n' rest in (c :: line, rest)
  end.

Section run.
Context (sys : system).

Definition new_fd (o : object) (l : local) : Z * local :=
  match fdalloc (l_fds l) with
  | Some fd => (fd, set_l_fds <[fd := o]> l)
  | None => (-1, l)
  end.

Definition opened (path : list Z) (flags : Z) : option object :=
  if bool_decide (path = console) then Some Console else if can_open sys path flags then Some (OFile path flags) else None.

(** The answer to a call that neither makes nor ends a process. [pipe2] is not
    in the [syscall_table]: [sys_default] returns 0 and sets no descriptor. *)
Definition answer {A} (e : sysE A) (l : local) : option (A * local) :=
  match e in sysE A return option (A * local) with
  | Open path flags =>
      Some (match opened path flags with Some o => new_fd o l | None => (-1, l) end)
  | Close fd => Some (if bool_decide (l_fds l !! fd = None) then -1 else 0, set_l_fds (delete fd) l)
  | Dup fd =>
      match l_fds l !! fd with
      | Some o => Some (new_fd o l)
      | None => Some (-1, l)
      end
  | Pipe => Some ((0, stack_junk sys (l_pipe l)), mkLocal (l_fds l) (l_stdin l) (S (l_pipe l)))
  | Fgets n => let '(line, rest) := read_line (Z.to_nat n - 1) (l_stdin l) in Some (line, mkLocal (l_fds l) rest (l_pipe l))
  | Getenv name => Some (environ sys name, l)
  | Chdir path => Some (if can_enter sys path then 0 else -1, l)
  | Wait => Some (child_pid sys, l)
  | Printf _ _ _ => Some (tt, l)
  | Execv _ _ => Some (-1, l)
  | _ => None
  end.

(** What is recorded of a call. *)
Definition record {A} (e : sysE A) (p : process) : process :=
  match e with
  | Wait => Waited p
  | Printf fd fmt args => Printed fd fmt args p
  | Chdir path => ChangedDir path p
  | _ => p
  end.

(** The process and the number of pipes asked for; [None] for a call that the
    shell does not make, and if there is too little fuel. *)
Fixpoint run (fuel : nat) (t : itree sysE void) (l : local) : option (process * nat) :=
  match fuel with
  | O => None
  | S fuel' =>
      match observe t with
      | RetF v => match v with end
      | TauF t => run fuel' t l
      | VisF e k =>
          let go := fun X (e : sysE X) (k : X -> itree sysE void) => '(a, l') ← answer e l; '(p, n) ← run fuel' (k a) l'; Some (record e p, n) in
          match e in sysE X return (X -> itree sysE void) -> option (process * nat) with
          | Exit status => fun _ => Some (Ended status, l_pipe l)
          | Fork => fun k =>
              '(c, n) ← run fuel' (k 0) l;
              '(p, n) ← run fuel' (k (child_pid sys)) (mkLocal (l_fds l) (l_stdin l) n);
              Some (Forked c p, n)
          | Execv path argv => fun k =>
              if can_run sys path then Some (Runs path argv (l_fds l), l_pipe l) else go _ (Execv path argv) k
          | e => fun k => go _ e k
          end k
      end
  end.

(** ** The meaning of a command *)

(** [fd] is closed and the file opened at the least free descriptor. *)
Definition redirected (fd : Z) (o : object) (fds : fdtable) : option fdtable :=
  (fun fd' => <[fd' := o]> (delete fd fds)) <$> fdalloc (delete fd fds).

(** One side of a pipeline: [fd] is closed, and whatever has the number [p] is
    opened at the least free descriptor; then the numbers [ends] are closed. *)
Definition dup_fd (p : Z) (fds : fdtable) : fdtable :=
  match fds !! p, fdalloc fds with Some o, Some fd => <[fd := o]> fds | _, _ => fds end.
Definition pipe_side (fd p : Z) (ends : Z * Z) (fds : fdtable) : fdtable := delete ends.2 (delete ends.1 (dup_fd p (delete fd fds))).

(** The process that runs [c] with the descriptors [fds], when [n] pipes have
    been asked for. *)
Fixpoint plumbing (c : cmd (list Z)) (fds : fdtable) (n : nat) : process * nat :=
  match c with
  | EXEC [] => (Ended 0, n)
  | EXEC (path :: args) =>
      (if can_run sys path then Runs path (path :: args) fds
       else Printed stderr (text "exec %s failed" ++ nl) [PStr path] (Ended 0), n)
  | REDIR c file mode fd =>
      match opened file mode ≫= fun o => redirected fd o fds with
      | Some fds' => plumbing c fds' n
      | None => (Printed stderr (text "open %s failed" ++ nl) [PStr file] (Ended 1), n)
      end
  | LIST l r =>
      let '(p1, n) := plumbing l fds n in
      let '(p2, n) := plumbing r fds n in
      (Forked p1 (Waited p2), n)
  | PIPE l r =>
      let ends := stack_junk sys n in
      let '(p1, n') := plumbing l (pipe_side 1 ends.2 ends fds) (S n) in
      let '(p2, n') := plumbing r (pipe_side 0 ends.1 ends fds) n' in
      (Forked p1 (Forked p2 (Waited (Waited (Ended 0)))), n')
  | BACK c => let '(p, n) := plumbing c fds n in (Forked p (Ended 0), n)
  end.

(** ** Running the parts of a program *)
Definition runs (t : itree sysE void) (l : local) (x : process * nat) : Prop := exists fuel, run fuel t l = Some x.

Lemma run_more fuel : forall fuel' t l x, (fuel <= fuel')%nat -> run fuel t l = Some x -> run fuel' t l = Some x.
Proof.
  induction fuel as [|fuel IH]; intros [|f] t l x Hle; try done; [lia|]. cbn [run].
  destruct (observe t) as [v|t'|X e k]; [done|apply IH; lia|].
  assert (forall Y (e' : sysE Y) k',
    ('(a, l') ← answer e' l; '(p, n) ← run fuel (k' a) l'; Some (record e' p, n)) = Some x ->
    ('(a, l') ← answer e' l; '(p, n) ← run f (k' a) l'; Some (record e' p, n)) = Some x) as Hgo.
  { intros Y e' k'. destruct (answer e' l) as [[a l']|]; [|done]. simpl. destruct (run fuel (k' a) l') as [[p n]|] eqn:E; [|done].
    by rewrite (IH f _ _ _ ltac:(lia) E). }
  destruct e; try (by apply Hgo); try done.
  - destruct (run fuel (k 0) l) as [[c n]|] eqn:E; [|done]. rewrite (IH f _ _ _ ltac:(lia) E). simpl.
    destruct (run fuel _ _) as [[p n']|] eqn:E' in |- *; [|done]. by rewrite (IH f _ _ _ ltac:(lia) E').
  - destruct (can_run sys path); [done|]. by apply Hgo.
Qed.

Lemma runs_observe t t' l x : observe t = observe t' -> runs t l x -> runs t' l x.
Proof. intros Ht [[|fuel] H]; [done|]. exists (S fuel). cbn [run] in *. by rewrite <- Ht. Qed.

Section contexts.
Context {B : Type} (K : itree sysE B -> itree sysE void) (HK : ctx K).

Lemma runs_ret {A} (f : A -> itree sysE B) a l x : runs (K (f a)) l x -> runs (K (mret a ≫= f)) l x.
Proof using HK. apply runs_observe. by apply ctx_observe. Qed.

(** A call that is answered in the process itself. *)
Definition simple {A} (e : sysE A) : Prop :=
  match e with Exit _ | Fork => False | Execv path _ => can_run sys path = false | _ => True end.

Lemma runs_vis {A} (e : sysE A) (k : A -> itree sysE void) t l a l' p n :
  observe t = VisF e k -> simple e -> answer e l = Some (a, l') -> runs (k a) l' (p, n) -> runs t l (record e p, n).
Proof using Type.
  intros Ht He Ha [fuel H]. exists (S fuel). cbn [run]. rewrite Ht.
  assert (('(a, l') ← answer e l; '(p, n) ← run fuel (k a) l'; Some (record e p, n)) = Some (record e p, n)) as Hgo by (rewrite Ha; simpl; by rewrite H).
  destruct e; try exact Hgo; try done. simpl in He. by rewrite He.
Qed.

Lemma runs_call {A} (e : sysE A) (f : A -> itree sysE B) l a l' p n :
  simple e -> answer e l = Some (a, l') -> runs (K (f a)) l' (p, n) -> runs (K (call e ≫= f)) l (record e p, n).
Proof using HK.
  intros He Ha H. eapply (runs_vis e); [by rewrite (HK (_ ≫= f)), observe_mbind|done|exact Ha|]. cbn beta. by apply runs_ret.
Qed.
Lemma runs_call_ {A} (e : sysE A) (f : unit -> itree sysE B) l a l' p n :
  simple e -> answer e l = Some (a, l') -> runs (K (f tt)) l' (p, n) -> runs (K (call_ e ≫= f)) l (record e p, n).
Proof using HK.
  intros He Ha H. eapply (runs_vis e); [by rewrite (HK (_ ≫= f)), observe_mbind|done|exact Ha|]. cbn beta.
  eapply runs_observe; [|exact H]. by apply ctx_observe.
Qed.

(** Calls of which nothing is recorded. *)
Definition quiet {A} (e : sysE A) : Prop :=
  match e with Exit _ | Fork | Execv _ _ | Wait | Printf _ _ _ | Chdir _ => False | _ => True end.
Lemma runs_quiet {A} (e : sysE A) (f : A -> itree sysE B) l a l' x :
  quiet e -> answer e l = Some (a, l') -> runs (K (f a)) l' x -> runs (K (call e ≫= f)) l x.
Proof using HK.
  intros He Ha H. destruct x as [p n]. replace p with (record e p) by (by destruct e).
  eapply runs_call; [by destruct e|exact Ha|done].
Qed.
Lemma runs_quiet_ {A} (e : sysE A) (f : unit -> itree sysE B) l a l' x :
  quiet e -> answer e l = Some (a, l') -> runs (K (f tt)) l' x -> runs (K (call_ e ≫= f)) l x.
Proof using HK.
  intros He Ha H. destruct x as [p n]. replace p with (record e p) by (by destruct e).
  eapply runs_call_; [by destruct e|exact Ha|done].
Qed.

(** The child goes on with 0, and the parent with its number. *)
Lemma runs_fork_vis (k : Z -> itree sysE void) t l c n p n' :
  observe t = VisF Fork k -> runs (k 0) l (c, n) -> runs (k (child_pid sys)) (mkLocal (l_fds l) (l_stdin l) n) (p, n') ->
  runs t l (Forked c p, n').
Proof using Type.
  intros Ht [f1 H1] [f2 H2]. exists (S (f1 `max` f2)). cbn [run]. rewrite Ht.
  rewrite (run_more f1 (f1 `max` f2) _ _ _ ltac:(lia) H1). simpl. by rewrite (run_more f2 (f1 `max` f2) _ _ _ ltac:(lia) H2).
Qed.
Lemma runs_fork1 (f : Z -> itree sysE B) l c n p n' :
  child_pid sys <> -1 -> runs (K (f 0)) l (c, n) -> runs (K (f (child_pid sys))) (mkLocal (l_fds l) (l_stdin l) n) (p, n') ->
  runs (K (fork1 ≫= f)) l (Forked c p, n').
Proof using HK.
  intros Hpid H1 H2. eapply runs_fork_vis; [by rewrite (HK (_ ≫= f)), observe_mbind; unfold fork1; rewrite observe_mbind|..].
  - eapply runs_observe; [|exact H1]. by apply ctx_observe.
  - eapply runs_observe; [|exact H2]. apply ctx_observe; [done|]. 
    transitivity (observe ((if child_pid sys =? -1 then PANIC (text "fork") else mret (child_pid sys)) ≫= f)); [by rewrite (proj2 (Z.eqb_neq _ _) Hpid)|].
    by rewrite !observe_mbind.
Qed.
Lemma runs_exit {A} status (f : A -> itree sysE B) l : runs (K (exit status ≫= f)) l (Ended status, l_pipe l).
Proof using HK. exists 1%nat. cbn [run]. by rewrite (HK (_ ≫= f)), observe_mbind. Qed.
End contexts.

(** A part that does not return. *)
Lemma runs_never {B} (K : itree sysE B -> itree sysE void) (f : void -> itree sysE B) : ctx K -> forall t l x, runs t l x -> runs (K (t ≫= f)) l x.
Proof.
  intros HK t l x [fuel H]. exists fuel. revert t l x H. induction fuel as [|fuel IH]; intros t l x; [done|]. cbn [run].
  rewrite (HK (_ ≫= f)), observe_mbind. destruct (observe t) as [v|t'|X e k]; [done|apply IH|].
  assert (forall Y (e' : sysE Y) k',
    ('(a, l') ← answer e' l; '(p, n) ← run fuel (k' a) l'; Some (record e' p, n)) = Some x ->
    ('(a, l') ← answer e' l; '(p, n) ← run fuel (K (k' a ≫= f)) l'; Some (record e' p, n)) = Some x) as Hgo.
  { intros Y e' k'. destruct (answer e' l) as [[a l']|]; [|done]. simpl. destruct (run fuel (k' a) l') as [[p n]|] eqn:E; [|done].
    by rewrite (IH _ _ _ E). }
  destruct e; try (by apply Hgo); try done.
  - destruct (run fuel (k 0) l) as [[c n]|] eqn:E; [|done]. cbv beta. rewrite (IH _ _ _ E). simpl.
    destruct (run fuel (k (child_pid sys)) _) as [[p n']|] eqn:E'; [|done]. by rewrite (IH _ _ _ E').
  - destruct (can_run sys path); [done|]. by apply Hgo.
Qed.

Lemma runs_exit_last status l : runs (exit status) l (Ended status, l_pipe l).
Proof. by exists 1%nat. Qed.
Lemma runs_execv (f : unit -> itree sysE void) path argv l : can_run sys path = true -> runs (call_ (Execv path argv) ≫= f) l (Runs path argv (l_fds l), l_pipe l).
Proof.
  intros He. exists 1%nat. cbn [run]. rewrite observe_mbind.
  change (observe (call_ (Execv path argv))) with (observe (call (Execv path argv) ≫= fun _ : Z => mret tt)). rewrite observe_mbind. cbn. by rewrite He.
Qed.

(** ** The least free descriptor *)
Lemma find_first {A} (f : A -> bool) l1 x l2 : Forall (fun y => f y = false) l1 -> f x = true -> List.find f (l1 ++ x :: l2) = Some x.
Proof. intros H Hx. induction H as [|y l1 Hy _ IH]; simpl; [by rewrite Hx|by rewrite Hy]. Qed.
Lemma fdalloc_least fds fd : 0 <= fd < NOFILE -> fds !! fd = None -> (forall i, 0 <= i < fd -> is_Some (fds !! i)) -> fdalloc fds = Some fd.
Proof.
  intros Hfd Hnone Hsome. unfold fdalloc.
  replace (seqZ 0 NOFILE) with (seqZ 0 fd ++ fd :: seqZ (Z.succ fd) (Z.pred (NOFILE - fd))).
  - apply find_first; [|by apply bool_decide_eq_true]. apply Forall_forall. intros i Hi%elem_of_seqZ. apply bool_decide_eq_false.
    destruct (Hsome i) as [o Ho]; [lia|by rewrite Ho].
  - rewrite <- seqZ_cons by lia. rewrite <- (Z.add_0_l fd) at 2. rewrite <- seqZ_app by lia. f_equal. lia.
Qed.
Lemma fdalloc_some fds fd : fdalloc fds = Some fd -> 0 <= fd < NOFILE /\ fds !! fd = None.
Proof.
  unfold fdalloc. intros H%List.find_some. destruct H as [Hin H]. split; [|by apply bool_decide_eq_true in H].
  apply list_elem_of_In, elem_of_seqZ in Hin. lia.
Qed.
(** A standard descriptor that is closed is the next to be given out. *)
Lemma reopen (fds : fdtable) fd : fd = 0 \/ fd = 1 -> is_Some (fds !! 0) -> fdalloc (delete fd fds) = Some fd.
Proof.
  intros Hfd H0. apply fdalloc_least; [unfold NOFILE, Kernel.NOFILE; lia|apply lookup_delete_eq|].
  intros i Hi. assert (i = 0) as -> by lia. by rewrite lookup_delete_ne by lia.
Qed.
Lemma redirected_standard (fds : fdtable) fd o : fd = 0 \/ fd = 1 -> is_Some (fds !! 0) -> redirected fd o fds = Some (<[fd := o]> fds).
Proof. intros Hfd H0. unfold redirected. rewrite reopen by done. simpl. by rewrite insert_delete_eq. Qed.
Lemma pipe_side_junk (fds : fdtable) fd p ends : p = ends.1 \/ p = ends.2 -> fds !! ends.1 = None -> fds !! ends.2 = None -> pipe_side fd p ends fds = delete fd fds.
Proof.
  intros Hp H1 H2. assert (forall q, fds !! q = None -> delete fd fds !! q = None) as Hd by (intros q Hq; by apply lookup_delete_None; right).
  unfold pipe_side, dup_fd. rewrite (Hd p) by (by destruct Hp as [-> | ->]). by rewrite !delete_id by (rewrite ?lookup_delete_None; auto).
Qed.

(** ** [runcmd] *)

Context (Hpid : 0 < child_pid sys).

Lemma runs_close (k : itree sysE void) fds stdin n fd x :
  runs k (mkLocal (delete fd fds) stdin n) x -> runs (call_ (Close fd);; k) (mkLocal fds stdin n) x.
Proof using Type. intros Hk. by eapply (runs_quiet_ (fun t => t) ctx_id (Close fd)). Qed.
Lemma runs_dup (k : itree sysE void) fds stdin n p x :
  runs k (mkLocal (dup_fd p fds) stdin n) x -> runs (call_ (Dup p);; k) (mkLocal fds stdin n) x.
Proof using Type.
  intros Hk. assert (exists r, answer (Dup p) (mkLocal fds stdin n) = Some (r, mkLocal (dup_fd p fds) stdin n)) as [r Hr].
  { unfold dup_fd. cbn. unfold new_fd. cbn [l_fds]. destruct (fds !! p); [|by eexists]. destruct (fdalloc fds); by eexists. }
  by eapply (runs_quiet_ (fun t => t) ctx_id (Dup p)).
Qed.

(** The child that runs one side of a pipeline. *)
Lemma runs_side (k : itree sysE void) fds stdin n fd p ends x :
  runs k (mkLocal (pipe_side fd p ends fds) stdin n) x ->
  runs (call_ (Close fd);; call_ (Dup p);; call_ (Close ends.1);; call_ (Close ends.2);; k) (mkLocal fds stdin n) x.
Proof using Type. intros Hk. by apply runs_close, runs_dup, runs_close, runs_close. Qed.

Lemma runcmd_ok c : forall fds stdin n, runs (runcmd c) (mkLocal fds stdin n) (plumbing c fds n).
Proof using Hpid.
  induction c as [argv|c IH file mode fd|l IHl r IHr|l IHl r IHr|c IH]; intros fds stdin n; cbn [runcmd plumbing].
  - destruct argv as [|path args]; [apply runs_exit_last|]. destruct (can_run sys path) eqn:E; [by apply runs_execv|].
    apply (runs_call_ (fun t => t) ctx_id (Execv path (path :: args)) _ _ (-1) (mkLocal fds stdin n) (Printed _ _ _ _) n); [exact E|done|].
    apply (runs_call (fun t => t) ctx_id (Printf _ _ _) _ _ tt (mkLocal fds stdin n)); [done..|]. apply runs_exit_last.
  - apply runs_close. destruct (opened file mode ≫= _) as [fds'|] eqn:E.
    + apply bind_Some in E as (o & Ho & (fd' & Hfd & ->)%fmap_Some_1). pose proof (fdalloc_some _ _ Hfd) as [Hr _].
      eapply (runs_quiet (fun t => t) ctx_id (Open file mode)); [done|cbn; rewrite Ho; unfold new_fd; cbn [l_fds]; by rewrite Hfd|].
      rewrite (proj2 (Z.ltb_ge fd' 0)) by lia. apply IH.
    + eapply (runs_quiet (fun t => t) ctx_id (Open file mode) _ _ (-1) (mkLocal (delete fd fds) stdin n)); [done| |].
      { cbn. destruct (opened file mode) as [o|]; [|done]. apply fmap_None in E. unfold new_fd. cbn [l_fds]. by rewrite E. }
      change (-1 <? 0) with true. cbv iota.
      apply (runs_call (fun t => t) ctx_id (Printf _ _ _) _ _ tt (mkLocal (delete fd fds) stdin n)); [done..|]. apply runs_exit_last.
  - eapply (runs_quiet (fun t => t) ctx_id Pipe _ _ (0, stack_junk sys n) (mkLocal fds stdin (S n))); [done..|]. cbn [fst snd]. change (0 <? 0) with false. cbv iota.
    rewrite (surjective_pairing (stack_junk sys n)). cbv iota. set (ends := stack_junk sys n). cbn [fst snd].
    destruct (plumbing l _ _) as [pl n1] eqn:El. destruct (plumbing r _ _) as [pr n2] eqn:Er.
    apply (runs_fork1 (fun t => t) ctx_id _ _ _ n1); [lia| |].
    + apply runs_side. rewrite <- El. apply IHl.
    + rewrite (proj2 (Z.eqb_neq _ _)) by lia. apply (runs_fork1 (fun t => t) ctx_id _ _ _ n2); [lia| |].
      * apply runs_side. rewrite <- Er. apply IHr.
      * rewrite (proj2 (Z.eqb_neq _ _)) by lia. cbn [l_fds l_stdin]. apply runs_close, runs_close.
        eapply (runs_call_ (fun t => t) ctx_id Wait); [done..|]. eapply (runs_call_ (fun t => t) ctx_id Wait); [done..|]. apply runs_exit_last.
  - destruct (plumbing l _ _) as [pl n1] eqn:El. destruct (plumbing r _ _) as [pr n2] eqn:Er.
    apply (runs_fork1 (fun t => t) ctx_id _ _ _ n1); [lia| |].
    + rewrite <- El. apply IHl.
    + rewrite (proj2 (Z.eqb_neq _ _)) by lia. eapply (runs_call_ (fun t => t) ctx_id Wait); [done..|]. rewrite <- Er. apply IHr.
  - destruct (plumbing c _ _) as [pc n1] eqn:Ec. apply (runs_fork1 (fun t => t) ctx_id _ _ _ n1); [lia| |].
    + rewrite <- Ec. apply IH.
    + rewrite (proj2 (Z.eqb_neq _ _)) by lia. apply runs_exit_last.
Qed.

(** ** The main loop *)

(** A line of the input: a command, with the white space around its tokens, or
    [cd] and a name. *)
Inductive item : Type :=
| Line (l : sline) (ts : list (list Z * tok)) (trail : list Z)
| Cd (name : list Z).

Definition item_text (i : item) : list Z :=
  match i with Line _ ts trail => render ts trail | Cd name => [99; 100; 32] ++ name ++ [10] end.

(** A line ends with its newline and fits in the buffer. *)
Definition one_line (txt : list Z) : Prop := exists w, (txt = w ++ [10]) /\ (10 ∉ w) /\ (length txt < 100)%nat.
Definition item_ok (i : item) : Prop :=
  one_line (item_text i) /\
  match i with
  | Line l ts trail =>
      line_ok l /\ mem_line l <= MAXN /\ ts.*2 = toks_line l /\ render_ok ts trail = true /\ take 3 (render ts trail) <> [99; 100; 32]
  | Cd name => Forall (fun c => c <> 0) name
  end.

(** What the shell does with the lines. *)
Fixpoint script (items : list item) (fds : fdtable) (n : nat) : process * nat :=
  match items with
  | [] => (Printed stderr (text "$ ") [] (Ended 0), n)
  | Line l _ _ :: items =>
      let '(c, n) := plumbing (tree_line l) fds n in
      let '(p, n) := script items fds n in
      (Printed stderr (text "$ ") [] (Forked c (Waited p)), n)
  | Cd name :: items =>
      let '(p, n) := script items fds n in
      (Printed stderr (text "$ ") []
        (ChangedDir name (if can_enter sys name then p else Printed stderr (text "cannot cd %s" ++ nl) [PStr name] p)), n)
  end.

Lemma read_line_one txt rest : one_line txt -> read_line 99 (txt ++ rest) = (txt, rest).
Proof.
  intros (w & -> & Hw & Hlen). rewrite length_app in Hlen. simpl in Hlen. revert Hlen. generalize 99%nat as m.
  induction w as [|c w IH]; intros [|m] Hlen; try (simpl in Hlen; lia); simpl.
  - done.
  - destruct (Z.eqb_spec c 10) as [->|Hc]; [set_solver|]. rewrite IH; [done|set_solver|simpl in Hlen; lia].
Qed.

Lemma item_nonempty txt : one_line txt -> txt <> [].
Proof. intros (w & -> & _) H. by destruct w. Qed.

Lemma first_byte txt junk : txt <> [] -> Forall (fun c => c <> 0) txt -> byte_at (txt ++ junk) 0 <> 0.
Proof. intros Hne Hall. destruct Hall as [|c txt Hc _]; [done|]. exact Hc. Qed.
Lemma not_cd txt junk : take 3 txt <> [99; 100; 32] ->
  let buf := txt ++ 0 :: junk in (byte_at buf 0 =? 99) && (byte_at buf 1 =? 100) && (byte_at buf 2 =? 32) = false.
Proof.
  intros Hne buf. destruct (Z.eqb_spec (byte_at buf 0) 99) as [H0|]; [|done]. destruct (Z.eqb_spec (byte_at buf 1) 100) as [H1|]; [|done].
  destruct (Z.eqb_spec (byte_at buf 2) 32) as [H2|]; [|done]. exfalso. apply Hne. unfold buf, byte_at in *.
  destruct txt as [|a [|b [|c txt]]]; simpl in *; rewrite ?take_0; congruence.
Qed.

(** The buffer behind a line, and what the child makes of it. *)
Lemma buf_line txt : (length txt < 100)%nat -> txt ++ replicate (100 - length txt) 0 = txt ++ 0 :: replicate (99 - length txt) 0.
Proof. intros Hlen. f_equal. by replace (100 - length txt)%nat with (S (99 - length txt)) by lia. Qed.
Lemma run_line_ok l ts trail fds stdin n : item_ok (Line l ts trail) ->
  runs (run_line (render ts trail ++ 0 :: replicate (99 - length (render ts trail)) 0)) (mkLocal fds stdin n) (plumbing (tree_line l) fds n).
Proof using Hpid.
  intros (_ & Hl & Hm & Hts & Hr & _). unfold run_line.
  destruct (proj1 (wp_ok _ _ _) (parsecmd_ok l ts trail (replicate (99 - length (render ts trail)) 0) (mkPst 0 0) Hl Hm Hts Hr eq_refl)) as (r & st & -> & Htree & _).
  rewrite Htree. apply runcmd_ok.
Qed.
Lemma cd_name_ok name junk : Forall (fun c => c <> 0) name -> cd_name ([99; 100; 32] ++ name ++ [10] ++ 0 :: junk) = name.
Proof.
  intros Hn. unfold cd_name. set (t := [99; 100; 32] ++ name).
  assert (Forall (fun c => c <> 0) t) as Ht by (by repeat constructor).
  assert (cstr ([99; 100; 32] ++ name ++ [10] ++ 0 :: junk) = t ++ [10]) as ->.
  { rewrite !app_assoc. fold t. rewrite <- app_assoc, cstr_app_nonzero by done. done. }
  rewrite length_app. change (length [10]) with 1%nat. rewrite Nat.add_sub. rewrite !app_assoc. fold t. rewrite <- app_assoc.
  rewrite insert_app_r_alt, Nat.sub_diag by lia. change (drop 3 (t ++ _)) with (name ++ [0] ++ 0 :: junk). rewrite cstr_app_nonzero by done. simpl. by rewrite app_nil_r.
Qed.

Section loop.
Context (K : itree sysE unit -> itree sysE void) (HK : ctx K).
Context (Hend : forall fds stdin n, runs (K (Ret tt)) (mkLocal fds stdin n) (Ended 0, n)).

Lemma turn_again_ok body l x : runs (K (while body)) l x -> runs (turn K body (Ret true)) l x.
Proof using HK. intros [fuel H]. exists (S fuel). cbn [run]. by rewrite turn_again. Qed.
Lemma turn_mret_true body l x : runs (K (while body)) l x -> runs (turn K body (mret true)) l x.
Proof using HK. apply turn_again_ok. Qed.

(** One line read into the buffer. *)
Lemma getcmd_ok (f : Z * list Z -> itree sysE bool) body fds stdin n line rest p m :
  read_line 99 stdin = (line, rest) ->
  let buf := line ++ replicate (100 - length line) 0 in
  runs (turn K body (f (if byte_at buf 0 =? 0 then -1 else 0, buf))) (mkLocal fds rest n) (p, m) ->
  runs (turn K body (getcmd 100 ≫= f)) (mkLocal fds stdin n) (Printed stderr (text "$ ") [] p, m).
Proof using HK.
  intros Hread buf H. pose proof (ctx_turn K body HK) as HT. pose proof (ctx_bind (turn K body) f HT) as HTf.
  apply (runs_call (fun t => turn K body (t ≫= f)) HTf (Printf _ _ _) _ _ tt (mkLocal fds stdin n)); [done..|].
  eapply (runs_quiet (fun t => turn K body (t ≫= f)) HTf (Fgets (Z.of_nat 100)) _ _ line (mkLocal fds rest n)); [done| |].
  { change (answer _ _) with (let '(line, rest) := read_line 99 stdin in Some (line, mkLocal fds rest n)). by rewrite Hread. }
  cbv beta. by apply (runs_ret (turn K body) HT).
Qed.

Lemma main_loop_ok items : forall fds n, Forall item_ok items ->
  runs (K (while main_body)) (mkLocal fds (concat (item_text <$> items)) n) (script items fds n).
Proof using Hpid HK Hend.
  pose proof (ctx_turn K main_body HK) as HT.
  induction items as [|i items IH]; intros fds n Hok; (eapply runs_observe; [by apply turn_while|]); unfold main_body at 2.
  - eapply getcmd_ok; [done|]. cbv zeta. change (byte_at _ 0 =? 0) with true. cbv iota beta. change (-1 <? 0) with true. cbv iota.
    eapply runs_observe; [symmetry; by apply turn_done|]. apply Hend.
  - apply Forall_cons in Hok as [Hi Hok]. pose proof Hi as [Hone Hi']. pose proof Hone as (w & Hw & _ & Hlen).
    simpl concat. cbn [script]. destruct i as [l ts trail|name]; cbn [item_text] in *.
    + destruct (plumbing _ _ _) as [c n1] eqn:Ec. destruct (script _ _ _) as [p n2] eqn:Ep.
      eapply getcmd_ok; [by apply read_line_one|]. cbv zeta. rewrite buf_line by done.
      destruct Hi' as (Hl & _ & Hts & Hr & Hcd).
      assert (Forall (fun c => c <> 0) (render ts trail)) as Hnz by (apply render_nonzero; [rewrite Hts; by apply toks_ok_all|done]).
      rewrite (proj2 (Z.eqb_neq _ 0)) by (apply first_byte; [by apply item_nonempty|done]).
      change (0 <? 0) with false. cbv iota. rewrite not_cd by done.
      apply (runs_fork1 (turn K main_body) HT _ _ _ n1); [lia| |].
      * change (0 =? 0) with true. cbv iota. rewrite <- Ec. apply (runs_never (fun t => turn K main_body (t ≫= _))); [by apply (ctx_bind (turn K main_body))|].
        by eapply run_line_ok.
      * rewrite (proj2 (Z.eqb_neq _ 0)) by lia. apply (runs_ret (turn K main_body) HT).
        apply (runs_call_ (turn K main_body) HT Wait _ _ (child_pid sys) (mkLocal fds (concat (item_text <$> items)) n1)); [done..|].
        apply turn_mret_true. rewrite <- Ep. by eapply IH.
    + destruct (script _ _ _) as [p n2] eqn:Ep. eapply getcmd_ok; [by apply read_line_one|]. cbv zeta.
      assert (([99; 100; 32] ++ name ++ [10]) ++ replicate (100 - length ([99; 100; 32] ++ name ++ [10])) 0 =
        [99; 100; 32] ++ name ++ [10] ++ 0 :: replicate (99 - length ([99; 100; 32] ++ name ++ [10])) 0) as ->.
      { rewrite buf_line by done. by rewrite <- !app_assoc. }
      change (byte_at _ 0) with 99. change (byte_at _ 1) with 100. change (byte_at _ 2) with 32.
      change (99 =? 0) with false. change (0 <? 0) with false. change ((99 =? 99) && (100 =? 100) && (32 =? 32)) with true. cbv iota.
      rewrite cd_name_ok by done.
      apply (runs_call (turn K main_body) HT (Chdir name) _ _ (if can_enter sys name then 0 else -1) (mkLocal fds (concat (item_text <$> items)) n)); [done..|].
      destruct (can_enter sys name).
      * change (0 <? 0) with false. cbv iota. apply (runs_ret (turn K main_body) HT). apply turn_mret_true. rewrite <- Ep. by eapply IH.
      * change (-1 <? 0) with true. cbv iota. 
        apply (runs_call (turn K main_body) HT (Printf _ _ _) _ _ tt (mkLocal fds (concat (item_text <$> items)) n)); [done..|].
        apply turn_mret_true. rewrite <- Ep. by eapply IH.
Qed.
End loop.

(** ** The start *)
Fixpoint printed_args (i : Z) (argv : list (list Z)) (p : process) : process :=
  match argv with
  | [] => p
  | a :: argv => Printed 1 (text "sh: argv[%d] = '%s'" ++ nl) [PInt i; PStr a] (printed_args (i + 1) argv p)
  end.
Definition printed_env (p : process) : process :=
  match environ sys (text "TEST_ENV") with
  | Some env => Printed 1 (text "sh: testenv = '%s'" ++ nl) [PStr env] p
  | None => Printed 1 (text "sh: testenv not found!" ++ nl) [] p
  end.

Section start.
Context {B : Type} (K : itree sysE B -> itree sysE void) (HK : ctx K).

Lemma print_args_ok argv (f : unit -> itree sysE B) l p n : forall i,
  runs (K (f tt)) l (p, n) -> runs (K (print_args i argv ≫= f)) l (printed_args i argv p, n).
Proof using HK.
  induction argv as [|a argv IH]; intros i H; cbn [print_args printed_args]; [by apply (runs_ret K HK)|].
  pose proof (ctx_bind K f HK) as HKf.
  apply (runs_call (fun t => K (t ≫= f)) HKf (Printf _ _ _) _ _ tt l); [done..|]. by apply IH.
Qed.

(** The descriptors are open already: one more, which is closed again, or none
    when all are taken. *)
Lemma open_console_ok (f : unit -> itree sysE B) fds stdin n x : (forall fd, 0 <= fd < 3 -> is_Some (fds !! fd)) ->
  runs (K (f tt)) (mkLocal fds stdin n) x -> runs (K (open_console ≫= f)) (mkLocal fds stdin n) x.
Proof using HK.
  intros H2 H. set (Kf := fun t => K (t ≫= f)). pose proof (ctx_bind K f HK : ctx Kf) as HKf. change (runs (Kf open_console) (mkLocal fds stdin n) x).
  eapply runs_observe; [by apply turn_while|]. match goal with |- runs (turn _ ?b _) _ _ => set (body := b) end.
  pose proof (ctx_turn Kf body HKf) as HT. unfold body at 2. destruct (fdalloc fds) as [p|] eqn:Ep.
  - destruct (fdalloc_some _ _ Ep) as [Hp Hnone]. assert (3 <= p).
    { destruct (decide (3 <= p)); [done|]. destruct (H2 p ltac:(lia)) as [o Ho]. by rewrite Hnone in Ho. }
    apply (runs_quiet (turn Kf body) HT (Open console O_RDWR) _ _ p (mkLocal (<[p := Console]> fds) stdin n)); [done| |].
    { cbn. unfold opened. rewrite bool_decide_true by done. unfold new_fd. cbn [l_fds]. by rewrite Ep. }
    rewrite (proj2 (Z.ltb_ge p 0)), (proj2 (Z.leb_le 3 p)) by lia.
    apply (runs_quiet_ (turn Kf body) HT (Close p) _ _ 0 (mkLocal fds stdin n)); [done| |].
    { cbn. rewrite bool_decide_false by (by rewrite lookup_insert_eq). unfold set_l_fds. cbn. by rewrite delete_insert_id. }
    eapply runs_observe; [symmetry; by apply turn_done|]. by apply (runs_ret K HK).
  - apply (runs_quiet (turn Kf body) HT (Open console O_RDWR) _ _ (-1) (mkLocal fds stdin n)); [done| |].
    { cbn. unfold opened. rewrite bool_decide_true by done. unfold new_fd. cbn [l_fds]. by rewrite Ep. }
    change (-1 <? 0) with true. cbv iota. eapply runs_observe; [symmetry; by apply turn_done|]. by apply (runs_ret K HK).
Qed.
End start.

(** C22: The shell does what the lines of its input say. Started with its three
    standard descriptors open, and given any commands of the grammar, in any text
    with white space as one likes, one in a line of less than 100 characters, and
    [cd] lines between them, it makes, line by line, a child for each command and
    waits for it, until the input ends. The child becomes the processes that the
    command means: each program runs with the arguments written and with the
    descriptors of the shell, but for the files that it and the commands around
    it are redirected to, and a redirection to a file that cannot be opened runs
    nothing: while 0 is open, a redirection of 0 or 1 puts the file there. The
    two sides of a pipeline run and are waited for, but this kernel does not
    connect them: the numbers that [pipe] leaves on the stack are duplicated and
    closed, and when they are not descriptors, the left side runs without an
    output and the right side without an input. *)
Theorem sh_script argv items fds n :
  (forall fd, 0 <= fd < 3 -> is_Some (fds !! fd)) -> Forall item_ok items ->
  runs (r ← main argv; exit r) (mkLocal fds (concat (item_text <$> items)) n)
    (printed_args 0 argv (printed_env (script items fds n).1), (script items fds n).2) /\
  (forall (fds : fdtable) fd o, fd = 0 \/ fd = 1 -> is_Some (fds !! 0) -> redirected fd o fds = Some (<[fd := o]> fds)) /\
  (forall (fds : fdtable) ends, fds !! ends.1 = None -> fds !! ends.2 = None ->
     pipe_side 1 ends.2 ends fds = delete 1 fds /\ pipe_side 0 ends.1 ends fds = delete 0 fds).
Proof using Hpid.
  intros H2 Hok. split; [|split; [intros; by apply redirected_standard|split; apply pipe_side_junk; auto]].
  unfold main. set (K := fun t : itree sysE Z => t ≫= fun r => exit r : itree sysE void).
  assert (ctx K) as HK by (apply (ctx_bind (fun t => t)), ctx_id).
  apply (print_args_ok K HK).
  apply (runs_quiet K HK (Getenv _) _ _ (environ sys (text "TEST_ENV")) (mkLocal fds (concat (item_text <$> items)) n)); [done..|].
  assert (runs (K (open_console;; while main_body;; mret 0)) (mkLocal fds (concat (item_text <$> items)) n)
    ((script items fds n).1, (script items fds n).2)) as Hrest.
  { eapply (open_console_ok K HK); [done..|]. rewrite <- surjective_pairing. pose proof (ctx_bind K (fun _ : unit => mret 0) HK) as HK'.
    apply (main_loop_ok (fun t => K (t ≫= fun _ => mret 0)) HK' (fun _ _ _ => ltac:(by exists 1%nat)) items fds n Hok). }
  unfold printed_env. destruct (environ sys _); (eapply (runs_call K HK (Printf _ _ _) _ _ tt); [done..|exact Hrest]).
Qed.
End run.

(** [(ls>f; ps -l)|wc&], then [cd d], where [d] is not a directory. *)
Definition demo_system : system := mkSystem (fun _ _ => true) (fun _ => true) (fun _ => false) 7 (fun _ => (-1, 4294967)) (fun _ => None).
Definition demo_fds : fdtable := {[ 0 := Console; 1 := Console; 2 := Console ]}.
Definition demo_items : list item := [Line demo_line demo_text [10]; Cd [100]].
Definition demo_process : process :=
  let prompt := Printed 2 (User.text "$ ") [] in
  Printed 1 (User.text "sh: testenv not found!" ++ nl) []
    (prompt (Forked
      (Forked
        (Forked
          (Forked
            (Runs [108; 115] [[108; 115]] {[ 0 := Console; 1 := OFile [102] (Z.lor O_WRONLY O_CREAT); 2 := Console ]})
            (Waited (Runs [112; 115] [[112; 115]; [45; 108]] {[ 0 := Console; 2 := Console ]})))
          (Forked (Runs [119; 99] [[119; 99]] {[ 1 := Console; 2 := Console ]}) (Waited (Waited (Ended 0)))))
        (Ended 0))
      (Waited
        (prompt (ChangedDir [100] (Printed 2 (User.text "cannot cd %s" ++ nl) [PStr [100]]
          (prompt (Ended 0)))))))).

Lemma sh_script_witness :
  concat (item_text <$> demo_items) = [40; 108; 115; 62; 102; 59; 32; 112; 115; 32; 45; 108; 41; 124; 119; 99; 38; 10; 99; 100; 32; 100; 10] /\
  runs demo_system (r ← main []; exit r) (mkLocal demo_fds (concat (item_text <$> demo_items)) 0) (demo_process, 1%nat).
Proof.
  split; [reflexivity|].
  assert (forall w, bool_decide (10 ∈ w) = false -> (length w < 99)%nat -> one_line (w ++ [10])) as Hone.
  { intros w Hw Hlen. exists w. split; [done|]. split; [by apply bool_decide_eq_false in Hw|]. rewrite length_app. simpl. lia. }
  refine (proj1 (sh_script demo_system ltac:(done) [] demo_items demo_fds 0 _ _)).
  { intros fd Hfd. assert (fd = 0 \/ fd = 1 \/ fd = 2) as [-> |[-> | ->]] by lia; by eexists. }
  constructor; [|constructor; [|constructor]]; (split; [|split_and?]).
  - apply (Hone [40; 108; 115; 62; 102; 59; 32; 112; 115; 32; 45; 108; 41; 124; 119; 99; 38]); [reflexivity|simpl; lia].
  - repeat constructor; discriminate.
  - vm_compute. discriminate.
  - reflexivity.
  - reflexivity.
  - vm_compute. discriminate.
  - apply (Hone [99; 100; 32; 100]); [reflexivity|simpl; lia].
  - repeat constructor; discriminate.
Defined.
End ShRun.
